(* ===== verification/_CoqProject ===== *)
-Q . S2P
Prelude.v
SqlTokens.v
Graph.v
Values.v
Json.v
JsonText.v
Sha256.v
Manifest.v
PublicJson.v
Relational.v
Lifecycle.v
Samples.v
LifecycleSpec.v
Operational.v
Models.v
Authority.v
Txn.v
Prog.v
Codecs.v
RegistryState.v
Transition.v
Registry.v
RegistryLedger.v
RegistryInv.v
RegistryCatalogue.v
RegistryAuthoritySpec.v
RegistryLifecycleSpec.v
TransitionSpec.v
Contracts.v
Coordinator.v
CoordinatorSpec.v
CoordinatorRuns.v
CoordinatorTheorems.v
Session.v
Replay.v
Composition.v
System.v
Records.v
RecordCompile.v
Datetimes.v
Frozen.v
RecordCommands.v
RecordTables.v
RecordCodecs.v
RecordValues.v
Base64.v
RecordStore.v
RecordMutation.v
RecordSteps.v
RecordEvidence.v
Topology.v
TopologyValues.v
Membership.v
TopologySteps.v
StoreCommands.v
StoreInvariant.v
StoreKeeps.v
RecordSamples.v
StoreTheorems.v
Cursors.v
Pages.v
PagesSpec.v
PagesTheorems.v
Discovery.v
DiscoverySpec.v
DiscoveryTheorems.v
Services.v
ServicesSpec.v
DataApp.v
Deployment.v
Hosting.v
AppTheorems.v
PortableStore.v
PortableStoreSpec.v
PortableSnapshot.v
PortableFence.v
PortableCodec.v
PortableText.v
PortableCodecSpec.v
PortableTheorems.v
