(* ===== verification/Prelude.v ===== *)
(** * AIPCS: a verified model of the core of [aipcs_mcp]

    The program is a server that keeps services for agents: a service is a
    relational schema described by a public manifest, materialised in a store of
    its own, evolved by additive versions, suspended, archived, exported,
    imported and purged.  A registry database is the authority on which services
    exist and which operation is in progress; a coordinator drives the physical
    store to what the registry admitted; a data store keeps the records of a
    service, their history and the branches they are filed under.  Paths below
    are under [src/src/aipcs_mcp].

    ** The parts and their files

    Shared ground.  [Prelude] (this file): strings as code points, the result
    monad, dictionaries, stable sorts, the tactic [bools].  [Txn]: transactions
    over a store that may raise, inversion of a run and preorders every run
    respects.  [Prog]: finite programs that query an environment, their runs and
    postconditions of all runs.  [Json], [Sha256]: [json.dumps] of the canonical
    options, UTF-8 and SHA-256, executable.  [Values]: scalars, identifiers,
    service ids ([numeric_domain.py] and the patterns every module shares).

    Manifests.  [Manifest], [Graph], [PublicJson] ([manifest_v2.py]): the public
    document with every validator; the depth-first cycle check; the public
    dictionary.  [Relational]: the relational specification and
    [compile_manifest] ([relational.py]); [Samples]: concrete manifests and what
    compiling guarantees.  [Transition], [TransitionSpec]:
    [classify_transition] and the additive contract it implements.  [SqlTokens]:
    the comparison of SQL texts ([storage/sqlite/sql_tokens.py]).

    Contracts.  [Lifecycle], [LifecycleSpec] ([lifecycle.py]): commands, intents,
    fingerprints and the recovery planner.  [Operational]
    ([application/operational_lifecycle.py]), [Authority]
    ([application/registry_authority.py]), [Models] ([application/models.py]),
    [Contracts] ([storage/contracts.py], [storage/errors.py]).

    Registry.  [RegistryState]: the five tables of [R4_DDL]
    ([storage/sqlite/migrations.py]) as finite maps and a list, and one
    transaction per SQL statement with the constraints the statement could
    violate, with the effect of each statement.  [Registry]: every
    method of [SQLiteRegistryUnitOfWork] ([storage/sqlite/uow.py]) as a
    composition of the statements.  [Codecs]: what the durable codecs validate.
    The theorems: [RegistryLedger] (what no run can undo), [RegistryInv] and
    [RegistryCatalogue] (the invariant of all reachable states),
    [RegistryLifecycleSpec] and [RegistryAuthoritySpec] (what admission and the
    finalizers do, branch by branch).

    Coordinator.  [Coordinator]: [LifecycleCoordinator]
    ([lifecycle_coordinator.py]) as a program over the queries its collaborators
    answer.  [CoordinatorSpec], [CoordinatorRuns]: the logic of its runs and the
    facts about each part; [CoordinatorTheorems]: the contract of [execute].
    [Session], [Replay], [Composition]: the coordinator served by the registry,
    with other clients and lost commits; [System]: a world in which nothing
    fails, and the properties of the composition.



    Records.  [Records] ([records.py]): frozen JSON, specifications, validation;
    [RecordCompile]: [compile_record_specification]; [RecordCommands]: commands,
    queries, values and outcomes with their checks.  [JsonText]: [json.loads] and
    canonical texts; [Datetimes]: stored times; [Frozen]: facts about frozen JSON.

    Data store.  [RecordTables]: the domain tables and the four tables of [R3_DDL]
    ([storage/sqlite/service_store_migrations.py]) with one transaction per
    statement.  [RecordCodecs], [RecordStore] ([storage/sqlite/data_store.py],
    [storage/write_admission.py]): what is written and read, the operations on
    records, [_mutate] as a program over attempts and observations.  [Topology]
    ([storage/sqlite/topology.py]): branches and assignments.  [RecordValues],
    [TopologyValues]: values read back; [RecordSteps], [TopologySteps]: what an
    operation that returned has written; [RecordMutation]: the contract of
    [_mutate], met by every command in [RecordEvidence] and [StoreCommands];
    [Membership]: parents and roles; [StoreInvariant], [StoreKeeps]: the invariant
    and what a read finds; [RecordSamples]: a concrete store; [StoreTheorems]:
    the properties, and three evaluated oddities.

    Pages.  [Base64]: [base64], UTF-8; [Cursors]: [_query_identity],
    [_seal_cursor], [_open_cursor] and the three kinds of sealed position;
    [Pages]: [list_records], [search_records], [record_history], [list_branches],
    with the general fact about following cursors over a sorted table;
    [PagesSpec]: the whole a walk must return; [PagesTheorems].

    Discovery.  [Discovery] ([storage/sqlite/discovery.py], [service_summary] and
    [maintenance_scan] of the data store), [DiscoverySpec]: the
    reference lists and counts, [DiscoveryTheorems].  SQLite's [julianday] is a
    parameter ([JulianDays]).

    Application.  [Services] ([application/services.py]), [DataApp]
    ([application/data.py]): the use cases as programs over the queries of their
    ports ([application/ports.py]); [Deployment] ([runtime.py]): the bridge to the
    SQLite stores; [ServicesSpec]: what each use case does to the registry;
    [Hosting]: the application over its registry and stores, with other clients;
    [AppTheorems]: the properties.

    Portable transfer.  [PortableCodec] ([application/portable_models.py],
    [application/portable_codec.py], [portable_io.py]): frozen values and their
    one text, frames, digests, the writer of a bundle and the validation of an
    untrusted stream; [PortableText], [PortableCodecSpec]: the text is read back,
    and reader and writer are inverse.  [PortableStore]
    ([application/portable_store.py], [storage/sqlite/portable.py]): members,
    their validation, snapshots, fences, staging and observing;
    [PortableStoreSpec]: what validation decides; [PortableSnapshot]: snapshots of
    consistent stores; [PortableFence]: fences; [PortableTheorems]: the
    properties.

    ** How state and errors are modelled

    A Python dataclass is a record and its [__post_init__] a function that
    returns the value or the exception; a function that may raise returns
    [result].  The registry's unit of work is state passing over the tables: an
    exception keeps the updates made before it until the unit is rolled back,
    which is [unit_of_work].  A data operation is the same over the store's
    tables, run by [mutate_once], which rolls back anything but a success; what
    the file system, the clock and the commit do is a record [attempt] of the
    attempt.  The coordinator is a tree of queries, so every
    answer of its collaborators, exceptions included, is a branch; a theorem
    about all runs holds against every collaborator that keeps the stated law.

    ** Bounds

    The coordinator's loop [while True] takes a bound; [execute_returns] shows
    that five turns are enough, since each turn that goes round attempts a new
    one of three actions or uses the one extra reconciliation.  The cycle check
    recurses on a bound that [has_directed_cycle_correct] shows sufficient.  The
    walk up the parents of a branch takes as many steps as there are branches
    ([parent_check_correct]), and so does the walk of [validate_portable_members]
    ([PortableStoreSpec.parent_walk_total]).  The reader of a bundle takes a turn
    for every byte at most ([accepted_bundle_was_written]).  The lexer and the
    JSON parser recurse on the text.  Integers are unbounded, as Python's are;
    the 64-bit bounds the program checks are checks of the model.

    ** What the theorems show

    Registry: the tables stay consistent in every reachable state; claims are
    decided once, tombstones and purged ids are final, audit rows are bounded;
    saving is a compare and swap; admission is idempotent and exclusive;
    finalizers decide a prepared claim by the service that is stored, except that
    a materialise or evolve raises when the clock ran behind it; a purge
    completes only under its authority.  Coordinator: it always returns, acts
    only after a durable admission, completes only on an observed ready schema,
    reports completion only with committed evidence and unavailability only
    before any schema statement.  Contracts: fingerprints bind requests up to
    SHA-256 collisions, evidence is immutable, plans are total and safe.
    Manifests: validators and compiler accept exactly the well-formed documents,
    the classifier refines the additive contract in both directions.
    Data store: a command is applied at most once whatever happens to its
    commits and whatever commands other clients attempt meanwhile; every
    reachable store is consistent; a read returns what was written; an
    assignment moves the only primary branch and meets no constraint; the cycle
    check always answers, and rightly.

    Pages and discovery: following cursors to the end returns every matching row
    once, in order, for any page size; a cursor of any of the four paged
    operations opens only in its own query; a maintenance scan is the prefix of
    the whole reference list that its limit allows; a summary counts what is
    stored.

    Application: a seed or a design answers and leaves exactly what its branch
    says, and refuses for a reason the registry shows or after a collaborator
    failed; keys bind requests; a data request reaches only the store it names,
    once admitted, while the registry may go on, and its command is applied at
    most once; reads show the registry as it is.

    Portable transfer: validation accepts exactly the meaningful transfers, and
    what a consistent store exports is one; a store does not change behind a
    closed fence; a bundle that is written is read back, and only what can be
    written is accepted.

    ** Parameters

    [FloatRepr]: the text of a float, with the laws of [repr].  [PublicModels]:
    dumping a Pydantic model and validating the dump, with the round trip.
    [UnicodeData]: [str.isprintable], known on visible ASCII.  [FloatRead]:
    [float] of a text, inverse to [repr].  [IsoDates]: [datetime.fromisoformat]
    and the year as [strftime] writes it.  [JulianDays]: SQLite's [julianday].
    Each has an instance at which the
    witnesses are evaluated.

    ** Not modelled

    Files, locks, sidecars, connections and the execution of DDL (the queries of
    [Coordinator] stand for them); the migration runner and older registry
    revisions; the PostgreSQL implementations of the same ports; transports,
    command line, configuration and release scripts.  The spool file of an import
    and the files a purge deletes, the payloads of [application/portable.py] and
    [portable_coordinator.py], the public requests and error envelopes, the
    administrative use cases and the conversion of version-1 manifests.  The JSON
    documents inside the registry's rows are the typed values they encode.  The
    sign of a stored zero (SQLite drops that of -0.0) is kept. *)
From Stdlib Require Export ZArith NArith Ascii String Lia.
From stdpp Require Export base gmap strings list sorting.

Declare Scope py_scope.
Delimit Scope py_scope with py.
#[export] Set Warnings "-notation-overridden,-uniform-inheritance,-clear-no-such-hyp,-register-all".

(** ** Python strings

    A [str] is a sequence of code points, so [len] counts code points and the
    order of [sorted] is the lexicographic order of the code points. *)
Definition pystr := list N.

Definition lit (s : string) : pystr := map N_of_ascii (list_ascii_of_string s).
Coercion lit : string >-> pystr.

#[export] Instance pystr_eq_dec : EqDecision pystr := list_eq_dec.
#[export] Instance pystr_countable : Countable pystr := list_countable.

(** [a <= b] on [str]. *)
Fixpoint str_leb (a b : pystr) : bool :=
  match a, b with
  | [], _ => true
  | _ :: _, [] => false
  | x :: a', y :: b' => (x <? y)%N || ((x =? y)%N && str_leb a' b')
  end.

Definition str_le (a b : pystr) : Prop := str_leb a b = true.
#[export] Instance str_le_dec : RelDecision str_le := fun a b => decide (str_leb a b = true).

(** [str.isspace] for one character, and [str.strip()]. *)
Definition py_isspace (c : N) : bool :=
  ((9 <=? c) && (c <=? 13))%N || ((28 <=? c) && (c <=? 32))%N
  || (c =? 133)%N || (c =? 160)%N || (c =? 5760)%N
  || ((8192 <=? c) && (c <=? 8202))%N || (c =? 8232)%N || (c =? 8233)%N
  || (c =? 8239)%N || (c =? 8287)%N || (c =? 12288)%N.

Fixpoint lstrip_by (space : N -> bool) (s : pystr) : pystr :=
  match s with
  | [] => []
  | c :: s' => if space c then lstrip_by space s' else s
  end.

Definition strip_by (space : N -> bool) (s : pystr) : pystr :=
  reverse (lstrip_by space (reverse (lstrip_by space s))).

Definition strip : pystr -> pystr := strip_by py_isspace.

(** The [White_Space] property of Unicode, which [str_strip_whitespace] of the
    models trims: unlike [str.isspace] it leaves the separators 28 to 31. *)
Definition white_space (c : N) : bool := py_isspace c && negb ((28 <=? c) && (c <=? 31))%N.
Definition trim : pystr -> pystr := strip_by white_space.

(** [s.startswith(p)]. *)
Definition startswith (p s : pystr) : bool := bool_decide (take (length p) s = p).

(** [len(xs) == len(set(xs))]. *)
Definition distinct {A} `{EqDecision A} (xs : list A) : bool :=
  bool_decide (length (remove_dups xs) = length xs).

(** ** The error monad: a value or a raised exception *)
Inductive result (E A : Type) : Type :=
| Ok (a : A)
| Raise (e : E).
Arguments Ok {E A} a.
Arguments Raise {E A} e.

#[export] Instance result_ret {E} : MRet (result E) := fun A a => Ok a.
#[export] Instance result_bind {E} : MBind (result E) :=
  fun A B f m => match m with Ok a => f a | Raise e => Raise e end.
#[export] Instance result_fmap {E} : FMap (result E) :=
  fun A B f m => match m with Ok a => Ok (f a) | Raise e => Raise e end.

(** [if cond: raise e]. *)
Definition raise_if {E} (cond : bool) (e : E) : result E unit :=
  if cond then Raise e else Ok tt.

Fixpoint mapR {E A B} (f : A -> result E B) (l : list A) : result E (list B) :=
  match l with
  | [] => Ok []
  | x :: l' => y ← f x; ys ← mapR f l'; Ok (y :: ys)
  end.

Definition is_ok {E A} (m : result E A) : bool :=
  match m with Ok _ => true | Raise _ => false end.

(** ** Dictionaries: keys in insertion order, the last assignment wins *)
Section dict.
Context {K A : Type} `{EqDecision K}.

Definition dict (K A : Type) := list (K * A).

Fixpoint dict_get (d : list (K * A)) (k : K) : option A :=
  match d with
  | [] => None
  | (k', a) :: d' => if bool_decide (k = k') then Some a else dict_get d' k
  end.

Fixpoint dict_set (d : list (K * A)) (k : K) (a : A) : list (K * A) :=
  match d with
  | [] => [(k, a)]
  | (k', a') :: d' =>
      if bool_decide (k = k') then (k', a) :: d' else (k', a') :: dict_set d' k a
  end.

Definition dict_keys (d : list (K * A)) : list K := map fst d.

(** [{key(x): x for x in xs}]. *)
Definition dict_of (key : A -> K) (xs : list A) : list (K * A) :=
  fold_left (fun d x => dict_set d (key x) x) xs [].
End dict.

(** ** [sorted(xs, key=...)]: insertion sort, stable *)
Section sorting.
Context {A K : Type} (leb : K -> K -> bool) (key : A -> K).

Fixpoint insert_sorted (x : A) (l : list A) : list A :=
  match l with
  | [] => [x]
  | y :: l' => if leb (key x) (key y) then x :: l else y :: insert_sorted x l'
  end.

Definition sorted_by (l : list A) : list A := foldr insert_sorted [] l.
End sorting.

(** [sorted(names)] for a collection of strings. *)
Definition sorted_strs (l : list pystr) : list pystr := sorted_by str_leb id l.

(** [xs <= ys] and [xs - ys] for sets given by the list of their members. *)
Definition subset_of {A} `{EqDecision A} (xs ys : list A) : bool :=
  forallb (fun x => bool_decide (x ∈ ys)) xs.
Definition set_minus {A} `{EqDecision A} (xs ys : list A) : list A :=
  filter (fun x => x ∉ ys) xs.

(** ** Automation *)

(** Booleans to propositions, both ways, in every hypothesis and the goal. *)
Lemma bool_decide_eq_true' (P : Prop) `{Decision P} : bool_decide P = true <-> P.
Proof. apply bool_decide_eq_true. Qed.

Create HintDb py.
Create Rewrite HintDb pybool.
#[export] Hint Rewrite
  andb_true_iff andb_false_iff orb_true_iff orb_false_iff negb_true_iff negb_false_iff
  @bool_decide_eq_true @bool_decide_eq_false
  N.ltb_lt N.ltb_ge N.leb_le N.leb_gt N.eqb_eq N.eqb_neq
  Z.ltb_lt Z.ltb_ge Z.leb_le Z.leb_gt Z.eqb_eq Z.eqb_neq
  Nat.ltb_lt Nat.ltb_ge Nat.leb_le Nat.leb_gt Nat.eqb_eq Nat.eqb_neq
  : pybool.

(** Linear arithmetic with quotients and remainders. *)
Ltac euclid := zify; Z.to_euclidean_division_equations; lia.

Ltac bools := autorewrite with pybool in *.

Lemma elem_of_map {A B} (f : A -> B) l y : y ∈ map f l <-> exists x, y = f x /\ x ∈ l.
Proof. apply (list_elem_of_fmap f l y). Qed.

Section result_lemmas.
Context {E : Type}.

Lemma bind_Ok {A B} (m : result E A) (f : A -> result E B) b :
  m ≫= f = Ok b <-> exists a, m = Ok a /\ f a = Ok b.
Proof.
  destruct m as [a|e]; simpl; [|by split; [|intros (? & ? & _)]].
  split; [by exists a | by intros (? & [= ->] & ?)].
Qed.

Lemma raise_if_Ok (c : bool) (e : E) u : raise_if c e = Ok u <-> c = false.
Proof. by destruct c, u. Qed.

Lemma is_ok_spec {A} (m : result E A) : is_ok m = true <-> exists a, m = Ok a.
Proof. destruct m as [a|e]; simpl; [by split; [exists a|]|by split; [|intros [? ?]]]. Qed.

Lemma mapR_Ok {A B} (f : A -> result E B) l ys :
  mapR f l = Ok ys <-> Forall2 (fun x y => f x = Ok y) l ys.
Proof.
  revert ys; induction l as [|x l IH]; intros ys; simpl.
  - split; [intros [= <-]; constructor | by inversion 1].
  - rewrite bind_Ok. setoid_rewrite bind_Ok. split.
    + intros (y & ? & ys' & ? & [= <-]). constructor; [done | by apply IH].
    + inversion 1 as [|? y ? ys' ? ?]; subst.
      exists y; split; [done|]. exists ys'. by rewrite IH.
Qed.

Lemma mapR_total {A B} (f : A -> result E B) (g : A -> B) l :
  (forall x, x ∈ l -> f x = Ok (g x)) -> mapR f l = Ok (map g l).
Proof.
  intros H. apply mapR_Ok, Forall2_fmap_r, Forall_Forall2_diag, Forall_forall, H.
Qed.

(** A chain of steps run for their exceptions is a conjunction. *)
Lemma raise_if_then {B} (c : bool) (e : E) (m : result E B) b :
  (raise_if c e ;; m) = Ok b <-> c = false /\ m = Ok b.
Proof. destruct c; simpl; naive_solver. Qed.

Lemma unit_then {B} (m : result E unit) (k : result E B) b :
  (m ;; k) = Ok b <-> m = Ok tt /\ k = Ok b.
Proof. destruct m as [[]|]; simpl; naive_solver. Qed.

Lemma mapR_ok_iff {A B} (f : A -> result E B) l :
  (exists ys, mapR f l = Ok ys) <-> forall x, x ∈ l -> exists y, f x = Ok y.
Proof.
  setoid_rewrite mapR_Ok. split.
  - intros [ys H] x [i Hx]%list_elem_of_lookup.
    destruct (Forall2_lookup_l _ _ _ _ _ H Hx) as (y & _ & ?). by exists y.
  - intros H. induction l as [|x l IH]; [by exists []|].
    destruct (H x) as [y Hy]; [by left|].
    destruct IH as [ys Hys]; [intros z Hz; apply H; by right|].
    exists (y :: ys). by constructor.
Qed.

Lemma mapR_then {A B C} (f : A -> result E B) l (m : result E C) c :
  (mapR f l ;; m) = Ok c <-> (forall x, x ∈ l -> exists y, f x = Ok y) /\ m = Ok c.
Proof. rewrite bind_Ok, <- mapR_ok_iff. naive_solver. Qed.

Lemma mapR_unit_then {A C} (f : A -> result E unit) l (m : result E C) c :
  (mapR f l ;; m) = Ok c <-> (forall x, x ∈ l -> f x = Ok tt) /\ m = Ok c.
Proof.
  rewrite mapR_then. split; intros [H ?]; (split; [|done]); intros x Hx.
  - by destruct (H x Hx) as [[] ?].
  - exists tt. by apply H.
Qed.

Lemma mapR_map {A B C} (g : A -> B) (f : B -> result E C) l :
  mapR f (map g l) = mapR (fun x => f (g x)) l.
Proof. induction l as [|x l IH]; simpl; [done|]. by rewrite IH. Qed.

(** A traversal whose steps succeed under [P] with the value [g]. *)
Lemma mapR_iff {A B} (f : A -> result E B) (P : A -> Prop) (g : A -> B) l ys :
  (forall x y, x ∈ l -> f x = Ok y <-> P x /\ y = g x) ->
  mapR f l = Ok ys <-> (forall x, x ∈ l -> P x) /\ ys = map g l.
Proof.
  intros H. rewrite mapR_Ok. split.
  - intros Hl. split.
    + intros x Hx. pose proof Hx as [i Hi]%list_elem_of_lookup.
      destruct (Forall2_lookup_l _ _ _ _ _ Hl Hi) as (y & _ & Hy). by apply (H x y Hx).
    + induction Hl as [|x y l ys Hxy Hl IH]; simpl; [done|]. f_equal.
      * by apply (H x y); [left|].
      * apply IH. intros x' y' Hx'. apply H. by right.
  - intros [HP ->]. apply mapR_Ok, mapR_total. intros x Hx. apply H; [done|]. auto.
Qed.
End result_lemmas.

(** Break a chain of monadic steps that succeeded into its equations. *)
Ltac inv_ok :=
  repeat match goal with
  | H : Ok _ = Ok _ |- _ => injection H as H; try subst
  | H : Raise _ = Ok _ |- _ => discriminate H
  | H : Ok _ = Raise _ |- _ => discriminate H
  | H : mbind _ _ = Ok _ |- _ =>
      apply bind_Ok in H as (? & ? & H)
  | H : raise_if _ _ = Ok _ |- _ => apply raise_if_Ok in H
  end.

(** Case on every [match] or [if] of the goal, closing what computes. *)
Ltac split_cases := repeat (case_match || case_bool_decide); try done.

(** ** Order lemmas *)
#[export] Instance str_le_refl : Reflexive str_le.
Proof.
  intros s; unfold str_le. induction s as [|c s IH]; [done|]. simpl.
  by rewrite N.eqb_refl, IH, orb_true_r.
Qed.

#[export] Instance str_le_antisymm : AntiSymm (=) str_le.
Proof.
  intros a; unfold str_le. induction a as [|x a IH]; intros [|y b]; simpl; try done.
  intros H1 H2; bools.
  assert (x = y) as -> by lia. f_equal. apply IH; intuition lia.
Qed.

#[export] Instance str_le_trans : Transitive str_le.
Proof.
  intros a; unfold str_le. induction a as [|x a IH]; intros [|y b] [|z c]; simpl; try done.
  intros H1 H2; bools.
  destruct H1 as [H1|[-> H1]], H2 as [H2|[-> H2]]; try (left; lia).
  right; split; [done|]. by apply (IH b).
Qed.

#[export] Instance str_le_total : Total str_le.
Proof.
  intros a; unfold str_le. induction a as [|x a IH]; intros [|y b]; simpl; auto.
  bools. destruct (N.lt_trichotomy x y) as [?|[->|?]]; [tauto| |tauto].
  destruct (IH b); [left|right]; right; auto.
Qed.

Section sorting_lemmas.
Context {A K : Type} (leb : K -> K -> bool) (key : A -> K).
Let R (x y : A) : Prop := leb (key x) (key y) = true.

Lemma insert_sorted_perm x l : insert_sorted leb key x l ≡ₚ x :: l.
Proof.
  induction l as [|y l IH]; simpl; [done|]. case_match; [done|].
  rewrite IH. apply Permutation_swap.
Qed.

Lemma sorted_by_perm l : sorted_by leb key l ≡ₚ l.
Proof. induction l as [|x l IH]; simpl; [done|]. by rewrite insert_sorted_perm, IH. Qed.

Lemma elem_of_sorted_by l x : x ∈ sorted_by leb key l <-> x ∈ l.
Proof. by rewrite sorted_by_perm. Qed.

Lemma length_sorted_by l : length (sorted_by leb key l) = length l.
Proof. by rewrite sorted_by_perm. Qed.

Context (Htrans : Transitive R) (Htotal : forall x y, R x y \/ R y x).

Lemma insert_sorted_sorted x l :
  StronglySorted R l -> StronglySorted R (insert_sorted leb key x l).
Proof.
  induction 1 as [|y l Hl IH Hy]; simpl; [repeat constructor|].
  case_match eqn:E.
  - constructor; [by constructor|]. constructor; [done|].
    eapply Forall_impl; [exact Hy|]. intros z ?. by transitivity y.
  - constructor; [done|]. rewrite insert_sorted_perm. constructor; [|done].
    destruct (Htotal x y); [unfold R in *; congruence|done].
Qed.

Lemma sorted_by_sorted l : StronglySorted R (sorted_by leb key l).
Proof. induction l; simpl; [constructor|by apply insert_sorted_sorted]. Qed.

Lemma sorted_by_id l : StronglySorted R l -> sorted_by leb key l = l.
Proof.
  induction 1 as [|x l Hl IH Hx]; simpl; [done|]. rewrite IH.
  destruct Hx as [|y l Hy]; simpl; [done|]. unfold R in Hy. by rewrite Hy.
Qed.
End sorting_lemmas.

(** ** Sorting strings, and keyed collections *)
Section by_str.
Context {A : Type} (key : A -> pystr).

Definition key_le (x y : A) : Prop := str_leb (key x) (key y) = true.

#[export] Instance key_le_trans : Transitive key_le.
Proof. intros x y z; apply (str_le_trans (key x) (key y) (key z)). Qed.

Lemma key_le_total x y : key_le x y \/ key_le y x.
Proof. apply (str_le_total (key x) (key y)). Qed.

Lemma sorted_by_str_sorted l : StronglySorted key_le (sorted_by str_leb key l).
Proof. apply sorted_by_sorted; [apply key_le_trans | apply key_le_total]. Qed.

(** The keys of a sorted collection are sorted. *)
Lemma sorted_keys_sorted l :
  StronglySorted str_le (map key l) <-> StronglySorted key_le l.
Proof.
  induction l as [|x l IH]; simpl; [split; constructor|].
  split; inversion 1 as [|? ? Hs Hf]; subst; constructor; try (by apply IH).
  - by apply (proj1 (List.Forall_map _ _ _)) in Hf.
  - by apply (proj2 (List.Forall_map _ _ _)).
Qed.
End by_str.

Lemma sorted_strs_sorted l : StronglySorted str_le (sorted_strs l).
Proof. apply (sorted_by_str_sorted id). Qed.

Lemma sorted_strs_id l : StronglySorted str_le l -> sorted_strs l = l.
Proof. intros H. by apply (sorted_by_id str_leb id). Qed.

Lemma sorted_strs_fix l : l = sorted_strs l <-> StronglySorted str_le l.
Proof.
  split; [intros -> | intros H; symmetry; by apply sorted_strs_id].
  apply sorted_strs_sorted.
Qed.

Lemma sorted_strs_perm l1 l2 : l1 ≡ₚ l2 -> sorted_strs l1 = sorted_strs l2.
Proof.
  intros H. apply (StronglySorted_unique str_le); try apply sorted_strs_sorted.
  unfold sorted_strs. by rewrite !sorted_by_perm.
Qed.

Lemma elem_of_sorted_strs l x : x ∈ sorted_strs l <-> x ∈ l.
Proof. apply elem_of_sorted_by. Qed.

Lemma NoDup_sorted_by {A} (key : A -> pystr) {B} (g : A -> B) l :
  NoDup (map g (sorted_by str_leb key l)) <-> NoDup (map g l).
Proof. by rewrite sorted_by_perm. Qed.

Lemma NoDup_sorted_strs l : NoDup (sorted_strs l) <-> NoDup l.
Proof. unfold sorted_strs. by rewrite sorted_by_perm. Qed.

(** Mapping a key-preserving function commutes with sorting. *)
Lemma sorted_by_map {A B} (leb : pystr -> pystr -> bool)
    (ka : A -> pystr) (kb : B -> pystr) (f : A -> B) l :
  (forall x, kb (f x) = ka x) ->
  sorted_by leb kb (map f l) = map f (sorted_by leb ka l).
Proof.
  intros Hk. induction l as [|x l IH]; simpl; [done|]. rewrite IH. clear IH.
  induction (sorted_by leb ka l) as [|y l' IH']; simpl; [done|].
  rewrite !Hk. case_match; simpl; [done|]. by rewrite IH'.
Qed.

Lemma map_sorted_by {A} (key : A -> pystr) l :
  map key (sorted_by str_leb key l) = sorted_strs (map key l).
Proof. unfold sorted_strs. by rewrite (sorted_by_map _ key id key). Qed.

(** ** Distinctness *)
Section distinct_lemmas.
Context {A : Type} `{EqDecision A}.

Lemma length_remove_dups (l : list A) : length (remove_dups l) <= length l.
Proof. induction l; simpl; [done|]. case_decide; simpl; lia. Qed.

Lemma distinct_spec (l : list A) : distinct l = true <-> NoDup l.
Proof.
  unfold distinct. rewrite bool_decide_eq_true.
  induction l as [|x l IH]; simpl; [by split; [constructor|]|].
  rewrite NoDup_cons. pose proof (length_remove_dups l).
  case_decide; simpl; [|rewrite <- IH]; intuition lia.
Qed.
End distinct_lemmas.

(** ** Dictionary lemmas *)
Section dict_lemmas.
Context {K A : Type} `{EqDecision K}.
Implicit Types (d : list (K * A)) (xs : list A).

Lemma dict_get_set d k a k' :
  dict_get (dict_set d k a) k' = if bool_decide (k' = k) then Some a else dict_get d k'.
Proof.
  induction d as [|[k0 a0] d IH]; simpl; [done|].
  repeat (case_bool_decide; simpl; subst; try done).
Qed.

Lemma dict_get_Some_in d k a : dict_get d k = Some a -> (k, a) ∈ d.
Proof.
  induction d as [|[k0 a0] d IH]; simpl; [done|]. case_bool_decide.
  - intros [= ->]; subst. by left.
  - intros. right. by apply IH.
Qed.

Lemma dict_get_in d k a : NoDup (map fst d) -> (k, a) ∈ d -> dict_get d k = Some a.
Proof.
  induction d as [|[k0 a0] d IH]; simpl; [by intros _ ?%elem_of_nil|].
  rewrite NoDup_cons, elem_of_cons. intros [Hk0 Hd] [[= -> ->]|Hin].
  - by rewrite bool_decide_true.
  - rewrite bool_decide_false; [by apply IH|]. intros ->. apply Hk0.
    apply elem_of_map. by exists (k0, a).
Qed.

Lemma dict_get_None d k : dict_get d k = None <-> k ∉ map fst d.
Proof.
  induction d as [|[k0 a0] d IH]; simpl; [split; [intros _; apply not_elem_of_nil|done]|].
  rewrite not_elem_of_cons. case_bool_decide as Hk; [|rewrite IH; tauto].
  split; [done|]. by intros [? _].
Qed.

Lemma dict_set_fresh d k a : k ∉ map fst d -> dict_set d k a = d ++ [(k, a)].
Proof.
  induction d as [|[k0 a0] d IH]; simpl; [done|]. rewrite not_elem_of_cons.
  intros [??]. rewrite bool_decide_false by done. f_equal. by apply IH.
Qed.

Context (key : A -> K).

Lemma dict_of_app xs d :
  NoDup (map fst d ++ map key xs) ->
  fold_left (fun d x => dict_set d (key x) x) xs d = d ++ map (fun x => (key x, x)) xs.
Proof.
  revert d; induction xs as [|x xs IH]; intros d Hnd; simpl; [by rewrite app_nil_r|].
  simpl in Hnd. rewrite dict_set_fresh.
  - rewrite IH; [by rewrite <- app_assoc|]. by rewrite map_app, <- app_assoc.
  - intros Hin. apply NoDup_app in Hnd as (_ & Hnd & _). apply (Hnd _ Hin). by left.
Qed.

Lemma dict_of_NoDup xs :
  NoDup (map key xs) -> dict_of key xs = map (fun x => (key x, x)) xs.
Proof. intros. unfold dict_of. by rewrite dict_of_app. Qed.

Lemma dict_of_keys xs : NoDup (map key xs) -> dict_keys (dict_of key xs) = map key xs.
Proof. intros. unfold dict_keys. by rewrite dict_of_NoDup, map_map. Qed.

Lemma dict_of_get xs k x :
  NoDup (map key xs) -> dict_get (dict_of key xs) k = Some x <-> x ∈ xs /\ key x = k.
Proof.
  intros Hnd. rewrite dict_of_NoDup by done. split.
  - intros (y & [= -> ->] & ?)%dict_get_Some_in%elem_of_map. done.
  - intros [Hx <-]. apply dict_get_in; [by rewrite map_map|].
    apply elem_of_map. by exists x.
Qed.

(** A dictionary built from a list has an entry per element exactly when the
    keys are distinct. *)
Lemma dict_set_length d k a :
  k ∈ map fst d -> length (dict_set d k a) = length d.
Proof.
  induction d as [|[k0 a0] d IH]; simpl; [by intros ?%elem_of_nil|].
  intros [->|Hk]%elem_of_cons; [by rewrite bool_decide_true|].
  case_bool_decide; simpl; [done|]. by rewrite IH.
Qed.

Lemma dict_of_length_le xs d :
  length (fold_left (fun d x => dict_set d (key x) x) xs d) <= length d + length xs.
Proof.
  revert d; induction xs as [|x xs IH]; intros d; simpl; [lia|].
  specialize (IH (dict_set d (key x) x)).
  destruct (decide (key x ∈ map fst d)) as [Hin|Hin].
  - rewrite (dict_set_length _ _ x Hin) in IH. lia.
  - rewrite (dict_set_fresh _ _ x Hin), length_app in IH. simpl in IH.
    rewrite (dict_set_fresh _ _ x Hin). lia.
Qed.

Lemma dict_of_length xs :
  length (dict_of key xs) = length xs <-> NoDup (map key xs).
Proof.
  split; [|intros H; by rewrite dict_of_NoDup, length_map].
  enough (forall d, NoDup (map fst d) ->
    length (fold_left (fun d x => dict_set d (key x) x) xs d) = length d + length xs ->
    NoDup (map fst d ++ map key xs)) as H by (apply (H []); constructor).
  induction xs as [|x xs IH]; intros d Hd; simpl; [by rewrite app_nil_r|].
  intros Hlen. destruct (decide (key x ∈ map fst d)) as [Hin|Hin].
  - pose proof (dict_of_length_le xs (dict_set d (key x) x)) as Hle.
    rewrite (dict_set_length _ _ x Hin) in Hle. lia.
  - rewrite (dict_set_fresh _ _ x Hin) in Hlen.
    assert (NoDup (map fst (d ++ [(key x, x)]) ++ map key xs)) as Hnd.
    { apply IH.
      - rewrite map_app. apply NoDup_app. split_and!; [done| |apply NoDup_singleton].
        intros k Hk ->%list_elem_of_singleton. by apply Hin.
      - rewrite Hlen, length_app. simpl. lia. }
    by rewrite map_app, <- app_assoc in Hnd.
Qed.
End dict_lemmas.

#[export] Hint Resolve sorted_by_str_sorted sorted_strs_sorted : py.

Lemma filter_all {A} (P : A -> Prop) `{forall x, Decision (P x)} (l : list A) :
  Forall P l -> filter P l = l.
Proof. induction 1; [done|]. by rewrite filter_cons_True, IHForall. Qed.

(** ** Sets given by the list of their members *)
Lemma subset_of_spec {A} `{EqDecision A} (xs ys : list A) :
  subset_of xs ys = true <-> xs ⊆ ys.
Proof.
  unfold subset_of. rewrite forallb_forall. setoid_rewrite bool_decide_eq_true.
  setoid_rewrite <- list_elem_of_In. done.
Qed.

Lemma elem_of_set_minus {A} `{EqDecision A} (xs ys : list A) x :
  x ∈ set_minus xs ys <-> x ∈ xs /\ x ∉ ys.
Proof. unfold set_minus. rewrite list_elem_of_filter. tauto. Qed.

(** ** Items named by distinct keys, sorted *)
Section keyed.
Context {A : Type} (key : A -> pystr).

Lemma key_inj (l : list A) x y : NoDup (map key l) -> x ∈ l -> y ∈ l -> key x = key y -> x = y.
Proof.
  intros Hnd [i Hi]%list_elem_of_lookup [j Hj]%list_elem_of_lookup Heq.
  assert (i = j) as ->; [|congruence].
  eapply (NoDup_lookup (key <$> l)); [done| |]; rewrite list_lookup_fmap.
  - by rewrite Hi.
  - rewrite Hj. simpl. by f_equal.
Qed.

Lemma same_keys_eq (l1 l2 : list A) :
  NoDup (map key l1) -> l2 ⊆ l1 -> map key l1 = map key l2 -> l1 = l2.
Proof.
  intros Hnd Hsub Heq. apply list_eq. intros i.
  assert (key <$> (l1 !! i) = key <$> (l2 !! i)) as Hi.
  { rewrite <- !list_lookup_fmap. change (map key l1 !! i = map key l2 !! i). by rewrite Heq. }
  destruct (l1 !! i) as [x|] eqn:E1, (l2 !! i) as [y|] eqn:E2; try done. f_equal.
  apply (key_inj l1); [done|by eapply list_elem_of_lookup_2| |by injection Hi].
  by eapply Hsub, list_elem_of_lookup_2.
Qed.

Lemma sorted_by_perm_eq (l1 l2 : list A) :
  NoDup (map key l1) -> l1 ≡ₚ l2 -> sorted_by str_leb key l1 = sorted_by str_leb key l2.
Proof.
  intros Hnd Hp. apply same_keys_eq.
  - by apply NoDup_sorted_by.
  - intros x. rewrite !elem_of_sorted_by. by rewrite Hp.
  - rewrite !map_sorted_by. apply sorted_strs_perm. by rewrite Hp.
Qed.

(** The items of [new] whose key no item of [old] has, sorted. *)
Definition new_items (ks : list pystr) (new : list A) : list A :=
  sorted_by str_leb key (filter (fun x => key x ∉ ks) new).

Lemma map_filter_key (ks : list pystr) xs :
  map key (filter (fun x => key x ∉ ks) xs) = filter (fun k => k ∉ ks) (map key xs).
Proof.
  induction xs as [|x xs IH]; [done|]. cbn [map].
  destruct (decide (key x ∉ ks)).
  - rewrite !filter_cons_True by done. simpl. by rewrite IH.
  - rewrite !filter_cons_False by done. done.
Qed.

Lemma NoDup_filter_key (ks : list pystr) xs : NoDup (map key xs) -> NoDup (map key (filter (fun x => key x ∉ ks) xs)).
Proof. intros. rewrite map_filter_key. by apply NoDup_filter. Qed.

(** [sorted(set(new) - set(old))], as keys. *)
Lemma new_items_keys (ks : list pystr) xs :
  NoDup (map key xs) ->
  sorted_strs (set_minus (dict_keys (dict_of key xs)) ks) = map key (new_items ks xs).
Proof.
  intros Hnd. unfold new_items, set_minus. rewrite map_sorted_by, dict_of_keys by done.
  by rewrite map_filter_key.
Qed.

Lemma elem_of_new_items (ks : list pystr) xs x : x ∈ new_items ks xs <-> x ∈ xs /\ key x ∉ ks.
Proof. unfold new_items. rewrite elem_of_sorted_by, list_elem_of_filter. tauto. Qed.

(** Only the set of items and the set of old keys matter. *)
Lemma new_items_ext (ks1 ks2 : list pystr) xs1 xs2 :
  NoDup (map key xs1) -> xs1 ≡ₚ xs2 -> ks1 ≡ₚ ks2 -> new_items ks1 xs1 = new_items ks2 xs2.
Proof.
  intros Hnd Hx Hk. unfold new_items. apply sorted_by_perm_eq; [by apply NoDup_filter_key|].
  rewrite Hx. erewrite (list_filter_iff _ (fun x => key x ∉ ks2)); [done|].
  intros x. by rewrite Hk.
Qed.

Lemma length_new_items (ks : list pystr) xs :
  NoDup (map key xs) -> NoDup ks -> ks ⊆ map key xs ->
  (length (new_items ks xs) + length ks = length xs)%nat.
Proof.
  intros Hnd Hks Hsub. unfold new_items. rewrite length_sorted_by.
  rewrite <- (length_map key (filter _ _)), map_filter_key, <- (length_map key xs).
  assert (map key xs ≡ₚ filter (fun k => k ∉ ks) (map key xs) ++ ks) as Hp.
  { apply NoDup_Permutation; [done| |].
    - apply NoDup_app. split_and!; [by apply NoDup_filter| |done].
      intros k [? _]%list_elem_of_filter. done.
    - intros k. rewrite elem_of_app, list_elem_of_filter.
      destruct (decide (k ∈ ks)); [split; [by right|by intros _; apply Hsub]|].
      split; [by left|]. intros [[_ ?]|?]; done. }
  rewrite Hp at 2. by rewrite length_app.
Qed.
End keyed.

Lemma new_items_map {A B} (ka : A -> pystr) (kb : B -> pystr) (f : A -> B) ks l :
  (forall x, kb (f x) = ka x) -> new_items kb ks (map f l) = map f (new_items ka ks l).
Proof.
  intros Hk. unfold new_items. rewrite <- (sorted_by_map _ ka kb f) by done. f_equal.
  induction l as [|x l IH]; [done|]. cbn [map].
  destruct (decide (ka x ∉ ks)).
  - rewrite !filter_cons_True by (rewrite ?Hk; done). simpl. by rewrite IH.
  - rewrite !filter_cons_False by (rewrite ?Hk; done). done.
Qed.

(** ** Concatenations *)
Lemma elem_of_concat_map {A B} (f : A -> list B) l y :
  y ∈ concat (map f l) <-> exists x, x ∈ l /\ y ∈ f x.
Proof.
  rewrite list_elem_of_In, in_concat. setoid_rewrite in_map_iff. split.
  - intros (? & (x & <- & Hx) & Hy). exists x. by rewrite !list_elem_of_In.
  - intros (x & Hx & Hy). exists (f x). rewrite list_elem_of_In in Hy. split; [|done].
    exists x. by rewrite <- list_elem_of_In.
Qed.

(** Parts told apart by a tag have no duplicates between them. *)
Lemma NoDup_concat_map {A B K} (f : A -> list B) (tag : B -> K) (key : A -> K) l :
  NoDup (map key l) -> (forall x, x ∈ l -> NoDup (f x)) ->
  (forall x y, x ∈ l -> y ∈ f x -> tag y = key x) -> NoDup (concat (map f l)).
Proof.
  induction l as [|x l IH]; simpl; [constructor|]. intros [Hx Hl]%NoDup_cons Hf Ht.
  apply NoDup_app. split_and!.
  - apply Hf. by left.
  - intros y Hy (x' & Hx' & Hy')%elem_of_concat_map. apply Hx, elem_of_map. exists x'.
    split; [|done]. transitivity (tag y); [symmetry|].
    + apply Ht; [by left|done].
    + apply Ht; [by right|done].
  - apply IH; [done| |]; intros; [apply Hf; by right|apply Ht; [by right|done]].
Qed.

Lemma NoDup_combine {A B K} (key : A -> K) (xs : list A) (ys : list B) :
  NoDup (map key xs) -> NoDup (map (fun p => key p.1) (combine xs ys)).
Proof.
  revert ys; induction xs as [|x xs IH]; intros [|y ys]; simpl; try (intros; constructor).
  - intros (z & Hkey & Hz)%elem_of_map. apply NoDup_cons in H as [Hn _].
    apply Hn, elem_of_map. exists z.1. split; [done|]. apply list_elem_of_In.
    apply list_elem_of_In in Hz. destruct z. by eapply in_combine_l.
  - apply IH. by apply NoDup_cons in H as [_ ?].
Qed.
