(* ===== verification/SqlTokens.v ===== *)
(** * SqlTokens: the fail-closed DDL comparison of [storage/sqlite/sql_tokens.py]

    [tokens] is the lexer [_tokens]; the scan position is kept as the suffix
    of the input still to be read, so [value[position:]] is [rest].  The lexer
    is specified by the inductive relation [lexes], which says which token
    sequence a text denotes without mentioning a scan. *)
From S2P Require Import Prelude.
Open Scope N_scope.

(** ** The lexer *)

(** [_ASCII_WHITESPACE] is space, tab, newline, return, form feed, vertical tab. *)
Definition ASCII_WHITESPACE : pystr := [32; 9; 10; 13; 12; 11].
(** [_PUNCTUATION] is the two parentheses and the comma. *)
Definition PUNCTUATION : pystr := [40; 41; 44].
Definition double_quote : N := 34.
Definition single_quote : N := 39.
Definition semicolon : N := 59.

Definition is_whitespace (c : N) : bool := bool_decide (c ∈ ASCII_WHITESPACE).
Definition is_punctuation (c : N) : bool := bool_decide (c ∈ PUNCTUATION).
Definition is_quote (c : N) : bool := (c =? double_quote) || (c =? single_quote).

Definition is_identifier_start (c : N) : bool :=
  ((65 <=? c) && (c <=? 90)) || ((97 <=? c) && (c <=? 122)) || (c =? 95).

Definition is_identifier_continuation (c : N) : bool :=
  is_identifier_start c || ((48 <=? c) && (c <=? 57)).

(** [_quoted_token] after its opening delimiter: the characters read so far,
    newest first, and the text left.  [None] is the source's [(None, _)]. *)
Fixpoint quoted_token (delimiter : N) (seen rest : pystr) : option (pystr * pystr) :=
  match rest with
  | [] => None
  | c :: rest1 =>
      if c =? semicolon then None
      else if negb (c =? delimiter) then quoted_token delimiter (c :: seen) rest1
      else match rest1 with
           | c2 :: rest2 =>
               if c2 =? delimiter
               then quoted_token delimiter (c2 :: c :: seen) rest2
               else Some (reverse (c :: seen), rest1)
           | [] => Some (reverse (c :: seen), rest1)
           end
  end.

(** The inner loop [while end < len(value) and _is_identifier_continuation(...)]. *)
Fixpoint identifier_rest (rest : pystr) : pystr * pystr :=
  match rest with
  | c :: rest1 =>
      if is_identifier_continuation c
      then let '(w, rest2) := identifier_rest rest1 in (c :: w, rest2)
      else ([], rest)
  | [] => ([], [])
  end.

(** The outcome of the scan: the loop bound is explicit so that a rejected
    text and an exhausted bound are different answers. *)
Inductive lexed : Type :=
| Tokens (ts : list pystr)
| Rejected
| OutOfFuel.

Definition cons_token (t : pystr) (r : lexed) : lexed :=
  match r with Tokens ts => Tokens (t :: ts) | _ => r end.

(** The [while] loop of [_tokens]. *)
Fixpoint scan (fuel : nat) (rest : pystr) : lexed :=
  match fuel with
  | O => OutOfFuel
  | S fuel' =>
      match rest with
      | [] => Tokens []
      | c :: rest1 =>
          if is_whitespace c then scan fuel' rest1
          else if is_quote c then
            match quoted_token c [c] rest1 with
            | None => Rejected
            | Some (quoted, rest2) => cons_token quoted (scan fuel' rest2)
            end
          else if is_identifier_start c then
            let '(w, rest2) := identifier_rest rest1 in
            cons_token (c :: w) (scan fuel' rest2)
          else if is_punctuation c then cons_token [c] (scan fuel' rest1)
          else Rejected
      end
  end.

(** [_tokens] on a string: every iteration consumes a character. *)
Definition tokens (value : pystr) : option (list pystr) :=
  match scan (S (length value)) value with
  | Tokens ts => Some ts
  | _ => None
  end.

(** [sql_tokens_equal]; [None] stands for an argument that is not a [str]. *)
Definition sql_tokens_equal (actual expected : option pystr) : bool :=
  let actual_tokens := actual ≫= tokens in
  let expected_tokens := expected ≫= tokens in
  match actual_tokens with
  | None => false
  | Some _ => bool_decide (actual_tokens = expected_tokens)
  end.

(** ** What a text denotes *)

(** The inside of a quoted token: any character but the delimiter and the
    semicolon, and the delimiter doubled. *)
Inductive quoted_body (d : N) : pystr -> Prop :=
| qb_nil : quoted_body d []
| qb_char c s : c <> d -> c <> semicolon -> quoted_body d s -> quoted_body d (c :: s)
| qb_escape s : quoted_body d s -> quoted_body d (d :: d :: s).

Inductive token : pystr -> Prop :=
| tok_punct c : is_punctuation c = true -> token [c]
| tok_ident c w :
    is_identifier_start c = true ->
    Forall (fun x => is_identifier_continuation x = true) w -> token (c :: w)
| tok_quoted d s : is_quote d = true -> quoted_body d s -> token (d :: s ++ [d]).

(** [stops t rest]: [t] cannot be prolonged with the next character. *)
Definition stops (t rest : pystr) : Prop :=
  match t, rest with
  | c :: _, x :: _ =>
      (is_identifier_start c = true -> is_identifier_continuation x = false)
      /\ (is_quote c = true -> x <> c)
  | _, _ => True
  end.

Inductive lexes : pystr -> list pystr -> Prop :=
| lx_end : lexes [] []
| lx_space c s ts : is_whitespace c = true -> lexes s ts -> lexes (c :: s) ts
| lx_token t s ts : token t -> stops t s -> lexes s ts -> lexes (t ++ s) (t :: ts).

(** [" ".join(ts)]. *)
Fixpoint join_spaces (ts : list pystr) : pystr :=
  match ts with
  | [] => []
  | [t] => t
  | t :: ts' => t ++ 32 :: join_spaces ts'
  end.

(** ** Lemmas of the scan *)

Lemma is_whitespace_facts c :
  is_whitespace c = true ->
  is_quote c = false /\ is_identifier_start c = false
  /\ is_identifier_continuation c = false /\ is_punctuation c = false.
Proof.
  unfold is_whitespace, ASCII_WHITESPACE. rewrite bool_decide_eq_true.
  rewrite !elem_of_cons, elem_of_nil. intros H. repeat destruct H as [->|H]; done.
Qed.

Lemma is_quote_facts c :
  is_quote c = true ->
  is_whitespace c = false /\ is_identifier_start c = false
  /\ is_identifier_continuation c = false /\ is_punctuation c = false /\ c <> semicolon.
Proof. unfold is_quote. bools. by intros [-> | ->]. Qed.

Lemma is_punctuation_facts c :
  is_punctuation c = true ->
  is_whitespace c = false /\ is_quote c = false
  /\ is_identifier_start c = false /\ is_identifier_continuation c = false.
Proof.
  unfold is_punctuation, PUNCTUATION. rewrite bool_decide_eq_true.
  rewrite !elem_of_cons, elem_of_nil. intros H. repeat destruct H as [->|H]; done.
Qed.

Lemma is_identifier_start_facts c :
  is_identifier_start c = true -> is_whitespace c = false /\ is_quote c = false.
Proof.
  intros H. split; apply not_true_is_false; intros Hc.
  - apply is_whitespace_facts in Hc. intuition congruence.
  - apply is_quote_facts in Hc. intuition congruence.
Qed.

Lemma quoted_token_sound n d seen rest q rest2 :
  (length rest <= n)%nat ->
  quoted_token d seen rest = Some (q, rest2) ->
  exists body, quoted_body d body /\ q = reverse seen ++ body ++ [d]
    /\ rest = body ++ d :: rest2 /\ head rest2 <> Some d.
Proof.
  revert seen rest. induction n as [|n IH]; intros seen [|c rest]; simpl; try done; [lia|].
  intros Hn. destruct (N.eqb_spec c semicolon) as [|Hsemi]; [done|].
  destruct (N.eqb_spec c d) as [->|Hd]; simpl.
  - destruct rest as [|c2 rest].
    + intros [= <- <-]. exists []. rewrite reverse_cons.
      split_and!; try done. constructor.
    + destruct (N.eqb_spec c2 d) as [->|Hc2].
      * intros (body & ? & -> & -> & ?)%IH; [|simpl in Hn; lia].
        exists (d :: d :: body). split_and!; try done; [by constructor|].
        by rewrite !reverse_cons, <- !app_assoc.
      * intros [= <- <-]. exists []. rewrite reverse_cons.
        split_and!; try done; [constructor|simpl; congruence].
  - intros (body & ? & -> & -> & ?)%IH; [|lia].
    exists (c :: body). split_and!; try done; [by constructor|].
    by rewrite reverse_cons, <- app_assoc.
Qed.

Lemma quoted_token_complete d body seen rest2 :
  d <> semicolon -> quoted_body d body -> head rest2 <> Some d ->
  quoted_token d seen (body ++ d :: rest2) = Some (reverse seen ++ body ++ [d], rest2).
Proof.
  intros Hd Hbody Hnext. revert seen. induction Hbody as [|c s Hc Hs Hb IH|s Hb IH];
    intros seen; simpl.
  - rewrite (proj2 (N.eqb_neq _ _) Hd), N.eqb_refl. simpl. rewrite reverse_cons.
    destruct rest2 as [|x rest2]; [done|]. destruct (N.eqb_spec x d); [|done].
    subst. by destruct Hnext.
  - rewrite (proj2 (N.eqb_neq _ _) Hs), (proj2 (N.eqb_neq _ _) Hc). simpl.
    by rewrite IH, reverse_cons, <- app_assoc.
  - rewrite (proj2 (N.eqb_neq _ _) Hd), N.eqb_refl. simpl.
    by rewrite IH, !reverse_cons, <- !app_assoc.
Qed.

Lemma identifier_rest_sound rest w rest2 :
  identifier_rest rest = (w, rest2) ->
  rest = w ++ rest2 /\ Forall (fun x => is_identifier_continuation x = true) w
  /\ (forall x, head rest2 = Some x -> is_identifier_continuation x = false).
Proof.
  revert w. induction rest as [|c rest IH]; simpl; intros w; [by intros [= <- <-]|].
  destruct (is_identifier_continuation c) eqn:Hc.
  - destruct (identifier_rest rest) as [w' r] eqn:E. intros [= <- <-].
    destruct (IH w' eq_refl) as (-> & ? & ?). split_and!; try done. by constructor.
  - intros [= <- <-]. split_and!; try done. by intros x [= ->].
Qed.

Lemma identifier_rest_complete w rest2 :
  Forall (fun x => is_identifier_continuation x = true) w ->
  (forall x, head rest2 = Some x -> is_identifier_continuation x = false) ->
  identifier_rest (w ++ rest2) = (w, rest2).
Proof.
  induction 1 as [|c w Hc _ IH]; simpl; intros Hnext.
  - destruct rest2 as [|x rest2]; [done|]. simpl. by rewrite (Hnext x).
  - by rewrite Hc, IH.
Qed.

Lemma cons_token_Tokens t r ts :
  cons_token t r = Tokens ts <-> exists ts', r = Tokens ts' /\ ts = t :: ts'.
Proof.
  destruct r; simpl; (split; [intros [=]|intros (? & [=] & ?)]); subst; [|done].
  by eexists.
Qed.

Lemma scan_sound fuel rest ts : scan fuel rest = Tokens ts -> lexes rest ts.
Proof.
  revert rest ts. induction fuel as [|fuel IH]; intros [|c rest] ts; simpl; try done.
  { intros [= <-]. constructor. }
  destruct (is_whitespace c) eqn:Hw; [by constructor; auto|].
  destruct (is_quote c) eqn:Hq.
  - destruct (quoted_token c [c] rest) as [[q rest2]|] eqn:E; [|done].
    intros (ts' & ? & ->)%cons_token_Tokens.
    apply (quoted_token_sound (length rest)) in E as (body & Hb & -> & -> & Hn); [|done].
    simpl. rewrite cons_middle, app_assoc.
    apply (lx_token (c :: body ++ [c])); [by constructor| |by apply IH].
    destruct rest2 as [|x rest2]; simpl; [done|].
    apply is_quote_facts in Hq as (? & ? & _). split; [congruence|].
    intros _ ->. by destruct Hn.
  - destruct (is_identifier_start c) eqn:Hi.
    + destruct (identifier_rest rest) as [w rest2] eqn:E.
      intros (ts' & ? & ->)%cons_token_Tokens.
      apply identifier_rest_sound in E as (-> & ? & Hn).
      apply (lx_token (c :: w)); [by constructor| |by apply IH].
      destruct rest2 as [|x rest2]; simpl; [done|]. split; [|congruence].
      intros _. by apply Hn.
    + destruct (is_punctuation c) eqn:Hp; [|done].
      intros (ts' & ? & ->)%cons_token_Tokens.
      apply (lx_token [c]); [by constructor| |by apply IH].
      destruct rest; simpl; [done|]. split; congruence.
Qed.

Lemma scan_token fuel t s :
  token t -> stops t s -> scan (S fuel) (t ++ s) = cons_token t (scan fuel s).
Proof.
  intros Ht Hstop. destruct Ht as [c Hc|c w Hc Hw|d body Hd Hb]; simpl.
  - apply is_punctuation_facts in Hc as Hf. destruct Hf as (-> & -> & -> & _).
    by rewrite Hc.
  - destruct (is_identifier_start_facts _ Hc) as [-> ->]. rewrite Hc.
    rewrite identifier_rest_complete; [done|done|].
    destruct s as [|x s]; simpl; [done|]. intros ? [= <-]. by apply Hstop.
  - apply is_quote_facts in Hd as Hf. destruct Hf as (-> & _ & _ & _ & Hs). rewrite Hd.
    rewrite <- app_assoc. simpl. rewrite quoted_token_complete; [done|done|done|].
    destruct s as [|x s]; simpl in *; [done|]. intros [= ->]. by apply Hstop.
Qed.

Lemma scan_complete s ts fuel :
  lexes s ts -> (length s < fuel)%nat -> scan fuel s = Tokens ts.
Proof.
  intros H. revert fuel. induction H as [|c s ts Hc H IH|t s ts Ht Hst H IH];
    intros [|fuel] Hf; simpl in Hf; try lia; [done|by simpl; rewrite Hc; apply IH; lia|].
  rewrite scan_token by done. rewrite IH; [done|]. rewrite length_app in Hf.
  destruct Ht; simpl in *; lia.
Qed.

Lemma scan_terminates fuel s : (length s < fuel)%nat -> scan fuel s <> OutOfFuel.
Proof.
  revert s. induction fuel as [|fuel IH]; intros [|c s] Hf; simpl in *; try lia; [done|].
  assert (forall t s', (length s' <= length s)%nat ->
            cons_token t (scan fuel s') <> OutOfFuel) as Hstep.
  { intros t s' ?. assert (scan fuel s' <> OutOfFuel) by (apply IH; lia).
    by destruct (scan fuel s'). }
  destruct (is_whitespace c); [apply IH; lia|].
  destruct (is_quote c).
  - destruct (quoted_token c [c] s) as [[q s']|] eqn:E; [|done].
    apply (quoted_token_sound (length s)) in E as (body & _ & _ & -> & _); [|done].
    apply Hstep. rewrite length_app. simpl. lia.
  - destruct (is_identifier_start c).
    + destruct (identifier_rest s) as [w s'] eqn:E.
      apply identifier_rest_sound in E as (-> & _). apply Hstep. rewrite length_app. lia.
    + destruct (is_punctuation c); [by apply Hstep|done].
Qed.

Lemma tokens_lexes s ts : tokens s = Some ts <-> lexes s ts.
Proof.
  unfold tokens. split.
  - destruct (scan _ s) eqn:E; [|done..]. intros [= <-]. by apply scan_sound in E.
  - intros H. by rewrite (scan_complete _ _ (S (length s)) H) by lia.
Qed.

Lemma stops_app_space t s c rest :
  stops t s -> is_whitespace c = true -> token t -> stops t (s ++ c :: rest).
Proof.
  intros Hs Hc Ht. destruct s as [|x s]; [|by destruct t]. simpl.
  apply is_whitespace_facts in Hc as (Hq & _ & Hi & _).
  destruct t as [|d t]; [done|]. simpl. split; [done|].
  intros Hd ->. congruence.
Qed.

(** Whitespace between two texts separates their tokens. *)
Lemma lexes_app_space s1 ts1 c s2 ts2 :
  lexes s1 ts1 -> is_whitespace c = true -> lexes s2 ts2 ->
  lexes (s1 ++ c :: s2) (ts1 ++ ts2).
Proof.
  intros H1 Hc H2. induction H1; simpl.
  - by constructor.
  - by constructor.
  - rewrite <- app_assoc. constructor; [done| |done]. by apply stops_app_space.
Qed.

Lemma quoted_body_no_semicolon d s : d <> semicolon -> quoted_body d s -> semicolon ∉ s.
Proof.
  induction 2; rewrite ?not_elem_of_cons; [apply not_elem_of_nil|by split_and!..].
Qed.

Lemma identifier_no_semicolon c : is_identifier_continuation c = true -> c <> semicolon.
Proof. by intros H ->. Qed.

Lemma token_no_semicolon t : token t -> semicolon ∉ t.
Proof.
  destruct 1 as [c Hc|c w Hc Hw|d s Hd Hs].
  - rewrite list_elem_of_singleton. by intros <-.
  - rewrite not_elem_of_cons. split; [by intros <-|].
    intros Hin. rewrite Forall_forall in Hw. by apply (identifier_no_semicolon semicolon); auto.
  - apply is_quote_facts in Hd as (_ & _ & _ & _ & Hd).
    rewrite not_elem_of_cons, not_elem_of_app, list_elem_of_singleton.
    split_and!; [done|by eapply quoted_body_no_semicolon|done].
Qed.

(** ** Properties *)

(** C40: [sql_tokens_equal] accepts two arguments exactly when both are strings
    and some token sequence is denoted by both: the comparison is decided by
    the tokens and nothing else, and every other argument is refused. *)
Theorem sql_tokens_equal_spec (actual expected : option pystr) :
  sql_tokens_equal actual expected = true <->
  exists a e ts, actual = Some a /\ expected = Some e /\ lexes a ts /\ lexes e ts.
Proof.
  unfold sql_tokens_equal. split.
  - destruct actual as [a|]; simpl; [|done]. destruct (tokens a) as [ts|] eqn:Ea; [|done].
    rewrite bool_decide_eq_true. destruct expected as [e|]; simpl; [|done].
    intros Ee. exists a, e, ts. by rewrite <- !tokens_lexes.
  - intros (a & e & ts & -> & -> & Ha & He). simpl.
    apply tokens_lexes in Ha as ->, He as ->. by apply bool_decide_eq_true.
Qed.

(** Printing a token sequence with single spaces and lexing it again gives
    the same sequence. *)
Theorem tokens_join_roundtrip (ts : list pystr) :
  Forall token ts -> tokens (join_spaces ts) = Some ts.
Proof.
  rewrite tokens_lexes. induction 1 as [|t ts Ht Hts IH]; simpl; [constructor|].
  assert (lexes t [t]) as H1.
  { rewrite <- (app_nil_r t) at 1. constructor; [done|by destruct t|constructor]. }
  destruct ts as [|t2 ts]; [done|].
  by apply (lexes_app_space t [t] 32 _ (t2 :: ts)).
Qed.

Lemma tokens_join_roundtrip_witness :
  tokens (join_spaces ["CREATE"%string : pystr; [34; 97; 34; 34; 98; 34]; [40]])
  = Some ["CREATE"%string : pystr; [34; 97; 34; 34; 98; 34]; [40]].
Proof.
  apply tokens_join_roundtrip. apply Forall_cons; split; [|apply Forall_cons; split].
  - apply (tok_ident 67); [done|]. repeat constructor.
  - apply (tok_quoted 34 [97; 34; 34; 98]); [done|].
    apply qb_char; [done|done|]. apply qb_escape. apply qb_char; [done|done|]. constructor.
  - repeat constructor.
Defined.

(** A text that lexes at all holds no semicolon, quoted or not: no accepted
    DDL text carries a second statement. *)
Theorem tokens_no_semicolon (s : pystr) (ts : list pystr) :
  tokens s = Some ts -> semicolon ∉ s.
Proof.
  rewrite tokens_lexes. induction 1 as [|c s ts Hc H IH|t s ts Ht Hst H IH].
  - apply not_elem_of_nil.
  - rewrite not_elem_of_cons. split; [by intros <-|done].
  - rewrite not_elem_of_app. split; [by apply token_no_semicolon|done].
Qed.

Lemma tokens_no_semicolon_witness :
  semicolon ∉ ("create  TABLE t(a, b)"%string : pystr).
Proof. apply (tokens_no_semicolon _ ["create"%string : pystr; "TABLE"%string : pystr; "t"%string : pystr; "("%string : pystr; "a"%string : pystr; ","%string : pystr; "b"%string : pystr; ")"%string : pystr]). vm_compute. reflexivity. Defined.
