(* ===== verification/Graph.v ===== *)
(** * Graph: the depth-first cycle check

    [manifest_v2._has_directed_cycle] and [relational._has_directed_cycle] run
    the same recursive [visit] over two mutable sets; they differ only in how
    the adjacency is stored and in the order in which it is walked.  Here the
    search is written once over an arbitrary successor function, with both
    sets threaded through the calls, and is proved to answer "true" exactly
    when a directed cycle can be reached from the roots, whatever the order. *)
From S2P Require Import Prelude.

Lemma tc_mono {V} (R S : relation V) x y :
  (forall x y, R x y -> S x y) -> tc R x y -> tc S x y.
Proof. intros H. induction 1; [apply tc_once|eapply tc_l]; eauto. Qed.

Section dfs.
Context {V : Type} `{EqDecision V}.

(** [adj node]: the successors of [node] in the order they are visited. *)
Variable adj : V -> list V.

(** The two sets shared by the nested calls: [visiting] ([active]) and
    [visited] ([complete]). *)
Record marks := Marks { visiting : list V; visited : list V }.

(** [any(visit(target) for target in targets)]: stops at the first true. *)
Fixpoint visit_any (visit : marks -> V -> option (bool * marks))
    (st : marks) (targets : list V) : option (bool * marks) :=
  match targets with
  | [] => Some (false, st)
  | t :: targets' =>
      match visit st t with
      | Some (false, st') => visit_any visit st' targets'
      | r => r
      end
  end.

(** [visit]; [None] only when the recursion bound is exhausted. *)
Fixpoint visit (fuel : nat) (st : marks) (node : V) : option (bool * marks) :=
  match fuel with
  | O => None
  | S fuel' =>
      if bool_decide (node ∈ visiting st) then Some (true, st)
      else if bool_decide (node ∈ visited st) then Some (false, st)
      else
        match visit_any (visit fuel') (Marks (node :: visiting st) (visited st)) (adj node) with
        | Some (false, st') =>
            Some (false, Marks (filter (fun x => x <> node) (visiting st'))
                               (node :: visited st'))
        | r => r
        end
  end.

(** [any(visit(node) for node in roots)] from empty sets. *)
Definition cycle_search (fuel : nat) (roots : list V) : option bool :=
  fst <$> visit_any (visit fuel) (Marks [] []) roots.

(** ** Specification *)

Definition edge (x y : V) : Prop := y ∈ adj x.

(** A cycle that can be reached from one of the roots. *)
Definition cyclic_from (roots : list V) : Prop :=
  exists r n, r ∈ roots /\ rtc edge r n /\ tc edge n n.

(** What holds of the two sets between calls: [visited] is closed under edges,
    lies on no cycle, and is disjoint from the duplicate-free stack. *)
Record dfs_inv (st : marks) : Prop := {
  inv_closed : forall x y, x ∈ visited st -> edge x y -> y ∈ visited st;
  inv_acyclic : forall x, x ∈ visited st -> ~ tc edge x x;
  inv_disjoint : forall x, x ∈ visited st -> x ∉ visiting st;
  inv_stack : NoDup (visiting st)
}.

Lemma closed_tc st x y :
  dfs_inv st -> x ∈ visited st -> tc edge x y -> y ∈ visited st.
Proof.
  intros Hinv Hx H. revert Hx. induction H as [x y H|x y z H _ IH]; intros Hx;
    [|apply IH]; by eapply (inv_closed st).
Qed.

(** The result of a call that found no cycle. *)
Record extends (st st' : marks) (nodes : list V) : Prop := {
  ext_inv : dfs_inv st';
  ext_stack : visiting st' = visiting st;
  ext_visited : visited st ⊆ visited st';
  ext_nodes : nodes ⊆ visited st'
}.

(** [visit_any] lifts a specification of [visit] to a list of targets. *)
Lemma visit_any_spec (f : marks -> V -> option (bool * marks)) (P : list V -> V -> Prop) st targets :
  (forall st t, dfs_inv st -> (forall y, y ∈ visiting st -> tc edge y t) ->
     match f st t with
     | Some (true, _) => exists n, rtc edge t n /\ tc edge n n
     | Some (false, st') => extends st st' [t]
     | None => P (visiting st) t
     end) ->
  dfs_inv st ->
  (forall y t, y ∈ visiting st -> t ∈ targets -> tc edge y t) ->
  match visit_any f st targets with
  | Some (true, _) => exists t n, t ∈ targets /\ rtc edge t n /\ tc edge n n
  | Some (false, st') => extends st st' targets
  | None => exists t, t ∈ targets /\ P (visiting st) t
  end.
Proof.
  intros Hf. revert st. induction targets as [|t targets IH]; intros st Hinv Hst; simpl.
  { split; [done..|set_solver]. }
  assert (match f st t with
     | Some (true, _) => exists n, rtc edge t n /\ tc edge n n
     | Some (false, st') => extends st st' [t]
     | None => P (visiting st) t
     end) as Ht by (apply Hf; [done|intros y ?; apply Hst; [done|by left]]).
  destruct (f st t) as [[[|] st']|].
  - destruct Ht as (n & ? & ?). exists t, n. split; [by left|done].
  - destruct Ht as [Hinv' Hstack Hvis Hnode].
    assert (forall y t', y ∈ visiting st' -> t' ∈ targets -> tc edge y t') as Hst'.
    { intros y t'. rewrite Hstack. intros ??. apply Hst; [done|by right]. }
    specialize (IH st' Hinv' Hst').
    destruct (visit_any f st' targets) as [[[|] st'']|].
    + destruct IH as (t' & n & ? & ?). exists t', n. split; [by right|done].
    + destruct IH as [? Hs2 Hv2 Hn2]. split; [done|by rewrite Hs2|by etrans|].
      intros x [->|?]%elem_of_cons; [apply Hv2, Hnode; by left|by apply Hn2].
    + destruct IH as (t' & ? & HP). rewrite Hstack in HP. exists t'. split; [by right|done].
  - exists t. split; [by left|done].
Qed.

(** Leaving a node: pop it from the stack and mark it. *)
Lemma extends_pop st st' node :
  dfs_inv st -> node ∉ visiting st -> node ∉ visited st ->
  extends (Marks (node :: visiting st) (visited st)) st' (adj node) ->
  extends st (Marks (filter (fun x => x <> node) (visiting st')) (node :: visited st')) [node].
Proof.
  intros [Hc Ha Hd Hs] Hn1 Hn2 [[Hc' Ha' Hd' Hs'] Hstack Hvis Hadj]. simpl in *.
  assert (node ∉ visited st') as Hfresh.
  { intros H. apply (Hd' _ H). rewrite Hstack. by left. }
  assert (filter (fun x => x <> node) (visiting st') = visiting st) as Hfilter.
  { rewrite Hstack, filter_cons_False by (by intros ?).
    apply filter_all, Forall_forall. by intros x Hx ->. }
  rewrite Hfilter. split; simpl; [|done|set_solver|set_solver].
  assert (dfs_inv st') as Hinv' by done.
  split; simpl; [| | |done].
  - intros x y [->|Hx]%elem_of_cons Hxy; right; [by apply Hadj|by eapply Hc'].
  - intros x [->|Hx]%elem_of_cons Hcyc; [|by eapply Ha'].
    apply Hfresh. inversion Hcyc as [? ? H1|? y ? H1 H2]; subst.
    + by apply Hadj.
    + by eapply closed_tc; [|apply Hadj|].
  - intros x [->|Hx]%elem_of_cons; [done|]. intros ?. apply (Hd' x Hx).
    rewrite Hstack. by right.
Qed.

(** The recursion depth is bounded by any list of nodes closed under edges. *)
Lemma visit_spec (U : list V) fuel st node :
  (forall x y, edge x y -> y ∈ U) ->
  dfs_inv st ->
  (forall y, y ∈ visiting st -> tc edge y node) ->
  match visit fuel st node with
  | Some (true, _) => exists n, rtc edge node n /\ tc edge n n
  | Some (false, st') => extends st st' [node]
  | None => visiting st ⊆ U -> node ∈ U -> (fuel + length (visiting st) <= length U)%nat
  end.
Proof.
  intros HU. revert st node. induction fuel as [|fuel IH]; intros st node Hinv Hpath; simpl.
  { intros Hsub _. apply submseteq_length, NoDup_submseteq; [apply Hinv|done]. }
  case_bool_decide as Hing; [by exists node; split; [|apply Hpath]|].
  case_bool_decide as Hed; [by split; [done|done|done|set_solver]|].
  assert (dfs_inv (Marks (node :: visiting st) (visited st))) as Hinv1.
  { destruct Hinv as [Hc Ha Hd Hs]. split; simpl; [done|done| |by constructor].
    intros x Hx [->|?]%elem_of_cons; [done|by eapply Hd]. }
  pose proof (visit_any_spec (visit fuel)
    (fun stack t => stack ⊆ U -> t ∈ U -> (fuel + length stack <= length U)%nat)
    _ (adj node) (fun st' t => IH st' t) Hinv1) as Hany.
  ospecialize (Hany _).
  { simpl. intros y t [->|Hy]%elem_of_cons Ht; [by apply tc_once|].
    eapply tc_r; [by apply Hpath|done]. }
  destruct (visit_any _ _ _) as [[[|] st']|].
  - destruct Hany as (t & n & Ht & Hr & Hcyc). exists n. split; [|done]. by eapply rtc_l.
  - by apply extends_pop.
  - destruct Hany as (t & Ht & Hbound). intros Hsub Hnode. simpl in Hbound.
    assert (fuel + S (length (visiting st)) <= length U)%nat; [|lia].
    apply Hbound; [set_solver|by eapply HU].
Qed.

Lemma dfs_inv_empty : dfs_inv (Marks [] []).
Proof. split; simpl; [set_solver..|constructor]. Qed.

(** The search returns, and its answer is reachability of a cycle, whenever
    the bound exceeds the number of nodes of a set closed under edges. *)
Lemma cycle_search_spec (U roots : list V) fuel :
  (forall x y, edge x y -> y ∈ U) -> roots ⊆ U -> (length U < fuel)%nat ->
  exists b, cycle_search fuel roots = Some b /\ (b = true <-> cyclic_from roots).
Proof.
  intros HU Hroots Hfuel. unfold cycle_search.
  pose proof (visit_any_spec (visit fuel)
    (fun stack t => stack ⊆ U -> t ∈ U -> (fuel + length stack <= length U)%nat)
    _ roots (fun st t => visit_spec U fuel st t HU) dfs_inv_empty) as Hany.
  ospecialize (Hany _); [set_solver|].
  destruct (visit_any _ _ _) as [[[|] st']|]; simpl.
  - exists true. split; [done|]. split; [|done]. intros _.
    destruct Hany as (t & n & ? & ? & ?). by exists t, n.
  - exists false. split; [done|]. split; [done|]. intros (r & n & Hr & Hrn & Hn).
    destruct Hany as [Hinv _ _ Hin].
    exfalso. apply (inv_acyclic _ Hinv n); [|done].
    apply rtc_tc in Hrn as [<-|Hrn]; [by apply Hin|].
    eapply closed_tc; [done|by apply Hin|done].
  - destruct Hany as (t & Ht & Hb). exfalso.
    specialize (Hb (list_subseteq_nil _) (Hroots _ Ht)). simpl in Hb. lia.
Qed.

(** If every node with a successor is a root, the roots see every cycle. *)
Lemma cyclic_from_all (roots : list V) :
  (forall x y, edge x y -> x ∈ roots) ->
  cyclic_from roots <-> exists n, tc edge n n.
Proof.
  intros Hroots. split; [by intros (r & n & ? & ? & ?); exists n|].
  intros [n Hn]. exists n, n. split; [|done].
  inversion Hn; subst; by eapply Hroots.
Qed.
End dfs.
Arguments Marks {V} _ _.
Arguments visiting {V} _.
Arguments visited {V} _.
