(* ===== verification/Values.v ===== *)
(** * Values: scalars, JSON values, identifiers and service ids

    The Python values that cross module boundaries: the scalars of
    [numeric_domain.py], JSON trees, the identifier grammar every manifest name
    obeys, bounded texts, and service identifiers with their namespaces. *)
From Stdlib Require Export SpecFloat.
From S2P Require Export Prelude.
Open Scope Z_scope.

(** ** Scalars and JSON

    [int] is unbounded; [float] is a binary64 datum. *)
Inductive scalar : Type :=
| PyStr (s : pystr)
| PyInt (z : Z)
| PyFloat (f : spec_float)
| PyBool (b : bool).

Inductive json : Type :=
| JNull
| JScalar (v : scalar)
| JArr (items : list json)
| JObj (entries : list (pystr * json)).

(** ** [numeric_domain.py] *)

Definition SIGNED_64_MIN : Z := - 2 ^ 63.
Definition SIGNED_64_MAX : Z := 2 ^ 63 - 1.
Definition IEEE_754_EXACT_INTEGER_MAX : Z := 2 ^ 53.

(** [math.isfinite] on a [float]. *)
Definition isfinite (f : spec_float) : bool :=
  match f with S754_zero _ | S754_finite _ _ _ => true | _ => false end.

Definition is_signed_64_integer (value : scalar) : bool :=
  match value with
  | PyInt z => (SIGNED_64_MIN <=? z) && (z <=? SIGNED_64_MAX)
  | _ => false
  end.

Definition is_finite_real (value : scalar) : bool :=
  match value with PyFloat f => isfinite f | _ => false end.

Definition is_exact_number (value : scalar) : bool :=
  match value with
  | PyInt z => (- IEEE_754_EXACT_INTEGER_MAX <=? z) && (z <=? IEEE_754_EXACT_INTEGER_MAX)
  | _ => is_finite_real value
  end.

(** ** Equality of [(type(v), v)] pairs: the type must agree, then [==]. *)
Definition typed_eqb (a b : scalar) : bool :=
  match a, b with
  | PyStr x, PyStr y => bool_decide (x = y)
  | PyInt x, PyInt y => x =? y
  | PyFloat x, PyFloat y => SFeqb x y
  | PyBool x, PyBool y => Bool.eqb x y
  | _, _ => false
  end.

(** [len(xs) == len(set(xs))], [xs <= ys], [xs == ys] and [xs < ys] for sets
    whose members are compared by [eqb]. *)
Section typed_sets.
Context {A : Type} (eqb : A -> A -> bool).

Fixpoint distinct_by (xs : list A) : bool :=
  match xs with
  | [] => true
  | x :: xs' => negb (existsb (eqb x) xs') && distinct_by xs'
  end.

Definition subset_by (xs ys : list A) : bool := forallb (fun x => existsb (eqb x) ys) xs.
Definition set_eq_by (xs ys : list A) : bool := subset_by xs ys && subset_by ys xs.
Definition proper_subset_by (xs ys : list A) : bool :=
  subset_by xs ys && negb (subset_by ys xs).
End typed_sets.

(** ** Identifiers: [IDENTIFIER_PATTERN], [^[a-z][a-z0-9_]{0,62}$] *)
Definition is_lower (c : N) : bool := ((97 <=? c) && (c <=? 122))%N.
Definition is_digit (c : N) : bool := ((48 <=? c) && (c <=? 57))%N.
Definition is_ident_char (c : N) : bool := is_lower c || is_digit c || (c =? 95)%N.

Definition identifier (s : pystr) : bool :=
  match s with
  | [] => false
  | c :: s' => is_lower c && forallb is_ident_char s' && (length s' <=? 62)%nat
  end.

(** [_valid_text(value, maximum)] of the pure lifecycle modules. *)
Definition valid_text (value : pystr) (maximum : nat) : bool :=
  bool_decide (value <> []) && bool_decide (value = strip value)
  && (length value <=? maximum)%nat.

(** A lowercase hexadecimal digest: 64 characters of [0123456789abcdef]. *)
Definition is_hex_digit (c : N) : bool := is_digit c || ((97 <=? c) && (c <=? 102))%N.
Definition valid_sha256 (value : pystr) : bool :=
  (length value =? 64)%nat && forallb is_hex_digit value.

(** ** Service identifiers: the 128-bit integer of a [UUID] *)
Definition UUID := N.

Definition hex_digit (n : N) : N := if (n <? 10)%N then (48 + n)%N else (87 + n)%N.

Fixpoint hex_digits (width : nat) (n : N) : pystr :=
  match width with
  | O => []
  | S w => hex_digits w (n / 16)%N ++ [hex_digit (n mod 16)%N]
  end.

(** [uuid.hex] and [str(uuid)]. *)
Definition uuid_hex (u : UUID) : pystr := hex_digits 32 u.
Definition uuid_str (u : UUID) : pystr :=
  let h := uuid_hex u in
  take 8 h ++ [45%N] ++ take 4 (drop 8 h) ++ [45%N] ++ take 4 (drop 12 h) ++ [45%N]
  ++ take 4 (drop 16 h) ++ [45%N] ++ drop 20 h.

(** [f"svc_{service_id.hex}"]. *)
Definition service_namespace (u : UUID) : pystr := lit "svc_" ++ uuid_hex u.

(** [^svc_[0-9a-f]{32}$]. *)
Definition namespace_pattern (s : pystr) : bool :=
  bool_decide (take 4 s = lit "svc_") && (length s =? 36)%nat
  && forallb is_hex_digit (drop 4 s).

Definition zero_namespace : pystr := service_namespace 0%N.

(** ** Lemmas *)

Lemma length_hex_digits w n : length (hex_digits w n) = w.
Proof.
  revert n; induction w as [|w IH]; intros n; simpl; [done|].
  rewrite length_app, IH. simpl. lia.
Qed.

Lemma hex_digit_inj m n :
  (m < 16)%N -> (n < 16)%N -> hex_digit m = hex_digit n -> m = n.
Proof.
  unfold hex_digit. intros ??.
  destruct (N.ltb_spec m 10), (N.ltb_spec n 10); lia.
Qed.

Lemma hex_digit_is_hex n : (n < 16)%N -> is_hex_digit (hex_digit n) = true.
Proof.
  unfold hex_digit, is_hex_digit, is_digit. intros ?.
  destruct (N.ltb_spec n 10); bools; lia.
Qed.

Lemma hex_digits_is_hex w n : forallb is_hex_digit (hex_digits w n) = true.
Proof.
  revert n; induction w as [|w IH]; intros n; simpl; [done|].
  rewrite forallb_app, IH. simpl. rewrite hex_digit_is_hex; [done|].
  by apply N.mod_lt.
Qed.

Lemma hex_digits_inj w m n :
  (m < 16 ^ N.of_nat w)%N -> (n < 16 ^ N.of_nat w)%N ->
  hex_digits w m = hex_digits w n -> m = n.
Proof.
  revert m n; induction w as [|w IH]; intros m n Hm Hn; simpl.
  { simpl in *. lia. }
  rewrite Nat2N.inj_succ, N.pow_succ_r' in Hm, Hn.
  intros [Hhi Hlo]%app_inj_tail.
  apply IH in Hhi; [|by apply N.Div0.div_lt_upper_bound..].
  apply hex_digit_inj in Hlo; [|by apply N.mod_lt..].
  rewrite (N.div_mod' m 16), (N.div_mod' n 16). congruence.
Qed.

(** Distinct service ids have distinct namespaces. *)
Lemma service_namespace_inj (u v : UUID) :
  (u < 2 ^ 128)%N -> (v < 2 ^ 128)%N -> service_namespace u = service_namespace v -> u = v.
Proof.
  unfold service_namespace, uuid_hex. intros Hu Hv H%app_inv_head.
  by apply hex_digits_inj in H.
Qed.

Lemma service_namespace_pattern u : namespace_pattern (service_namespace u) = true.
Proof.
  unfold namespace_pattern, service_namespace, uuid_hex. bools.
  split_and!; [done| |].
  - rewrite length_app, length_hex_digits. done.
  - rewrite drop_app_length'; [apply hex_digits_is_hex|done].
Qed.

Section typed_sets_lemmas.
Context {A : Type} (eqb : A -> A -> bool).

Lemma set_eq_by_spec xs ys :
  set_eq_by eqb xs ys = true <-> subset_by eqb xs ys = true /\ subset_by eqb ys xs = true.
Proof. apply andb_true_iff. Qed.

Lemma subset_by_spec xs ys :
  subset_by eqb xs ys = true <-> forall x, x ∈ xs -> exists y, y ∈ ys /\ eqb x y = true.
Proof.
  unfold subset_by. rewrite forallb_forall. setoid_rewrite existsb_exists.
  setoid_rewrite list_elem_of_In. done.
Qed.
End typed_sets_lemmas.
