(* ===== verification/Json.v ===== *)
(** * Json: the canonical text of a JSON value

    [json.dumps(value, sort_keys=True, separators=(",", ":"), ensure_ascii=True)],
    the form every fingerprint and checksum of the program is computed on, and
    the proof that two values with the same text are equal up to the order of
    their keys.  [repr] of a [float] is the only part not written out: it is the
    class [FloatRepr], whose laws are what the language reference says of it. *)
From S2P Require Import Prelude Values.

(** ** Floating-point representation *)

(** The characters of a number: digits, minus, plus, point and [e]. *)
Definition number_char (c : N) : bool :=
  is_digit c || (c =? 45)%N || (c =? 43)%N || (c =? 46)%N || (c =? 101)%N.
Definition number_start (c : N) : bool := is_digit c || (c =? 45)%N.

(** A finite binary64 datum. *)
Definition binary64 (f : spec_float) : bool := isfinite f && valid_binary 53 1024 f.

(** [repr] of a finite float: a decimal literal with a point or an exponent,
    from which the same float is read back. *)
Class FloatRepr := {
  float_repr : spec_float -> pystr;
  float_repr_chars : forall f, binary64 f = true -> forallb number_char (float_repr f) = true;
  float_repr_start : forall f, binary64 f = true ->
    exists c s, float_repr f = c :: s /\ number_start c = true;
  float_repr_not_int : forall f, binary64 f = true ->
    existsb (fun c => (c =? 46) || (c =? 101))%N (float_repr f) = true;
  float_repr_inj : forall f g, binary64 f = true -> binary64 g = true ->
    float_repr f = float_repr g -> f = g
}.

(** ** Integers *)

(** The decimal digits of [n], at most [fuel] of them, before [acc]. *)
Fixpoint dec_digits (fuel : nat) (n : N) (acc : pystr) : pystr :=
  match fuel with
  | O => acc
  | S fuel' =>
      let acc' := (48 + n mod 10)%N :: acc in
      if (n / 10 =? 0)%N then acc' else dec_digits fuel' (n / 10)%N acc'
  end.

Definition dec_N (n : N) : pystr := dec_digits (S (N.to_nat (N.size n))) n [].

(** [int.__repr__]. *)
Definition dec_Z (z : Z) : pystr :=
  if (z <? 0) then 45%N :: dec_N (Z.to_N (- z)) else dec_N (Z.to_N z).

(** ** Strings *)

(** The UTF-16 code units of a code point. *)
Definition utf16 (c : N) : list N :=
  if (c <? 65536)%N then [c]
  else let v := (c - 65536)%N in [(55296 + v / 1024)%N; (56320 + v mod 1024)%N].

Definition short_escape (u : N) : option N :=
  if (u =? 34)%N then Some 34%N
  else if (u =? 92)%N then Some 92%N
  else if (u =? 10)%N then Some 110%N
  else if (u =? 13)%N then Some 114%N
  else if (u =? 9)%N then Some 116%N
  else if (u =? 12)%N then Some 102%N
  else if (u =? 8)%N then Some 98%N
  else None.

Definition esc_unit (u : N) : pystr :=
  match short_escape u with
  | Some c => [92%N; c]
  | None =>
      if ((32 <=? u) && (u <=? 126))%N then [u]
      else 92%N :: 117%N :: hex_digits 4 u
  end.

Definition escape (s : pystr) : pystr := concat (map esc_unit (concat (map utf16 s))).
Definition quote (s : pystr) : pystr := 34%N :: escape s ++ [34%N].

(** ** Values *)
Section text.
Context `{FloatRepr}.

Definition float_text (f : spec_float) : pystr :=
  match f with
  | S754_nan => lit "NaN"
  | S754_infinity false => lit "Infinity"
  | S754_infinity true => lit "-Infinity"
  | _ => float_repr f
  end.

Definition scalar_text (v : scalar) : pystr :=
  match v with
  | PyStr s => quote s
  | PyInt z => dec_Z z
  | PyFloat f => float_text f
  | PyBool true => lit "true"
  | PyBool false => lit "false"
  end.

(** [sep.join(parts)] for the separator [","]. *)
Definition join_commas (parts : list pystr) : pystr :=
  match parts with
  | [] => []
  | p :: ps => p ++ concat (map (cons 44%N) ps)
  end.

(** [key:value]. *)
Definition entry_text (key value : pystr) : pystr := quote key ++ 58%N :: value.

Fixpoint json_text (j : json) : pystr :=
  match j with
  | JNull => lit "null"
  | JScalar v => scalar_text v
  | JArr items => 91%N :: join_commas (map json_text items) ++ [93%N]
  | JObj entries =>
      123%N :: join_commas (map (fun e => entry_text e.1 (json_text e.2)) entries) ++ [125%N]
  end.

(** [sort_keys=True]. *)
Fixpoint sort_keys (j : json) : json :=
  match j with
  | JArr items => JArr (map sort_keys items)
  | JObj entries => JObj (sorted_by str_leb fst (map (fun e => (e.1, sort_keys e.2)) entries))
  | _ => j
  end.

Definition json_dumps (j : json) : pystr := json_text (sort_keys j).
End text.

(** ** Induction over JSON values *)
Section json_induction.
Variable P : json -> Prop.
Hypothesis Hnull : P JNull.
Hypothesis Hscalar : forall v, P (JScalar v).
Hypothesis Harr : forall items, Forall P items -> P (JArr items).
Hypothesis Hobj : forall entries, Forall (fun e => P e.2) entries -> P (JObj entries).

Fixpoint json_ind' (j : json) : P j :=
  match j with
  | JNull => Hnull
  | JScalar v => Hscalar v
  | JArr items => Harr items
      ((fix go l : Forall P l :=
          match l with [] => Forall_nil_2 _ | x :: l' => Forall_cons_2 _ _ _ (json_ind' x) (go l') end) items)
  | JObj entries => Hobj entries
      ((fix go l : Forall (fun e => P e.2) l :=
          match l with
          | [] => Forall_nil_2 _
          | x :: l' => Forall_cons_2 (fun e => P e.2) x l' (json_ind' x.2) (go l')
          end) entries)
  end.
End json_induction.

(** ** Well-formed values: Unicode scalar values, finite floats *)
Definition unicode_scalar (c : N) : bool :=
  (c <? 55296)%N || ((57344 <=? c) && (c <? 1114112))%N.
Definition unicode (s : pystr) : bool := forallb unicode_scalar s.

Definition scalar_wf (v : scalar) : bool :=
  match v with PyStr s => unicode s | PyFloat f => binary64 f | _ => true end.

Fixpoint json_wf (j : json) : bool :=
  match j with
  | JNull => true
  | JScalar v => scalar_wf v
  | JArr items => forallb json_wf items
  | JObj entries => forallb (fun e => unicode e.1 && json_wf e.2) entries
  end.

(** ** Decimal integers *)
Definition undec (s : pystr) : N := fold_left (fun a c => (10 * a + (c - 48)))%N s 0%N.

Lemma dec_digits_chars fuel n acc :
  forallb is_digit acc = true -> forallb is_digit (dec_digits fuel n acc) = true.
Proof.
  revert n acc; induction fuel as [|fuel IH]; intros n acc Hacc; simpl; [done|].
  assert (is_digit (48 + n mod 10) = true) as Hd.
  { unfold is_digit. bools. split; euclid. }
  case_match; [simpl; by rewrite Hd|]. apply IH. simpl. by rewrite Hd.
Qed.

Lemma dec_digits_spec fuel n acc :
  (n < 10 ^ N.of_nat fuel)%N ->
  exists ds, dec_digits fuel n acc = ds ++ acc /\ undec ds = n /\ (ds = [] <-> fuel = O).
Proof.
  revert n acc; induction fuel as [|fuel IH]; intros n acc Hn.
  { exists []. simpl in *. split_and!; [done|unfold undec; simpl; lia|done]. }
  cbn [dec_digits]. cbv zeta. destruct (N.eqb_spec (n / 10) 0) as [E|E].
  - exists [(48 + n mod 10)%N]. split_and!; [done| |done]. unfold undec; simpl. euclid.
  - destruct (IH (n / 10)%N ((48 + n mod 10)%N :: acc)) as (ds & -> & Hds & _).
    { rewrite Nat2N.inj_succ, N.pow_succ_r' in Hn. by apply N.Div0.div_lt_upper_bound. }
    exists (ds ++ [(48 + n mod 10)%N]). split_and!.
    + by rewrite <- app_assoc.
    + unfold undec in *. rewrite fold_left_app, Hds. simpl. euclid.
    + split; [by intros [_ ?]%app_nil|done].
Qed.

Lemma dec_N_spec n : undec (dec_N n) = n /\ dec_N n <> [] /\ forallb is_digit (dec_N n) = true.
Proof.
  unfold dec_N.
  destruct (dec_digits_spec (S (N.to_nat (N.size n))) n []) as (ds & Heq & Hds & Hnil).
  - rewrite Nat2N.inj_succ, N2Nat.id. apply N.lt_le_trans with (2 ^ N.size n)%N.
    + apply N.size_gt.
    + transitivity (10 ^ N.size n)%N; [by apply N.pow_le_mono_l|].
      apply N.pow_le_mono_r; lia.
  - rewrite Heq, app_nil_r. split_and!; [done|by intros ?%Hnil|].
    rewrite <- (app_nil_r ds), <- Heq. by apply dec_digits_chars.
Qed.

Lemma dec_Z_inj x y : dec_Z x = dec_Z y -> x = y.
Proof.
  unfold dec_Z.
  assert (forall n m, dec_N n = 45%N :: dec_N m -> False) as Hneg.
  { intros n m H. destruct (dec_N_spec n) as (_ & _ & Hc). rewrite H in Hc. simpl in Hc. done. }
  assert (forall n m, dec_N n = dec_N m -> n = m) as Hinj.
  { intros n m H. rewrite <- (proj1 (dec_N_spec n)), <- (proj1 (dec_N_spec m)). by rewrite H. }
  destruct (Z.ltb_spec x 0), (Z.ltb_spec y 0); intros Heq.
  - injection Heq as Heq%Hinj. lia.
  - symmetry in Heq. by apply Hneg in Heq.
  - by apply Hneg in Heq.
  - apply Hinj in Heq. lia.
Qed.

(** An integer text is a digit or a minus followed by digits. *)
Lemma dec_Z_chars z :
  (exists c s, dec_Z z = c :: s /\ number_start c = true)
  /\ forallb (fun c => is_digit c || (c =? 45)%N) (dec_Z z) = true.
Proof.
  unfold dec_Z. assert (forall n, (exists c s, dec_N n = c :: s /\ number_start c = true)
    /\ forallb (fun c => is_digit c || (c =? 45)%N) (dec_N n) = true) as HN.
  { intros n. destruct (dec_N_spec n) as (_ & Hne & Hc). destruct (dec_N n) as [|c s]; [done|].
    split.
    - exists c, s. split; [done|]. simpl in Hc. unfold number_start. bools. tauto.
    - rewrite forallb_forall in *. intros x Hx%Hc. by rewrite Hx. }
  destruct (z <? 0); [|apply HN]. split; [by eexists _, _|].
  simpl. apply HN.
Qed.

(** ** Escapes are prefix codes *)
Lemma hex4_inj u v r r' :
  (u < 65536)%N -> (v < 65536)%N -> hex_digits 4 u ++ r = hex_digits 4 v ++ r' -> u = v /\ r = r'.
Proof.
  intros Hu Hv H. apply app_inj_1 in H as [H ->]; [|by rewrite !length_hex_digits].
  split; [|done]. by apply (hex_digits_inj 4).
Qed.

Lemma short_escape_inj u v c : short_escape u = Some c -> short_escape v = Some c -> u = v.
Proof.
  unfold short_escape. repeat case_match; intros; simplify_eq; bools; congruence.
Qed.

Lemma short_escape_letter u c : short_escape u = Some c -> c <> 117%N.
Proof. unfold short_escape. repeat case_match; by intros [= <-]. Qed.

Lemma short_escape_none u : short_escape u = None -> u <> 92%N /\ u <> 34%N.
Proof. unfold short_escape. repeat case_match; try done; bools; done. Qed.

Lemma esc_unit_inj u v r r' :
  (u < 65536)%N -> (v < 65536)%N -> esc_unit u ++ r = esc_unit v ++ r' -> u = v /\ r = r'.
Proof.
  intros Hu Hv. unfold esc_unit.
  destruct (short_escape u) as [c|] eqn:Eu, (short_escape v) as [d|] eqn:Ev.
  - intros [= -> ->]. split; [|done]. by eapply short_escape_inj.
  - apply short_escape_letter in Eu. apply short_escape_none in Ev.
    case_match; intros [=]; destruct_and?; congruence.
  - apply short_escape_letter in Ev. apply short_escape_none in Eu.
    case_match; intros [=]; destruct_and?; congruence.
  - apply short_escape_none in Eu, Ev. case_match; case_match; intros Heq.
    + by injection Heq.
    + injection Heq. lia.
    + injection Heq. lia.
    + apply (f_equal (drop 2)) in Heq. exact (hex4_inj _ _ _ _ Hu Hv Heq).
Qed.

Lemma esc_unit_head u : exists c s, esc_unit u = c :: s /\ c <> 34%N.
Proof.
  unfold esc_unit. destruct (short_escape u) eqn:E; [by eexists _, _|].
  apply short_escape_none in E. case_match; eexists _, _; (split; [done|]); [tauto|done].
Qed.

Lemma esc_units_inj us vs r r' :
  Forall (fun u => u < 65536)%N us -> Forall (fun u => u < 65536)%N vs ->
  concat (map esc_unit us) ++ 34%N :: r = concat (map esc_unit vs) ++ 34%N :: r' ->
  us = vs /\ r = r'.
Proof.
  intros Hus. revert vs; induction Hus as [|u us Hu Hus IH]; intros vs Hvs.
  - destruct Hvs as [|v vs Hv Hvs]; simpl; [by intros [= ->]|].
    destruct (esc_unit_head v) as (c & s & -> & Hc). simpl. congruence.
  - destruct Hvs as [|v vs Hv Hvs]; simpl.
    + destruct (esc_unit_head u) as (c & s & -> & Hc). simpl. congruence.
    + rewrite <- !app_assoc. intros [-> H]%esc_unit_inj; [|done..].
      by apply IH in H as [-> ->].
Qed.

Lemma utf16_bound c : unicode_scalar c = true -> Forall (fun u => u < 65536)%N (utf16 c).
Proof.
  unfold unicode_scalar, utf16. intros H. bools. destruct (N.ltb_spec c 65536).
  - by repeat constructor.
  - cbv zeta. repeat constructor; euclid.
Qed.

Lemma utf16_inj s t :
  unicode s = true -> unicode t = true -> concat (map utf16 s) = concat (map utf16 t) -> s = t.
Proof.
  unfold unicode. revert t; induction s as [|c s IH]; intros [|d t]; cbn [map concat forallb].
  - done.
  - unfold utf16. by case_match.
  - unfold utf16. by case_match.
  - rewrite !andb_true_iff. intros [Hc Hs] [Hd Ht].
    unfold unicode_scalar in Hc, Hd. bools. unfold utf16 at 1 3.
    destruct (N.ltb_spec c 65536), (N.ltb_spec d 65536); cbv zeta; cbn [app].
    + intros [= -> Hst]. f_equal. by apply IH.
    + intros [= -> _]. euclid.
    + intros [= <- _]. euclid.
    + intros [= Hhi Hlo Hst]. f_equal; [|by apply IH]. euclid.
Qed.

Lemma units_bound s : unicode s = true -> Forall (fun u => u < 65536)%N (concat (map utf16 s)).
Proof.
  unfold unicode. induction s as [|c s IH]; cbn [forallb map concat]; [constructor|].
  intros [Hc Hs]%andb_true_iff. apply Forall_app. split; [by apply utf16_bound|]. by apply IH.
Qed.

Lemma quote_inj s t r r' :
  unicode s = true -> unicode t = true -> quote s ++ r = quote t ++ r' -> s = t /\ r = r'.
Proof.
  intros Hs Ht. unfold quote, escape. cbn [app]. rewrite <- !app_assoc. cbn [app].
  intros [= H]. apply esc_units_inj in H as [H ->]; [|by apply units_bound..].
  split; [|done]. by apply utf16_inj.
Qed.

(** ** The text of a value determines it *)

(** What may follow a value in a text. *)
Definition delimited (r : pystr) : Prop :=
  match r with [] => True | c :: _ => c = 44%N \/ c = 93%N \/ c = 125%N end.

Lemma span_inj (p : N -> bool) xs ys r r' :
  forallb p xs = true -> forallb p ys = true ->
  (forall c s, r = c :: s -> p c = false) -> (forall c s, r' = c :: s -> p c = false) ->
  xs ++ r = ys ++ r' -> xs = ys /\ r = r'.
Proof.
  intros Hx Hy Hr Hr'. revert ys Hy; induction xs as [|x xs IH]; intros [|y ys] Hy; cbn [app forallb] in *.
  - done.
  - intros ->. apply andb_true_iff in Hy as [Hy _]. by rewrite (Hr y (ys ++ r')) in Hy.
  - intros <-. apply andb_true_iff in Hx as [Hx _]. by rewrite (Hr' x (xs ++ r)) in Hx.
  - apply andb_true_iff in Hx as [_ Hx], Hy as [_ Hy]. intros [= -> H].
    by apply IH in H as [-> ->].
Qed.

Lemma delimited_number r : delimited r -> forall c s, r = c :: s -> number_char c = false.
Proof. intros Hr c s ->. by destruct Hr as [->|[->| ->]]. Qed.

Lemma entry_inj k l v w r r' :
  unicode k = true -> unicode l = true ->
  entry_text k v ++ r = entry_text l w ++ r' -> k = l /\ v ++ r = w ++ r'.
Proof.
  intros Hk Hl. unfold entry_text. rewrite <- !app_assoc.
  intros [-> H]%quote_inj; [|done..]. by injection H.
Qed.

Section injectivity.
Context `{FloatRepr}.

(** The text of a number: its characters and its first one. *)
Definition number_text (s : pystr) : Prop :=
  forallb number_char s = true /\ exists c s', s = c :: s' /\ number_start c = true.

Lemma dec_Z_number z : number_text (dec_Z z).
Proof.
  destruct (dec_Z_chars z) as [Hs Hc]. split; [|done]. rewrite forallb_forall in *.
  intros x Hx%Hc. unfold number_char. bools. tauto.
Qed.

Lemma float_number f : binary64 f = true -> number_text (float_text f) /\ float_text f = float_repr f.
Proof.
  intros Hf. assert (float_text f = float_repr f) as Heq
    by (unfold binary64 in Hf; by destruct f as [|[]| |]).
  rewrite Heq. split; [|done]. split; [by apply float_repr_chars|by apply float_repr_start].
Qed.

Lemma int_not_float z f : binary64 f = true -> dec_Z z = float_repr f -> False.
Proof.
  intros Hf Heq. pose proof (float_repr_not_int f Hf) as Hpoint. rewrite <- Heq in Hpoint.
  apply existsb_exists in Hpoint as (c & Hin & Hc).
  destruct (dec_Z_chars z) as [_ Hall]. rewrite forallb_forall in Hall. apply Hall in Hin.
  unfold is_digit in Hin. bools. lia.
Qed.

Lemma number_inj s t r r' :
  number_text s -> number_text t -> delimited r -> delimited r' -> s ++ r = t ++ r' ->
  s = t /\ r = r'.
Proof.
  intros [Hs _] [Ht _] Hr Hr'. by apply (span_inj number_char); [..|apply delimited_number|apply delimited_number].
Qed.

(** The first character tells the kinds of values apart. *)
Inductive kind := KNull | KTrue | KFalse | KStr | KNum | KArr | KObj.

Definition kind_of (j : json) : kind :=
  match j with
  | JNull => KNull
  | JScalar (PyBool true) => KTrue
  | JScalar (PyBool false) => KFalse
  | JScalar (PyStr _) => KStr
  | JScalar _ => KNum
  | JArr _ => KArr
  | JObj _ => KObj
  end.

Definition head_kind (c : N) : option kind :=
  if (c =? 110)%N then Some KNull
  else if (c =? 116)%N then Some KTrue
  else if (c =? 102)%N then Some KFalse
  else if (c =? 34)%N then Some KStr
  else if number_start c then Some KNum
  else if (c =? 91)%N then Some KArr
  else if (c =? 123)%N then Some KObj else None.

Lemma json_text_head j : json_wf j = true ->
  exists c s, json_text j = c :: s /\ head_kind c = Some (kind_of j).
Proof.
  assert (forall s, number_text s -> exists c s', s = c :: s' /\ head_kind c = Some KNum) as Hnum.
  { intros s [_ (c & s' & -> & Hc)]. exists c, s'. split; [done|]. unfold head_kind.
    rewrite Hc. unfold number_start, is_digit in Hc. bools.
    rewrite !(proj2 (N.eqb_neq c _)) by lia. done. }
  destruct j as [|[s|z|f|[]]|items|entries]; intros Hwf; try (by eexists _, _).
  - apply Hnum, dec_Z_number.
  - cbn [json_text scalar_text]. by apply Hnum, float_number.
Qed.

Lemma scalar_text_inj v w r r' :
  scalar_wf v = true -> scalar_wf w = true -> kind_of (JScalar v) = kind_of (JScalar w) ->
  delimited r -> delimited r' -> scalar_text v ++ r = scalar_text w ++ r' -> v = w /\ r = r'.
Proof.
  intros Hv Hw Hk Hr Hr'.
  destruct v as [s|x|f|[]], w as [t|y|g|[]]; try done; cbn [scalar_text scalar_wf] in *; intros Heq.
  - apply quote_inj in Heq as [-> ->]; done.
  - apply number_inj in Heq as [->%dec_Z_inj ->]; auto using dec_Z_number.
  - destruct (float_number g Hw) as [Hg Hgt].
    apply number_inj in Heq as [Heq _]; auto using dec_Z_number. rewrite Hgt in Heq.
    by apply int_not_float in Heq.
  - destruct (float_number f Hv) as [Hf Hft].
    apply number_inj in Heq as [Heq _]; auto using dec_Z_number. rewrite Hft in Heq.
    symmetry in Heq. by apply int_not_float in Heq.
  - destruct (float_number f Hv) as [Hf Hft], (float_number g Hw) as [Hg Hgt].
    apply number_inj in Heq as [Heq ->]; auto. rewrite Hft, Hgt in Heq.
    by apply float_repr_inj in Heq as ->.
  - by simplify_list_eq.
  - by simplify_list_eq.
Qed.

(** Comma-separated parts up to a closing bracket, for parts that are prefix
    codes and never start with a comma or the bracket. *)
Lemma join_inj {A} (f : A -> pystr) (close : N) (xs ys : list A) r r' :
  close = 93%N \/ close = 125%N ->
  (forall x, x ∈ xs ++ ys -> exists c s, f x = c :: s /\ c <> 93%N /\ c <> 125%N) ->
  (forall x y r r', x ∈ xs -> y ∈ ys -> delimited r -> delimited r' ->
     f x ++ r = f y ++ r' -> x = y /\ r = r') ->
  join_commas (map f xs) ++ close :: r = join_commas (map f ys) ++ close :: r' -> xs = ys /\ r = r'.
Proof.
  intros Hclose Hhead Hinj.
  assert (forall xs' ys', xs' ⊆ xs -> ys' ⊆ ys ->
    concat (map (cons 44%N) (map f xs')) ++ close :: r
    = concat (map (cons 44%N) (map f ys')) ++ close :: r' -> xs' = ys' /\ r = r') as Htail.
  { assert (forall zs s, delimited (concat (map (cons 44%N) (map f zs)) ++ close :: s)) as Hd
      by (intros [|z zs] s; simpl; tauto).
    induction xs' as [|x xs' IH]; intros [|y ys'] Hx Hy; cbn [map concat app].
    - by intros [= ->].
    - intros [=]; lia.
    - intros [=]; lia.
    - rewrite <- !app_assoc. intros [= Heq].
      apply Hinj in Heq as [-> Heq]; [|by apply Hx; left|by apply Hy; left|done..].
      apply IH in Heq as [-> ->]; [done| |]; intros z Hz; [apply Hx|apply Hy]; by right. }
  destruct xs as [|x xs], ys as [|y ys]; cbn [map join_commas app].
  - by intros [= ->].
  - destruct (Hhead y) as (c & s & -> & ? & ?); [by left|]. cbn [app]. intros [=]; lia.
  - destruct (Hhead x) as (c & s & -> & ? & ?); [by left|]. cbn [app]. intros [=]; lia.
  - rewrite <- !app_assoc. intros Heq. apply Hinj in Heq as [-> Heq]; [|by left|by left| |].
    + apply (Htail xs ys) in Heq as [-> ->]; [done| |]; intros z Hz; by right.
    + destruct xs; simpl; tauto.
    + destruct ys; simpl; tauto.
Qed.

Lemma head_not_close c k : head_kind c = Some k -> c <> 93%N /\ c <> 125%N.
Proof. intros Hk. split; intros ->; done. Qed.

Lemma json_text_prefix j :
  forall k r r', json_wf j = true -> json_wf k = true -> delimited r -> delimited r' ->
  json_text j ++ r = json_text k ++ r' -> j = k /\ r = r'.
Proof.
  induction j as [|v|items IH|entries IH] using json_ind'; intros k r r' Hj Hk Hr Hr' Heq;
  (match goal with |- ?x = _ /\ _ =>
     assert (kind_of x = kind_of k) as Hkind by
       (destruct (json_text_head x Hj) as (c & s & Ec & Hc);
        destruct (json_text_head k Hk) as (d & t & Ed & Hd);
        rewrite Ec, Ed in Heq; injection Heq as Hcd _; congruence) end).
  - destruct k as [|[| | |[]]| |]; try done. by apply app_inv_head in Heq.
  - destruct k as [|w| |]; [by destruct v as [| | |[]]| |by destruct v as [| | |[]]..].
    by apply scalar_text_inj in Heq as [-> ->].
  - destruct k as [|[| | |[]]|items'|]; try done. cbn [json_text app json_wf] in *.
    injection Heq as Heq. rewrite <- !app_assoc in Heq. cbn [app] in Heq.
    rewrite forallb_forall in Hj, Hk. rewrite Forall_forall in IH.
    apply join_inj in Heq as [-> ->]; [done|by left| |].
    + intros x Hx. assert (json_wf x = true) as Hw.
      { apply elem_of_app in Hx as [?|?]; [apply Hj|apply Hk]; by apply list_elem_of_In. }
      destruct (json_text_head x Hw) as (c & s & ? & ?%head_not_close). by exists c, s.
    + intros x y s t Hx Hy Hs Ht. apply IH; [done| | |done|done];
        [apply Hj|apply Hk]; by apply list_elem_of_In.
  - destruct k as [|[| | |[]]| |entries']; try done. cbn [json_text app json_wf] in *.
    injection Heq as Heq. rewrite <- !app_assoc in Heq. cbn [app] in Heq.
    rewrite forallb_forall in Hj, Hk. rewrite Forall_forall in IH.
    apply join_inj in Heq as [-> ->]; [done|by right| |].
    + intros [n x] _. cbn [fst snd]. unfold entry_text, quote. cbn [app]. by eexists _, _.
    + intros [n x] [m y] s t Hx Hy Hs Ht Heq'. cbn [fst snd] in Heq'.
      pose proof (proj1 (list_elem_of_In _ _) Hx) as Hx'%Hj.
      pose proof (proj1 (list_elem_of_In _ _) Hy) as Hy'%Hk.
      cbn [fst snd] in Hx', Hy'. apply andb_true_iff in Hx' as [Hn Hwx], Hy' as [Hm Hwy].
      apply entry_inj in Heq' as [-> Heq']; [|done..].
      destruct (IH _ Hx y s t Hwx Hwy Hs Ht Heq') as [Hxy ->]. cbn [snd] in Hxy. by subst y.
Qed.

Lemma json_text_inj j k :
  json_wf j = true -> json_wf k = true -> json_text j = json_text k -> j = k.
Proof.
  intros Hj Hk Heq. apply (json_text_prefix j k [] []); [done..|]. by rewrite Heq.
Qed.

Lemma sort_keys_wf j : json_wf (sort_keys j) = json_wf j.
Proof.
  induction j as [|v|items IH|entries IH] using json_ind'; cbn [sort_keys json_wf]; [done|done| |].
  - induction IH as [|x l Hx _ IHl]; cbn [map forallb]; [done|]. by rewrite Hx, IHl.
  - rewrite Forall_forall in IH. apply eq_true_iff_eq. rewrite !forallb_forall.
    setoid_rewrite <- list_elem_of_In. setoid_rewrite elem_of_sorted_by.
    setoid_rewrite elem_of_map. split.
    + intros Hall [n x] Hx. cbn [fst snd]. pose proof (IH _ Hx) as Hn. cbn [snd] in Hn.
      rewrite <- Hn. apply (Hall (n, sort_keys x)). by exists (n, x).
    + intros Hall [n y] ([m x] & [= -> ->] & Hx). cbn [fst snd].
      pose proof (IH _ Hx) as Hm. cbn [snd] in Hm. rewrite Hm.
      by apply (Hall (m, x)).
Qed.

Lemma json_dumps_inj j k :
  json_wf j = true -> json_wf k = true -> json_dumps j = json_dumps k -> sort_keys j = sort_keys k.
Proof. intros Hj Hk. apply json_text_inj; by rewrite sort_keys_wf. Qed.

(** *** The text is ASCII *)
Definition ascii (s : pystr) : bool := forallb (fun c => c <? 128)%N s.

Lemma ascii_app s t : ascii (s ++ t) = ascii s && ascii t.
Proof. apply forallb_app. Qed.

Lemma ascii_weaken (p : N -> bool) s :
  (forall c, p c = true -> (c < 128)%N) -> forallb p s = true -> ascii s = true.
Proof.
  intros Hp Hs. unfold ascii. rewrite forallb_forall in *. intros c Hc%Hs%Hp. by apply N.ltb_lt.
Qed.

Lemma ascii_concat {A} (f : A -> pystr) l :
  (forall x, x ∈ l -> ascii (f x) = true) -> ascii (concat (map f l)) = true.
Proof.
  induction l as [|x l IH]; intros Hf; [done|]. cbn [map concat]. rewrite ascii_app, Hf by (by left).
  apply IH. intros; apply Hf; by right.
Qed.

Lemma ascii_esc u : ascii (esc_unit u) = true.
Proof.
  unfold esc_unit. destruct (short_escape u) as [c|] eqn:E.
  - unfold short_escape in E. repeat case_match; by simplify_eq.
  - case_match eqn:Ep; cbn [ascii forallb].
    + apply andb_true_iff in Ep as [_ Ep%N.leb_le]. bools. lia.
    + change (ascii (hex_digits 4 u) = true).
      apply (ascii_weaken is_hex_digit); [|apply hex_digits_is_hex].
      intros c. unfold is_hex_digit, is_digit. bools. lia.
Qed.

Lemma ascii_quote s : ascii (quote s) = true.
Proof.
  unfold quote, escape. change (34%N :: ?x) with ([34%N] ++ x). rewrite !ascii_app.
  rewrite ascii_concat; [done|]. intros; apply ascii_esc.
Qed.

Lemma ascii_number s : number_text s -> ascii s = true.
Proof.
  intros [Hs _]. apply (ascii_weaken number_char); [|done].
  intros c. unfold number_char, is_digit. bools. lia.
Qed.

Lemma ascii_join parts : (forall p, p ∈ parts -> ascii p = true) -> ascii (join_commas parts) = true.
Proof.
  destruct parts as [|p ps]; [done|]. intros Hp. cbn [join_commas].
  rewrite ascii_app, Hp by (by left). cbn [andb]. apply (ascii_concat (cons 44%N)).
  intros q Hq. change (ascii q = true). apply Hp. by right.
Qed.

Lemma json_text_ascii j : json_wf j = true -> ascii (json_text j) = true.
Proof.
  induction j as [|v|items IH|entries IH] using json_ind'; cbn [json_wf json_text]; intros Hwf.
  - done.
  - destruct v as [s|z|f|[]]; cbn [scalar_text]; try done.
    + apply ascii_quote.
    + apply ascii_number, dec_Z_number.
    + by apply ascii_number, float_number.
  - change (91%N :: ?x) with ([91%N] ++ x). rewrite !ascii_app, ascii_join; [done|].
    intros p (x & -> & Hx)%elem_of_map. rewrite Forall_forall in IH. rewrite forallb_forall in Hwf.
    apply IH; [done|]. by apply Hwf, list_elem_of_In.
  - change (123%N :: ?x) with ([123%N] ++ x). rewrite !ascii_app, ascii_join; [done|].
    intros p (x & -> & Hx)%elem_of_map. rewrite Forall_forall in IH. rewrite forallb_forall in Hwf.
    unfold entry_text. rewrite ascii_app, ascii_quote. cbn [andb].
    pose proof (proj1 (list_elem_of_In _ _) Hx) as Hx'%Hwf. apply andb_true_iff in Hx' as [_ Hx'].
    exact (IH x Hx Hx').
Qed.

Lemma json_dumps_ascii j : json_wf j = true -> ascii (json_dumps j) = true.
Proof. intros Hj. apply json_text_ascii. by rewrite sort_keys_wf. Qed.
End injectivity.

(** ** A concrete representation of floats *)

(** Sign, significand and exponent of the datum, as [-12e-3]. *)
Definition datum_repr (f : spec_float) : pystr :=
  match f with
  | S754_finite s m e => (if s then [45%N] else []) ++ dec_N (Npos m) ++ [101%N] ++ dec_Z e
  | S754_zero true => lit "-0.0"
  | _ => lit "0.0"
  end.

(** The parts of the text of a nonzero datum. *)
Lemma datum_parts m e m' e' :
  dec_N (Npos m) ++ [101%N] ++ dec_Z e = dec_N (Npos m') ++ [101%N] ++ dec_Z e' -> m = m' /\ e = e'.
Proof.
  intros Heq. apply (span_inj is_digit) in Heq as [Hm He].
  - injection He as He%dec_Z_inj. split; [|done].
    apply (f_equal undec) in Hm. rewrite !(proj1 (dec_N_spec _)) in Hm. congruence.
  - apply dec_N_spec.
  - apply dec_N_spec.
  - by intros c s [= <- _].
  - by intros c s [= <- _].
Qed.

Lemma datum_no_sign m (s t : pystr) : dec_N m ++ s = 45%N :: t -> False.
Proof.
  destruct (dec_N_spec m) as (_ & Hne & Hc). destruct (dec_N m) as [|c cs]; [done|].
  cbn [app]. intros [= -> _]. done.
Qed.

(** A digit string is followed by [e], not by a point. *)
Lemma datum_no_point m s (t : pystr) : dec_N m ++ 101%N :: s = 48%N :: 46%N :: t -> False.
Proof.
  destruct (dec_N_spec m) as (_ & Hne & Hc). destruct (dec_N m) as [|c [|d cs]]; [done|..];
    cbn [app forallb] in *; [by intros [=]|].
  intros [= -> -> _]. by rewrite !andb_false_r in Hc || discriminate Hc.
Qed.

Lemma datum_repr_inj f g :
  binary64 f = true -> binary64 g = true -> datum_repr f = datum_repr g -> f = g.
Proof.
  unfold binary64. destruct f as [[]| | |[] m e], g as [[]| | |[] m' e']; cbn [isfinite andb];
    try done; intros _ _; cbn [datum_repr app];
    change (lit "-0.0") with [45%N; 48%N; 46%N; 48%N];
    change (lit "0.0") with [48%N; 46%N; 48%N]; intros Heq;
    try (exfalso; first [ by eapply datum_no_sign | symmetry in Heq; by eapply datum_no_sign
                 | by eapply datum_no_point | symmetry in Heq; by eapply datum_no_point
                 | injection Heq as Heq; by eapply datum_no_point
                 | injection Heq as Heq; symmetry in Heq; by eapply datum_no_point ]).
  - injection Heq as Heq. by apply datum_parts in Heq as [-> ->].
  - by apply datum_parts in Heq as [-> ->].
Qed.

Lemma datum_repr_chars f : binary64 f = true -> forallb number_char (datum_repr f) = true.
Proof.
  destruct f as [[]| | |s m e]; try done. intros _. cbn [datum_repr].
  rewrite !forallb_app. rewrite (proj1 (dec_Z_number e)).
  assert (forallb number_char (dec_N (Npos m)) = true) as ->; [|by destruct s].
  destruct (dec_N_spec (Npos m)) as (_ & _ & Hc). rewrite forallb_forall in *.
  intros c Hin%Hc. unfold number_char. by rewrite Hin.
Qed.

Lemma datum_repr_start f :
  binary64 f = true -> exists c s, datum_repr f = c :: s /\ number_start c = true.
Proof.
  destruct f as [[]| | |[] m e]; try done; intros _; try (by eexists _, _).
  cbn [datum_repr app]. destruct (dec_N_spec (Npos m)) as (_ & Hne & Hc).
  destruct (dec_N (Npos m)) as [|c s]; [done|]. exists c. eexists. split; [done|].
  cbn [forallb] in Hc. unfold number_start. bools. tauto.
Qed.

Lemma datum_repr_not_int f :
  binary64 f = true -> existsb (fun c => (c =? 46) || (c =? 101))%N (datum_repr f) = true.
Proof.
  destruct f as [[]| | |s m e]; try done. intros _. cbn [datum_repr].
  rewrite !existsb_app. cbn [existsb]. by rewrite !orb_true_r.
Qed.

Definition datum_float_repr : FloatRepr := {|
  float_repr := datum_repr;
  float_repr_chars := datum_repr_chars;
  float_repr_start := datum_repr_start;
  float_repr_not_int := datum_repr_not_int;
  float_repr_inj := datum_repr_inj
|}.
