(* ===== verification/JsonText.v ===== *)
(** * JsonText: reading JSON text, and the canonical text of the record store

    [json.loads] and [json.dumps(value, ensure_ascii=False, separators=(",", ":"),
    sort_keys=True)], the pair every JSON column and cursor of a service store
    goes through.  A text is decoded only if encoding what was read gives it
    back.  Reading a float is the inverse the class [FloatRead] asks of [repr]. *)
From S2P Require Export Json.
From S2P Require Import Prelude Values.

(** ** Writing *)
Definition escape_char (c : N) : pystr :=
  match short_escape c with
  | Some d => [92%N; d]
  | None => if (c <? 32)%N then 92%N :: 117%N :: hex_digits 4 c else [c]
  end.

Definition quoted (s : pystr) : pystr := 34%N :: concat (map escape_char s) ++ [34%N].

Section writing.
Context `{FloatRepr}.

Definition plain_scalar (v : scalar) : pystr :=
  match v with PyStr s => quoted s | _ => scalar_text v end.

Fixpoint plain_text (j : json) : pystr :=
  match j with
  | JNull => lit "null"
  | JScalar v => plain_scalar v
  | JArr items => 91%N :: join_commas (map plain_text items) ++ [93%N]
  | JObj entries =>
      123%N :: join_commas (map (fun e => quoted e.1 ++ 58%N :: plain_text e.2) entries) ++ [125%N]
  end.

(** [_canonical_json]. *)
Definition canonical_json (j : json) : pystr := plain_text (sort_keys j).
End writing.

(** ** Reading numbers: an integer without leading zeros, then a fraction and an
    exponent, either of which may be missing *)
Fixpoint span (p : N -> bool) (s : pystr) : pystr * pystr :=
  match s with
  | c :: s' => if p c then let '(xs, r) := span p s' in (c :: xs, r) else ([], s)
  | [] => ([], [])
  end.

Definition scan_digits (s : pystr) : option (pystr * pystr) :=
  match s with
  | c :: s' =>
      if (c =? 48)%N then Some ([c], s')
      else if is_digit c then Some (span is_digit s) else None
  | [] => None
  end.

Definition scan_int (s : pystr) : option (pystr * pystr) :=
  match s with
  | c :: s' =>
      if (c =? 45)%N then '(ds, r) ← scan_digits s'; Some (c :: ds, r) else scan_digits s
  | [] => None
  end.

Definition scan_frac (s : pystr) : pystr * pystr :=
  match s with
  | c :: s' =>
      if (c =? 46)%N then
        match span is_digit s' with ([], _) => ([], s) | (ds, r) => (c :: ds, r) end
      else ([], s)
  | [] => ([], [])
  end.

Definition is_exp (c : N) : bool := ((c =? 101) || (c =? 69))%N.
Definition is_sign (c : N) : bool := ((c =? 45) || (c =? 43))%N.

Definition scan_exp (s : pystr) : pystr * pystr :=
  match s with
  | c :: s' =>
      if is_exp c then
        let '(sign, s'') := match s' with
                            | d :: r => if is_sign d then ([d], r) else ([], s')
                            | [] => ([], [])
                            end in
        match span is_digit s'' with ([], _) => ([], s) | (ds, r) => (c :: sign ++ ds, r) end
      else ([], s)
  | [] => ([], [])
  end.

(** [int(text)]; longer literals are refused by [sys.get_int_max_str_digits()]. *)
Definition MAX_INT_DIGITS : nat := 4300.

Definition read_int (s : pystr) : option Z :=
  match s with
  | c :: ds =>
      if (c =? 45)%N then (if (length ds <=? MAX_INT_DIGITS)%nat then Some (- Z.of_N (undec ds)) else None)
      else if (length s <=? MAX_INT_DIGITS)%nat then Some (Z.of_N (undec s)) else None
  | [] => None
  end.

(** The parts of the [repr] of a float. *)
Definition int_part (s : pystr) : Prop := forall r, match r with c :: _ => is_digit c = false | [] => True end ->
  scan_int (s ++ r) = Some (s, r).
Definition frac_part (s : pystr) : Prop := exists ds, forallb is_digit ds = true /\ (s = [] \/ ds <> [] /\ s = 46%N :: ds).
Definition exp_part (s : pystr) : Prop :=
  s = [] \/ exists c sign ds, is_exp c = true /\ (sign = [] \/ exists d, is_sign d = true /\ sign = [d])
                              /\ forallb is_digit ds = true /\ ds <> [] /\ s = c :: sign ++ ds.

Class FloatRead `{FloatRepr} := {
  read_float : pystr -> spec_float;
  read_float_repr : forall f, binary64 f = true -> read_float (float_repr f) = f;
  float_repr_parts : forall f, binary64 f = true ->
    exists i fr e, float_repr f = i ++ fr ++ e /\ int_part i /\ frac_part fr /\ exp_part e /\ fr ++ e <> []
}.

(** ** Reading strings *)
Definition hex_value (c : N) : option N :=
  if is_digit c then Some (c - 48)%N
  else if ((97 <=? c) && (c <=? 102))%N then Some (c - 87)%N
  else if ((65 <=? c) && (c <=? 70))%N then Some (c - 55)%N
  else None.

Definition hex4 (a b c d : N) : option N :=
  x ← hex_value a; y ← hex_value b; z ← hex_value c; w ← hex_value d;
  Some (((x * 16 + y) * 16 + z) * 16 + w)%N.

Definition unescape (c : N) : option N :=
  if (c =? 34)%N || (c =? 92)%N || (c =? 47)%N then Some c
  else if (c =? 98)%N then Some 8%N
  else if (c =? 102)%N then Some 12%N
  else if (c =? 110)%N then Some 10%N
  else if (c =? 114)%N then Some 13%N
  else if (c =? 116)%N then Some 9%N
  else None.

Definition high_surrogate (u : N) : bool := ((55296 <=? u) && (u <=? 56319))%N.
Definition low_surrogate (u : N) : bool := ((56320 <=? u) && (u <=? 57343))%N.

(** The characters up to the closing quote. *)
Fixpoint scan_chars (s : pystr) : option (pystr * pystr) :=
  let consing c (m : option (pystr * pystr)) := '(cs, r) ← m; Some (c :: cs, r) in
  match s with
  | [] => None
  | c :: s' =>
      if (c =? 34)%N then Some ([], s')
      else if (c <? 32)%N then None
      else if negb (c =? 92)%N then consing c (scan_chars s')
      else
        match s' with
        | [] => None
        | k :: r =>
            if negb (k =? 117)%N then (d ← unescape k; consing d (scan_chars r)) else
            match r with
            | x1 :: x2 :: x3 :: x4 :: r1 =>
                u ← hex4 x1 x2 x3 x4;
                match r1 with
                | b1 :: b2 :: y1 :: y2 :: y3 :: y4 :: r2 =>
                    match (if high_surrogate u && (b1 =? 92)%N && (b2 =? 117)%N
                           then hex4 y1 y2 y3 y4 else None) with
                    | Some v =>
                        if low_surrogate v
                        then consing (65536 + ((u - 55296) * 1024) + (v - 56320))%N (scan_chars r2)
                        else consing u (scan_chars r1)
                    | None => consing u (scan_chars r1)
                    end
                | _ => consing u (scan_chars r1)
                end
            | _ => None
            end
        end
  end.

(** ** Reading values *)
Definition is_ws (c : N) : bool := ((c =? 32) || (c =? 9) || (c =? 10) || (c =? 13))%N.
Definition skip_ws (s : pystr) : pystr := (span is_ws s).2.

(** A literal at the front of the text. *)
Definition expect (word s : pystr) : option pystr :=
  if bool_decide (take (length word) s = word) then Some (drop (length word) s) else None.

Definition dict_of_pairs {A} (kvs : list (pystr * A)) : list (pystr * A) :=
  fold_left (fun d kv => dict_set d kv.1 kv.2) kvs [].

Section reading.
Context `{FloatRead}.

Definition scan_number (s : pystr) : option (scalar * pystr) :=
  '(i, r) ← scan_int s;
  let '(fr, r1) := scan_frac r in
  let '(e, r2) := scan_exp r1 in
  match fr ++ e with
  | [] => z ← read_int i; Some (PyInt z, r2)
  | rest => Some (PyFloat (read_float (i ++ rest)), r2)
  end.

(** Constants; [NaN] and the infinities are Python's extension. *)
Definition scan_constant (s : pystr) : option (json * pystr) :=
  match expect (lit "null") s with
  | Some r => Some (JNull, r)
  | None =>
      match expect (lit "true") s with
      | Some r => Some (JScalar (PyBool true), r)
      | None =>
          match expect (lit "false") s with
          | Some r => Some (JScalar (PyBool false), r)
          | None =>
              match scan_number s with
              | Some (v, r) => Some (JScalar v, r)
              | None =>
                  match expect (lit "NaN") s with
                  | Some r => Some (JScalar (PyFloat S754_nan), r)
                  | None =>
                      match expect (lit "Infinity") s with
                      | Some r => Some (JScalar (PyFloat (S754_infinity false)), r)
                      | None =>
                          r ← expect (lit "-Infinity") s;
                          Some (JScalar (PyFloat (S754_infinity true)), r)
                      end
                  end
              end
          end
      end
  end.

(** A value; the items of an array after its bracket; the pairs of an object
    after its brace.  The bound is the length of the text. *)
Fixpoint scan_value (n : nat) (s : pystr) : option (json * pystr) :=
  match n, s with
  | O, _ | _, [] => None
  | S n', c :: r =>
      if (c =? 34)%N then '(cs, r') ← scan_chars r; Some (JScalar (PyStr cs), r')
      else if (c =? 91)%N then
        match skip_ws r with
        | [] => None
        | d :: r' =>
            if (d =? 93)%N then Some (JArr [], r')
            else '(items, r'') ← scan_items n' (d :: r'); Some (JArr items, r'')
        end
      else if (c =? 123)%N then
        match skip_ws r with
        | [] => None
        | d :: r' =>
            if (d =? 125)%N then Some (JObj [], r')
            else '(kvs, r'') ← scan_pairs n' (d :: r'); Some (JObj (dict_of_pairs kvs), r'')
        end
      else scan_constant s
  end
with scan_items (n : nat) (s : pystr) : option (list json * pystr) :=
  match n with
  | O => None
  | S n' =>
      '(j, r) ← scan_value n' s;
      match skip_ws r with
      | c :: r' =>
          if (c =? 93)%N then Some ([j], r')
          else if (c =? 44)%N then '(js, r'') ← scan_items n' (skip_ws r'); Some (j :: js, r'')
          else None
      | [] => None
      end
  end
with scan_pairs (n : nat) (s : pystr) : option (list (pystr * json) * pystr) :=
  match n, s with
  | O, _ | _, [] => None
  | S n', q :: r =>
      if negb (q =? 34)%N then None else
      '(k, r1) ← scan_chars r;
      match skip_ws r1 with
      | c :: r2 =>
          if negb (c =? 58)%N then None else
          '(j, r3) ← scan_value n' (skip_ws r2);
          match skip_ws r3 with
          | d :: r4 =>
              if (d =? 125)%N then Some ([(k, j)], r4)
              else if (d =? 44)%N then '(kvs, r5) ← scan_pairs n' (skip_ws r4); Some ((k, j) :: kvs, r5)
              else None
          | [] => None
          end
      | [] => None
      end
  end.

(** [json.loads]. *)
Definition json_loads (s : pystr) : option json :=
  match s with
  | c :: _ => if (c =? 65279)%N then None else
      '(j, r) ← scan_value (S (length s)) (skip_ws s);
      match skip_ws r with [] => Some j | _ => None end
  | [] => None
  end.

(** [_decode_canonical_json]. *)
Definition decode_canonical_json (s : pystr) : option json :=
  j ← json_loads s;
  if bool_decide (canonical_json j = s) then Some j else None.
End reading.

(** ** What is written is read back *)
Definition no_digit (r : pystr) : Prop := match r with c :: _ => is_digit c = false | [] => True end.

Lemma span_app p xs r :
  forallb p xs = true -> match r with c :: _ => p c = false | [] => True end -> span p (xs ++ r) = (xs, r).
Proof.
  intros Hxs Hr. induction xs as [|x xs IH]; cbn [forallb app span] in *.
  - destruct r as [|c r]; [done|]. cbn [span]. by rewrite Hr.
  - apply andb_true_iff in Hxs as [-> Hxs]. by rewrite IH.
Qed.

Lemma dec_digits_head fuel n acc :
  (0 < n)%N -> (n < 10 ^ N.of_nat fuel)%N ->
  exists c s, dec_digits fuel n acc = c :: s /\ is_digit c = true /\ c <> 48%N.
Proof.
  revert n acc; induction fuel as [|fuel IH]; intros n acc Hn Hlt; [cbn in Hlt; lia|].
  cbn [dec_digits]. cbv zeta. destruct (N.eqb_spec (n / 10) 0) as [E|E].
  - eexists _, _. split; [done|]. unfold is_digit. bools. split; [split|]; euclid.
  - apply IH; [by apply N.neq_0_lt_0|]. rewrite Nat2N.inj_succ, N.pow_succ_r' in Hlt. by apply N.Div0.div_lt_upper_bound.
Qed.

Lemma dec_N_fuel n : (n < 10 ^ N.of_nat (S (N.to_nat (N.size n))))%N.
Proof.
  rewrite Nat2N.inj_succ, N2Nat.id. apply N.lt_le_trans with (2 ^ N.size n)%N; [apply N.size_gt|].
  transitivity (10 ^ N.size n)%N; [by apply N.pow_le_mono_l|]. apply N.pow_le_mono_r; lia.
Qed.

Lemma scan_digits_dec n r : no_digit r -> scan_digits (dec_N n ++ r) = Some (dec_N n, r).
Proof.
  intros Hr. destruct (dec_N_spec n) as (_ & Hne & Hd). destruct (N.eq_dec n 0%N) as [->|Hn]; [done|].
  destruct (dec_digits_head (S (N.to_nat (N.size n))) n []) as (c & s & Hc & Hdc & Hz);
    [lia|apply dec_N_fuel|].
  fold (dec_N n) in Hc. rewrite Hc in Hd |- *. cbn [app scan_digits].
  rewrite (proj2 (N.eqb_neq _ _) Hz), Hdc. f_equal. by apply (span_app is_digit (c :: s)).
Qed.

Lemma scan_int_dec z r : no_digit r -> scan_int (dec_Z z ++ r) = Some (dec_Z z, r).
Proof.
  intros Hr. unfold dec_Z. destruct (z <? 0).
  - cbn [app scan_int]. by rewrite scan_digits_dec.
  - destruct (dec_N_spec (Z.to_N z)) as (_ & Hne & Hd). pose proof (scan_digits_dec (Z.to_N z) r Hr) as Hs.
    destruct (dec_N (Z.to_N z)) as [|c s]; [done|]. cbn [app scan_int forallb] in *.
    destruct (N.eqb_spec c 45) as [->|]; [done|]. exact Hs.
Qed.

Lemma length_dec_digits fuel n acc : (length (dec_digits fuel n acc) <= fuel + length acc)%nat.
Proof.
  revert n acc. induction fuel as [|fuel IH]; intros n acc; cbn [dec_digits]; [lia|]. cbv zeta.
  case_match; [cbn; lia|]. etrans; [apply IH|]. cbn. lia.
Qed.

Lemma length_dec_N n : (n < 2 ^ 64)%N -> (length (dec_N n) <= MAX_INT_DIGITS)%nat.
Proof.
  intros Hn. etrans; [apply length_dec_digits|]. cbn [length].
  assert (N.size n <= 64)%N; [|unfold MAX_INT_DIGITS; lia].
  destruct (N.eq_dec n 0%N) as [->|Hz]; [done|]. rewrite N.size_log2 by done.
  apply N.le_succ_l, N.log2_lt_pow2; lia.
Qed.

Lemma read_int_dec z : is_signed_64_integer (PyInt z) = true -> read_int (dec_Z z) = Some z.
Proof.
  unfold is_signed_64_integer, SIGNED_64_MIN, SIGNED_64_MAX, dec_Z. intros Hz. bools.
  destruct (Z.ltb_spec z 0).
  - cbn [read_int]. cbv iota. rewrite (proj2 (Nat.leb_le _ _) (length_dec_N (Z.to_N (- z)) ltac:(lia))).
    rewrite (proj1 (dec_N_spec _)). f_equal. lia.
  - destruct (dec_N_spec (Z.to_N z)) as (Hv & Hne & Hd). pose proof (length_dec_N (Z.to_N z) ltac:(lia)) as Hl.
    destruct (dec_N (Z.to_N z)) as [|c s] eqn:E; [done|]. cbn [read_int].
    destruct (N.eqb_spec c 45) as [->|]; [done|].
    rewrite (proj2 (Nat.leb_le _ _) Hl), Hv. f_equal. lia.
Qed.

(** *** Strings *)
Lemma hex_value_digit n : (n < 16)%N -> hex_value (hex_digit n) = Some n.
Proof.
  unfold hex_digit, hex_value, is_digit. intros Hn. destruct (N.ltb_spec n 10).
  - replace ((48 <=? 48 + n)%N && (48 + n <=? 57)%N) with true by (symmetry; bools; lia). f_equal. lia.
  - replace ((48 <=? 87 + n)%N && (87 + n <=? 57)%N) with false by (symmetry; bools; lia).
    replace ((97 <=? 87 + n)%N && (87 + n <=? 102)%N) with true by (symmetry; bools; lia). f_equal. lia.
Qed.

(** A control character is escaped as [\u00XX]. *)
Lemma hex4_control c : (c < 32)%N ->
  exists y z, hex_digits 4 c = [48; 48; y; z]%N /\ hex4 48 48 y z = Some c.
Proof.
  intros Hc. exists (hex_digit (c / 16 mod 16)), (hex_digit (c mod 16)). split.
  - cbn [hex_digits app]. replace (c / 16 / 16)%N with 0%N by euclid. done.
  - unfold hex4. rewrite !hex_value_digit by euclid. change (hex_value 48) with (Some 0%N).
    cbn [mbind option_bind]. f_equal. euclid.
Qed.

Lemma short_escape_back c d : short_escape c = Some d -> unescape d = Some c /\ d <> 117%N.
Proof.
  unfold short_escape. repeat case_match; intros [= <-]; bools; subst; done.
Qed.

Lemma scan_chars_char c s :
  scan_chars (escape_char c ++ s) = '(cs, r) ← scan_chars s; Some (c :: cs, r).
Proof.
  unfold escape_char. destruct (short_escape c) as [d|] eqn:Hd.
  - destruct (short_escape_back c d Hd) as [Hu Hne]. cbn [app].
    cbn [scan_chars]. change (92 =? 34)%N with false. change (92 <? 32)%N with false.
    change (92 =? 92)%N with true. cbn [negb].
    by rewrite (proj2 (N.eqb_neq _ _) Hne), Hu.
  - apply short_escape_none in Hd as [Hd1 Hd2]. destruct (N.ltb_spec c 32) as [Hc|Hc].
    + destruct (hex4_control c Hc) as (y & z & -> & Hx). cbn [app].
      cbn [scan_chars]. change (92 =? 34)%N with false. change (92 <? 32)%N with false.
      change (92 =? 92)%N with true. change (117 =? 117)%N with true. cbn [negb].
      rewrite Hx. cbn [mbind option_bind].
      assert (high_surrogate c = false) as -> by (unfold high_surrogate; bools; lia). cbn [andb].
      by repeat case_match.
    + cbn [app scan_chars]. rewrite (proj2 (N.eqb_neq _ _) Hd2), (proj2 (N.eqb_neq _ _) Hd1).
      by rewrite (proj2 (N.ltb_ge _ _) Hc).
Qed.

Lemma scan_quoted s r : scan_chars (concat (map escape_char s) ++ 34%N :: r) = Some (s, r).
Proof.
  induction s as [|c s IH]; [done|]. cbn [map concat]. rewrite <- app_assoc, scan_chars_char. by rewrite IH.
Qed.

(** *** Numbers and constants *)
Lemma delimited_head r c s :
  delimited r -> r = c :: s ->
  is_digit c = false /\ c <> 46%N /\ is_exp c = false /\ is_ws c = false /\ is_sign c = false.
Proof. intros Hr ->. by destruct Hr as [->|[->| ->]]. Qed.

Lemma delimited_digit r : delimited r -> no_digit r.
Proof. intros Hr. destruct r as [|c s]; [done|]. by destruct (delimited_head _ c s Hr eq_refl). Qed.

Lemma scan_frac_app fr r :
  frac_part fr -> no_digit r -> match r with c :: _ => c <> 46%N | [] => True end -> scan_frac (fr ++ r) = (fr, r).
Proof.
  intros (ds & Hds & [->|[Hne ->]]) Hr Hp; cbn [app].
  - destruct r as [|c r]; [done|]. cbn [scan_frac]. by rewrite (proj2 (N.eqb_neq _ _) Hp).
  - cbn [scan_frac]. change (46 =? 46)%N with true. rewrite span_app by done. by destruct ds.
Qed.

Lemma digit_no_sign c : is_digit c = true -> is_sign c = false.
Proof. unfold is_digit, is_sign. bools. lia. Qed.

Lemma scan_exp_app e r :
  exp_part e -> no_digit r -> match r with c :: _ => is_exp c = false | [] => True end -> scan_exp (e ++ r) = (e, r).
Proof.
  intros [->|(c & sign & ds & Hc & Hsign & Hds & Hne & ->)] Hr Hp; cbn [app].
  - destruct r as [|c r]; [done|]. cbn [scan_exp]. by rewrite Hp.
  - cbn [scan_exp]. rewrite Hc. rewrite <- app_assoc. destruct Hsign as [->|(d & Hd & ->)]; cbn [app].
    + destruct ds as [|d ds]; [done|]. cbn [app].
      rewrite digit_no_sign by (by cbn [forallb] in Hds; apply andb_true_iff in Hds as [? _]).
      change (d :: ds ++ r) with ((d :: ds) ++ r). by rewrite span_app.
    + rewrite Hd, span_app by done. by destruct ds.
Qed.

Lemma expect_word word r : expect word (word ++ r) = Some r.
Proof. unfold expect. rewrite take_app_length, bool_decide_true by done. by rewrite drop_app_length. Qed.

Lemma expect_other c word d s : c <> d -> expect (c :: word) (d :: s) = None.
Proof. intros Hne. unfold expect. rewrite bool_decide_false; [done|]. cbn. intros [=]. congruence. Qed.

Section back.
Context `{FloatRead}.

Lemma scan_number_int z r :
  is_signed_64_integer (PyInt z) = true -> delimited r -> scan_number (dec_Z z ++ r) = Some (PyInt z, r).
Proof.
  intros Hz Hr. unfold scan_number. rewrite scan_int_dec by (by apply delimited_digit). cbn [mbind option_bind].
  assert (scan_frac r = ([], r) /\ scan_exp r = ([], r)) as [-> ->].
  { destruct r as [|c r]; [done|]. destruct (delimited_head _ c r Hr eq_refl) as (_ & Hp & He & _).
    split; cbn; [by rewrite (proj2 (N.eqb_neq _ _) Hp)|by rewrite He]. }
  cbn [app]. by rewrite read_int_dec.
Qed.

Lemma scan_number_float f r :
  binary64 f = true -> delimited r -> scan_number (float_repr f ++ r) = Some (PyFloat f, r).
Proof.
  intros Hf Hr. destruct (float_repr_parts f Hf) as (i & fr & e & Heq & Hi & Hfr & He & Hne).
  unfold scan_number. rewrite Heq, <- !app_assoc.
  assert (no_digit (e ++ r) /\ match e ++ r with c :: _ => c <> 46%N | [] => True end) as [Hd Hp].
  { destruct He as [->|(c & sign & ds & Hc & _ & _ & _ & ->)]; cbn [app].
    - destruct r as [|c r]; [done|]. by destruct (delimited_head _ c r Hr eq_refl) as (? & ? & _).
    - unfold no_digit, is_exp, is_digit in *. bools. lia. }
  rewrite Hi; cbn [mbind option_bind].
  2:{ destruct Hfr as (ds & _ & [->|[_ ->]]); [exact Hd|done]. }
  rewrite (scan_frac_app fr) by done. rewrite (scan_exp_app e r).
  - destruct (fr ++ e) as [|c s] eqn:E; [done|]. by rewrite <- Heq, read_float_repr.
  - done.
  - by apply delimited_digit.
  - destruct r as [|c r]; [done|]. by destruct (delimited_head _ c r Hr eq_refl) as (_ & _ & ? & _).
Qed.

Lemma scan_constant_number s r v :
  number_text s -> scan_number (s ++ r) = Some (v, r) -> scan_constant (s ++ r) = Some (JScalar v, r).
Proof.
  intros [_ (c & s' & -> & Hc)] Hs. unfold scan_constant. cbn [app] in *.
  assert (c <> 110 /\ c <> 116 /\ c <> 102)%N as (H1' & H2' & H3')
    by (unfold number_start, is_digit in Hc; bools; lia).
  change (lit "null") with (110 :: drop 1 (lit "null"))%N.
  change (lit "true") with (116 :: drop 1 (lit "true"))%N.
  change (lit "false") with (102 :: drop 1 (lit "false"))%N.
  rewrite !expect_other by done. by rewrite Hs.
Qed.

(** The values the store writes: finite floats, 64-bit integers, distinct keys. *)
Fixpoint readable (j : json) : bool :=
  match j with
  | JNull => true
  | JScalar v =>
      match v with PyInt _ => is_signed_64_integer v | PyFloat f => binary64 f | _ => true end
  | JArr items => forallb readable items
  | JObj entries => distinct (map fst entries) && forallb (fun e => readable e.2) entries
  end.

Lemma scan_scalar v r :
  readable (JScalar v) = true -> delimited r ->
  match v with
  | PyStr s => True
  | _ => scan_constant (scalar_text v ++ r) = Some (JScalar v, r)
  end.
Proof.
  destruct v as [s|z|f|[]]; cbn [readable scalar_text]; intros Hv Hr; [done|..].
  - apply scan_constant_number; [apply dec_Z_number|by apply scan_number_int].
  - destruct (float_number f Hv) as [Hn ->]. apply scan_constant_number; [|by apply scan_number_float].
    split; [by apply float_repr_chars|by apply float_repr_start].
  - unfold scan_constant. assert (expect (lit "null") (lit "true" ++ r) = None) as -> by reflexivity.
    by rewrite expect_word.
  - unfold scan_constant. assert (expect (lit "null") (lit "false" ++ r) = None) as -> by reflexivity.
    assert (expect (lit "true") (lit "false" ++ r) = None) as -> by reflexivity. by rewrite expect_word.
Qed.

(** *** Values *)
Fixpoint weight (j : json) : nat :=
  match j with
  | JNull | JScalar _ => 1
  | JArr items => S (list_sum (map (fun x => S (weight x)) items))
  | JObj entries => S (list_sum (map (fun e => S (weight e.2)) entries))
  end.

Lemma skip_ws_other c s : is_ws c = false -> skip_ws (c :: s) = c :: s.
Proof. intros Hc. unfold skip_ws. cbn [span]. by rewrite Hc. Qed.

(** The first character of a value: none of whitespace, brackets that close, or commas. *)
Lemma plain_text_head j :
  readable j = true -> exists c s, plain_text j = c :: s /\ is_ws c = false /\ c <> 93%N /\ c <> 125%N /\ c <> 65279%N.
Proof.
  intros Hj. assert (forall s, number_text s -> exists c s',
    s = c :: s' /\ is_ws c = false /\ c <> 93%N /\ c <> 125%N /\ c <> 65279%N) as Hnum.
  { intros s [_ (c & s' & -> & Hc)]. exists c, s'. split; [done|].
    unfold number_start, is_digit, is_ws in *. bools. lia. }
  destruct j as [|[s|z|f|[]]|items|entries]; try (by eexists _, _).
  - apply Hnum, dec_Z_number.
  - by apply Hnum, float_number.
Qed.

Lemma list_sum_cons x l : list_sum (x :: l) = (x + list_sum l)%nat.
Proof. done. Qed.

(** Reading a value that stands before a delimiter. *)
Definition reads (j : json) : Prop :=
  forall n r, delimited r -> (weight j <= n)%nat -> scan_value n (plain_text j ++ r) = Some (j, r).

Lemma reads_scalar v : readable (JScalar v) = true -> reads (JScalar v).
Proof.
  intros Hv [|n] r Hr Hn; [cbn in Hn; lia|]. destruct v as [s|z|f|b].
  - cbn [plain_text plain_scalar]. unfold quoted. cbn [app]. rewrite <- app_assoc. cbn [app scan_value].
    change (34 =? 34)%N with true. by rewrite scan_quoted.
  - pose proof (scan_scalar (PyInt z) r Hv Hr) as Hs. destruct (dec_Z_number z) as [_ (c & s & Hc & Hst)].
    cbn [plain_text plain_scalar scalar_text] in *. rewrite Hc in Hs |- *. cbn [app scan_value] in *. rewrite Hs.
    unfold number_start, is_digit in Hst. bools. rewrite !(proj2 (N.eqb_neq c _)) by lia. done.
  - pose proof (scan_scalar (PyFloat f) r Hv Hr) as Hs. destruct (float_number f Hv) as [[_ (c & s & Hc & Hst)] _].
    cbn [plain_text plain_scalar scalar_text] in *. rewrite Hc in Hs |- *. cbn [app scan_value] in *. rewrite Hs.
    unfold number_start, is_digit in Hst. bools. rewrite !(proj2 (N.eqb_neq c _)) by lia. done.
  - pose proof (scan_scalar (PyBool b) r eq_refl Hr) as Hs. by destruct b.
Qed.

Lemma join_cons {A} (f : A -> pystr) x xs r :
  join_commas (map f (x :: xs)) ++ r
  = f x ++ match xs with [] => r | _ => 44%N :: join_commas (map f xs) ++ r end.
Proof.
  destruct xs as [|y ys]; cbn [map join_commas concat app]; [by rewrite app_nil_r|].
  rewrite <- app_assoc. cbn [app]. by rewrite <- !app_assoc.
Qed.

Lemma delimited_rest {A} (f : A -> pystr) xs close r :
  close = 93%N \/ close = 125%N ->
  delimited match xs with [] => close :: r | _ => 44%N :: join_commas (map f xs) ++ close :: r end.
Proof. intros Hc. destruct xs; cbn; tauto. Qed.

Lemma scan_items_reads items n r :
  items <> [] -> Forall (fun j => readable j = true /\ reads j) items ->
  (list_sum (map (fun x => S (weight x)) items) <= n)%nat ->
  scan_items n (join_commas (map plain_text items) ++ 93%N :: r) = Some (items, r).
Proof.
  intros Hne Hall. revert n. induction Hall as [|x xs [Hx Hreads] Hall IH]; intros n Hn; [done|].
  destruct n as [|n]; [cbn in Hn; lia|]. cbn [map] in Hn. rewrite list_sum_cons in Hn. rewrite join_cons.
  cbn [scan_items]. rewrite Hreads; [cbn [mbind option_bind]|eapply (delimited_rest plain_text); by left|lia]. destruct xs as [|y ys].
  - rewrite skip_ws_other by done. done.
  - rewrite skip_ws_other by done. change (44 =? 93)%N with false. change (44 =? 44)%N with true. cbv iota.
    inversion Hall as [|?? [Hy _] _]; subst. destruct (plain_text_head y Hy) as (c & s & Hc & Hws & _).
    rewrite join_cons, Hc. cbn [app]. rewrite skip_ws_other by done.
    change (c :: s ++ ?t) with ((c :: s) ++ t). rewrite <- Hc, <- join_cons. by rewrite IH by (done || lia).
Qed.

Lemma scan_pairs_reads entries n r :
  entries <> [] -> Forall (fun e => readable e.2 = true /\ reads e.2) entries ->
  (list_sum (map (fun e => S (weight e.2)) entries) <= n)%nat ->
  scan_pairs n (join_commas (map (fun e => quoted e.1 ++ 58%N :: plain_text e.2) entries) ++ 125%N :: r)
  = Some (entries, r).
Proof.
  set (f := fun e : pystr * json => quoted e.1 ++ 58%N :: plain_text e.2).
  intros Hne Hall. revert n. induction Hall as [|[k x] xs [Hx Hreads] Hall IH]; intros n Hn; [done|].
  destruct n as [|n]; [cbn in Hn; lia|]. cbn [map snd] in Hn, Hx, Hreads. rewrite list_sum_cons in Hn. rewrite join_cons.
  assert (delimited match xs with [] => 125%N :: r | _ => 44%N :: join_commas (map f xs) ++ 125%N :: r end)
    as Hd by (apply delimited_rest; by right).
  unfold f at 1. cbn [fst snd]. unfold quoted. cbn [app scan_pairs]. change (34 =? 34)%N with true. cbn [negb].
  rewrite <- !app_assoc. cbn [app]. rewrite scan_quoted. cbn [mbind option_bind].
  rewrite skip_ws_other by done. change (58 =? 58)%N with true. cbn [negb].
  destruct (plain_text_head x Hx) as (c & s & Hc & Hws & _). rewrite Hc. cbn [app]. rewrite skip_ws_other by done.
  change (c :: s ++ ?t) with ((c :: s) ++ t). rewrite <- Hc. rewrite Hreads by (done || lia).
  cbn [mbind option_bind]. destruct xs as [|y ys].
  - rewrite skip_ws_other by done. done.
  - rewrite skip_ws_other by done. change (44 =? 125)%N with false. change (44 =? 44)%N with true. cbv iota.
    rewrite join_cons. unfold f at 1, quoted. cbn [app]. rewrite skip_ws_other by done.
    specialize (IH ltac:(done) n ltac:(lia)). rewrite join_cons in IH. unfold f at 1, quoted in IH. cbn [app] in IH.
    by rewrite IH.
Qed.

Lemma dict_of_pairs_distinct {A} (kvs : list (pystr * A)) : NoDup (map fst kvs) -> dict_of_pairs kvs = kvs.
Proof.
  unfold dict_of_pairs. assert (forall d, NoDup (map fst (d ++ kvs)) ->
    fold_left (fun d kv => dict_set d kv.1 kv.2) kvs d = d ++ kvs) as Hgen.
  { induction kvs as [|[k a] kvs IH]; intros d Hd; cbn [fold_left]; [by rewrite app_nil_r|].
    cbn [fst snd]. rewrite map_app in Hd. cbn [map fst] in Hd.
    rewrite dict_set_fresh; [rewrite IH; [by rewrite <- app_assoc|]|].
    - rewrite <- app_assoc, map_app. exact Hd.
    - apply NoDup_app in Hd as (_ & Hd & _). intros Hk. apply (Hd k Hk). by left. }
  intros Hd. by apply (Hgen []).
Qed.

Lemma scan_value_array n d s :
  is_ws d = false -> d <> 93%N ->
  scan_value (S n) (91%N :: d :: s) = '(items, r) ← scan_items n (d :: s); Some (JArr items, r).
Proof.
  intros Hws Hd. cbn [scan_value]. change (91 =? 34)%N with false. change (91 =? 91)%N with true. cbv iota.
  by rewrite skip_ws_other, (proj2 (N.eqb_neq _ _) Hd) by done.
Qed.

Lemma scan_value_object n s :
  scan_value (S n) (123%N :: 34%N :: s)
  = '(kvs, r) ← scan_pairs n (34%N :: s); Some (JObj (dict_of_pairs kvs), r).
Proof. done. Qed.

Lemma plain_text_reads j : readable j = true -> reads j.
Proof.
  induction j as [|v|items IH|entries IH] using json_ind'; intros Hj.
  - intros [|n] r Hr Hn; [cbn in Hn; lia|]. done.
  - by apply reads_scalar.
  - intros [|n] r Hr Hn; [cbn in Hn; lia|]. cbn [readable weight] in Hj, Hn. cbn [plain_text app].
    rewrite <- app_assoc. cbn [app].
    assert (Forall (fun j => readable j = true /\ reads j) items) as Hall.
    { rewrite forallb_forall in Hj. rewrite Forall_forall in IH |- *. intros x Hx.
      pose proof (Hj x (proj1 (list_elem_of_In _ _) Hx)). auto. }
    destruct items as [|x xs]; [done|].
    inversion Hall as [|?? [Hx _] _]; subst. destruct (plain_text_head x Hx) as (c & s & Hc & Hws & Hne & _).
    pose proof (scan_items_reads (x :: xs) n r ltac:(done) Hall ltac:(lia)) as Hs.
    rewrite join_cons, Hc in Hs |- *. cbn [app] in *. rewrite scan_value_array by done. by rewrite Hs.
  - intros [|n] r Hr Hn; [cbn in Hn; lia|]. cbn [readable weight] in Hj, Hn. cbn [plain_text app].
    rewrite <- app_assoc. cbn [app]. apply andb_true_iff in Hj as [Hd%distinct_spec Hj].
    assert (Forall (fun e => readable e.2 = true /\ reads e.2) entries) as Hall.
    { rewrite forallb_forall in Hj. rewrite Forall_forall in IH |- *. intros e He.
      pose proof (Hj e (proj1 (list_elem_of_In _ _) He)). auto. }
    destruct entries as [|e es]; [done|].
    pose proof (scan_pairs_reads (e :: es) n r ltac:(done) Hall ltac:(lia)) as Hs.
    rewrite join_cons in Hs |- *. unfold quoted in Hs at 1 |- * at 1. cbn [app] in *.
    rewrite scan_value_object, Hs. cbn [mbind option_bind]. by rewrite dict_of_pairs_distinct.
Qed.

Lemma join_length {A} (f : A -> pystr) (w : A -> nat) xs :
  (forall x, x ∈ xs -> (w x <= length (f x))%nat) ->
  (list_sum (map (fun x => S (w x)) xs) <= S (length (join_commas (map f xs))))%nat.
Proof.
  intros Hw. destruct xs as [|x xs]; [cbn; lia|]. cbn [map join_commas]. rewrite list_sum_cons, length_app.
  assert (list_sum (map (fun x => S (w x)) xs) <= length (concat (map (cons 44%N) (map f xs))))%nat.
  { assert (forall y, y ∈ xs -> (w y <= length (f y))%nat) as Hxs by (intros y Hy; apply Hw; by right).
    clear Hw. induction xs as [|y ys IH]; [done|]. cbn [map concat]. rewrite list_sum_cons, length_app. cbn [length].
    pose proof (Hxs y ltac:(by left)). assert (forall z, z ∈ ys -> (w z <= length (f z))%nat) as Hys
      by (intros z Hz; apply Hxs; by right). specialize (IH Hys). lia. }
  pose proof (Hw x ltac:(by left)). lia.
Qed.

Lemma weight_length j : readable j = true -> (weight j <= length (plain_text j))%nat.
Proof.
  induction j as [|v|items IH|entries IH] using json_ind'; intros Hj; cbn [weight].
  - cbn. lia.
  - destruct (plain_text_head (JScalar v) Hj) as (c & s & -> & _). cbn. lia.
  - cbn [readable plain_text] in *. rewrite forallb_forall in Hj. rewrite Forall_forall in IH.
    cbn [length]. rewrite length_app. cbn [length].
    pose proof (join_length plain_text weight items) as Hl. assert (forall x, x ∈ items -> (weight x <= length (plain_text x))%nat) as Hx
      by (intros x Hx; apply IH; [done|]; by apply Hj, list_elem_of_In).
    specialize (Hl Hx). cbv beta in Hl. lia.
  - cbn [readable plain_text] in *. apply andb_true_iff in Hj as [_ Hj]. rewrite forallb_forall in Hj.
    rewrite Forall_forall in IH. cbn [length]. rewrite length_app. cbn [length].
    pose proof (join_length (fun e : pystr * json => quoted e.1 ++ 58%N :: plain_text e.2) (fun e => weight e.2) entries) as Hl.
    assert (forall e, e ∈ entries -> (weight e.2 <= length (quoted e.1 ++ 58%N :: plain_text e.2))%nat) as He.
    { intros e He. rewrite length_app. cbn [length]. pose proof (Hj e (proj1 (list_elem_of_In _ _) He)) as Hre.
      pose proof (IH e He Hre). lia. }
    rewrite Nat.add_1_r. apply le_n_S, Hl, He.
Qed.

Lemma json_loads_plain j : readable j = true -> json_loads (plain_text j) = Some j.
Proof.
  intros Hj. destruct (plain_text_head j Hj) as (c & s & Hc & Hws & _ & _ & Hbom).
  pose proof (plain_text_reads j Hj (S (length (plain_text j))) [] I) as Hr. rewrite app_nil_r in Hr.
  pose proof (weight_length j Hj) as Hl. specialize (Hr ltac:(lia)).
  unfold json_loads. rewrite Hc in Hr |- *. rewrite (proj2 (N.eqb_neq _ _) Hbom), skip_ws_other by done.
  by rewrite Hr.
Qed.

Lemma readable_sort_keys j : readable j = true -> readable (sort_keys j) = true.
Proof.
  induction j as [|v|items IH|entries IH] using json_ind'; cbn [readable sort_keys]; [done|done|..].
  - rewrite !forallb_forall, Forall_forall in *. intros Hj x Hx%list_elem_of_In.
    apply elem_of_map in Hx as (y & -> & Hy). apply IH; [done|]. by apply Hj, list_elem_of_In.
  - rewrite !andb_true_iff, !distinct_spec, !forallb_forall, Forall_forall in *. intros [Hd Hj]. split.
    + rewrite sorted_by_perm, map_map. exact Hd.
    + intros e He%list_elem_of_In. apply elem_of_sorted_by, elem_of_map in He as (e0 & -> & He). cbn [snd].
      apply IH; [done|]. by apply Hj, list_elem_of_In.
Qed.

Lemma sort_keys_idem j : sort_keys (sort_keys j) = sort_keys j.
Proof.
  induction j as [|v|items IH|entries IH] using json_ind'; cbn [sort_keys]; [done|done|..].
  - f_equal. rewrite map_map. apply map_ext_in. intros x Hx%list_elem_of_In. rewrite Forall_forall in IH. by apply IH.
  - f_equal. rewrite <- (sorted_by_map str_leb fst fst (fun e : pystr * json => (e.1, sort_keys e.2))) by done.
    rewrite map_map.
    assert (map (fun e : pystr * json => ((e.1, sort_keys e.2).1, sort_keys (e.1, sort_keys e.2).2)) entries
            = map (fun e => (e.1, sort_keys e.2)) entries) as ->.
    { apply map_ext_in. intros e He%list_elem_of_In. rewrite Forall_forall in IH. cbn [fst snd]. by rewrite IH. }
    apply sorted_by_id, sorted_by_str_sorted.
Qed.

Lemma decode_canonical j : readable j = true -> decode_canonical_json (canonical_json j) = Some (sort_keys j).
Proof.
  intros Hj. unfold decode_canonical_json, canonical_json.
  rewrite json_loads_plain by (by apply readable_sort_keys). cbn [mbind option_bind].
  by rewrite sort_keys_idem, bool_decide_true.
Qed.

Lemma canonical_text_inj j k :
  readable j = true -> readable k = true -> canonical_json j = canonical_json k -> sort_keys j = sort_keys k.
Proof.
  intros Hj Hk Heq. apply decode_canonical in Hj, Hk. rewrite Heq in Hj. congruence.
Qed.
End back.

(** ** Reading the concrete representation of floats *)
Definition int_value (s : pystr) : Z :=
  match s with
  | c :: ds => if (c =? 45)%N then - Z.of_N (undec ds) else Z.of_N (undec s)
  | [] => 0
  end.

Definition read_datum (s : pystr) : spec_float :=
  match scan_int s with
  | Some (i, r) =>
      let neg := match i with c :: _ => (c =? 45)%N | [] => false end in
      let digits := if neg then drop 1 i else i in
      match r, undec digits with
      | c :: e, Npos m => if is_exp c then S754_finite neg m (int_value e) else S754_zero neg
      | _, _ => S754_zero neg
      end
  | None => S754_nan
  end.

Lemma int_value_dec z : int_value (dec_Z z) = z.
Proof.
  unfold int_value, dec_Z. destruct (Z.ltb_spec z 0) as [Hz|Hz].
  - change (45 =? 45)%N with true. rewrite (proj1 (dec_N_spec _)). lia.
  - destruct (dec_N_spec (Z.to_N z)) as (Hv & Hne & Hd). destruct (dec_N (Z.to_N z)) as [|c s]; [done|].
    cbn [forallb] in Hd. destruct (N.eqb_spec c 45) as [->|]; [done|]. rewrite Hv. lia.
Qed.

Definition signed (neg : bool) (n : N) : pystr := (if neg then [45%N] else []) ++ dec_N n.

Lemma scan_signed neg n r : no_digit r -> scan_int (signed neg n ++ r) = Some (signed neg n, r).
Proof.
  intros Hr. unfold signed. destruct neg; cbn [app].
  - cbn [scan_int]. by rewrite scan_digits_dec.
  - pose proof (scan_digits_dec n r Hr) as Hs. destruct (dec_N_spec n) as (_ & Hne & Hd).
    destruct (dec_N n) as [|c s]; [done|]. cbn [app scan_int forallb] in *.
    destruct (N.eqb_spec c 45) as [->|]; [done|exact Hs].
Qed.

Lemma datum_as_signed s m e :
  datum_repr (S754_finite s m e) = signed s (Npos m) ++ [] ++ 101%N :: dec_Z e.
Proof. unfold signed. by destruct s. Qed.

Lemma read_datum_repr f : binary64 f = true -> read_datum (datum_repr f) = f.
Proof.
  destruct f as [[]| | |s m e]; intros Hf; try done. rewrite datum_as_signed. unfold read_datum. cbn [app].
  rewrite scan_signed by done. cbv zeta.
  assert ((if match signed s (Npos m) with c :: _ => (c =? 45)%N | [] => false end
           then drop 1 (signed s (Npos m)) else signed s (Npos m)) = dec_N (Npos m)
          /\ match signed s (Npos m) with c :: _ => (c =? 45)%N | [] => false end = s) as [-> ->].
  { unfold signed. destruct s; [done|]. cbn [app]. destruct (dec_N_spec (Npos m)) as (_ & Hne & Hd).
    destruct (dec_N (Npos m)) as [|c t]; [done|]. cbn [forallb] in Hd.
    by destruct (N.eqb_spec c 45) as [->|]. }
  rewrite (proj1 (dec_N_spec _)). cbv iota. change (is_exp 101) with true. cbv iota. by rewrite int_value_dec.
Qed.

Lemma datum_repr_parts f : binary64 f = true ->
  exists i fr e, datum_repr f = i ++ fr ++ e /\ int_part i /\ frac_part fr /\ exp_part e /\ fr ++ e <> [].
Proof.
  assert (forall b, int_part (signed b 0)) as Hzero by (intros b r Hr; by apply scan_signed).
  assert (frac_part [46; 48]%N) as Hpoint by (exists [48%N]; split; [done|]; right; by split).
  destruct f as [[]| | |s m e]; intros Hf; try done.
  - exists (signed true 0), [46; 48]%N, []. split_and!; [done..|by left|done].
  - exists (signed false 0), [46; 48]%N, []. split_and!; [done..|by left|done].
  - rewrite datum_as_signed. exists (signed s (Npos m)), [], (101%N :: dec_Z e). split_and!; [done|..|done].
    + intros r Hr. by apply scan_signed.
    + exists []. split; [done|by left].
    + right. exists 101%N. unfold dec_Z. destruct (e <? 0).
      * exists [45%N], (dec_N (Z.to_N (- e))). destruct (dec_N_spec (Z.to_N (- e))) as (_ & ? & ?).
        split_and!; [done| |done..]. right. by exists 45%N.
      * exists [], (dec_N (Z.to_N e)). destruct (dec_N_spec (Z.to_N e)) as (_ & ? & ?).
        split_and!; [done|by left|done..].
Qed.

Definition datum_float_read : @FloatRead datum_float_repr :=
  @Build_FloatRead datum_float_repr read_datum read_datum_repr datum_repr_parts.

(** ** Property *)

(** C38: The text of a JSON column is a faithful code.  Whatever the record store
    writes, [json.loads] reads back up to the order of the keys and the check
    that the text is canonical accepts it; and two values have the same text
    exactly when they are the same up to that order. *)
Theorem canonical_json_roundtrip `{FloatRead} (j : json) :
  readable j = true ->
  decode_canonical_json (canonical_json j) = Some (sort_keys j)
  /\ forall k, readable k = true -> canonical_json k = canonical_json j <-> sort_keys k = sort_keys j.
Proof.
  intros Hj. split; [by apply decode_canonical|]. intros k Hk. split; [by apply canonical_text_inj|].
  intros Heq. unfold canonical_json. by rewrite Heq.
Qed.

Definition sample_row : json :=
  JObj [(lit "tags", JArr [JScalar (PyStr [34; 92; 10; 233; 128512]%N); JScalar (PyStr (lit "b"))]);
        (lit "count", JScalar (PyInt (-12))); (lit "ratio", JScalar (PyFloat (S754_finite true 6755399441055744 (-52))));
        (lit "none", JNull)].

Lemma canonical_json_roundtrip_witness :
  @decode_canonical_json datum_float_repr datum_float_read (@canonical_json datum_float_repr sample_row)
  = Some (sort_keys sample_row).
Proof. apply (@canonical_json_roundtrip datum_float_repr datum_float_read sample_row). by vm_compute. Defined.
