(* ===== verification/Sha256.v ===== *)
(** * Sha256: the digest of the standard library's [hashlib]

    SHA-256 (FIPS 180-4) over 32-bit words, executable, with [hexdigest] and the
    UTF-8 encoding its inputs go through.  The theorems about fingerprints need
    nothing of it but the shape of the digest: agreement of two digests is
    reported as equality of the texts or as a collision, never excluded. *)
From S2P Require Import Prelude Values Json.
#[local] Open Scope N_scope.

Definition add32 (x y : N) : N := (x + y) mod 2 ^ 32.
Definition rotr (k x : N) : N :=
  N.lor (N.shiftr x k) (N.land (N.shiftl x (32 - k)) (2 ^ 32 - 1)).
Definition not32 (x : N) : N := N.lxor x (2 ^ 32 - 1).

Definition round_constants : list N :=
  [
    1116352408; 1899447441; 3049323471; 3921009573; 961987163; 1508970993;
    2453635748; 2870763221; 3624381080; 310598401; 607225278; 1426881987;
    1925078388; 2162078206; 2614888103; 3248222580; 3835390401; 4022224774;
    264347078; 604807628; 770255983; 1249150122; 1555081692; 1996064986;
    2554220882; 2821834349; 2952996808; 3210313671; 3336571891; 3584528711;
    113926993; 338241895; 666307205; 773529912; 1294757372; 1396182291;
    1695183700; 1986661051; 2177026350; 2456956037; 2730485921; 2820302411;
    3259730800; 3345764771; 3516065817; 3600352804; 4094571909; 275423344;
    430227734; 506948616; 659060556; 883997877; 958139571; 1322822218;
    1537002063; 1747873779; 1955562222; 2024104815; 2227730452; 2361852424;
    2428436474; 2756734187; 3204031479; 3329325298 ].

Definition initial_hash : list N :=
  [ 1779033703; 3144134277; 1013904242; 2773480762; 1359893119; 2600822924; 528734635; 1541459225 ].

(** Big-endian bytes. *)
Fixpoint bytes_be (width : nat) (n : N) : list N :=
  match width with
  | O => []
  | S w => bytes_be w (n / 256) ++ [n mod 256]
  end.

Definition padded (msg : list N) : list N :=
  let len := length msg in
  msg ++ [128] ++ repeat 0 ((119 - len mod 64) mod 64)%nat ++ bytes_be 8 (8 * N.of_nat len).

Fixpoint words (bytes : list N) : list N :=
  match bytes with
  | a :: b :: c :: d :: rest => (((a * 256 + b) * 256 + c) * 256 + d) :: words rest
  | _ => []
  end.

(** The message schedule, most recent word first. *)
Fixpoint schedule (n : nat) (ws : list N) : list N :=
  match n with
  | O => ws
  | S n' =>
      let w15 := nth 14 ws 0 in
      let w2 := nth 1 ws 0 in
      let s0 := N.lxor (N.lxor (rotr 7 w15) (rotr 18 w15)) (N.shiftr w15 3) in
      let s1 := N.lxor (N.lxor (rotr 17 w2) (rotr 19 w2)) (N.shiftr w2 10) in
      schedule n' (add32 (add32 s1 (nth 6 ws 0)) (add32 s0 (nth 15 ws 0)) :: ws)
  end.

Definition compress_round (st : list N) (kw : N * N) : list N :=
  match st with
  | [a; b; c; d; e; f; g; h] =>
      let s1 := N.lxor (N.lxor (rotr 6 e) (rotr 11 e)) (rotr 25 e) in
      let ch := N.lxor (N.land e f) (N.land (not32 e) g) in
      let t1 := add32 (add32 (add32 h s1) (add32 ch kw.1)) kw.2 in
      let s0 := N.lxor (N.lxor (rotr 2 a) (rotr 13 a)) (rotr 22 a) in
      let maj := N.lxor (N.lxor (N.land a b) (N.land a c)) (N.land b c) in
      let t2 := add32 s0 maj in
      [add32 t1 t2; a; b; c; add32 d t1; e; f; g]
  | _ => st
  end.

Definition compress (st : list N) (block : list N) : list N :=
  let ws := rev (schedule 48 (rev (words block))) in
  zip_with add32 st (fold_left compress_round (zip round_constants ws) st).

Fixpoint blocks (n : nat) (bytes : list N) : list (list N) :=
  match n with
  | O => []
  | S n' => take 64 bytes :: blocks n' (drop 64 bytes)
  end.

(** [hashlib.sha256(msg).hexdigest()]. *)
Definition sha256_hex (msg : list N) : pystr :=
  let p := padded msg in
  let h := fold_left compress (blocks (length p / 64)%nat p) initial_hash in
  concat (map (hex_digits 8) h).

(** [str.encode("utf-8")] of a code point that is not a surrogate. *)
Definition utf8_char (c : N) : list N :=
  if c <? 128 then [c]
  else if c <? 2048 then [192 + c / 64; 128 + c mod 64]
  else if c <? 65536 then [224 + c / 4096; 128 + c / 64 mod 64; 128 + c mod 64]
  else [240 + c / 262144; 128 + c / 4096 mod 64; 128 + c / 64 mod 64; 128 + c mod 64].

Definition utf8 (s : pystr) : list N := concat (map utf8_char s).

(** The published test vectors. *)
Example sha256_empty :
  sha256_hex [] = lit "e3b0c44298fc1c149afbf4c8996fb92427ae41e4649b934ca495991b7852b855".
Proof. by vm_compute. Qed.

Example sha256_abc :
  sha256_hex (utf8 (lit "abc")) = lit "ba7816bf8f01cfea414140de5dae2223b00361a396177a9cb410ff61f20015ad".
Proof. by vm_compute. Qed.

Example sha256_two_blocks :
  sha256_hex (utf8 (lit "abcdbcdecdefdefgefghfghighijhijkijkljklmklmnlmnomnopnopq"))
  = lit "248d6a61d20638b8e5c026930c3e6039a33ce45964ff2167f6ecedd419db06c1".
Proof. by vm_compute. Qed.

(** ** Lemmas *)
Lemma is_hex_concat (h : list N) : forallb is_hex_digit (concat (map (hex_digits 8) h)) = true.
Proof. induction h as [|x h IH]; [done|]. cbn [map concat]. by rewrite forallb_app, hex_digits_is_hex. Qed.

Lemma length_compress_round st kw : length (compress_round st kw) = length st.
Proof. unfold compress_round. repeat (case_match; try done). Qed.

Lemma length_compress st block : length (compress st block) = length st.
Proof.
  unfold compress. rewrite length_zip_with. generalize (zip round_constants (rev (schedule 48 (rev (words block))))).
  intros kws. assert (length (fold_left compress_round kws st) = length st) as ->; [|lia].
  revert st; induction kws as [|kw kws IH]; intros st; cbn [fold_left]; [done|].
  by rewrite IH, length_compress_round.
Qed.

Lemma length_fold_compress bs st : length (fold_left compress bs st) = length st.
Proof.
  revert st; induction bs as [|b bs IH]; intros st; cbn [fold_left]; [done|].
  by rewrite IH, length_compress.
Qed.

Lemma length_hex_words h : length (concat (map (hex_digits 8) h)) = (8 * length h)%nat.
Proof.
  induction h as [|x h IH]; [done|]. cbn [map concat length].
  rewrite length_app, length_hex_digits, IH. lia.
Qed.

(** A digest is 64 lowercase hexadecimal digits. *)
Lemma sha256_hex_valid msg : valid_sha256 (sha256_hex msg) = true.
Proof.
  unfold valid_sha256, sha256_hex. cbv zeta.
  by rewrite is_hex_concat, length_hex_words, length_fold_compress.
Qed.

Lemma utf8_ascii s : ascii s = true -> utf8 s = s.
Proof.
  unfold utf8, ascii. induction s as [|c s IH]; [done|]. cbn [forallb map concat].
  intros [Hc Hs]%andb_true_iff. unfold utf8_char at 1. rewrite Hc. cbn [app]. by rewrite IH.
Qed.
