(* ===== verification/Manifest.v ===== *)
(** * Manifest: the public schema document of [manifest_v2.py]

    The records are the Pydantic models after parsing: a [Literal] is an
    inductive type, a typed field has its type, and what remains of a [Field]
    declaration (pattern, length, range, whitespace stripping) is the [*_fields]
    predicate of the model.  The [model_validator] methods are translated check
    by check; the first failing check is the exception. *)
From S2P Require Import Prelude Values Graph.

(** ** Limits and server-managed fields *)
Definition MAX_ENTITIES : nat := 32.
Definition MAX_ATTRIBUTES_PER_ENTITY : nat := 64.
Definition MAX_RELATIONSHIPS : nat := 128.
Definition MAX_INDICES : nat := 128.
Definition MAX_QUERY_PATTERNS : nat := 32.
Definition MAX_DISCOVERY_FACETS : nat := 64.

(** The [Literal] of [AttributeDefinition.type]. *)
Inductive LogicalType : Type :=
| TString | TInteger | TNumber | TBoolean | TDatetime | TUuid | TStringList.

(** The [Literal] of [retrieval_mode]. *)
Inductive RetrievalMode : Type := Annotation | Membership.

#[export] Instance LogicalType_eq_dec : EqDecision LogicalType.
Proof. solve_decision. Defined.
#[export] Instance RetrievalMode_eq_dec : EqDecision RetrievalMode.
Proof. solve_decision. Defined.
#[export] Instance spec_float_eq_dec : EqDecision spec_float.
Proof. solve_decision. Defined.
#[export] Instance scalar_eq_dec : EqDecision scalar.
Proof. solve_decision. Defined.

(** One entry of [SERVER_MANAGED_FIELDS]: type, required, primary key. *)
Record ServerField := { sf_type : LogicalType; sf_required : bool; sf_primary_key : bool }.

Definition SERVER_MANAGED_FIELDS : list (pystr * ServerField) :=
  [ (lit "id", Build_ServerField TUuid true true);
    (lit "owner_id", Build_ServerField TString true false);
    (lit "created_at", Build_ServerField TDatetime true false);
    (lit "updated_at", Build_ServerField TDatetime true false);
    (lit "created_via", Build_ServerField TString true false);
    (lit "record_version", Build_ServerField TInteger true false) ].

(** ** The models *)

(** [AllowedValue] is a union of strict scalars: [scalar]. *)
Record AttributeDefinition := {
  attr_name : pystr;
  attr_type : LogicalType;
  attr_required : bool;
  attr_primary_key : bool;
  attr_description : option pystr;
  attr_allowed_values : option (list scalar);
  attr_retrieval_mode : option RetrievalMode
}.

Record EntityDefinition := {
  ent_name : pystr;
  ent_attributes : list AttributeDefinition;
  ent_description : option pystr
}.

Record RelationshipEndpoint := { ep_entity : pystr; ep_field : pystr }.

(** [on_delete] is [Literal["restrict"]]: one value, so no field. *)
Record RelationshipDefinition := {
  rel_name : pystr;
  rel_from : RelationshipEndpoint;
  rel_to : RelationshipEndpoint
}.

Record IndexDefinition := {
  idx_name : pystr;
  idx_entity : pystr;
  idx_fields : list pystr;
  idx_unique : bool
}.

Record DiscoveryFacet := { facet_entity : pystr; facet_field : pystr }.

Record MigrationHistoryEntry := {
  from_schema_version : Z;
  to_schema_version : Z;
  operations : list pystr
}.

Record ManifestV2 := {
  schema_version : Z;
  entities : list EntityDefinition;
  relationships : list RelationshipDefinition;
  indices : list IndexDefinition;
  query_patterns : list pystr;
  discovery_facets : list DiscoveryFacet;
  retrieval_guidance : option pystr;
  migration_history : list MigrationHistoryEntry
}.

#[export] Instance AttributeDefinition_eq_dec : EqDecision AttributeDefinition.
Proof. solve_decision. Defined.
#[export] Instance EntityDefinition_eq_dec : EqDecision EntityDefinition.
Proof. solve_decision. Defined.
#[export] Instance RelationshipEndpoint_eq_dec : EqDecision RelationshipEndpoint.
Proof. solve_decision. Defined.
#[export] Instance RelationshipDefinition_eq_dec : EqDecision RelationshipDefinition.
Proof. solve_decision. Defined.
#[export] Instance IndexDefinition_eq_dec : EqDecision IndexDefinition.
Proof. solve_decision. Defined.
#[export] Instance DiscoveryFacet_eq_dec : EqDecision DiscoveryFacet.
Proof. solve_decision. Defined.
#[export] Instance MigrationHistoryEntry_eq_dec : EqDecision MigrationHistoryEntry.
Proof. solve_decision. Defined.
#[export] Instance ManifestV2_eq_dec : EqDecision ManifestV2.
Proof. solve_decision. Defined.

(** ** Exceptions: one constructor per message *)
Inductive ManifestError : Type :=
| FieldConstraint
| PrimaryKeyNotRequired
| AllowedValuesDuplicate
| AllowedValuesNotFinite
| AllowedValuesIncompatible
| AllowedValuesLength
| AllowedValuesNul
| MembershipNeedsStringList
| AnnotationNeedsString
| DuplicateAttributes
| ServerFieldMissing (name : pystr)
| ServerFieldMismatch (name : pystr)
| UnexpectedPrimaryKey
| DuplicateIndexFields
| HistoryDirection
| HistoryLength
| HistoryContinuity
| EntityNamesNotUnique
| EntityNameReserved
| RelationshipNamesNotUnique
| IndexNamesNotUnique
| IndexNameReserved
| EntityIndexCollision
| DuplicateIndexDefinitions
| DuplicateRelationshipDefinitions
| RelationshipSourcesNotUnique
| DuplicateFacets
| UnknownEntity (label entity : pystr)
| UnknownField (label entity field : pystr)
| IndexOnStringList
| SourceNotAgentDeclared
| SourceNotUuid
| TargetNotId
| IdenticalEndpoints
| RequiredCycle.

Abbreviation check := (raise_if (E := ManifestError)).

(** ** Field constraints *)

(** A [str] field: stripped by [str_strip_whitespace], length in bounds. *)
Definition text_ok (lo hi : nat) (s : pystr) : bool :=
  bool_decide (trim s = s) && (lo <=? length s)%nat && (length s <=? hi)%nat.

Definition opt_text_ok (hi : nat) (s : option pystr) : bool :=
  match s with None => true | Some s => text_ok 0 hi s end.

Definition len_ok {A} (lo hi : nat) (l : list A) : bool :=
  (lo <=? length l)%nat && (length l <=? hi)%nat.

(** A strict scalar: a string arrives stripped. *)
Definition scalar_ok (v : scalar) : bool :=
  match v with PyStr s => bool_decide (trim s = s) | _ => true end.

Definition attribute_fields (a : AttributeDefinition) : bool :=
  identifier (attr_name a) && opt_text_ok 500 (attr_description a)
  && match attr_allowed_values a with
     | None => true
     | Some vs => len_ok 1 32 vs && forallb scalar_ok vs
     end.

Definition entity_fields (e : EntityDefinition) : bool :=
  identifier (ent_name e) && len_ok 6 MAX_ATTRIBUTES_PER_ENTITY (ent_attributes e)
  && opt_text_ok 1000 (ent_description e).

Definition endpoint_fields (p : RelationshipEndpoint) : bool :=
  identifier (ep_entity p) && identifier (ep_field p).

Definition relationship_fields (r : RelationshipDefinition) : bool :=
  identifier (rel_name r) && (length (rel_name r) <=? 48)%nat
  && endpoint_fields (rel_from r) && endpoint_fields (rel_to r).

Definition index_fields (i : IndexDefinition) : bool :=
  identifier (idx_name i) && (length (idx_name i) <=? 48)%nat && identifier (idx_entity i)
  && forallb identifier (idx_fields i) && len_ok 1 8 (idx_fields i).

Definition facet_fields (f : DiscoveryFacet) : bool :=
  identifier (facet_entity f) && identifier (facet_field f).

Definition history_fields (h : MigrationHistoryEntry) : bool :=
  (1 <=? from_schema_version h)%Z && (1 <=? to_schema_version h)%Z
  && len_ok 1 32 (operations h) && forallb (text_ok 1 240) (operations h).

Definition manifest_fields (m : ManifestV2) : bool :=
  (1 <=? schema_version m)%Z && (schema_version m <=? 65)%Z
  && len_ok 1 MAX_ENTITIES (entities m)
  && len_ok 0 MAX_RELATIONSHIPS (relationships m)
  && len_ok 0 MAX_INDICES (indices m)
  && len_ok 0 MAX_QUERY_PATTERNS (query_patterns m) && forallb (text_ok 1 240) (query_patterns m)
  && len_ok 0 MAX_DISCOVERY_FACETS (discovery_facets m)
  && opt_text_ok 2000 (retrieval_guidance m)
  && len_ok 0 64 (migration_history m).

(** ** [AttributeDefinition.validate_type_metadata] *)
Definition allowed_value_matches_type (value : scalar) (attribute_type : LogicalType) : bool :=
  match attribute_type with
  | TString | TStringList => match value with PyStr _ => true | _ => false end
  | TInteger => is_signed_64_integer value
  | TNumber => is_exact_number value
  | TBoolean => match value with PyBool _ => true | _ => false end
  | TDatetime | TUuid => false
  end.

Definition validate_allowed_values (t : LogicalType) (vs : list scalar)
  : result ManifestError unit :=
  check (negb (distinct_by typed_eqb vs)) AllowedValuesDuplicate ;;
  check (bool_decide (t = TNumber)
         && existsb (fun v => match v with PyFloat _ => negb (is_exact_number v) | _ => false end) vs)
        AllowedValuesNotFinite ;;
  check (negb (forallb (fun v => allowed_value_matches_type v t) vs)) AllowedValuesIncompatible ;;
  check (existsb (fun v => match v with
                           | PyStr s => bool_decide (s = []) || (96 <? length s)%nat
                           | _ => false end) vs) AllowedValuesLength ;;
  check (existsb (fun v => match v with PyStr s => bool_decide (0%N ∈ s) | _ => false end) vs)
        AllowedValuesNul.

Definition validate_type_metadata (a : AttributeDefinition) : result ManifestError unit :=
  check (attr_primary_key a && negb (attr_required a)) PrimaryKeyNotRequired ;;
  match attr_allowed_values a with
  | None => Ok tt
  | Some vs => validate_allowed_values (attr_type a) vs
  end ;;
  check (bool_decide (attr_retrieval_mode a = Some Membership)
         && bool_decide (attr_type a <> TStringList)) MembershipNeedsStringList ;;
  check (bool_decide (attr_retrieval_mode a = Some Annotation)
         && bool_decide (attr_type a <> TString)) AnnotationNeedsString.

Definition validate_attribute (a : AttributeDefinition) : result ManifestError unit :=
  check (negb (attribute_fields a)) FieldConstraint ;; validate_type_metadata a.

(** ** [EntityDefinition.validate_server_managed_fields] *)
Definition check_server_field (by_name : list (pystr * AttributeDefinition))
    (expected : pystr * ServerField) : result ManifestError unit :=
  match dict_get by_name expected.1 with
  | None => Raise (ServerFieldMissing expected.1)
  | Some actual =>
      check (bool_decide (attr_type actual <> sf_type expected.2)
             || negb (Bool.eqb (attr_required actual) (sf_required expected.2))
             || negb (Bool.eqb (attr_primary_key actual) (sf_primary_key expected.2))
             || bool_decide (attr_description actual <> None)
             || bool_decide (attr_allowed_values actual <> None)
             || bool_decide (attr_retrieval_mode actual <> None))
            (ServerFieldMismatch expected.1)
  end.

Definition validate_server_managed_fields (e : EntityDefinition) : result ManifestError unit :=
  let names := map attr_name (ent_attributes e) in
  check (negb (distinct names)) DuplicateAttributes ;;
  let by_name := dict_of attr_name (ent_attributes e) in
  mapR (check_server_field by_name) SERVER_MANAGED_FIELDS ;;
  check (existsb (fun a => attr_primary_key a && bool_decide (attr_name a <> lit "id"))
                 (ent_attributes e)) UnexpectedPrimaryKey.

Definition validate_entity (e : EntityDefinition) : result ManifestError unit :=
  check (negb (entity_fields e)) FieldConstraint ;;
  mapR validate_attribute (ent_attributes e) ;;
  validate_server_managed_fields e.

Definition validate_relationship (r : RelationshipDefinition) : result ManifestError unit :=
  check (negb (relationship_fields r)) FieldConstraint.

(** [IndexDefinition.validate_distinct_fields]. *)
Definition validate_index (i : IndexDefinition) : result ManifestError unit :=
  check (negb (index_fields i)) FieldConstraint ;;
  check (negb (distinct (idx_fields i))) DuplicateIndexFields.

Definition validate_facet (f : DiscoveryFacet) : result ManifestError unit :=
  check (negb (facet_fields f)) FieldConstraint.

(** [MigrationHistoryEntry.validate_version_direction]. *)
Definition validate_history_entry (h : MigrationHistoryEntry) : result ManifestError unit :=
  check (negb (history_fields h)) FieldConstraint ;;
  check (to_schema_version h <=? from_schema_version h)%Z HistoryDirection.

(** ** [ManifestV2.validate_references] *)

(** [name.casefold().startswith("sqlite_")]; the names it is applied to are
    identifiers, on whose alphabet [casefold] is ASCII lower-casing. *)
Definition casefold (s : pystr) : pystr :=
  map (fun c => if ((65 <=? c) && (c <=? 90))%N then (c + 32)%N else c) s.
Definition is_sqlite_reserved (name : pystr) : bool := startswith (lit "sqlite_") (casefold name).

(** [_attribute_for]. *)
Definition attribute_for (entities : list (pystr * EntityDefinition))
    (entity_name field_name label : pystr) : result ManifestError AttributeDefinition :=
  match dict_get entities entity_name with
  | None => Raise (UnknownEntity label entity_name)
  | Some entity =>
      match List.find (fun a => bool_decide (attr_name a = field_name)) (ent_attributes entity) with
      | Some a => Ok a
      | None => Raise (UnknownField label entity_name field_name)
      end
  end.

(** The loop over [enumerate(self.migration_history, start=1)]. *)
Fixpoint check_history (expected_from : Z) (hs : list MigrationHistoryEntry)
  : result ManifestError unit :=
  match hs with
  | [] => Ok tt
  | h :: hs' =>
      check (negb (from_schema_version h =? expected_from)%Z
             || negb (to_schema_version h =? expected_from + 1)%Z) HistoryContinuity ;;
      check_history (expected_from + 1) hs'
  end.

Definition check_index_field (entities : list (pystr * EntityDefinition)) (i : IndexDefinition)
    (field : pystr) : result ManifestError unit :=
  attribute ← attribute_for entities (idx_entity i) field (lit "Index");
  check (bool_decide (attr_type attribute = TStringList)) IndexOnStringList.

(** One iteration of the loop over [self.relationships]: the edge it adds to
    [required_relationship_edges], if any. *)
Definition check_relationship (entities : list (pystr * EntityDefinition))
    (r : RelationshipDefinition) : result ManifestError (option (pystr * pystr)) :=
  source ← attribute_for entities (ep_entity (rel_from r)) (ep_field (rel_from r))
             (lit "Relationship source");
  target ← attribute_for entities (ep_entity (rel_to r)) (ep_field (rel_to r))
             (lit "Relationship target");
  check (attr_primary_key source
         || bool_decide (ep_field (rel_from r) ∈ dict_keys SERVER_MANAGED_FIELDS))
        SourceNotAgentDeclared ;;
  check (bool_decide (attr_type source <> TUuid)) SourceNotUuid ;;
  check (bool_decide (ep_field (rel_to r) <> lit "id") || bool_decide (attr_type target <> TUuid)
         || negb (attr_primary_key target)) TargetNotId ;;
  check (bool_decide (rel_from r = rel_to r)) IdenticalEndpoints ;;
  Ok (if attr_required source
      then Some (ep_entity (rel_from r), ep_entity (rel_to r)) else None).

(** [adjacency] of [_has_directed_cycle], each set walked in sorted order. *)
Definition adjacency (edges : list (pystr * pystr)) (node : pystr) : list pystr :=
  sorted_strs (remove_dups (map snd (filter (fun e => e.1 = node) edges))).

(** [_has_directed_cycle]; the recursion bound is one more than the number of
    end points, see [has_directed_cycle_spec]. *)
Definition has_directed_cycle (edges : list (pystr * pystr)) : option bool :=
  cycle_search (adjacency edges)
    (S (length (map fst edges ++ map snd edges)))
    (sorted_strs (remove_dups (map fst edges))).

Definition index_definition (i : IndexDefinition) : pystr * list pystr * bool :=
  (idx_entity i, idx_fields i, idx_unique i).
Definition relationship_definition (r : RelationshipDefinition) :=
  (ep_entity (rel_from r), ep_field (rel_from r), ep_entity (rel_to r), ep_field (rel_to r)).
Definition relationship_source (r : RelationshipDefinition) : pystr * pystr :=
  (ep_entity (rel_from r), ep_field (rel_from r)).
Definition facet_definition (f : DiscoveryFacet) : pystr * pystr :=
  (facet_entity f, facet_field f).

Definition validate_references (m : ManifestV2) : result ManifestError unit :=
  check (negb (Z.of_nat (length (migration_history m)) =? schema_version m - 1)%Z) HistoryLength ;;
  check_history 1 (migration_history m) ;;
  let by_name := dict_of ent_name (entities m) in
  check (negb (length by_name =? length (entities m))%nat) EntityNamesNotUnique ;;
  check (existsb is_sqlite_reserved (dict_keys by_name)) EntityNameReserved ;;
  let index_names := map idx_name (indices m) in
  check (negb (distinct (map rel_name (relationships m)))) RelationshipNamesNotUnique ;;
  check (negb (distinct index_names)) IndexNamesNotUnique ;;
  check (existsb is_sqlite_reserved index_names) IndexNameReserved ;;
  check (existsb (fun n => bool_decide (n ∈ index_names)) (dict_keys by_name))
        EntityIndexCollision ;;
  check (negb (distinct (map index_definition (indices m)))) DuplicateIndexDefinitions ;;
  check (negb (distinct (map relationship_definition (relationships m))))
        DuplicateRelationshipDefinitions ;;
  check (negb (distinct (map relationship_source (relationships m))))
        RelationshipSourcesNotUnique ;;
  check (negb (distinct (map facet_definition (discovery_facets m)))) DuplicateFacets ;;
  mapR (fun f => attribute_for by_name (facet_entity f) (facet_field f) (lit "Discovery facet"))
       (discovery_facets m) ;;
  mapR (fun i => mapR (check_index_field by_name i) (idx_fields i)) (indices m) ;;
  edges ← mapR (check_relationship by_name) (relationships m);
  check (default true (has_directed_cycle (omap id edges))) RequiredCycle.

(** [ManifestV2.model_validate] on typed values: the field constraints and
    validators of every nested model, then of the document. *)
Definition validate_manifest (m : ManifestV2) : result ManifestError unit :=
  check (negb (manifest_fields m)) FieldConstraint ;;
  mapR validate_entity (entities m) ;;
  mapR validate_relationship (relationships m) ;;
  mapR validate_index (indices m) ;;
  mapR validate_facet (discovery_facets m) ;;
  mapR validate_history_entry (migration_history m) ;;
  validate_references m.

Definition manifest_valid (m : ManifestV2) : bool := is_ok (validate_manifest m).

(** ** The cycle check *)

Lemma elem_of_adjacency edges x y : y ∈ adjacency edges x <-> (x, y) ∈ edges.
Proof.
  unfold adjacency, sorted_strs. rewrite elem_of_sorted_by, elem_of_remove_dups, elem_of_map.
  setoid_rewrite list_elem_of_filter. split.
  - by intros ([a b] & -> & <- & ?).
  - intros H. by exists (x, y).
Qed.

(** The check returns, and its answer is the existence of a directed cycle. *)
Lemma has_directed_cycle_spec edges :
  exists b, has_directed_cycle edges = Some b
    /\ (b = true <-> exists n, tc (fun x y => (x, y) ∈ edges) n n).
Proof.
  unfold has_directed_cycle.
  assert (forall x y, edge (adjacency edges) x y <-> (x, y) ∈ edges) as Hedge
    by (intros; apply elem_of_adjacency).
  assert (forall x, x ∈ sorted_strs (remove_dups (map fst edges))
            <-> exists y, (x, y) ∈ edges) as Hroots.
  { intros x. unfold sorted_strs. rewrite elem_of_sorted_by, elem_of_remove_dups, elem_of_map.
    split; [intros ([a b] & -> & ?); by exists b | intros [y ?]; by exists (x, y)]. }
  destruct (cycle_search_spec (adjacency edges) (map fst edges ++ map snd edges)
    (sorted_strs (remove_dups (map fst edges)))
    (S (length (map fst edges ++ map snd edges)))) as (b & -> & Hb).
  - intros x y Hxy%Hedge. apply elem_of_app. right. apply elem_of_map. by exists (x, y).
  - intros x [y Hy]%Hroots. apply elem_of_app. left. apply elem_of_map. by exists (x, y).
  - lia.
  - exists b. split; [done|]. rewrite Hb, cyclic_from_all.
    + split; intros [n Hn]; exists n;
        (eapply tc_mono; [|exact Hn]); intros x y; apply Hedge.
    + intros x y Hxy%Hedge. apply Hroots. by exists y.
Qed.

(** ** Well-formedness: what the validator accepts, stated without its loops *)

(** The declaration every entity must carry for a server-managed field. *)
Definition server_attribute (name : pystr) (f : ServerField) : AttributeDefinition :=
  {| attr_name := name; attr_type := sf_type f; attr_required := sf_required f;
     attr_primary_key := sf_primary_key f; attr_description := None;
     attr_allowed_values := None; attr_retrieval_mode := None |}.

Record EntityWF (e : EntityDefinition) : Prop := {
  ewf_fields : entity_fields e = true;
  ewf_attributes : forall a, a ∈ ent_attributes e -> validate_attribute a = Ok tt;
  ewf_names : NoDup (map attr_name (ent_attributes e));
  ewf_server : forall n f, (n, f) ∈ SERVER_MANAGED_FIELDS ->
                 server_attribute n f ∈ ent_attributes e;
  ewf_primary : forall a, a ∈ ent_attributes e -> attr_primary_key a = true ->
                  attr_name a = lit "id"
}.

(** Entity [e] of the manifest declares the field [a] named [f]. *)
Definition declares (m : ManifestV2) (e f : pystr) (a : AttributeDefinition) : Prop :=
  exists ent, ent ∈ entities m /\ ent_name ent = e /\ a ∈ ent_attributes ent /\ attr_name a = f.

(** A relationship with a required source field. *)
Definition required_edge (m : ManifestV2) (x y : pystr) : Prop :=
  exists r a, r ∈ relationships m
    /\ declares m (ep_entity (rel_from r)) (ep_field (rel_from r)) a
    /\ attr_required a = true
    /\ x = ep_entity (rel_from r) /\ y = ep_entity (rel_to r).

Record RelationshipWF (m : ManifestV2) (r : RelationshipDefinition) : Prop := {
  rwf_source : exists a, declares m (ep_entity (rel_from r)) (ep_field (rel_from r)) a
    /\ attr_type a = TUuid /\ attr_primary_key a = false;
  rwf_agent : ep_field (rel_from r) ∉ map fst SERVER_MANAGED_FIELDS;
  rwf_target_entity : ep_entity (rel_to r) ∈ map ent_name (entities m);
  rwf_target_field : ep_field (rel_to r) = lit "id"
}.

Record ReferencesWF (m : ManifestV2) : Prop := {
  mwf_history_length : Z.of_nat (length (migration_history m)) = (schema_version m - 1)%Z;
  mwf_history : forall i h, migration_history m !! i = Some h ->
    from_schema_version h = (Z.of_nat i + 1)%Z /\ to_schema_version h = (Z.of_nat i + 2)%Z;
  mwf_entity_names : NoDup (map ent_name (entities m));
  mwf_relationship_names : NoDup (map rel_name (relationships m));
  mwf_index_names : NoDup (map idx_name (indices m));
  mwf_reserved : forall n, n ∈ map ent_name (entities m) ++ map idx_name (indices m) ->
    is_sqlite_reserved n = false;
  mwf_collision : forall n, n ∈ map ent_name (entities m) -> n ∉ map idx_name (indices m);
  mwf_index_definitions : NoDup (map index_definition (indices m));
  mwf_relationship_definitions : NoDup (map relationship_definition (relationships m));
  mwf_relationship_sources : NoDup (map relationship_source (relationships m));
  mwf_facets_distinct : NoDup (map facet_definition (discovery_facets m));
  mwf_facets : forall f, f ∈ discovery_facets m ->
    exists a, declares m (facet_entity f) (facet_field f) a;
  mwf_indices : forall i f, i ∈ indices m -> f ∈ idx_fields i ->
    exists a, declares m (idx_entity i) f a /\ attr_type a <> TStringList;
  mwf_relationships : forall r, r ∈ relationships m -> RelationshipWF m r;
  mwf_acyclic : forall n, ~ tc (required_edge m) n n
}.

Record ManifestWF (m : ManifestV2) : Prop := {
  mwf_fields : manifest_fields m = true;
  mwf_entities : forall e, e ∈ entities m -> EntityWF e;
  mwf_relationship_fields : forall r, r ∈ relationships m -> relationship_fields r = true;
  mwf_index_fields : forall i, i ∈ indices m ->
    index_fields i = true /\ NoDup (idx_fields i);
  mwf_facet_fields : forall f, f ∈ discovery_facets m -> facet_fields f = true;
  mwf_history_fields : forall h, h ∈ migration_history m ->
    history_fields h = true /\ (from_schema_version h < to_schema_version h)%Z;
  mwf_references : ReferencesWF m
}.

(** ** The validators decide well-formedness *)

Lemma existsb_false {A} (f : A -> bool) l :
  existsb f l = false <-> forall x, x ∈ l -> f x = false.
Proof.
  rewrite <- not_true_iff_false, existsb_exists. setoid_rewrite <- list_elem_of_In.
  split; [intros H x Hx; apply not_true_is_false; intros ?; apply H; by exists x|].
  intros H (x & Hx & Hf). rewrite H in Hf; done.
Qed.

Lemma check_server_field_spec attrs n f :
  NoDup (map attr_name attrs) ->
  check_server_field (dict_of attr_name attrs) (n, f) = Ok tt
  <-> server_attribute n f ∈ attrs.
Proof.
  intros Hnd. unfold check_server_field; simpl. split.
  - destruct (dict_get _ n) as [a|] eqn:Ha; [|done].
    apply dict_of_get in Ha as [Ha <-]; [|done]. rewrite raise_if_Ok. bools.
    intros (((((Ht & Hr) & Hp) & Hd) & Hv) & Hm).
    enough (server_attribute (attr_name a) f = a) as -> by done.
    destruct a; unfold server_attribute; simpl in *.
    apply dec_stable in Ht, Hd, Hv, Hm. apply eqb_prop in Hr, Hp. congruence.
  - intros Ha.
    assert (dict_get (dict_of attr_name attrs) n = Some (server_attribute n f)) as ->.
    { apply dict_of_get; [done|by split]. }
    simpl. rewrite !Bool.eqb_reflx, !bool_decide_false by (by intros ?). done.
Qed.

Lemma validate_entity_spec e : validate_entity e = Ok tt <-> EntityWF e.
Proof.
  unfold validate_entity, validate_server_managed_fields. cbv zeta.
  rewrite raise_if_then, mapR_unit_then, raise_if_then, mapR_unit_then, raise_if_Ok.
  rewrite !negb_false_iff, distinct_spec, existsb_false. split.
  - intros (Hf & Ha & Hn & Hs & Hp). split; try done.
    + intros n f Hnf. by apply check_server_field_spec, Hs.
    + intros a Ha' Hpk. specialize (Hp a Ha'). rewrite Hpk in Hp. simpl in Hp.
      by apply bool_decide_eq_false, dec_stable in Hp.
  - intros [Hf Ha Hn Hs Hp]. split_and!; try done.
    + intros [n f] Hnf. apply check_server_field_spec; [done|]. by apply Hs.
    + intros a Ha'. destruct (attr_primary_key a) eqn:E; [simpl|done].
      apply bool_decide_eq_false. intros Hne. by apply Hne, Hp.
Qed.

Lemma find_attribute attrs f a :
  NoDup (map attr_name attrs) ->
  List.find (fun a => bool_decide (attr_name a = f)) attrs = Some a
  <-> a ∈ attrs /\ attr_name a = f.
Proof.
  intros Hnd. split.
  - intros [Hin Hf]%List.find_some. rewrite bool_decide_eq_true in Hf.
    by rewrite list_elem_of_In.
  - intros [Hin <-]. induction attrs as [|b attrs IH]; [by apply elem_of_nil in Hin|].
    simpl in *. apply NoDup_cons in Hnd as [Hb Hnd].
    apply elem_of_cons in Hin as [->|Hin]; [by rewrite bool_decide_true|].
    rewrite bool_decide_false; [by apply IH|]. intros Heq. apply Hb.
    apply elem_of_map. by exists a.
Qed.

Section references.
Variable m : ManifestV2.
Hypothesis Hent : forall e, e ∈ entities m -> EntityWF e.
Hypothesis Hnames : NoDup (map ent_name (entities m)).
Let by_name := dict_of ent_name (entities m).

Lemma attribute_for_spec e f label a :
  attribute_for by_name e f label = Ok a <-> declares m e f a.
Proof using Hent Hnames.
  unfold attribute_for, declares, by_name. split.
  - destruct (dict_get _ e) as [ent|] eqn:He; [|done].
    apply dict_of_get in He as [He <-]; [|done].
    destruct (List.find _ _) as [b|] eqn:Hf; [|done]. intros [= <-].
    apply find_attribute in Hf as [??]; [|by apply ewf_names, Hent]. by exists ent.
  - intros (ent & He & <- & Ha & <-).
    assert (dict_get (dict_of ent_name (entities m)) (ent_name ent) = Some ent) as ->
      by (by apply dict_of_get).
    by rewrite (proj2 (find_attribute _ (attr_name a) a (ewf_names _ (Hent _ He)))).
Qed.

Lemma attribute_for_ok e f label :
  (exists a, attribute_for by_name e f label = Ok a) <-> exists a, declares m e f a.
Proof using Hent Hnames. by setoid_rewrite attribute_for_spec. Qed.

(** Every entity declares the server-managed [id]. *)
Lemma declares_id ent :
  ent ∈ entities m ->
  declares m (ent_name ent) (lit "id") (server_attribute (lit "id") (Build_ServerField TUuid true true)).
Proof using Hent.
  intros He. exists ent. split_and!; try done.
  apply (ewf_server _ (Hent _ He)). by left.
Qed.

Lemma declares_unique e f a b : declares m e f a -> declares m e f b -> a = b.
Proof using Hent Hnames.
  intros Ha Hb. apply (attribute_for_spec e f []) in Ha, Hb. congruence.
Qed.

Lemma check_index_field_spec i f :
  check_index_field by_name i f = Ok tt
  <-> exists a, declares m (idx_entity i) f a /\ attr_type a <> TStringList.
Proof using Hent Hnames.
  unfold check_index_field. rewrite bind_Ok.
  setoid_rewrite attribute_for_spec. setoid_rewrite raise_if_Ok.
  by setoid_rewrite bool_decide_eq_false.
Qed.

Definition edge_of (source : AttributeDefinition) (r : RelationshipDefinition) :=
  if attr_required source then Some (ep_entity (rel_from r), ep_entity (rel_to r)) else None.

Lemma check_relationship_spec r o :
  check_relationship by_name r = Ok o
  <-> RelationshipWF m r /\ exists a,
        declares m (ep_entity (rel_from r)) (ep_field (rel_from r)) a /\ o = edge_of a r.
Proof using Hent Hnames.
  unfold check_relationship. rewrite bind_Ok. setoid_rewrite attribute_for_spec.
  setoid_rewrite bind_Ok. setoid_rewrite attribute_for_spec.
  do 4 setoid_rewrite raise_if_then. unfold edge_of. split.
  - intros (a & Ha & b & Hb & Hsrc & Hty & Htgt & Hne & [= <-]). bools.
    destruct Hsrc as [Hpk Hag], Htgt as [[Hid Hbt] Hbp]. apply dec_stable in Hty, Hid, Hbt. split; [|by exists a].
    split; [by exists a|done| |done].
    destruct Hb as (ent & ? & <- & _). apply elem_of_map. by exists ent.
  - intros [[(a & Ha & Hty & Hpk) Hag Hte Htf] (a' & Ha' & ->)].
    rewrite (declares_unique _ _ _ _ Ha' Ha). clear a' Ha'.
    exists a. split; [done|]. apply elem_of_map in Hte as (ent & Hent_name & Hte).
    exists (server_attribute (lit "id") (Build_ServerField TUuid true true)).
    rewrite Htf, Hent_name. split; [by apply declares_id|]. bools.
    split_and!; try done; try (by intros ?).
    intros Heq. apply Hag. rewrite Heq, Htf. by left.
Qed.
End references.

Lemma check_history_spec k hs :
  check_history k hs = Ok tt
  <-> forall i h, hs !! i = Some h ->
        from_schema_version h = (k + Z.of_nat i)%Z
        /\ to_schema_version h = (k + Z.of_nat i + 1)%Z.
Proof.
  revert k; induction hs as [|h hs IH]; intros k; simpl.
  { split; [intros _ i h' H; by rewrite lookup_nil in H|done]. }
  rewrite raise_if_then, IH. bools. split.
  - intros [[Hf Ht] H] [|i] h' Hi; simpl in Hi.
    + injection Hi as <-. lia.
    + apply H in Hi. lia.
  - intros H. split; [specialize (H 0%nat h eq_refl); lia|].
    intros i h' Hi. specialize (H (S i) h' Hi). lia.
Qed.

(** The edges collected by the loop over the relationships. *)
Lemma collected_edges m edges x y :
  (forall e, e ∈ entities m -> EntityWF e) -> NoDup (map ent_name (entities m)) ->
  mapR (check_relationship (dict_of ent_name (entities m))) (relationships m) = Ok edges ->
  (x, y) ∈ omap id edges <-> required_edge m x y.
Proof.
  intros Hent Hnames H%mapR_Ok. rewrite list_elem_of_omap. unfold required_edge. split.
  - intros (o & Ho & [= ->]). apply list_elem_of_lookup in Ho as [i Ho].
    destruct (Forall2_lookup_r _ _ _ _ _ H Ho) as (r & Hr & Hc).
    apply check_relationship_spec in Hc as (_ & a & Ha & Heq); [|done..].
    unfold edge_of in Heq. destruct (attr_required a) eqn:E; [|done].
    injection Heq as -> ->. exists r, a. split_and!; try done. by eapply list_elem_of_lookup_2.
  - intros (r & a & Hr & Ha & Hreq & -> & ->). apply list_elem_of_lookup in Hr as [i Hr].
    destruct (Forall2_lookup_l _ _ _ _ _ H Hr) as (o & Ho & Hc).
    apply check_relationship_spec in Hc as (_ & a' & Ha' & ->); [|done..].
    rewrite (declares_unique m Hent Hnames _ _ _ _ Ha' Ha) in Ho.
    eexists. split; [by eapply list_elem_of_lookup_2|].
    unfold edge_of. by rewrite Hreq.
Qed.

Lemma required_check m edges :
  (forall e, e ∈ entities m -> EntityWF e) -> NoDup (map ent_name (entities m)) ->
  mapR (check_relationship (dict_of ent_name (entities m))) (relationships m) = Ok edges ->
  check (default true (has_directed_cycle (omap id edges))) RequiredCycle = Ok tt
  <-> forall n, ~ tc (required_edge m) n n.
Proof.
  intros Hent Hnames H. rewrite raise_if_Ok.
  destruct (has_directed_cycle_spec (omap id edges)) as (b & -> & Hb). simpl.
  rewrite <- not_true_iff_false, Hb.
  split; intros Hno; [intros n Hn; apply Hno; exists n | intros [n Hn]; apply (Hno n)];
    (eapply tc_mono; [|exact Hn]); intros x y; by apply collected_edges.
Qed.

(** The names side conditions shared by both directions. *)
Lemma entity_count xs :
  negb (length (dict_of ent_name xs) =? length xs)%nat = false <-> NoDup (map ent_name xs).
Proof. by rewrite negb_false_iff, Nat.eqb_eq, dict_of_length. Qed.

Lemma validate_references_spec m :
  (forall e, e ∈ entities m -> EntityWF e) ->
  validate_references m = Ok tt <-> ReferencesWF m.
Proof.
  intros Hent. unfold validate_references. cbv zeta.
  rewrite raise_if_then, unit_then, check_history_spec, 10 raise_if_then, 2 mapR_then.
  rewrite (bind_Ok (mapR (check_relationship _) _)), entity_count.
  destruct (decide (NoDup (map ent_name (entities m)))) as [Hn|Hn];
    [|by split; [intros (_ & _ & ? & _)|intros []]].
  rewrite dict_of_keys, !negb_false_iff, !distinct_spec, !existsb_false, Z.eqb_eq by done.
  setoid_rewrite attribute_for_ok; [|done..].
  assert ((forall i, i ∈ indices m -> exists ys,
             mapR (check_index_field (dict_of ent_name (entities m)) i) (idx_fields i) = Ok ys)
          <-> forall i f, i ∈ indices m -> f ∈ idx_fields i ->
                exists a, declares m (idx_entity i) f a /\ attr_type a <> TStringList) as ->.
  { setoid_rewrite mapR_ok_iff. setoid_rewrite <- check_index_field_spec; [|done..].
    split; [intros H i f Hi Hf; by destruct (H i Hi f Hf) as [[] ?]|].
    intros H i Hi f Hf. exists tt. by apply H. }
  split.
  - intros (? & Hh & _ & Hr1 & ? & ? & Hr2 & Hcol & ? & ? & ? & ? & ? & ? & edges & Hedges & Hcyc).
    split; try done.
    + intros i h Hi. apply Hh in Hi. lia.
    + intros n [Hin|Hin]%elem_of_app; auto.
    + intros n Hin. by apply (bool_decide_eq_false (n ∈ _)), Hcol.
    + intros r Hr. apply mapR_Ok in Hedges. apply list_elem_of_lookup in Hr as [k Hk].
      destruct (Forall2_lookup_l _ _ _ _ _ Hedges Hk) as (o & _ & Ho).
      by apply check_relationship_spec in Ho as [? _].
    + by eapply required_check.
  - intros [? Hh _ ? ? Hr Hcol ? ? ? ? ? ? Hrel Hcyc].
    split_and!; try done.
    + intros i h Hi. apply Hh in Hi. lia.
    + intros n Hin. apply Hr, elem_of_app. by left.
    + intros n Hin. apply Hr, elem_of_app. by right.
    + intros n Hin. by apply bool_decide_eq_false, Hcol.
    + destruct (proj2 (mapR_ok_iff (check_relationship (dict_of ent_name (entities m)))
                         (relationships m))) as [edges Hedges].
      { intros r Hin. destruct (Hrel r Hin) as [(a & Ha & ?) ???].
        exists (edge_of a r). apply check_relationship_spec; [done..|].
        split; [by apply Hrel|by exists a]. }
      exists edges. split; [done|]. by apply (required_check m edges).
Qed.

Lemma validate_relationship_spec r :
  validate_relationship r = Ok tt <-> relationship_fields r = true.
Proof. unfold validate_relationship. by rewrite raise_if_Ok, negb_false_iff. Qed.

Lemma validate_index_spec i :
  validate_index i = Ok tt <-> index_fields i = true /\ NoDup (idx_fields i).
Proof.
  unfold validate_index. by rewrite raise_if_then, raise_if_Ok, !negb_false_iff, distinct_spec.
Qed.

Lemma validate_facet_spec f : validate_facet f = Ok tt <-> facet_fields f = true.
Proof. unfold validate_facet. by rewrite raise_if_Ok, negb_false_iff. Qed.

Lemma validate_history_entry_spec h :
  validate_history_entry h = Ok tt
  <-> history_fields h = true /\ (from_schema_version h < to_schema_version h)%Z.
Proof.
  unfold validate_history_entry.
  by rewrite raise_if_then, raise_if_Ok, negb_false_iff, Z.leb_gt.
Qed.

Lemma validate_manifest_spec m : validate_manifest m = Ok tt <-> ManifestWF m.
Proof.
  unfold validate_manifest.
  rewrite raise_if_then, 5 mapR_unit_then, negb_false_iff.
  setoid_rewrite validate_entity_spec. setoid_rewrite validate_relationship_spec.
  setoid_rewrite validate_index_spec. setoid_rewrite validate_facet_spec.
  setoid_rewrite validate_history_entry_spec. split.
  - intros (? & He & ? & ? & ? & ? & ?). split; try done. by apply validate_references_spec.
  - intros [? He ? ? ? ? ?]. split_and!; try done. by apply validate_references_spec.
Qed.

Lemma manifest_valid_WF m : manifest_valid m = true -> ManifestWF m.
Proof. intros [[] H]%is_ok_spec. by apply validate_manifest_spec. Qed.

Lemma WF_manifest_valid m : ManifestWF m -> manifest_valid m = true.
Proof. intros H%validate_manifest_spec. apply is_ok_spec. by exists tt. Qed.

(** ** Properties *)

(** C39: The validator of the public manifest accepts exactly the well-formed
    documents: every check of the nested validators together, including the
    depth-first search over required relationships, decides [ManifestWF]. *)
Theorem manifest_valid_spec (m : ManifestV2) : manifest_valid m = true <-> ManifestWF m.
Proof.
  unfold manifest_valid. rewrite is_ok_spec, <- validate_manifest_spec.
  split; [by intros [[] ?]|by exists tt].
Qed.

(** The required-relationship cycle check always returns within its bound,
    and returns true exactly when the edges contain a directed cycle. *)
Theorem has_directed_cycle_correct (edges : list (pystr * pystr)) :
  (has_directed_cycle edges = Some true /\ exists n, tc (fun x y => (x, y) ∈ edges) n n)
  \/ (has_directed_cycle edges = Some false /\ forall n, ~ tc (fun x y => (x, y) ∈ edges) n n).
Proof.
  destruct (has_directed_cycle_spec edges) as ([|] & -> & H).
  - left. by rewrite <- H.
  - right. split; [done|]. intros n Hn.
    assert (false = true) by (apply H; by exists n). done.
Qed.
