(* ===== verification/PublicJson.v ===== *)
(** * PublicJson: the JSON document of a manifest

    [model_dump(mode="json", by_alias=True)] of the models of [Manifest]: every
    declared field in order, [None] as null, [from_] under its alias.  Two
    manifests with the same document, whatever the order of the keys, are equal. *)
From S2P Require Import Prelude Values Json Manifest.

(** ** The document *)
Definition jstr (s : pystr) : json := JScalar (PyStr s).
Definition jint (z : Z) : json := JScalar (PyInt z).
Definition jbool (b : bool) : json := JScalar (PyBool b).
Definition jopt {A} (f : A -> json) (o : option A) : json :=
  match o with None => JNull | Some x => f x end.
Definition jlist {A} (f : A -> json) (l : list A) : json := JArr (map f l).

Definition type_str (t : LogicalType) : pystr :=
  match t with
  | TString => lit "string" | TInteger => lit "integer" | TNumber => lit "number"
  | TBoolean => lit "boolean" | TDatetime => lit "datetime" | TUuid => lit "uuid"
  | TStringList => lit "string_list"
  end.

Definition mode_str (r : RetrievalMode) : pystr :=
  match r with Annotation => lit "annotation" | Membership => lit "membership" end.

Definition attribute_json (a : AttributeDefinition) : json :=
  JObj [ (lit "name", jstr (attr_name a));
         (lit "type", jstr (type_str (attr_type a)));
         (lit "required", jbool (attr_required a));
         (lit "primary_key", jbool (attr_primary_key a));
         (lit "description", jopt jstr (attr_description a));
         (lit "allowed_values", jopt (jlist JScalar) (attr_allowed_values a));
         (lit "retrieval_mode", jopt (fun r => jstr (mode_str r)) (attr_retrieval_mode a)) ].

Definition entity_json (e : EntityDefinition) : json :=
  JObj [ (lit "name", jstr (ent_name e));
         (lit "attributes", jlist attribute_json (ent_attributes e));
         (lit "description", jopt jstr (ent_description e)) ].

Definition endpoint_json (p : RelationshipEndpoint) : json :=
  JObj [ (lit "entity", jstr (ep_entity p)); (lit "field", jstr (ep_field p)) ].

Definition relationship_json (r : RelationshipDefinition) : json :=
  JObj [ (lit "name", jstr (rel_name r));
         (lit "from", endpoint_json (rel_from r));
         (lit "to", endpoint_json (rel_to r));
         (lit "on_delete", jstr (lit "restrict")) ].

Definition index_json (i : IndexDefinition) : json :=
  JObj [ (lit "name", jstr (idx_name i));
         (lit "entity", jstr (idx_entity i));
         (lit "fields", jlist jstr (idx_fields i));
         (lit "unique", jbool (idx_unique i)) ].

Definition facet_json (f : DiscoveryFacet) : json :=
  JObj [ (lit "entity", jstr (facet_entity f)); (lit "field", jstr (facet_field f)) ].

Definition history_json (h : MigrationHistoryEntry) : json :=
  JObj [ (lit "from_schema_version", jint (from_schema_version h));
         (lit "to_schema_version", jint (to_schema_version h));
         (lit "operations", jlist jstr (operations h)) ].

(** [ManifestV2.to_public_dict]. *)
Definition to_public_dict (m : ManifestV2) : json :=
  JObj [ (lit "manifest_version", jint 2);
         (lit "schema_version", jint (schema_version m));
         (lit "entities", jlist entity_json (entities m));
         (lit "relationships", jlist relationship_json (relationships m));
         (lit "indices", jlist index_json (indices m));
         (lit "query_patterns", jlist jstr (query_patterns m));
         (lit "discovery_facets", jlist facet_json (discovery_facets m));
         (lit "retrieval_guidance", jopt jstr (retrieval_guidance m));
         (lit "migration_history", jlist history_json (migration_history m)) ].

(** ** Equality up to the order of keys *)
Definition same_json (j k : json) : Prop := sort_keys j = sort_keys k.

Lemma same_obj (xs ys : list (pystr * json)) :
  map fst xs = map fst ys -> NoDup (map fst xs) -> same_json (JObj xs) (JObj ys) ->
  Forall2 (fun e e' => same_json e.2 e'.2) xs ys.
Proof.
  intros Hk Hnd Hs. unfold same_json in Hs. cbn [sort_keys] in Hs. injection Hs as Hs.
  set (g := fun e : pystr * json => (e.1, sort_keys e.2)) in *.
  assert (forall l, map fst (map g l) = map fst l) as Hg by (intros; by rewrite map_map).
  assert (map g xs = map g ys) as Heq.
  { apply (same_keys_eq fst); [by rewrite Hg| |by rewrite !Hg].
    intros e He. rewrite <- (elem_of_sorted_by str_leb fst) in He |- *. by rewrite Hs. }
  clear Hs Hk Hnd. revert ys Heq. induction xs as [|x xs IH]; intros [|y ys] Heq; try done.
  cbn [map] in Heq. injection Heq as Hkey Hv Hxs. constructor; [done|by apply IH].
Qed.

(** An encoding that can be read back from the document. *)
Definition readable {A} (f : A -> json) : Prop := forall x y, same_json (f x) (f y) -> x = y.

Lemma readable_scalar : readable JScalar.
Proof. by intros v w [= ->]. Qed.
Lemma readable_str : readable jstr.
Proof. by intros v w [= ->]. Qed.
Lemma readable_int : readable jint.
Proof. by intros v w [= ->]. Qed.
Lemma readable_bool : readable jbool.
Proof. by intros v w [= ->]. Qed.

Lemma readable_opt {A} (f : A -> json) :
  (forall x, sort_keys (f x) <> JNull) -> readable f -> readable (jopt f).
Proof.
  intros Hne Hf [x|] [y|]; cbn [jopt]; unfold same_json; cbn [sort_keys]; try done.
  - by intros ->%Hf.
  - by intros ?%Hne.
  - intros Heq. symmetry in Heq. by apply Hne in Heq.
Qed.

Lemma readable_list {A} (f : A -> json) : readable f -> readable (jlist f).
Proof.
  intros Hf xs ys. unfold jlist, same_json. cbn [sort_keys]. intros [= Heq].
  revert ys Heq; induction xs as [|x xs IH]; intros [|y ys] Heq; try done.
  cbn [map] in Heq. injection Heq as Hx Hxs. f_equal; [by apply Hf|by apply IH].
Qed.

Lemma type_str_inj t u : type_str t = type_str u -> t = u.
Proof. by destruct t, u. Qed.
Lemma mode_str_inj t u : mode_str t = mode_str u -> t = u.
Proof. by destruct t, u. Qed.

(** Split a document equality into the equalities of its members. *)
Ltac members :=
  let H := fresh "Hm" in
  intros H; apply same_obj in H; [|reflexivity|apply distinct_spec; vm_compute; reflexivity];
  repeat match goal with
  | H : Forall2 _ (_ :: _) _ |- _ => apply Forall2_cons_1 in H as [? H]
  | H : Forall2 _ [] _ |- _ => clear H
  end; cbn [fst snd] in *.

(** Read one member back. *)
Ltac read_member R :=
  match goal with H : same_json _ _ |- _ => apply R in H; try subst end.

Lemma readable_attribute : readable attribute_json.
Proof.
  intros [n t r p d v m] [n' t' r' p' d' v' m']. unfold attribute_json; cbn [attr_name attr_type
    attr_required attr_primary_key attr_description attr_allowed_values attr_retrieval_mode].
  members. f_equal.
  - by apply readable_str.
  - by apply type_str_inj, readable_str.
  - by apply readable_bool.
  - by apply readable_bool.
  - by apply (readable_opt jstr); [|apply readable_str|].
  - apply (readable_opt (jlist JScalar)); [done|apply readable_list, readable_scalar|done].
  - apply (readable_opt (fun r => jstr (mode_str r))); [done| |done].
    intros x y ?%readable_str. by apply mode_str_inj.
Qed.

Lemma readable_entity : readable entity_json.
Proof.
  intros [n a d] [n' a' d']. unfold entity_json; cbn [ent_name ent_attributes ent_description].
  members. f_equal.
  - by apply readable_str.
  - by apply (readable_list _ readable_attribute).
  - by apply (readable_opt jstr); [|apply readable_str|].
Qed.

Lemma readable_endpoint : readable endpoint_json.
Proof.
  intros [e f] [e' f']. unfold endpoint_json; cbn [ep_entity ep_field].
  members. f_equal; by apply readable_str.
Qed.

Lemma readable_relationship : readable relationship_json.
Proof.
  intros [n f t] [n' f' t']. unfold relationship_json; cbn [rel_name rel_from rel_to].
  members. f_equal; [by apply readable_str|by apply readable_endpoint..].
Qed.

Lemma readable_index : readable index_json.
Proof.
  intros [n e f u] [n' e' f' u']. unfold index_json; cbn [idx_name idx_entity idx_fields idx_unique].
  members. f_equal; [by apply readable_str..| |by apply readable_bool].
  by apply (readable_list _ readable_str).
Qed.

Lemma readable_facet : readable facet_json.
Proof.
  intros [e f] [e' f']. unfold facet_json; cbn [facet_entity facet_field].
  members. f_equal; by apply readable_str.
Qed.

Lemma readable_history : readable history_json.
Proof.
  intros [f t o] [f' t' o']. unfold history_json;
    cbn [from_schema_version to_schema_version operations].
  members. f_equal; [by apply readable_int..|]. by apply (readable_list _ readable_str).
Qed.

Lemma readable_manifest : readable to_public_dict.
Proof.
  intros [v e r i q d g h] [v' e' r' i' q' d' g' h']. unfold to_public_dict;
    cbn [schema_version entities relationships indices query_patterns discovery_facets
         retrieval_guidance migration_history].
  members. f_equal.
  - by apply readable_int.
  - by apply (readable_list _ readable_entity).
  - by apply (readable_list _ readable_relationship).
  - by apply (readable_list _ readable_index).
  - by apply (readable_list _ readable_str).
  - by apply (readable_list _ readable_facet).
  - by apply (readable_opt jstr); [|apply readable_str|].
  - by apply (readable_list _ readable_history).
Qed.
