(* ===== verification/Relational.v ===== *)
(** * Relational: compilation and transition classification of [relational.py]

    A manifest compiles to a backend-neutral [RelationalSpecification]; two
    manifests one version apart are classified into the additive transition
    that leads from one to the other, or refused.  Every frozen dataclass is a
    record with its [__post_init__] check as a bool function, and is built
    through the constructor that runs the check.  What Pydantic does between
    two calls (dump a model, validate the dump) is the class [PublicModels]. *)
From S2P Require Import Prelude Values Graph Manifest.

(** ** Exceptions *)
Inductive RelationalError : Type :=
| RelationalContractError
| KeyError
| IndexError.

Abbreviation require := (fun ok => raise_if (E := RelationalError) (negb ok) RelationalContractError).

(** [d[k]]. *)
Definition dict_index {A} (d : list (pystr * A)) (k : pystr) : result RelationalError A :=
  match dict_get d k with Some a => Ok a | None => Raise KeyError end.

(** ** Dumping and validating public models *)

(** [model_dump] then [model_validate]: the declared constraints and validators
    run again, and the model that comes back equals the one dumped. *)
Class PublicModels := {
  dumped : Type;
  model_dump : ManifestV2 -> dumped;
  model_validate : dumped -> result ManifestError ManifestV2;
  model_roundtrip : forall m,
    model_validate (model_dump m) = (validate_manifest m ;; Ok m)
}.

(** ** The specification *)
Record RelationalField := {
  rf_name : pystr;
  rf_type : LogicalType;
  rf_required : bool;
  rf_primary_key : bool
}.

Record RelationalEntity := { re_name : pystr; re_fields : list RelationalField }.

(** [on_delete], [on_update] and [constraint_timing] have one value each. *)
Record RelationalRelationship := {
  rr_name : pystr;
  rr_source_entity : pystr;
  rr_source_field : pystr;
  rr_target_entity : pystr;
  rr_target_field : pystr
}.

Record RelationalIndex := {
  ri_name : pystr;
  ri_entity : pystr;
  ri_fields : list pystr;
  ri_unique : bool
}.

Record RelationalSpecification := {
  rs_schema_version : Z;
  rs_entities : list RelationalEntity;
  rs_relationships : list RelationalRelationship;
  rs_indices : list RelationalIndex
}.

#[export] Instance RelationalField_eq_dec : EqDecision RelationalField.
Proof. solve_decision. Defined.
#[export] Instance RelationalEntity_eq_dec : EqDecision RelationalEntity.
Proof. solve_decision. Defined.
#[export] Instance RelationalRelationship_eq_dec : EqDecision RelationalRelationship.
Proof. solve_decision. Defined.
#[export] Instance RelationalIndex_eq_dec : EqDecision RelationalIndex.
Proof. solve_decision. Defined.

(** [RelationalField.__post_init__]. *)
Definition field_valid (f : RelationalField) : bool :=
  identifier (rf_name f) && negb (rf_primary_key f && negb (rf_required f)).

Definition make_field (f : RelationalField) : result RelationalError RelationalField :=
  require (field_valid f) ;; Ok f.

(** [RelationalEntity.__post_init__]. *)
Definition server_field_matches (by_name : list (pystr * RelationalField))
    (expected : pystr * ServerField) : bool :=
  match dict_get by_name expected.1 with
  | None => false
  | Some f => bool_decide ((rf_type f, rf_required f, rf_primary_key f)
                = (sf_type expected.2, sf_required expected.2, sf_primary_key expected.2))
  end.

Definition spec_entity_valid (e : RelationalEntity) : bool :=
  identifier (re_name e) && bool_decide (re_fields e <> [])
  && (length (re_fields e) <=? 64)%nat
  && distinct (map rf_name (re_fields e))
  && forallb (server_field_matches (dict_of rf_name (re_fields e))) SERVER_MANAGED_FIELDS
  && negb (existsb (fun f => rf_primary_key f && bool_decide (rf_name f <> lit "id")) (re_fields e)).

Definition make_entity (e : RelationalEntity) : result RelationalError RelationalEntity :=
  require (spec_entity_valid e) ;; Ok e.

(** [RelationalRelationship.__post_init__]. *)
Definition spec_relationship_valid (r : RelationalRelationship) : bool :=
  identifier (rr_name r) && identifier (rr_source_entity r) && identifier (rr_source_field r)
  && identifier (rr_target_entity r) && identifier (rr_target_field r)
  && (length (rr_name r) <=? 48)%nat.

Definition make_relationship (r : RelationalRelationship)
  : result RelationalError RelationalRelationship :=
  require (spec_relationship_valid r) ;; Ok r.

(** [RelationalIndex.__post_init__]. *)
Definition spec_index_valid (i : RelationalIndex) : bool :=
  identifier (ri_name i) && (length (ri_name i) <=? 48)%nat && identifier (ri_entity i)
  && bool_decide (ri_fields i <> []) && (length (ri_fields i) <=? 8)%nat
  && forallb identifier (ri_fields i) && distinct (ri_fields i).

Definition make_index (i : RelationalIndex) : result RelationalError RelationalIndex :=
  require (spec_index_valid i) ;; Ok i.

(** [_entity_field]. *)
Definition entity_field (e : RelationalEntity) (name : pystr) : option RelationalField :=
  List.find (fun f => bool_decide (rf_name f = name)) (re_fields e).

(** [_has_directed_cycle] over [required_graph], whose keys are the entity
    names and whose value sets the edges fill; a set is walked in sorted order. *)
Definition spec_has_directed_cycle (names : list pystr) (edges : list (pystr * pystr))
  : option bool :=
  cycle_search (adjacency edges) (S (length names)) names.

(** The loop over the relationships, with [endpoints] and [required_graph]. *)
Fixpoint check_spec_relationships (entities : list (pystr * RelationalEntity))
    (endpoints : list (pystr * pystr)) (edges : list (pystr * pystr))
    (rels : list RelationalRelationship) : result RelationalError (list (pystr * pystr)) :=
  match rels with
  | [] => Ok edges
  | r :: rels' =>
      match dict_get entities (rr_source_entity r), dict_get entities (rr_target_entity r) with
      | Some source_entity, Some target_entity =>
          let endpoint := (rr_source_entity r, rr_source_field r) in
          match entity_field source_entity (rr_source_field r),
                entity_field target_entity (rr_target_field r) with
          | Some source, Some target =>
              require (bool_decide (rf_type source = TUuid) && negb (rf_primary_key source)
                       && bool_decide (rr_target_field r = lit "id")
                       && bool_decide (rf_type target = TUuid) && rf_primary_key target
                       && bool_decide (endpoint ∉ endpoints)) ;;
              check_spec_relationships entities (endpoint :: endpoints)
                (if rf_required source
                 then edges ++ [(rr_source_entity r, rr_target_entity r)] else edges) rels'
          | _, _ => Raise RelationalContractError
          end
      | _, _ => Raise RelationalContractError
      end
  end.

Definition spec_index_definition (i : RelationalIndex) : pystr * list pystr * bool :=
  (ri_entity i, ri_fields i, ri_unique i).

(** The loop over the indices, with [index_definitions]. *)
Fixpoint check_spec_indices (entities : list (pystr * RelationalEntity))
    (definitions : list (pystr * list pystr * bool)) (ixs : list RelationalIndex)
  : result RelationalError unit :=
  match ixs with
  | [] => Ok tt
  | i :: ixs' =>
      match dict_get entities (ri_entity i) with
      | None => Raise RelationalContractError
      | Some entity =>
          require (forallb (fun name =>
            match entity_field entity name with
            | None => false
            | Some f => bool_decide (rf_type f <> TStringList)
            end) (ri_fields i)) ;;
          require (bool_decide (spec_index_definition i ∉ definitions)) ;;
          check_spec_indices entities (spec_index_definition i :: definitions) ixs'
      end
  end.

(** [_validate_specification_shape]. *)
Definition validate_specification_shape (s : RelationalSpecification)
  : result RelationalError unit :=
  let entities := dict_of re_name (rs_entities s) in
  let index_names := map ri_name (rs_indices s) in
  require (length entities =? length (rs_entities s))%nat ;;
  require (negb (existsb (startswith (lit "sqlite_")) (map re_name (rs_entities s)))) ;;
  require (distinct (map rr_name (rs_relationships s))) ;;
  require (distinct index_names) ;;
  require (negb (existsb (startswith (lit "sqlite_")) index_names)) ;;
  require (negb (existsb (fun n => bool_decide (n ∈ index_names)) (map re_name (rs_entities s)))) ;;
  edges ← check_spec_relationships entities [] [] (rs_relationships s);
  require (negb (default true (spec_has_directed_cycle (dict_keys entities) edges))) ;;
  check_spec_indices entities [] (rs_indices s).

(** [RelationalSpecification.__post_init__]. *)
Definition make_specification (s : RelationalSpecification)
  : result RelationalError RelationalSpecification :=
  require ((1 <=? rs_schema_version s) && (rs_schema_version s <=? 65)
           && bool_decide (rs_entities s <> [])
           && (length (rs_entities s) <=? 32)%nat
           && (length (rs_relationships s) <=? 128)%nat
           && (length (rs_indices s) <=? 128)%nat
           && bool_decide (map re_name (rs_entities s) = sorted_strs (map re_name (rs_entities s)))
           && bool_decide (map rr_name (rs_relationships s)
                           = sorted_strs (map rr_name (rs_relationships s)))
           && bool_decide (map ri_name (rs_indices s)
                           = sorted_strs (map ri_name (rs_indices s)))) ;;
  validate_specification_shape s ;;
  Ok s.

(** [same_structure_as]. *)
Definition same_structure_as (s t : RelationalSpecification) : bool :=
  bool_decide (rs_entities s = rs_entities t)
  && bool_decide (rs_relationships s = rs_relationships t)
  && bool_decide (rs_indices s = rs_indices t).

(** ** Compilation *)

(** [_field] and [_entity]. *)
Definition field_of (a : AttributeDefinition) : RelationalField :=
  {| rf_name := attr_name a; rf_type := attr_type a;
     rf_required := attr_required a; rf_primary_key := attr_primary_key a |}.

Definition compile_entity (e : EntityDefinition) : result RelationalError RelationalEntity :=
  fields ← mapR (fun a => make_field (field_of a)) (ent_attributes e);
  make_entity {| re_name := ent_name e; re_fields := fields |}.

Definition relationship_of (r : RelationshipDefinition) : RelationalRelationship :=
  {| rr_name := rel_name r;
     rr_source_entity := ep_entity (rel_from r); rr_source_field := ep_field (rel_from r);
     rr_target_entity := ep_entity (rel_to r); rr_target_field := ep_field (rel_to r) |}.

Definition index_of (i : IndexDefinition) : RelationalIndex :=
  {| ri_name := idx_name i; ri_entity := idx_entity i;
     ri_fields := idx_fields i; ri_unique := idx_unique i |}.

(** [_compile_checked_manifest]. *)
Definition compile_checked_manifest (m : ManifestV2)
  : result RelationalError RelationalSpecification :=
  ents ← mapR compile_entity (sorted_by str_leb ent_name (entities m));
  rels ← mapR (fun r => make_relationship (relationship_of r))
           (sorted_by str_leb rel_name (relationships m));
  ixs ← mapR (fun i => make_index (index_of i)) (sorted_by str_leb idx_name (indices m));
  make_specification {| rs_schema_version := schema_version m; rs_entities := ents;
                        rs_relationships := rels; rs_indices := ixs |}.

Section operations.
Context `{PublicModels}.

(** [_detached_manifest]. *)
Definition detached_manifest (m : ManifestV2) : result RelationalError ManifestV2 :=
  match model_validate (model_dump m) with
  | Ok d => Ok d
  | Raise _ => Raise RelationalContractError
  end.

Definition compile_manifest (m : ManifestV2) : result RelationalError RelationalSpecification :=
  d ← detached_manifest m; compile_checked_manifest d.
End operations.

(** ** What a valid manifest compiles to *)
Definition spec_entity (e : EntityDefinition) : RelationalEntity :=
  {| re_name := ent_name e; re_fields := map field_of (ent_attributes e) |}.

Definition compiled (m : ManifestV2) : RelationalSpecification :=
  {| rs_schema_version := schema_version m;
     rs_entities := map spec_entity (sorted_by str_leb ent_name (entities m));
     rs_relationships := map relationship_of (sorted_by str_leb rel_name (relationships m));
     rs_indices := map index_of (sorted_by str_leb idx_name (indices m)) |}.

(** The edge a relationship adds to [required_graph]. *)
Definition spec_edge (entities : list (pystr * RelationalEntity)) (r : RelationalRelationship)
  : option (pystr * pystr) :=
  e ← dict_get entities (rr_source_entity r);
  f ← entity_field e (rr_source_field r);
  if rf_required f then Some (rr_source_entity r, rr_target_entity r) else None.

Lemma require_Ok (b : bool) u : require b = Ok u <-> b = true.
Proof. by rewrite raise_if_Ok, negb_false_iff. Qed.

Lemma require_then {B} (b : bool) (m : result RelationalError B) x :
  (require b ;; m) = Ok x <-> b = true /\ m = Ok x.
Proof. by rewrite raise_if_then, negb_false_iff. Qed.

Lemma require_run {B} (b : bool) (m : result RelationalError B) :
  b = true -> (require b ;; m) = m.
Proof. by intros ->. Qed.

Lemma find_map {A B} (f : A -> B) (p : B -> bool) l :
  List.find p (map f l) = f <$> List.find (p ∘ f) l.
Proof. induction l as [|x l IH]; simpl; [done|]. by destruct (p (f x)). Qed.

Lemma map_keep {A B C} (f : A -> B) (k : B -> C) (k' : A -> C) l :
  (forall x, k (f x) = k' x) -> map k (map f l) = map k' l.
Proof. intros H. rewrite map_map. by apply map_ext. Qed.

Lemma entity_field_spec e f a :
  NoDup (map attr_name (ent_attributes e)) -> a ∈ ent_attributes e -> attr_name a = f ->
  entity_field (spec_entity e) f = Some (field_of a).
Proof.
  intros Hnd Ha Hf. unfold entity_field, spec_entity; simpl. rewrite find_map.
  unfold compose; simpl. by rewrite (proj2 (find_attribute _ f a Hnd)).
Qed.

(** *** Entities, relationships and indices *)
Lemma validate_attribute_field a : validate_attribute a = Ok tt -> field_valid (field_of a) = true.
Proof.
  unfold validate_attribute, validate_type_metadata, attribute_fields, field_valid.
  rewrite raise_if_then, raise_if_then. intros (Hf & Hp & _). simpl. bools.
  destruct Hf as [[? _] _]. split; [done|]. by destruct Hp; [left|right].
Qed.

Lemma server_field_compiled e n f :
  EntityWF e -> (n, f) ∈ SERVER_MANAGED_FIELDS ->
  server_field_matches (dict_of rf_name (map field_of (ent_attributes e))) (n, f) = true.
Proof.
  intros He Hf. unfold server_field_matches; simpl.
  assert (dict_get (dict_of rf_name (map field_of (ent_attributes e))) n
          = Some (field_of (server_attribute n f))) as ->.
  { apply dict_of_get; [by rewrite (map_keep _ _ attr_name); [apply ewf_names|]|].
    split; [|done]. apply elem_of_map. eexists; split; [done|]. by apply ewf_server. }
  by apply bool_decide_eq_true.
Qed.

Lemma compile_entity_total e : EntityWF e -> compile_entity e = Ok (spec_entity e).
Proof.
  intros He. unfold compile_entity.
  rewrite (mapR_total _ field_of).
  2:{ intros a Ha. apply (ewf_attributes _ He), validate_attribute_field in Ha.
      unfold make_field. by rewrite Ha. }
  simpl. unfold make_entity. replace (spec_entity_valid _) with true; [done|]. symmetry.
  pose proof (ewf_fields _ He) as Hf. unfold entity_fields, len_ok in Hf. bools.
  destruct Hf as [[? [? ?]] ?].
  unfold spec_entity_valid; cbn [re_name re_fields]. rewrite length_map, (map_keep _ _ attr_name) by done.
  bools. rewrite distinct_spec, forallb_forall. split_and!; try done.
  - intros Hnil%map_eq_nil. rewrite Hnil in *. simpl in *. lia.
  - by apply ewf_names.
  - intros [n f] Hin. apply server_field_compiled; [done|]. by apply list_elem_of_In.
  - apply existsb_false. intros f (a & -> & Ha)%elem_of_map. simpl.
    destruct (attr_primary_key a) eqn:E; [simpl|done].
    apply bool_decide_eq_false. intros Hne. by apply Hne, (ewf_primary _ He).
Qed.

Lemma make_relationship_total r :
  relationship_fields r = true -> make_relationship (relationship_of r) = Ok (relationship_of r).
Proof.
  unfold relationship_fields, endpoint_fields, make_relationship. intros H. bools.
  replace (spec_relationship_valid _) with true; [done|]. symmetry.
  unfold spec_relationship_valid; simpl. bools. tauto.
Qed.

Lemma make_index_total i :
  index_fields i = true -> NoDup (idx_fields i) -> make_index (index_of i) = Ok (index_of i).
Proof.
  unfold index_fields, len_ok, make_index. intros H Hnd. bools.
  replace (spec_index_valid _) with true; [done|]. symmetry.
  unfold spec_index_valid; simpl. bools. rewrite distinct_spec.
  destruct H as [[[[??]?]?][??]]. split_and!; try done.
  intros Hnil. rewrite Hnil in *. simpl in *. lia.
Qed.

(** *** The shape of the specification *)
Section shape.
Variable m : ManifestV2.
Hypothesis Hm : ManifestWF m.
Let ents := map spec_entity (sorted_by str_leb ent_name (entities m)).
Let by_name := dict_of re_name ents.

Lemma spec_names : map re_name ents = sorted_strs (map ent_name (entities m)).
Proof using. unfold ents. by rewrite (map_keep _ _ ent_name), map_sorted_by. Qed.

Lemma spec_names_NoDup : NoDup (map re_name ents).
Proof using Hm.
  rewrite spec_names. unfold sorted_strs. rewrite sorted_by_perm.
  apply (mwf_entity_names _ (mwf_references _ Hm)).
Qed.

Lemma spec_lookup e : e ∈ entities m -> dict_get by_name (ent_name e) = Some (spec_entity e).
Proof using Hm.
  intros He. apply dict_of_get; [apply spec_names_NoDup|]. split; [|done].
  apply elem_of_map. exists e. by rewrite elem_of_sorted_by.
Qed.

(** A declared field is found in the compiled entities. *)
Lemma spec_declares e f a :
  declares m e f a ->
  exists se, dict_get by_name e = Some se /\ entity_field se f = Some (field_of a).
Proof using Hm.
  intros (ent & He & <- & Ha & Hf). exists (spec_entity ent). split; [by apply spec_lookup|].
  apply entity_field_spec; [by apply ewf_names, (mwf_entities _ Hm)|done..].
Qed.

Definition endpoint (r : RelationalRelationship) := (rr_source_entity r, rr_source_field r).

Lemma check_spec_relationships_total rels endpoints edges :
  (forall r, r ∈ rels -> RelationshipWF m r) ->
  NoDup (map relationship_source rels) ->
  (forall r, r ∈ rels -> relationship_source r ∉ endpoints) ->
  check_spec_relationships by_name endpoints edges (map relationship_of rels)
  = Ok (edges ++ omap (spec_edge by_name) (map relationship_of rels)).
Proof using Hm.
  revert endpoints edges. induction rels as [|r rels IH]; intros endpoints edges Hwf Hnd Hfresh;
    [simpl; by rewrite app_nil_r|].
  apply NoDup_cons in Hnd as [Hr Hnd].
  destruct (Hwf r) as [(a & Ha & Hty & Hpk) _ Hte Htf]; [by left|].
  destruct (spec_declares _ _ _ Ha) as (se & Hse & Hsf).
  apply elem_of_map in Hte as (te & Hten & Hte).
  pose proof (declares_id _ (mwf_entities _ Hm) te Hte) as Hid.
  rewrite <- Hten, <- Htf in Hid. destruct (spec_declares _ _ _ Hid) as (ts & Hts & Htsf).
  assert (spec_edge by_name (relationship_of r)
          = if attr_required a
            then Some (ep_entity (rel_from r), ep_entity (rel_to r)) else None) as Hedge.
  { unfold spec_edge; simpl. rewrite Hse; simpl. by rewrite Hsf. }
  assert (relationship_source r ∉ endpoints) as Hre by (apply Hfresh; by left).
  cbn [map check_spec_relationships relationship_of rr_source_entity rr_source_field
       rr_target_entity rr_target_field omap list_omap].
  rewrite Hse, Hts, Hsf, Htsf. cbn [rf_type rf_primary_key rf_required field_of server_attribute
    attr_type attr_primary_key attr_required sf_type sf_required sf_primary_key].
  rewrite Hty, Hpk, Htf, !bool_decide_true by done. cbn [negb andb].
  cbn [raise_if mbind result_bind].
  rewrite IH; [|intros; apply Hwf; by right|done|].
  - f_equal. fold (relationship_of r). rewrite Hedge.
    destruct (attr_required a); [by rewrite <- app_assoc|done].
  - intros r' Hr'. rewrite not_elem_of_cons. split; [|apply Hfresh; by right].
    intros Heq. apply Hr, elem_of_map. exists r'. by split.
Qed.

(** The edges of [required_graph] are the required relationships. *)
Lemma spec_edges x y :
  (x, y) ∈ omap (spec_edge by_name) (map relationship_of (sorted_by str_leb rel_name (relationships m)))
  <-> required_edge m x y.
Proof using Hm.
  rewrite list_elem_of_omap. unfold required_edge. split.
  - intros (r' & (r & -> & Hr)%elem_of_map & He). rewrite elem_of_sorted_by in Hr.
    destruct (mwf_relationships _ (mwf_references _ Hm) r Hr) as [(a & Ha & _) _ _ _].
    destruct (spec_declares _ _ _ Ha) as (se & Hse & Hsf).
    unfold spec_edge in He; simpl in He. rewrite Hse in He; simpl in He. rewrite Hsf in He.
    simpl in He. destruct (attr_required a) eqn:E; [|done]. injection He as <- <-.
    by exists r, a.
  - intros (r & a & Hr & Ha & Hreq & -> & ->). exists (relationship_of r). split.
    + apply elem_of_map. exists r. by rewrite elem_of_sorted_by.
    + destruct (spec_declares _ _ _ Ha) as (se & Hse & Hsf).
      unfold spec_edge; simpl. rewrite Hse; simpl. rewrite Hsf; simpl. by rewrite Hreq.
Qed.

Lemma spec_acyclic :
  spec_has_directed_cycle (dict_keys by_name)
    (omap (spec_edge by_name) (map relationship_of (sorted_by str_leb rel_name (relationships m))))
  = Some false.
Proof using Hm.
  set (edges := omap _ _). unfold spec_has_directed_cycle.
  assert (forall x y, edge (adjacency edges) x y <-> required_edge m x y) as Hedge
    by (intros; unfold edge; rewrite elem_of_adjacency; apply spec_edges).
  assert (forall n, n ∈ map ent_name (entities m) -> n ∈ dict_keys by_name) as Hkeys.
  { intros n Hn. unfold by_name. rewrite dict_of_keys by apply spec_names_NoDup.
    rewrite spec_names. unfold sorted_strs. by rewrite elem_of_sorted_by. }
  destruct (cycle_search_spec (adjacency edges) (dict_keys by_name) (dict_keys by_name)
              (S (length (dict_keys by_name)))) as ([|] & -> & Hb); [|done|lia| |done].
  - intros x y (r & a & Hr & _ & _ & -> & ->)%Hedge.
    by apply Hkeys, (rwf_target_entity m), (mwf_relationships _ (mwf_references _ Hm)).
  - exfalso. apply proj1 in Hb. specialize (Hb eq_refl) as (r & n & _ & _ & Hn).
    eapply (mwf_acyclic _ (mwf_references _ Hm) n), tc_mono; [|exact Hn]. intros; by apply Hedge.
Qed.

Lemma check_spec_indices_total ixs definitions :
  (forall i, i ∈ ixs -> i ∈ indices m /\ index_definition i ∉ definitions) ->
  (forall i, i ∈ ixs -> idx_fields i <> []) ->
  NoDup (map index_definition ixs) ->
  check_spec_indices by_name definitions (map index_of ixs) = Ok tt.
Proof using Hm.
  revert definitions. induction ixs as [|i ixs IH]; intros definitions Hin Hne Hnd; simpl; [done|].
  apply NoDup_cons in Hnd as [Hi Hnd]. destruct (Hin i) as [Him Hfresh]; [by left|].
  assert (forall f, f ∈ idx_fields i -> exists se sf, dict_get by_name (idx_entity i) = Some se
            /\ entity_field se f = Some sf /\ rf_type sf <> TStringList) as Hf.
  { intros f Hf. destruct (mwf_indices _ (mwf_references _ Hm) i f Him Hf) as (a & Ha & Hty).
    destruct (spec_declares _ _ _ Ha) as (se & ? & ?). by exists se, (field_of a). }
  destruct (dict_get by_name (idx_entity i)) as [se|] eqn:Hse.
  2:{ destruct (idx_fields i) as [|f fs] eqn:E; [by destruct (Hne i); [by left|]|].
      destruct (Hf f) as (? & ? & [=] & _). by left. }
  match goal with |- context [forallb ?p ?l] => replace (forallb p l) with true end.
  2:{ symmetry. apply forallb_forall. intros f Hin'%list_elem_of_In.
      destruct (Hf f Hin') as (? & sf & [= <-] & -> & ?). by apply bool_decide_eq_true. }
  simpl. unfold spec_index_definition at 1; simpl. rewrite bool_decide_true by done. simpl.
  apply IH; [|intros; apply Hne; by right|done].
  intros j Hj. destruct (Hin j) as [Hjm Hjd]; [by right|]. split; [done|].
  rewrite not_elem_of_cons. split; [|done]. intros Heq. apply Hi, elem_of_map. by exists j.
Qed.

Lemma lower_sqlite n : identifier n = true -> is_sqlite_reserved n = false ->
  startswith (lit "sqlite_") n = false.
Proof using.
  unfold is_sqlite_reserved. intros Hid.
  replace (casefold n) with n; [done|]. destruct n as [|c s]; [done|]. simpl in Hid. bools.
  destruct Hid as [[Hc Hs] _]. unfold casefold.
  assert (forall c, is_ident_char c = true -> (65 <=? c)%N && (c <=? 90)%N = false) as Hlow.
  { intros c'. unfold is_ident_char, is_lower, is_digit. intros Hc'. bools. lia. }
  cbn [map]. rewrite Hlow by (unfold is_ident_char; by rewrite Hc). f_equal.
  induction s as [|d s IH]; [done|]. simpl in Hs. bools. destruct Hs as [Hd Hs].
  cbn [map]. rewrite Hlow by done. f_equal. by apply IH.
Qed.

Lemma no_reserved names :
  (forall n, n ∈ names -> n ∈ map ent_name (entities m) ++ map idx_name (indices m)) ->
  negb (existsb (startswith (lit "sqlite_")) names) = true.
Proof using Hm.
  intros Hin. apply negb_true_iff, existsb_false. intros n Hn. apply lower_sqlite.
  - specialize (Hin n Hn). apply elem_of_app in Hin as [Hin|Hin];
      apply elem_of_map in Hin as (x & -> & Hx).
    + pose proof (ewf_fields _ (mwf_entities _ Hm x Hx)) as H. unfold entity_fields in H.
      bools. tauto.
    + pose proof (proj1 (mwf_index_fields _ Hm x Hx)) as H. unfold index_fields in H.
      bools. tauto.
  - by apply (mwf_reserved _ (mwf_references _ Hm)), Hin.
Qed.

Lemma shape_total : validate_specification_shape (compiled m) = Ok tt.
Proof using Hm.
  pose proof (mwf_references _ Hm) as HR.
  unfold validate_specification_shape, compiled; cbn [rs_entities rs_relationships rs_indices].
  fold ents by_name. cbv zeta. rewrite !require_then.
  rewrite (map_keep _ _ rel_name), (map_keep _ _ idx_name), !map_sorted_by by done.
  rewrite spec_names, !distinct_spec, !NoDup_sorted_strs.
  split_and!.
  - apply Nat.eqb_eq, dict_of_length, spec_names_NoDup.
  - apply no_reserved. intros n. rewrite elem_of_sorted_strs, elem_of_app. tauto.
  - apply HR.
  - apply HR.
  - apply no_reserved. intros n. rewrite elem_of_sorted_strs, elem_of_app. tauto.
  - apply negb_true_iff, existsb_false. intros n Hn. rewrite elem_of_sorted_strs in Hn.
    apply bool_decide_eq_false. rewrite elem_of_sorted_strs. by apply (mwf_collision _ HR).
  - rewrite check_spec_relationships_total.
    + cbn [mbind result_bind app]. rewrite spec_acyclic. cbn [default negb raise_if mbind result_bind].
      apply check_spec_indices_total.
      * intros i. rewrite elem_of_sorted_by. intros Hi. split; [done|]. apply not_elem_of_nil.
      * intros i. rewrite elem_of_sorted_by. intros Hi Hnil.
        destruct (mwf_index_fields _ Hm i Hi) as [Hf _]. unfold index_fields, len_ok in Hf.
        rewrite Hnil in Hf. bools. simpl in Hf. lia.
      * rewrite sorted_by_perm. apply HR.
    + intros r. rewrite elem_of_sorted_by. apply HR.
    + rewrite sorted_by_perm. apply HR.
    + intros r _. apply not_elem_of_nil.
Qed.
End shape.

Lemma compile_checked_total m : ManifestWF m -> compile_checked_manifest m = Ok (compiled m).
Proof.
  intros Hm. unfold compile_checked_manifest.
  rewrite (mapR_total _ spec_entity).
  2:{ intros e. rewrite elem_of_sorted_by. intros. by apply compile_entity_total, Hm. }
  cbn [mbind result_bind]. rewrite (mapR_total _ relationship_of).
  2:{ intros r. rewrite elem_of_sorted_by. intros. by apply make_relationship_total, Hm. }
  cbn [mbind result_bind]. rewrite (mapR_total _ index_of).
  2:{ intros i. rewrite elem_of_sorted_by. intros. by apply make_index_total; apply Hm. }
  cbn [mbind result_bind]. fold (compiled m). unfold make_specification.
  pose proof (mwf_fields _ Hm) as Hf. unfold manifest_fields, len_ok in Hf. bools.
  unfold MAX_ENTITIES, MAX_RELATIONSHIPS, MAX_INDICES in Hf.
  destruct Hf as [[[[[[[[[??][??]][??]][??]]?]?]?]?]?].
  rewrite require_run.
  - by rewrite shape_total.
  - unfold compiled; cbn [rs_schema_version rs_entities rs_relationships rs_indices]. bools.
    rewrite (map_keep _ _ ent_name), (map_keep _ _ rel_name), (map_keep _ _ idx_name),
      !map_sorted_by, !sorted_strs_fix, !length_map, !length_sorted_by by done.
    split_and!; try done; try apply sorted_strs_sorted.
    intros Hnil%map_eq_nil. apply (f_equal length) in Hnil. rewrite length_sorted_by in Hnil.
    simpl in Hnil. lia.
Qed.

(** The functional specification of [compile_manifest]. *)
Lemma detached_manifest_spec `{PublicModels} m :
  detached_manifest m
  = if manifest_valid m then Ok m else Raise RelationalContractError.
Proof.
  unfold detached_manifest, manifest_valid. rewrite model_roundtrip.
  by destruct (validate_manifest m) as [[]|].
Qed.

Lemma compile_manifest_eq `{PublicModels} m :
  compile_manifest m
  = if manifest_valid m then Ok (compiled m) else Raise RelationalContractError.
Proof.
  unfold compile_manifest. rewrite detached_manifest_spec.
  destruct (manifest_valid m) eqn:E; [|done].
  by apply compile_checked_total, manifest_valid_WF.
Qed.
