(* ===== verification/Lifecycle.v ===== *)
(** * Lifecycle: commands, intents, fingerprints and recovery plans

    The pure vocabulary of [lifecycle.py]: the two lifecycle commands, the
    durable intent with its phase, the request fingerprint, the observations of
    a service store, and [plan_recovery], which turns an intent and an
    observation into one action.  Constructors are functions that run the
    checks of the class and raise its exception. *)
From S2P Require Import Prelude Values Json Sha256 Manifest PublicJson Relational.

(** ** Bounds *)
Definition MAX_SERVICE_REVISION : Z := 2 ^ 63 - 1.
Definition MAX_SCHEMA_VERSION : Z := 65.
Definition MAX_PRINCIPAL_LENGTH : nat := 128.
Definition MAX_CREATED_VIA_LENGTH : nat := 64.
Definition MAX_IDEMPOTENCY_KEY_LENGTH : nat := 128.

(** ** Enumerations *)
Inductive LifecycleKind := MATERIALISE | EVOLVE.
Inductive LifecyclePhase := PREPARED | COMPLETED | PHASE_RECOVERY_REQUIRED.
Inductive RecoveryState := CLEAR | PENDING | STATE_RECOVERY_REQUIRED.
Inductive FoundationObservation :=
| F_UNINITIALISED | F_OUTDATED | F_READY | F_DIRTY | F_INCOMPATIBLE
| F_NOT_OBSERVED | F_BUSY | F_UNAVAILABLE | F_UNCERTAIN.
Inductive DomainObservation :=
| D_UNMATERIALISED | D_READY | D_INCOMPATIBLE | D_NOT_OBSERVED
| D_BUSY | D_UNAVAILABLE | D_UNCERTAIN.
Inductive RecoveryAction :=
| PREPARE_FOUNDATION | APPLY_INITIAL_SCHEMA | APPLY_TRANSITION | FINALIZE_REGISTRY
| REPLAY_COMPLETE | DEFER_OBSERVATION | ACTION_RECOVERY_REQUIRED.
Inductive DeferredResult := STORAGE_BUSY | OPERATION_UNCERTAIN | STORAGE_UNAVAILABLE.
Inductive LifecycleResultCategory :=
| R_MALFORMED_INPUT | R_UNSUPPORTED_TRANSITION | R_STALE_REVISION | R_CHANGED_FINGERPRINT
| R_OPERATION_IN_PROGRESS | R_RECOVERY_REQUIRED | R_STORAGE_BUSY | R_OPERATION_UNCERTAIN
| R_STORAGE_UNAVAILABLE | R_INTERNAL_FAILURE.
Inductive LifecycleClaimStatus :=
| CLAIM_NEW | CLAIM_CONFLICT | CLAIM_REPLAY_COMPLETE | CLAIM_RESUME_PREPARED
| CLAIM_RECOVERY_REQUIRED.
Inductive LifecycleAdmissionStatus :=
| ADMIT_PREPARED | ADMIT_OPERATION_IN_PROGRESS | ADMIT_RECOVERY_REQUIRED.

#[export] Instance LifecycleKind_eq_dec : EqDecision LifecycleKind.
Proof. solve_decision. Defined.
#[export] Instance LifecyclePhase_eq_dec : EqDecision LifecyclePhase.
Proof. solve_decision. Defined.
#[export] Instance FoundationObservation_eq_dec : EqDecision FoundationObservation.
Proof. solve_decision. Defined.
#[export] Instance DomainObservation_eq_dec : EqDecision DomainObservation.
Proof. solve_decision. Defined.
#[export] Instance RecoveryAction_eq_dec : EqDecision RecoveryAction.
Proof. solve_decision. Defined.
#[export] Instance DeferredResult_eq_dec : EqDecision DeferredResult.
Proof. solve_decision. Defined.
#[export] Instance LifecycleResultCategory_eq_dec : EqDecision LifecycleResultCategory.
Proof. solve_decision. Defined.
#[export] Instance LifecycleClaimStatus_eq_dec : EqDecision LifecycleClaimStatus.
Proof. solve_decision. Defined.
#[export] Instance LifecycleAdmissionStatus_eq_dec : EqDecision LifecycleAdmissionStatus.
Proof. solve_decision. Defined.

(** [_FOUNDATION_NON_STATE], [_FOUNDATION_EXACT_NON_READY], [_DOMAIN_NON_STATE]. *)
Definition foundation_non_state (f : FoundationObservation) : bool :=
  match f with F_BUSY | F_UNAVAILABLE | F_UNCERTAIN => true | _ => false end.
Definition foundation_exact_non_ready (f : FoundationObservation) : bool :=
  match f with F_UNINITIALISED | F_OUTDATED | F_DIRTY | F_INCOMPATIBLE => true | _ => false end.
Definition domain_non_state (d : DomainObservation) : bool :=
  match d with D_BUSY | D_UNAVAILABLE | D_UNCERTAIN => true | _ => false end.

(** ** Exceptions of the module, one constructor per message *)
Inductive LifecycleError :=
| PrincipalInvalid | CreatedViaInvalid | ServiceIdInvalid | RevisionInvalid
| SchemaVersionInvalid | IdempotencyKeyInvalid
| MaterialiseVersion | EvolveBound | TargetManifestInvalid | EvolveTargetVersion
| FingerprintInvalid | MaterialiseIntentTarget | EvolveIntentTarget | FingerprintMismatch
| PhaseNotMonotonic | ClaimCarriesIntent | ClaimNeedsIntent | ClaimPhaseMismatch
| AdmissionPhaseMismatch | MaterialiseTargetMismatch | EvolveTargetMismatch
| TerminalObservation | ReadyNeedsTarget | NonReadyHasTarget | FoundationNotValid
| EvolveSourceInvalid | EvolveTargetInvalid
| DeferredNeedsResult | ResultNeedsDeferred | ObservationKindMismatch | PhaseMismatch.

Abbreviation refuse := (raise_if (E := LifecycleError)).

(** ** Commands *)

(** The fields the two commands and the intent share. *)
Record RequestFields := {
  principal_id : pystr;
  created_via : pystr;
  service_id : UUID;
  expected_service_revision : Z;
  expected_schema_version : Z;
  idempotency_key : pystr
}.

#[export] Instance RequestFields_eq_dec : EqDecision RequestFields.
Proof. solve_decision. Defined.

Inductive LifecycleCommand :=
| MaterialiseCommand (fields : RequestFields)
| EvolveCommand (fields : RequestFields) (target : ManifestV2).

#[export] Instance LifecycleCommand_eq_dec : EqDecision LifecycleCommand.
Proof. solve_decision. Defined.

Definition command_fields (c : LifecycleCommand) : RequestFields :=
  match c with MaterialiseCommand f | EvolveCommand f _ => f end.
Definition command_kind (c : LifecycleCommand) : LifecycleKind :=
  match c with MaterialiseCommand _ => MATERIALISE | EvolveCommand _ _ => EVOLVE end.

(** [_validate_common_fields]. *)
Definition validate_common_fields (f : RequestFields) : result LifecycleError unit :=
  refuse (negb (valid_text (principal_id f) MAX_PRINCIPAL_LENGTH)) PrincipalInvalid ;;
  refuse (negb (valid_text (created_via f) MAX_CREATED_VIA_LENGTH)) CreatedViaInvalid ;;
  refuse (service_id f =? 0)%N ServiceIdInvalid ;;
  refuse (negb ((1 <=? expected_service_revision f)
                && (expected_service_revision f <=? MAX_SERVICE_REVISION))) RevisionInvalid ;;
  refuse (negb ((1 <=? expected_schema_version f)
                && (expected_schema_version f <=? MAX_SCHEMA_VERSION))) SchemaVersionInvalid ;;
  refuse (negb (valid_text (idempotency_key f) MAX_IDEMPOTENCY_KEY_LENGTH)) IdempotencyKeyInvalid.

(** [MaterialiseCommand.__post_init__]. *)
Definition make_materialise (f : RequestFields) : result LifecycleError LifecycleCommand :=
  validate_common_fields f ;;
  refuse (negb (expected_schema_version f =? 1)) MaterialiseVersion ;;
  Ok (MaterialiseCommand f).

(** [_validate_fingerprint]. *)
Definition validate_fingerprint (fp : pystr) : result LifecycleError unit :=
  refuse (negb (valid_sha256 fp)) FingerprintInvalid.

(** ** Intents *)

(** The canonical JSON an intent stores is immutable and is parsed again on
    every access; the field holds the manifest it denotes. *)
Record LifecycleIntent := {
  kind : LifecycleKind;
  phase : LifecyclePhase;
  fields : RequestFields;
  fingerprint : pystr;
  target_manifest : ManifestV2
}.

#[export] Instance LifecycleIntent_eq_dec : EqDecision LifecycleIntent.
Proof. solve_decision. Defined.

Section commands.
Context `{PublicModels} `{FloatRepr}.

(** [_manifest_snapshot]. *)
Definition manifest_snapshot (m : ManifestV2) : result LifecycleError ManifestV2 :=
  match model_validate (model_dump m) with
  | Ok d => Ok d
  | Raise _ => Raise TargetManifestInvalid
  end.

(** [EvolveCommand.__init__]. *)
Definition make_evolve (f : RequestFields) (target : ManifestV2)
  : result LifecycleError LifecycleCommand :=
  validate_common_fields f ;;
  refuse (MAX_SCHEMA_VERSION <=? expected_schema_version f) EvolveBound ;;
  snapshot ← manifest_snapshot target;
  refuse (negb (schema_version snapshot =? expected_schema_version f + 1)) EvolveTargetVersion ;;
  Ok (EvolveCommand f snapshot).

(** ** The request fingerprint *)
Definition kind_str (k : LifecycleKind) : pystr :=
  match k with MATERIALISE => lit "materialise" | EVOLVE => lit "evolve" end.

Definition canonical_lifecycle_payload (c : LifecycleCommand) : json :=
  let f := command_fields c in
  JObj ([ (lit "kind", jstr (kind_str (command_kind c)));
          (lit "principal", jstr (principal_id f));
          (lit "created_via", jstr (created_via f));
          (lit "service_id", jstr (uuid_str (service_id f)));
          (lit "expected_service_revision", jint (expected_service_revision f));
          (lit "expected_schema_version", jint (expected_schema_version f)) ]
        ++ match c with
           | MaterialiseCommand _ => []
           | EvolveCommand _ target => [ (lit "target_manifest", to_public_dict target) ]
           end).

Definition canonical_lifecycle_json (c : LifecycleCommand) : pystr :=
  json_dumps (canonical_lifecycle_payload c).

Definition lifecycle_fingerprint (c : LifecycleCommand) : pystr :=
  sha256_hex (utf8 (canonical_lifecycle_json c)).

(** ** Intent construction *)

(** [_command_for_intent]. *)
Definition command_for_intent (i : LifecycleIntent) : result LifecycleError LifecycleCommand :=
  match kind i with
  | MATERIALISE => make_materialise (fields i)
  | EVOLVE => make_evolve (fields i) (target_manifest i)
  end.

(** [LifecycleIntent.__init__]. *)
Definition make_intent (k : LifecycleKind) (p : LifecyclePhase) (f : RequestFields)
    (fp : pystr) (target : ManifestV2) : result LifecycleError LifecycleIntent :=
  validate_common_fields f ;;
  validate_fingerprint fp ;;
  snapshot ← manifest_snapshot target;
  match k with
  | MATERIALISE =>
      refuse (negb (expected_schema_version f =? 1) || negb (schema_version snapshot =? 1))
        MaterialiseIntentTarget
  | EVOLVE =>
      refuse (negb (schema_version snapshot =? expected_schema_version f + 1)) EvolveIntentTarget
  end ;;
  let i := {| kind := k; phase := p; fields := f; fingerprint := fp; target_manifest := snapshot |} in
  c ← command_for_intent i;
  refuse (bool_decide (fp <> lifecycle_fingerprint c)) FingerprintMismatch ;;
  Ok i.

(** [LifecycleIntent.with_phase]. *)
Definition with_phase (i : LifecycleIntent) (p : LifecyclePhase) : result LifecycleError LifecycleIntent :=
  refuse (bool_decide (phase i <> PREPARED)
          || negb (bool_decide (p = COMPLETED) || bool_decide (p = PHASE_RECOVERY_REQUIRED)))
    PhaseNotMonotonic ;;
  make_intent (kind i) p (fields i) (fingerprint i) (target_manifest i).

(** [prepare_intent]. *)
Definition prepare_intent (c : LifecycleCommand) (target : ManifestV2)
  : result LifecycleError LifecycleIntent :=
  snapshot ← manifest_snapshot target;
  match c with
  | MaterialiseCommand f =>
      refuse (negb (schema_version snapshot =? expected_schema_version f)) MaterialiseTargetMismatch
  | EvolveCommand _ t => refuse (bool_decide (snapshot <> t)) EvolveTargetMismatch
  end ;;
  make_intent (command_kind c) PREPARED (command_fields c) (lifecycle_fingerprint c) snapshot.
End commands.

(** ** Claims and admissions *)
Record LifecycleClaim := { claim_status : LifecycleClaimStatus; claim_intent : option LifecycleIntent }.
Record LifecycleAdmission := { admission_status : LifecycleAdmissionStatus; admitted : LifecycleIntent }.

(** The [expected_phase] table of [LifecycleClaim.__post_init__]. *)
Definition claim_phase (s : LifecycleClaimStatus) : option LifecyclePhase :=
  match s with
  | CLAIM_NEW | CLAIM_CONFLICT => None
  | CLAIM_REPLAY_COMPLETE => Some COMPLETED
  | CLAIM_RESUME_PREPARED => Some PREPARED
  | CLAIM_RECOVERY_REQUIRED => Some PHASE_RECOVERY_REQUIRED
  end.

Definition make_claim (s : LifecycleClaimStatus) (i : option LifecycleIntent)
  : result LifecycleError LifecycleClaim :=
  match claim_phase s, i with
  | None, Some _ => Raise ClaimCarriesIntent
  | None, None => Ok {| claim_status := s; claim_intent := i |}
  | Some _, None => Raise ClaimNeedsIntent
  | Some p, Some i' =>
      refuse (bool_decide (phase i' <> p)) ClaimPhaseMismatch ;;
      Ok {| claim_status := s; claim_intent := i |}
  end.

Definition admission_phase (s : LifecycleAdmissionStatus) : LifecyclePhase :=
  match s with
  | ADMIT_PREPARED | ADMIT_OPERATION_IN_PROGRESS => PREPARED
  | ADMIT_RECOVERY_REQUIRED => PHASE_RECOVERY_REQUIRED
  end.

Definition make_admission (s : LifecycleAdmissionStatus) (i : LifecycleIntent)
  : result LifecycleError LifecycleAdmission :=
  refuse (bool_decide (phase i <> admission_phase s)) AdmissionPhaseMismatch ;;
  Ok {| admission_status := s; admitted := i |}.

(** ** Observations *)
Record MaterialiseRecoveryObservation := {
  mo_phase : LifecyclePhase;
  mo_foundation : FoundationObservation;
  mo_target : DomainObservation
}.

Record EvolveRecoveryObservation := {
  eo_phase : LifecyclePhase;
  eo_foundation : FoundationObservation;
  eo_target : DomainObservation;
  eo_source : DomainObservation
}.

Inductive LifecycleObservation :=
| ObsMaterialise (o : MaterialiseRecoveryObservation)
| ObsEvolve (o : EvolveRecoveryObservation).

Definition not_observed (d : DomainObservation) : bool := bool_decide (d = D_NOT_OBSERVED).

(** [MaterialiseRecoveryObservation.__post_init__]. *)
Definition make_materialise_observation (o : MaterialiseRecoveryObservation)
  : result LifecycleError MaterialiseRecoveryObservation :=
  if bool_decide (mo_phase o <> PREPARED) then
    refuse (bool_decide (mo_foundation o <> F_NOT_OBSERVED) || negb (not_observed (mo_target o)))
      TerminalObservation ;; Ok o
  else if bool_decide (mo_foundation o = F_READY) then
    refuse (not_observed (mo_target o)) ReadyNeedsTarget ;; Ok o
  else if foundation_exact_non_ready (mo_foundation o) || foundation_non_state (mo_foundation o) then
    refuse (negb (not_observed (mo_target o))) NonReadyHasTarget ;; Ok o
  else Raise FoundationNotValid.

(** [_validate_ready_evolve_observation]. *)
Definition validate_ready_evolve_observation (target source : DomainObservation)
  : result LifecycleError unit :=
  match target with
  | D_READY => refuse (negb (not_observed source)) EvolveSourceInvalid
  | D_BUSY | D_UNAVAILABLE | D_UNCERTAIN => refuse (negb (not_observed source)) EvolveSourceInvalid
  | D_UNMATERIALISED =>
      refuse (negb (bool_decide (source = D_UNMATERIALISED) || domain_non_state source))
        EvolveSourceInvalid
  | D_INCOMPATIBLE =>
      refuse (negb (bool_decide (source = D_READY) || bool_decide (source = D_INCOMPATIBLE)
                    || domain_non_state source)) EvolveSourceInvalid
  | D_NOT_OBSERVED => Raise EvolveTargetInvalid
  end.

(** [EvolveRecoveryObservation.__post_init__]. *)
Definition make_evolve_observation (o : EvolveRecoveryObservation)
  : result LifecycleError EvolveRecoveryObservation :=
  if bool_decide (eo_phase o <> PREPARED) then
    refuse (bool_decide (eo_foundation o <> F_NOT_OBSERVED) || negb (not_observed (eo_target o))
            || negb (not_observed (eo_source o))) TerminalObservation ;; Ok o
  else if foundation_exact_non_ready (eo_foundation o) || foundation_non_state (eo_foundation o) then
    refuse (negb (not_observed (eo_target o)) || negb (not_observed (eo_source o)))
      NonReadyHasTarget ;; Ok o
  else if bool_decide (eo_foundation o <> F_READY) then Raise FoundationNotValid
  else validate_ready_evolve_observation (eo_target o) (eo_source o) ;; Ok o.

(** ** Recovery plans *)
Record RecoveryPlan := { action : RecoveryAction; deferred_result : option DeferredResult }.

(** [RecoveryPlan.__post_init__]. *)
Definition make_plan (a : RecoveryAction) (d : option DeferredResult)
  : result LifecycleError RecoveryPlan :=
  (if bool_decide (a = DEFER_OBSERVATION)
   then refuse (bool_decide (d = None)) DeferredNeedsResult
   else refuse (bool_decide (d <> None)) ResultNeedsDeferred) ;;
  Ok {| action := a; deferred_result := d |}.

Definition result_category (p : RecoveryPlan) : option LifecycleResultCategory :=
  match action p with
  | ACTION_RECOVERY_REQUIRED => Some R_RECOVERY_REQUIRED
  | _ =>
      match deferred_result p with
      | Some STORAGE_BUSY => Some R_STORAGE_BUSY
      | Some OPERATION_UNCERTAIN => Some R_OPERATION_UNCERTAIN
      | Some STORAGE_UNAVAILABLE => Some R_STORAGE_UNAVAILABLE
      | None => None
      end
  end.

Definition lifecycle_result_retryable (c : LifecycleResultCategory) : bool :=
  match c with R_STORAGE_BUSY | R_OPERATION_IN_PROGRESS | R_OPERATION_UNCERTAIN => true | _ => false end.

Definition retryable (p : RecoveryPlan) : bool :=
  match result_category p with Some c => lifecycle_result_retryable c | None => false end.

(** [_deferred_foundation] and [_deferred_domain]: [None] goes on. *)
Definition deferred_foundation (f : FoundationObservation) : option (result LifecycleError RecoveryPlan) :=
  match f with
  | F_BUSY => Some (make_plan DEFER_OBSERVATION (Some STORAGE_BUSY))
  | F_UNCERTAIN => Some (make_plan DEFER_OBSERVATION (Some OPERATION_UNCERTAIN))
  | F_UNAVAILABLE => Some (make_plan DEFER_OBSERVATION (Some STORAGE_UNAVAILABLE))
  | _ => None
  end.

Definition deferred_domain (d : DomainObservation) : option (result LifecycleError RecoveryPlan) :=
  match d with
  | D_BUSY => Some (make_plan DEFER_OBSERVATION (Some STORAGE_BUSY))
  | D_UNCERTAIN => Some (make_plan DEFER_OBSERVATION (Some OPERATION_UNCERTAIN))
  | D_UNAVAILABLE => Some (make_plan DEFER_OBSERVATION (Some STORAGE_UNAVAILABLE))
  | _ => None
  end.

Definition plan (a : RecoveryAction) : result LifecycleError RecoveryPlan := make_plan a None.

(** [_plan_materialise]. *)
Definition plan_materialise (o : MaterialiseRecoveryObservation) : result LifecycleError RecoveryPlan :=
  match mo_foundation o with
  | F_UNINITIALISED | F_OUTDATED | F_DIRTY => plan PREPARE_FOUNDATION
  | F_INCOMPATIBLE => plan ACTION_RECOVERY_REQUIRED
  | _ =>
      match deferred_domain (mo_target o) with
      | Some d => d
      | None =>
          match mo_target o with
          | D_UNMATERIALISED => plan APPLY_INITIAL_SCHEMA
          | D_READY => plan FINALIZE_REGISTRY
          | _ => plan ACTION_RECOVERY_REQUIRED
          end
      end
  end.

(** [_plan_evolve]. *)
Definition plan_evolve (o : EvolveRecoveryObservation) : result LifecycleError RecoveryPlan :=
  match eo_foundation o with
  | F_OUTDATED | F_DIRTY => plan PREPARE_FOUNDATION
  | F_READY =>
      match deferred_domain (eo_target o) with
      | Some d => d
      | None =>
          match eo_target o with
          | D_READY => plan FINALIZE_REGISTRY
          | D_UNMATERIALISED =>
              match deferred_domain (eo_source o) with
              | Some d => d
              | None => plan ACTION_RECOVERY_REQUIRED
              end
          | D_INCOMPATIBLE =>
              match deferred_domain (eo_source o) with
              | Some d => d
              | None =>
                  match eo_source o with
                  | D_READY => plan APPLY_TRANSITION
                  | _ => plan ACTION_RECOVERY_REQUIRED
                  end
              end
          | _ => plan ACTION_RECOVERY_REQUIRED
          end
      end
  | _ => plan ACTION_RECOVERY_REQUIRED
  end.

Definition observation_phase (o : LifecycleObservation) : LifecyclePhase :=
  match o with ObsMaterialise m => mo_phase m | ObsEvolve e => eo_phase e end.
Definition observation_kind (o : LifecycleObservation) : LifecycleKind :=
  match o with ObsMaterialise _ => MATERIALISE | ObsEvolve _ => EVOLVE end.
Definition observation_foundation (o : LifecycleObservation) : FoundationObservation :=
  match o with ObsMaterialise m => mo_foundation m | ObsEvolve e => eo_foundation e end.

Definition plan_recovery (i : LifecycleIntent) (o : LifecycleObservation)
  : result LifecycleError RecoveryPlan :=
  refuse (bool_decide (observation_kind o <> kind i)) ObservationKindMismatch ;;
  refuse (bool_decide (observation_phase o <> phase i)) PhaseMismatch ;;
  match phase i with
  | COMPLETED => plan REPLAY_COMPLETE
  | PHASE_RECOVERY_REQUIRED => plan ACTION_RECOVERY_REQUIRED
  | PREPARED =>
      match deferred_foundation (observation_foundation o) with
      | Some d => d
      | None =>
          match o with
          | ObsMaterialise m => plan_materialise m
          | ObsEvolve e => plan_evolve e
          end
      end
  end.

(** ** What an observation constructor accepts *)
Definition observation_valid (o : LifecycleObservation) : bool :=
  match o with
  | ObsMaterialise m => is_ok (make_materialise_observation m)
  | ObsEvolve e => is_ok (make_evolve_observation e)
  end.
