(* ===== verification/Samples.v ===== *)
(** * Samples: concrete manifests at which the theorems are evaluated

    A two-entity document with a required relationship and an index, the
    additive next version of it, and the model class of Pydantic instantiated
    by the models themselves. *)
From S2P Require Import Prelude Values Manifest Relational.

Definition plain (name : pystr) (t : LogicalType) (required : bool) : AttributeDefinition :=
  {| attr_name := name; attr_type := t; attr_required := required; attr_primary_key := false;
     attr_description := None; attr_allowed_values := None; attr_retrieval_mode := None |}.

Definition server_attributes : list AttributeDefinition :=
  map (fun f => server_attribute f.1 f.2) SERVER_MANAGED_FIELDS.

Definition entity_with (name : pystr) (attrs : list AttributeDefinition) : EntityDefinition :=
  {| ent_name := name; ent_attributes := server_attributes ++ attrs; ent_description := None |}.

Definition endpoint_at (entity field : pystr) : RelationshipEndpoint :=
  {| ep_entity := entity; ep_field := field |}.

Definition customer : EntityDefinition := entity_with (lit "customer") [plain (lit "name") TString true].
Definition order : EntityDefinition :=
  entity_with (lit "order") [plain (lit "customer_id") TUuid true; plain (lit "total") TNumber false].
Definition order_customer : RelationshipDefinition :=
  {| rel_name := lit "order_customer"; rel_from := endpoint_at (lit "order") (lit "customer_id");
     rel_to := endpoint_at (lit "customer") (lit "id") |}.
Definition order_by_customer : IndexDefinition :=
  {| idx_name := lit "order_by_customer"; idx_entity := lit "order";
     idx_fields := [lit "customer_id"]; idx_unique := false |}.

Definition shop_v1 : ManifestV2 :=
  {| schema_version := 1; entities := [order; customer]; relationships := [order_customer];
     indices := [order_by_customer]; query_patterns := []; discovery_facets := [];
     retrieval_guidance := None; migration_history := [] |}.

(** The same document with its entities in the other order. *)
Definition shop_v1' : ManifestV2 :=
  {| schema_version := 1; entities := [customer; order]; relationships := [order_customer];
     indices := [order_by_customer]; query_patterns := []; discovery_facets := [];
     retrieval_guidance := None; migration_history := [] |}.

(** Version 2: a nullable field, a new entity with a relationship, and guidance. *)
Definition customer_v2 : EntityDefinition :=
  entity_with (lit "customer") [plain (lit "name") TString true; plain (lit "email") TString false].
Definition item : EntityDefinition :=
  entity_with (lit "item") [plain (lit "order_id") TUuid true].
Definition item_order : RelationshipDefinition :=
  {| rel_name := lit "item_order"; rel_from := endpoint_at (lit "item") (lit "order_id");
     rel_to := endpoint_at (lit "order") (lit "id") |}.

Definition shop_v2 : ManifestV2 :=
  {| schema_version := 2; entities := [order; item; customer_v2];
     relationships := [order_customer; item_order]; indices := [order_by_customer];
     query_patterns := []; discovery_facets := []; retrieval_guidance := Some (lit "Search by name.");
     migration_history := [ {| from_schema_version := 1; to_schema_version := 2;
                               operations := [lit "add item"] |} ] |}.

#[export] Instance plain_models : PublicModels := {
  dumped := ManifestV2;
  model_dump := fun m => m;
  model_validate := fun m => (validate_manifest m ;; Ok m);
  model_roundtrip := fun m => eq_refl
}.

Example shop_valid : manifest_valid shop_v1 = true /\ manifest_valid shop_v2 = true.
Proof. by vm_compute. Qed.

(** ** What [compile_manifest] guarantees

    The two properties of the compiler, with the manifests of [Samples] as
    their concrete inputs. *)

(** Compilation is total on valid manifests: the constructors of the frozen
    specification, its shape check and its own cycle search never refuse a
    manifest the public validator accepts, and the specification is the sorted
    projection of the manifest; an invalid manifest is refused. *)
Theorem compile_manifest_spec `{PublicModels} (m : ManifestV2) (s : RelationalSpecification) :
  compile_manifest m = Ok s <-> ManifestWF m /\ s = compiled m.
Proof.
  rewrite compile_manifest_eq. split.
  - destruct (manifest_valid m) eqn:E; [|done]. intros [= <-].
    split; [by apply manifest_valid_WF|done].
  - intros [Hm ->]. by rewrite WF_manifest_valid.
Qed.

Lemma compile_manifest_spec_witness : compile_manifest shop_v1 = Ok (compiled shop_v1).
Proof.
  apply (compile_manifest_spec shop_v1). split; [|done]. apply manifest_valid_WF. by vm_compute.
Defined.

(** The specification is canonical: listing the entities, relationships and
    indices of a valid manifest in another order compiles to the same value. *)
Theorem compile_order_irrelevant `{PublicModels} (m m' : ManifestV2) :
  manifest_valid m = true -> manifest_valid m' = true ->
  schema_version m = schema_version m' -> entities m ≡ₚ entities m' ->
  relationships m ≡ₚ relationships m' -> indices m ≡ₚ indices m' ->
  compile_manifest m = compile_manifest m'.
Proof.
  intros Hm Hm' Hv He Hr Hi. rewrite !compile_manifest_eq, Hm, Hm'. f_equal.
  apply manifest_valid_WF in Hm as [_ _ _ _ _ _ HR].
  unfold compiled. rewrite Hv.
  rewrite (sorted_by_perm_eq ent_name _ _ (mwf_entity_names _ HR) He),
    (sorted_by_perm_eq rel_name _ _ (mwf_relationship_names _ HR) Hr),
    (sorted_by_perm_eq idx_name _ _ (mwf_index_names _ HR) Hi). done.
Qed.

Lemma compile_order_irrelevant_witness :
  compile_manifest shop_v1 = compile_manifest shop_v1'.
Proof.
  apply (compile_order_irrelevant shop_v1 shop_v1'); try (by vm_compute); try done.
  apply Permutation_swap.
Defined.
