(* ===== verification/LifecycleSpec.v ===== *)
(** * LifecycleSpec: what the lifecycle vocabulary guarantees

    Intents are valid by construction and keep everything but their phase; a
    fingerprint determines the request it was computed from unless SHA-256
    collides; [plan_recovery] answers every valid observation, and each action
    is taken exactly in the situation that calls for it. *)
From S2P Require Import Prelude Values Json Sha256 Manifest PublicJson Relational Lifecycle Samples.

(** ** Valid intents *)
Definition fields_valid (f : RequestFields) : bool := is_ok (validate_common_fields f).

Lemma fields_valid_Ok f u : validate_common_fields f = Ok u <-> fields_valid f = true.
Proof. unfold fields_valid. by destruct (validate_common_fields f) as [[]|], u. Qed.

Section intents.
Context `{PublicModels} `{FloatRepr}.

(** The command an intent was admitted for. *)
Definition admitted_command (i : LifecycleIntent) : LifecycleCommand :=
  match kind i with
  | MATERIALISE => MaterialiseCommand (fields i)
  | EVOLVE => EvolveCommand (fields i) (target_manifest i)
  end.

Record IntentValid (i : LifecycleIntent) : Prop := {
  iv_fields : fields_valid (fields i) = true;
  iv_target : ManifestWF (target_manifest i);
  iv_version : match kind i with
               | MATERIALISE => expected_schema_version (fields i) = 1
                                /\ schema_version (target_manifest i) = 1
               | EVOLVE => schema_version (target_manifest i) = expected_schema_version (fields i) + 1
               end;
  iv_fingerprint : fingerprint i = lifecycle_fingerprint (admitted_command i)
}.

Lemma manifest_snapshot_spec m d : manifest_snapshot m = Ok d <-> ManifestWF m /\ d = m.
Proof.
  unfold manifest_snapshot. rewrite model_roundtrip, <- validate_manifest_spec.
  destruct (validate_manifest m) as [[]|]; cbn [mbind result_bind]; naive_solver.
Qed.

Lemma manifest_version_bound m : ManifestWF m -> schema_version m <= 65.
Proof. intros [Hf _ _ _ _ _ _]. unfold manifest_fields in Hf. bools. lia. Qed.

Lemma refuse_Ok (b : bool) e u : refuse b e = Ok u <-> b = false.
Proof. apply raise_if_Ok. Qed.

Lemma make_materialise_spec f c :
  make_materialise f = Ok c
  <-> fields_valid f = true /\ expected_schema_version f = 1 /\ c = MaterialiseCommand f.
Proof.
  unfold make_materialise. rewrite unit_then, fields_valid_Ok, raise_if_then, negb_false_iff, Z.eqb_eq.
  naive_solver.
Qed.

Lemma make_evolve_spec f t c :
  make_evolve f t = Ok c
  <-> fields_valid f = true /\ ManifestWF t /\ schema_version t = expected_schema_version f + 1
      /\ c = EvolveCommand f t.
Proof.
  unfold make_evolve. rewrite unit_then, fields_valid_Ok, raise_if_then, Z.leb_gt, bind_Ok.
  setoid_rewrite manifest_snapshot_spec. setoid_rewrite raise_if_then.
  unfold MAX_SCHEMA_VERSION. split.
  - intros (? & ? & d & [Hd ->] & Hv & [= <-]). bools. naive_solver.
  - intros (? & Ht & Hv & ->). pose proof (manifest_version_bound _ Ht).
    split; [done|]. split; [lia|]. exists t. bools. naive_solver.
Qed.

Lemma command_for_intent_spec i c :
  IntentValid i -> command_for_intent i = Ok c <-> c = admitted_command i.
Proof.
  intros [Hf Ht Hv _]. unfold command_for_intent, admitted_command.
  destruct (kind i); [rewrite make_materialise_spec|rewrite make_evolve_spec]; naive_solver.
Qed.

Lemma valid_fingerprint c : valid_sha256 (lifecycle_fingerprint c) = true.
Proof. apply sha256_hex_valid. Qed.

Lemma make_intent_spec k p f fp t i :
  make_intent k p f fp t = Ok i
  <-> IntentValid i
      /\ i = {| kind := k; phase := p; fields := f; fingerprint := fp; target_manifest := t |}.
Proof.
  unfold make_intent, validate_fingerprint. cbv zeta.
  rewrite unit_then, fields_valid_Ok, raise_if_then, negb_false_iff, bind_Ok.
  setoid_rewrite manifest_snapshot_spec. split.
  - intros (Hf & Hfp & d & [Ht ->] & Hrest).
    apply unit_then in Hrest as [Hv Hrest]. apply bind_Ok in Hrest as (c & Hc & Hrest).
    apply raise_if_then in Hrest as [Hne [= <-]].
    apply bool_decide_eq_false, dec_stable in Hne. split; [|done].
    assert (c = admitted_command {| kind := k; phase := p; fields := f; fingerprint := fp;
                                    target_manifest := t |}) as ->.
    { unfold command_for_intent in Hc. cbn [kind fields target_manifest] in Hc.
      destruct k; [apply make_materialise_spec in Hc|apply make_evolve_spec in Hc]; naive_solver. }
    split; cbn [kind fields target_manifest fingerprint]; try done.
    destruct k; apply raise_if_Ok in Hv; bools; done.
  - intros [Hi ->]. pose proof Hi as [Hf Ht Hv Hfp]. cbn [kind fields target_manifest fingerprint] in *.
    split; [done|]. split; [rewrite Hfp; apply valid_fingerprint|]. exists t. split; [done|].
    apply unit_then. split.
    + destruct k; apply raise_if_Ok; bools; naive_solver.
    + rewrite (proj2 (command_for_intent_spec _ _ Hi) eq_refl). cbn [mbind result_bind].
      rewrite bool_decide_false; [done|]. by intros ?.
Qed.

Lemma prepare_intent_valid c t i : prepare_intent c t = Ok i -> IntentValid i.
Proof.
  unfold prepare_intent. intros (d & _ & Hrest)%bind_Ok.
  by apply unit_then in Hrest as [_ [? _]%make_intent_spec].
Qed.

Lemma with_phase_spec i p i' :
  IntentValid i ->
  with_phase i p = Ok i'
  <-> phase i = PREPARED /\ p <> PREPARED
      /\ i' = {| kind := kind i; phase := p; fields := fields i; fingerprint := fingerprint i;
                 target_manifest := target_manifest i |}.
Proof.
  intros Hi. unfold with_phase. rewrite raise_if_then, make_intent_spec. split.
  - intros (Hb & Hv & ->). bools. destruct Hb as [Hp%dec_stable Hp']. split_and!; [done| |done].
    by destruct p; [destruct Hp'|..].
  - intros (Hp & Hp' & ->). split_and!; [|by destruct Hi|done].
    rewrite bool_decide_false by (by intros ?). by destruct p.
Qed.
End intents.

(** ** Fingerprints *)
Section fingerprints.
Context `{FloatRepr}.

(** Two commands that ask for the same thing, the retry key aside. *)
Definition same_request (c d : LifecycleCommand) : Prop :=
  command_kind c = command_kind d
  /\ principal_id (command_fields c) = principal_id (command_fields d)
  /\ created_via (command_fields c) = created_via (command_fields d)
  /\ service_id (command_fields c) = service_id (command_fields d)
  /\ expected_service_revision (command_fields c) = expected_service_revision (command_fields d)
  /\ expected_schema_version (command_fields c) = expected_schema_version (command_fields d)
  /\ match c, d with EvolveCommand _ t, EvolveCommand _ u => t = u | _, _ => True end.

(** Unicode text, finite floats and a 128-bit service id. *)
Definition command_wf (c : LifecycleCommand) : bool :=
  json_wf (canonical_lifecycle_payload c) && (service_id (command_fields c) <? 2 ^ 128)%N.

Lemma kind_str_inj k l : kind_str k = kind_str l -> k = l.
Proof. by destruct k, l. Qed.

Lemma uuid_str_inj u v :
  (u < 2 ^ 128)%N -> (v < 2 ^ 128)%N -> uuid_str u = uuid_str v -> u = v.
Proof.
  intros Hu Hv. unfold uuid_str. cbv zeta. intros Heq.
  assert (length (uuid_hex u) = 32%nat /\ length (uuid_hex v) = 32%nat) as [Lu Lv]
    by (by unfold uuid_hex; rewrite !length_hex_digits).
  apply (hex_digits_inj 32); [done..|]. change (uuid_hex u = uuid_hex v).
  generalize dependent (uuid_hex v). generalize dependent (uuid_hex u). clear.
  intros h Lh g Heq Lg.
  repeat (destruct h as [|? h]; try done). repeat (destruct g as [|? g]; try done).
  cbn [take drop app] in Heq. injection Heq; intros; by subst.
Qed.

Lemma payload_inj c d :
  command_wf c = true -> command_wf d = true ->
  same_json (canonical_lifecycle_payload c) (canonical_lifecycle_payload d) -> same_request c d.
Proof.
  unfold command_wf. intros [_ Hu%N.ltb_lt]%andb_true_iff [_ Hv%N.ltb_lt]%andb_true_iff.
  unfold same_request, canonical_lifecycle_payload. cbv zeta.
  destruct c as [f|f t], d as [g|g u]; cbn [command_kind command_fields app] in *.
  - members. split_and!; try done; try (by apply readable_str); try (by apply readable_int).
    by apply uuid_str_inj, readable_str.
  - intros Hs. apply (f_equal (fun j => match j with JObj l => length l | _ => O end)) in Hs.
    cbn [sort_keys] in Hs. by rewrite !length_sorted_by in Hs.
  - intros Hs. apply (f_equal (fun j => match j with JObj l => length l | _ => O end)) in Hs.
    cbn [sort_keys] in Hs. by rewrite !length_sorted_by in Hs.
  - members. split_and!; try done; try (by apply readable_str); try (by apply readable_int).
    + by apply uuid_str_inj, readable_str.
    + by apply readable_manifest.
Qed.

Lemma canonical_json_inj c d :
  command_wf c = true -> command_wf d = true ->
  canonical_lifecycle_json c = canonical_lifecycle_json d -> same_request c d.
Proof.
  intros Hc Hd Heq. pose proof Hc as [Hjc _]%andb_true_iff. pose proof Hd as [Hjd _]%andb_true_iff.
  apply payload_inj; [done..|]. by apply json_dumps_inj.
Qed.
End fingerprints.

(** ** Phases as a step relation *)
Section phases.
Context `{PublicModels} `{FloatRepr}.

Inductive phase_step : LifecycleIntent -> LifecycleIntent -> Prop :=
| phase_step_intro i p i' : with_phase i p = Ok i' -> phase_step i i'.

Definition same_evidence (i j : LifecycleIntent) : Prop :=
  kind i = kind j /\ fields i = fields j /\ fingerprint i = fingerprint j
  /\ target_manifest i = target_manifest j.

Lemma phase_step_spec i j :
  IntentValid i -> phase_step i j ->
  phase i = PREPARED /\ phase j <> PREPARED /\ same_evidence i j /\ IntentValid j.
Proof.
  intros Hi Hs. destruct Hs as [i p j Hs]. apply with_phase_spec in Hs as (Hp & Hne & ->); [|done].
  split_and!; [done|done|done|]. by destruct Hi.
Qed.

Lemma phase_steps_spec i j :
  IntentValid i -> rtc phase_step i j ->
  IntentValid j /\ same_evidence i j /\ (i = j \/ (phase i = PREPARED /\ phase j <> PREPARED)).
Proof.
  intros Hi Hs. destruct Hs as [i|i k j Hik Hkj]; [split; [done|]; split; [done|by left]|].
  apply phase_step_spec in Hik as (Hp & Hk & Hsame & Hvk); [|done].
  destruct Hkj as [k|k l j Hkl _].
  - split; [done|]. split; [done|]. by right.
  - apply phase_step_spec in Hkl as [? _]; [|done]. done.
Qed.
End phases.

(** ** Properties *)

(** The fingerprint binds the request: two well-formed commands with the
    same fingerprint agree on kind, principal, client, service, revision, schema
    version and target manifest, or their canonical texts are two different
    inputs on which SHA-256 collides. *)
Theorem lifecycle_fingerprint_binds `{FloatRepr} (c d : LifecycleCommand) :
  command_wf c = true -> command_wf d = true ->
  lifecycle_fingerprint c = lifecycle_fingerprint d ->
  same_request c d
  \/ (canonical_lifecycle_json c <> canonical_lifecycle_json d
      /\ sha256_hex (canonical_lifecycle_json c) = sha256_hex (canonical_lifecycle_json d)).
Proof.
  intros Hc Hd Heq.
  destruct (decide (canonical_lifecycle_json c = canonical_lifecycle_json d)) as [Ht|Ht].
  - left. by apply canonical_json_inj.
  - right. split; [done|]. unfold lifecycle_fingerprint in Heq.
    apply andb_true_iff in Hc as [Hc _], Hd as [Hd _].
    by rewrite !utf8_ascii in Heq by (by apply json_dumps_ascii).
Qed.

(** A request with the fields of [shop_v1] and the step to [shop_v2]. *)
Definition sample_fields (key : pystr) : RequestFields :=
  {| principal_id := lit "owner"; created_via := lit "client"; service_id := 7%N;
     expected_service_revision := 3; expected_schema_version := 1; idempotency_key := key |}.

Lemma lifecycle_fingerprint_binds_witness :
  let c := EvolveCommand (sample_fields (lit "k1")) shop_v2 in
  let d := EvolveCommand (sample_fields (lit "k2")) shop_v2 in
  same_request c d
  \/ (@canonical_lifecycle_json datum_float_repr c <> @canonical_lifecycle_json datum_float_repr d
      /\ sha256_hex (@canonical_lifecycle_json datum_float_repr c)
         = sha256_hex (@canonical_lifecycle_json datum_float_repr d)).
Proof.
  intros c d. apply (@lifecycle_fingerprint_binds datum_float_repr c d); by vm_compute.
Defined.

(** [prepare_intent] succeeds exactly for a validated command and the target
    it names, and what it returns is valid evidence in phase [PREPARED]. *)
Theorem prepare_intent_spec `{PublicModels} `{FloatRepr}
    (c : LifecycleCommand) (t : ManifestV2) (i : LifecycleIntent) :
  prepare_intent c t = Ok i
  <-> ManifestWF t
      /\ (match c with
          | MaterialiseCommand f => make_materialise f = Ok c /\ schema_version t = 1
          | EvolveCommand f u => make_evolve f u = Ok c /\ t = u
          end)
      /\ i = {| kind := command_kind c; phase := PREPARED; fields := command_fields c;
                fingerprint := lifecycle_fingerprint c; target_manifest := t |}.
Proof.
  unfold prepare_intent. rewrite bind_Ok. setoid_rewrite manifest_snapshot_spec. split.
  - intros (d & [Ht ->] & Hrest). apply unit_then in Hrest as [Hm Hi].
    apply make_intent_spec in Hi as [[Hf _ Hv _] ->]. split; [done|]. split; [|done].
    destruct c as [f|f u]; cbn [command_kind command_fields kind fields target_manifest] in *.
    + rewrite make_materialise_spec. naive_solver.
    + apply raise_if_Ok, bool_decide_eq_false, dec_stable in Hm as <-.
      rewrite make_evolve_spec. naive_solver.
  - intros (Ht & Hm & ->). exists t. split; [done|]. apply unit_then. split.
    + destruct c as [f|f u]; apply raise_if_Ok.
      * rewrite make_materialise_spec in Hm. destruct Hm as [(_ & -> & _) ->]. done.
      * destruct Hm as [_ ->]. apply bool_decide_eq_false. by intros Hne.
    + apply make_intent_spec. split; [|done].
      destruct c as [f|f u]; [rewrite make_materialise_spec in Hm|rewrite make_evolve_spec in Hm];
        split; cbn [command_kind command_fields kind fields target_manifest fingerprint];
        naive_solver.
Qed.

Lemma prepare_intent_spec_witness :
  exists i, @prepare_intent plain_models datum_float_repr
              (MaterialiseCommand (sample_fields (lit "k1"))) shop_v1 = Ok i
            /\ phase i = PREPARED.
Proof.
  eexists. split.
  - apply (@prepare_intent_spec plain_models datum_float_repr
             (MaterialiseCommand (sample_fields (lit "k1"))) shop_v1).
    split; [apply manifest_valid_WF; by vm_compute|]. split; [by vm_compute|reflexivity].
  - reflexivity.
Defined.

(** Evidence is immutable: whatever sequence of [with_phase] calls is made
    on a valid intent, the result is valid, has the same kind, fields,
    fingerprint and target, and the phase moved at most once, away from
    [PREPARED]. *)
Theorem intent_phase_monotone `{PublicModels} `{FloatRepr} (i j : LifecycleIntent) :
  IntentValid i -> rtc phase_step i j ->
  IntentValid j /\ same_evidence i j
  /\ (i = j \/ (phase i = PREPARED /\ (phase j = COMPLETED \/ phase j = PHASE_RECOVERY_REQUIRED))).
Proof.
  intros Hi Hs. destruct (phase_steps_spec i j Hi Hs) as (Hj & Hsame & Hp).
  split; [done|]. split; [done|]. destruct Hp as [|[Hp Hne]]; [by left|right].
  split; [done|]. destruct (phase j); [done|by left|by right].
Qed.

(** The evidence of the sample materialisation of [shop_v1], in any phase. *)
Definition sample_intent (p : LifecyclePhase) : LifecycleIntent :=
  {| kind := MATERIALISE; phase := p; fields := sample_fields (lit "k1");
     fingerprint := @lifecycle_fingerprint datum_float_repr (MaterialiseCommand (sample_fields (lit "k1")));
     target_manifest := shop_v1 |}.

Lemma sample_intent_prepared :
  @prepare_intent plain_models datum_float_repr (MaterialiseCommand (sample_fields (lit "k1"))) shop_v1
  = Ok (sample_intent PREPARED).
Proof. by vm_compute. Qed.

Lemma intent_phase_monotone_witness : same_evidence (sample_intent PREPARED) (sample_intent COMPLETED).
Proof.
  pose proof (@prepare_intent_valid plain_models datum_float_repr _ shop_v1 _ sample_intent_prepared) as Hv.
  apply (@intent_phase_monotone plain_models datum_float_repr _ (sample_intent COMPLETED) Hv).
  apply rtc_once. apply (@phase_step_intro plain_models datum_float_repr _ COMPLETED).
  apply (@with_phase_spec plain_models datum_float_repr _ COMPLETED _ Hv).
  split; [reflexivity|]. split; [discriminate|].
  unfold sample_intent. cbn [kind phase fields fingerprint target_manifest]. reflexivity.
Defined.

(** Recovery planning is total: an observation of the intent's kind and phase
    always has a plan, whose constructor accepts it, and planning is refused
    exactly when kind or phase disagree. *)
Theorem plan_recovery_total (i : LifecycleIntent) (o : LifecycleObservation) :
  is_ok (plan_recovery i o)
  = bool_decide (observation_kind o = kind i) && bool_decide (observation_phase o = phase i).
Proof.
  unfold plan_recovery. repeat case_bool_decide; try done. cbn [andb negb raise_if mbind result_bind].
  destruct (phase i); try done. destruct (observation_foundation o) eqn:Ef; try done;
    destruct o as [[p f t]|[p f t s]]; cbn [observation_foundation mo_foundation eo_foundation] in Ef; subst f;
    destruct t; try done; by destruct s.
Qed.

(** Something observed was busy, unavailable or uncertain. *)
Definition transient (o : LifecycleObservation) : bool :=
  foundation_non_state (observation_foundation o)
  || match o with
     | ObsMaterialise m => domain_non_state (mo_target m)
     | ObsEvolve e => domain_non_state (eo_target e) || domain_non_state (eo_source e)
     end.

Definition observed_target (o : LifecycleObservation) : DomainObservation :=
  match o with ObsMaterialise m => mo_target m | ObsEvolve e => eo_target e end.

(** Each action is planned exactly where it is safe: the registry is
    finalized only over a ready foundation whose target schema was observed;
    the initial schema is applied only where no schema exists; a transition
    only where the target is absent and its source is in place; a completed
    intent is only replayed; and the work is put off exactly when something
    observed was transient. *)
Theorem plan_recovery_actions (i : LifecycleIntent) (o : LifecycleObservation) (p : RecoveryPlan) :
  observation_valid o = true -> plan_recovery i o = Ok p ->
  (action p = FINALIZE_REGISTRY <-> phase i = PREPARED /\ observation_foundation o = F_READY
     /\ observed_target o = D_READY)
  /\ (action p = APPLY_INITIAL_SCHEMA <-> phase i = PREPARED /\ kind i = MATERIALISE
     /\ observation_foundation o = F_READY /\ observed_target o = D_UNMATERIALISED)
  /\ (action p = APPLY_TRANSITION <-> phase i = PREPARED /\ kind i = EVOLVE
     /\ observation_foundation o = F_READY /\ observed_target o = D_INCOMPATIBLE
     /\ exists e, o = ObsEvolve e /\ eo_source e = D_READY)
  /\ (action p = REPLAY_COMPLETE <-> phase i = COMPLETED)
  /\ (action p = DEFER_OBSERVATION <-> phase i = PREPARED /\ transient o = true)
  /\ (retryable p = true -> transient o = true).
Proof.
  unfold plan_recovery. intros Hv Hp.
  apply raise_if_then in Hp as [Hk%bool_decide_eq_false%dec_stable Hp].
  apply raise_if_then in Hp as [Hph%bool_decide_eq_false%dec_stable Hp].
  rewrite <- Hk. destruct o as [[q f t]|[q f t s]];
    cbn [observation_phase mo_phase eo_phase] in Hph; subst q;
    unfold observation_valid, make_materialise_observation, make_evolve_observation in Hv;
    cbn in Hv, Hp |- *; destruct (phase i).
  all: destruct f; try discriminate Hv; destruct t; try discriminate Hv;
    try (destruct s; try discriminate Hv); try discriminate Hp;
    injection Hp as <-; cbn; naive_solver.
Qed.

Lemma plan_recovery_actions_witness :
  let o := ObsMaterialise {| mo_phase := PREPARED; mo_foundation := F_READY; mo_target := D_READY |} in
  exists p, plan_recovery (sample_intent PREPARED) o = Ok p /\ action p = FINALIZE_REGISTRY.
Proof.
  intros o. exists {| action := FINALIZE_REGISTRY; deferred_result := None |}.
  assert (plan_recovery (sample_intent PREPARED) o
          = Ok {| action := FINALIZE_REGISTRY; deferred_result := None |}) as Heq by reflexivity.
  split; [exact Heq|]. apply (plan_recovery_actions _ o _ (eq_refl true) Heq).
  split; [reflexivity|]. split; reflexivity.
Defined.
