(* ===== verification/Operational.v ===== *)
(** * Operational: suspend, resume, archive and restore

    The pure policy of [application/operational_lifecycle.py]: the frozen
    transition matrix, the target each action determines, and the durable intent
    with its fingerprint.  The four command classes carry the same fields and
    differ in their kind, so a command is a kind with its fields. *)
From S2P Require Import Prelude Values Json Sha256 PublicJson Lifecycle LifecycleSpec.

Inductive OperationalStatus := ACTIVE | SUSPENDED | ARCHIVED.
Inductive DesignState := SEEDED | MATERIALISED.
Inductive OperationalLifecycleKind := SUSPEND | RESUME | ARCHIVE | RESTORE.

#[export] Instance OperationalStatus_eq_dec : EqDecision OperationalStatus.
Proof. solve_decision. Defined.
#[export] Instance DesignState_eq_dec : EqDecision DesignState.
Proof. solve_decision. Defined.
#[export] Instance OperationalLifecycleKind_eq_dec : EqDecision OperationalLifecycleKind.
Proof. solve_decision. Defined.

Inductive OperationalError :=
| OpPrincipal | OpCreatedVia | OpServiceId | OpRevision | OpIdempotencyKey
| OpTargetStatus | OpFingerprint | OpFingerprintMismatch | OpPhase | OpUnsupported.

Abbreviation op_refuse := (raise_if (E := OperationalError)).

(** ** Commands *)
Record OperationalFields := {
  op_principal_id : pystr;
  op_created_via : pystr;
  op_service_id : UUID;
  op_expected_service_revision : Z;
  op_idempotency_key : pystr
}.

#[export] Instance OperationalFields_eq_dec : EqDecision OperationalFields.
Proof. solve_decision. Defined.

Record OperationalLifecycleCommand := {
  oc_kind : OperationalLifecycleKind;
  oc_fields : OperationalFields
}.

(** [_validate_command_fields]: a revision leaves room for its successor. *)
Definition validate_command_fields (f : OperationalFields) : result OperationalError unit :=
  op_refuse (negb (valid_text (op_principal_id f) MAX_PRINCIPAL_LENGTH)) OpPrincipal ;;
  op_refuse (negb (valid_text (op_created_via f) MAX_CREATED_VIA_LENGTH)) OpCreatedVia ;;
  op_refuse (op_service_id f =? 0)%N OpServiceId ;;
  op_refuse (negb ((1 <=? op_expected_service_revision f)
                   && (op_expected_service_revision f <? MAX_SERVICE_REVISION))) OpRevision ;;
  op_refuse (negb (valid_text (op_idempotency_key f) MAX_IDEMPOTENCY_KEY_LENGTH)) OpIdempotencyKey.

(** The constructor of each command class. *)
Definition make_operational_command (k : OperationalLifecycleKind) (f : OperationalFields)
  : result OperationalError OperationalLifecycleCommand :=
  validate_command_fields f ;; Ok {| oc_kind := k; oc_fields := f |}.

(** ** The transition matrix *)
Definition deterministic_target_status (k : OperationalLifecycleKind) : OperationalStatus :=
  match k with SUSPEND => SUSPENDED | RESUME => ACTIVE | ARCHIVE => ARCHIVED | RESTORE => SUSPENDED end.

Definition allowed_source (k : OperationalLifecycleKind) (s : OperationalStatus) : bool :=
  match k, s with
  | SUSPEND, ACTIVE | RESUME, SUSPENDED | ARCHIVE, ACTIVE | ARCHIVE, SUSPENDED
  | RESTORE, ARCHIVED => true
  | _, _ => false
  end.

Definition transition_target_status (c : OperationalLifecycleCommand) (d : DesignState)
    (current : OperationalStatus) : result OperationalError OperationalStatus :=
  op_refuse (negb (allowed_source (oc_kind c) current)) OpUnsupported ;;
  Ok (deterministic_target_status (oc_kind c)).

(** ** Fingerprints *)
Definition op_kind_str (k : OperationalLifecycleKind) : pystr :=
  match k with
  | SUSPEND => lit "suspend" | RESUME => lit "resume"
  | ARCHIVE => lit "archive" | RESTORE => lit "restore"
  end.

Definition status_str (s : OperationalStatus) : pystr :=
  match s with ACTIVE => lit "active" | SUSPENDED => lit "suspended" | ARCHIVED => lit "archived" end.

Definition canonical_operational_lifecycle_payload (c : OperationalLifecycleCommand) : json :=
  let f := oc_fields c in
  JObj [ (lit "kind", jstr (op_kind_str (oc_kind c)));
         (lit "principal", jstr (op_principal_id f));
         (lit "created_via", jstr (op_created_via f));
         (lit "service_id", jstr (uuid_str (op_service_id f)));
         (lit "expected_service_revision", jint (op_expected_service_revision f));
         (lit "target_operational_status", jstr (status_str (deterministic_target_status (oc_kind c)))) ].

(** ** Intents *)
Record OperationalLifecycleIntent := {
  oi_kind : OperationalLifecycleKind;
  oi_phase : LifecyclePhase;
  oi_fields : OperationalFields;
  oi_target : OperationalStatus;
  oi_fingerprint : pystr
}.

Section fingerprints.
Context `{FloatRepr}.

Definition canonical_operational_lifecycle_json (c : OperationalLifecycleCommand) : pystr :=
  json_dumps (canonical_operational_lifecycle_payload c).

Definition operational_lifecycle_fingerprint (c : OperationalLifecycleCommand) : pystr :=
  sha256_hex (utf8 (canonical_operational_lifecycle_json c)).

(** [OperationalLifecycleIntent.__post_init__]; [_command_for_intent] builds a
    command of the intent's kind from fields that were just validated. *)
Definition make_operational_intent (i : OperationalLifecycleIntent)
  : result OperationalError OperationalLifecycleIntent :=
  validate_command_fields (oi_fields i) ;;
  op_refuse (bool_decide (oi_target i <> deterministic_target_status (oi_kind i))) OpTargetStatus ;;
  op_refuse (negb (valid_sha256 (oi_fingerprint i))) OpFingerprint ;;
  c ← make_operational_command (oi_kind i) (oi_fields i);
  op_refuse (bool_decide (oi_fingerprint i <> operational_lifecycle_fingerprint c))
    OpFingerprintMismatch ;;
  Ok i.

Definition op_with_phase (i : OperationalLifecycleIntent) (p : LifecyclePhase)
  : result OperationalError OperationalLifecycleIntent :=
  op_refuse (bool_decide (oi_phase i <> PREPARED)
             || negb (bool_decide (p = COMPLETED) || bool_decide (p = PHASE_RECOVERY_REQUIRED)))
    OpPhase ;;
  make_operational_intent {| oi_kind := oi_kind i; oi_phase := p; oi_fields := oi_fields i;
                             oi_target := oi_target i; oi_fingerprint := oi_fingerprint i |}.

Definition prepare_operational_intent (c : OperationalLifecycleCommand)
  : result OperationalError OperationalLifecycleIntent :=
  make_operational_intent
    {| oi_kind := oc_kind c; oi_phase := PREPARED; oi_fields := oc_fields c;
       oi_target := deterministic_target_status (oc_kind c);
       oi_fingerprint := operational_lifecycle_fingerprint c |}.
End fingerprints.

(** ** Lemmas *)
Lemma op_kind_str_inj k l : op_kind_str k = op_kind_str l -> k = l.
Proof. by destruct k, l. Qed.

Definition same_operational_request (c d : OperationalLifecycleCommand) : Prop :=
  oc_kind c = oc_kind d
  /\ op_principal_id (oc_fields c) = op_principal_id (oc_fields d)
  /\ op_created_via (oc_fields c) = op_created_via (oc_fields d)
  /\ op_service_id (oc_fields c) = op_service_id (oc_fields d)
  /\ op_expected_service_revision (oc_fields c) = op_expected_service_revision (oc_fields d).

Definition op_command_wf (c : OperationalLifecycleCommand) : bool :=
  json_wf (canonical_operational_lifecycle_payload c)
  && (op_service_id (oc_fields c) <? 2 ^ 128)%N.

Section lemmas.
Context `{FloatRepr}.

Lemma operational_json_inj c d :
  op_command_wf c = true -> op_command_wf d = true ->
  canonical_operational_lifecycle_json c = canonical_operational_lifecycle_json d ->
  same_operational_request c d.
Proof.
  unfold op_command_wf. intros [Hc Hu%N.ltb_lt]%andb_true_iff [Hd Hv%N.ltb_lt]%andb_true_iff Heq.
  apply json_dumps_inj in Heq; [|done..]. revert Heq.
  unfold canonical_operational_lifecycle_payload. cbv zeta. members.
  split_and!; try (by apply readable_str); try (by apply readable_int).
  - by apply op_kind_str_inj, readable_str.
  - by apply uuid_str_inj, readable_str.
Qed.

(** The evidence of a validated command. *)
Definition operational_intent (c : OperationalLifecycleCommand) (p : LifecyclePhase)
  : OperationalLifecycleIntent :=
  {| oi_kind := oc_kind c; oi_phase := p; oi_fields := oc_fields c;
     oi_target := deterministic_target_status (oc_kind c);
     oi_fingerprint := operational_lifecycle_fingerprint c |}.

Lemma make_operational_intent_spec i j :
  make_operational_intent i = Ok j
  <-> j = i /\ validate_command_fields (oi_fields i) = Ok tt
      /\ i = operational_intent {| oc_kind := oi_kind i; oc_fields := oi_fields i |} (oi_phase i).
Proof.
  unfold make_operational_intent, make_operational_command.
  rewrite unit_then, !raise_if_then. split.
  - intros (Hf & Ht & _ & H1). rewrite Hf in H1. cbn [mbind result_bind] in H1.
    apply raise_if_then in H1 as [Hfp [= <-]].
    apply bool_decide_eq_false, dec_stable in Ht, Hfp. split; [done|]. split; [done|].
    destruct i as [k p f t fp]. unfold operational_intent; cbn in *. by subst.
  - intros (-> & Hf & Hi). split; [done|]. rewrite Hf. cbn [mbind result_bind].
    rewrite raise_if_then, negb_false_iff, !bool_decide_eq_false.
    assert (oi_target i = deterministic_target_status (oi_kind i)) as -> by (by rewrite Hi).
    assert (oi_fingerprint i = operational_lifecycle_fingerprint
              {| oc_kind := oi_kind i; oc_fields := oi_fields i |}) as -> by (by rewrite Hi).
    split_and!; [by intros ?|apply sha256_hex_valid|by intros ?|done].
Qed.
End lemmas.

(** ** Properties *)

(** The transition matrix: an action is accepted exactly from its allowed
    statuses, whatever the design state, its result depends on the action alone
    and always differs from the status it started from; from [ARCHIVED] only
    [RESTORE] leads on, to [SUSPENDED], never directly to [ACTIVE]. *)
Theorem transition_matrix (c : OperationalLifecycleCommand) (d : DesignState)
    (s t : OperationalStatus) :
  transition_target_status c d s = Ok t
  <-> t = deterministic_target_status (oc_kind c) /\ t <> s
      /\ match oc_kind c with
         | SUSPEND => s = ACTIVE
         | RESUME => s = SUSPENDED
         | ARCHIVE => s <> ARCHIVED
         | RESTORE => s = ARCHIVED
         end.
Proof.
  unfold transition_target_status. rewrite raise_if_then.
  destruct (oc_kind c), s, t; cbn; naive_solver.
Qed.

(** A validated operational command always prepares, its evidence is fully
    determined by the command, and it completes or fails exactly once. *)
Theorem operational_intent_lifecycle `{FloatRepr} (k : OperationalLifecycleKind)
    (f : OperationalFields) (c : OperationalLifecycleCommand) (p q : LifecyclePhase)
    (j : OperationalLifecycleIntent) :
  make_operational_command k f = Ok c ->
  prepare_operational_intent c = Ok (operational_intent c PREPARED)
  /\ (op_with_phase (operational_intent c p) q = Ok j
      <-> p = PREPARED /\ q <> PREPARED /\ j = operational_intent c q).
Proof.
  unfold make_operational_command. intros [Hf [= <-]]%unit_then. split.
  - by apply make_operational_intent_spec.
  - unfold op_with_phase. rewrite raise_if_then, make_operational_intent_spec.
    cbn [operational_intent oi_kind oi_phase oi_fields oi_target oi_fingerprint oc_kind oc_fields].
    rewrite orb_false_iff, bool_decide_eq_false, negb_false_iff, orb_true_iff, !bool_decide_eq_true.
    split.
    + intros ([Hp%dec_stable Hq] & -> & _). split; [done|]. split; [by destruct Hq as [->| ->]|done].
    + intros (-> & Hq & ->). split; [|done]. split; [by intros ?|].
      destruct q; [done|by left|by right].
Qed.

Definition sample_operation : OperationalFields :=
  {| op_principal_id := lit "owner"; op_created_via := lit "client"; op_service_id := 7%N;
     op_expected_service_revision := 3; op_idempotency_key := lit "k" |}.

Lemma operational_intent_lifecycle_witness :
  let c := {| oc_kind := SUSPEND; oc_fields := sample_operation |} in
  @prepare_operational_intent datum_float_repr c = Ok (@operational_intent datum_float_repr c PREPARED).
Proof.
  intros c.
  apply (@operational_intent_lifecycle datum_float_repr SUSPEND sample_operation c PREPARED COMPLETED
           (@operational_intent datum_float_repr c COMPLETED)).
  by vm_compute.
Defined.

(** An operational fingerprint binds the action, the caller, the service and
    the revision, up to a collision of SHA-256 on two different texts. *)
Theorem operational_fingerprint_binds `{FloatRepr} (c d : OperationalLifecycleCommand) :
  op_command_wf c = true -> op_command_wf d = true ->
  operational_lifecycle_fingerprint c = operational_lifecycle_fingerprint d ->
  same_operational_request c d
  \/ (canonical_operational_lifecycle_json c <> canonical_operational_lifecycle_json d
      /\ sha256_hex (canonical_operational_lifecycle_json c)
         = sha256_hex (canonical_operational_lifecycle_json d)).
Proof.
  intros Hc Hd Heq.
  destruct (decide (canonical_operational_lifecycle_json c = canonical_operational_lifecycle_json d))
    as [Ht|Ht]; [left; by apply operational_json_inj|right]. split; [done|].
  apply andb_true_iff in Hc as [Hc _], Hd as [Hd _]. unfold operational_lifecycle_fingerprint in Heq.
  by rewrite !utf8_ascii in Heq by (by apply json_dumps_ascii).
Qed.

Lemma operational_fingerprint_binds_witness :
  let c := {| oc_kind := SUSPEND; oc_fields := sample_operation |} in
  same_operational_request c c
  \/ (@canonical_operational_lifecycle_json datum_float_repr c
        <> @canonical_operational_lifecycle_json datum_float_repr c
      /\ sha256_hex (@canonical_operational_lifecycle_json datum_float_repr c)
         = sha256_hex (@canonical_operational_lifecycle_json datum_float_repr c)).
Proof. intros c. apply (@operational_fingerprint_binds datum_float_repr c c); by vm_compute. Defined.
