(* ===== verification/Models.v ===== *)
(** * Models: the immutable registry values of [application/models.py]

    A service with the invariant its constructor enforces, the storage identity
    scoped to it, and the claim outcomes the registry returns.  A [datetime] is
    always timezone-aware UTC here (the check [_is_utc_datetime] is the type):
    the integer of its microseconds. *)
From S2P Require Import Prelude Values Json Sha256 Manifest PublicJson Relational Lifecycle.
From S2P Require Import LifecycleSpec Operational Samples.

Definition datetime := Z.

Inductive Backend := SQLITE | POSTGRESQL.
#[export] Instance Backend_eq_dec : EqDecision Backend.
Proof. solve_decision. Defined.

Record MaterialisationStorage := { backend : Backend; namespace : pystr }.
#[export] Instance MaterialisationStorage_eq_dec : EqDecision MaterialisationStorage.
Proof. solve_decision. Defined.

(** The [ValueError]s of the module. *)
Inductive ModelError :=
| StorageInvalid | ServiceIdBad | TimestampOrder | ServiceRevisionBad | ManifestPairing
| SchemaVersionBad | ManifestBad | ManifestVersionMismatch | MaterialisationPairing
| MaterialisationTime | StorageNotScoped | SeededMaterialisation | MaterialisedIncomplete
| DesignSnapshotInvalid | IntentPhaseInvalid | IntentKindInvalid | TerminalIdentity
| TerminalTarget | TerminalNotMaterialised | TerminalNotActive | TerminalTimestamps
| MaterialiseTerminal | EvolveTerminal | CompletionNotScoped
| SnapshotInvalid | ExecutionInvalid.

Abbreviation reject := (raise_if (E := ModelError)).

(** [MaterialisationStorage.__post_init__]. *)
Definition make_storage (s : MaterialisationStorage) : result ModelError MaterialisationStorage :=
  reject (negb (namespace_pattern (namespace s)) || bool_decide (namespace s = zero_namespace))
    StorageInvalid ;;
  Ok s.

(** ** Services *)
Record Service := {
  sv_service_id : UUID;
  sv_principal_id : pystr;
  sv_domain_name : pystr;
  sv_domain_class : pystr;
  sv_intent_description : pystr;
  sv_created_at : datetime;
  sv_updated_at : datetime;
  sv_last_activity_at : datetime;
  sv_manifest : option ManifestV2;
  sv_schema_version : option Z;
  sv_design_state : DesignState;
  sv_operational_status : OperationalStatus;
  sv_service_revision : Z;
  sv_materialised_at : option datetime;
  sv_storage : option MaterialisationStorage
}.

#[export] Instance Service_eq_dec : EqDecision Service.
Proof. solve_decision. Defined.

Definition is_some {A} (o : option A) : bool := match o with Some _ => true | None => false end.
Definition in_opt {A} (p : A -> bool) (o : option A) : bool :=
  match o with Some x => p x | None => true end.

Section services.
Context `{PublicModels}.

(** The manifest a constructor keeps: its own revalidated copy. *)
Definition keep_manifest (m : option ManifestV2) (version : option Z)
  : result ModelError (option ManifestV2) :=
  match m with
  | None => Ok None
  | Some m =>
      match model_validate (model_dump m) with
      | Raise _ => Raise ManifestBad
      | Ok snapshot =>
          reject (bool_decide (Some (schema_version snapshot) <> version)) ManifestVersionMismatch ;;
          Ok (Some snapshot)
      end
  end.

(** [Service.__post_init__]. *)
Definition make_service (s : Service) : result ModelError Service :=
  reject (sv_service_id s =? 0)%N ServiceIdBad ;;
  reject (negb ((sv_created_at s <=? sv_updated_at s) && (sv_updated_at s <=? sv_last_activity_at s)))
    TimestampOrder ;;
  reject (negb ((1 <=? sv_service_revision s) && (sv_service_revision s <=? MAX_SERVICE_REVISION)))
    ServiceRevisionBad ;;
  reject (negb (Bool.eqb (is_some (sv_manifest s)) (is_some (sv_schema_version s)))) ManifestPairing ;;
  reject (negb (in_opt (fun v => (1 <=? v) && (v <=? MAX_SCHEMA_VERSION)) (sv_schema_version s)))
    SchemaVersionBad ;;
  snapshot ← keep_manifest (sv_manifest s) (sv_schema_version s);
  reject (negb (Bool.eqb (is_some (sv_materialised_at s)) (is_some (sv_storage s))))
    MaterialisationPairing ;;
  reject (negb (in_opt (fun t => (sv_created_at s <=? t) && (t <=? sv_updated_at s))
                  (sv_materialised_at s))) MaterialisationTime ;;
  reject (negb (in_opt (fun st => bool_decide (namespace st = service_namespace (sv_service_id s)))
                  (sv_storage s))) StorageNotScoped ;;
  match sv_design_state s with
  | SEEDED => reject (is_some (sv_materialised_at s) || is_some (sv_storage s)) SeededMaterialisation
  | MATERIALISED =>
      reject (negb (is_some (sv_manifest s) && is_some (sv_materialised_at s)
                    && is_some (sv_storage s))) MaterialisedIncomplete
  end ;;
  Ok {| sv_service_id := sv_service_id s; sv_principal_id := sv_principal_id s;
        sv_domain_name := sv_domain_name s; sv_domain_class := sv_domain_class s;
        sv_intent_description := sv_intent_description s; sv_created_at := sv_created_at s;
        sv_updated_at := sv_updated_at s; sv_last_activity_at := sv_last_activity_at s;
        sv_manifest := snapshot; sv_schema_version := sv_schema_version s;
        sv_design_state := sv_design_state s; sv_operational_status := sv_operational_status s;
        sv_service_revision := sv_service_revision s; sv_materialised_at := sv_materialised_at s;
        sv_storage := sv_storage s |}.

(** [_service_snapshot]: a deep copy through the constructor. *)
Definition service_snapshot (s : Service) : result ModelError Service := make_service s.

(** ** Claims *)

(** [_require_lifecycle_intent]. *)
Definition require_lifecycle_intent (i : LifecycleIntent) (p : LifecyclePhase)
    (k : option LifecycleKind) : result ModelError unit :=
  reject (bool_decide (phase i <> p)) IntentPhaseInvalid ;;
  reject (negb (in_opt (fun k => bool_decide (kind i = k)) k)) IntentKindInvalid.

(** [_validate_terminal_service]. *)
Definition validate_terminal_service (i : LifecycleIntent) (s : Service) : result ModelError unit :=
  reject (bool_decide (sv_principal_id s <> principal_id (fields i))
          || negb (sv_service_id s =? service_id (fields i))%N
          || negb (sv_service_revision s =? expected_service_revision (fields i) + 1))
    TerminalIdentity ;;
  reject (bool_decide (sv_manifest s <> Some (target_manifest i))
          || bool_decide (sv_schema_version s <> Some (schema_version (target_manifest i))))
    TerminalTarget ;;
  reject (bool_decide (sv_design_state s <> MATERIALISED)) TerminalNotMaterialised ;;
  reject (bool_decide (sv_operational_status s <> ACTIVE)) TerminalNotActive ;;
  reject (negb (sv_updated_at s =? sv_last_activity_at s)) TerminalTimestamps ;;
  match kind i with
  | MATERIALISE =>
      reject (bool_decide (sv_schema_version s <> Some 1)
              || bool_decide (sv_materialised_at s = None)
              || bool_decide (sv_materialised_at s <> Some (sv_updated_at s))
              || bool_decide (sv_storage s = None)) MaterialiseTerminal
  | EVOLVE =>
      reject (bool_decide (sv_materialised_at s = None) || bool_decide (sv_storage s = None))
        EvolveTerminal
  end.

Inductive CompletedNonLifecycleKind := LEGACY | SEED | DESIGN.

Record CompletedNonLifecycleClaim := {
  nl_kind : CompletedNonLifecycleKind;
  nl_service : Service
}.

Definition make_completed_non_lifecycle (k : CompletedNonLifecycleKind) (s : Service)
  : result ModelError CompletedNonLifecycleClaim :=
  snapshot ← service_snapshot s;
  reject (match k with
          | DESIGN =>
              bool_decide (sv_design_state snapshot <> SEEDED)
              || bool_decide (sv_operational_status snapshot <> ACTIVE)
              || bool_decide (sv_manifest snapshot = None)
              || bool_decide (sv_schema_version snapshot <> Some 1)
              || negb (sv_service_revision snapshot =? 2)
              || negb (sv_updated_at snapshot =? sv_last_activity_at snapshot)
          | _ => false
          end) DesignSnapshotInvalid ;;
  Ok {| nl_kind := k; nl_service := snapshot |}.

Record CompletedLifecycleClaim := { cl_intent : LifecycleIntent; cl_service : Service }.

Definition make_completed_lifecycle (i : LifecycleIntent) (s : Service)
  : result ModelError CompletedLifecycleClaim :=
  require_lifecycle_intent i COMPLETED None ;;
  snapshot ← service_snapshot s;
  validate_terminal_service i snapshot ;;
  Ok {| cl_intent := i; cl_service := snapshot |}.

(** ** Completions: the proof the coordinator hands to the registry *)
Inductive LifecycleCompletion :=
| MaterialiseCompletion (i : LifecycleIntent) (at_ : datetime) (storage : MaterialisationStorage)
| EvolveCompletion (i : LifecycleIntent) (at_ : datetime).

Definition make_materialise_completion (i : LifecycleIntent) (t : datetime)
    (st : MaterialisationStorage) : result ModelError LifecycleCompletion :=
  require_lifecycle_intent i PREPARED (Some MATERIALISE) ;;
  reject (bool_decide (namespace st <> service_namespace (service_id (fields i)))) CompletionNotScoped ;;
  Ok (MaterialiseCompletion i t st).

Definition make_evolve_completion (i : LifecycleIntent) (t : datetime)
  : result ModelError LifecycleCompletion :=
  require_lifecycle_intent i PREPARED (Some EVOLVE) ;;
  Ok (EvolveCompletion i t).

(** ** Registry outcomes *)
Inductive NonLifecycleRegistryOutcome :=
| NL_New | NL_Conflict | NL_Completed (c : CompletedNonLifecycleClaim).

Inductive LifecycleRegistryOutcome :=
| LR_Conflict
| LR_Completed (c : CompletedLifecycleClaim)
| LR_Prepared (i : LifecycleIntent)
| LR_RecoveryRequired (i : LifecycleIntent)
| LR_Stale
| LR_Unsupported
| LR_InProgress.

(** ** Execution results and the public projection *)
Inductive ExecutionCategory := EXEC_COMPLETED | EXEC_FAILED (c : LifecycleResultCategory).

Record LifecycleExecutionResult := { er_category : ExecutionCategory; er_service : option Service }.

Definition make_execution_result (c : ExecutionCategory) (s : option Service)
  : result ModelError LifecycleExecutionResult :=
  match c, s with
  | EXEC_COMPLETED, Some s =>
      snapshot ← service_snapshot s; Ok {| er_category := c; er_service := Some snapshot |}
  | EXEC_FAILED _, None => Ok {| er_category := c; er_service := None |}
  | EXEC_COMPLETED, None => Raise SnapshotInvalid
  | EXEC_FAILED _, Some _ => Raise ExecutionInvalid
  end.

Definition execution_retryable (r : LifecycleExecutionResult) : bool :=
  match er_category r with
  | EXEC_COMPLETED => false
  | EXEC_FAILED c => lifecycle_result_retryable c
  end.
End services.

Record AuditEvent := {
  ae_action : pystr;
  ae_outcome : pystr;
  ae_service_id : UUID;
  ae_principal_id : pystr;
  ae_created_via : pystr;
  ae_at : datetime
}.

(** ** The invariant of a service *)
Record ServiceWF (s : Service) : Prop := {
  swf_id : sv_service_id s <> 0%N;
  swf_times : sv_created_at s <= sv_updated_at s <= sv_last_activity_at s;
  swf_revision : 1 <= sv_service_revision s <= MAX_SERVICE_REVISION;
  swf_manifest : forall m, sv_manifest s = Some m ->
    ManifestWF m /\ sv_schema_version s = Some (schema_version m);
  swf_schema : sv_manifest s = None -> sv_schema_version s = None;
  swf_materialised_at : forall t, sv_materialised_at s = Some t ->
    sv_created_at s <= t <= sv_updated_at s;
  swf_storage : forall st, sv_storage s = Some st ->
    namespace st = service_namespace (sv_service_id s);
  swf_design : match sv_design_state s with
    | SEEDED => sv_materialised_at s = None /\ sv_storage s = None
    | MATERIALISED => is_Some (sv_manifest s) /\ is_Some (sv_materialised_at s)
                      /\ is_Some (sv_storage s)
    end
}.

Lemma reject_then {A} (b : bool) e (m : result ModelError A) x :
  (reject b e ;; m) = Ok x <-> b = false /\ m = Ok x.
Proof. apply raise_if_then. Qed.

Section service_lemmas.
Context `{PublicModels}.

Lemma keep_manifest_spec m v o :
  keep_manifest m v = Ok o
  <-> o = m /\ forall m', m = Some m' -> ManifestWF m' /\ v = Some (schema_version m').
Proof.
  unfold keep_manifest. destruct m as [m|]; [|naive_solver].
  rewrite model_roundtrip. destruct (validate_manifest m) as [[]|] eqn:E; cbn [mbind result_bind].
  - apply validate_manifest_spec in E. rewrite reject_then, bool_decide_eq_false. split.
    + intros [Hv%dec_stable [= <-]]. split; [done|]. by intros m' [= <-].
    + intros [-> Hm]. destruct (Hm m eq_refl) as [_ ->]. split; [by intros ?|done].
  - split; [done|]. intros [_ Hm]. destruct (Hm m eq_refl) as [Hwf%validate_manifest_spec _]. congruence.
Qed.

Lemma make_service_spec s s' : make_service s = Ok s' <-> ServiceWF s /\ s' = s.
Proof.
  unfold make_service. rewrite !reject_then, bind_Ok. setoid_rewrite keep_manifest_spec. split.
  - intros (Hid & Ht & Hr & Hp & Hv & o & [-> Hm] & Hrest).
    apply reject_then in Hrest as [Hpair Hrest]. apply reject_then in Hrest as [Hmt Hrest].
    apply reject_then in Hrest as [Hst Hrest]. apply unit_then in Hrest as [Hd [= <-]].
    apply negb_false_iff, eqb_prop in Hp, Hpair. bools. split; [|by destruct s].
    split; try lia.
    + exact Hm.
    + intros Hn. rewrite Hn in Hp. by destruct (sv_schema_version s).
    + intros t E. rewrite E in Hmt. cbn [in_opt] in Hmt. bools. lia.
    + intros st E. rewrite E in Hst. cbn [in_opt] in Hst. by bools.
    + destruct (sv_design_state s); apply raise_if_Ok in Hd; bools;
        destruct (sv_manifest s), (sv_materialised_at s), (sv_storage s); naive_solver.
  - intros [[Hid Ht Hr Hm Hs Hmt Hst Hd] ->]. bools. split_and!; try done; try lia.
    + apply eqb_true_iff. destruct (sv_manifest s) as [m|]; [by destruct (Hm m eq_refl) as [_ ->]|by rewrite Hs].
    + destruct (sv_manifest s) as [m|]; [|by rewrite Hs]. destruct (Hm m eq_refl) as [Hwf ->].
      cbn [in_opt]. pose proof (mwf_fields _ Hwf) as Hf. unfold manifest_fields in Hf.
      unfold MAX_SCHEMA_VERSION. bools. lia.
    + exists (sv_manifest s). split; [done|]. apply reject_then. split.
      { apply negb_false_iff, eqb_true_iff.
        destruct (sv_design_state s); [by destruct Hd as [-> ->]|by destruct Hd as (_ & [? ->] & [? ->])]. }
      apply reject_then. split.
      { apply negb_false_iff. destruct (sv_materialised_at s) as [t|]; [|done]. cbn [in_opt].
        destruct (Hmt t eq_refl). bools. lia. }
      apply reject_then. split.
      { apply negb_false_iff. destruct (sv_storage s) as [st|]; [|done]. cbn [in_opt].
        by apply bool_decide_eq_true, Hst. }
      apply unit_then. split; [|by destruct s].
      destruct (sv_design_state s); apply raise_if_Ok;
        [by destruct Hd as [-> ->]|by destruct Hd as ([? ->] & [? ->] & [? ->])].
Qed.

Lemma service_snapshot_spec s s' : service_snapshot s = Ok s' <-> ServiceWF s /\ s' = s.
Proof. apply make_service_spec. Qed.

(** What a terminal snapshot of a completed intent is. *)
Record TerminalService (i : LifecycleIntent) (s : Service) : Prop := {
  ts_principal : sv_principal_id s = principal_id (fields i);
  ts_id : sv_service_id s = service_id (fields i);
  ts_revision : sv_service_revision s = expected_service_revision (fields i) + 1;
  ts_manifest : sv_manifest s = Some (target_manifest i);
  ts_schema : sv_schema_version s = Some (schema_version (target_manifest i));
  ts_design : sv_design_state s = MATERIALISED;
  ts_status : sv_operational_status s = ACTIVE;
  ts_times : sv_updated_at s = sv_last_activity_at s;
  ts_kind : match kind i with
            | MATERIALISE => sv_schema_version s = Some 1
                             /\ sv_materialised_at s = Some (sv_updated_at s) /\ is_Some (sv_storage s)
            | EVOLVE => is_Some (sv_materialised_at s) /\ is_Some (sv_storage s)
            end
}.

Lemma validate_terminal_spec i s : validate_terminal_service i s = Ok tt <-> TerminalService i s.
Proof.
  unfold validate_terminal_service. rewrite !reject_then. split.
  - intros (H1 & H2 & H3 & H4 & H5 & H6). bools.
    destruct H1 as [[H1 ?] ?], H2 as [H2 H2']. apply dec_stable in H1, H2, H2', H3, H4.
    split; try done. destruct (kind i); apply raise_if_Ok in H6; bools.
    + destruct H6 as [[[Hv _] Hm] Hst]. apply dec_stable in Hv, Hm.
      by destruct (sv_storage s).
    + destruct H6 as [Hm Hst]. by destruct (sv_materialised_at s), (sv_storage s).
  - intros [-> -> -> -> -> -> -> -> Hk]. bools.
    split_and!; try done; try (by intros ?).
    destruct (kind i); apply raise_if_Ok; bools.
    + destruct Hk as ([= ->] & -> & [? ->]). split_and!; by intros ?.
    + destruct Hk as ([? ->] & [? ->]). split_and!; by intros ?.
Qed.

Lemma require_intent_spec i p k :
  require_lifecycle_intent i p k = Ok tt <-> phase i = p /\ forall k', k = Some k' -> kind i = k'.
Proof.
  unfold require_lifecycle_intent. rewrite reject_then, raise_if_Ok, negb_false_iff, bool_decide_eq_false.
  split.
  - intros [Hp%dec_stable Hk]. split; [done|]. intros k' ->. cbn [in_opt] in Hk. by bools.
  - intros [-> Hk]. split; [by intros ?|]. destruct k as [k|]; [|done]. cbn [in_opt].
    by apply bool_decide_eq_true, Hk.
Qed.
End service_lemmas.

(** ** Properties *)

(** A service value always satisfies its invariant: the constructor accepts
    exactly the well-formed values and returns them unchanged. *)
Theorem make_service_accepts `{PublicModels} (s s' : Service) :
  make_service s = Ok s' <-> ServiceWF s /\ s' = s.
Proof. apply make_service_spec. Qed.

(** A materialised service at revision 4: [sample_intent] produced it. *)
Definition shop_storage : MaterialisationStorage :=
  {| backend := SQLITE; namespace := service_namespace 7%N |}.

Definition shop_service : Service :=
  {| sv_service_id := 7%N; sv_principal_id := lit "owner"; sv_domain_name := lit "shop";
     sv_domain_class := lit "commerce"; sv_intent_description := lit "orders";
     sv_created_at := 10; sv_updated_at := 20; sv_last_activity_at := 20;
     sv_manifest := Some shop_v1; sv_schema_version := Some 1; sv_design_state := MATERIALISED;
     sv_operational_status := ACTIVE; sv_service_revision := 4; sv_materialised_at := Some 20;
     sv_storage := Some shop_storage |}.

Lemma make_service_accepts_witness : ServiceWF shop_service.
Proof. apply (@make_service_accepts plain_models shop_service shop_service). by vm_compute. Defined.

(** A completed claim is proof of the effect it reports: its intent is
    completed and its service is well formed, belongs to the intent's principal
    and service, is exactly one revision later, active, materialised, and
    carries the intent's target manifest. *)
Theorem completed_lifecycle_claim `{PublicModels} (i : LifecycleIntent) (s : Service)
    (c : CompletedLifecycleClaim) :
  make_completed_lifecycle i s = Ok c
  <-> phase i = COMPLETED /\ ServiceWF s /\ TerminalService i s
      /\ c = {| cl_intent := i; cl_service := s |}.
Proof.
  unfold make_completed_lifecycle. rewrite unit_then, require_intent_spec, bind_Ok. split.
  - intros ([Hp _] & s' & [Hs ->]%service_snapshot_spec & Hrest).
    by apply unit_then in Hrest as [Ht%validate_terminal_spec [= <-]].
  - intros (Hp & Hs & Ht & ->). split; [done|]. exists s.
    split; [by apply service_snapshot_spec|]. apply unit_then.
    split; [by apply validate_terminal_spec|done].
Qed.

Lemma completed_lifecycle_claim_witness : TerminalService (sample_intent COMPLETED) shop_service.
Proof.
  apply (@completed_lifecycle_claim plain_models (sample_intent COMPLETED) shop_service
           {| cl_intent := sample_intent COMPLETED; cl_service := shop_service |}).
  by vm_compute.
Defined.
