(* ===== verification/Authority.v ===== *)
(** * Authority: typed evidence of the shared claim namespace

    [application/registry_authority.py]: export, import and purge commands with
    their fingerprints, the portable intent, transfer receipts, purge
    tombstones, and the claim outcomes the registry answers with.  Operational
    intents of [Operational] share the namespace. *)
From S2P Require Import Prelude Values Json Sha256 Manifest PublicJson Relational Lifecycle.
From S2P Require Import LifecycleSpec Operational Models.

(** ** Enumerations *)
Inductive PortableOperationKind := EXPORT | IMPORT | PURGE.
Inductive ReceiptVerification := UNVERIFIED | VERIFIED.
Inductive ReceiptKind := RECEIPT_EXPORT | RECEIPT_IMPORT.
Inductive PurgeAuthorityKind := VERIFIED_RECEIPT | EXPLICIT_OVERRIDE.
Inductive IdentityCollisionKind := COLLISION_SERVICE_ID | COLLISION_NAMESPACE
| COLLISION_DOMAIN | COLLISION_TOMBSTONE.

#[export] Instance PortableOperationKind_eq_dec : EqDecision PortableOperationKind.
Proof. solve_decision. Defined.
#[export] Instance ReceiptVerification_eq_dec : EqDecision ReceiptVerification.
Proof. solve_decision. Defined.
#[export] Instance ReceiptKind_eq_dec : EqDecision ReceiptKind.
Proof. solve_decision. Defined.
#[export] Instance PurgeAuthorityKind_eq_dec : EqDecision PurgeAuthorityKind.
Proof. solve_decision. Defined.

Inductive AuthorityError :=
| A_Principal | A_CreatedVia | A_ServiceId | A_Revision | A_IdempotencyKey | A_Digest
| A_Domain | A_Namespace | A_ImportIdentity | A_PurgeReceipt | A_ImportShape | A_ServiceShape
| A_PurgeAuthority | A_ExportAuthority | A_FingerprintMismatch | A_Phase | A_ReceiptFormat
| A_ReceiptRevision | A_Tombstone | A_TombstoneReceipt | A_ClaimPhase | A_Result | A_Command.

Abbreviation deny := (raise_if (E := AuthorityError)).

(** ** Field checks *)
Definition validate_principal (v : pystr) := deny (negb (valid_text v MAX_PRINCIPAL_LENGTH)) A_Principal.
Definition validate_created_via (v : pystr) := deny (negb (valid_text v MAX_CREATED_VIA_LENGTH)) A_CreatedVia.
Definition validate_idempotency_key (v : pystr) :=
  deny (negb (valid_text v MAX_IDEMPOTENCY_KEY_LENGTH)) A_IdempotencyKey.
Definition validate_service_id (v : UUID) := deny (v =? 0)%N A_ServiceId.
Definition validate_sha256 (v : pystr) := deny (negb (valid_sha256 v)) A_Digest.

(** [_validate_common], over the fields the service commands share. *)
Definition validate_common (f : OperationalFields) : result AuthorityError unit :=
  validate_principal (op_principal_id f) ;;
  validate_created_via (op_created_via f) ;;
  validate_service_id (op_service_id f) ;;
  deny (negb ((1 <=? op_expected_service_revision f)
              && (op_expected_service_revision f <? MAX_SERVICE_REVISION))) A_Revision ;;
  validate_idempotency_key (op_idempotency_key f).

(** ** Identities and authorities *)
Record ImportIdentity := {
  im_principal_id : pystr;
  im_service_id : UUID;
  im_domain_name : pystr;
  im_logical_namespace : pystr
}.

#[export] Instance ImportIdentity_eq_dec : EqDecision ImportIdentity.
Proof. solve_decision. Defined.

(** [ImportIdentity.__post_init__]; [_DOMAIN] is the identifier grammar. *)
Definition make_identity (i : ImportIdentity) : result AuthorityError ImportIdentity :=
  validate_principal (im_principal_id i) ;;
  validate_service_id (im_service_id i) ;;
  deny (negb (identifier (im_domain_name i))) A_Domain ;;
  deny (negb (namespace_pattern (im_logical_namespace i))
        || bool_decide (im_logical_namespace i <> service_namespace (im_service_id i))) A_Namespace ;;
  Ok i.

Record PurgeAuthority := { pa_kind : PurgeAuthorityKind; pa_receipt_id : option UUID }.

#[export] Instance PurgeAuthority_eq_dec : EqDecision PurgeAuthority.
Proof. solve_decision. Defined.

(** [PurgeAuthority.__post_init__]. *)
Definition make_purge_authority (a : PurgeAuthority) : result AuthorityError PurgeAuthority :=
  match pa_kind a, pa_receipt_id a with
  | VERIFIED_RECEIPT, Some r => validate_service_id r ;; Ok a
  | VERIFIED_RECEIPT, None => Raise A_ServiceId
  | EXPLICIT_OVERRIDE, None => Ok a
  | EXPLICIT_OVERRIDE, Some _ => Raise A_PurgeReceipt
  end.

(** ** Commands *)
Inductive PortableCommand :=
| ExportCommand (f : OperationalFields)
| ImportCommand (principal via : pystr) (ident : ImportIdentity) (destination : Backend)
    (root key : pystr)
| PurgeCommand (f : OperationalFields) (authority : PurgeAuthority).

Definition portable_kind (c : PortableCommand) : PortableOperationKind :=
  match c with ExportCommand _ => EXPORT | ImportCommand _ _ _ _ _ _ => IMPORT | PurgeCommand _ _ => PURGE end.

(** The [__post_init__] of the three command classes. *)
Definition make_portable_command (c : PortableCommand) : result AuthorityError PortableCommand :=
  match c with
  | ExportCommand f => validate_common f
  | ImportCommand principal via ident destination root key =>
      validate_principal principal ;;
      validate_created_via via ;;
      deny (bool_decide (im_principal_id ident <> principal)) A_ImportIdentity ;;
      validate_sha256 root ;;
      validate_idempotency_key key
  | PurgeCommand f authority => validate_common f
  end ;;
  Ok c.

(** ** Fingerprints *)
Definition portable_kind_str (k : PortableOperationKind) : pystr :=
  match k with EXPORT => lit "export" | IMPORT => lit "import" | PURGE => lit "purge" end.
Definition backend_str (b : Backend) : pystr :=
  match b with SQLITE => lit "sqlite" | POSTGRESQL => lit "postgresql" end.
Definition authority_str (k : PurgeAuthorityKind) : pystr :=
  match k with VERIFIED_RECEIPT => lit "verified_receipt" | EXPLICIT_OVERRIDE => lit "explicit_override" end.

(** The common members of [_canonical_portable_json]. *)
Definition portable_members (k : PortableOperationKind) (principal via : pystr) (id : UUID)
  : list (pystr * json) :=
  [ (lit "kind", jstr (portable_kind_str k)); (lit "principal", jstr principal);
    (lit "created_via", jstr via); (lit "service_id", jstr (uuid_str id)) ].

Definition canonical_portable_payload (c : PortableCommand) : json :=
  match c with
  | ImportCommand principal via ident destination root key =>
      JObj (portable_members IMPORT principal via (im_service_id ident)
            ++ [ (lit "domain_name", jstr (im_domain_name ident));
                 (lit "logical_namespace", jstr (im_logical_namespace ident));
                 (lit "destination_backend", jstr (backend_str destination));
                 (lit "bundle_root_sha256", jstr root) ])
  | ExportCommand f =>
      JObj (portable_members EXPORT (op_principal_id f) (op_created_via f) (op_service_id f)
            ++ [ (lit "expected_service_revision", jint (op_expected_service_revision f)) ])
  | PurgeCommand f authority =>
      JObj (portable_members PURGE (op_principal_id f) (op_created_via f) (op_service_id f)
            ++ [ (lit "expected_service_revision", jint (op_expected_service_revision f));
                 (lit "purge_authority", jstr (authority_str (pa_kind authority))) ]
            ++ match pa_receipt_id authority with
               | Some r => [ (lit "receipt_id", jstr (uuid_str r)) ]
               | None => []
               end)
  end.

(** ** Intents *)
Record PortableIntent := {
  pi_kind : PortableOperationKind;
  pi_phase : LifecyclePhase;
  pi_principal_id : pystr;
  pi_created_via : pystr;
  pi_service_id : UUID;
  pi_expected_service_revision : option Z;
  pi_idempotency_key : pystr;
  pi_fingerprint : pystr;
  pi_identity : option ImportIdentity;
  pi_bundle_root_sha256 : option pystr;
  pi_destination_backend : option Backend;
  pi_purge_authority : option PurgeAuthority
}.

#[export] Instance PortableIntent_eq_dec : EqDecision PortableIntent.
Proof. solve_decision. Defined.
#[export] Instance OperationalLifecycleIntent_eq_dec : EqDecision OperationalLifecycleIntent.
Proof. solve_decision. Defined.

Definition service_fields (i : PortableIntent) (revision : Z) : OperationalFields :=
  {| op_principal_id := pi_principal_id i; op_created_via := pi_created_via i;
     op_service_id := pi_service_id i; op_expected_service_revision := revision;
     op_idempotency_key := pi_idempotency_key i |}.

Section fingerprints.
Context `{FloatRepr}.

Definition portable_fingerprint (c : PortableCommand) : pystr :=
  sha256_hex (utf8 (json_dumps (canonical_portable_payload c))).

(** [_command_for_intent], on an intent whose shape was checked. *)
Definition portable_command_for_intent (i : PortableIntent) : result AuthorityError PortableCommand :=
  match pi_kind i, pi_expected_service_revision i, pi_identity i, pi_destination_backend i,
        pi_bundle_root_sha256 i, pi_purge_authority i with
  | EXPORT, Some r, _, _, _, _ => make_portable_command (ExportCommand (service_fields i r))
  | IMPORT, _, Some ident, Some destination, Some root, _ =>
      make_portable_command (ImportCommand (pi_principal_id i) (pi_created_via i) ident
                               destination root (pi_idempotency_key i))
  | PURGE, Some r, _, _, _, Some authority =>
      make_portable_command (PurgeCommand (service_fields i r) authority)
  | _, _, _, _, _, _ => Raise A_Command
  end.

(** The shape check of [PortableIntent.__post_init__]. *)
Definition portable_shape (i : PortableIntent) : result AuthorityError unit :=
  match pi_kind i with
  | IMPORT =>
      match pi_identity i, pi_bundle_root_sha256 i, pi_destination_backend i with
      | Some ident, Some root, Some _ =>
          deny (bool_decide (im_principal_id ident <> pi_principal_id i)
                || negb (im_service_id ident =? pi_service_id i)%N
                || is_some (pi_expected_service_revision i)
                || is_some (pi_purge_authority i)) A_ImportShape ;;
          validate_sha256 root
      | _, _, _ => Raise A_ImportShape
      end
  | k =>
      deny (negb (match pi_expected_service_revision i with
                  | Some r => (1 <=? r) && (r <? MAX_SERVICE_REVISION)
                  | None => false
                  end)
            || is_some (pi_identity i) || is_some (pi_bundle_root_sha256 i)
            || is_some (pi_destination_backend i)) A_ServiceShape ;;
      match k with
      | PURGE => deny (negb (is_some (pi_purge_authority i))) A_PurgeAuthority
      | _ => deny (is_some (pi_purge_authority i)) A_ExportAuthority
      end
  end.

(** [PortableIntent.__post_init__]. *)
Definition make_portable_intent (i : PortableIntent) : result AuthorityError PortableIntent :=
  validate_principal (pi_principal_id i) ;;
  validate_created_via (pi_created_via i) ;;
  validate_service_id (pi_service_id i) ;;
  validate_idempotency_key (pi_idempotency_key i) ;;
  validate_sha256 (pi_fingerprint i) ;;
  portable_shape i ;;
  c ← portable_command_for_intent i;
  deny (bool_decide (pi_fingerprint i <> portable_fingerprint c)) A_FingerprintMismatch ;;
  Ok i.

Definition set_phase (i : PortableIntent) (p : LifecyclePhase) : PortableIntent :=
  {| pi_kind := pi_kind i; pi_phase := p; pi_principal_id := pi_principal_id i;
     pi_created_via := pi_created_via i; pi_service_id := pi_service_id i;
     pi_expected_service_revision := pi_expected_service_revision i;
     pi_idempotency_key := pi_idempotency_key i; pi_fingerprint := pi_fingerprint i;
     pi_identity := pi_identity i; pi_bundle_root_sha256 := pi_bundle_root_sha256 i;
     pi_destination_backend := pi_destination_backend i;
     pi_purge_authority := pi_purge_authority i |}.

(** [PortableIntent.with_phase]. *)
Definition portable_with_phase (i : PortableIntent) (p : LifecyclePhase)
  : result AuthorityError PortableIntent :=
  deny (bool_decide (pi_phase i <> PREPARED) || bool_decide (p = PREPARED)) A_Phase ;;
  make_portable_intent (set_phase i p).

(** [_portable_intent]. *)
Definition portable_intent (c : PortableCommand) : result AuthorityError PortableIntent :=
  let service f authority :=
    {| pi_kind := portable_kind c; pi_phase := PREPARED;
       pi_principal_id := op_principal_id f; pi_created_via := op_created_via f;
       pi_service_id := op_service_id f;
       pi_expected_service_revision := Some (op_expected_service_revision f);
       pi_idempotency_key := op_idempotency_key f; pi_fingerprint := portable_fingerprint c;
       pi_identity := None; pi_bundle_root_sha256 := None; pi_destination_backend := None;
       pi_purge_authority := authority |} in
  make_portable_intent
    match c with
    | ExportCommand f => service f None
    | PurgeCommand f authority => service f (Some authority)
    | ImportCommand principal via ident destination root key =>
        {| pi_kind := IMPORT; pi_phase := PREPARED; pi_principal_id := principal;
           pi_created_via := via; pi_service_id := im_service_id ident;
           pi_expected_service_revision := None; pi_idempotency_key := key;
           pi_fingerprint := portable_fingerprint c; pi_identity := Some ident;
           pi_bundle_root_sha256 := Some root; pi_destination_backend := Some destination;
           pi_purge_authority := None |}
    end.
End fingerprints.

(** ** Receipts, tombstones and local events *)
Record TransferReceipt := {
  tr_receipt_id : UUID;
  tr_kind : ReceiptKind;
  tr_principal_id : pystr;
  tr_service_id : UUID;
  tr_bundle_root_sha256 : pystr;
  tr_export_format_version : Z;
  tr_storage_backend : Backend;
  tr_service_revision : Z;
  tr_operational_status : OperationalStatus;
  tr_verification : ReceiptVerification;
  tr_created_at : datetime
}.

#[export] Instance TransferReceipt_eq_dec : EqDecision TransferReceipt.
Proof. solve_decision. Defined.

(** [TransferReceipt.__post_init__]. *)
Definition make_receipt (r : TransferReceipt) : result AuthorityError TransferReceipt :=
  validate_service_id (tr_receipt_id r) ;;
  validate_principal (tr_principal_id r) ;;
  validate_service_id (tr_service_id r) ;;
  validate_sha256 (tr_bundle_root_sha256 r) ;;
  deny (negb (tr_export_format_version r =? 1)) A_ReceiptFormat ;;
  deny (negb ((1 <=? tr_service_revision r) && (tr_service_revision r <=? MAX_SERVICE_REVISION)))
    A_ReceiptRevision ;;
  Ok r.

Record PurgeTombstone := {
  pt_principal_id : pystr;
  pt_service_id : UUID;
  pt_logical_namespace : pystr;
  pt_created_via : pystr;
  pt_purged_at : datetime;
  pt_authority : PurgeAuthority;
  pt_receipt_id : option UUID
}.

#[export] Instance PurgeTombstone_eq_dec : EqDecision PurgeTombstone.
Proof. solve_decision. Defined.

(** [PurgeTombstone.__post_init__]. *)
Definition make_tombstone (t : PurgeTombstone) : result AuthorityError PurgeTombstone :=
  deny (negb (valid_text (pt_principal_id t) MAX_PRINCIPAL_LENGTH)
        || (pt_service_id t =? 0)%N
        || bool_decide (pt_logical_namespace t <> service_namespace (pt_service_id t))
        || negb (valid_text (pt_created_via t) MAX_CREATED_VIA_LENGTH)) A_Tombstone ;;
  deny (match pa_kind (pt_authority t) with
        | VERIFIED_RECEIPT => bool_decide (pt_receipt_id t <> pa_receipt_id (pt_authority t))
        | EXPLICIT_OVERRIDE => is_some (pt_receipt_id t)
        end) A_TombstoneReceipt ;;
  Ok t.

(** ** Claims *)
Inductive RegistryAuthorityIntent :=
| AI_Operational (i : OperationalLifecycleIntent)
| AI_Portable (i : PortableIntent).

#[export] Instance RegistryAuthorityIntent_eq_dec : EqDecision RegistryAuthorityIntent.
Proof. solve_decision. Defined.

Inductive ActiveRegistryIntent :=
| Active_Authority (i : RegistryAuthorityIntent)
| Active_Lifecycle (i : LifecycleIntent).

Inductive AuthorityResult :=
| Result_Service (s : Service)
| Result_Receipt (r : TransferReceipt)
| Result_Tombstone (t : PurgeTombstone).

#[export] Instance AuthorityResult_eq_dec : EqDecision AuthorityResult.
Proof. solve_decision. Defined.

Definition ai_phase (i : RegistryAuthorityIntent) : LifecyclePhase :=
  match i with AI_Operational o => oi_phase o | AI_Portable p => pi_phase p end.
Definition ai_principal_id (i : RegistryAuthorityIntent) : pystr :=
  match i with AI_Operational o => op_principal_id (oi_fields o) | AI_Portable p => pi_principal_id p end.
Definition ai_service_id (i : RegistryAuthorityIntent) : UUID :=
  match i with AI_Operational o => op_service_id (oi_fields o) | AI_Portable p => pi_service_id p end.
Definition ai_created_via (i : RegistryAuthorityIntent) : pystr :=
  match i with AI_Operational o => op_created_via (oi_fields o) | AI_Portable p => pi_created_via p end.
Definition ai_idempotency_key (i : RegistryAuthorityIntent) : pystr :=
  match i with
  | AI_Operational o => op_idempotency_key (oi_fields o) | AI_Portable p => pi_idempotency_key p end.
Definition ai_fingerprint (i : RegistryAuthorityIntent) : pystr :=
  match i with AI_Operational o => oi_fingerprint o | AI_Portable p => pi_fingerprint p end.
Definition ai_expected_revision (i : RegistryAuthorityIntent) : option Z :=
  match i with
  | AI_Operational o => Some (op_expected_service_revision (oi_fields o))
  | AI_Portable p => pi_expected_service_revision p
  end.
Definition ai_kind_str (i : RegistryAuthorityIntent) : pystr :=
  match i with
  | AI_Operational o => op_kind_str (oi_kind o) | AI_Portable p => portable_kind_str (pi_kind p) end.

(** [with_phase] of either kind of intent. *)
Definition ai_with_phase `{FloatRepr} (i : RegistryAuthorityIntent) (p : LifecyclePhase)
  : result AuthorityError RegistryAuthorityIntent :=
  match i with
  | AI_Operational o =>
      match op_with_phase o p with Ok o' => Ok (AI_Operational o') | Raise _ => Raise A_Phase end
  | AI_Portable q => q' ← portable_with_phase q p; Ok (AI_Portable q')
  end.

Record CompletedRegistryClaim := {
  cr_intent : RegistryAuthorityIntent;
  cr_result : AuthorityResult
}.

(** [_validate_service_result] and [_validate_import_result]. *)
Definition service_result_ok (o : OperationalLifecycleIntent) (s : Service) : bool :=
  bool_decide (sv_principal_id s = op_principal_id (oi_fields o))
  && (sv_service_id s =? op_service_id (oi_fields o))%N
  && (sv_service_revision s =? op_expected_service_revision (oi_fields o) + 1)
  && bool_decide (sv_operational_status s = oi_target o).

Definition import_result_ok (q : PortableIntent) (s : Service) : bool :=
  match pi_identity q with
  | None => false
  | Some ident =>
      bool_decide (sv_principal_id s = im_principal_id ident)
      && (sv_service_id s =? im_service_id ident)%N
      && bool_decide (sv_domain_name s = im_domain_name ident)
      && in_opt (fun st => bool_decide (namespace st = im_logical_namespace ident)) (sv_storage s)
  end.

Definition export_result_ok (q : PortableIntent) (r : TransferReceipt) : bool :=
  bool_decide (tr_kind r = RECEIPT_EXPORT)
  && bool_decide (tr_principal_id r = pi_principal_id q)
  && (tr_service_id r =? pi_service_id q)%N
  && bool_decide (tr_verification r = VERIFIED)
  && bool_decide (Some (tr_service_revision r) = pi_expected_service_revision q).

(** [CompletedRegistryClaim.__post_init__]. *)
Definition completion_ok (i : RegistryAuthorityIntent) (r : AuthorityResult) : bool :=
  match i, r with
  | AI_Operational o, Result_Service s => service_result_ok o s
  | AI_Portable q, Result_Receipt r =>
      bool_decide (pi_kind q = EXPORT) && export_result_ok q r
  | AI_Portable q, Result_Service s =>
      bool_decide (pi_kind q = IMPORT) && import_result_ok q s
  | AI_Portable q, Result_Tombstone t =>
      bool_decide (pi_kind q = PURGE) && bool_decide (pt_principal_id t = pi_principal_id q)
      && (pt_service_id t =? pi_service_id q)%N
  | _, _ => false
  end.

Definition make_completed_registry (i : RegistryAuthorityIntent) (r : AuthorityResult)
  : result AuthorityError CompletedRegistryClaim :=
  deny (bool_decide (ai_phase i <> COMPLETED)) A_ClaimPhase ;;
  deny (negb (completion_ok i r)) A_Result ;;
  Ok {| cr_intent := i; cr_result := r |}.

Record TombstonedRegistryClaim := {
  tc_idempotency_key : pystr;
  tc_fingerprint : pystr;
  tc_operation_kind : pystr;
  tc_service_id : UUID
}.

Inductive RegistryAuthorityOutcome :=
| RA_Prepared (i : RegistryAuthorityIntent)
| RA_Completed (c : CompletedRegistryClaim)
| RA_RecoveryRequired (i : ActiveRegistryIntent)
| RA_Conflict
| RA_Stale
| RA_Unsupported
| RA_InProgress (i : ActiveRegistryIntent)
| RA_Collision (k : IdentityCollisionKind)
| RA_Tombstoned (t : TombstonedRegistryClaim).

(** ** [prepare_registry_intent] *)
Inductive RegistryAuthorityCommand :=
| AC_Operational (c : OperationalLifecycleCommand)
| AC_Portable (c : PortableCommand).

Definition prepare_registry_intent `{FloatRepr} (c : RegistryAuthorityCommand)
  : result AuthorityError RegistryAuthorityIntent :=
  match c with
  | AC_Operational c =>
      match prepare_operational_intent c with
      | Ok i => Ok (AI_Operational i)
      | Raise _ => Raise A_Command
      end
  | AC_Portable c => i ← portable_intent c; Ok (AI_Portable i)
  end.

(** ** Lemmas *)
Lemma portable_kind_str_inj k l : portable_kind_str k = portable_kind_str l -> k = l.
Proof. by destruct k, l. Qed.
Lemma backend_str_inj b c : backend_str b = backend_str c -> b = c.
Proof. by destruct b, c. Qed.
Lemma authority_str_inj b c : authority_str b = authority_str c -> b = c.
Proof. by destruct b, c. Qed.

(** The parts of a command that are values with constructors of their own. *)
Definition command_parts_ok (c : PortableCommand) : bool :=
  match c with
  | ExportCommand _ => true
  | ImportCommand _ _ ident _ _ _ => is_ok (make_identity ident)
  | PurgeCommand _ a => is_ok (make_purge_authority a)
  end.

(** What an export, import or purge asks for, the retry key aside. *)
Definition same_portable_request (c d : PortableCommand) : Prop :=
  match c, d with
  | ExportCommand f, ExportCommand g =>
      op_principal_id f = op_principal_id g /\ op_created_via f = op_created_via g
      /\ op_service_id f = op_service_id g
      /\ op_expected_service_revision f = op_expected_service_revision g
  | ImportCommand p v i b r _, ImportCommand p' v' i' b' r' _ =>
      p = p' /\ v = v' /\ b = b' /\ r = r' /\ i = i'
  | PurgeCommand f a, PurgeCommand g b =>
      op_principal_id f = op_principal_id g /\ op_created_via f = op_created_via g
      /\ op_service_id f = op_service_id g
      /\ op_expected_service_revision f = op_expected_service_revision g /\ a = b
  | _, _ => False
  end.

Definition uuid_ok (u : UUID) : bool := (u <? 2 ^ 128)%N.

(** Unicode text, 128-bit ids, and the checks of the command's constructors. *)
Definition portable_wf (c : PortableCommand) : bool :=
  json_wf (canonical_portable_payload c) && is_ok (make_portable_command c) && command_parts_ok c
  && match c with
     | ExportCommand f => uuid_ok (op_service_id f)
     | ImportCommand _ _ i _ _ _ => uuid_ok (im_service_id i)
     | PurgeCommand f a => uuid_ok (op_service_id f) && in_opt uuid_ok (pa_receipt_id a)
     end.

Lemma readable_uuid u v : uuid_ok u = true -> uuid_ok v = true ->
  same_json (jstr (uuid_str u)) (jstr (uuid_str v)) -> u = v.
Proof. intros Hu%N.ltb_lt Hv%N.ltb_lt Heq%readable_str. by apply uuid_str_inj. Qed.

(** Documents with different numbers of members differ. *)
Lemma different_length xs ys : length xs <> length ys -> ~ same_json (JObj xs) (JObj ys).
Proof.
  intros Hne Hs. apply Hne. unfold same_json in Hs. cbn [sort_keys] in Hs. injection Hs as Hs.
  apply (f_equal length) in Hs. by rewrite !length_sorted_by, !length_map in Hs.
Qed.

Ltac impossible_length := intros Hs; apply different_length in Hs; [done|by cbn].

Lemma purge_payload_inj f a g b :
  portable_wf (PurgeCommand f a) = true -> portable_wf (PurgeCommand g b) = true ->
  same_json (canonical_portable_payload (PurgeCommand f a)) (canonical_portable_payload (PurgeCommand g b)) ->
  same_portable_request (PurgeCommand f a) (PurgeCommand g b).
Proof.
  unfold portable_wf. intros [_ [Hu Hr]%andb_true_iff]%andb_true_iff [_ [Hv Hq]%andb_true_iff]%andb_true_iff.
  destruct a as [ka [ra|]], b as [kb [rb|]]; cbn [pa_receipt_id pa_kind in_opt] in *;
    unfold canonical_portable_payload, portable_members; cbn [app pa_receipt_id pa_kind];
    try impossible_length.
  - members. split_and!; try (by apply readable_str); try (by apply readable_int); try (by apply readable_uuid).
    f_equal; [by apply authority_str_inj, readable_str|f_equal; by apply readable_uuid].
  - members. split_and!; try (by apply readable_str); try (by apply readable_int); try (by apply readable_uuid).
    f_equal. by apply authority_str_inj, readable_str.
Qed.

Lemma import_owner p v i b r k :
  is_ok (make_portable_command (ImportCommand p v i b r k)) = true -> im_principal_id i = p.
Proof.
  intros [d Hd]%is_ok_spec. apply unit_then in Hd as [Hd _].
  apply unit_then in Hd as [_ Hd]. apply unit_then in Hd as [_ Hd].
  apply unit_then in Hd as [Hd _]. by apply raise_if_Ok, bool_decide_eq_false, dec_stable in Hd.
Qed.

Lemma import_payload_inj p v i b r k p' v' i' b' r' k' :
  portable_wf (ImportCommand p v i b r k) = true -> portable_wf (ImportCommand p' v' i' b' r' k') = true ->
  same_json (canonical_portable_payload (ImportCommand p v i b r k))
            (canonical_portable_payload (ImportCommand p' v' i' b' r' k')) ->
  same_portable_request (ImportCommand p v i b r k) (ImportCommand p' v' i' b' r' k').
Proof.
  unfold portable_wf. intros [[[_ Hc]%andb_true_iff _]%andb_true_iff Hu]%andb_true_iff.
  intros [[[_ Hc']%andb_true_iff _]%andb_true_iff Hv]%andb_true_iff.
  apply import_owner in Hc, Hc'. destruct i as [ip iu idom il], i' as [ip' iu' idom' il'].
  unfold canonical_portable_payload, portable_members.
  cbn [app im_principal_id im_service_id im_domain_name im_logical_namespace] in *. subst.
  members. split_and!; try (by apply readable_str).
  - by apply backend_str_inj, readable_str.
  - f_equal; first [by apply readable_str|by apply readable_uuid].
Qed.

Lemma portable_payload_inj c d :
  portable_wf c = true -> portable_wf d = true ->
  same_json (canonical_portable_payload c) (canonical_portable_payload d) -> same_portable_request c d.
Proof.
  intros Hc Hd. destruct c as [f|p v i b r k|f a], d as [g|p' v' i' b' r' k'|g a'];
    try (unfold canonical_portable_payload, portable_members; cbn [app]; impossible_length);
    try (unfold canonical_portable_payload, portable_members; cbn [app];
         first [ destruct (pa_receipt_id a) | destruct (pa_receipt_id a') ]; impossible_length).
  - unfold portable_wf in Hc, Hd. apply andb_true_iff in Hc as [_ Hu], Hd as [_ Hv].
    unfold canonical_portable_payload, portable_members. cbn [app]. members.
    split_and!; try (by apply readable_str); try (by apply readable_int). by apply readable_uuid.
  - by apply import_payload_inj.
  - by apply purge_payload_inj.
Qed.

(** ** The intent of a command *)
Definition portable_command_valid (c : PortableCommand) : bool :=
  is_ok (make_portable_command c) && command_parts_ok c.

Lemma make_portable_command_Ok c : portable_command_valid c = true -> make_portable_command c = Ok c.
Proof.
  unfold portable_command_valid, make_portable_command. intros [H _]%andb_true_iff.
  apply is_ok_spec in H as [d Hd]. rewrite Hd. by apply unit_then in Hd as [_ [= <-]].
Qed.

Lemma validate_common_spec f :
  validate_common f = Ok tt
  <-> valid_text (op_principal_id f) MAX_PRINCIPAL_LENGTH = true
      /\ valid_text (op_created_via f) MAX_CREATED_VIA_LENGTH = true
      /\ op_service_id f <> 0%N
      /\ 1 <= op_expected_service_revision f < MAX_SERVICE_REVISION
      /\ valid_text (op_idempotency_key f) MAX_IDEMPOTENCY_KEY_LENGTH = true.
Proof.
  unfold validate_common, validate_principal, validate_created_via, validate_service_id,
    validate_idempotency_key.
  rewrite !raise_if_then, raise_if_Ok. bools. intuition lia.
Qed.

(** The evidence a command is admitted with. *)
Definition portable_evidence `{FloatRepr} (c : PortableCommand) (p : LifecyclePhase) : PortableIntent :=
  let service f authority :=
    {| pi_kind := portable_kind c; pi_phase := p;
       pi_principal_id := op_principal_id f; pi_created_via := op_created_via f;
       pi_service_id := op_service_id f;
       pi_expected_service_revision := Some (op_expected_service_revision f);
       pi_idempotency_key := op_idempotency_key f; pi_fingerprint := portable_fingerprint c;
       pi_identity := None; pi_bundle_root_sha256 := None; pi_destination_backend := None;
       pi_purge_authority := authority |} in
  match c with
  | ExportCommand f => service f None
  | PurgeCommand f authority => service f (Some authority)
  | ImportCommand principal via ident destination root key =>
      {| pi_kind := IMPORT; pi_phase := p; pi_principal_id := principal;
         pi_created_via := via; pi_service_id := im_service_id ident;
         pi_expected_service_revision := None; pi_idempotency_key := key;
         pi_fingerprint := portable_fingerprint c; pi_identity := Some ident;
         pi_bundle_root_sha256 := Some root; pi_destination_backend := Some destination;
         pi_purge_authority := None |}
  end.

Section intents.
Context `{FloatRepr}.

Lemma command_of_evidence c p :
  portable_command_valid c = true ->
  portable_command_for_intent (portable_evidence c p) = Ok c.
Proof.
  intros Hc. apply make_portable_command_Ok in Hc.
  destruct c as [f|pr v i b r k|f a]; cbn; unfold service_fields; cbn;
    first [by destruct f|done].
Qed.

Lemma intent_from_checks i c :
  validate_principal (pi_principal_id i) = Ok tt -> validate_created_via (pi_created_via i) = Ok tt ->
  validate_service_id (pi_service_id i) = Ok tt ->
  validate_idempotency_key (pi_idempotency_key i) = Ok tt -> portable_shape i = Ok tt ->
  portable_command_for_intent i = Ok c -> pi_fingerprint i = portable_fingerprint c ->
  make_portable_intent i = Ok i.
Proof.
  intros H1 H2 H3 H4 H5 H6 H7. unfold make_portable_intent.
  rewrite H1, H2, H3, H4, H5, H6. cbn [mbind result_bind].
  assert (validate_sha256 (pi_fingerprint i) = Ok tt) as ->
    by (apply raise_if_Ok, negb_false_iff; rewrite H7; apply sha256_hex_valid).
  cbn [mbind result_bind]. rewrite bool_decide_false; [done|]. by intros ?.
Qed.

Lemma make_evidence c p :
  portable_command_valid c = true ->
  make_portable_intent (portable_evidence c p) = Ok (portable_evidence c p).
Proof.
  intros Hc. apply (intent_from_checks _ c); try (by apply command_of_evidence);
    [..|by destruct c].
  all: unfold portable_command_valid in Hc; apply andb_true_iff in Hc as [Hm Hp];
    apply is_ok_spec in Hm as [d [Hm _]%unit_then];
    destruct c as [f|pr v i b r k|f a]; cbn in Hp |- *;
    try (apply validate_common_spec in Hm as (H1 & H2 & H3 & H4 & H5);
         apply raise_if_Ok; bools; done || lia).
  - by apply unit_then in Hm as [? _].
  - apply unit_then in Hm as [_ Hm]. by apply unit_then in Hm as [? _].
  - apply is_ok_spec in Hp as [j Hp]. apply unit_then in Hp as [_ Hp]. by apply unit_then in Hp as [? _].
  - do 4 (apply unit_then in Hm as [_ Hm]). done.
  - apply validate_common_spec in Hm as (_ & _ & _ & Hr & _).
    apply raise_if_then. split; [|done]. bools. lia.
  - apply unit_then in Hm as [_ Hm]. apply unit_then in Hm as [_ Hm].
    apply unit_then in Hm as [Hown Hm]. apply unit_then in Hm as [Hroot _].
    apply raise_if_Ok, bool_decide_eq_false, dec_stable in Hown.
    apply raise_if_then. split; [|done]. bools. split_and!; try done. by intros ?.
  - apply validate_common_spec in Hm as (_ & _ & _ & Hr & _).
    apply raise_if_then. split; [|done]. bools. lia.
Qed.
End intents.

(** ** Properties *)

(** Preparing an export, import or purge always succeeds on a command whose
    constructors accepted it, the evidence denotes that command again, and its
    phase changes once, without touching anything else. *)
Theorem portable_intent_roundtrip `{FloatRepr} (c : PortableCommand) (p q : LifecyclePhase)
    (j : PortableIntent) :
  portable_command_valid c = true ->
  portable_intent c = Ok (portable_evidence c PREPARED)
  /\ portable_command_for_intent (portable_evidence c p) = Ok c
  /\ (portable_with_phase (portable_evidence c p) q = Ok j
      <-> p = PREPARED /\ q <> PREPARED /\ j = portable_evidence c q).
Proof.
  intros Hc. split; [by apply (make_evidence c PREPARED)|]. split; [by apply command_of_evidence|].
  unfold portable_with_phase. rewrite raise_if_then.
  assert (set_phase (portable_evidence c p) q = portable_evidence c q) as -> by (by destruct c).
  assert (pi_phase (portable_evidence c p) = p) as -> by (by destruct c).
  rewrite make_evidence by done. rewrite orb_false_iff, !bool_decide_eq_false. split.
  - intros [[Hp%dec_stable Hq] [= <-]]. done.
  - intros (-> & Hq & ->). split; [|done]. split; [by intros ?|done].
Qed.

Lemma portable_intent_roundtrip_witness :
  let c := PurgeCommand sample_operation {| pa_kind := EXPLICIT_OVERRIDE; pa_receipt_id := None |} in
  @portable_command_for_intent (@portable_evidence datum_float_repr c PREPARED) = Ok c.
Proof.
  intros c.
  apply (@portable_intent_roundtrip datum_float_repr c PREPARED COMPLETED
           (@portable_evidence datum_float_repr c COMPLETED)).
  by vm_compute.
Defined.

(** The fingerprint of an export, import or purge binds the whole request:
    two commands with the same one are of the same kind and ask for the same
    thing, or their canonical texts are a collision of SHA-256. *)
Theorem portable_fingerprint_binds `{FloatRepr} (c d : PortableCommand) :
  portable_wf c = true -> portable_wf d = true -> portable_fingerprint c = portable_fingerprint d ->
  same_portable_request c d
  \/ (json_dumps (canonical_portable_payload c) <> json_dumps (canonical_portable_payload d)
      /\ sha256_hex (json_dumps (canonical_portable_payload c))
         = sha256_hex (json_dumps (canonical_portable_payload d))).
Proof.
  intros Hc Hd Heq.
  assert (forall x, portable_wf x = true -> json_wf (canonical_portable_payload x) = true) as Hwf.
  { unfold portable_wf. intros x Hx. by do 3 (apply andb_true_iff in Hx as [Hx _]). }
  destruct (decide (json_dumps (canonical_portable_payload c) = json_dumps (canonical_portable_payload d)))
    as [Ht|Ht].
  - left. apply portable_payload_inj; [done..|]. by apply json_dumps_inj; [apply Hwf..|].
  - right. split; [done|]. unfold portable_fingerprint in Heq.
    by rewrite !utf8_ascii in Heq by (by apply json_dumps_ascii, Hwf).
Qed.

Lemma portable_fingerprint_binds_witness :
  let c := ExportCommand sample_operation in
  same_portable_request c c
  \/ (@json_dumps datum_float_repr (canonical_portable_payload c)
        <> @json_dumps datum_float_repr (canonical_portable_payload c)
      /\ sha256_hex (@json_dumps datum_float_repr (canonical_portable_payload c))
         = sha256_hex (@json_dumps datum_float_repr (canonical_portable_payload c))).
Proof. intros c. apply (@portable_fingerprint_binds datum_float_repr c c); by vm_compute. Defined.
