(* ===== verification/Txn.v ===== *)
(** * Txn: computations over a store that may raise

    A transaction reads and updates a store and returns a value or raises; the
    updates made before an exception stay in the store until the caller rolls
    back.  Two ways of reasoning: inversion of a run that returned, and
    [respects], a preorder between the stores before and after, which holds
    whether the run returned or raised. *)
From S2P Require Export Prelude.

Definition txn (S E A : Type) : Type := S -> result E A * S.

#[export] Instance txn_ret {S E} : MRet (txn S E) := fun A a s => (Ok a, s).
#[export] Instance txn_bind {S E} : MBind (txn S E) := fun A B f m s =>
  match m s with
  | (Ok a, s') => f a s'
  | (Raise e, s') => (Raise e, s')
  end.

Section operations.
Context {S E : Type}.

Definition ret {A} (a : A) : txn S E A := fun s => (Ok a, s).
Definition raise {A} (e : E) : txn S E A := fun s => (Raise e, s).
Definition reading {A} (f : S -> A) : txn S E A := fun s => (Ok (f s), s).
Definition writing (f : S -> S) : txn S E unit := fun s => (Ok tt, f s).
Definition raise_when (b : bool) (e : E) : txn S E unit := if b then raise e else ret tt.
Definition lift {F A} (e : E) (m : result F A) : txn S E A :=
  match m with Ok a => ret a | Raise _ => raise e end.
(** [try: m except Exception: h]. *)
Definition catch {A} (m : txn S E A) (h : txn S E A) : txn S E A := fun s =>
  match m s with (Raise _, s') => h s' | x => x end.

(** ** Runs that return *)
Lemma bind_returns {A B} (m : txn S E A) (f : A -> txn S E B) s b s' :
  (m ≫= f) s = (Ok b, s') <-> exists a s1, m s = (Ok a, s1) /\ f a s1 = (Ok b, s').
Proof.
  unfold mbind, txn_bind. destruct (m s) as [[a|e] s1].
  - split; [by eauto|]. by intros (a' & s1' & [= <- <-] & Hf).
  - split; [done|]. by intros (a' & s1' & [=] & _).
Qed.

Lemma ret_returns {A} (a : A) s b s' : ret a s = (Ok b, s') <-> b = a /\ s' = s.
Proof. unfold ret. naive_solver. Qed.

Lemma reading_returns {A} (f : S -> A) s b s' : reading f s = (Ok b, s') <-> b = f s /\ s' = s.
Proof. unfold reading. naive_solver. Qed.

Lemma writing_returns (f : S -> S) s u s' : writing f s = (Ok u, s') <-> s' = f s.
Proof. unfold writing. destruct u. naive_solver. Qed.

Lemma raise_when_returns b e s u s' : raise_when b e s = (Ok u, s') <-> b = false /\ s' = s.
Proof. unfold raise_when, raise, ret. destruct b, u; naive_solver. Qed.

Lemma lift_returns {F A} e (m : result F A) s a s' : lift e m s = (Ok a, s') <-> m = Ok a /\ s' = s.
Proof. unfold lift, raise, ret. destruct m; naive_solver. Qed.

(** Guards in front of a computation. *)
Lemma raise_when_bind {A} b e (m : txn S E A) s :
  (raise_when b e ;; m) s = if b then (Raise e, s) else m s.
Proof. by destruct b. Qed.

Lemma reading_bind {A B} (f : S -> A) (m : A -> txn S E B) s : (reading f ≫= m) s = m (f s) s.
Proof. done. Qed.

Lemma bind_run {A B} (m : txn S E A) (f : A -> txn S E B) s a s' : m s = (Ok a, s') -> (m ≫= f) s = f a s'.
Proof. unfold mbind, txn_bind. by intros ->. Qed.

Lemma bind_nested {A B C} (m : txn S E A) (f : A -> txn S E B) (g : B -> txn S E C) s :
  ((m ≫= f) ≫= g) s = (m ≫= fun a => f a ≫= g) s.
Proof. unfold mbind, txn_bind. by destruct (m s) as [[a|e] s']. Qed.

(** ** What every run does to the store *)
Section respects.
Context (R : relation S) `{!PreOrder R}.

Definition respects {A} (m : txn S E A) : Prop := forall s, R s (m s).2.

Lemma respects_bind {A B} (m : txn S E A) (f : A -> txn S E B) :
  respects m -> (forall a, respects (f a)) -> respects (m ≫= f).
Proof.
  intros Hm Hf s. specialize (Hm s). unfold mbind, txn_bind.
  destruct (m s) as [[a|e] s1]; cbn in *; [|done]. etrans; [done|apply Hf].
Qed.

Lemma respects_ret {A} (a : A) : respects (ret a).
Proof. by intros s. Qed.
Lemma respects_raise {A} e : respects (A := A) (raise e).
Proof. by intros s. Qed.
Lemma respects_reading {A} (f : S -> A) : respects (reading f).
Proof. by intros s. Qed.
Lemma respects_writing f : (forall s, R s (f s)) -> respects (writing f).
Proof. by intros H s. Qed.
Lemma respects_raise_when b e : respects (raise_when b e).
Proof. by destruct b; intros s. Qed.
Lemma respects_lift {F A} e (m : result F A) : respects (lift e m).
Proof. by destruct m; intros s. Qed.
Lemma respects_catch {A} (m h : txn S E A) : respects m -> respects h -> respects (catch m h).
Proof.
  intros Hm Hh s. specialize (Hm s). unfold catch.
  destruct (m s) as [[a|e] s1]; cbn in *; [done|]. etrans; [done|apply Hh].
Qed.

Lemma respects_returns {A} (m : txn S E A) s a s' : respects m -> m s = (Ok a, s') -> R s s'.
Proof. intros Hm Heq. specialize (Hm s). by rewrite Heq in Hm. Qed.
End respects.
End operations.

Arguments respects {S E} R {A} m : assert.

Create HintDb txn discriminated.
#[export] Hint Resolve respects_ret respects_raise respects_reading respects_raise_when
  respects_lift : txn.
#[export] Hint Extern 0 (PreOrder _) => typeclasses eauto : txn.

(** Inversion of a run that returned: one equation per statement. *)
Ltac returns :=
  repeat match goal with
  | H : (_ ≫= _) _ = (Ok _, _) |- _ => apply bind_returns in H as (? & ? & ? & H)
  | H : ret _ _ = (Ok _, _) |- _ => apply ret_returns in H as [? ?]; simplify_eq
  | H : reading _ _ = (Ok _, _) |- _ => apply reading_returns in H as [-> ->]
  | H : writing _ _ = (Ok _, _) |- _ => apply writing_returns in H as ->
  | H : raise_when _ _ _ = (Ok _, _) |- _ => apply raise_when_returns in H as [H ->]
  | H : lift _ _ _ = (Ok _, _) |- _ => apply lift_returns in H as [H ->]
  | H : raise _ _ = (Ok _, _) |- _ => discriminate H
  end.

(** A preorder on stores holds of a computation when it holds of its parts. *)
Ltac respectful :=
  repeat first
    [ solve [eauto 2 with txn nocore]
    | match goal with
      | |- respects _ (mbind _ _) => apply respects_bind; [typeclasses eauto| |intros ?]
      | |- respects _ (catch _ _) => apply respects_catch; [typeclasses eauto| |]
      | |- respects _ (match ?x with _ => _ end) => destruct x
      | |- respects _ (let _ := _ in _) => cbv zeta
      end ].
