(* ===== verification/Prog.v ===== *)
(** * Prog: programs that talk to an environment

    A program asks a query, gets an answer or an exception, and goes on.  The
    environment is not modelled: a run is a program with the list of the answers
    it got, and a property of all runs holds against every environment. *)
From S2P Require Export Prelude.

Section prog.
Context {Q : Type -> Type} {E : Type}.

Inductive prog (A : Type) : Type :=
| Done (r : result E A)
| Ask {X : Type} (q : Q X) (k : result E X -> prog A).
Arguments Done {A} r.
Arguments Ask {A X} q k.

(** [try: p], then go on with the value or the exception. *)
Fixpoint try_with {A B} (p : prog A) (k : result E A -> prog B) : prog B :=
  match p with
  | Done r => k r
  | Ask q c => Ask q (fun r => try_with (c r) k)
  end.

Definition give {A} (a : A) : prog A := Done (Ok a).
Definition throw {A} (e : E) : prog A := Done (Raise e).
Definition ask {X} (q : Q X) : prog X := Ask q Done.
(** [try: p except Exception as e: h e]. *)
Definition handle {A} (p : prog A) (h : E -> prog A) : prog A :=
  try_with p (fun r => match r with Ok a => give a | Raise e => h e end).

#[global] Instance prog_ret : MRet prog := fun A a => give a.
#[global] Instance prog_bind : MBind prog := fun A B f p =>
  try_with p (fun r => match r with Ok a => f a | Raise e => throw e end).

(** ** Runs *)
Inductive event : Type :=
| Event {X : Type} (q : Q X) (r : result E X).

Fixpoint runs {A} (p : prog A) (tr : list event) (a : result E A) : Prop :=
  match p with
  | Done r => tr = [] /\ a = r
  | Ask q k => exists r tr', tr = Event q r :: tr' /\ runs (k r) tr' a
  end.

(** Every run against an environment whose answers satisfy [ok]. *)
Context (ok : event -> Prop).

Definition ensures {A} (p : prog A) (P : list event -> result E A -> Prop) : Prop :=
  forall tr r, runs p tr r -> Forall ok tr -> P tr r.

Lemma ensures_done {A} (r : result E A) (P : list event -> result E A -> Prop) :
  P [] r -> ensures (Done r) P.
Proof. by intros H tr r' [-> ->] _. Qed.

Lemma ensures_try {A B} (p : prog A) (k : result E A -> prog B) (P : list event -> result E B -> Prop) :
  ensures p (fun t1 r => ensures (k r) (fun t2 x => P (t1 ++ t2) x)) -> ensures (try_with p k) P.
Proof.
  revert P. induction p as [r|X q c IH]; intros P Hp; cbn [try_with].
  - by apply (Hp [] r).
  - intros tr x (r & tr' & -> & Hrun) [Hq Hok]%Forall_cons.
    apply (IH r (fun tr' x => P (Event q r :: tr') x)); [|done..].
    intros t1 y Ht1 Hok1. apply (Hp (Event q r :: t1) y); [|by constructor]. exists r, t1. done.
Qed.

Lemma ensures_mono {A} (p : prog A) (P P' : list event -> result E A -> Prop) :
  (forall tr r, P tr r -> P' tr r) -> ensures p P -> ensures p P'.
Proof. intros HP Hp tr r Hr Hok. by apply HP, Hp. Qed.

Lemma ensures_ask {X} (q : Q X) (P : list event -> result E X -> Prop) :
  (forall r, ok (Event q r) -> P [Event q r] r) -> ensures (ask q) P.
Proof. intros H tr x (r & tr' & -> & -> & ->) [Hq _]%Forall_cons. by apply H. Qed.
(** ** Playing a program against one environment

    The environment answers each query from the conversation so far. *)
Context (env : list event -> forall {X}, Q X -> result E X).

Fixpoint play {A} (h : list event) (p : prog A) : list event * result E A :=
  match p with
  | Done r => ([], r)
  | Ask q k =>
      let r := env h _ q in
      let '(tr, x) := play (h ++ [Event q r]) (k r) in
      (Event q r :: tr, x)
  end.

Lemma play_runs {A} (p : prog A) h : runs p (play h p).1 (play h p).2.
Proof.
  revert h. induction p as [r|X q k IH]; intros h; cbn; [done|].
  specialize (IH (env h _ q) (h ++ [Event q (env h _ q)])).
  destruct (play _ _) as [tr x]. cbn in *. by exists (env h _ q), tr.
Qed.

Lemma play_ok {A} (p : prog A) h :
  (forall h X (q : Q X), ok (Event q (env h _ q))) -> Forall ok (play h p).1.
Proof.
  intros Henv. revert h. induction p as [r|X q k IH]; intros h; cbn; [constructor|].
  specialize (IH (env h _ q) (h ++ [Event q (env h _ q)])).
  destruct (play _ _) as [tr x]. by constructor.
Qed.
(** ** Runs served by a collaborator with a state

    [serves s e s']: in state [s] the collaborator may take part in [e], which
    leads to [s'].  [leads p s P]: however the runs of [p] from [s] are served,
    [P] holds of the result and of the state they end in. *)
Context {S : Type} (serves : S -> event -> S -> Prop).

Fixpoint served (s : S) (tr : list event) (s' : S) : Prop :=
  match tr with
  | [] => s' = s
  | e :: tr' => exists s1, serves s e s1 /\ served s1 tr' s'
  end.

Definition leads {A} (p : prog A) (s : S) (P : result E A -> S -> Prop) : Prop :=
  forall tr x s', runs p tr x -> served s tr s' -> P x s'.

Lemma leads_done {A} (x : result E A) s (P : result E A -> S -> Prop) : P x s -> leads (Done x) s P.
Proof. intros HP tr y s' [-> ->] Hs. by cbn in Hs; subst. Qed.

Lemma leads_try {A B} (p : prog A) (k : result E A -> prog B) s P :
  leads p s (fun x s1 => leads (k x) s1 P) -> leads (try_with p k) s P.
Proof.
  revert s. induction p as [r|X q c IH]; intros s Hp; cbn [try_with].
  - by apply (Hp [] r s).
  - intros tr y s' (x & tr' & -> & Hrun) (s1 & He & Hs).
    apply (IH x s1) with (tr := tr'); [|done..]. intros t z s2 Hz Hs2.
    apply (Hp (Event q x :: t)); [by exists x, t|by exists s1].
Qed.

Lemma leads_ask {X} (q : Q X) s (P : result E X -> S -> Prop) :
  (forall x s', serves s (Event q x) s' -> P x s') -> leads (ask q) s P.
Proof. intros HP tr x s' (y & tr' & -> & -> & ->) (s1 & He & Hs). cbn in Hs. subst. by apply HP. Qed.

Lemma leads_mono {A} (p : prog A) s (P P' : result E A -> S -> Prop) :
  (forall x s', P x s' -> P' x s') -> leads p s P -> leads p s P'.
Proof. intros HP Hp tr x s' Hr Hs. by apply HP, (Hp tr). Qed.

Lemma leads_bind {A B} (p : prog A) (f : A -> prog B) s P :
  leads p s (fun x s1 => match x with Ok a => leads (f a) s1 P | Raise e => P (Raise e) s1 end) ->
  leads (p ≫= f) s P.
Proof.
  intros Hp. apply leads_try. eapply leads_mono; [|exact Hp]. intros [a|e] s1 Hx; [done|by apply leads_done].
Qed.

Lemma leads_handle {A} (p : prog A) h s P :
  leads p s (fun x s1 => match x with Ok a => P (Ok a) s1 | Raise e => leads (h e) s1 P end) ->
  leads (handle p h) s P.
Proof.
  intros Hp. apply leads_try. eapply leads_mono; [|exact Hp]. intros [a|e] s1 Hx; [by apply leads_done|done].
Qed.
End prog.

Arguments prog Q E A : clear implicits.
Arguments event Q E : clear implicits.
Arguments Done {Q E A} r.
Arguments Ask {Q E A X} q k.
Arguments Event {Q E X} q r.
