(* ===== verification/Codecs.v ===== *)
(** * Codecs: the validation of durable registry values

    [storage/codecs.py] and [storage/registry_authority_codecs.py]: what a value
    must satisfy to be written to the registry and again when it is read back.
    The registry tables of [RegistryState] hold typed values, so a codec is here
    its validation: what encoding refuses and what decoding checks again. *)
From S2P Require Import Prelude Values Json Manifest Relational Lifecycle Operational Models.
From S2P Require Import Authority Samples.

Lemma ascii_range_scalar c : ((32 <=? c) && (c <=? 126))%N = true -> unicode_scalar c = true.
Proof. unfold unicode_scalar. intros Hc. bools. lia. Qed.

(** [str.isprintable], one character at a time: Python's Unicode tables are not
    part of the program, only that visible ASCII and the space are printable, and
    that lone surrogates are not, is used. *)
Class UnicodeData := {
  isprintable : N -> bool;
  isprintable_ascii : forall c, (32 <= c <= 126)%N -> isprintable c = true;
  isprintable_scalar : forall c, isprintable c = true -> unicode_scalar c = true
}.

#[export] Instance ascii_printable : UnicodeData := {
  isprintable := fun c => ((32 <=? c) && (c <=? 126))%N;
  isprintable_ascii := fun c H => proj2 (andb_true_iff _ _) (conj (proj2 (N.leb_le _ _) (proj1 H))
                                                               (proj2 (N.leb_le _ _) (proj2 H)));
  isprintable_scalar := ascii_range_scalar
}.

Section codecs.
Context `{PublicModels} `{UnicodeData}.

(** [_text], [_domain]. *)
Definition text (value : pystr) (maximum : nat) : bool :=
  bool_decide (value <> []) && bool_decide (value = strip value)
  && (length value <=? maximum)%nat && forallb isprintable value.

Definition domain (value : pystr) : bool := text value 63 && identifier value.

(** [validate_service]. *)
Definition validate_service (s : Service) : bool :=
  negb (sv_service_id s =? 0)%N
  && text (sv_principal_id s) 128
  && domain (sv_domain_name s)
  && text (sv_domain_class s) 64
  && text (sv_intent_description s) 1000
  && ((sv_created_at s <=? sv_updated_at s) && (sv_updated_at s <=? sv_last_activity_at s))
  && Bool.eqb (is_some (sv_manifest s)) (is_some (sv_schema_version s))
  && in_opt (fun m => is_ok (model_validate (model_dump m))
                      && bool_decide (sv_schema_version s = Some (schema_version m))) (sv_manifest s)
  && in_opt (fun v => (1 <=? v) && (v <=? 65)) (sv_schema_version s)
  && ((1 <=? sv_service_revision s) && (sv_service_revision s <=? 2 ^ 63 - 1))
  && Bool.eqb (is_some (sv_materialised_at s)) (is_some (sv_storage s))
  && in_opt (fun t => (sv_created_at s <=? t) && (t <=? sv_updated_at s)) (sv_materialised_at s)
  && in_opt (fun st => text (backend_str (backend st)) 10 && text (namespace st) 36
                       && bool_decide (namespace st = service_namespace (sv_service_id s)))
       (sv_storage s)
  && match sv_design_state s with
     | SEEDED => negb (is_some (sv_materialised_at s) || is_some (sv_storage s))
     | MATERIALISED => is_some (sv_manifest s) && is_some (sv_materialised_at s)
                       && is_some (sv_storage s)
     end.

(** The public revision-1 values [decode_r1_service] admits, as
    [decode_legacy_result] rebuilds them. *)
Definition r1_service (s : Service) : bool :=
  validate_service s
  && (sv_service_revision s =? 1)
  && bool_decide (sv_materialised_at s = None) && bool_decide (sv_storage s = None)
  && bool_decide (sv_design_state s = SEEDED) && bool_decide (sv_operational_status s = ACTIVE)
  && (sv_updated_at s =? sv_last_activity_at s) && (sv_created_at s <=? sv_updated_at s)
  && match sv_manifest s with
     | None => sv_created_at s =? sv_updated_at s
     | Some m => bool_decide (sv_schema_version s = Some 1) && (schema_version m =? 1)
                 && match migration_history m with [] => true | _ => false end
     end.

(** [decode_registry_authority_result]: the result is one of the three values,
    built again by its constructor. *)
Definition authority_result_valid (r : AuthorityResult) : bool :=
  match r with
  | Result_Service s => validate_service s
  | Result_Receipt t => is_ok (make_receipt t)
  | Result_Tombstone t => is_ok (make_purge_authority (pt_authority t)) && is_ok (make_tombstone t)
  end.
End codecs.

(** [decode_registry_authority_intent]: the constructors run again. *)
Definition decode_authority_intent `{FloatRepr} (i : RegistryAuthorityIntent)
  : result AuthorityError RegistryAuthorityIntent :=
  match i with
  | AI_Operational o =>
      match make_operational_intent o with Ok o' => Ok (AI_Operational o') | Raise _ => Raise A_Command end
  | AI_Portable q =>
      match pi_identity q with Some ident => make_identity ident ;; Ok tt | None => Ok tt end ;;
      match pi_purge_authority q with Some a => make_purge_authority a ;; Ok tt | None => Ok tt end ;;
      q' ← make_portable_intent q; Ok (AI_Portable q')
  end.

(** ** Lemmas *)
Section lemmas.
Context `{PublicModels} `{UnicodeData}.

(** The texts of a service, beyond its constructor's invariant. *)
Definition ServiceTexts (s : Service) : Prop :=
  text (sv_principal_id s) 128 = true /\ domain (sv_domain_name s) = true
  /\ text (sv_domain_class s) 64 = true /\ text (sv_intent_description s) 1000 = true.

Lemma identifier_plain s c : identifier s = true -> c ∈ s -> is_ident_char c = true.
Proof.
  destruct s as [|a s]; [done|]. cbn. intros Hs Hc. bools. destruct Hs as [[Ha Hs] _].
  rewrite forallb_forall in Hs. apply elem_of_cons in Hc as [->|Hc].
  - unfold is_ident_char. by rewrite Ha.
  - by apply Hs, list_elem_of_In.
Qed.

Lemma plain_text s maximum :
  s <> [] -> (length s <= maximum)%nat -> (forall c, c ∈ s -> (33 <= c <= 126)%N) -> text s maximum = true.
Proof.
  intros Hne Hlen Hc. unfold text. bools. split_and!; [done| |done|].
  - assert (forall t, (forall c, c ∈ t -> (33 <= c <= 126)%N) -> lstrip_by py_isspace t = t) as Hl.
    { intros [|a t] Ht; [done|]. cbn. replace (py_isspace a) with false; [done|].
      specialize (Ht a (list_elem_of_here _ _)). unfold py_isspace. symmetry. bools. lia. }
    unfold strip, strip_by. rewrite (Hl s Hc), Hl, reverse_involutive; [done|].
    intros c Hcr. by apply Hc, elem_of_reverse.
  - apply forallb_forall. intros c Hin. apply isprintable_ascii.
    apply list_elem_of_In, Hc in Hin. lia.
Qed.

Lemma namespace_text u : text (service_namespace u) 36 = true.
Proof.
  pose proof (service_namespace_pattern u) as Hp. unfold namespace_pattern in Hp. bools.
  destruct Hp as [[Ht Hl] Hh]. apply plain_text; [by destruct (service_namespace u)|lia|].
  intros c Hc. rewrite <- (take_drop 4 (service_namespace u)), Ht in Hc.
  apply elem_of_app in Hc as [Hc|Hc].
  - vm_compute in Hc. repeat (apply elem_of_cons in Hc as [->|Hc]; [lia|]). by apply elem_of_nil in Hc.
  - rewrite forallb_forall in Hh. apply list_elem_of_In, Hh in Hc.
    unfold is_hex_digit, is_digit in Hc. bools. lia.
Qed.

Lemma backend_text b : text (backend_str b) 10 = true.
Proof.
  apply plain_text; [by destruct b|destruct b; vm_compute; lia|].
  intros c Hc. destruct b; vm_compute in Hc;
    repeat (apply elem_of_cons in Hc as [->|Hc]; [lia|]); by apply elem_of_nil in Hc.
Qed.

Lemma model_valid m : is_ok (model_validate (model_dump m)) = true <-> ManifestWF m.
Proof.
  rewrite is_ok_spec, model_roundtrip. setoid_rewrite unit_then. split.
  - by intros (m' & Hm%validate_manifest_spec & _).
  - intros Hm. exists m. split; [by apply validate_manifest_spec|done].
Qed.

Lemma pairing {A B} (x : option A) (y : option B) :
  Bool.eqb (is_some x) (is_some y) = true <-> (is_Some x <-> is_Some y).
Proof.
  destruct x, y; cbn; rewrite ?is_Some_alt; cbn; naive_solver.
Qed.

Lemma in_opt_spec {A} (p : A -> bool) o : in_opt p o = true <-> forall a, o = Some a -> p a = true.
Proof. destruct o; cbn; naive_solver. Qed.

Lemma is_some_spec {A} (o : option A) : is_some o = true <-> is_Some o.
Proof. destruct o; rewrite is_Some_alt; cbn; naive_solver. Qed.

#[local] Opaque text domain.

Lemma validate_service_spec s : validate_service s = true <-> ServiceWF s /\ ServiceTexts s.
Proof.
  unfold validate_service. rewrite !andb_true_iff, !in_opt_spec, !pairing. setoid_rewrite andb_true_iff.
  setoid_rewrite andb_true_iff. setoid_rewrite model_valid. setoid_rewrite bool_decide_eq_true.
  split.
  - intros (((((((((((((Hid & Hp) & Hd) & Hc) & Hi) & Ht) & Hms) & Hm) & Hv) & Hr) & Hmat) & Hmt) & Hst) & Hds).
    bools. split; [|done]. split; try done; try lia.
    + intros Hn. destruct (sv_schema_version s) as [v|] eqn:E; [|done].
      destruct Hms as [_ Hms]. rewrite Hn in Hms. by destruct (Hms (mk_is_Some _ _ eq_refl)).
    + intros t Et. specialize (Hmt t Et). bools. lia.
    + intros st Est. by apply Hst.
    + destruct (sv_design_state s).
      * apply negb_true_iff, orb_false_iff in Hds as [? ?].
        by destruct (sv_materialised_at s), (sv_storage s).
      * apply andb_true_iff in Hds as [Hds ?]. apply andb_true_iff in Hds as [? ?].
        by rewrite <- !is_some_spec.
  - intros [[Hid Ht Hr Hm Hs Hmt Hst Hd] (Hp & Hdom & Hc & Hi)]. bools.
    unfold MAX_SERVICE_REVISION in Hr.
    split_and!; try done; try lia.
    + destruct (sv_manifest s) as [m|]; [by destruct (Hm m eq_refl) as [_ ->]|by rewrite Hs].
    + intros v Ev. destruct (sv_manifest s) as [m|]; [|by rewrite Hs in Ev].
      destruct (Hm m eq_refl) as [Hwf Ev']. rewrite Ev in Ev'. injection Ev' as ->.
      pose proof (mwf_fields _ Hwf) as Hf. unfold manifest_fields in Hf. bools. lia.
    + destruct (sv_design_state s); [by destruct Hd as [-> ->]|by destruct Hd as (_ & [? ->] & [? ->])].
    + intros t Et. destruct (Hmt t Et). bools. lia.
    + intros st Est. rewrite (Hst st Est). split_and!; [apply backend_text|apply namespace_text|done].
    + destruct (sv_design_state s); [by destruct Hd as [-> ->]|].
      destruct Hd as ([? ->] & [? ->] & [? ->]). done.
Qed.
End lemmas.
