(* ===== verification/RegistryState.v ===== *)
(** * RegistryState: the registry tables and their statements

    The five tables the registry unit of work reads and writes ([R4_DDL] of
    [storage/sqlite/migrations.py]), and one transaction per SQL statement of
    [storage/sqlite/uow.py].  Columns hold the typed values their codecs encode;
    primary keys are map keys; a [CHECK], a unique index or a foreign key is a
    check of the statements that could violate it, and a violation raises.
    Texts are those SQLite binds and measures by characters: Unicode scalar
    values without NUL; times have four-digit years. *)
From S2P Require Export Txn.
From S2P Require Import Prelude Values Json Manifest Relational Lifecycle Operational Models Authority Codecs.

(** ** Errors of the storage boundary *)
Inductive StorageError := StorageMigrationError | StorageBusy | StorageUnavailable.

#[export] Instance StorageError_eq_dec : EqDecision StorageError.
Proof. solve_decision. Defined.

(** ** Rows *)

(** The [operation_kind] column. *)
Inductive OperationKind :=
| OK_NonLifecycle (k : CompletedNonLifecycleKind)
| OK_Lifecycle (k : LifecycleKind)
| OK_Operational (k : OperationalLifecycleKind)
| OK_Portable (k : PortableOperationKind).

Inductive ClaimPhase := Live (p : LifecyclePhase) | TOMBSTONED.

#[export] Instance CompletedNonLifecycleKind_eq_dec : EqDecision CompletedNonLifecycleKind.
Proof. solve_decision. Defined.
#[export] Instance OperationKind_eq_dec : EqDecision OperationKind.
Proof. solve_decision. Defined.
#[export] Instance ClaimPhase_eq_dec : EqDecision ClaimPhase.
Proof. solve_decision. Defined.

(** The [intent_json] column.  Lifecycle evidence carries neither the phase nor
    the key: their columns are the authority, and the key of [f] is ignored. *)
Inductive Evidence :=
| Ev_None
| Ev_Lifecycle (k : LifecycleKind) (f : RequestFields) (target : ManifestV2)
| Ev_Authority (i : RegistryAuthorityIntent).

(** A row of ["aipcs_registry_claim"], without its key.  The [created_via] column
    repeats the evidence and [recovery_category] repeats the phase.  Services
    are stored bare for the older kinds and in a typed envelope for the others:
    the kind tells which. *)
Record Claim := {
  cm_fingerprint : pystr;
  cm_service_id : UUID;
  cm_kind : OperationKind;
  cm_phase : ClaimPhase;
  cm_evidence : Evidence;
  cm_result : option AuthorityResult
}.

Inductive IdentityState := LIVE | IMPORT_PREPARED | ID_TOMBSTONED.
#[export] Instance IdentityState_eq_dec : EqDecision IdentityState.
Proof. solve_decision. Defined.

(** A row of ["aipcs_registry_identity"]. *)
Record Identity := {
  id_principal : pystr;
  id_state : IdentityState;
  id_domain : option pystr;
  id_backend : option Backend;
  id_namespace : pystr;
  id_claim_key : option pystr;
  id_lifecycle_at : option datetime
}.

(** A row of ["aipcs_registry_receipt"]: the receipt and the key of its claim. *)
Record ReceiptRow := { rc_receipt : TransferReceipt; rc_key : pystr }.

(** The tables. [audits] is in the order of [audit_id]. *)
Record Registry := {
  services : gmap UUID Service;
  claims : gmap (pystr * pystr) Claim;
  identities : gmap UUID Identity;
  receipts : gmap UUID ReceiptRow;
  audits : list AuditEvent
}.

Definition empty_registry : Registry :=
  {| services := ∅; claims := ∅; identities := ∅; receipts := ∅; audits := [] |}.

(** ** Transactions: every exception is one error at the boundary *)
Abbreviation registry := (txn Registry StorageError).
Abbreviation fail := (raise StorageMigrationError).
Definition fail_if (b : bool) : registry unit := raise_when b StorageMigrationError.
Definition checked {E A} (m : result E A) : registry A := lift StorageMigrationError m.

Section respects.
Context (R : relation Registry) `{!PreOrder R}.

Lemma respects_fail_if b : respects R (fail_if b).
Proof. apply respects_raise_when, _. Qed.
Lemma respects_checked {E A} (m : result E A) : respects R (checked m).
Proof. apply respects_lift, _. Qed.
End respects.

#[export] Hint Resolve respects_fail_if respects_checked : txn.

(** ** Table updates *)
Definition set_services (f : gmap UUID Service -> gmap UUID Service) (r : Registry) : Registry :=
  {| services := f (services r); claims := claims r; identities := identities r;
     receipts := receipts r; audits := audits r |}.
Definition set_claims (f : gmap (pystr * pystr) Claim -> gmap (pystr * pystr) Claim) (r : Registry)
  : Registry :=
  {| services := services r; claims := f (claims r); identities := identities r;
     receipts := receipts r; audits := audits r |}.
Definition set_identities (f : gmap UUID Identity -> gmap UUID Identity) (r : Registry) : Registry :=
  {| services := services r; claims := claims r; identities := f (identities r);
     receipts := receipts r; audits := audits r |}.
Definition set_receipts (f : gmap UUID ReceiptRow -> gmap UUID ReceiptRow) (r : Registry) : Registry :=
  {| services := services r; claims := claims r; identities := identities r;
     receipts := f (receipts r); audits := audits r |}.
Definition set_audits (f : list AuditEvent -> list AuditEvent) (r : Registry) : Registry :=
  {| services := services r; claims := claims r; identities := identities r;
     receipts := receipts r; audits := f (audits r) |}.

(** ** Constraints *)

Definition text_column (s : pystr) (maximum : nat) : bool :=
  (1 <=? length s)%nat && (length s <=? maximum)%nat.

Definition non_lifecycle (k : OperationKind) : bool :=
  match k with OK_NonLifecycle _ => true | _ => false end.
Definition no_evidence (e : Evidence) : bool := match e with Ev_None => true | _ => false end.

(** The [CHECK] over the columns of a claim. *)
Definition claim_shape (c : Claim) : bool :=
  match cm_phase c with
  | TOMBSTONED =>
      negb (bool_decide (cm_kind c = OK_Portable PURGE)) && no_evidence (cm_evidence c)
      && negb (is_some (cm_result c))
  | Live PREPARED | Live PHASE_RECOVERY_REQUIRED =>
      negb (non_lifecycle (cm_kind c)) && negb (no_evidence (cm_evidence c))
      && negb (is_some (cm_result c))
  | Live COMPLETED =>
      Bool.eqb (non_lifecycle (cm_kind c)) (no_evidence (cm_evidence c)) && is_some (cm_result c)
  end.

Definition claim_columns (principal key : pystr) (c : Claim) : bool :=
  text_column principal 128 && text_column key 128 && valid_sha256 (cm_fingerprint c)
  && negb (cm_service_id c =? 0)%N && claim_shape c.

(** The phases of the partial unique index over active claims. *)
Definition active (c : Claim) : bool :=
  match cm_phase c with
  | Live PREPARED | Live PHASE_RECOVERY_REQUIRED => true
  | _ => false
  end.

Definition active_for (principal : pystr) (service_id : UUID) (kc : (pystr * pystr) * Claim) : bool :=
  bool_decide (kc.1.1 = principal) && (cm_service_id kc.2 =? service_id)%N && active kc.2.

(** The active claim of a service, as [SELECT ... LIMIT 1] finds it. *)
Definition active_claims (r : Registry) (principal : pystr) (service_id : UUID)
  : list ((pystr * pystr) * Claim) :=
  List.filter (active_for principal service_id) (map_to_list (claims r)).

(** [UNIQUE ("principal_id", "domain_name")] of the service table, for the row
    about to hold [domain] under [service_id]. *)
Definition domain_taken (r : Registry) (principal domain : pystr) (service_id : UUID) : bool :=
  existsb (fun '(k, s) => negb (k =? service_id)%N && bool_decide (sv_principal_id s = principal)
                          && bool_decide (sv_domain_name s = domain))
          (map_to_list (services r)).

(** The partial unique index over live and prepared identities. *)
Definition identity_domain_taken (r : Registry) (principal domain : pystr) (service_id : UUID) : bool :=
  existsb (fun '(k, i) => negb (k =? service_id)%N && bool_decide (id_principal i = principal)
                          && bool_decide (id_domain i = Some domain)
                          && bool_decide (id_state i <> ID_TOMBSTONED))
          (map_to_list (identities r)).

(** The [CHECK]s over the columns of an identity. *)
Definition identity_columns (service_id : UUID) (i : Identity) : bool :=
  negb (service_id =? 0)%N && text_column (id_principal i) 128
  && in_opt (fun d => text_column d 63) (id_domain i)
  && bool_decide (id_namespace i = service_namespace service_id)
  && in_opt (fun k => text_column k 128) (id_claim_key i)
  && match id_state i with
     | LIVE => is_some (id_domain i) && negb (is_some (id_claim_key i)) && negb (is_some (id_lifecycle_at i))
     | IMPORT_PREPARED => is_some (id_domain i) && is_some (id_backend i) && is_some (id_claim_key i)
                          && is_some (id_lifecycle_at i)
     | ID_TOMBSTONED => negb (is_some (id_domain i)) && negb (is_some (id_backend i))
                        && is_some (id_claim_key i) && is_some (id_lifecycle_at i)
     end.

(** Its foreign key into the claim table. *)
Definition claim_exists (r : Registry) (principal key : pystr) (service_id : UUID) : bool :=
  match claims r !! (principal, key) with
  | Some c => (cm_service_id c =? service_id)%N
  | None => false
  end.

(** The constraints on an identity row about to be written. *)
Definition identity_allowed (r : Registry) (service_id : UUID) (i : Identity) : bool :=
  identity_columns service_id i
  && in_opt (fun k => claim_exists r (id_principal i) k service_id) (id_claim_key i)
  && in_opt (fun d => bool_decide (id_state i = ID_TOMBSTONED)
                      || negb (identity_domain_taken r (id_principal i) d service_id)) (id_domain i).

(** The [CHECK]s over the columns of a receipt. *)
Definition receipt_columns (key : pystr) (t : TransferReceipt) : bool :=
  negb (tr_receipt_id t =? 0)%N && text_column (tr_principal_id t) 128 && text_column key 128
  && valid_sha256 (tr_bundle_root_sha256 t) && (tr_export_format_version t =? 1)
  && ((1 <=? tr_service_revision t) && (tr_service_revision t <=? MAX_SERVICE_REVISION)).

(** The [CHECK]s over the columns of an audit row. *)
Definition audit_columns (e : AuditEvent) : bool :=
  let action_in := existsb (fun a => bool_decide (ae_action e = lit a)) in
  let outcome_in := existsb (fun o => bool_decide (ae_outcome e = lit o)) in
  negb (ae_service_id e =? 0)%N && text_column (ae_principal_id e) 128
  && text_column (ae_created_via e) 64
  && ((action_in ["seed"%string] && outcome_in ["created"%string; "duplicate"%string])
      || (action_in ["design"%string] && outcome_in ["accepted"%string])
      || (action_in ["materialise"%string; "evolve"%string; "suspend"%string; "resume"%string;
                     "archive"%string; "restore"%string; "export"%string; "import"%string;
                     "purge"%string]
          && outcome_in ["completed"%string; "recovery_required"%string])).

(** ** Statements *)
Section statements.
Context `{PublicModels} `{UnicodeData}.

Definition select_claim (principal key : pystr) : registry (option Claim) :=
  reading (fun r => claims r !! (principal, key)).

(** [INSERT INTO "aipcs_registry_claim"]. *)
Definition insert_claim (principal key : pystr) (c : Claim) : registry unit :=
  fail_if (negb (claim_columns principal key c)) ;;
  r ← reading id;
  fail_if (is_some (claims r !! (principal, key))) ;;
  fail_if (active c && negb (bool_decide (active_claims r principal (cm_service_id c) = []))) ;;
  writing (set_claims (fun m => <[(principal, key) := c]> m)).

(** [UPDATE "aipcs_registry_claim" ... WHERE principal, key, fingerprint AND
    phase = 'prepared'], which must change one row. *)
Definition update_prepared (principal key fingerprint : pystr) (p : LifecyclePhase) (e : option Evidence)
    (result : option AuthorityResult) : registry unit :=
  row ← select_claim principal key;
  match row with
  | Some c =>
      let c' := {| cm_fingerprint := cm_fingerprint c; cm_service_id := cm_service_id c;
                   cm_kind := cm_kind c; cm_phase := Live p;
                   cm_evidence := match e with Some e => e | None => cm_evidence c end;
                   cm_result := match result with Some x => Some x | None => cm_result c end |} in
      fail_if (bool_decide (cm_fingerprint c <> fingerprint)
               || bool_decide (cm_phase c <> Live PREPARED)) ;;
      fail_if (negb (claim_shape c')) ;;
      writing (set_claims (fun m => <[(principal, key) := c']> m))
  | None => fail
  end.

(** [UPDATE "aipcs_registry_claim" SET "phase"='tombstoned', ...] over the other
    claims of a service. *)
Definition is_other_claim (principal : pystr) (service_id : UUID) (key : pystr)
    (k : pystr * pystr) (c : Claim) : bool :=
  bool_decide (k.1 = principal) && (cm_service_id c =? service_id)%N && negb (bool_decide (k.2 = key)).

Definition tombstone_claim (c : Claim) : Claim :=
  {| cm_fingerprint := cm_fingerprint c; cm_service_id := cm_service_id c; cm_kind := cm_kind c;
     cm_phase := TOMBSTONED; cm_evidence := Ev_None; cm_result := None |}.

Definition tombstone_others (principal : pystr) (service_id : UUID) (key : pystr)
    (k : pystr * pystr) (c : Claim) : option Claim :=
  Some (if is_other_claim principal service_id key k c then tombstone_claim c else c).

Definition tombstone_claims (principal : pystr) (service_id : UUID) (key : pystr) : registry unit :=
  r ← reading id;
  fail_if (negb (forallb (fun '(k, c) => negb (is_other_claim principal service_id key k c)
                                         || claim_shape (tombstone_claim c))
                   (map_to_list (claims r)))) ;;
  writing (set_claims (map_imap (tombstone_others principal service_id key))).

(** [decode_service] of the row [SELECT] finds, if any. *)
Definition select_service (principal : pystr) (service_id : UUID) : registry (option Service) :=
  r ← reading id;
  match services r !! service_id with
  | Some s =>
      if bool_decide (sv_principal_id s = principal)
      then fail_if (negb (validate_service s)) ;; ret (Some s)
      else ret None
  | None => ret None
  end.

(** [INSERT INTO "aipcs_registry_service"] of [encode_service_values]. *)
Definition insert_service (s : Service) : registry unit :=
  fail_if (negb (validate_service s)) ;;
  r ← reading id;
  fail_if (is_some (services r !! sv_service_id s)) ;;
  fail_if (domain_taken r (sv_principal_id s) (sv_domain_name s) (sv_service_id s)) ;;
  writing (set_services (fun m => <[sv_service_id s := s]> m)).

(** [UPDATE "aipcs_registry_service" ... WHERE service, principal and revision]:
    whether a row changed. *)
Definition update_service (s : Service) (expected : Z) : registry bool :=
  fail_if (negb (validate_service s)) ;;
  r ← reading id;
  match services r !! sv_service_id s with
  | Some old =>
      if bool_decide (sv_principal_id old = sv_principal_id s) && (sv_service_revision old =? expected)
      then fail_if (domain_taken r (sv_principal_id s) (sv_domain_name s) (sv_service_id s)) ;;
           writing (set_services (fun m => <[sv_service_id s := s]> m)) ;;
           ret true
      else ret false
  | None => ret false
  end.

(** [DELETE FROM "aipcs_registry_service" WHERE principal and service], one row. *)
Definition delete_service (principal : pystr) (service_id : UUID) : registry unit :=
  r ← reading id;
  match services r !! service_id with
  | Some s =>
      fail_if (bool_decide (sv_principal_id s <> principal)) ;;
      writing (set_services (delete service_id))
  | None => fail
  end.

(** [INSERT INTO "aipcs_registry_identity"]. *)
Definition insert_identity (service_id : UUID) (i : Identity) : registry unit :=
  r ← reading id;
  fail_if (is_some (identities r !! service_id)) ;;
  fail_if (negb (identity_allowed r service_id i)) ;;
  writing (set_identities (fun m => <[service_id := i]> m)).

(** [UPDATE "aipcs_registry_identity" ... WHERE service, principal and state],
    which must change one row. *)
Definition update_identity (service_id : UUID) (principal : pystr)
    (selects : Identity -> bool) (f : Identity -> Identity) : registry unit :=
  r ← reading id;
  match identities r !! service_id with
  | Some i =>
      fail_if (negb (bool_decide (id_principal i = principal) && selects i)) ;;
      fail_if (negb (identity_allowed r service_id (f i))) ;;
      writing (set_identities (fun m => <[service_id := f i]> m))
  | None => fail
  end.

(** [INSERT INTO "aipcs_registry_receipt"]: primary key, one receipt per claim,
    and the foreign key into the claim table. *)
Definition insert_receipt (key : pystr) (t : TransferReceipt) : registry unit :=
  fail_if (negb (receipt_columns key t)) ;;
  r ← reading id;
  fail_if (is_some (receipts r !! tr_receipt_id t)) ;;
  fail_if (existsb (fun '(_, x) => bool_decide (tr_principal_id (rc_receipt x) = tr_principal_id t)
                                   && bool_decide (rc_key x = key)) (map_to_list (receipts r))) ;;
  fail_if (negb (claim_exists r (tr_principal_id t) key (tr_service_id t))) ;;
  writing (set_receipts (fun m => <[tr_receipt_id t := {| rc_receipt := t; rc_key := key |}]> m)).

(** [DELETE FROM "aipcs_registry_receipt" WHERE principal and service]. *)
Definition delete_receipts (principal : pystr) (service_id : UUID) : registry unit :=
  writing (set_receipts (filter (fun '(_, x) =>
    ~ (tr_principal_id (rc_receipt x) = principal /\ tr_service_id (rc_receipt x) = service_id)))).

(** ** Audit retention: the newest thousand rows of each principal *)
Definition MAX_AUDITS : nat := 1000.

Definition audit_count (principal : pystr) (l : list AuditEvent) : nat :=
  length (List.filter (fun e => bool_decide (ae_principal_id e = principal)) l).

Fixpoint retain (principal : pystr) (l : list AuditEvent) : list AuditEvent :=
  match l with
  | [] => []
  | e :: l' =>
      if bool_decide (ae_principal_id e = principal) && (MAX_AUDITS <=? audit_count principal l')%nat
      then retain principal l' else e :: retain principal l'
  end.

(** [append]: the [INSERT] of an audit row, then the [DELETE] of the old ones. *)
Definition append_audit (e : AuditEvent) : registry unit :=
  fail_if (negb (audit_columns e)) ;;
  writing (set_audits (fun l => retain (ae_principal_id e) (l ++ [e]))).
End statements.

(** ** What each SQL statement of the registry does

    A statement is atomic: it raises and leaves the tables alone, or it returns
    and its effect is one update whose constraints held. *)

Lemma valid_text_column s n : valid_text s n = true -> text_column s n = true.
Proof. unfold valid_text, text_column. intros Ht. bools. destruct s; cbn in *; [naive_solver|lia]. Qed.

Definition atomic {A} (m : registry A) (r : Registry) (Q : A -> Registry -> Prop) : Prop :=
  m r = (Raise StorageMigrationError, r) \/ exists a r', m r = (Ok a, r') /\ Q a r'.

(** Case on the guards of a statement until it has raised or returned. *)
Lemma atomic_guard {A} b (m : registry A) r Q :
  (b = false -> atomic m r Q) -> atomic (fail_if b ;; m) r Q.
Proof.
  unfold atomic, fail_if. rewrite raise_when_bind. destruct b; [by left|]. intros H. by apply H.
Qed.

Lemma atomic_reading {A B} (f : Registry -> A) (m : A -> registry B) r Q :
  atomic (m (f r)) r Q -> atomic (reading f ≫= m) r Q.
Proof. done. Qed.

Lemma atomic_returns {A} (m : registry A) r a r' (Q : A -> Registry -> Prop) :
  m r = (Ok a, r') -> Q a r' -> atomic m r Q.
Proof. right; eauto. Qed.

Lemma atomic_fail {A} r Q : atomic (A := A) fail r Q.
Proof. by left. Qed.

Lemma atomic_run {A} (m : registry A) r a r' Q : atomic m r Q -> m r = (Ok a, r') -> Q a r'.
Proof. intros [H|(b & s & H & HQ)] E; rewrite H in E; [done|]. by injection E as -> ->. Qed.

Ltac guards :=
  repeat match goal with
  | |- atomic (mbind _ (fail_if _)) _ _ => apply atomic_guard; intros ?
  | |- atomic (mbind _ (reading _)) _ _ => apply atomic_reading; cbv beta; unfold id
  | |- atomic (raise _) _ _ => apply atomic_fail
  | |- atomic (match ?x with _ => _ end) _ _ => destruct x eqn:?
  end;
  try (eapply atomic_returns; [reflexivity|]);
  repeat match goal with H : negb _ = false |- _ => apply negb_false_iff in H end.

(** [bools], and double negations of decided equalities. *)
Ltac decided :=
  bools; repeat match goal with H : ~ (_ <> _) |- _ => apply dec_stable in H end.

Section statements.
Context `{PublicModels} `{UnicodeData}.

Lemma insert_claim_atomic p k c r :
  atomic (insert_claim p k c) r (fun _ r' =>
    r' = set_claims <[(p, k) := c]> r /\ claim_columns p k c = true /\ claims r !! (p, k) = None
    /\ (active c = true -> active_claims r p (cm_service_id c) = [])).
Proof.
  unfold insert_claim. guards. split_and!; try done.
  - by destruct (claims r !! (p, k)).
  - intros Ha. rewrite Ha in *. cbn in *. bools. done.
Qed.

(** The row [update_prepared] writes. *)
Definition updated_claim (c : Claim) (ph : LifecyclePhase) (e : option Evidence)
    (x : option AuthorityResult) : Claim :=
  {| cm_fingerprint := cm_fingerprint c; cm_service_id := cm_service_id c; cm_kind := cm_kind c;
     cm_phase := Live ph; cm_evidence := match e with Some e => e | None => cm_evidence c end;
     cm_result := match x with Some x => Some x | None => cm_result c end |}.

Lemma update_prepared_atomic p k fp ph e x r :
  atomic (update_prepared p k fp ph e x) r (fun _ r' =>
    exists c, claims r !! (p, k) = Some c /\ cm_fingerprint c = fp /\ cm_phase c = Live PREPARED
    /\ claim_shape (updated_claim c ph e x) = true
    /\ r' = set_claims <[(p, k) := updated_claim c ph e x]> r).
Proof.
  unfold update_prepared, select_claim. guards. decided. destruct_and?. decided. by exists c.
Qed.

Lemma tombstone_claims_atomic p u k r :
  atomic (tombstone_claims p u k) r (fun _ r' =>
    r' = set_claims (map_imap (tombstone_others p u k)) r
    /\ forall kk c, claims r !! kk = Some c -> is_other_claim p u k kk c = true ->
       claim_shape (tombstone_claim c) = true).
Proof.
  unfold tombstone_claims. guards. split; [done|]. intros kk c Hc Ho.
  rewrite forallb_forall in H1. specialize (H1 (kk, c)). cbn in H1. rewrite Ho in H1.
  by apply H1, list_elem_of_In, elem_of_map_to_list.
Qed.

Lemma select_service_atomic p u r :
  atomic (select_service p u) r (fun o r' => r' = r /\
    match o with
    | Some s => services r !! u = Some s /\ sv_principal_id s = p /\ validate_service s = true
    | None => forall s, services r !! u = Some s -> sv_principal_id s <> p
    end).
Proof. unfold select_service. guards; decided; naive_solver. Qed.

Lemma insert_service_atomic s r :
  atomic (insert_service s) r (fun _ r' =>
    r' = set_services <[sv_service_id s := s]> r /\ validate_service s = true
    /\ services r !! sv_service_id s = None
    /\ domain_taken r (sv_principal_id s) (sv_domain_name s) (sv_service_id s) = false).
Proof.
  unfold insert_service. guards. split_and!; try done. by destruct (services r !! _).
Qed.

Lemma update_service_atomic s e r :
  atomic (update_service s e) r (fun (saved : bool) r' =>
    validate_service s = true /\
    if saved
    then exists old, services r !! sv_service_id s = Some old
         /\ sv_principal_id old = sv_principal_id s /\ sv_service_revision old = e
         /\ domain_taken r (sv_principal_id s) (sv_domain_name s) (sv_service_id s) = false
         /\ r' = set_services <[sv_service_id s := s]> r
    else r' = r /\ forall old, services r !! sv_service_id s = Some old ->
         sv_principal_id old = sv_principal_id s -> sv_service_revision old <> e).
Proof. unfold update_service. guards; decided; naive_solver. Qed.

Lemma delete_service_atomic p u r :
  atomic (delete_service p u) r (fun _ r' =>
    exists s, services r !! u = Some s /\ sv_principal_id s = p /\ r' = set_services (delete u) r).
Proof. unfold delete_service. guards; decided; naive_solver. Qed.

Lemma insert_identity_atomic u i r :
  atomic (insert_identity u i) r (fun _ r' =>
    r' = set_identities <[u := i]> r /\ identities r !! u = None /\ identity_allowed r u i = true).
Proof. unfold insert_identity. guards. split_and!; try done. by destruct (identities r !! u). Qed.

Lemma update_identity_atomic u p sel f r :
  atomic (update_identity u p sel f) r (fun _ r' =>
    exists i, identities r !! u = Some i /\ id_principal i = p /\ sel i = true
    /\ identity_allowed r u (f i) = true /\ r' = set_identities <[u := f i]> r).
Proof. unfold update_identity. guards; decided; naive_solver. Qed.

Lemma insert_receipt_atomic k t r :
  atomic (insert_receipt k t) r (fun _ r' =>
    r' = set_receipts <[tr_receipt_id t := {| rc_receipt := t; rc_key := k |}]> r
    /\ receipt_columns k t = true /\ receipts r !! tr_receipt_id t = None
    /\ claim_exists r (tr_principal_id t) k (tr_service_id t) = true).
Proof. unfold insert_receipt. guards. split_and!; try done. by destruct (receipts r !! _). Qed.

Lemma delete_receipts_atomic p u r :
  atomic (delete_receipts p u) r (fun _ r' =>
    r' = set_receipts (filter (fun '(_, x) =>
      ~ (tr_principal_id (rc_receipt x) = p /\ tr_service_id (rc_receipt x) = u))) r).
Proof. unfold delete_receipts. guards. done. Qed.

Lemma append_audit_atomic e r :
  atomic (append_audit e) r (fun _ r' =>
    r' = set_audits (fun l => retain (ae_principal_id e) (l ++ [e])) r /\ audit_columns e = true).
Proof. unfold append_audit. guards. done. Qed.

(** A preorder holds of an atomic statement when it holds of its effect. *)
Lemma respects_atomic {A} (R : relation Registry) `{!PreOrder R} (m : registry A) (Q : Registry -> A -> Registry -> Prop) :
  (forall r, atomic m r (Q r)) -> (forall r a r', Q r a r' -> R r r') -> respects R m.
Proof.
  intros Ha HQ r. destruct (Ha r) as [->|(a & r' & -> & Hq)]; [done|]. by apply (HQ r a r').
Qed.
End statements.

(** Reduce what a statement respects to its effect on the tables. *)
Ltac effects :=
  intros;
  match goal with
  | |- respects _ (insert_claim _ _ _) => eapply respects_atomic; [apply _|apply insert_claim_atomic|]
  | |- respects _ (update_prepared _ _ _ _ _ _) => eapply respects_atomic; [apply _|apply update_prepared_atomic|]
  | |- respects _ (tombstone_claims _ _ _) => eapply respects_atomic; [apply _|apply tombstone_claims_atomic|]
  | |- respects _ (insert_service _) => eapply respects_atomic; [apply _|apply insert_service_atomic|]
  | |- respects _ (update_service _ _) => eapply respects_atomic; [apply _|apply update_service_atomic|]
  | |- respects _ (delete_service _ _) => eapply respects_atomic; [apply _|apply delete_service_atomic|]
  | |- respects _ (insert_identity _ _) => eapply respects_atomic; [apply _|apply insert_identity_atomic|]
  | |- respects _ (insert_receipt _ _) => eapply respects_atomic; [apply _|apply insert_receipt_atomic|]
  | |- respects _ (delete_receipts _ _) => eapply respects_atomic; [apply _|apply delete_receipts_atomic|]
  | |- respects _ (append_audit _) => eapply respects_atomic; [apply _|apply append_audit_atomic|]
  | |- respects _ _ => eapply respects_atomic; [apply _|apply update_identity_atomic|]
  end;
  intros r a r' Heffect; cbv beta in Heffect;
  repeat match goal with
  | H : _ /\ _ |- _ => destruct H
  | H : exists _, _ |- _ => destruct H
  | H : if ?b then _ else _ |- _ => destruct b
  end; subst.
