(* ===== verification/Transition.v ===== *)
(** * Transition: the additive transitions of [relational.py]

    [classify_transition] compares two manifests one version apart and returns
    the additions and metadata changes between them; [build_transition]
    re-derives the additions from the two compiled specifications and refuses a
    disagreement.  The loops that append to a shared list return the entries
    they append. *)
From S2P Require Import Prelude Values Graph Manifest Relational.

(** ** Additions and metadata changes *)
Record FieldAddition := { fa_entity : pystr; fa_field : RelationalField }.

Record RelationalAdditions := {
  add_entities : list RelationalEntity;
  add_fields : list FieldAddition;
  add_relationships : list RelationalRelationship;
  add_indices : list RelationalIndex
}.

Inductive MetadataChangeKind : Type :=
| EntityDescription | AttributeDescription | RetrievalGuidance | QueryPatterns
| DiscoveryFacets | RetrievalModeChange | AllowedValuesExpansion.

Record MetadataChange := {
  mc_kind : MetadataChangeKind;
  mc_entity : option pystr;
  mc_field : option pystr
}.

#[export] Instance FieldAddition_eq_dec : EqDecision FieldAddition.
Proof. solve_decision. Defined.
#[export] Instance RelationalAdditions_eq_dec : EqDecision RelationalAdditions.
Proof. solve_decision. Defined.
#[export] Instance MetadataChangeKind_eq_dec : EqDecision MetadataChangeKind.
Proof. solve_decision. Defined.
#[export] Instance MetadataChange_eq_dec : EqDecision MetadataChange.
Proof. solve_decision. Defined.

Definition metadata_kind_str (k : MetadataChangeKind) : pystr :=
  match k with
  | EntityDescription => lit "entity_description"
  | AttributeDescription => lit "attribute_description"
  | RetrievalGuidance => lit "retrieval_guidance"
  | QueryPatterns => lit "query_patterns"
  | DiscoveryFacets => lit "discovery_facets"
  | RetrievalModeChange => lit "retrieval_mode"
  | AllowedValuesExpansion => lit "allowed_values_expansion"
  end.

(** [FieldAddition.__post_init__] and [MetadataChange.__post_init__]. *)
Definition make_addition (a : FieldAddition) : result RelationalError FieldAddition :=
  require (identifier (fa_entity a)) ;; Ok a.

Definition opt_identifier (o : option pystr) : bool :=
  match o with Some s => identifier s | None => false end.

Definition metadata_shape (c : MetadataChange) : bool :=
  match mc_kind c with
  | RetrievalGuidance | QueryPatterns | DiscoveryFacets =>
      bool_decide (mc_entity c = None) && bool_decide (mc_field c = None)
  | EntityDescription => opt_identifier (mc_entity c) && bool_decide (mc_field c = None)
  | _ => opt_identifier (mc_entity c) && opt_identifier (mc_field c)
  end.

Definition make_change (k : MetadataChangeKind) (entity field : option pystr)
  : result RelationalError MetadataChange :=
  let c := {| mc_kind := k; mc_entity := entity; mc_field := field |} in
  require (metadata_shape c) ;; Ok c.

(** [if cond: changes.append(MetadataChange(...))]. *)
Definition change_if (cond : bool) (k : MetadataChangeKind) (entity field : option pystr)
  : result RelationalError (list MetadataChange) :=
  if cond then c ← make_change k entity field; Ok [c] else Ok [].

(** [_metadata_sort_key] and the order of its tuples. *)
Definition metadata_sort_key (c : MetadataChange) : pystr * pystr * pystr :=
  (metadata_kind_str (mc_kind c), default [] (mc_entity c), default [] (mc_field c)).

Definition key3_leb (a b : pystr * pystr * pystr) : bool :=
  if bool_decide (a.1.1 = b.1.1)
  then if bool_decide (a.1.2 = b.1.2) then str_leb a.2 b.2 else str_leb a.1.2 b.1.2
  else str_leb a.1.1 b.1.1.

Definition sorted_metadata (cs : list MetadataChange) : list MetadataChange :=
  sorted_by key3_leb metadata_sort_key cs.

(** ** Transitions *)
Record RelationalTransition := {
  tr_current : RelationalSpecification;
  tr_target : RelationalSpecification;
  tr_additions : RelationalAdditions;
  tr_metadata_changes : list MetadataChange
}.

(** [not (additions.entities or ... or metadata_changes)]. *)
Definition no_change (a : RelationalAdditions) (cs : list MetadataChange) : bool :=
  bool_decide (add_entities a = []) && bool_decide (add_fields a = [])
  && bool_decide (add_relationships a = []) && bool_decide (add_indices a = [])
  && bool_decide (cs = []).

(** The body of the loop of [_expected_additions] over the entity names. *)
Definition expected_fields (current target : list (pystr * RelationalEntity)) (name : pystr)
  : result RelationalError (list FieldAddition) :=
  source ← dict_index current name;
  destination ← dict_index target name;
  require (bool_decide (take (length (re_fields source)) (re_fields destination)
                        = re_fields source)) ;;
  mapR (fun f => require (negb (rf_required f || rf_primary_key f)) ;;
                 make_addition {| fa_entity := name; fa_field := f |})
       (drop (length (re_fields source)) (re_fields destination)).

(** [source_items[name] != target_items[name] for name in source_items]. *)
Definition same_items {A} `{EqDecision A} (source target : list (pystr * A)) (name : pystr)
  : result RelationalError unit :=
  x ← dict_index source name;
  y ← dict_index target name;
  require (bool_decide (x = y)).

(** [_expected_additions]. *)
Definition expected_additions (current target : RelationalSpecification)
  : result RelationalError RelationalAdditions :=
  let current_entities := dict_of re_name (rs_entities current) in
  let target_entities := dict_of re_name (rs_entities target) in
  require (subset_of (dict_keys current_entities) (dict_keys target_entities)) ;;
  let new_names := set_minus (dict_keys target_entities) (dict_keys current_entities) in
  fields ← mapR (expected_fields current_entities target_entities)
             (sorted_strs (dict_keys current_entities));
  let source_rels := dict_of rr_name (rs_relationships current) in
  let target_rels := dict_of rr_name (rs_relationships target) in
  require (subset_of (dict_keys source_rels) (dict_keys target_rels)) ;;
  mapR (same_items source_rels target_rels) (dict_keys source_rels) ;;
  added_rels ← mapR (dict_index target_rels)
                 (sorted_strs (set_minus (dict_keys target_rels) (dict_keys source_rels)));
  let rels := filter (fun r => rr_source_entity r ∈ new_names) added_rels in
  require (Z.of_nat (length rels)
           =? Z.of_nat (length target_rels) - Z.of_nat (length source_rels))%Z ;;
  let source_ixs := dict_of ri_name (rs_indices current) in
  let target_ixs := dict_of ri_name (rs_indices target) in
  require (subset_of (dict_keys source_ixs) (dict_keys target_ixs)) ;;
  mapR (same_items source_ixs target_ixs) (dict_keys source_ixs) ;;
  ents ← mapR (dict_index target_entities) (sorted_strs new_names);
  ixs ← mapR (dict_index target_ixs)
          (sorted_strs (set_minus (dict_keys target_ixs) (dict_keys source_ixs)));
  Ok {| add_entities := ents; add_fields := concat fields;
        add_relationships := rels; add_indices := ixs |}.

(** [RelationalTransition._build], called with the factory key. *)
Definition build_transition (current target : RelationalSpecification)
    (additions : RelationalAdditions) (metadata_changes : list MetadataChange)
  : result RelationalError RelationalTransition :=
  require (bool_decide (metadata_changes = sorted_metadata metadata_changes)
           && distinct metadata_changes
           && (rs_schema_version target =? rs_schema_version current + 1)%Z) ;;
  expected ← expected_additions current target;
  require (bool_decide (additions = expected)) ;;
  require (negb (no_change additions metadata_changes)) ;;
  Ok {| tr_current := current; tr_target := target;
        tr_additions := additions; tr_metadata_changes := metadata_changes |}.

(** ** Classification *)

(** [_history_is_one_entry_extension]. *)
Definition history_is_one_entry_extension (current target : ManifestV2)
  : result RelationalError bool :=
  if bool_decide (removelast (migration_history target) = migration_history current) then
    match last (migration_history target) with
    | None => Raise IndexError
    | Some h => Ok ((from_schema_version h =? schema_version current)
                    && (to_schema_version h =? schema_version target))
    end
  else Ok false.

(** [_classify_allowed_values]. *)
Definition classify_allowed_values (entity : pystr) (current target : AttributeDefinition)
  : result RelationalError (list MetadataChange) :=
  match attr_allowed_values current, attr_allowed_values target with
  | None, None => Ok []
  | Some source, Some dest =>
      if set_eq_by typed_eqb source dest then Ok []
      else if proper_subset_by typed_eqb source dest
      then c ← make_change AllowedValuesExpansion (Some entity) (Some (attr_name current)); Ok [c]
      else Raise RelationalContractError
  | _, _ => Raise RelationalContractError
  end.

(** [_classify_attribute_change]. *)
Definition classify_attribute_change (entity : pystr)
    (attributes : AttributeDefinition * AttributeDefinition)
  : result RelationalError (list MetadataChange) :=
  let '(current, target) := attributes in
  require (bool_decide (field_of current = field_of target)) ;;
  c1 ← change_if (bool_decide (attr_description current <> attr_description target))
         AttributeDescription (Some entity) (Some (attr_name current));
  c2 ← change_if (bool_decide (attr_retrieval_mode current <> attr_retrieval_mode target))
         RetrievalModeChange (Some entity) (Some (attr_name current));
  c3 ← classify_allowed_values entity current target;
  Ok (c1 ++ c2 ++ c3).

(** A field an existing entity may gain. *)
Definition classify_new_attribute (entity : pystr) (a : AttributeDefinition)
  : result RelationalError FieldAddition :=
  require (negb (attr_required a || attr_primary_key a)) ;;
  f ← make_field (field_of a);
  make_addition {| fa_entity := entity; fa_field := f |}.

(** The body of the loop of [classify_transition] over the current entity
    names: the changes and the additions it appends. *)
Definition classify_entity (current target : list (pystr * EntityDefinition)) (name : pystr)
  : result RelationalError (list MetadataChange * list FieldAddition) :=
  source ← dict_index current name;
  destination ← dict_index target name;
  d ← change_if (bool_decide (ent_description source <> ent_description destination))
        EntityDescription (Some (ent_name source)) None;
  let n := length (ent_attributes source) in
  require (n <=? length (ent_attributes destination))%nat ;;
  cs ← mapR (classify_attribute_change name)
         (combine (ent_attributes source) (take n (ent_attributes destination)));
  fs ← mapR (classify_new_attribute name) (drop n (ent_attributes destination));
  Ok (d ++ concat cs, fs).

(** [_classify_global_metadata]. *)
Definition classify_global_metadata (current target : ManifestV2)
  : result RelationalError (list MetadataChange) :=
  g ← change_if (bool_decide (retrieval_guidance current <> retrieval_guidance target))
        RetrievalGuidance None None;
  q ← change_if (bool_decide (query_patterns current <> query_patterns target))
        QueryPatterns None None;
  f ← change_if (bool_decide (map facet_definition (discovery_facets current)
                              <> map facet_definition (discovery_facets target)))
        DiscoveryFacets None None;
  Ok (g ++ q ++ f).

(** [_classify_relationships] and [_classify_indices]. *)
Definition classify_relationships (current target : ManifestV2) (new_entity_names : list pystr)
  : result RelationalError (list RelationalRelationship) :=
  let source := dict_of rel_name (relationships current) in
  let dest := dict_of rel_name (relationships target) in
  require (subset_of (dict_keys source) (dict_keys dest)) ;;
  mapR (same_items source dest) (dict_keys source) ;;
  mapR (fun name =>
          r ← dict_index dest name;
          require (bool_decide (ep_entity (rel_from r) ∈ new_entity_names)) ;;
          make_relationship (relationship_of r))
       (sorted_strs (set_minus (dict_keys dest) (dict_keys source))).

Definition classify_indices (current target : ManifestV2)
  : result RelationalError (list RelationalIndex) :=
  let source := dict_of idx_name (indices current) in
  let dest := dict_of idx_name (indices target) in
  require (subset_of (dict_keys source) (dict_keys dest)) ;;
  mapR (same_items source dest) (dict_keys source) ;;
  mapR (fun name => i ← dict_index dest name; make_index (index_of i))
       (sorted_strs (set_minus (dict_keys dest) (dict_keys source))).

(** [classify_transition] after the two manifests were detached. *)
Definition classify_detached (source destination : ManifestV2)
  : result RelationalError RelationalTransition :=
  require (schema_version destination =? schema_version source + 1) ;;
  extension ← history_is_one_entry_extension source destination;
  require extension ;;
  current_specification ← compile_checked_manifest source;
  target_specification ← compile_checked_manifest destination;
  let current_entities := dict_of ent_name (entities source) in
  let target_entities := dict_of ent_name (entities destination) in
  require (subset_of (dict_keys current_entities) (dict_keys target_entities)) ;;
  let new_entity_names := set_minus (dict_keys target_entities) (dict_keys current_entities) in
  let target_specification_entities := dict_of re_name (rs_entities target_specification) in
  per_entity ← mapR (classify_entity current_entities target_entities)
                 (sorted_strs (dict_keys current_entities));
  global ← classify_global_metadata source destination;
  new_relationships ← classify_relationships source destination new_entity_names;
  new_indices ← classify_indices source destination;
  new_entities ← mapR (dict_index target_specification_entities) (sorted_strs new_entity_names);
  let additions := {| add_entities := new_entities;
                      add_fields := concat (map snd per_entity);
                      add_relationships := new_relationships;
                      add_indices := new_indices |} in
  let metadata := sorted_metadata (concat (map fst per_entity) ++ global) in
  require (negb (no_change additions metadata)) ;;
  build_transition current_specification target_specification additions metadata.

Definition classify_transition `{PublicModels} (current target : ManifestV2)
  : result RelationalError RelationalTransition :=
  source ← detached_manifest current;
  destination ← detached_manifest target;
  classify_detached source destination.
