(* ===== verification/Registry.v ===== *)
(** * Registry: the operations of the registry unit of work

    [storage/sqlite/uow.py]: the repository methods of
    [SQLiteRegistryUnitOfWork], each one transaction over the tables of
    [RegistryState].  The exception of any branch is [fail]; the time a row
    records is an argument where the code reads the clock. *)
From S2P Require Export RegistryState.
From S2P Require Import Prelude Values Json Sha256 Manifest Relational Transition Lifecycle.
From S2P Require Import Operational Models Authority Codecs.

Inductive ServiceSaveResult := SAVED | STALE_REVISION.

#[export] Instance ServiceSaveResult_eq_dec : EqDecision ServiceSaveResult.
Proof. solve_decision. Defined.

(** ** Services *)
Section services.
Context `{PublicModels} `{UnicodeData}.

Definition decode_service (s : Service) : registry Service :=
  fail_if (negb (validate_service s)) ;; ret s.

Definition owned (r : Registry) (principal : pystr) : list Service :=
  List.filter (fun s => bool_decide (sv_principal_id s = principal)) (map snd (map_to_list (services r))).

Definition find_domain (principal domain_name : pystr) : registry (option Service) :=
  r ← reading id;
  match List.filter (fun s => bool_decide (sv_domain_name s = domain_name)) (owned r principal) with
  | [] => ret None
  | s :: _ => s ← decode_service s; ret (Some s)
  end.

Definition get (principal : pystr) (service_id : UUID) : registry (option Service) :=
  select_service principal service_id.

Definition count (principal : pystr) : registry Z :=
  reading (fun r => Z.of_nat (length (owned r principal))).

(** [ORDER BY "created_at" ASC, "service_id" ASC]: both texts have a fixed width,
    so they sort as the values they denote. *)
Definition created_order (a b : Z * UUID) : bool :=
  (a.1 <? b.1) || ((a.1 =? b.1) && (a.2 <=? b.2)%N).

(** [LIMIT]: a negative one is none. *)
Definition limit_rows {A} (limit : Z) (l : list A) : list A :=
  if limit <? 0 then l else take (Z.to_nat limit) l.

Fixpoint decode_services (l : list Service) : registry (list Service) :=
  match l with
  | [] => ret []
  | s :: l' => s ← decode_service s; l' ← decode_services l'; ret (s :: l')
  end.

(** [list]. *)
Definition list_services (principal : pystr) (limit : Z) : registry (list Service) :=
  r ← reading id;
  decode_services (limit_rows limit
    (sorted_by created_order (fun s => (sv_created_at s, sv_service_id s)) (owned r principal))).

Definition recovery_state (principal : pystr) (service_id : UUID) : registry RecoveryState :=
  r ← reading id;
  match active_claims r principal service_id with
  | [] => ret CLEAR
  | [(_, c)] =>
      match cm_phase c with
      | Live PREPARED => ret PENDING
      | Live PHASE_RECOVERY_REQUIRED => ret STATE_RECOVERY_REQUIRED
      | _ => fail
      end
  | _ => fail
  end.

Definition live_identity (s : Service) : Identity :=
  {| id_principal := sv_principal_id s; id_state := LIVE; id_domain := Some (sv_domain_name s);
     id_backend := option_map backend (sv_storage s);
     id_namespace := service_namespace (sv_service_id s);
     id_claim_key := None; id_lifecycle_at := None |}.

Definition insert_live_identity (s : Service) : registry unit :=
  insert_identity (sv_service_id s) (live_identity s).

Definition is_live (i : Identity) : bool := bool_decide (id_state i = LIVE).

Definition relabel (s : Service) (i : Identity) : Identity :=
  {| id_principal := id_principal i; id_state := id_state i; id_domain := Some (sv_domain_name s);
     id_backend := option_map backend (sv_storage s); id_namespace := id_namespace i;
     id_claim_key := id_claim_key i; id_lifecycle_at := id_lifecycle_at i |}.

Definition update_live_identity (s : Service) : registry unit :=
  update_identity (sv_service_id s) (sv_principal_id s) is_live (relabel s).

Definition add (s : Service) : registry unit := insert_service s ;; insert_live_identity s.

Definition save (s : Service) (expected : Z) : registry ServiceSaveResult :=
  fail_if (negb ((1 <=? expected) && (expected <? MAX_SERVICE_REVISION))
           || negb (sv_service_revision s =? expected + 1)) ;;
  saved ← update_service s expected;
  if (saved : bool) then update_live_identity s ;; ret SAVED else ret STALE_REVISION.

(** [decode_result] and [decode_legacy_result] of a [result_json]. *)
Definition decode_result (r1 : bool) (result : option AuthorityResult) (principal : pystr)
    (service_id : UUID) : registry Service :=
  match result with
  | Some (Result_Service s) =>
      fail_if (negb (if r1 then r1_service s else validate_service s)) ;;
      fail_if (bool_decide (sv_principal_id s <> principal) || negb (sv_service_id s =? service_id)%N) ;;
      ret s
  | _ => fail
  end.

Definition encode_result (s : Service) : registry AuthorityResult :=
  fail_if (negb (validate_service s)) ;; ret (Result_Service s).

(** ** Seed and design claims *)
Definition resolve_non_lifecycle (k : CompletedNonLifecycleKind) (principal key fp : pystr)
  : registry NonLifecycleRegistryOutcome :=
  fail_if (bool_decide (k = LEGACY)) ;;
  row ← select_claim principal key;
  match row with
  | None => ret NL_New
  | Some c =>
      if bool_decide (cm_fingerprint c <> fp) then ret NL_Conflict else
      match cm_kind c, cm_phase c with
      | OK_NonLifecycle stored, Live COMPLETED =>
          if bool_decide (stored = LEGACY) || bool_decide (stored = k) then
            s ← decode_result (bool_decide (stored = LEGACY)) (cm_result c) principal (cm_service_id c);
            claim ← checked (make_completed_non_lifecycle stored s);
            ret (NL_Completed claim)
          else ret NL_Conflict
      | _, _ => ret NL_Conflict
      end
  end.

Definition complete_non_lifecycle (k : CompletedNonLifecycleKind) (principal key fp : pystr)
    (s : Service) : registry unit :=
  fail_if (bool_decide (k = LEGACY) || bool_decide (sv_principal_id s <> principal)) ;;
  result ← encode_result s;
  insert_claim principal key
    {| cm_fingerprint := fp; cm_service_id := sv_service_id s; cm_kind := OK_NonLifecycle k;
       cm_phase := Live COMPLETED; cm_evidence := Ev_None; cm_result := Some result |}.
End services.

(** ** Lifecycle claims *)
Section lifecycle.
Context `{PublicModels} `{FloatRepr} `{UnicodeData}.

Definition with_key (f : RequestFields) (key : pystr) : RequestFields :=
  {| principal_id := principal_id f; created_via := created_via f; service_id := service_id f;
     expected_service_revision := expected_service_revision f;
     expected_schema_version := expected_schema_version f; idempotency_key := key |}.

(** [_decode_legacy_lifecycle_intent]. *)
Definition decode_lifecycle_row (principal key : pystr) (c : Claim) : registry LifecycleIntent :=
  match cm_kind c, cm_phase c, cm_evidence c with
  | OK_Lifecycle k, Live p, Ev_Lifecycle k' f target =>
      i ← checked (make_intent k' p (with_key f key) (cm_fingerprint c) target);
      fail_if (bool_decide (principal_id (fields i) <> principal)
               || negb (service_id (fields i) =? cm_service_id c)%N
               || bool_decide (kind i <> k)) ;;
      ret i
  | _, _, _ => fail
  end.

(** [_supported_lifecycle_state]. *)
Definition supported_lifecycle_state (s : Service) (command : LifecycleCommand) : bool :=
  bool_decide (sv_operational_status s = ACTIVE) && is_some (sv_manifest s)
  && match command with
     | MaterialiseCommand _ =>
         bool_decide (sv_design_state s = SEEDED) && bool_decide (sv_schema_version s = Some 1)
         && negb (is_some (sv_materialised_at s)) && negb (is_some (sv_storage s))
     | EvolveCommand _ _ =>
         bool_decide (sv_design_state s = MATERIALISED) && is_some (sv_materialised_at s)
         && is_some (sv_storage s)
     end.

(** The stored claim as the outcome its phase names. *)
Definition lifecycle_claim_outcome (i : LifecycleIntent) (c : Claim) : registry LifecycleRegistryOutcome :=
  match phase i with
  | PREPARED => ret (LR_Prepared i)
  | PHASE_RECOVERY_REQUIRED => ret (LR_RecoveryRequired i)
  | COMPLETED =>
      s ← decode_result false (cm_result c) (principal_id (fields i)) (service_id (fields i));
      claim ← checked (make_completed_lifecycle i s);
      ret (LR_Completed claim)
  end.

(** [_existing_lifecycle_claim]. *)
Definition existing_lifecycle_claim (principal key : pystr) (c : Claim) (command : LifecycleCommand)
    (fp : pystr) : registry LifecycleRegistryOutcome :=
  if bool_decide (cm_fingerprint c <> fp)
     || bool_decide (cm_kind c <> OK_Lifecycle (command_kind command))
  then ret LR_Conflict
  else i ← decode_lifecycle_row principal key c; lifecycle_claim_outcome i c.

(** [_insert_prepared]. *)
Definition insert_prepared (i : LifecycleIntent) : registry unit :=
  insert_claim (principal_id (fields i)) (idempotency_key (fields i))
    {| cm_fingerprint := fingerprint i; cm_service_id := service_id (fields i);
       cm_kind := OK_Lifecycle (kind i); cm_phase := Live PREPARED;
       cm_evidence := Ev_Lifecycle (kind i) (fields i) (target_manifest i); cm_result := None |}.

(** The manifest a command leads to, if the relational compiler supports it. *)
Definition relational_target (s : Service) (command : LifecycleCommand)
  : registry (result RelationalError ManifestV2) :=
  match command, sv_manifest s with
  | MaterialiseCommand _, Some m => ret (_ ← compile_manifest m; Ok m)
  | EvolveCommand _ target, Some m => ret (_ ← classify_transition m target; Ok target)
  | _, None => fail
  end.

(** A service no other operation holds: the claim that holds it, if any. *)
Definition lifecycle_blocker (principal : pystr) (service_id : UUID)
  : registry (option LifecycleRegistryOutcome) :=
  r ← reading id;
  match active_claims r principal service_id with
  | [] => ret None
  | ((p, k), c) :: _ =>
      match cm_kind c with
      | OK_Lifecycle _ =>
          i ← decode_lifecycle_row p k c;
          ret (Some (if bool_decide (phase i = PHASE_RECOVERY_REQUIRED)
                     then LR_RecoveryRequired i else LR_InProgress))
      | _ => ret (Some LR_InProgress)
      end
  end.

(** The guards of [resolve_or_admit] on the service, in order. *)
Definition lifecycle_refusal (s : Service) (command : LifecycleCommand) : option LifecycleRegistryOutcome :=
  let f := command_fields command in
  if negb (sv_service_revision s =? expected_service_revision f)
     || bool_decide (sv_schema_version s <> Some (expected_schema_version f)) then Some LR_Stale
  else if negb (supported_lifecycle_state s command) then Some LR_Unsupported
  else if MAX_SERVICE_REVISION <=? sv_service_revision s then Some LR_Unsupported
  else None.

Definition resolve_or_admit (command : LifecycleCommand) : registry LifecycleRegistryOutcome :=
  let f := command_fields command in
  let fp := lifecycle_fingerprint command in
  row ← select_claim (principal_id f) (idempotency_key f);
  match row with
  | Some c => existing_lifecycle_claim (principal_id f) (idempotency_key f) c command fp
  | None =>
      s ← select_service (principal_id f) (service_id f);
      match s with
      | None => ret LR_Stale
      | Some s =>
          match lifecycle_refusal s command with
          | Some refusal => ret refusal
          | None =>
              blocker ← lifecycle_blocker (principal_id f) (service_id f);
              match blocker with
              | Some blocker => ret blocker
              | None =>
                  target ← relational_target s command;
                  match target with
                  | Raise _ => ret LR_Unsupported
                  | Ok target =>
                      i ← checked (prepare_intent command target);
                      insert_prepared i ;;
                      ret (LR_Prepared i)
                  end
              end
          end
      end
  end.

(** [_terminal_or_prepared]. *)
Definition terminal_or_prepared (i : LifecycleIntent) : registry LifecycleRegistryOutcome :=
  fail_if (bool_decide (phase i <> PREPARED)) ;;
  row ← select_claim (principal_id (fields i)) (idempotency_key (fields i));
  match row with
  | None => fail
  | Some c =>
      fail_if (bool_decide (cm_fingerprint c <> fingerprint i)) ;;
      stored ← decode_lifecycle_row (principal_id (fields i)) (idempotency_key (fields i)) c;
      fail_if (bool_decide (kind stored <> kind i)) ;;
      fail_if (bool_decide (phase stored = PREPARED) && bool_decide (stored <> i)) ;;
      lifecycle_claim_outcome stored c
  end.

Definition completion_intent (c : LifecycleCompletion) : LifecycleIntent :=
  match c with MaterialiseCompletion i _ _ | EvolveCompletion i _ => i end.
Definition completion_at (c : LifecycleCompletion) : datetime :=
  match c with MaterialiseCompletion _ t _ | EvolveCompletion _ t => t end.

(** [_finalization_preconditions]. *)
Definition finalization_preconditions (s : Service) (c : LifecycleCompletion) : bool :=
  let i := completion_intent c in
  bool_decide (sv_principal_id s = principal_id (fields i))
  && (sv_service_id s =? service_id (fields i))%N
  && bool_decide (sv_operational_status s = ACTIVE)
  && (sv_service_revision s =? expected_service_revision (fields i))
  && bool_decide (sv_schema_version s = Some (expected_schema_version (fields i)))
  && is_some (sv_manifest s) && (sv_updated_at s <=? completion_at c)
  && match c with
     | MaterialiseCompletion _ _ _ =>
         bool_decide (sv_design_state s = SEEDED) && bool_decide (sv_manifest s = Some (target_manifest i))
         && bool_decide (sv_schema_version s = Some 1) && negb (is_some (sv_materialised_at s))
         && negb (is_some (sv_storage s))
     | EvolveCompletion _ _ =>
         bool_decide (sv_design_state s = MATERIALISED) && is_some (sv_materialised_at s)
         && is_some (sv_storage s)
         && match sv_schema_version s with
            | Some v => schema_version (target_manifest i) =? v + 1
            | None => false
            end
     end.

(** The fields [replace] changes in [_terminal_service]. *)
Definition terminal_fields (s : Service) (c : LifecycleCompletion) : Service :=
  let i := completion_intent c in
  {| sv_service_id := sv_service_id s; sv_principal_id := sv_principal_id s;
     sv_domain_name := sv_domain_name s; sv_domain_class := sv_domain_class s;
     sv_intent_description := sv_intent_description s; sv_created_at := sv_created_at s;
     sv_updated_at := completion_at c; sv_last_activity_at := completion_at c;
     sv_manifest := match c with
                    | MaterialiseCompletion _ _ _ => sv_manifest s
                    | EvolveCompletion _ _ => Some (target_manifest i) end;
     sv_schema_version := match c with
                          | MaterialiseCompletion _ _ _ => sv_schema_version s
                          | EvolveCompletion _ _ => Some (schema_version (target_manifest i)) end;
     sv_design_state := match c with
                        | MaterialiseCompletion _ _ _ => MATERIALISED
                        | EvolveCompletion _ _ => sv_design_state s end;
     sv_operational_status := sv_operational_status s;
     sv_service_revision := expected_service_revision (fields i) + 1;
     sv_materialised_at := match c with
                           | MaterialiseCompletion _ t _ => Some t
                           | EvolveCompletion _ _ => sv_materialised_at s end;
     sv_storage := match c with
                   | MaterialiseCompletion _ _ st => Some st
                   | EvolveCompletion _ _ => sv_storage s end |}.

(** [_terminal_service]: [replace] runs the constructor. *)
Definition terminal_service (s : Service) (c : LifecycleCompletion) : result ModelError Service :=
  make_service (terminal_fields s c).

(** [_append_terminal]. *)
Definition append_terminal (i : LifecycleIntent) (outcome : pystr) (t : datetime) : registry unit :=
  append_audit {| ae_action := kind_str (kind i); ae_outcome := outcome;
            ae_service_id := service_id (fields i); ae_principal_id := principal_id (fields i);
            ae_created_via := created_via (fields i); ae_at := t |}.

(** [_mark_recovery_required]. *)
Definition mark_lifecycle_recovery (i : LifecycleIntent) (t : datetime)
  : registry LifecycleRegistryOutcome :=
  update_prepared (principal_id (fields i)) (idempotency_key (fields i)) (fingerprint i)
    PHASE_RECOVERY_REQUIRED None None ;;
  terminal ← checked (with_phase i PHASE_RECOVERY_REQUIRED);
  append_terminal i (lit "recovery_required") t ;;
  ret (LR_RecoveryRequired terminal).

(** The service a completion was saved as, or [None] when it must not be. *)
Definition save_terminal (c : LifecycleCompletion) : registry (option Service) :=
  let i := completion_intent c in
  s ← select_service (principal_id (fields i)) (service_id (fields i));
  match s with
  | None => ret None
  | Some s =>
      fail_if (completion_at c <? sv_updated_at s) ;;
      if negb (finalization_preconditions s c) then ret None else
      terminal ← checked (terminal_service s c);
      saved ← save terminal (expected_service_revision (fields i));
      ret (if bool_decide (saved = SAVED) then Some terminal else None)
  end.

Definition finalize_completed (c : LifecycleCompletion) : registry LifecycleRegistryOutcome :=
  let i := completion_intent c in
  existing ← terminal_or_prepared i;
  match existing with
  | LR_Prepared _ =>
      terminal ← save_terminal c;
      match terminal with
      | None => mark_lifecycle_recovery i (completion_at c)
      | Some terminal =>
          terminal_intent ← checked (with_phase i COMPLETED);
          result ← encode_result terminal;
          update_prepared (principal_id (fields i)) (idempotency_key (fields i)) (fingerprint i)
            COMPLETED None (Some result) ;;
          append_terminal i (lit "completed") (completion_at c) ;;
          claim ← checked (make_completed_lifecycle terminal_intent terminal);
          ret (LR_Completed claim)
      end
  | existing => ret existing
  end.

Definition finalize_recovery_required (i : LifecycleIntent) (t : datetime)
  : registry LifecycleRegistryOutcome :=
  existing ← terminal_or_prepared i;
  match existing with
  | LR_Prepared _ => mark_lifecycle_recovery i t
  | existing => ret existing
  end.
End lifecycle.

(** ** The shared claim authority *)
Section authority.
Context `{PublicModels} `{FloatRepr} `{UnicodeData}.

(** [LocalRegistryEvent.__post_init__]; its vocabulary is the argument's type. *)
Definition make_local_event (i : RegistryAuthorityIntent) (outcome : pystr) (t : datetime)
  : result AuthorityError AuditEvent :=
  validate_service_id (ai_service_id i) ;;
  validate_principal (ai_principal_id i) ;;
  validate_created_via (ai_created_via i) ;;
  Ok {| ae_action := ai_kind_str i; ae_outcome := outcome; ae_service_id := ai_service_id i;
        ae_principal_id := ai_principal_id i; ae_created_via := ai_created_via i; ae_at := t |}.

(** [_append_local_event]. *)
Definition append_local_event (i : RegistryAuthorityIntent) (outcome : pystr) (t : datetime)
  : registry unit :=
  e ← checked (make_local_event i outcome t);
  append_audit e.

Definition authority_kind (i : RegistryAuthorityIntent) : OperationKind :=
  match i with
  | AI_Operational o => OK_Operational (oi_kind o)
  | AI_Portable q => OK_Portable (pi_kind q)
  end.

Definition older_kind (k : OperationKind) : bool :=
  match k with OK_NonLifecycle _ | OK_Lifecycle _ => true | _ => false end.

Definition stored_authority_intent (c : Claim) : registry RegistryAuthorityIntent :=
  match cm_evidence c with
  | Ev_Authority i => checked (decode_authority_intent i)
  | _ => fail
  end.

(** [decode_registry_authority_result], paired with its intent. *)
Definition decode_authority_result (i : RegistryAuthorityIntent) (result : option AuthorityResult)
  : registry CompletedRegistryClaim :=
  match result with
  | Some r =>
      fail_if (negb (authority_result_valid r)) ;;
      checked (make_completed_registry i r)
  | None => fail
  end.

(** [validate_registry_authority_claim_row] of a row that is not tombstoned. *)
Definition validate_authority_row (principal key : pystr) (c : Claim) (i : RegistryAuthorityIntent)
  : registry unit :=
  fail_if (bool_decide (principal <> ai_principal_id i) || bool_decide (key <> ai_idempotency_key i)
           || bool_decide (cm_fingerprint c <> ai_fingerprint i)
           || bool_decide (cm_kind c <> authority_kind i)
           || negb (cm_service_id c =? ai_service_id i)%N
           || bool_decide (cm_phase c <> Live (ai_phase i))) ;;
  match ai_phase i with
  | COMPLETED => decode_authority_result i (cm_result c) ;; ret tt
  | _ => fail_if (is_some (cm_result c))
  end.

Definition operation_kind_str (k : OperationKind) : pystr :=
  match k with
  | OK_NonLifecycle LEGACY => lit "legacy"
  | OK_NonLifecycle SEED => lit "seed"
  | OK_NonLifecycle DESIGN => lit "design"
  | OK_Lifecycle k => kind_str k
  | OK_Operational k => op_kind_str k
  | OK_Portable k => portable_kind_str k
  end.

(** [TombstonedRegistryClaim.__post_init__]; its vocabulary is the type. *)
Definition make_tombstoned (key : pystr) (c : Claim) : result AuthorityError TombstonedRegistryClaim :=
  validate_idempotency_key key ;;
  validate_sha256 (cm_fingerprint c) ;;
  validate_service_id (cm_service_id c) ;;
  Ok {| tc_idempotency_key := key; tc_fingerprint := cm_fingerprint c;
        tc_operation_kind := operation_kind_str (cm_kind c); tc_service_id := cm_service_id c |}.

(** [_existing_authority_claim]: the type and the kind of two intents agree when
    their operation kinds do. *)
Definition existing_authority_claim (principal key : pystr) (c : Claim) (i : RegistryAuthorityIntent)
  : registry RegistryAuthorityOutcome :=
  if older_kind (cm_kind c) then ret RA_Conflict else
  match cm_phase c with
  | TOMBSTONED =>
      fail_if (negb (no_evidence (cm_evidence c)) || is_some (cm_result c)) ;;
      t ← checked (make_tombstoned key c);
      ret (if bool_decide (cm_fingerprint c = ai_fingerprint i)
              && bool_decide (cm_kind c = authority_kind i)
              && (cm_service_id c =? ai_service_id i)%N
           then RA_Tombstoned t else RA_Conflict)
  | Live _ =>
      stored ← stored_authority_intent c;
      if bool_decide (authority_kind stored <> authority_kind i)
         || bool_decide (ai_fingerprint stored <> ai_fingerprint i)
      then ret RA_Conflict else
      validate_authority_row principal key c stored ;;
      match ai_phase stored with
      | PREPARED => ret (RA_Prepared stored)
      | PHASE_RECOVERY_REQUIRED => ret (RA_RecoveryRequired (Active_Authority stored))
      | COMPLETED => claim ← decode_authority_result stored (cm_result c); ret (RA_Completed claim)
      end
  end.

(** [_authority_prepared_or_terminal]. *)
Definition authority_prepared_or_terminal (i : RegistryAuthorityIntent)
  : registry RegistryAuthorityOutcome :=
  fail_if (bool_decide (ai_phase i <> PREPARED)) ;;
  row ← select_claim (ai_principal_id i) (ai_idempotency_key i);
  match row with
  | None => fail
  | Some c =>
      current ← existing_authority_claim (ai_principal_id i) (ai_idempotency_key i) c i;
      match current with
      | RA_Conflict | RA_Tombstoned _ => fail
      | _ => ret current
      end
  end.

(** [_authority_blocker]. *)
Definition authority_blocker (principal : pystr) (service_id : UUID)
  : registry (option RegistryAuthorityOutcome) :=
  r ← reading id;
  match active_claims r principal service_id with
  | [] => ret None
  | ((p, k), c) :: _ =>
      match cm_kind c with
      | OK_Lifecycle _ =>
          i ← decode_lifecycle_row p k c;
          ret (Some (if bool_decide (phase i = PHASE_RECOVERY_REQUIRED)
                     then RA_RecoveryRequired (Active_Lifecycle i)
                     else RA_InProgress (Active_Lifecycle i)))
      | _ =>
          i ← stored_authority_intent c;
          ret (Some (if bool_decide (ai_phase i = PHASE_RECOVERY_REQUIRED)
                     then RA_RecoveryRequired (Active_Authority i)
                     else RA_InProgress (Active_Authority i)))
      end
  end.

(** [_insert_authority_prepared]. *)
Definition insert_authority_prepared (i : RegistryAuthorityIntent) : registry unit :=
  insert_claim (ai_principal_id i) (ai_idempotency_key i)
    {| cm_fingerprint := ai_fingerprint i; cm_service_id := ai_service_id i;
       cm_kind := authority_kind i; cm_phase := Live PREPARED;
       cm_evidence := Ev_Authority i; cm_result := None |}.

(** [_complete_authority]. *)
Definition complete_authority (i : RegistryAuthorityIntent) (result : AuthorityResult) (t : datetime)
  : registry RegistryAuthorityOutcome :=
  terminal ← checked (ai_with_phase i COMPLETED);
  fail_if (match result with Result_Service s => negb (validate_service s) | _ => false end) ;;
  update_prepared (ai_principal_id i) (ai_idempotency_key i) (ai_fingerprint i)
    COMPLETED (Some (Ev_Authority terminal)) (Some result) ;;
  completed ← checked (make_completed_registry terminal result);
  append_local_event terminal (lit "completed") t ;;
  ret (RA_Completed completed).

(** [_mark_authority_recovery]. *)
Definition mark_authority_recovery (i : RegistryAuthorityIntent) (t : datetime)
  : registry RegistryAuthorityOutcome :=
  terminal ← checked (ai_with_phase i PHASE_RECOVERY_REQUIRED);
  update_prepared (ai_principal_id i) (ai_idempotency_key i) (ai_fingerprint i)
    PHASE_RECOVERY_REQUIRED (Some (Ev_Authority terminal)) None ;;
  append_local_event terminal (lit "recovery_required") t ;;
  ret (RA_RecoveryRequired (Active_Authority terminal)).

(** [_import_collision]. *)
Definition import_collision (r : Registry) (q : PortableIntent) (ident : ImportIdentity)
  : option IdentityCollisionKind :=
  match identities r !! pi_service_id q with
  | Some i => Some (if bool_decide (id_state i = ID_TOMBSTONED) then COLLISION_TOMBSTONE
                    else COLLISION_SERVICE_ID)
  | None =>
      if existsb (fun '(_, i) => bool_decide (id_principal i = im_principal_id ident)
                                 && bool_decide (id_domain i = Some (im_domain_name ident))
                                 && bool_decide (id_state i <> ID_TOMBSTONED))
           (map_to_list (identities r))
      then Some COLLISION_DOMAIN else None
  end.

(** [_receipt_exists]. *)
Definition receipt_exists (r : Registry) (receipt_id : UUID) : bool := is_some (receipts r !! receipt_id).

(** [_purge_receipt_is_valid]. *)
Definition purge_receipt_is_valid (r : Registry) (q : PortableIntent) : bool :=
  match pi_purge_authority q with
  | None => false
  | Some a =>
      match pa_kind a, pa_receipt_id a with
      | EXPLICIT_OVERRIDE, _ => true
      | VERIFIED_RECEIPT, None => false
      | VERIFIED_RECEIPT, Some receipt_id =>
          match receipts r !! receipt_id with
          | None => false
          | Some row =>
              let t := rc_receipt row in
              bool_decide (tr_kind t = RECEIPT_EXPORT) && bool_decide (tr_verification t = VERIFIED)
              && bool_decide (tr_principal_id t = pi_principal_id q)
              && (tr_service_id t =? pi_service_id q)%N
              && bool_decide (Some (tr_service_revision t) = pi_expected_service_revision q)
              && bool_decide (tr_operational_status t = ARCHIVED)
          end
      end
  end.

Definition operational_command (o : OperationalLifecycleIntent)
  : result OperationalError OperationalLifecycleCommand :=
  make_operational_command (oi_kind o) (oi_fields o).

(** The status an operational intent leads to. *)
Definition operational_target (o : OperationalLifecycleIntent) (s : Service)
  : result OperationalError OperationalStatus :=
  c ← operational_command o;
  transition_target_status c (sv_design_state s) (sv_operational_status s).

(** Whether the service admits the operation. *)
Definition authority_supported (r : Registry) (s : Service) (i : RegistryAuthorityIntent) : bool :=
  match i with
  | AI_Operational o => is_ok (operational_target o s)
  | AI_Portable q =>
      match pi_kind q with
      | EXPORT => negb (bool_decide (sv_design_state s = MATERIALISED)
                        && bool_decide (sv_operational_status s = ACTIVE))
      | PURGE => bool_decide (sv_operational_status s = ARCHIVED) && purge_receipt_is_valid r q
      | IMPORT => true
      end
  end.

(** The import branch of [resolve_or_prepare]; [now] dates the reservation. *)
Definition prepare_import (q : PortableIntent) (now : datetime) : registry RegistryAuthorityOutcome :=
  if bool_decide (pi_destination_backend q <> Some SQLITE) then ret RA_Unsupported else
  match pi_identity q with
  | None => fail
  | Some ident =>
      r ← reading id;
      match import_collision r q ident with
      | Some k => ret (RA_Collision k)
      | None =>
          insert_authority_prepared (AI_Portable q) ;;
          insert_identity (pi_service_id q)
            {| id_principal := pi_principal_id q; id_state := IMPORT_PREPARED;
               id_domain := Some (im_domain_name ident); id_backend := pi_destination_backend q;
               id_namespace := im_logical_namespace ident;
               id_claim_key := Some (pi_idempotency_key q); id_lifecycle_at := Some now |} ;;
          ret (RA_Prepared (AI_Portable q))
      end
  end.

(** The branch for a service that exists. *)
Definition prepare_existing (i : RegistryAuthorityIntent) : registry RegistryAuthorityOutcome :=
  s ← select_service (ai_principal_id i) (ai_service_id i);
  match s, ai_expected_revision i with
  | Some s, Some revision =>
      if negb (sv_service_revision s =? revision) then ret RA_Stale else
      blocker ← authority_blocker (ai_principal_id i) (ai_service_id i);
      match blocker with
      | Some blocker => ret blocker
      | None =>
          r ← reading id;
          if negb (authority_supported r s i) then ret RA_Unsupported else
          insert_authority_prepared i ;;
          ret (RA_Prepared i)
      end
  | _, _ => ret RA_Stale
  end.

Definition resolve_or_prepare (command : RegistryAuthorityCommand) (now : datetime)
  : registry RegistryAuthorityOutcome :=
  i ← checked (prepare_registry_intent command);
  row ← select_claim (ai_principal_id i) (ai_idempotency_key i);
  match row with
  | Some c => existing_authority_claim (ai_principal_id i) (ai_idempotency_key i) c i
  | None =>
      match i with
      | AI_Portable q =>
          if bool_decide (pi_kind q = IMPORT) then prepare_import q now else prepare_existing i
      | AI_Operational _ => prepare_existing i
      end
  end.
End authority.

(** ** Finalization of authority claims *)
Section finalization.
Context `{PublicModels} `{FloatRepr} `{UnicodeData}.

(** The shared head of the finalizers: the claim decides unless it is prepared. *)
Definition when_prepared (i : RegistryAuthorityIntent) (k : registry RegistryAuthorityOutcome)
  : registry RegistryAuthorityOutcome :=
  existing ← authority_prepared_or_terminal i;
  match existing with
  | RA_Prepared _ => k
  | _ => ret existing
  end.

Definition operational_fields (s : Service) (target : OperationalStatus) (t : datetime) : Service :=
  {| sv_service_id := sv_service_id s; sv_principal_id := sv_principal_id s;
     sv_domain_name := sv_domain_name s; sv_domain_class := sv_domain_class s;
     sv_intent_description := sv_intent_description s; sv_created_at := sv_created_at s;
     sv_updated_at := t; sv_last_activity_at := t; sv_manifest := sv_manifest s;
     sv_schema_version := sv_schema_version s; sv_design_state := sv_design_state s;
     sv_operational_status := target; sv_service_revision := sv_service_revision s + 1;
     sv_materialised_at := sv_materialised_at s; sv_storage := sv_storage s |}.

(** The [try] block of [finalize_operational]. *)
Definition save_operational (o : OperationalLifecycleIntent) (s : option Service) (t : datetime)
  : registry Service :=
  match s with
  | None => fail
  | Some s =>
      fail_if (negb (sv_service_revision s =? op_expected_service_revision (oi_fields o))
               || (t <? sv_updated_at s)) ;;
      target ← checked (operational_target o s);
      terminal ← checked (make_service (operational_fields s target t));
      saved ← save terminal (op_expected_service_revision (oi_fields o));
      fail_if (bool_decide (saved <> SAVED)) ;;
      ret terminal
  end.

Definition finalize_operational (i : RegistryAuthorityIntent) (t : datetime)
  : registry RegistryAuthorityOutcome :=
  match i with
  | AI_Portable _ => fail
  | AI_Operational o =>
      when_prepared i (
        s ← select_service (ai_principal_id i) (ai_service_id i);
        terminal ← catch (terminal ← save_operational o s t; ret (Some terminal)) (ret None);
        match terminal with
        | Some terminal => complete_authority i (Result_Service terminal) t
        | None => mark_authority_recovery i t
        end)
  end.

(** The conditions of [complete_export]. *)
Definition export_accepted (r : Registry) (q : PortableIntent) (s : option Service)
    (t : TransferReceipt) : bool :=
  match s with
  | None => false
  | Some s =>
      bool_decide (Some (sv_service_revision s) = pi_expected_service_revision q)
      && bool_decide (tr_kind t = RECEIPT_EXPORT) && bool_decide (tr_verification t = VERIFIED)
      && bool_decide (tr_storage_backend t = SQLITE)
      && bool_decide (tr_principal_id t = pi_principal_id q) && (tr_service_id t =? pi_service_id q)%N
      && bool_decide (Some (tr_service_revision t) = pi_expected_service_revision q)
      && bool_decide (tr_operational_status t = sv_operational_status s)
      && in_opt (fun st => bool_decide (tr_storage_backend t = backend st)) (sv_storage s)
      && negb (receipt_exists r (tr_receipt_id t))
  end.

Definition complete_export (i : RegistryAuthorityIntent) (t : TransferReceipt)
  : registry RegistryAuthorityOutcome :=
  match i with
  | AI_Portable q =>
      fail_if (bool_decide (pi_kind q <> EXPORT)) ;;
      when_prepared i (
        s ← select_service (pi_principal_id q) (pi_service_id q);
        r ← reading id;
        if export_accepted r q s t then
          insert_receipt (pi_idempotency_key q) t ;;
          complete_authority i (Result_Receipt t) (tr_created_at t)
        else mark_authority_recovery i (tr_created_at t))
  | AI_Operational _ => fail
  end.

(** The conditions of [publish_import]; an import intent has its destination. *)
Definition import_accepted (r : Registry) (q : PortableIntent) (ident : ImportIdentity)
    (present : option Service) (s : Service) (t : TransferReceipt) : bool :=
  match identities r !! pi_service_id q with
  | None => false
  | Some reservation =>
      bool_decide (id_state reservation = IMPORT_PREPARED)
      && bool_decide (id_principal reservation = im_principal_id ident)
      && bool_decide (id_domain reservation = Some (im_domain_name ident))
      && bool_decide (id_namespace reservation = im_logical_namespace ident)
      && bool_decide (id_claim_key reservation = Some (pi_idempotency_key q))
      && negb (is_some present)
      && bool_decide (sv_principal_id s = im_principal_id ident)
      && (sv_service_id s =? im_service_id ident)%N
      && bool_decide (sv_domain_name s = im_domain_name ident)
      && in_opt (fun st => bool_decide (namespace st = im_logical_namespace ident)
                           && bool_decide (Some (backend st) = pi_destination_backend q)) (sv_storage s)
      && bool_decide (tr_kind t = RECEIPT_IMPORT) && bool_decide (tr_verification t = VERIFIED)
      && bool_decide (pi_destination_backend q = Some SQLITE)
      && bool_decide (tr_storage_backend t = SQLITE)
      && bool_decide (tr_principal_id t = im_principal_id ident)
      && (tr_service_id t =? im_service_id ident)%N
      && bool_decide (Some (tr_bundle_root_sha256 t) = pi_bundle_root_sha256 q)
      && (tr_service_revision t =? sv_service_revision s)
      && bool_decide (tr_operational_status t = sv_operational_status s)
      && negb (receipt_exists r (tr_receipt_id t))
  end.

Definition publish_identity (s : Service) (i : Identity) : Identity :=
  {| id_principal := id_principal i; id_state := LIVE; id_domain := id_domain i;
     id_backend := option_map backend (sv_storage s); id_namespace := id_namespace i;
     id_claim_key := None; id_lifecycle_at := None |}.

Definition reserved_by (key : pystr) (i : Identity) : bool :=
  bool_decide (id_state i = IMPORT_PREPARED) && bool_decide (id_claim_key i = Some key).

Definition publish_import (i : RegistryAuthorityIntent) (s : Service) (t : TransferReceipt)
  : registry RegistryAuthorityOutcome :=
  match i with
  | AI_Portable q =>
      fail_if (bool_decide (pi_kind q <> IMPORT)) ;;
      when_prepared i (
        match pi_identity q with
        | None => mark_authority_recovery i (tr_created_at t)
        | Some ident =>
            present ← select_service (im_principal_id ident) (im_service_id ident);
            r ← reading id;
            if import_accepted r q ident present s t then
              insert_service s ;;
              update_identity (sv_service_id s) (sv_principal_id s) (reserved_by (pi_idempotency_key q))
                (publish_identity s) ;;
              insert_receipt (pi_idempotency_key q) t ;;
              complete_authority i (Result_Service s) (tr_created_at t)
            else mark_authority_recovery i (tr_created_at t)
        end)
  | AI_Operational _ => fail
  end.

(** The conditions of [finalize_purge]. *)
Definition purge_accepted (r : Registry) (q : PortableIntent) (s : Service) (t : datetime) : bool :=
  bool_decide (Some (sv_service_revision s) = pi_expected_service_revision q)
  && bool_decide (sv_operational_status s = ARCHIVED) && (sv_updated_at s <=? t)
  && purge_receipt_is_valid r q.

Definition purge_tombstone (q : PortableIntent) (s : Service) (a : PurgeAuthority) (t : datetime)
  : PurgeTombstone :=
  {| pt_principal_id := sv_principal_id s; pt_service_id := sv_service_id s;
     pt_logical_namespace := service_namespace (sv_service_id s);
     pt_created_via := pi_created_via q; pt_purged_at := t; pt_authority := a;
     pt_receipt_id := pa_receipt_id a |}.

Definition bury_identity (key : pystr) (t : datetime) (i : Identity) : Identity :=
  {| id_principal := id_principal i; id_state := ID_TOMBSTONED; id_domain := None; id_backend := None;
     id_namespace := id_namespace i; id_claim_key := Some key; id_lifecycle_at := Some t |}.

Definition finalize_purge (i : RegistryAuthorityIntent) (t : datetime)
  : registry RegistryAuthorityOutcome :=
  match i with
  | AI_Portable q =>
      fail_if (bool_decide (pi_kind q <> PURGE)) ;;
      when_prepared i (
        s ← select_service (pi_principal_id q) (pi_service_id q);
        r ← reading id;
        match s, pi_purge_authority q with
        | Some s, Some a =>
            if purge_accepted r q s t then
              tombstone ← checked (make_tombstone (purge_tombstone q s a t));
              delete_receipts (pi_principal_id q) (pi_service_id q) ;;
              tombstone_claims (pi_principal_id q) (pi_service_id q) (pi_idempotency_key q) ;;
              delete_service (pi_principal_id q) (pi_service_id q) ;;
              update_identity (pi_service_id q) (pi_principal_id q) is_live
                (bury_identity (pi_idempotency_key q) t) ;;
              complete_authority i (Result_Tombstone tombstone) t
            else mark_authority_recovery i t
        | _, _ => mark_authority_recovery i t
        end)
  | AI_Operational _ => fail
  end.

Definition mark_recovery_required (i : RegistryAuthorityIntent) (t : datetime)
  : registry RegistryAuthorityOutcome :=
  when_prepared i (mark_authority_recovery i t).
End finalization.
