(* ===== verification/RegistryLedger.v ===== *)
(** * RegistryLedger: what no operation of the registry can undo

    Every operation is a composition of the statements of [RegistryState], so a
    preorder between stores that the eleven writing statements respect is
    respected by every operation, whether it returns or raises half way
    ([run_respects]).  The claim ledger, the tombstones and the audit bound are
    three such preorders. *)
From S2P Require Export Registry RegistryState.
From S2P Require Import Prelude Values Json Manifest Relational Lifecycle Operational Models.
From S2P Require Import Authority Codecs Samples.

(** ** The operations *)
Inductive Operation :=
| Op_add (s : Service)
| Op_save (s : Service) (expected : Z)
| Op_resolve_non_lifecycle (k : CompletedNonLifecycleKind) (principal key fp : pystr)
| Op_complete_non_lifecycle (k : CompletedNonLifecycleKind) (principal key fp : pystr) (s : Service)
| Op_resolve_or_admit (c : LifecycleCommand)
| Op_finalize_completed (c : LifecycleCompletion)
| Op_finalize_recovery_required (i : LifecycleIntent) (t : datetime)
| Op_resolve_or_prepare (c : RegistryAuthorityCommand) (now : datetime)
| Op_finalize_operational (i : RegistryAuthorityIntent) (t : datetime)
| Op_complete_export (i : RegistryAuthorityIntent) (t : TransferReceipt)
| Op_publish_import (i : RegistryAuthorityIntent) (s : Service) (t : TransferReceipt)
| Op_finalize_purge (i : RegistryAuthorityIntent) (t : datetime)
| Op_mark_recovery_required (i : RegistryAuthorityIntent) (t : datetime)
| Op_append (e : AuditEvent).

Section operations.
Context `{PublicModels} `{FloatRepr} `{UnicodeData}.

(** The state change of an operation, its answer aside. *)
Definition run (op : Operation) : registry unit :=
  match op with
  | Op_add s => add s
  | Op_save s e => save s e ;; ret tt
  | Op_resolve_non_lifecycle k p key fp => resolve_non_lifecycle k p key fp ;; ret tt
  | Op_complete_non_lifecycle k p key fp s => complete_non_lifecycle k p key fp s
  | Op_resolve_or_admit c => resolve_or_admit c ;; ret tt
  | Op_finalize_completed c => finalize_completed c ;; ret tt
  | Op_finalize_recovery_required i t => finalize_recovery_required i t ;; ret tt
  | Op_resolve_or_prepare c now => resolve_or_prepare c now ;; ret tt
  | Op_finalize_operational i t => finalize_operational i t ;; ret tt
  | Op_complete_export i t => complete_export i t ;; ret tt
  | Op_publish_import i s t => publish_import i s t ;; ret tt
  | Op_finalize_purge i t => finalize_purge i t ;; ret tt
  | Op_mark_recovery_required i t => mark_recovery_required i t ;; ret tt
  | Op_append e => append_audit e
  end.

(** ** Preorders the statements respect

    [Bookkeeping] covers the tables of claims, receipts and audits; [Respected]
    covers the services and their identities too. *)
Class Bookkeeping (R : relation Registry) := {
  bookkeeping_preorder :: PreOrder R;
  r_insert_claim : forall p k c, respects R (insert_claim p k c);
  r_update_prepared : forall p k fp ph e x, respects R (update_prepared p k fp ph e x);
  r_tombstone_claims : forall p u k, respects R (tombstone_claims p u k);
  r_insert_receipt : forall k t, respects R (insert_receipt k t);
  r_delete_receipts : forall p u, respects R (delete_receipts p u);
  r_append : forall e, respects R (append_audit e)
}.

Class Respected (R : relation Registry) := {
  respected_bookkeeping :: Bookkeeping R;
  r_insert_service : forall s, respects R (insert_service s);
  r_update_service : forall s e, respects R (update_service s e);
  r_delete_service : forall p u, respects R (delete_service p u);
  r_insert_identity : forall u i, respects R (insert_identity u i);
  r_update_live : forall s, respects R (update_live_identity s);
  r_publish : forall s k, respects R (update_identity (sv_service_id s) (sv_principal_id s)
                                        (reserved_by k) (publish_identity s));
  r_bury : forall u p k t, respects R (update_identity u p is_live (bury_identity k t))
}.
End operations.

#[export] Hint Resolve r_insert_claim r_update_prepared r_tombstone_claims r_insert_service
  r_update_service r_delete_service r_insert_identity r_update_live r_publish r_bury
  r_insert_receipt r_delete_receipts r_append : txn.
#[export] Hint Extern 0 (Bookkeeping _) => typeclasses eauto : txn.

Section bookkeeping.
Context `{PublicModels} `{FloatRepr} `{UnicodeData} (R : relation Registry) `{!Bookkeeping R}.

Lemma respects_select_claim p k : respects R (select_claim p k).
Proof. unfold select_claim. respectful. Qed.
#[local] Hint Resolve respects_select_claim : txn.

Lemma respects_select_service p u : respects R (select_service p u).
Proof. unfold select_service. respectful. Qed.
#[local] Hint Resolve respects_select_service : txn.

Lemma respects_decode_service x : respects R (decode_service x).
Proof. unfold decode_service. respectful. Qed.
#[local] Hint Resolve respects_decode_service : txn.

Lemma respects_decode_result r1 x p u : respects R (decode_result r1 x p u).
Proof. unfold decode_result. respectful. Qed.
#[local] Hint Resolve respects_decode_result : txn.

Lemma respects_encode_result s : respects R (encode_result s).
Proof. unfold encode_result. respectful. Qed.
#[local] Hint Resolve respects_encode_result : txn.

Lemma respects_resolve_non_lifecycle k p key fp : respects R (resolve_non_lifecycle k p key fp).
Proof. unfold resolve_non_lifecycle. respectful. Qed.
#[local] Hint Resolve respects_resolve_non_lifecycle : txn.

Lemma respects_complete_non_lifecycle k p key fp s : respects R (complete_non_lifecycle k p key fp s).
Proof. unfold complete_non_lifecycle. respectful. Qed.
#[local] Hint Resolve respects_complete_non_lifecycle : txn.

Lemma respects_decode_lifecycle_row p k c : respects R (decode_lifecycle_row p k c).
Proof. unfold decode_lifecycle_row. respectful. Qed.
#[local] Hint Resolve respects_decode_lifecycle_row : txn.

Lemma respects_lifecycle_claim_outcome i c : respects R (lifecycle_claim_outcome i c).
Proof. unfold lifecycle_claim_outcome. respectful. Qed.
#[local] Hint Resolve respects_lifecycle_claim_outcome : txn.

Lemma respects_existing_lifecycle_claim p k c cmd fp : respects R (existing_lifecycle_claim p k c cmd fp).
Proof. unfold existing_lifecycle_claim. respectful. Qed.
#[local] Hint Resolve respects_existing_lifecycle_claim : txn.

Lemma respects_insert_prepared i : respects R (insert_prepared i).
Proof. unfold insert_prepared. respectful. Qed.
#[local] Hint Resolve respects_insert_prepared : txn.

Lemma respects_relational_target s c : respects R (relational_target s c).
Proof. unfold relational_target. respectful. Qed.
#[local] Hint Resolve respects_relational_target : txn.

Lemma respects_lifecycle_blocker p u : respects R (lifecycle_blocker p u).
Proof. unfold lifecycle_blocker. respectful. Qed.
#[local] Hint Resolve respects_lifecycle_blocker : txn.

Lemma respects_resolve_or_admit c : respects R (resolve_or_admit c).
Proof. unfold resolve_or_admit. respectful. Qed.
#[local] Hint Resolve respects_resolve_or_admit : txn.

Lemma respects_terminal_or_prepared i : respects R (terminal_or_prepared i).
Proof. unfold terminal_or_prepared. respectful. Qed.
#[local] Hint Resolve respects_terminal_or_prepared : txn.

Lemma respects_append_terminal i o t : respects R (append_terminal i o t).
Proof. unfold append_terminal. respectful. Qed.
#[local] Hint Resolve respects_append_terminal : txn.

Lemma respects_mark_lifecycle_recovery i t : respects R (mark_lifecycle_recovery i t).
Proof. unfold mark_lifecycle_recovery. respectful. Qed.
#[local] Hint Resolve respects_mark_lifecycle_recovery : txn.

Lemma respects_finalize_recovery_required i t : respects R (finalize_recovery_required i t).
Proof. unfold finalize_recovery_required. respectful. Qed.
#[local] Hint Resolve respects_finalize_recovery_required : txn.

Lemma respects_append_local_event i o t : respects R (append_local_event i o t).
Proof. unfold append_local_event. respectful. Qed.
#[local] Hint Resolve respects_append_local_event : txn.

Lemma respects_stored_authority_intent c : respects R (stored_authority_intent c).
Proof. unfold stored_authority_intent. respectful. Qed.
#[local] Hint Resolve respects_stored_authority_intent : txn.

Lemma respects_decode_authority_result i x : respects R (decode_authority_result i x).
Proof. unfold decode_authority_result. respectful. Qed.
#[local] Hint Resolve respects_decode_authority_result : txn.

Lemma respects_validate_authority_row p k c i : respects R (validate_authority_row p k c i).
Proof. unfold validate_authority_row. respectful. Qed.
#[local] Hint Resolve respects_validate_authority_row : txn.

Lemma respects_existing_authority_claim p k c i : respects R (existing_authority_claim p k c i).
Proof. unfold existing_authority_claim. respectful. Qed.
#[local] Hint Resolve respects_existing_authority_claim : txn.

Lemma respects_authority_prepared_or_terminal i : respects R (authority_prepared_or_terminal i).
Proof. unfold authority_prepared_or_terminal. respectful. Qed.
#[local] Hint Resolve respects_authority_prepared_or_terminal : txn.

Lemma respects_authority_blocker p u : respects R (authority_blocker p u).
Proof. unfold authority_blocker. respectful. Qed.
#[local] Hint Resolve respects_authority_blocker : txn.

Lemma respects_insert_authority_prepared i : respects R (insert_authority_prepared i).
Proof. unfold insert_authority_prepared. respectful. Qed.
#[local] Hint Resolve respects_insert_authority_prepared : txn.

Lemma respects_complete_authority i x t : respects R (complete_authority i x t).
Proof. unfold complete_authority. respectful. Qed.
#[local] Hint Resolve respects_complete_authority : txn.

Lemma respects_mark_authority_recovery i t : respects R (mark_authority_recovery i t).
Proof. unfold mark_authority_recovery. respectful. Qed.
#[local] Hint Resolve respects_mark_authority_recovery : txn.

Lemma respects_prepare_existing i : respects R (prepare_existing i).
Proof. unfold prepare_existing. respectful. Qed.
#[local] Hint Resolve respects_prepare_existing : txn.

Lemma respects_when_prepared i k : respects R k -> respects R (when_prepared i k).
Proof. intros Hk. unfold when_prepared. respectful; done. Qed.

Lemma respects_complete_export i t : respects R (complete_export i t).
Proof. unfold complete_export. respectful; apply respects_when_prepared; respectful. Qed.
#[local] Hint Resolve respects_complete_export : txn.

Lemma respects_mark_recovery_required i t : respects R (mark_recovery_required i t).
Proof. unfold mark_recovery_required. apply respects_when_prepared; respectful. Qed.
#[local] Hint Resolve respects_mark_recovery_required : txn.
End bookkeeping.

#[export] Hint Resolve respects_select_claim respects_select_service respects_decode_service
  respects_decode_result respects_encode_result respects_resolve_non_lifecycle
  respects_complete_non_lifecycle respects_decode_lifecycle_row respects_lifecycle_claim_outcome
  respects_existing_lifecycle_claim respects_insert_prepared respects_relational_target
  respects_lifecycle_blocker respects_resolve_or_admit respects_terminal_or_prepared
  respects_append_terminal respects_mark_lifecycle_recovery respects_finalize_recovery_required
  respects_append_local_event respects_stored_authority_intent respects_decode_authority_result
  respects_validate_authority_row respects_existing_authority_claim
  respects_authority_prepared_or_terminal respects_authority_blocker
  respects_insert_authority_prepared respects_complete_authority
  respects_mark_authority_recovery respects_prepare_existing respects_complete_export
  respects_mark_recovery_required : txn.

Section respected_operations.
Context `{PublicModels} `{FloatRepr} `{UnicodeData} (R : relation Registry) `{!Respected R}.

Lemma respects_save s e : respects R (save s e).
Proof. unfold save. respectful. Qed.
#[local] Hint Resolve respects_save : txn.

Lemma respects_add s : respects R (add s).
Proof. unfold add. respectful. Qed.
#[local] Hint Resolve respects_add : txn.

Lemma respects_save_terminal c : respects R (save_terminal c).
Proof. unfold save_terminal. respectful. Qed.
#[local] Hint Resolve respects_save_terminal : txn.

Lemma respects_finalize_completed c : respects R (finalize_completed c).
Proof. unfold finalize_completed. respectful. Qed.
#[local] Hint Resolve respects_finalize_completed : txn.

Lemma respects_prepare_import q now : respects R (prepare_import q now).
Proof. unfold prepare_import. respectful. Qed.
#[local] Hint Resolve respects_prepare_import : txn.

Lemma respects_resolve_or_prepare c now : respects R (resolve_or_prepare c now).
Proof. unfold resolve_or_prepare. respectful. Qed.
#[local] Hint Resolve respects_resolve_or_prepare : txn.

Lemma respects_save_operational o s t : respects R (save_operational o s t).
Proof. unfold save_operational. respectful. Qed.
#[local] Hint Resolve respects_save_operational : txn.

Lemma respects_finalize_operational i t : respects R (finalize_operational i t).
Proof. unfold finalize_operational. respectful; apply respects_when_prepared; respectful. Qed.
#[local] Hint Resolve respects_finalize_operational : txn.

Lemma respects_publish_import i s t : respects R (publish_import i s t).
Proof. unfold publish_import. respectful; apply respects_when_prepared; respectful. Qed.
#[local] Hint Resolve respects_publish_import : txn.

Lemma respects_finalize_purge i t : respects R (finalize_purge i t).
Proof. unfold finalize_purge. respectful; apply respects_when_prepared; respectful. Qed.
#[local] Hint Resolve respects_finalize_purge : txn.

(** Every operation respects what the statements respect. *)
Lemma run_respects op : respects R (run op).
Proof. destruct op; cbn [run]; respectful. Qed.
End respected_operations.

(** ** The claim ledger *)

(** What may happen to a claim: nothing, one step out of [PREPARED], or burial;
    its request never changes. *)
Definition claim_le (c c' : Claim) : Prop :=
  cm_fingerprint c' = cm_fingerprint c /\ cm_service_id c' = cm_service_id c /\ cm_kind c' = cm_kind c
  /\ (c' = c \/ cm_phase c = Live PREPARED \/ cm_phase c' = TOMBSTONED).

Definition ledger_le (r r' : Registry) : Prop :=
  forall k c, claims r !! k = Some c -> exists c', claims r' !! k = Some c' /\ claim_le c c'.

#[export] Instance claim_le_preorder : PreOrder claim_le.
Proof.
  split.
  - intros c. unfold claim_le. auto.
  - intros c d e (H1 & H2 & H3 & H4) (G1 & G2 & G3 & G4). unfold claim_le.
    split_and!; try congruence. destruct G4 as [->|[Hp|Ht]]; [done| |by auto].
    destruct H4 as [->|[Hq|Ht]]; [by auto|by auto|congruence].
Qed.

#[export] Instance ledger_le_preorder : PreOrder ledger_le.
Proof.
  split.
  - intros r k c Hc. by exists c.
  - intros r s t Hrs Hst k c Hc. destruct (Hrs k c Hc) as (d & Hd & Hcd).
    destruct (Hst k d Hd) as (e & He & Hde). exists e. split; [done|by trans d].
Qed.

Lemma ledger_le_same r r' : claims r' = claims r -> ledger_le r r'.
Proof. intros E k c Hc. exists c. by rewrite E. Qed.

(** ** Identities *)

(** A service id is reserved once: its row stays with its principal and its
    namespace, and a tombstone is final. *)
Definition identity_le (i i' : Identity) : Prop :=
  id_principal i' = id_principal i /\ id_namespace i' = id_namespace i
  /\ (i' = i \/ (id_state i <> ID_TOMBSTONED /\ id_state i' <> IMPORT_PREPARED)).

Definition identities_le (r r' : Registry) : Prop :=
  forall u i, identities r !! u = Some i -> exists i', identities r' !! u = Some i' /\ identity_le i i'.

#[export] Instance identity_le_preorder : PreOrder identity_le.
Proof.
  split.
  - intros i. unfold identity_le. auto.
  - intros i j k (H1 & H2 & H3) (G1 & G2 & G3). unfold identity_le.
    split_and!; try congruence. destruct H3 as [->|[]], G3 as [->|[]]; auto.
Qed.

#[export] Instance identities_le_preorder : PreOrder identities_le.
Proof.
  split.
  - intros r u i Hi. by exists i.
  - intros r s t Hrs Hst u i Hi. destruct (Hrs u i Hi) as (j & Hj & Hij).
    destruct (Hst u j Hj) as (k & Hk & Hjk). exists k. split; [done|by trans j].
Qed.

Lemma identities_le_same r r' : identities r' = identities r -> identities_le r r'.
Proof. intros E u i Hi. exists i. by rewrite E. Qed.

Lemma identities_le_insert r u i :
  (forall j, identities r !! u = Some j -> identity_le j i) -> identities_le r (set_identities <[u := i]> r).
Proof.
  intros Hle v j Hv. cbn. destruct (decide (v = u)) as [->|Hne].
  - exists i. rewrite lookup_insert. split; [by case_decide|by auto].
  - exists j. by rewrite lookup_insert_ne.
Qed.

(** ** Audit retention *)
Lemma audit_count_app p l l' : audit_count p (l ++ l') = (audit_count p l + audit_count p l')%nat.
Proof. unfold audit_count. by rewrite List.filter_app, length_app. Qed.

Lemma audit_count_cons p e l :
  audit_count p (e :: l) = ((if bool_decide (ae_principal_id e = p) then 1 else 0) + audit_count p l)%nat.
Proof. unfold audit_count. cbn. by case_bool_decide. Qed.

(** Retention keeps the newest thousand rows of its principal and every row of
    the others. *)
Lemma retain_count p q l :
  audit_count q (retain p l)
  = if bool_decide (p = q) then (audit_count q l `min` MAX_AUDITS)%nat else audit_count q l.
Proof.
  induction l as [|e l IH]; [by case_bool_decide|]. cbn [retain]. rewrite audit_count_cons.
  destruct (bool_decide (ae_principal_id e = p)) eqn:Ep; cbn [andb].
  - apply bool_decide_eq_true in Ep. subst p.
    destruct (Nat.leb_spec MAX_AUDITS (audit_count (ae_principal_id e) l)) as [Hle|Hgt];
      rewrite ?audit_count_cons, IH; case_bool_decide as Eq; try done; subst; lia.
  - rewrite audit_count_cons, IH. apply bool_decide_eq_false in Ep.
    case_bool_decide as Eq; [|done]. subst q. rewrite bool_decide_false by done. lia.
Qed.

Lemma retain_sublist p l : retain p l `sublist_of` l.
Proof. induction l as [|e l IH]; cbn; [done|]. case_match; by constructor. Qed.

Definition audits_bounded (r : Registry) : Prop := forall p, (audit_count p (audits r) <= MAX_AUDITS)%nat.
Definition audits_le (r r' : Registry) : Prop := audits_bounded r -> audits_bounded r'.

#[export] Instance audits_le_preorder : PreOrder audits_le.
Proof. split; unfold audits_le; [by intros r|by auto]. Qed.

Lemma audits_le_same r r' : audits r' = audits r -> audits_le r r'.
Proof. unfold audits_le, audits_bounded. by intros ->. Qed.

Section instances.
Context `{PublicModels} `{UnicodeData}.

#[export] Instance ledger_respected : Respected ledger_le.
Proof.
  split; [split; [apply _|..]|..]; effects; try (by apply ledger_le_same).
  - intros kk d Hd. exists d. cbn. rewrite lookup_insert_ne by congruence. done.
  - intros kk d Hd. cbn. destruct (decide (kk = (p, k))) as [->|Hne].
    + eexists. rewrite lookup_insert, decide_True by done. split; [done|].
      unfold claim_le. cbn. split_and!; try congruence. right. left. congruence.
    + exists d. by rewrite lookup_insert_ne.
  - intros kk d Hd. cbn. eexists. rewrite map_lookup_imap, Hd. cbn. split; [done|].
    unfold claim_le. destruct (is_other_claim p u k kk d); cbn; auto 6.
Qed.

#[export] Instance identities_respected : Respected identities_le.
Proof.
  split; [split; [apply _|..]|..]; try (effects; by apply identities_le_same).
  - effects. apply identities_le_insert. intros j Hj. congruence.
  - unfold update_live_identity. effects. apply identities_le_insert. intros j Hj.
    assert (j = x) as -> by congruence. unfold is_live in *. bools.
    unfold identity_le; cbn. split_and!; try done. right. by rewrite H3.
  - effects. apply identities_le_insert. intros j Hj. assert (j = x) as -> by congruence.
    unfold reserved_by in *. bools. destruct H3. unfold identity_le; cbn. split_and!; try done. right. by rewrite H3.
  - effects. apply identities_le_insert. intros j Hj. assert (j = x) as -> by congruence.
    unfold is_live in *. bools. unfold identity_le; cbn. split_and!; try done. right. by rewrite H3.
Qed.

#[export] Instance audits_respected : Respected audits_le.
Proof.
  split; [split; [apply _|..]|..]; unfold update_live_identity; effects; try (by apply audits_le_same).
  intros Hb p. specialize (Hb p). cbn [audits set_audits]. rewrite retain_count, audit_count_app, audit_count_cons.
  case_bool_decide as E; [apply Nat.le_min_r|].
  unfold audit_count at 2. cbn. lia.
Qed.
End instances.

(** ** Units of work

    A unit of work runs operations on its working state and commits them
    together, or rolls back when one raises. *)
Section units.
Context `{PublicModels} `{FloatRepr} `{UnicodeData}.

Fixpoint run_all (ops : list Operation) : registry unit :=
  match ops with
  | [] => ret tt
  | op :: ops' => run op ;; run_all ops'
  end.

Definition unit_of_work (ops : list Operation) (r : Registry) : Registry :=
  match run_all ops r with
  | (Ok _, r') => r'
  | (Raise _, _) => r
  end.

(** The intents the finalizers get are values of their classes: the constructor
    accepted them. *)
Definition constructed_intent (i : LifecycleIntent) : Prop :=
  make_intent (kind i) (phase i) (fields i) (fingerprint i) (target_manifest i) = Ok i.

Definition constructed (op : Operation) : Prop :=
  match op with
  | Op_finalize_completed c => constructed_intent (completion_intent c)
  | Op_finalize_recovery_required i _ => constructed_intent i
  | Op_finalize_operational i _ | Op_complete_export i _ | Op_publish_import i _ _
  | Op_finalize_purge i _ | Op_mark_recovery_required i _ => decode_authority_intent i = Ok i
  | _ => True
  end.

(** The states a registry goes through. *)
Inductive reachable : Registry -> Prop :=
| reachable_empty : reachable empty_registry
| reachable_unit ops r : reachable r -> Forall constructed ops -> reachable (unit_of_work ops r).

Lemma run_all_respects R `{!Respected R} ops : respects R (run_all ops).
Proof.
  induction ops as [|op ops IH]; cbn [run_all]; respectful. by apply run_respects.
Qed.

Lemma unit_of_work_respects R `{!Respected R} ops r : R r (unit_of_work ops r).
Proof.
  unfold unit_of_work. pose proof (run_all_respects R ops r) as Hr.
  destruct (run_all ops r) as [[]?]; [done|reflexivity].
Qed.
End units.

(** ** Properties *)

(** C2: The claim ledger is append-only.  Whatever operations run, and wherever
    one of them raises, a claim keeps its key, fingerprint, service and kind; a
    prepared claim is decided at most once, a decided one changes only by being
    tombstoned, and a tombstone never changes phase again. *)
Theorem claim_ledger_monotone `{PublicModels} `{FloatRepr} `{UnicodeData}
    (ops : list Operation) (r : Registry) : ledger_le r (run_all ops r).2.
Proof. apply run_all_respects, _. Qed.

(** C25: Service ids are never reused.  Once the registry knows an id its row
    stays, with its principal and namespace, and the row of a purged service
    stays the tombstone it is: no seed or import revives it. *)
Theorem tombstones_permanent `{PublicModels} `{FloatRepr} `{UnicodeData}
    (ops : list Operation) (r : Registry) : identities_le r (run_all ops r).2.
Proof. apply run_all_respects, _. Qed.

(** C30: The audit log is bounded: in every reachable state no principal has more
    than a thousand rows, whatever the other principals do. *)
Theorem audit_retention `{PublicModels} `{FloatRepr} `{UnicodeData} (r : Registry) (p : pystr) :
  reachable r -> (audit_count p (audits r) <= MAX_AUDITS)%nat.
Proof.
  intros Hr. revert p. change (audits_bounded r). induction Hr as [|ops r Hr IH _].
  - intros p. cbn. unfold MAX_AUDITS. lia.
  - by apply (unit_of_work_respects audits_le ops r).
Qed.

Definition sample_event (n : N) : AuditEvent :=
  {| ae_action := lit "seed"; ae_outcome := lit "created"; ae_service_id := 7%N;
     ae_principal_id := lit "owner"; ae_created_via := lit "client"; ae_at := Z.of_N n |}.

Lemma audit_retention_witness :
  let r := @unit_of_work plain_models datum_float_repr ascii_printable
             [Op_append (sample_event 1); Op_append (sample_event 2)] empty_registry in
  length (audits r) = 2%nat /\ (audit_count (lit "owner") (audits r) <= MAX_AUDITS)%nat.
Proof.
  intros r. split; [by vm_compute|].
  apply (@audit_retention plain_models datum_float_repr ascii_printable r (lit "owner")).
  apply reachable_unit; [apply reachable_empty|]. by repeat constructor.
Defined.
