(* ===== verification/RegistryInv.v ===== *)
(** * RegistryInv: the invariant of the registry

    Four parts the statements keep by themselves, each over its tables
    ([ServicesOK], [ClaimsOK], [IdentitiesOK], [ReceiptsOK]), and one only whole
    operations keep: a live identity stands for exactly one service
    ([Catalogued]). *)
From S2P Require Export RegistryLedger.
From S2P Require Import Prelude Values Json Manifest Relational Lifecycle Operational Models.
From S2P Require Import Authority Codecs Samples.

Section schema.
Context `{PublicModels} `{UnicodeData}.

(** ** The parts kept statement by statement *)
Record ServicesOK (r : Registry) : Prop := {
  so_valid : forall u s, services r !! u = Some s -> sv_service_id s = u /\ validate_service s = true;
  so_domain : forall u v s t, services r !! u = Some s -> services r !! v = Some t ->
    sv_principal_id s = sv_principal_id t -> sv_domain_name s = sv_domain_name t -> u = v
}.

Record ClaimsOK (r : Registry) : Prop := {
  co_columns : forall p k c, claims r !! (p, k) = Some c -> claim_columns p k c = true;
  co_active : forall p k k' c c', claims r !! (p, k) = Some c -> claims r !! (p, k') = Some c' ->
    active c = true -> active c' = true -> cm_service_id c = cm_service_id c' -> k = k'
}.

Record IdentitiesOK (r : Registry) : Prop := {
  io_columns : forall u i, identities r !! u = Some i -> identity_columns u i = true;
  io_claim : forall u i k, identities r !! u = Some i -> id_claim_key i = Some k ->
    claim_exists r (id_principal i) k u = true;
  io_domain : forall u v i j d, identities r !! u = Some i -> identities r !! v = Some j ->
    id_principal i = id_principal j -> id_domain i = Some d -> id_domain j = Some d ->
    id_state i <> ID_TOMBSTONED -> id_state j <> ID_TOMBSTONED -> u = v
}.

Record ReceiptsOK (r : Registry) : Prop := {
  ro_columns : forall u x, receipts r !! u = Some x ->
    tr_receipt_id (rc_receipt x) = u /\ receipt_columns (rc_key x) (rc_receipt x) = true;
  ro_claim : forall u x, receipts r !! u = Some x ->
    claim_exists r (tr_principal_id (rc_receipt x)) (rc_key x) (tr_service_id (rc_receipt x)) = true
}.

(** ** What a failed search means *)
Lemma domain_free r p d u :
  domain_taken r p d u = false ->
  forall v s, services r !! v = Some s -> sv_principal_id s = p -> sv_domain_name s = d -> v = u.
Proof.
  unfold domain_taken. intros Hf v s Hs Hp Hd. apply dec_stable. intros Hne.
  apply not_true_iff_false in Hf. apply Hf, existsb_exists. exists (v, s).
  split; [by apply list_elem_of_In, elem_of_map_to_list|]. bools. done.
Qed.

Lemma identity_domain_free r p d u :
  identity_domain_taken r p d u = false <->
  forall v i, identities r !! v = Some i -> id_principal i = p -> id_domain i = Some d ->
    id_state i <> ID_TOMBSTONED -> v = u.
Proof.
  unfold identity_domain_taken. rewrite <- not_true_iff_false, existsb_exists. split.
  - intros Hf v i Hi Hp Hd Ht. apply dec_stable. intros Hne. apply Hf. exists (v, i).
    split; [by apply list_elem_of_In, elem_of_map_to_list|]. bools. done.
  - intros Hf ((v, i) & Hin & Hb). apply list_elem_of_In, elem_of_map_to_list in Hin. bools.
    destruct Hb as [[[Hne Hp] Hd] Ht]. by apply Hne, (Hf v i).
Qed.

Lemma active_claims_elem r p u k c :
  ((p, k), c) ∈ active_claims r p u
  <-> claims r !! (p, k) = Some c /\ active c = true /\ cm_service_id c = u.
Proof.
  unfold active_claims. rewrite list_elem_of_In, List.filter_In, <- list_elem_of_In, elem_of_map_to_list.
  unfold active_for. cbn. bools. naive_solver.
Qed.

Lemma no_active_claims r p u :
  active_claims r p u = [] ->
  forall k c, claims r !! (p, k) = Some c -> active c = true -> cm_service_id c <> u.
Proof.
  intros Hn k c Hc Ha Hu. assert (((p, k), c) ∈ active_claims r p u) as Hin
    by (by apply active_claims_elem). rewrite Hn in Hin. by apply elem_of_nil in Hin.
Qed.

Lemma claim_exists_mono r r' p k u :
  ledger_le r r' -> claim_exists r p k u = true -> claim_exists r' p k u = true.
Proof.
  unfold claim_exists. intros Hle. destruct (claims r !! (p, k)) as [c|] eqn:Hc; [|done].
  destruct (Hle (p, k) c Hc) as (c' & -> & (_ & -> & _)). done.
Qed.

(** ** The statements keep them *)
Definition services_le (r r' : Registry) : Prop := ServicesOK r -> ServicesOK r'.
Definition claims_le (r r' : Registry) : Prop := ClaimsOK r -> ClaimsOK r'.
Definition references_le (r r' : Registry) : Prop :=
  ledger_le r r' /\ (IdentitiesOK r -> IdentitiesOK r') /\ (ReceiptsOK r -> ReceiptsOK r').

#[export] Instance services_le_preorder : PreOrder services_le.
Proof. split; unfold services_le; [by intros r|by auto]. Qed.
#[export] Instance claims_le_preorder : PreOrder claims_le.
Proof. split; unfold claims_le; [by intros r|by auto]. Qed.
#[export] Instance references_le_preorder : PreOrder references_le.
Proof.
  split; [by intros r|]. intros r s t (H1 & H2 & H3) (G1 & G2 & G3).
  split_and!; [by trans s|by auto..].
Qed.

Lemma services_le_same r r' : services r' = services r -> services_le r r'.
Proof. intros E [H1 H2]. split; rewrite E; [exact H1|exact H2]. Qed.

Lemma services_le_insert r s :
  validate_service s = true ->
  domain_taken r (sv_principal_id s) (sv_domain_name s) (sv_service_id s) = false ->
  services_le r (set_services <[sv_service_id s := s]> r).
Proof.
  intros Hv Hd [H1 H2]. pose proof (domain_free _ _ _ _ Hd) as Hfree. split; cbn.
  - intros u t. rewrite lookup_insert_Some. intros [[<- <-]|[_ Ht]]; [done|by apply H1].
  - intros u v x y. rewrite !lookup_insert_Some.
    intros [[<- <-]|[Hu Hx]] [[<- <-]|[Hw Hy]] Hp Hn; [done| | |by apply (H2 u v x y)].
    + symmetry. by apply (Hfree v y).
    + by apply (Hfree u x).
Qed.

#[export] Instance services_respected : Respected services_le.
Proof.
  split; [split; [apply _|..]|..]; unfold update_live_identity; effects;
    try (by apply services_le_same); try (by apply services_le_insert).
  intros [H5 H6]. split; cbn.
  - intros v t. rewrite lookup_delete_Some. intros [_ Ht]. by apply H5.
  - intros v w y z. rewrite !lookup_delete_Some. intros [_ Hy] [_ Hz]. by apply H6.
Qed.

Lemma claims_le_same r r' : claims r' = claims r -> claims_le r r'.
Proof. intros E [H1 H2]. split; rewrite E; [exact H1|exact H2]. Qed.

(** Rewriting claims in place, none of them becoming active. *)
Lemma claims_le_map r r' :
  (forall k c', claims r' !! k = Some c' -> exists c, claims r !! k = Some c
     /\ cm_service_id c' = cm_service_id c /\ (active c' = true -> active c = true)
     /\ (claim_columns k.1 k.2 c = true -> claim_columns k.1 k.2 c' = true)) ->
  claims_le r r'.
Proof.
  intros Hm [H1 H2]. split.
  - intros p k c' Hc'. destruct (Hm _ _ Hc') as (c & Hc & _ & _ & Hcol). by eapply Hcol, H1.
  - intros p k k' c c' Hc Hc' Ha Ha' Hs.
    destruct (Hm _ _ Hc) as (d & Hd & Es & Ea & _), (Hm _ _ Hc') as (d' & Hd' & Es' & Ea' & _).
    eapply (H2 p k k' d d'); eauto. congruence.
Qed.

Lemma claims_le_insert r p k c :
  claim_columns p k c = true -> claims r !! (p, k) = None ->
  (active c = true -> active_claims r p (cm_service_id c) = []) ->
  claims_le r (set_claims <[(p, k) := c]> r).
Proof.
  intros Hcol Hnew Hact [H1 H2].
  assert (forall k' c', claims r !! (p, k') = Some c' -> active c = true -> active c' = true ->
    cm_service_id c <> cm_service_id c') as Hfree.
  { intros k' c' Hc' Ha Ha' Hs. by eapply no_active_claims; [apply Hact| | |symmetry]. }
  split; cbn.
  - intros p' k' c'. rewrite lookup_insert_Some. intros [[[= <- <-] <-]|[_ Hc]]; [done|by apply H1].
  - intros p' k1 k2 c1 c2. rewrite !lookup_insert_Some.
    intros [[[= <- <-] <-]|[Hn1 Hc1]] [[E2 <-]|[Hn2 Hc2]] Ha1 Ha2 Hs.
    + by injection E2.
    + by destruct (Hfree k2 c2).
    + injection E2 as <- <-. by destruct (Hfree k1 c1).
    + by apply (H2 p' k1 k2 c1 c2).
Qed.

Lemma claim_columns_phase p k c c' :
  cm_fingerprint c' = cm_fingerprint c -> cm_service_id c' = cm_service_id c -> claim_shape c' = true ->
  claim_columns p k c = true -> claim_columns p k c' = true.
Proof. unfold claim_columns. intros -> -> ->. bools. tauto. Qed.

#[export] Instance claims_respected : Respected claims_le.
Proof.
  split; [split; [apply _|..]|..]; unfold update_live_identity; effects;
    try (by apply claims_le_same).
  - by apply claims_le_insert.
  - apply claims_le_map. intros kk c'. cbn. rewrite lookup_insert_Some.
    intros [[<- <-]|[_ Hc]]; [|by exists c'; auto].
    exists x0. split_and!; try done.
    + intros _. unfold active. by rewrite H3.
    + by apply claim_columns_phase.
  - apply claims_le_map. intros kk c'. cbn. rewrite map_lookup_imap. intros Hc'.
    destruct (claims r !! kk) as [c|] eqn:Hc; [|done]. cbn in Hc'. injection Hc' as <-.
    exists c. split; [done|]. destruct (is_other_claim p u k kk c) eqn:Ho; [|auto].
    split_and!; [done|done|]. apply claim_columns_phase; [done..|]. by apply (H2 kk).
Qed.

Lemma references_le_tables r r' :
  ledger_le r r' -> identities r' = identities r ->
  (forall u x, receipts r' !! u = Some x -> receipts r !! u = Some x) -> references_le r r'.
Proof.
  intros Hl Hi Hx. split; [done|]. split.
  - intros [H1 H2 H3]. split; rewrite Hi; [exact H1| |exact H3].
    intros u i k Hu Hk. by eapply claim_exists_mono, H2.
  - intros [H1 H2]. split; [by auto|]. intros u x Hu. by eapply claim_exists_mono, H2, Hx.
Qed.

Lemma identity_allowed_spec r u i :
  identity_allowed r u i = true
  <-> identity_columns u i = true
      /\ (forall k, id_claim_key i = Some k -> claim_exists r (id_principal i) k u = true)
      /\ (forall d, id_domain i = Some d -> id_state i <> ID_TOMBSTONED ->
           identity_domain_taken r (id_principal i) d u = false).
Proof.
  unfold identity_allowed. rewrite !andb_true_iff, !in_opt_spec. split.
  - intros [[H1 H2] H3]. split_and!; [done..|]. intros d Hd Ht. specialize (H3 d Hd). bools.
    by destruct H3.
  - intros (H1 & H2 & H3). split_and!; [done..|]. intros d Hd. bools.
    destruct (decide (id_state i = ID_TOMBSTONED)); [by left|right]. by apply H3.
Qed.

Lemma references_le_identity r u i :
  identity_allowed r u i = true -> references_le r (set_identities <[u := i]> r).
Proof.
  intros (Hc & Hk & Hd)%identity_allowed_spec. split; [by apply ledger_le_same|]. split; [|by intros []].
  intros [H1 H2 H3]. split; cbn.
  - intros v j. rewrite lookup_insert_Some. intros [[<- <-]|[_ Hj]]; [done|by apply H1].
  - intros v j k. rewrite lookup_insert_Some. intros [[<- <-]|[_ Hj]]; [by apply Hk|by apply H2].
  - intros v w j l d. rewrite !lookup_insert_Some.
    intros [[<- <-]|[_ Hj]] [[<- <-]|[_ Hl]] Hp Dj Dl Tj Tl; [done| | |by apply (H3 v w j l d)].
    + symmetry. specialize (Hd d Dj Tj). rewrite identity_domain_free in Hd. by apply (Hd w l).
    + specialize (Hd d Dl Tl). rewrite identity_domain_free in Hd. by apply (Hd v j).
Qed.

Lemma references_le_receipt r k t :
  receipt_columns k t = true -> claim_exists r (tr_principal_id t) k (tr_service_id t) = true ->
  references_le r (set_receipts <[tr_receipt_id t := {| rc_receipt := t; rc_key := k |}]> r).
Proof.
  intros Hc Hk. split; [by apply ledger_le_same|]. split; [by intros []|]. intros [H1 H2]. split; cbn.
  - intros u x. rewrite lookup_insert_Some. intros [[<- <-]|[_ Hx]]; [done|by apply H1].
  - intros u x. rewrite lookup_insert_Some. intros [[<- <-]|[_ Hx]]; [done|by eapply H2].
Qed.

Lemma respects_ledger {A} (m : registry A) r : respects ledger_le m -> ledger_le r (m r).2.
Proof. by intros Hm. Qed.

(** A statement over claims carries the references along with the ledger. *)
Lemma references_of_ledger {A} (m : registry A) :
  respects ledger_le m ->
  (forall r, identities (m r).2 = identities r /\ receipts (m r).2 = receipts r) ->
  respects references_le m.
Proof.
  intros Hl Hsame r. destruct (Hsame r) as [Hi Hr].
  apply references_le_tables; [by apply respects_ledger|done|]. by rewrite Hr.
Qed.

#[export] Instance references_respected : Respected references_le.
Proof.
  split; [split; [apply _|..]|..]; unfold update_live_identity;
    try (effects; first [by apply references_le_identity | by apply references_le_receipt
                        |by apply references_le_tables; [apply ledger_le_same|..]]).
  - intros p k c. apply references_of_ledger; [apply r_insert_claim|]. intros r.
    by destruct (insert_claim_atomic p k c r) as [->|(? & ? & -> & -> & _)].
  - intros p k fp ph e x. apply references_of_ledger; [apply r_update_prepared|]. intros r.
    by destruct (update_prepared_atomic p k fp ph e x r) as [->|(? & ? & -> & ? & _ & _ & _ & _ & ->)].
  - intros p u k. apply references_of_ledger; [apply r_tombstone_claims|]. intros r.
    by destruct (tombstone_claims_atomic p u k r) as [->|(? & ? & -> & -> & _)].
  - effects. apply references_le_tables; [by apply ledger_le_same|done|]. intros v x. cbn.
    rewrite map_lookup_filter_Some. by intros [? _].
Qed.
End schema.
