(* ===== verification/RegistryCatalogue.v ===== *)
(** * RegistryCatalogue: services and their identities

    A live identity stands for one service with the same principal, domain and
    backend.  Saving a service updates both rows; an operation that returns
    leaves them matched, and [save] of a service whose domain does not change
    never stops between the two. *)
From S2P Require Export RegistryInv.
From S2P Require Import Prelude Values Json Manifest Relational Lifecycle Operational Models.
From S2P Require Import Authority Codecs Samples.

Definition matches (s : Service) (i : Identity) : Prop :=
  id_state i = LIVE /\ id_principal i = sv_principal_id s /\ id_domain i = Some (sv_domain_name s)
  /\ id_backend i = option_map backend (sv_storage s).

Record Catalogued (r : Registry) : Prop := {
  ca_service : forall u s, services r !! u = Some s ->
    exists i, identities r !! u = Some i /\ matches s i;
  ca_live : forall u i, identities r !! u = Some i -> id_state i = LIVE -> is_Some (services r !! u)
}.

Record RegistryOK `{PublicModels} `{UnicodeData} (r : Registry) : Prop := {
  ok_services : ServicesOK r;
  ok_claims : ClaimsOK r;
  ok_identities : IdentitiesOK r;
  ok_receipts : ReceiptsOK r;
  ok_catalogued : Catalogued r
}.

(** ** Computations that return keep an invariant *)
Definition keeps (P : Registry -> Prop) {A} (m : registry A) : Prop :=
  forall r a r', P r -> m r = (Ok a, r') -> P r'.

Section keeps.
Context (P : Registry -> Prop).

Lemma keeps_bind {A B} (m : registry A) (f : A -> registry B) :
  keeps P m -> (forall a, keeps P (f a)) -> keeps P (m ≫= f).
Proof. intros Hm Hf r b r' HP (a & r1 & H1 & H2)%bind_returns. eapply Hf; [|done]. by eapply Hm. Qed.

(** The value a computation returned may be used in the rest. *)
Lemma keeps_checked {E A B} (m : result E A) (f : A -> registry B) :
  (forall a, m = Ok a -> keeps P (f a)) -> keeps P (checked m ≫= f).
Proof.
  intros Hf r b r' HP (a & r1 & H1 & H2)%bind_returns. unfold checked in H1.
  apply lift_returns in H1 as [H1 ->]. by eapply Hf.
Qed.

Lemma keeps_respects {A} (R : relation Registry) (m : registry A) :
  (forall r r', R r r' -> P r -> P r') -> respects R m -> keeps P m.
Proof. intros HR Hm r a r' HP E. eapply HR; [|done]. specialize (Hm r). by rewrite E in Hm. Qed.
End keeps.

Definition same_catalogue (r r' : Registry) : Prop :=
  services r' = services r /\ identities r' = identities r.

#[export] Instance same_catalogue_preorder : PreOrder same_catalogue.
Proof. split; [by intros r|]. intros r s t [H1 H2] [G1 G2]. split; congruence. Qed.

#[export] Instance same_catalogue_bookkeeping `{PublicModels} `{UnicodeData} : Bookkeeping same_catalogue.
Proof. split; [apply _|..]; effects; done. Qed.

Lemma same_catalogue_keeps r r' : same_catalogue r r' -> Catalogued r -> Catalogued r'.
Proof. intros [Es Ei] [H1 H2]. split; rewrite Es, Ei; [exact H1|exact H2]. Qed.

Lemma bookkeeping_keeps `{PublicModels} `{UnicodeData} {A} (m : registry A) :
  respects same_catalogue m -> keeps Catalogued m.
Proof. apply keeps_respects, same_catalogue_keeps. Qed.

(** ** Updates of both rows *)
Lemma catalogued_insert r u s i :
  Catalogued r -> matches s i ->
  Catalogued (set_identities <[u := i]> (set_services <[u := s]> r)).
Proof.
  intros [H1 H2] Hm. split; cbn.
  - intros v t. rewrite lookup_insert_Some. intros [[<- <-]|[Hne Ht]].
    + exists i. by rewrite lookup_insert, decide_True.
    + rewrite lookup_insert_ne by done. by apply H1.
  - intros v j. rewrite lookup_insert_Some. intros [[<- <-]|[Hne Hj]] Hl.
    + rewrite lookup_insert, decide_True by done. by eexists.
    + rewrite lookup_insert_ne by done. by eapply H2.
Qed.

Lemma catalogued_reserve r u i :
  Catalogued r -> identities r !! u = None -> id_state i <> LIVE ->
  Catalogued (set_identities <[u := i]> r).
Proof.
  intros [H1 H2] Hn Hl. split; cbn.
  - intros v t Ht. destruct (H1 v t Ht) as (j & Hj & Hm). exists j.
    rewrite lookup_insert_ne; [done|]. congruence.
  - intros v j. rewrite lookup_insert_Some. intros [[<- <-]|[Hne Hj]]; [done|by apply H2].
Qed.

Lemma catalogued_delete r u i :
  Catalogued r -> id_state i <> LIVE ->
  Catalogued (set_identities <[u := i]> (set_services (delete u) r)).
Proof.
  intros [H1 H2] Hl. split; cbn.
  - intros v t. rewrite lookup_delete_Some. intros [Hne Ht]. rewrite lookup_insert_ne by done. by apply H1.
  - intros v j. rewrite lookup_insert_Some. intros [[<- <-]|[Hne Hj]]; [done|].
    rewrite lookup_delete_ne by done. by apply H2.
Qed.

Section operations.
Context `{PublicModels} `{FloatRepr} `{UnicodeData}.

Lemma matches_relabel s i : id_state i = LIVE -> id_principal i = sv_principal_id s -> matches s (relabel s i).
Proof. by unfold matches. Qed.

Lemma keeps_add s : keeps Catalogued (add s).
Proof.
  intros r u r' HC Hrun. unfold add, insert_live_identity in Hrun. apply bind_returns in Hrun as (? & r1 & E1 & E2).
  eapply atomic_run in E1; [|apply insert_service_atomic]. destruct E1 as (-> & _ & _ & _).
  eapply atomic_run in E2; [|apply insert_identity_atomic]. destruct E2 as (-> & _ & _).
  by apply catalogued_insert.
Qed.

Lemma keeps_save s e : keeps Catalogued (save s e).
Proof.
  intros r x r' HC Hrun. unfold save, update_live_identity in Hrun.
  apply bind_returns in Hrun as (? & r0 & E0 & Hrun).
  apply raise_when_returns in E0 as [_ ->]. apply bind_returns in Hrun as (saved & r1 & E1 & Hrun).
  eapply atomic_run in E1; [|apply update_service_atomic]. destruct E1 as [_ E1].
  destruct saved.
  - destruct E1 as (old & _ & _ & _ & _ & ->). apply bind_returns in Hrun as (? & r2 & E2 & Hrun).
    apply ret_returns in Hrun as [_ ->]. eapply atomic_run in E2; [|apply update_identity_atomic].
    destruct E2 as (i & Hi & Hp & Hl & _ & ->). apply catalogued_insert; [done|].
    apply matches_relabel; [|done]. unfold is_live in Hl. by bools.
  - destruct E1 as [-> _]. by apply ret_returns in Hrun as [_ ->].
Qed.

(** The state after a service was saved over its own row. *)
Definition saved_as (s : Service) (i : Identity) (r : Registry) : Registry :=
  set_identities <[sv_service_id s := relabel s i]> (set_services <[sv_service_id s := s]> r).

Lemma text_length t n : text t n = true -> text_column t n = true.
Proof. unfold text, text_column. intros Ht. bools. destruct t; cbn in *; [naive_solver|lia]. Qed.

Lemma relabel_allowed r u old s i :
  RegistryOK r -> services r !! u = Some old -> identities r !! u = Some i ->
  id_state i = LIVE -> id_domain i = Some (sv_domain_name s) -> validate_service s = true ->
  identity_allowed (set_services <[u := s]> r) u (relabel s i) = true.
Proof.
  intros Hr Hs Hi Hl Hd Hv. apply identity_allowed_spec. destruct (ok_identities r Hr) as [E1 E2 E3].
  pose proof (E1 u i Hi) as Hc. unfold identity_columns in *. rewrite Hl in Hc. cbn. rewrite Hl.
  apply validate_service_spec in Hv as [_ (_ & Hdom & _)].
  apply andb_true_iff in Hdom as [Hdom%text_length _].
  split_and!.
  - bools. tauto.
  - intros k Hk. bools. by rewrite Hk in Hc; destruct Hc as [_ [[_ Hc] _]].
  - intros d [= <-] _. apply identity_domain_free. intros v j Hj Hp Hjd Hjt.
    by eapply (E3 v u j i); eauto; congruence.
Qed.

(** Saving over a row whose domain does not change: a compare and swap on the
    revision, the principal included, that stops nowhere in between. *)
Lemma save_own r s e i :
  RegistryOK r -> validate_service s = true -> 1 <= e < MAX_SERVICE_REVISION ->
  sv_service_revision s = e + 1 ->
  (forall old, services r !! sv_service_id s = Some old -> sv_domain_name old = sv_domain_name s) ->
  identities r !! sv_service_id s = Some i \/ services r !! sv_service_id s = None ->
  save s e r
  = match services r !! sv_service_id s with
    | Some old =>
        if bool_decide (sv_principal_id old = sv_principal_id s) && (sv_service_revision old =? e)
        then (Ok SAVED, saved_as s i r) else (Ok STALE_REVISION, r)
    | None => (Ok STALE_REVISION, r)
    end.
Proof.
  intros Hr Hv He Hrev Hdom Hi. unfold save, fail_if. rewrite raise_when_bind.
  replace (negb ((1 <=? e) && (e <? MAX_SERVICE_REVISION)) || negb (sv_service_revision s =? e + 1))
    with false by (symmetry; bools; lia).
  unfold mbind at 1, txn_bind at 1. unfold update_service, fail_if. rewrite raise_when_bind, Hv. cbn [negb].
  rewrite reading_bind. unfold id. destruct (services r !! sv_service_id s) as [old|] eqn:Hold; [|done].
  destruct (bool_decide (sv_principal_id old = sv_principal_id s) && (sv_service_revision old =? e)) eqn:Ec;
    [|done]. bools. destruct Ec as [Hp _]. destruct Hi as [Hi|]; [|done].
  destruct (ca_service r (ok_catalogued r Hr) _ _ Hold) as (i' & Hi' & Hl & Hip & Hid & _).
  assert (i' = i) as -> by congruence.
  assert (domain_taken r (sv_principal_id s) (sv_domain_name s) (sv_service_id s) = false) as Hfree.
  { apply not_true_iff_false. intros ((v, t) & Hin & Hb)%existsb_exists.
    apply list_elem_of_In, elem_of_map_to_list in Hin. bools. destruct Hb as [[Hne Htp] Htd].
    apply Hne. eapply (so_domain r (ok_services r Hr)); [done..|congruence|].
    rewrite Htd. symmetry. by apply Hdom. }
  rewrite raise_when_bind, Hfree. unfold update_live_identity, update_identity.
  cbn [writing mbind txn_bind ret]. unfold mbind, txn_bind, reading, writing, ret, id. cbn.
  rewrite Hi. unfold fail_if, is_live. rewrite Hip, Hl, Hp, !bool_decide_true by done. cbn.
  rewrite relabel_allowed with (old := old); [done|done..| |done].
  rewrite Hid. f_equal. by apply Hdom.
Qed.

(** ** Operational transitions of a stored service *)
Lemma operational_command_valid o c :
  operational_command o = Ok c ->
  c = {| oc_kind := oi_kind o; oc_fields := oi_fields o |}
  /\ 1 <= op_expected_service_revision (oi_fields o) < MAX_SERVICE_REVISION.
Proof.
  unfold operational_command, make_operational_command, validate_command_fields.
  rewrite unit_then, !raise_if_then, raise_if_Ok. intros [(_ & _ & _ & Hr & _) [= <-]]. bools. split; [done|lia].
Qed.

Lemma operational_fields_valid o s target t :
  validate_service s = true -> operational_target o s = Ok target ->
  sv_service_revision s = op_expected_service_revision (oi_fields o) -> sv_updated_at s <= t ->
  validate_service (operational_fields s target t) = true.
Proof.
  unfold operational_target. intros [Hwf Ht]%validate_service_spec Htarget Hrev Hle.
  apply bind_Ok in Htarget as (c & [_ Hr]%operational_command_valid & _).
  apply validate_service_spec. split; [|exact Ht]. destruct Hwf as [W1 W2 W3 W4 W5 W6 W7 W8].
  split; cbn; [done|lia|unfold MAX_SERVICE_REVISION in *; lia|done|done| |done|done].
  intros u Hu. specialize (W6 u Hu). lia.
Qed.

Lemma stored_service r u s :
  RegistryOK r -> services r !! u = Some s ->
  sv_service_id s = u /\ validate_service s = true
  /\ exists i, identities r !! u = Some i /\ matches s i.
Proof.
  intros Hr Hs. destruct (so_valid r (ok_services r Hr) u s Hs). split_and!; [done..|].
  by apply (ca_service r (ok_catalogued r Hr)).
Qed.

Lemma save_operational_spec r o s i t :
  RegistryOK r -> services r !! sv_service_id s = Some s -> identities r !! sv_service_id s = Some i ->
  save_operational o (Some s) t r
  = match operational_target o s with
    | Ok target =>
        if (sv_service_revision s =? op_expected_service_revision (oi_fields o)) && (sv_updated_at s <=? t)
        then (Ok (operational_fields s target t), saved_as (operational_fields s target t) i r)
        else (Raise StorageMigrationError, r)
    | Raise _ => (Raise StorageMigrationError, r)
    end.
Proof.
  intros Hr Hs Hi. destruct (stored_service r _ _ Hr Hs) as (_ & Hv & _).
  unfold save_operational, fail_if. rewrite raise_when_bind, Z.ltb_antisym.
  destruct (sv_service_revision s =? op_expected_service_revision (oi_fields o)) eqn:Erev; cbn [negb orb andb];
    [|by destruct (operational_target o s)].
  destruct (sv_updated_at s <=? t) eqn:Et; cbn [negb]; [|by destruct (operational_target o s)].
  bools. destruct (operational_target o s) as [target|] eqn:Etarget; [|done].
  pose proof (operational_fields_valid o s target t Hv Etarget Erev Et) as Hv'.
  pose proof Etarget as (c & [_ Hrange]%operational_command_valid & _)%bind_Ok.
  assert (make_service (operational_fields s target t) = Ok (operational_fields s target t)) as Emake.
  { apply make_service_spec. split; [by apply validate_service_spec|done]. }
  assert (save (operational_fields s target t) (op_expected_service_revision (oi_fields o)) r
          = (Ok SAVED, saved_as (operational_fields s target t) i r)) as Esave.
  { rewrite (save_own r _ _ i); cbn [operational_fields sv_service_id sv_principal_id sv_service_revision];
      [|done..|lia|intros old Hold; cbn; congruence|by left].
    rewrite Hs, bool_decide_true, Erev, Z.eqb_refl by done. done. }
  unfold checked, lift. cbn [mbind txn_bind]. unfold mbind, txn_bind, ret.
  rewrite Emake, Esave. done.
Qed.

Lemma catalogued_saved_as r s i :
  Catalogued r -> id_state i = LIVE -> id_principal i = sv_principal_id s -> Catalogued (saved_as s i r).
Proof. intros HC Hl Hp. apply catalogued_insert; [done|by apply matches_relabel]. Qed.

(** A [try] around the save: either the whole save, or nothing. *)
Lemma try_save_operational r o u p t s r1 x r' :
  RegistryOK r -> select_service p u r = (Ok s, r1) ->
  catch (terminal ← save_operational o s t; ret (Some terminal)) (ret None) r1 = (Ok x, r') ->
  match x with
  | Some terminal => exists s i, services r !! u = Some s /\ sv_principal_id s = p
      /\ identities r !! u = Some i /\ matches s i
      /\ sv_service_revision s = op_expected_service_revision (oi_fields o) /\ sv_updated_at s <= t
      /\ (exists target, operational_target o s = Ok target /\ terminal = operational_fields s target t)
      /\ r' = saved_as terminal i r
  | None => r' = r
  end.
Proof.
  intros Hr Hsel Hcatch.
  eapply atomic_run in Hsel; [|apply select_service_atomic]. destruct Hsel as [-> Hsel].
  destruct s as [s|]; [|by injection Hcatch as <- <-]. destruct Hsel as (Hs & Hp & _).
  destruct (stored_service r u s Hr Hs) as (Hu & _ & i & Hi & Hm). subst u.
  unfold catch in Hcatch. unfold mbind, txn_bind in Hcatch.
  rewrite (save_operational_spec r o s i t Hr Hs Hi) in Hcatch.
  destruct (operational_target o s) as [target|] eqn:Et; [|by injection Hcatch as <- <-].
  destruct ((sv_service_revision s =? _) && (sv_updated_at s <=? t)) eqn:Eb; [|by injection Hcatch as <- <-].
  injection Hcatch as <- <-. bools. destruct Eb. exists s, i. split_and!; try done. by exists target.
Qed.
End operations.

(** ** Every operation that returns keeps the whole invariant *)
Section keep_all.
Context `{PublicModels} `{FloatRepr} `{UnicodeData}.

Lemma ok_after {A} (m : registry A) r a r' :
  (forall R, Respected R -> respects R m) -> RegistryOK r -> m r = (Ok a, r') -> Catalogued r' ->
  RegistryOK r'.
Proof.
  intros Hm Hr Hrun HC.
  assert (forall R, Respected R -> R r r') as HR.
  { intros R HRes. specialize (Hm R HRes r). by rewrite Hrun in Hm. }
  destruct Hr as [O1 O2 O3 O4 _]. split; [| | | |done].
  - by apply (HR services_le _).
  - by apply (HR claims_le _).
  - by apply (HR references_le _).
  - by apply (HR references_le _).
Qed.

Lemma keeps_bookkeeping {A} (m : registry A) :
  (forall R, Bookkeeping R -> respects R m) -> keeps RegistryOK m.
Proof.
  intros Hm r a r' Hr Hrun. eapply ok_after; [|done..|].
  - intros R HR. apply Hm, _.
  - eapply bookkeeping_keeps; [apply Hm, _|by apply ok_catalogued|done].
Qed.

Lemma keeps_full {A} (m : registry A) :
  (forall R, Respected R -> respects R m) -> keeps Catalogued m -> keeps RegistryOK m.
Proof.
  intros Hm HC r a r' Hr Hrun. eapply ok_after; [done..|]. eapply HC; [by apply ok_catalogued|done].
Qed.

Lemma keeps_save_ok s e : keeps RegistryOK (save s e).
Proof. apply keeps_full; [intros; apply respects_save, _|apply keeps_save]. Qed.
End keep_all.

Ltac keeping :=
  repeat first
    [ apply keeps_save_ok
    | solve [apply keeps_bookkeeping; intros; respectful]
    | match goal with
      | |- keeps _ (mbind _ _) => apply keeps_bind; [|intros ?]
      | |- keeps _ (match ?x with _ => _ end) => destruct x
      end ].

Section keep_operations.
Context `{PublicModels} `{FloatRepr} `{UnicodeData}.

Lemma keeps_finalize_completed c : keeps RegistryOK (finalize_completed c).
Proof. unfold finalize_completed, save_terminal. cbv zeta. keeping. Qed.

Lemma keeps_prepare_import q now : keeps RegistryOK (prepare_import q now).
Proof.
  unfold prepare_import. case_match; [keeping|]. case_match; [|keeping].
  apply keeps_bind; [keeping|intros r0]. case_match; [keeping|].
  apply keeps_bind; [keeping|intros _]. apply keeps_bind; [|intros _; keeping].
  apply keeps_full; [intros; apply r_insert_identity|].
  intros r a r' HC Hrun. eapply atomic_run in Hrun; [|apply insert_identity_atomic].
  destruct Hrun as (-> & Hn & _). by apply catalogued_reserve.
Qed.

Lemma keeps_resolve_or_prepare c now : keeps RegistryOK (resolve_or_prepare c now).
Proof.
  unfold resolve_or_prepare. keeping. apply keeps_prepare_import.
Qed.

Lemma keeps_when_prepared i k : keeps RegistryOK k -> keeps RegistryOK (when_prepared i k).
Proof. intros Hk. unfold when_prepared. keeping; done. Qed.

Lemma keeps_finalize_operational i t : keeps RegistryOK (finalize_operational i t).
Proof.
  unfold finalize_operational. case_match; [|keeping]. apply keeps_when_prepared.
  intros r a r' Hr (s & r1 & Hsel & Hrun)%bind_returns.
  apply bind_returns in Hrun as (x & r2 & Hcatch & Hrun).
  pose proof (try_save_operational r _ _ _ t s r1 x r2 Hr Hsel Hcatch) as Htry.
  assert (RegistryOK r2) as Hr2; [|].
  { eapply (ok_after (s ← select_service _ _; catch (terminal ← save_operational _ s t; ret (Some terminal)) (ret None))).
    - intros R HR. respectful. by apply respects_save_operational.
    - exact Hr.
    - apply bind_returns. by eauto.
    - destruct x as [terminal|]; [|subst; apply Hr].
      destruct Htry as (s' & j & _ & _ & _ & (Hl & Hp & _) & _ & _ & (target & _ & ->) & ->).
      by apply catalogued_saved_as; [apply Hr|..]. }
  eapply (keeps_bookkeeping (match x with Some _ => _ | None => _ end)); [|exact Hr2|exact Hrun].
  intros R HR. respectful.
Qed.

(** The two row updates of an accepted import. *)
Lemma publish_catalogued r q ident present s t x r1 y r' :
  Catalogued r -> import_accepted r q ident present s t = true -> pi_service_id q = im_service_id ident ->
  insert_service s r = (Ok x, r1) ->
  update_identity (sv_service_id s) (sv_principal_id s) (reserved_by (pi_idempotency_key q))
    (publish_identity s) r1 = (Ok y, r') -> Catalogued r'.
Proof.
  intros HC Hacc Hid E1 E2.
  eapply atomic_run in E1; [|apply insert_service_atomic]. destruct E1 as (-> & _).
  eapply atomic_run in E2; [|apply update_identity_atomic]. destruct E2 as (i & Hi & Hp & _ & _ & ->).
  apply catalogued_insert; [done|]. unfold import_accepted in Hacc. cbn in Hi.
  destruct (identities r !! pi_service_id q) as [j|] eqn:Hj; [|done].
  assert (sv_service_id s = im_service_id ident /\ sv_domain_name s = im_domain_name ident
    /\ id_domain j = Some (im_domain_name ident)) as (Hs & Hn & Hd) by (bools; tauto).
  assert (i = j) as -> by congruence. unfold matches; cbn. split_and!; congruence.
Qed.

Lemma purge_catalogued r p u key t x r1 y r' :
  Catalogued r -> delete_service p u r = (Ok x, r1) ->
  update_identity u p is_live (bury_identity key t) r1 = (Ok y, r') -> Catalogued r'.
Proof.
  intros HC E1 E2.
  eapply atomic_run in E1; [|apply delete_service_atomic]. destruct E1 as (s & _ & _ & ->).
  eapply atomic_run in E2; [|apply update_identity_atomic]. destruct E2 as (i & _ & _ & _ & _ & ->).
  by apply catalogued_delete.
Qed.

Lemma import_intent_id q ident :
  decode_authority_intent (AI_Portable q) = Ok (AI_Portable q) -> pi_kind q = IMPORT ->
  pi_identity q = Some ident -> pi_service_id q = im_service_id ident.
Proof.
  cbn [decode_authority_intent]. intros Hd Hk Hi. rewrite Hi in Hd.
  apply unit_then in Hd as [_ Hd]. apply unit_then in Hd as [_ Hd].
  apply bind_Ok in Hd as (q' & Hq & _). unfold make_portable_intent in Hq.
  do 5 apply unit_then in Hq as [_ Hq]. apply unit_then in Hq as [Hshape _].
  unfold portable_shape in Hshape. rewrite Hk, Hi in Hshape.
  destruct (pi_bundle_root_sha256 q), (pi_destination_backend q); try done.
  apply raise_if_then in Hshape as [Hshape _]. bools. naive_solver.
Qed.

Lemma keeps_publish_import i s t :
  decode_authority_intent i = Ok i -> keeps RegistryOK (publish_import i s t).
Proof.
  intros Hi r a r' Hr Hrun.
  eapply (ok_after (publish_import i s t)); [intros R HR; by apply respects_publish_import|done..|].
  revert r a r' Hr Hrun. unfold publish_import. destruct i as [o|q]; [done|].
  intros r a r' Hr (? & r0 & E0 & Hrun)%bind_returns. unfold fail_if in E0.
  apply raise_when_returns in E0 as [Hk ->]. apply bool_decide_eq_false, dec_stable in Hk.
  unfold when_prepared in Hrun. apply bind_returns in Hrun as (existing & r1 & E1 & Hrun).
  assert (Catalogued r1) as HC1.
  { eapply bookkeeping_keeps; [|apply (ok_catalogued _ Hr)|exact E1]. respectful. }
  destruct existing; try (by apply ret_returns in Hrun as [_ ->]).
  destruct (pi_identity q) as [ident|] eqn:Hident.
  2:{ eapply bookkeeping_keeps; [|exact HC1|exact Hrun]. respectful. }
  apply bind_returns in Hrun as (present & r2 & E2 & Hrun).
  eapply atomic_run in E2; [|apply select_service_atomic]. destruct E2 as [-> _].
  rewrite reading_bind in Hrun. unfold id in Hrun. destruct (import_accepted _ _ _ _ _ _) eqn:Hacc.
  2:{ eapply bookkeeping_keeps; [|exact HC1|exact Hrun]. respectful. }
  apply bind_returns in Hrun as (? & r3 & E3 & Hrun). apply bind_returns in Hrun as (? & r4 & E4 & Hrun).
  eapply bookkeeping_keeps; [| |exact Hrun]; [respectful|].
  eapply publish_catalogued; [exact HC1|exact Hacc|by apply import_intent_id|done..].
Qed.

Lemma keeps_finalize_purge i t : keeps RegistryOK (finalize_purge i t).
Proof.
  intros r a r' Hr Hrun.
  eapply (ok_after (finalize_purge i t)); [intros R HR; by apply respects_finalize_purge|done..|].
  apply ok_catalogued in Hr. revert r a r' Hr Hrun. fold (keeps Catalogued (finalize_purge i t)).
  unfold finalize_purge, when_prepared. destruct i as [o|q]; [done|].
  assert (forall A (m : registry A), respects same_catalogue m -> keeps Catalogued m) as Hbk
    by (intros; by apply bookkeeping_keeps).
  apply keeps_bind; [apply Hbk; respectful|intros _].
  apply keeps_bind; [apply Hbk; respectful|intros existing]. destruct existing; try solve [apply Hbk; respectful].
  apply keeps_bind; [apply Hbk; respectful|intros s].
  apply keeps_bind; [apply Hbk; respectful|intros r0].
  destruct s as [s|], (pi_purge_authority q) as [auth|]; try solve [apply Hbk; respectful].
  case_match; [|apply Hbk; respectful].
  apply keeps_bind; [apply Hbk; respectful|intros tomb].
  apply keeps_bind; [apply Hbk; respectful|intros _].
  apply keeps_bind; [apply Hbk; respectful|intros _].
  intros r x r' HC (? & r1 & E1 & Hrun)%bind_returns. apply bind_returns in Hrun as (? & r2 & E2 & Hrun).
  eapply Hbk; [| |exact Hrun]; [respectful|]. by eapply purge_catalogued.
Qed.

Lemma run_keeps op : constructed op -> keeps RegistryOK (run op).
Proof.
  intros Hop. destruct op; cbn [run]; keeping.
  - apply keeps_full; [intros; apply respects_add, _|apply keeps_add].
  - apply keeps_finalize_completed.
  - apply keeps_resolve_or_prepare.
  - apply keeps_finalize_operational.
  - by apply keeps_publish_import.
  - apply keeps_finalize_purge.
Qed.

Lemma run_all_keeps ops : Forall constructed ops -> keeps RegistryOK (run_all ops).
Proof.
  induction 1 as [|op ops Hop _ IH]; cbn [run_all]; keeping; [by apply run_keeps|done].
Qed.
End keep_operations.

Lemma empty_registry_ok `{PublicModels} `{UnicodeData} : RegistryOK empty_registry.
Proof.
  split; split; cbn; intros; repeat match goal with H : _ !! _ = Some _ |- _ => by rewrite lookup_empty in H end.
Qed.

Lemma reachable_ok `{PublicModels} `{FloatRepr} `{UnicodeData} r : reachable r -> RegistryOK r.
Proof.
  induction 1 as [|ops r Hr IH Hops]; [apply empty_registry_ok|].
  unfold unit_of_work. destruct (run_all ops r) as [[u|e] r'] eqn:E; [|done].
  by eapply run_all_keeps.
Qed.

(** ** Properties *)

(** C1: The registry invariant holds in every state a registry reaches through
    committed and rolled-back units of work.  Stored services are valid and
    unique by domain; every claim row has the shape of its phase and at most one
    claim of a service is active; identities and receipts refer to claims that
    exist; and every live identity stands for exactly one service with its
    principal, domain and backend. *)
Theorem registry_invariant `{PublicModels} `{FloatRepr} `{UnicodeData} (r : Registry) :
  reachable r -> RegistryOK r.
Proof. apply reachable_ok. Qed.

Definition seeded_shop : Service :=
  {| sv_service_id := 7%N; sv_principal_id := lit "owner"; sv_domain_name := lit "shop";
     sv_domain_class := lit "commerce"; sv_intent_description := lit "orders";
     sv_created_at := 10; sv_updated_at := 10; sv_last_activity_at := 10;
     sv_manifest := Some shop_v1; sv_schema_version := Some 1; sv_design_state := SEEDED;
     sv_operational_status := ACTIVE; sv_service_revision := 3; sv_materialised_at := None;
     sv_storage := None |}.

Lemma registry_invariant_witness :
  let r := @unit_of_work plain_models datum_float_repr ascii_printable [Op_add seeded_shop] empty_registry in
  services r !! 7%N = Some seeded_shop /\ @RegistryOK plain_models ascii_printable r.
Proof.
  intros r. split; [by vm_compute|]. apply (@registry_invariant plain_models datum_float_repr ascii_printable r).
  apply reachable_unit; [apply reachable_empty|by repeat constructor].
Defined.

(** Saving a service is a compare and swap on its revision.  Over a stored
    service of the same domain, [save] replaces the row and its identity
    together exactly when the principal and the expected revision are the
    stored ones, and otherwise reports a stale revision and changes nothing; it
    never raises in between. *)
Theorem save_compare_and_swap `{PublicModels} `{FloatRepr} `{UnicodeData} (r : Registry)
    (s old : Service) (e : Z) :
  RegistryOK r -> validate_service s = true -> 1 <= e < MAX_SERVICE_REVISION ->
  sv_service_revision s = e + 1 -> services r !! sv_service_id s = Some old ->
  sv_domain_name old = sv_domain_name s ->
  exists i, identities r !! sv_service_id s = Some i /\ matches old i
    /\ save s e r
       = if bool_decide (sv_principal_id old = sv_principal_id s) && (sv_service_revision old =? e)
         then (Ok SAVED, saved_as s i r) else (Ok STALE_REVISION, r).
Proof.
  intros Hr Hv He Hrev Hold Hdom. destruct (stored_service r _ old Hr Hold) as (_ & _ & i & Hi & Hm).
  exists i. split_and!; [done..|]. rewrite (save_own r s e i); [by rewrite Hold|done..| |by left].
  intros old' Hold'. congruence.
Qed.

Definition renamed_shop : Service :=
  {| sv_service_id := 7%N; sv_principal_id := lit "owner"; sv_domain_name := lit "shop";
     sv_domain_class := lit "commerce"; sv_intent_description := lit "orders and returns";
     sv_created_at := 10; sv_updated_at := 15; sv_last_activity_at := 15;
     sv_manifest := Some shop_v1; sv_schema_version := Some 1; sv_design_state := SEEDED;
     sv_operational_status := ACTIVE; sv_service_revision := 4; sv_materialised_at := None;
     sv_storage := None |}.

Definition shop_registry : Registry :=
  @unit_of_work plain_models datum_float_repr ascii_printable [Op_add seeded_shop] empty_registry.

Lemma save_compare_and_swap_witness :
  exists i, @save plain_models ascii_printable renamed_shop 3 shop_registry
            = (Ok SAVED, saved_as renamed_shop i shop_registry).
Proof.
  destruct (@save_compare_and_swap plain_models datum_float_repr ascii_printable shop_registry renamed_shop
              seeded_shop 3) as (i & _ & _ & E).
  - apply (@reachable_ok plain_models datum_float_repr ascii_printable), reachable_unit;
      [apply reachable_empty|by repeat constructor].
  - by vm_compute.
  - by vm_compute.
  - reflexivity.
  - by vm_compute.
  - reflexivity.
  - exists i. exact E.
Defined.
