(* ===== verification/RegistryAuthoritySpec.v ===== *)
(** * RegistryAuthoritySpec: what the finalizers of authority claims do

    With a prepared claim in the ledger every finalizer runs to the end: it
    decides the claim, writes its audit row, and either applies the effect of
    the operation or marks the claim for recovery without touching a service. *)
From S2P Require Export RegistryCatalogue.
From S2P Require Import Prelude Values Json Sha256 Manifest Relational Lifecycle LifecycleSpec Operational Models Authority Codecs Samples.

(** ** Phases of an authority intent *)
Definition ai_set_phase (i : RegistryAuthorityIntent) (p : LifecyclePhase) : RegistryAuthorityIntent :=
  match i with
  | AI_Operational o => AI_Operational {| oi_kind := oi_kind o; oi_phase := p; oi_fields := oi_fields o;
                                          oi_target := oi_target o; oi_fingerprint := oi_fingerprint o |}
  | AI_Portable q => AI_Portable (set_phase q p)
  end.

Section intents.
Context `{FloatRepr}.

Definition intent_ok (i : RegistryAuthorityIntent) : Prop := decode_authority_intent i = Ok i.

Lemma make_portable_phase q p :
  make_portable_intent q = Ok q -> make_portable_intent (set_phase q p) = Ok (set_phase q p).
Proof.
  unfold make_portable_intent. intros (E1 & Hq)%unit_then.
  apply unit_then in Hq as [E2 Hq]. apply unit_then in Hq as [E3 Hq]. apply unit_then in Hq as [E4 Hq].
  apply unit_then in Hq as [E5 Hq]. apply unit_then in Hq as [E6 Hq].
  apply bind_Ok in Hq as (c & E7 & Hq). apply raise_if_then in Hq as [E8 _].
  cbn [set_phase pi_principal_id pi_created_via pi_service_id pi_idempotency_key pi_fingerprint].
  rewrite E1, E2, E3, E4, E5. cbn [mbind result_bind].
  change (portable_shape (set_phase q p)) with (portable_shape q). rewrite E6. cbn [mbind result_bind].
  change (portable_command_for_intent (set_phase q p)) with (portable_command_for_intent q).
  rewrite E7. cbn [mbind result_bind]. by rewrite E8.
Qed.

Lemma intent_ok_operational o :
  intent_ok (AI_Operational o) <-> make_operational_intent o = Ok o.
Proof.
  unfold intent_ok. cbn. destruct (make_operational_intent o) as [o'|e] eqn:E.
  - split; [by intros [= ->]|by intros [= ->]].
  - done.
Qed.

Lemma intent_ok_portable q : intent_ok (AI_Portable q) -> make_portable_intent q = Ok q.
Proof.
  unfold intent_ok. cbn. intros (_ & Hq)%unit_then. apply unit_then in Hq as [_ Hq].
  apply bind_Ok in Hq as (q' & Hq & [= ->]). done.
Qed.

Lemma ai_with_phase_ok i p :
  intent_ok i -> ai_phase i = PREPARED -> p <> PREPARED -> ai_with_phase i p = Ok (ai_set_phase i p).
Proof.
  intros Hi Hp Hne. destruct i as [o|q]; cbn [ai_phase ai_with_phase ai_set_phase] in *.
  - apply intent_ok_operational, make_operational_intent_spec in Hi as (_ & Hf & Ho).
    unfold op_with_phase. rewrite Hp, bool_decide_false by (by intros ?).
    assert (op_refuse (false || negb (bool_decide (p = COMPLETED) || bool_decide (p = PHASE_RECOVERY_REQUIRED)))
              OpPhase = Ok tt) as -> by (by destruct p).
    cbn [mbind result_bind].
    match goal with |- context [make_operational_intent ?x] =>
      assert (make_operational_intent x = Ok x) as -> end; [|done].
    apply make_operational_intent_spec. split; [done|]. split; [exact Hf|].
    unfold operational_intent; cbn. rewrite Ho; cbn. done.
  - unfold portable_with_phase. rewrite Hp, !bool_decide_false by first [done|by intros ?]. cbn.
    by rewrite make_portable_phase by (by apply intent_ok_portable).
Qed.

Lemma intent_ok_fields i :
  intent_ok i ->
  valid_text (ai_principal_id i) MAX_PRINCIPAL_LENGTH = true
  /\ valid_text (ai_created_via i) MAX_CREATED_VIA_LENGTH = true
  /\ ai_service_id i <> 0%N
  /\ valid_text (ai_idempotency_key i) MAX_IDEMPOTENCY_KEY_LENGTH = true
  /\ valid_sha256 (ai_fingerprint i) = true.
Proof.
  intros Hi. destruct i as [o|q].
  - apply intent_ok_operational in Hi. unfold make_operational_intent, validate_command_fields in Hi. cbn.
    apply unit_then in Hi as [Hf Hi]. rewrite !raise_if_then, raise_if_Ok in Hf. apply raise_if_then in Hi as [_ Hi].
    apply raise_if_then in Hi as [Hfp _]. bools. tauto.
  - apply intent_ok_portable in Hi. unfold make_portable_intent, validate_principal, validate_created_via,
      validate_service_id, validate_idempotency_key, validate_sha256 in Hi. cbn.
    rewrite !raise_if_then in Hi. bools. tauto.
Qed.
End intents.

(** ** Prepared claims *)
Definition prepared_row (i : RegistryAuthorityIntent) : Claim :=
  {| cm_fingerprint := ai_fingerprint i; cm_service_id := ai_service_id i; cm_kind := authority_kind i;
     cm_phase := Live PREPARED; cm_evidence := Ev_Authority i; cm_result := None |}.

Definition decided_row (i : RegistryAuthorityIntent) (p : LifecyclePhase) (x : option AuthorityResult)
  : Claim :=
  {| cm_fingerprint := ai_fingerprint i; cm_service_id := ai_service_id i; cm_kind := authority_kind i;
     cm_phase := Live p; cm_evidence := Ev_Authority (ai_set_phase i p); cm_result := x |}.

Definition event_of (i : RegistryAuthorityIntent) (outcome : pystr) (t : datetime) : AuditEvent :=
  {| ae_action := ai_kind_str i; ae_outcome := outcome; ae_service_id := ai_service_id i;
     ae_principal_id := ai_principal_id i; ae_created_via := ai_created_via i; ae_at := t |}.

(** The claim decided and its audit row written; the other tables untouched. *)
Definition decided (i : RegistryAuthorityIntent) (p : LifecyclePhase) (x : option AuthorityResult)
    (outcome : pystr) (t : datetime) (r : Registry) : Registry :=
  set_audits (fun l => retain (ai_principal_id i) (l ++ [event_of i outcome t]))
    (set_claims <[(ai_principal_id i, ai_idempotency_key i) := decided_row i p x]> r).

Section spec.
Context `{PublicModels} `{FloatRepr} `{UnicodeData}.

Definition claim_prepared (r : Registry) (i : RegistryAuthorityIntent) : Prop :=
  claims r !! (ai_principal_id i, ai_idempotency_key i) = Some (prepared_row i)
  /\ intent_ok i /\ ai_phase i = PREPARED.

(** A prepared claim is found again by its own intent. *)
Lemma existing_prepared r i :
  intent_ok i -> ai_phase i = PREPARED ->
  existing_authority_claim (ai_principal_id i) (ai_idempotency_key i) (prepared_row i) i r
  = (Ok (RA_Prepared i), r).
Proof.
  intros Hok Hp. unfold existing_authority_claim, prepared_row. cbn [cm_kind cm_phase cm_evidence].
  replace (older_kind (authority_kind i)) with false by (by destruct i).
  unfold stored_authority_intent. cbn [cm_evidence]. unfold checked. rewrite Hok. cbn [lift].
  unfold mbind at 1, txn_bind at 1. unfold ret at 1. cbv beta.
  rewrite !bool_decide_false by (by intros ?). cbn [orb].
  unfold validate_authority_row, fail_if. cbn [cm_fingerprint cm_kind cm_service_id cm_phase cm_result].
  rewrite Hp, N.eqb_refl, !bool_decide_false by (by intros ?). cbn. done.
Qed.

Lemma when_prepared_runs r i k : claim_prepared r i -> when_prepared i k r = k r.
Proof.
  intros (Hc & Hok & Hp). unfold when_prepared, authority_prepared_or_terminal, fail_if, select_claim.
  rewrite Hp, bool_decide_false by (by intros ?). unfold mbind, txn_bind, raise_when, reading, ret.
  rewrite Hc. fold (@txn_bind Registry StorageError). by rewrite existing_prepared.
Qed.

Lemma event_columns i outcome t :
  intent_ok i -> outcome = lit "completed" \/ outcome = lit "recovery_required" ->
  audit_columns (event_of i outcome t) = true.
Proof.
  intros (H1' & H2' & H3' & _ & _)%intent_ok_fields Ho. unfold audit_columns, event_of; cbn [ae_action ae_outcome
    ae_service_id ae_principal_id ae_created_via].
  rewrite (valid_text_column _ 128 H1'), (valid_text_column _ 64 H2').
  apply N.eqb_neq in H3'. rewrite H3'. cbn [negb andb].
  destruct i as [o|q]; [destruct (oi_kind o) eqn:Ek|destruct (pi_kind q) eqn:Ek]; cbn [ai_kind_str]; rewrite Ek;
    destruct Ho as [->| ->]; vm_compute; reflexivity.
Qed.

Lemma append_event_runs r i outcome t :
  intent_ok i -> outcome = lit "completed" \/ outcome = lit "recovery_required" ->
  append_local_event i outcome t r
  = (Ok tt, set_audits (fun l => retain (ai_principal_id i) (l ++ [event_of i outcome t])) r).
Proof.
  intros Hok Ho. pose proof (intent_ok_fields i Hok) as (H1' & H2' & H3' & _).
  unfold append_local_event, make_local_event, validate_service_id, validate_principal, validate_created_via.
  apply N.eqb_neq in H3'. rewrite H1', H2', H3'. cbn [negb raise_if mbind result_bind checked lift].
  unfold mbind, txn_bind, ret, append_audit, fail_if.
  change {| ae_action := _ |} with (event_of i outcome t). rewrite event_columns by done. done.
Qed.

Lemma intent_ok_phase i p : intent_ok i -> intent_ok (ai_set_phase i p).
Proof.
  destruct i as [o|q]; cbn [ai_set_phase].
  - rewrite !intent_ok_operational, !make_operational_intent_spec. intros (_ & Hf & Ho).
    split; [done|]. split; [done|]. rewrite Ho; cbn. done.
  - intros Hq. pose proof (intent_ok_portable q Hq) as Hm. unfold intent_ok in *. cbn in *.
    apply unit_then in Hq as [E1 Hq]. apply unit_then in Hq as [E2 _]. rewrite E1, E2. cbn [mbind result_bind].
    by rewrite make_portable_phase.
Qed.

(** ** Decisions *)
Lemma update_prepared_row r i p x :
  claims r !! (ai_principal_id i, ai_idempotency_key i) = Some (prepared_row i) ->
  claim_shape (decided_row i p x) = true ->
  update_prepared (ai_principal_id i) (ai_idempotency_key i) (ai_fingerprint i) p
    (Some (Ev_Authority (ai_set_phase i p))) x r
  = (Ok tt, set_claims <[(ai_principal_id i, ai_idempotency_key i) := decided_row i p x]> r).
Proof.
  intros Hc Hshape. unfold update_prepared, select_claim. rewrite reading_bind, Hc.
  cbn [prepared_row cm_fingerprint cm_service_id cm_kind cm_phase cm_evidence cm_result].
  assert (match x with Some y => Some y | None => None end = x) as -> by (by destruct x).
  unfold fail_if. rewrite raise_when_bind, !bool_decide_false by (by intros ?). cbn [orb].
  rewrite raise_when_bind. change {| cm_fingerprint := _ |} with (decided_row i p x). by rewrite Hshape.
Qed.

Lemma mark_authority_recovery_runs r i t :
  claim_prepared r i ->
  mark_authority_recovery i t r
  = (Ok (RA_RecoveryRequired (Active_Authority (ai_set_phase i PHASE_RECOVERY_REQUIRED))),
     decided i PHASE_RECOVERY_REQUIRED None (lit "recovery_required") t r).
Proof.
  intros (Hc & Hok & Hp). unfold mark_authority_recovery, checked.
  rewrite ai_with_phase_ok by done. unfold lift, mbind, txn_bind, ret.
  rewrite update_prepared_row; [|done|by destruct i].
  rewrite append_event_runs by first [by apply intent_ok_phase|by right].
  by destruct i.
Qed.

Lemma complete_authority_runs r i x t :
  claim_prepared r i -> authority_result_valid x = true ->
  completion_ok (ai_set_phase i COMPLETED) x = true ->
  complete_authority i x t r
  = (Ok (RA_Completed {| cr_intent := ai_set_phase i COMPLETED; cr_result := x |}),
     decided i COMPLETED (Some x) (lit "completed") t r).
Proof.
  intros (Hc & Hok & Hp) Hv Hx. unfold complete_authority, checked.
  assert (match x with Result_Service s => negb (validate_service s) | _ => false end = false) as ->
    by (destruct x; cbn in Hv; by rewrite ?Hv).
  rewrite ai_with_phase_ok by done. unfold fail_if, raise_when, lift, mbind, txn_bind, ret.
  rewrite update_prepared_row; [|done|by destruct i].
  unfold make_completed_registry. rewrite Hx, bool_decide_false by (by destruct i; intros ?).
  cbn [negb raise_if mbind result_bind].
  rewrite append_event_runs by first [by apply intent_ok_phase|by left]. by destruct i.
Qed.
End spec.

(** ** Operational transitions *)
Section operational.
Context `{PublicModels} `{FloatRepr} `{UnicodeData}.

(** The service is the intent's, at its revision, and allows its action. *)
Definition may_transition (o : OperationalLifecycleIntent) (s : Service) (t : datetime) : Prop :=
  sv_principal_id s = op_principal_id (oi_fields o)
  /\ sv_service_revision s = op_expected_service_revision (oi_fields o)
  /\ sv_updated_at s <= t
  /\ allowed_source (oi_kind o) (sv_operational_status s) = true.

Lemma operational_target_spec o s :
  intent_ok (AI_Operational o) ->
  operational_target o s
  = if allowed_source (oi_kind o) (sv_operational_status s) then Ok (oi_target o) else Raise OpUnsupported.
Proof.
  intros (_ & Hf & Ho)%intent_ok_operational%make_operational_intent_spec.
  unfold operational_target, operational_command, make_operational_command. rewrite Hf. cbn [mbind result_bind].
  unfold transition_target_status. cbn [oc_kind].
  assert (oi_target o = deterministic_target_status (oi_kind o)) as -> by (by rewrite Ho).
  by destruct (allowed_source (oi_kind o) (sv_operational_status s)).
Qed.

Lemma claim_prepared_saved_as r i s j : claim_prepared r i -> claim_prepared (saved_as s j r) i.
Proof. done. Qed.

(** The [try] block, decided by the service. *)
Lemma try_save_runs r o s j t :
  RegistryOK r -> intent_ok (AI_Operational o) ->
  services r !! sv_service_id s = Some s -> identities r !! sv_service_id s = Some j ->
  catch (terminal ← save_operational o (Some s) t; ret (Some terminal)) (ret None) r
  = if allowed_source (oi_kind o) (sv_operational_status s)
       && ((sv_service_revision s =? op_expected_service_revision (oi_fields o)) && (sv_updated_at s <=? t))
    then (Ok (Some (operational_fields s (oi_target o) t)), saved_as (operational_fields s (oi_target o) t) j r)
    else (Ok None, r).
Proof.
  intros Hr Hok Hs Hj. unfold catch, mbind, txn_bind.
  rewrite (save_operational_spec r o s j t Hr Hs Hj), operational_target_spec by done.
  destruct (allowed_source _ _); [|done]. cbn [andb].
  by destruct (sv_service_revision s =? _), (sv_updated_at s <=? t).
Qed.

Lemma select_service_runs r p u :
  RegistryOK r ->
  select_service p u r
  = (Ok (match services r !! u with
         | Some s => if bool_decide (sv_principal_id s = p) then Some s else None
         | None => None
         end), r).
Proof.
  intros Hr. unfold select_service. rewrite reading_bind. unfold id.
  destruct (services r !! u) as [s|] eqn:Hs; [|done]. case_bool_decide; [|done].
  destruct (stored_service r u s Hr Hs) as (_ & Hv & _). unfold fail_if. by rewrite raise_when_bind, Hv.
Qed.

Lemma finalize_operational_absent r o t :
  RegistryOK r -> claim_prepared r (AI_Operational o) ->
  services r !! op_service_id (oi_fields o) = None ->
  finalize_operational (AI_Operational o) t r = mark_authority_recovery (AI_Operational o) t r.
Proof.
  intros Hr Hclaim Hs. unfold finalize_operational. rewrite when_prepared_runs by done.
  cbn [ai_principal_id ai_service_id]. unfold mbind at 1, txn_bind at 1.
  by rewrite select_service_runs, Hs by done.
Qed.

Lemma finalize_operational_present r o t s j :
  RegistryOK r -> claim_prepared r (AI_Operational o) ->
  services r !! op_service_id (oi_fields o) = Some s ->
  identities r !! op_service_id (oi_fields o) = Some j ->
  finalize_operational (AI_Operational o) t r
  = if bool_decide (may_transition o s t)
    then complete_authority (AI_Operational o) (Result_Service (operational_fields s (oi_target o) t)) t
           (saved_as (operational_fields s (oi_target o) t) j r)
    else mark_authority_recovery (AI_Operational o) t r.
Proof.
  intros Hr Hclaim Hs Hj. pose proof Hclaim as (_ & Hok & _). unfold finalize_operational.
  rewrite when_prepared_runs by done. cbn [ai_principal_id ai_service_id].
  unfold mbind at 1, txn_bind at 1. rewrite select_service_runs, Hs by done.
  destruct (stored_service r _ s Hr Hs) as (Hu & _).
  rewrite <- Hu in Hs, Hj. unfold may_transition. case_bool_decide as Hp.
  2:{ rewrite bool_decide_false by tauto. done. }
  unfold mbind at 1, txn_bind at 1. rewrite try_save_runs with (j := j) by done.
  destruct (allowed_source (oi_kind o) (sv_operational_status s)) eqn:Ha; cbn [andb].
  2:{ rewrite bool_decide_false by intuition congruence. done. }
  destruct ((sv_service_revision s =? _) && (sv_updated_at s <=? t)) eqn:Eb; bools.
  - by rewrite bool_decide_true by intuition.
  - rewrite bool_decide_false; [done|]. lia.
Qed.
End operational.

(** ** Properties *)

(** C29: Finalizing a suspend, resume, archive or restore always decides its
    prepared claim.  If the service is still the one the intent was prepared
    for, the transition is allowed and time has not gone back, exactly its
    status, times and revision change and the claim completes with the saved
    service; otherwise no service changes and the claim asks for recovery.  The
    exception handler never leaves a half-saved service behind. *)
Theorem finalize_operational_decides `{PublicModels} `{FloatRepr} `{UnicodeData} (r : Registry)
    (o : OperationalLifecycleIntent) (t : datetime) :
  let i := AI_Operational o in
  let u := op_service_id (oi_fields o) in
  RegistryOK r -> claim_prepared r i ->
  (exists s j, services r !! u = Some s /\ identities r !! u = Some j /\ may_transition o s t
     /\ let s' := operational_fields s (oi_target o) t in
        finalize_operational i t r
        = (Ok (RA_Completed {| cr_intent := ai_set_phase i COMPLETED; cr_result := Result_Service s' |}),
           decided i COMPLETED (Some (Result_Service s')) (lit "completed") t (saved_as s' j r)))
  \/ ((forall s, services r !! u = Some s -> ~ may_transition o s t)
      /\ finalize_operational i t r
         = (Ok (RA_RecoveryRequired (Active_Authority (ai_set_phase i PHASE_RECOVERY_REQUIRED))),
            decided i PHASE_RECOVERY_REQUIRED None (lit "recovery_required") t r)).
Proof.
  intros i u Hr Hclaim. pose proof Hclaim as (_ & Hok & _).
  destruct (services r !! u) as [s|] eqn:Hs.
  2:{ right. split; [done|]. unfold i. rewrite finalize_operational_absent by done.
      by apply mark_authority_recovery_runs. }
  destruct (stored_service r u s Hr Hs) as (Hu & Hv & j & Hj & _).
  unfold i. rewrite (finalize_operational_present r o t s j) by done.
  destruct (bool_decide (may_transition o s t)) eqn:Hmay; bools.
  2:{ right. split; [congruence|]. by apply mark_authority_recovery_runs. }
  left. exists s, j. split_and!; try done. destruct Hmay as (Hp & Erev & Et & Ha).
  apply complete_authority_runs; [by apply claim_prepared_saved_as| |].
  - eapply operational_fields_valid; [done| |done..]. by rewrite operational_target_spec, Ha by done.
  - cbn [ai_set_phase completion_ok]. unfold service_result_ok; cbn. bools.
    split_and!; [done|done|lia|done].
Qed.

(** A registry with one service and a prepared suspension of it. *)
Definition suspend_command : OperationalLifecycleCommand :=
  {| oc_kind := SUSPEND; oc_fields := sample_operation |}.
Definition suspend_intent : OperationalLifecycleIntent :=
  @operational_intent datum_float_repr suspend_command PREPARED.

Definition suspending : Registry :=
  @unit_of_work plain_models datum_float_repr ascii_printable
    [Op_add seeded_shop; Op_resolve_or_prepare (AC_Operational suspend_command) 20] empty_registry.

Lemma suspending_ok : @RegistryOK plain_models ascii_printable suspending.
Proof.
  apply (@reachable_ok plain_models datum_float_repr ascii_printable), reachable_unit;
    [apply reachable_empty|by repeat constructor].
Qed.

Lemma suspending_prepared : @claim_prepared datum_float_repr suspending (AI_Operational suspend_intent).
Proof. split_and!; by vm_compute. Qed.

Lemma finalize_operational_decides_witness :
  exists x r',
    @finalize_operational plain_models datum_float_repr ascii_printable (AI_Operational suspend_intent) 30 suspending
    = (Ok x, r').
Proof.
  destruct (@finalize_operational_decides plain_models datum_float_repr ascii_printable suspending
              suspend_intent 30 suspending_ok suspending_prepared) as [(s & j & _ & _ & _ & E)|[_ E]];
    do 2 eexists; exact E.
Defined.

(** ** What a purge leaves behind

    [finalize_purge]: the conditions it checks, and the state after it
    completed: one tombstone identity, one completed purge claim, and nothing
    else of the service but the keys of its claims. *)

Section purge.
Context `{PublicModels} `{FloatRepr} `{UnicodeData}.

(** Nothing of the service remains. *)
Record Purged (r : Registry) (q : PortableIntent) (t : datetime) : Prop := {
  pg_service : services r !! pi_service_id q = None;
  pg_identity : exists i, identities r !! pi_service_id q = Some i /\ id_state i = ID_TOMBSTONED
    /\ id_principal i = pi_principal_id q /\ id_domain i = None
    /\ id_claim_key i = Some (pi_idempotency_key q) /\ id_lifecycle_at i = Some t;
  pg_receipts : forall u x, receipts r !! u = Some x ->
    ~ (tr_principal_id (rc_receipt x) = pi_principal_id q /\ tr_service_id (rc_receipt x) = pi_service_id q);
  pg_claims : forall k c, claims r !! (pi_principal_id q, k) = Some c -> cm_service_id c = pi_service_id q ->
    k <> pi_idempotency_key q ->
    cm_phase c = TOMBSTONED /\ cm_evidence c = Ev_None /\ cm_result c = None
}.

(** The authority a purge needs: an archived service at the intent's revision,
    and an explicit override or the verified export of exactly that state. *)
Definition purge_authorised (r : Registry) (q : PortableIntent) (s : Service) (t : datetime) : Prop :=
  sv_principal_id s = pi_principal_id q
  /\ Some (sv_service_revision s) = pi_expected_service_revision q
  /\ sv_operational_status s = ARCHIVED /\ sv_updated_at s <= t
  /\ exists a, pi_purge_authority q = Some a
     /\ (pa_kind a = EXPLICIT_OVERRIDE
         \/ exists id x, pa_receipt_id a = Some id /\ receipts r !! id = Some x
            /\ let tr := rc_receipt x in
               tr_kind tr = RECEIPT_EXPORT /\ tr_verification tr = VERIFIED
               /\ tr_principal_id tr = pi_principal_id q /\ tr_service_id tr = pi_service_id q
               /\ tr_service_revision tr = sv_service_revision s /\ tr_operational_status tr = ARCHIVED).

Lemma purge_accepted_authorised r q s t :
  purge_accepted r q s t = true -> sv_principal_id s = pi_principal_id q -> purge_authorised r q s t.
Proof.
  unfold purge_accepted, purge_receipt_is_valid, purge_authorised. intros Hacc Hp.
  bools. destruct Hacc as [[[Hrev Hst] Ht] Hrc]. split_and!; try done.
  destruct (pi_purge_authority q) as [a|]; [|done]. exists a. split; [done|].
  destruct (pa_kind a); [|by left]. right. destruct (pa_receipt_id a) as [id|]; [|done].
  destruct (receipts r !! id) as [x|] eqn:Hx; [|done]. exists id, x. bools.
  destruct Hrc as [[[[[H1' H2'] H3'] H4'] H5'] H6']. split_and!; try done. congruence.
Qed.

(** The rows the five statements of a purge leave. *)
Lemma purge_rows r q t u1 r1 u2 r2 u3 r3 u4 r4 :
  delete_receipts (pi_principal_id q) (pi_service_id q) r = (Ok u1, r1) ->
  tombstone_claims (pi_principal_id q) (pi_service_id q) (pi_idempotency_key q) r1 = (Ok u2, r2) ->
  delete_service (pi_principal_id q) (pi_service_id q) r2 = (Ok u3, r3) ->
  update_identity (pi_service_id q) (pi_principal_id q) is_live (bury_identity (pi_idempotency_key q) t) r3
    = (Ok u4, r4) ->
  Purged r4 q t.
Proof.
  intros E1 E2 E3 E4.
  eapply atomic_run in E1; [|apply delete_receipts_atomic]. cbv beta in E1. subst r1.
  eapply atomic_run in E2; [|apply tombstone_claims_atomic]. destruct E2 as [-> _].
  eapply atomic_run in E3; [|apply delete_service_atomic]. destruct E3 as (s & _ & _ & ->).
  eapply atomic_run in E4; [|apply update_identity_atomic]. destruct E4 as (i & _ & Hp & _ & _ & ->).
  split; cbn.
  - apply lookup_delete_eq.
  - eexists. rewrite lookup_insert_eq. split; [done|]. done.
  - intros u x. rewrite map_lookup_filter_Some. by intros [_ Hx].
  - intros k c. rewrite map_lookup_imap. intros Hc Hs Hk.
    destruct (claims r !! (pi_principal_id q, k)) as [c'|]; [|done]. cbn in Hc. injection Hc as <-.
    unfold is_other_claim in *. cbn [fst snd] in *.
    destruct (bool_decide (pi_principal_id q = pi_principal_id q) && (cm_service_id c' =? pi_service_id q)%N
              && negb (bool_decide (k = pi_idempotency_key q))) eqn:Eo; [done|].
    exfalso. rewrite !bool_decide_true, bool_decide_false in Eo by done.
    apply N.eqb_eq in Hs. by rewrite Hs in Eo.
Qed.

Lemma complete_authority_result r i x t c r' :
  complete_authority i x t r = (Ok (RA_Completed c), r') -> cr_result c = x.
Proof.
  unfold complete_authority, checked. intros Hrun. returns.
  unfold make_completed_registry in *. repeat match goal with
  | E : (raise_if _ _ ;; _) = Ok _ |- _ => apply raise_if_then in E as [_ E] end.
  by simplify_eq.
Qed.

(** Completing a purge writes its own claim and an audit row only. *)
Lemma complete_authority_purged r q t x o r' :
  Purged r q t -> complete_authority (AI_Portable q) x t r = (Ok o, r') -> Purged r' q t.
Proof.
  unfold complete_authority, append_local_event, checked. intros [P1 P2 P3 P4] Hrun. returns.
  repeat match goal with
  | E : append_audit _ _ = _ |- _ => eapply atomic_run in E; [|apply append_audit_atomic]; destruct E as [-> _]
  | E : update_prepared _ _ _ _ _ _ _ = _ |- _ =>
      eapply atomic_run in E; [|apply update_prepared_atomic]; destruct E as (c0 & Hc0 & _ & _ & _ & ->)
  | E : fail_if _ _ = _ |- _ => apply raise_when_returns in E as [_ ->]
  end.
  split; cbn; [done|done|done|]. intros k c. rewrite lookup_insert_Some.
  intros [[Heq _]|[_ Hc]]; [intros _ Hne; congruence|by apply P4].
Qed.
End purge.

(** ** Properties *)

(** C26: A purge completes only under its authority and leaves nothing behind.
    When it reports completion, the service was archived, at the intent's
    revision, and its owner overrode the export explicitly or holds the verified
    receipt of exactly that state; afterwards the service row and its receipts
    are gone, every other claim of it is an empty tombstone, and its identity is
    a tombstone owned by the purge claim. *)
Theorem finalize_purge_effect `{PublicModels} `{FloatRepr} `{UnicodeData} (r : Registry)
    (q : PortableIntent) (t : datetime) (c : CompletedRegistryClaim) (r' : Registry) :
  claim_prepared r (AI_Portable q) ->
  finalize_purge (AI_Portable q) t r = (Ok (RA_Completed c), r') ->
  (exists s a, services r !! pi_service_id q = Some s /\ purge_authorised r q s t
     /\ pi_purge_authority q = Some a /\ cr_result c = Result_Tombstone (purge_tombstone q s a t))
  /\ Purged r' q t.
Proof.
  intros Hclaim Hrun. unfold finalize_purge in Hrun. apply bind_returns in Hrun as (? & r0 & E0 & Hrun).
  apply raise_when_returns in E0 as [Hk ->]. rewrite when_prepared_runs in Hrun by done.
  apply bind_returns in Hrun as (s & r1 & Hsel & Hrun).
  eapply atomic_run in Hsel; [|apply select_service_atomic]. destruct Hsel as [-> Hsel].
  rewrite reading_bind in Hrun. unfold id in Hrun.
  assert (forall r2, mark_authority_recovery (AI_Portable q) t r2 <> (Ok (RA_Completed c), r')) as Hnot.
  { intros r2 Hm. unfold mark_authority_recovery, checked in Hm. by returns. }
  destruct s as [s|]; [|by apply Hnot in Hrun]. destruct Hsel as (Hs & Hp & _).
  destruct (pi_purge_authority q) as [a|] eqn:Ha; [|by apply Hnot in Hrun].
  destruct (purge_accepted r q s t) eqn:Hacc; [|by apply Hnot in Hrun].
  apply bind_returns in Hrun as (tomb & r1 & Htomb & Hrun). apply lift_returns in Htomb as [Htomb ->].
  assert (tomb = purge_tombstone q s a t) as ->.
  { unfold make_tombstone in Htomb. rewrite !raise_if_then in Htomb. by destruct Htomb as (_ & _ & [= <-]). }
  apply bind_returns in Hrun as (? & r1 & E1 & Hrun). apply bind_returns in Hrun as (? & r2 & E2 & Hrun).
  apply bind_returns in Hrun as (? & r3 & E3 & Hrun). apply bind_returns in Hrun as (? & r4 & E4 & Hrun).
  pose proof (purge_rows r q t _ _ _ _ _ _ _ _ E1 E2 E3 E4) as Hpurged. split.
  - exists s, a. split; [done|]. split; [by apply purge_accepted_authorised|]. split; [done|].
    by apply complete_authority_result in Hrun.
  - eapply complete_authority_purged; [exact Hpurged|exact Hrun].
Qed.

(** An archived service and its prepared purge, with an explicit override. *)
Definition archived_shop : Service :=
  {| sv_service_id := 7%N; sv_principal_id := lit "owner"; sv_domain_name := lit "shop";
     sv_domain_class := lit "commerce"; sv_intent_description := lit "orders";
     sv_created_at := 10; sv_updated_at := 10; sv_last_activity_at := 10;
     sv_manifest := Some shop_v1; sv_schema_version := Some 1; sv_design_state := SEEDED;
     sv_operational_status := ARCHIVED; sv_service_revision := 3; sv_materialised_at := None;
     sv_storage := None |}.

Definition purge_command : PortableCommand :=
  PurgeCommand sample_operation {| pa_kind := EXPLICIT_OVERRIDE; pa_receipt_id := None |}.
Definition purge_intent : PortableIntent := @portable_evidence datum_float_repr purge_command PREPARED.

Definition purging : Registry :=
  @unit_of_work plain_models datum_float_repr ascii_printable
    [Op_add archived_shop; Op_resolve_or_prepare (AC_Portable purge_command) 20] empty_registry.

Definition completes (x : result StorageError RegistryAuthorityOutcome) : bool :=
  match x with Ok (RA_Completed _) => true | _ => false end.

Lemma purging_completes :
  completes (@finalize_purge plain_models datum_float_repr ascii_printable (AI_Portable purge_intent) 30 purging).1
  = true.
Proof. by vm_compute. Qed.

Lemma finalize_purge_effect_witness :
  match @finalize_purge plain_models datum_float_repr ascii_printable (AI_Portable purge_intent) 30 purging with
  | (Ok (RA_Completed _), r') => Purged r' purge_intent 30
  | _ => False
  end.
Proof.
  pose proof purging_completes as Hc.
  destruct (@finalize_purge plain_models datum_float_repr ascii_printable (AI_Portable purge_intent) 30 purging)
    as [[[]|] r'] eqn:E; try discriminate Hc.
  eapply (@finalize_purge_effect plain_models datum_float_repr ascii_printable purging purge_intent 30);
    [split_and!; by vm_compute|exact E].
Defined.
