(* ===== verification/RegistryLifecycleSpec.v ===== *)
(** * RegistryLifecycleSpec: admission and finalization of lifecycle claims

    What [resolve_or_admit] and [finalize_completed] do to the registry: a
    command is admitted once and its evidence found again by any retry, and a
    prepared claim is finalized exactly when the physical service store reached
    its target on the service the claim was admitted for. *)
From S2P Require Export RegistryAuthoritySpec.
From S2P Require Import Prelude Values Json Sha256 Manifest Relational Transition Lifecycle.
From S2P Require Import LifecycleSpec Operational Models Authority Codecs Samples.

(** ** Rows of lifecycle claims *)
Definition in_phase (i : LifecycleIntent) (p : LifecyclePhase) : LifecycleIntent :=
  {| kind := kind i; phase := p; fields := fields i; fingerprint := fingerprint i;
     target_manifest := target_manifest i |}.

Definition lifecycle_row (i : LifecycleIntent) (p : LifecyclePhase) (x : option AuthorityResult) : Claim :=
  {| cm_fingerprint := fingerprint i; cm_service_id := service_id (fields i);
     cm_kind := OK_Lifecycle (kind i); cm_phase := Live p;
     cm_evidence := Ev_Lifecycle (kind i) (fields i) (target_manifest i); cm_result := x |}.

Definition lifecycle_event (i : LifecycleIntent) (outcome : pystr) (t : datetime) : AuditEvent :=
  {| ae_action := kind_str (kind i); ae_outcome := outcome; ae_service_id := service_id (fields i);
     ae_principal_id := principal_id (fields i); ae_created_via := created_via (fields i); ae_at := t |}.

Definition lifecycle_decided (i : LifecycleIntent) (p : LifecyclePhase) (x : option AuthorityResult)
    (outcome : pystr) (t : datetime) (r : Registry) : Registry :=
  set_audits (fun l => retain (principal_id (fields i)) (l ++ [lifecycle_event i outcome t]))
    (set_claims <[(principal_id (fields i), idempotency_key (fields i)) := lifecycle_row i p x]> r).

Section spec.
Context `{PublicModels} `{FloatRepr} `{UnicodeData}.

Definition lifecycle_prepared (r : Registry) (i : LifecycleIntent) : Prop :=
  claims r !! (principal_id (fields i), idempotency_key (fields i)) = Some (lifecycle_row i PREPARED None)
  /\ IntentValid i /\ phase i = PREPARED.

Lemma intent_valid_phase i p : IntentValid i -> IntentValid (in_phase i p).
Proof. intros [H1' H2' H3' H4']. split; done. Qed.

Lemma decode_lifecycle_row_runs i p x r :
  IntentValid i ->
  decode_lifecycle_row (principal_id (fields i)) (idempotency_key (fields i)) (lifecycle_row i p x) r
  = (Ok (in_phase i p), r).
Proof.
  intros Hi. unfold decode_lifecycle_row, lifecycle_row. cbn [cm_kind cm_phase cm_evidence cm_fingerprint].
  assert (with_key (fields i) (idempotency_key (fields i)) = fields i) as -> by (by destruct i as [?? [] ??]).
  assert (make_intent (kind i) p (fields i) (fingerprint i) (target_manifest i) = Ok (in_phase i p)) as E.
  { apply make_intent_spec. split; [by apply (intent_valid_phase i p)|done]. }
  unfold checked, fail_if, lift. unfold mbind, txn_bind. rewrite E.
  unfold ret. cbn [in_phase fields kind cm_service_id].
  by rewrite !bool_decide_false, N.eqb_refl by (by intros ?).
Qed.

Lemma terminal_or_prepared_runs i r :
  lifecycle_prepared r i -> terminal_or_prepared i r = (Ok (LR_Prepared i), r).
Proof.
  intros (Hc & Hi & Hp). unfold terminal_or_prepared, fail_if, select_claim.
  rewrite raise_when_bind, Hp, bool_decide_false by (by intros ?). rewrite reading_bind, Hc, raise_when_bind.
  cbn [lifecycle_row cm_fingerprint]. rewrite bool_decide_false by (by intros ?).
  unfold mbind, txn_bind. change {| cm_fingerprint := _ |} with (lifecycle_row i PREPARED None).
  rewrite decode_lifecycle_row_runs by done.
  assert (in_phase i PREPARED = i) as -> by (destruct i; cbn in *; by rewrite Hp).
  unfold raise_when. rewrite bool_decide_false by (by intros ?). unfold ret.
  rewrite (bool_decide_false (i <> i)) by (by intros ?). rewrite andb_false_r.
  unfold lifecycle_claim_outcome. by rewrite Hp.
Qed.

Lemma intent_fields_ok i :
  IntentValid i ->
  valid_text (principal_id (fields i)) 128 = true /\ valid_text (created_via (fields i)) 64 = true
  /\ service_id (fields i) <> 0%N /\ valid_text (idempotency_key (fields i)) 128 = true.
Proof.
  intros [Hf _ _ _]. apply fields_valid_Ok with (u := tt) in Hf. unfold validate_common_fields in Hf.
  rewrite !raise_if_then, raise_if_Ok in Hf. bools. tauto.
Qed.

Lemma append_terminal_runs i outcome t r :
  IntentValid i -> outcome = lit "completed" \/ outcome = lit "recovery_required" ->
  append_terminal i outcome t r
  = (Ok tt, set_audits (fun l => retain (principal_id (fields i)) (l ++ [lifecycle_event i outcome t])) r).
Proof.
  intros (H1' & H2' & H3' & _)%intent_fields_ok Ho. unfold append_terminal, append_audit, fail_if.
  rewrite raise_when_bind.
  change {| ae_action := _ |} with (lifecycle_event i outcome t).
  assert (audit_columns (lifecycle_event i outcome t) = true) as ->; [|done].
  unfold audit_columns, lifecycle_event. cbn [ae_action ae_outcome ae_service_id ae_principal_id ae_created_via].
  rewrite (valid_text_column _ _ H1'), (valid_text_column _ _ H2').
  apply N.eqb_neq in H3'. rewrite H3'. cbn [negb andb].
  destruct (kind i), Ho as [->| ->]; vm_compute; reflexivity.
Qed.

Lemma update_lifecycle_row i p x r :
  claims r !! (principal_id (fields i), idempotency_key (fields i)) = Some (lifecycle_row i PREPARED None) ->
  claim_shape (lifecycle_row i p x) = true ->
  update_prepared (principal_id (fields i)) (idempotency_key (fields i)) (fingerprint i) p None x r
  = (Ok tt, set_claims <[(principal_id (fields i), idempotency_key (fields i)) := lifecycle_row i p x]> r).
Proof.
  intros Hc Hshape. unfold update_prepared, select_claim. rewrite reading_bind, Hc.
  cbn [lifecycle_row cm_fingerprint cm_service_id cm_kind cm_phase cm_evidence cm_result].
  assert (match x with Some y => Some y | None => None end = x) as -> by (by destruct x).
  unfold fail_if. rewrite raise_when_bind, !bool_decide_false by (by intros ?). cbn [orb].
  rewrite raise_when_bind. change {| cm_fingerprint := _ |} with (lifecycle_row i p x). by rewrite Hshape.
Qed.

Lemma with_phase_ok i p :
  IntentValid i -> phase i = PREPARED -> p <> PREPARED -> with_phase i p = Ok (in_phase i p).
Proof. intros Hi Hp Hne. by apply with_phase_spec. Qed.

Lemma mark_lifecycle_recovery_runs i t r :
  lifecycle_prepared r i ->
  mark_lifecycle_recovery i t r
  = (Ok (LR_RecoveryRequired (in_phase i PHASE_RECOVERY_REQUIRED)),
     lifecycle_decided i PHASE_RECOVERY_REQUIRED None (lit "recovery_required") t r).
Proof.
  intros (Hc & Hi & Hp). unfold mark_lifecycle_recovery, checked, lift. unfold mbind, txn_bind.
  rewrite update_lifecycle_row by done. rewrite with_phase_ok by done. unfold ret.
  rewrite append_terminal_runs by first [done|by right]. done.
Qed.
End spec.

(** ** Completions *)
Section completions.
Context `{PublicModels} `{FloatRepr} `{UnicodeData}.

(** A value of one of the two completion classes. *)
Definition completion_valid (c : LifecycleCompletion) : Prop :=
  match c with
  | MaterialiseCompletion i t st => make_materialise_completion i t st = Ok c
  | EvolveCompletion i t => make_evolve_completion i t = Ok c
  end.

Definition completion_kind (c : LifecycleCompletion) : LifecycleKind :=
  match c with MaterialiseCompletion _ _ _ => MATERIALISE | EvolveCompletion _ _ => EVOLVE end.

Lemma completion_valid_spec c :
  completion_valid c ->
  phase (completion_intent c) = PREPARED /\ kind (completion_intent c) = completion_kind c
  /\ match c with
     | MaterialiseCompletion i _ st => namespace st = service_namespace (service_id (fields i))
     | EvolveCompletion _ _ => True
     end.
Proof.
  destruct c as [i t st|i t]; cbn; unfold make_materialise_completion, make_evolve_completion;
    intros [[Hp Hk]%require_intent_spec Hc]%unit_then.
  - apply raise_if_then in Hc as [Hn _]. bools. apply dec_stable in Hn. by auto.
  - by auto.
Qed.

(** What a completed claim may be finalized on. *)
Lemma preconditions_spec s c :
  finalization_preconditions s c = true ->
  let i := completion_intent c in
  sv_principal_id s = principal_id (fields i) /\ sv_service_id s = service_id (fields i)
  /\ sv_operational_status s = ACTIVE /\ sv_service_revision s = expected_service_revision (fields i)
  /\ sv_schema_version s = Some (expected_schema_version (fields i)) /\ is_Some (sv_manifest s)
  /\ sv_updated_at s <= completion_at c
  /\ match c with
     | MaterialiseCompletion _ _ _ =>
         sv_design_state s = SEEDED /\ sv_manifest s = Some (target_manifest i)
         /\ sv_schema_version s = Some 1 /\ sv_materialised_at s = None /\ sv_storage s = None
     | EvolveCompletion _ _ =>
         sv_design_state s = MATERIALISED /\ is_Some (sv_materialised_at s) /\ is_Some (sv_storage s)
     end.
Proof.
  unfold finalization_preconditions. cbv zeta. rewrite !andb_true_iff, is_some_spec. bools.
  intros [[[[[[[H1' H2'] H3'] H4'] H5'] H6'] H7'] H8']. split_and!; try done.
  destruct c as [i t st|i t]; bools.
  - destruct H8' as [[[[D1 D2] D3] D4] D5]. by destruct (sv_materialised_at s), (sv_storage s).
  - rewrite !is_some_spec in H8'. tauto.
Qed.

(** The service a completion leads to is a terminal snapshot of its intent. *)
Lemma terminal_fields_spec s c :
  validate_service s = true -> completion_valid c -> IntentValid (completion_intent c) ->
  expected_service_revision (fields (completion_intent c)) < MAX_SERVICE_REVISION ->
  finalization_preconditions s c = true ->
  validate_service (terminal_fields s c) = true
  /\ TerminalService (in_phase (completion_intent c) COMPLETED) (terminal_fields s c).
Proof.
  intros [[W1 W2 W3 W4 W5 W6 W7 W8] Ht]%validate_service_spec (Hph & Hk & Hst)%completion_valid_spec
    [_ Hm Hv _] Hrev (P1 & P2 & P3 & P4 & P5 & P6 & P7 & P8)%preconditions_spec.
  split.
  - apply validate_service_spec. split; [|exact Ht]. split; cbn; try done; try lia.
    + intros m. destruct c as [i t st|i t]; cbn in *; [by apply W4|by intros [= <-]].
    + destruct c as [i t st|i t]; cbn in *; [by apply W5|done].
    + intros u. destruct c as [i t st|i t]; cbn in *; [by intros [= <-]; lia|].
      intros Hu. specialize (W6 u Hu). lia.
    + intros x. destruct c as [i t st|i t]; cbn in *; [intros [= <-]; congruence|by apply W7].
    + destruct c as [i t st|i t]; cbn in *.
      * destruct P8 as (_ & -> & _). by eauto.
      * destruct P8 as (-> & Hma & Hsto). by eauto.
  - split; cbn; try done; try lia.
    + by destruct c as [i t st|i t]; cbn in *; [destruct P8 as (_ & -> & _)|].
    + destruct c as [i t st|i t]; cbn in *; [|done]. destruct P8 as (_ & _ & -> & _).
      rewrite Hk in Hv. destruct Hv as [_ ->]. done.
    + destruct c as [i t st|i t]; cbn in *; [done|tauto].
    + destruct c as [i t st|i t]; cbn in *; rewrite Hk; [|tauto].
      destruct P8 as (_ & _ & -> & _). by eauto.
Qed.

Lemma lifecycle_prepared_saved_as r i s j : lifecycle_prepared r i -> lifecycle_prepared (saved_as s j r) i.
Proof. done. Qed.

Lemma save_terminal_runs r c s j :
  RegistryOK r -> completion_valid c -> IntentValid (completion_intent c) ->
  expected_service_revision (fields (completion_intent c)) < MAX_SERVICE_REVISION ->
  services r !! service_id (fields (completion_intent c)) = Some s ->
  identities r !! service_id (fields (completion_intent c)) = Some j ->
  finalization_preconditions s c = true ->
  save_terminal c r = (Ok (Some (terminal_fields s c)), saved_as (terminal_fields s c) j r).
Proof.
  intros Hr Hc Hi Hrev Hs Hj Hpre. destruct (stored_service r _ s Hr Hs) as (Hu & Hv & _).
  destruct (terminal_fields_spec s c Hv Hc Hi Hrev Hpre) as [Hterm _].
  pose proof (preconditions_spec s c Hpre) as (P1 & P2 & _ & P4 & _ & _ & P7 & _).
  unfold save_terminal. unfold mbind at 1, txn_bind at 1. rewrite select_service_runs by done.
  rewrite Hs, bool_decide_true by done. unfold fail_if. rewrite raise_when_bind.
  replace (completion_at c <? sv_updated_at s) with false by (symmetry; bools; lia).
  rewrite Hpre. cbn [negb]. unfold terminal_service, checked.
  assert (make_service (terminal_fields s c) = Ok (terminal_fields s c)) as ->.
  { apply make_service_spec. split; [by apply validate_service_spec|done]. }
  assert (1 <= expected_service_revision (fields (completion_intent c))) as Hlow.
  { apply validate_service_spec in Hv as [[_ _ Hwr _ _ _ _ _] _]. lia. }
  unfold lift. unfold mbind, txn_bind, ret.
  rewrite (save_own r _ _ j); cbn [terminal_fields sv_service_id sv_principal_id sv_service_revision];
    [|done|done|lia|done|intros old Hold; rewrite Hu in Hold; cbn; congruence|left; by rewrite Hu].
  rewrite Hu, Hs, bool_decide_true by done. rewrite P4, Z.eqb_refl. done.
Qed.

(** The finalizer, once its service is known. *)
Lemma finalize_completed_saves r c s j :
  RegistryOK r -> lifecycle_prepared r (completion_intent c) -> completion_valid c ->
  expected_service_revision (fields (completion_intent c)) < MAX_SERVICE_REVISION ->
  services r !! service_id (fields (completion_intent c)) = Some s ->
  identities r !! service_id (fields (completion_intent c)) = Some j ->
  finalization_preconditions s c = true ->
  let i := completion_intent c in
  let s' := terminal_fields s c in
  finalize_completed c r
  = (Ok (LR_Completed {| cl_intent := in_phase i COMPLETED; cl_service := s' |}),
     lifecycle_decided i COMPLETED (Some (Result_Service s')) (lit "completed") (completion_at c)
       (saved_as s' j r)).
Proof.
  intros Hr Hcl Hc Hrev Hs Hj Hpre i s'. pose proof Hcl as (_ & Hi & Hph).
  destruct (stored_service r _ s Hr Hs) as (_ & Hv & _).
  destruct (terminal_fields_spec s c Hv Hc Hi Hrev Hpre) as [Hv' Hterm].
  unfold finalize_completed. cbv zeta. unfold mbind at 1, txn_bind at 1.
  rewrite terminal_or_prepared_runs by done. unfold mbind at 1, txn_bind at 1.
  rewrite (save_terminal_runs r c s j) by done. fold i s' in Hv', Hterm |- *.
  unfold checked. rewrite with_phase_ok by done. unfold encode_result, fail_if, lift. rewrite Hv'.
  unfold raise_when, mbind, txn_bind, ret. cbn [negb].
  rewrite update_lifecycle_row; [|by destruct (lifecycle_prepared_saved_as r i s' j Hcl)|done].
  rewrite append_terminal_runs by first [done|by left].
  assert (make_completed_lifecycle (in_phase i COMPLETED) s'
          = Ok {| cl_intent := in_phase i COMPLETED; cl_service := s' |}) as ->; [|done].
  unfold make_completed_lifecycle. apply unit_then. split; [by apply require_intent_spec|].
  apply bind_Ok. exists s'. split; [|apply unit_then; split; [by apply validate_terminal_spec|done]].
  apply service_snapshot_spec. split; [by apply validate_service_spec in Hv' as []|done].
Qed.

Lemma finalize_completed_refuses r c :
  RegistryOK r -> lifecycle_prepared r (completion_intent c) ->
  (forall s, services r !! service_id (fields (completion_intent c)) = Some s ->
     sv_principal_id s = principal_id (fields (completion_intent c)) ->
     sv_updated_at s <= completion_at c /\ finalization_preconditions s c = false) ->
  finalize_completed c r = mark_lifecycle_recovery (completion_intent c) (completion_at c) r.
Proof.
  intros Hr Hcl Hno. unfold finalize_completed. cbv zeta. unfold mbind at 1, txn_bind at 1.
  rewrite terminal_or_prepared_runs by done. unfold mbind at 1, txn_bind at 1.
  unfold save_terminal. unfold mbind at 1, txn_bind at 1. rewrite select_service_runs by done.
  destruct (services r !! _) as [s|] eqn:Hs; [|done]. case_bool_decide as Hp; [|done].
  destruct (Hno s eq_refl Hp) as [Ht Hpre]. unfold fail_if. rewrite raise_when_bind, Hpre.
  by replace (completion_at c <? sv_updated_at s) with false by (symmetry; bools; lia).
Qed.
End completions.

(** ** Properties *)

(** C24: How finalizing a prepared lifecycle claim ends, by the service the
    registry holds.  On the service it was prepared for, at the same revision and
    state and not later than the completion, the service becomes the terminal
    snapshot of the intent, one revision later, together with its identity, the
    claim and one audit row.  When the principal has no such service, or has it
    in another state, the claim asks for recovery and no service changes.  When
    the clock ran behind the principal's service, the call raises and decides
    nothing. *)
Theorem finalize_completed_decides `{PublicModels} `{FloatRepr} `{UnicodeData} (r : Registry)
    (c : LifecycleCompletion) :
  let i := completion_intent c in
  let u := service_id (fields i) in
  RegistryOK r -> lifecycle_prepared r i -> completion_valid c ->
  expected_service_revision (fields i) < MAX_SERVICE_REVISION ->
  (exists s j, services r !! u = Some s /\ identities r !! u = Some j
     /\ finalization_preconditions s c = true
     /\ let s' := terminal_fields s c in
        TerminalService (in_phase i COMPLETED) s'
        /\ finalize_completed c r
           = (Ok (LR_Completed {| cl_intent := in_phase i COMPLETED; cl_service := s' |}),
              lifecycle_decided i COMPLETED (Some (Result_Service s')) (lit "completed") (completion_at c)
                (saved_as s' j r)))
  \/ ((forall s, services r !! u = Some s -> sv_principal_id s = principal_id (fields i) ->
         sv_updated_at s <= completion_at c /\ finalization_preconditions s c = false)
      /\ finalize_completed c r
      = (Ok (LR_RecoveryRequired (in_phase i PHASE_RECOVERY_REQUIRED)),
         lifecycle_decided i PHASE_RECOVERY_REQUIRED None (lit "recovery_required") (completion_at c) r))
  \/ (exists s, services r !! u = Some s /\ sv_principal_id s = principal_id (fields i)
      /\ completion_at c < sv_updated_at s
      /\ finalize_completed c r = (Raise StorageMigrationError, r)).
Proof.
  intros i u Hr Hcl Hc Hrev. destruct (services r !! u) as [s|] eqn:Hs.
  2:{ right; left. split; [done|]. rewrite finalize_completed_refuses; [by apply mark_lifecycle_recovery_runs|done..|].
      intros s Hs'. fold i u in Hs'. congruence. }
  destruct (stored_service r u s Hr Hs) as (Hu & Hv & j & Hj & _).
  destruct (decide (sv_principal_id s = principal_id (fields i))) as [Hp|Hp].
  2:{ right; left. split; [by intros t [= <-]|].
      rewrite finalize_completed_refuses; [by apply mark_lifecycle_recovery_runs|done..|].
      intros t Ht Hpt. fold i u in Ht. by assert (t = s) as -> by congruence. }
  destruct (Z.ltb_spec (completion_at c) (sv_updated_at s)) as [Hlt|Hle].
  { right; right. exists s. split_and!; [done..|]. unfold finalize_completed. cbv zeta.
    unfold mbind at 1, txn_bind at 1. rewrite terminal_or_prepared_runs by done.
    unfold mbind at 1, txn_bind at 1. unfold save_terminal. unfold mbind at 1, txn_bind at 1.
    rewrite select_service_runs by done. fold i u. rewrite Hs, bool_decide_true by done.
    unfold fail_if. rewrite raise_when_bind. by replace (completion_at c <? sv_updated_at s) with true
      by (symmetry; bools; lia). }
  destruct (finalization_preconditions s c) eqn:Hpre.
  - left. exists s, j. split_and!; [done..|]. split.
    + destruct Hcl as (_ & Hi & _). by apply terminal_fields_spec.
    + by apply finalize_completed_saves.
  - right; left. split; [by intros t [= <-] _|].
    rewrite finalize_completed_refuses; [by apply mark_lifecycle_recovery_runs|done..|].
    intros t Ht Hpt. fold i u in Ht. by assert (t = s) as -> by congruence.
Qed.

(** A registry with a prepared materialisation of its service. *)
Definition shop_command : LifecycleCommand := MaterialiseCommand (sample_fields (lit "k1")).

Definition materialising : Registry :=
  @unit_of_work plain_models datum_float_repr ascii_printable
    [Op_add seeded_shop; Op_resolve_or_admit shop_command] empty_registry.

Lemma materialising_ok : @RegistryOK plain_models ascii_printable materialising.
Proof.
  apply (@reachable_ok plain_models datum_float_repr ascii_printable), reachable_unit;
    [apply reachable_empty|by repeat constructor].
Qed.

Lemma materialising_prepared :
  @lifecycle_prepared datum_float_repr materialising (sample_intent PREPARED).
Proof.
  split; [by vm_compute|]. split; [|done].
  apply (@prepare_intent_valid plain_models datum_float_repr shop_command shop_v1). by vm_compute.
Qed.

Definition completed_shop : Service :=
  terminal_fields seeded_shop (MaterialiseCompletion (sample_intent PREPARED) 20 shop_storage).

Definition shop_completion : LifecycleCompletion :=
  MaterialiseCompletion (sample_intent PREPARED) 20 shop_storage.

Lemma materialising_completes :
  match (@finalize_completed plain_models datum_float_repr ascii_printable shop_completion materialising).1 with
  | Ok (LR_Completed c) => bool_decide (cl_service c = completed_shop)
  | _ => false
  end = true.
Proof. by vm_compute. Qed.

Lemma finalize_completed_decides_witness :
  let i := in_phase (completion_intent shop_completion) COMPLETED in
  exists s, TerminalService i (terminal_fields s shop_completion)
    /\ (@finalize_completed plain_models datum_float_repr ascii_printable shop_completion materialising).1
       = Ok (LR_Completed {| cl_intent := i;
                             cl_service := terminal_fields s shop_completion |}).
Proof.
  intros i. pose proof materialising_completes as Hc.
  destruct (@finalize_completed_decides plain_models datum_float_repr ascii_printable materialising
              shop_completion materialising_ok materialising_prepared)
    as [(s & j & _ & _ & _ & Ht & E)|[[_ E]|(s & _ & _ & _ & E)]]; [by vm_compute|by vm_compute|..].
  - exists s. split; [exact Ht|by rewrite E].
  - rewrite E in Hc. discriminate Hc.
  - rewrite E in Hc. discriminate Hc.
Defined.

Section admission.
Context `{PublicModels} `{FloatRepr} `{UnicodeData}.

Lemma prepare_intent_fields c t i :
  prepare_intent c t = Ok i ->
  IntentValid i /\ kind i = command_kind c /\ phase i = PREPARED /\ fields i = command_fields c
  /\ fingerprint i = lifecycle_fingerprint c /\ target_manifest i = t.
Proof.
  unfold prepare_intent. intros (d & [_ ->]%manifest_snapshot_spec & Hi)%bind_Ok.
  apply unit_then in Hi as [_ Hi]. by apply make_intent_spec in Hi as [Hv ->].
Qed.

(** A command whose prepared row is in the ledger is answered from it. *)
Lemma resolve_prepared r c i :
  lifecycle_prepared r i -> fields i = command_fields c -> kind i = command_kind c ->
  fingerprint i = lifecycle_fingerprint c -> resolve_or_admit c r = (Ok (LR_Prepared i), r).
Proof.
  intros (Hc & Hi & Hp) Hf Hk Hfp. unfold resolve_or_admit, select_claim. cbv zeta.
  rewrite reading_bind, <- Hf, Hc. unfold existing_lifecycle_claim. cbn [lifecycle_row cm_fingerprint cm_kind].
  rewrite !bool_decide_false by congruence. cbn [orb]. unfold mbind, txn_bind.
  change {| cm_fingerprint := _ |} with (lifecycle_row i PREPARED None).
  rewrite decode_lifecycle_row_runs by done. unfold lifecycle_claim_outcome, in_phase, ret. cbn [phase].
  destruct i; cbn in *. by rewrite Hp.
Qed.

(** Reading a stored claim changes nothing. *)
Lemma existing_lifecycle_reads p k row c fp r o r' :
  existing_lifecycle_claim p k row c fp r = (Ok o, r') -> r' = r.
Proof.
  unfold existing_lifecycle_claim, decode_lifecycle_row, lifecycle_claim_outcome, decode_result, fail_if, checked.
  intros Hrun. repeat (returns; case_match); by returns.
Qed.

Lemma blocker_clear p u r r' : lifecycle_blocker p u r = (Ok None, r') -> active_claims r p u = [] /\ r' = r.
Proof.
  unfold lifecycle_blocker. rewrite reading_bind. unfold id. intros Hrun.
  destruct (active_claims r p u) as [|[[p' k] c] l]; [by returns|].
  unfold decode_lifecycle_row, fail_if, checked in Hrun.
  destruct (cm_kind c); repeat (returns; try case_match); returns; done.
Qed.

(** The manifest an admission fixes as its target. *)
Definition targets (s : Service) (c : LifecycleCommand) (t : ManifestV2) : Prop :=
  exists m, sv_manifest s = Some m /\
  match c with
  | MaterialiseCommand _ => t = m
  | EvolveCommand _ u => t = u /\ is_ok (classify_transition m t) = true
  end.

Lemma relational_target_spec s c t r r' : relational_target s c r = (Ok (Ok t), r') -> targets s c t /\ r' = r.
Proof.
  unfold relational_target, targets. destruct c as [f|f u], (sv_manifest s) as [m|]; try done.
  - intros [Ht ->]%ret_returns. split; [|done]. exists m. split; [done|].
    destruct (compile_manifest m); cbn in Ht; congruence.
  - intros [Ht ->]%ret_returns. split; [|done]. exists m. split; [done|].
    destruct (classify_transition m u) eqn:E; cbn in Ht; [|done]. injection Ht as ->. by rewrite E.
Qed.

(** What a new command was admitted on. *)
Lemma resolve_admits r c i r' :
  claims r !! (principal_id (command_fields c), idempotency_key (command_fields c)) = None ->
  resolve_or_admit c r = (Ok (LR_Prepared i), r') ->
  lifecycle_prepared r' i /\ kind i = command_kind c /\ fields i = command_fields c
  /\ fingerprint i = lifecycle_fingerprint c /\ services r' = services r
  /\ active_claims r (principal_id (fields i)) (service_id (fields i)) = []
  /\ exists s, services r !! service_id (fields i) = Some s
     /\ sv_principal_id s = principal_id (fields i) /\ lifecycle_refusal s c = None
     /\ targets s c (target_manifest i).
Proof.
  intros Hnew. unfold resolve_or_admit, select_claim. cbv zeta. rewrite reading_bind, Hnew.
  intros (s & r1 & Hsel & Hrun)%bind_returns.
  eapply atomic_run in Hsel; [|apply select_service_atomic]. destruct Hsel as [-> Hsel].
  destruct s as [s|]; [|by returns]. destruct Hsel as (Hs & Hp & _).
  destruct (lifecycle_refusal s c) as [o|] eqn:Href.
  { exfalso. returns. unfold lifecycle_refusal in Href. repeat case_match; discriminate. }
  apply bind_returns in Hrun as (b & r1 & Hb & Hrun). destruct b as [b|].
  { exfalso. returns. unfold lifecycle_blocker in Hb. rewrite reading_bind in Hb. unfold id in Hb.
    repeat (returns; try case_match); returns; done. }
  apply blocker_clear in Hb as [Hfree ->].
  apply bind_returns in Hrun as (target & r1 & Ht & Hrun). destruct target as [target|e]; [|by returns].
  apply relational_target_spec in Ht as [Ht ->].
  apply bind_returns in Hrun as (j & r1 & Hj & Hrun). unfold checked in Hj.
  apply lift_returns in Hj as [Hj ->]. apply prepare_intent_fields in Hj as (Hv & Hk & Hph & Hf & Hfp & Htm).
  apply bind_returns in Hrun as (? & r1 & Hins & Hrun). apply ret_returns in Hrun as [[= ->] ->].
  eapply atomic_run in Hins; [|apply insert_claim_atomic]. destruct Hins as (-> & _).
  split; [split; [cbn; apply lookup_insert_eq|done]|]. rewrite Hf, Htm. split_and!; try done. by exists s.
Qed.
End admission.

(** C27: Admission is idempotent and exclusive.  A command admitted as prepared is
    answered with the same intent by every retry, which changes nothing.  The
    first time, the claim is new, it carries exactly the command's request, no
    other claim was active on the service, and the service was the caller's, at
    the expected revision and in a state that supports the command. *)
Theorem admission_replay `{PublicModels} `{FloatRepr} `{UnicodeData} (r : Registry)
    (c : LifecycleCommand) (i : LifecycleIntent) (r' : Registry) :
  claims r !! (principal_id (command_fields c), idempotency_key (command_fields c)) = None ->
  resolve_or_admit c r = (Ok (LR_Prepared i), r') ->
  resolve_or_admit c r' = (Ok (LR_Prepared i), r')
  /\ fields i = command_fields c /\ fingerprint i = lifecycle_fingerprint c /\ services r' = services r
  /\ active_claims r (principal_id (fields i)) (service_id (fields i)) = []
  /\ exists s, services r !! service_id (fields i) = Some s
     /\ sv_principal_id s = principal_id (fields i)
     /\ sv_service_revision s = expected_service_revision (fields i)
     /\ supported_lifecycle_state s c = true.
Proof.
  intros Hnew Hrun.
  destruct (resolve_admits r c i r' Hnew Hrun) as (Hprep & Hk & Hf & Hfp & Hsv & Hfree & s & Hs & Hp & Href & _).
  split; [by apply resolve_prepared|]. split_and!; try done. exists s. split_and!; try done.
  - unfold lifecycle_refusal in Href. rewrite Hf. destruct (negb _ || _) eqn:E; [done|]. bools. by destruct E.
  - unfold lifecycle_refusal in Href. destruct (negb _ || _); [done|].
    by destruct (supported_lifecycle_state s c).
Qed.

Lemma admission_replay_witness :
  let r := @unit_of_work plain_models datum_float_repr ascii_printable [Op_add seeded_shop] empty_registry in
  exists i r',
    @resolve_or_admit plain_models datum_float_repr ascii_printable shop_command r = (Ok (LR_Prepared i), r')
    /\ @resolve_or_admit plain_models datum_float_repr ascii_printable shop_command r'
       = (Ok (LR_Prepared i), r').
Proof.
  intros r.
  assert (match (@resolve_or_admit plain_models datum_float_repr ascii_printable shop_command r).1 with
          | Ok (LR_Prepared _) => true | _ => false end = true) as Hc by (by vm_compute).
  destruct (@resolve_or_admit plain_models datum_float_repr ascii_printable shop_command r)
    as [[[]|] r'] eqn:E; try discriminate Hc.
  do 2 eexists. split; [reflexivity|].
  apply (@admission_replay plain_models datum_float_repr ascii_printable r shop_command _ r');
    [by vm_compute|exact E].
Defined.
