(* ===== verification/TransitionSpec.v ===== *)
(** * TransitionSpec: what [classify_transition] accepts and returns

    [Additive] is the contract of an additive transition, stated on the two
    manifests without the classifier's loops; [transition_of] is the transition
    the contract denotes.  The refinement is proved in both directions, and
    includes that the second derivation inside [_build] always agrees. *)
From S2P Require Import Prelude Values Graph Manifest Relational Samples Transition.

(** ** The abstract transition *)

(** The values an allow-list may take next: more of them, never fewer. *)
Definition allowed_extends (a b : AttributeDefinition) : Prop :=
  match attr_allowed_values a, attr_allowed_values b with
  | None, None => True
  | Some old, Some new => subset_by typed_eqb old new = true
  | _, _ => False
  end.

Definition attribute_extends (a b : AttributeDefinition) : Prop :=
  field_of a = field_of b /\ allowed_extends a b.

Record entity_extends (e e' : EntityDefinition) : Prop := {
  ext_prefix : Forall2 attribute_extends (ent_attributes e)
                 (take (length (ent_attributes e)) (ent_attributes e'));
  ext_new : forall a, a ∈ drop (length (ent_attributes e)) (ent_attributes e') ->
              attr_required a = false /\ attr_primary_key a = false
}.

(** The entity of [t] with the name of [e]. *)
Definition counterpart (t : ManifestV2) (e : EntityDefinition) : EntityDefinition :=
  default e (dict_get (dict_of ent_name (entities t)) (ent_name e)).

Record Additive (s t : ManifestV2) : Prop := {
  ad_version : schema_version t = schema_version s + 1;
  ad_history : exists h, migration_history t = migration_history s ++ [h]
    /\ from_schema_version h = schema_version s /\ to_schema_version h = schema_version t;
  ad_entities : map ent_name (entities s) ⊆ map ent_name (entities t);
  ad_extends : forall e, e ∈ entities s -> entity_extends e (counterpart t e);
  ad_relationships : relationships s ⊆ relationships t;
  ad_new_relationships : forall r, r ∈ relationships t ->
    rel_name r ∉ map rel_name (relationships s) ->
    ep_entity (rel_from r) ∉ map ent_name (entities s);
  ad_indices : indices s ⊆ indices t
}.

Definition change_list (c : bool) (k : MetadataChangeKind) (entity field : option pystr)
  : list MetadataChange :=
  if c then [ {| mc_kind := k; mc_entity := entity; mc_field := field |} ] else [].

Definition allowed_changed (a b : AttributeDefinition) : bool :=
  match attr_allowed_values a, attr_allowed_values b with
  | Some old, Some new => negb (subset_by typed_eqb new old)
  | _, _ => false
  end.

Definition attribute_changes (entity : pystr) (p : AttributeDefinition * AttributeDefinition)
  : list MetadataChange :=
  let '(a, b) := p in
  change_list (bool_decide (attr_description a <> attr_description b))
    AttributeDescription (Some entity) (Some (attr_name a))
  ++ change_list (bool_decide (attr_retrieval_mode a <> attr_retrieval_mode b))
       RetrievalModeChange (Some entity) (Some (attr_name a))
  ++ change_list (allowed_changed a b) AllowedValuesExpansion (Some entity) (Some (attr_name a)).

Definition entity_changes (e e' : EntityDefinition) : list MetadataChange :=
  change_list (bool_decide (ent_description e <> ent_description e'))
    EntityDescription (Some (ent_name e)) None
  ++ concat (map (attribute_changes (ent_name e))
       (combine (ent_attributes e) (take (length (ent_attributes e)) (ent_attributes e')))).

Definition global_changes (s t : ManifestV2) : list MetadataChange :=
  change_list (bool_decide (retrieval_guidance s <> retrieval_guidance t)) RetrievalGuidance None None
  ++ change_list (bool_decide (query_patterns s <> query_patterns t)) QueryPatterns None None
  ++ change_list (bool_decide (map facet_definition (discovery_facets s)
                               <> map facet_definition (discovery_facets t)))
       DiscoveryFacets None None.

Definition new_fields (e e' : EntityDefinition) : list FieldAddition :=
  map (fun a => {| fa_entity := ent_name e; fa_field := field_of a |})
      (drop (length (ent_attributes e)) (ent_attributes e')).

Definition sorted_entities (m : ManifestV2) : list EntityDefinition :=
  sorted_by str_leb ent_name (entities m).

Definition all_changes (s t : ManifestV2) : list MetadataChange :=
  concat (map (fun e => entity_changes e (counterpart t e)) (sorted_entities s))
  ++ global_changes s t.

Definition additions_of (s t : ManifestV2) : RelationalAdditions :=
  {| add_entities := map spec_entity
       (new_items ent_name (map ent_name (entities s)) (entities t));
     add_fields := concat (map (fun e => new_fields e (counterpart t e)) (sorted_entities s));
     add_relationships := map relationship_of
       (new_items rel_name (map rel_name (relationships s)) (relationships t));
     add_indices := map index_of
       (new_items idx_name (map idx_name (indices s)) (indices t)) |}.

Definition transition_of (s t : ManifestV2) : RelationalTransition :=
  {| tr_current := compiled s; tr_target := compiled t;
     tr_additions := additions_of s t;
     tr_metadata_changes := sorted_metadata (all_changes s t) |}.

(** ** The steps of the classifier *)
Lemma change_if_eq c k e f :
  metadata_shape {| mc_kind := k; mc_entity := e; mc_field := f |} = true ->
  change_if c k e f = Ok (change_list c k e f).
Proof. intros H. unfold change_if, make_change, change_list. rewrite H. by destruct c. Qed.

Lemma dict_index_get {A} (d : list (pystr * A)) k a :
  dict_get d k = Some a -> dict_index d k = Ok a.
Proof. unfold dict_index. by intros ->. Qed.

Lemma mapR_dict_index {A} (key : A -> pystr) (xs ys : list A) :
  NoDup (map key xs) -> ys ⊆ xs -> mapR (dict_index (dict_of key xs)) (map key ys) = Ok ys.
Proof.
  intros Hnd Hsub. rewrite mapR_map.
  rewrite (mapR_total _ id); [by rewrite map_id|]. intros y Hy.
  apply dict_index_get, dict_of_get; [done|]. by split; [apply Hsub|].
Qed.

Lemma same_items_spec {A} `{EqDecision A} (key : A -> pystr) (xs ys : list A) x :
  NoDup (map key xs) -> NoDup (map key ys) -> x ∈ xs -> key x ∈ map key ys ->
  same_items (dict_of key xs) (dict_of key ys) (key x) = Ok tt <-> x ∈ ys.
Proof.
  intros Hx Hy Hin (y & Heq & Hiny)%elem_of_map. unfold same_items.
  rewrite (dict_index_get (dict_of key xs) _ x) by (by apply dict_of_get).
  rewrite (dict_index_get (dict_of key ys) _ y) by (by apply dict_of_get).
  cbn [mbind result_bind]. rewrite require_Ok, bool_decide_eq_true.
  split; [by intros ->|]. intros Hxy. by apply (key_inj key ys).
Qed.

(** The three opening checks of a named collection: nothing is lost, nothing
    is changed. *)
Lemma same_items_all {A B} `{EqDecision A} (key : A -> pystr) (xs ys : list A)
    (m : result RelationalError B) b :
  NoDup (map key xs) -> NoDup (map key ys) ->
  (require (subset_of (dict_keys (dict_of key xs)) (dict_keys (dict_of key ys))) ;;
   mapR (same_items (dict_of key xs) (dict_of key ys)) (dict_keys (dict_of key xs)) ;; m) = Ok b
  <-> xs ⊆ ys /\ m = Ok b.
Proof.
  intros Hx Hy. rewrite require_then, mapR_unit_then, subset_of_spec, !dict_of_keys by done.
  enough ((map key xs ⊆ map key ys
           /\ forall k, k ∈ map key xs -> same_items (dict_of key xs) (dict_of key ys) k = Ok tt)
          <-> xs ⊆ ys) by tauto. split.
  - intros [Hk Hs] x Hin. assert (key x ∈ map key xs) as Hkx by (apply elem_of_map; by exists x).
    apply (same_items_spec key xs); auto.
  - intros Hsub. split.
    + intros k (x & -> & Hin)%elem_of_map. apply elem_of_map. exists x. auto.
    + intros k (x & -> & Hin)%elem_of_map. apply same_items_spec; auto.
      apply elem_of_map. exists x. auto.
Qed.

Lemma attribute_identifier a : validate_attribute a = Ok tt -> identifier (attr_name a) = true.
Proof.
  unfold validate_attribute, attribute_fields. rewrite raise_if_then. intros [H _]. bools. tauto.
Qed.

Section per_attribute.
Variables (name : pystr) (a b : AttributeDefinition).
Hypothesis Hname : identifier name = true.
Hypothesis Ha : identifier (attr_name a) = true.

Lemma classify_allowed_values_spec cs :
  classify_allowed_values name a b = Ok cs
  <-> allowed_extends a b
      /\ cs = change_list (allowed_changed a b) AllowedValuesExpansion (Some name) (Some (attr_name a)).
Proof using Hname Ha.
  unfold classify_allowed_values, allowed_extends, allowed_changed, set_eq_by, proper_subset_by.
  destruct (attr_allowed_values a) as [old|], (attr_allowed_values b) as [new|];
    try (by split; [|intros []]); [|naive_solver].
  unfold make_change, metadata_shape; cbn [mc_kind mc_entity mc_field opt_identifier].
  rewrite Hname, Ha.
  destruct (subset_by typed_eqb old new), (subset_by typed_eqb new old); simpl; naive_solver.
Qed.

Lemma classify_attribute_change_spec cs :
  classify_attribute_change name (a, b) = Ok cs
  <-> attribute_extends a b /\ cs = attribute_changes name (a, b).
Proof using Hname Ha.
  unfold classify_attribute_change, attribute_extends, attribute_changes.
  rewrite require_then, bool_decide_eq_true, !change_if_eq
    by (unfold metadata_shape; simpl; by rewrite Hname, Ha).
  cbn [mbind result_bind]. rewrite bind_Ok.
  setoid_rewrite classify_allowed_values_spec. split.
  - intros (? & c & [? ->] & [= <-]). done.
  - intros [[??] ->]. split; [done|]. eexists. by split.
Qed.

Lemma classify_new_attribute_spec f :
  field_valid (field_of b) = true ->
  classify_new_attribute name b = Ok f
  <-> (attr_required b = false /\ attr_primary_key b = false)
      /\ f = {| fa_entity := name; fa_field := field_of b |}.
Proof using Hname.
  intros Hb. unfold classify_new_attribute, make_field, make_addition.
  rewrite Hb; simpl. rewrite Hname; simpl.
  destruct (attr_required b), (attr_primary_key b); simpl; naive_solver.
Qed.
End per_attribute.

(** Pairing the old attributes with the head of the new ones. *)
Lemma Forall2_prefix {A} (R : A -> A -> Prop) (xs ys : list A) :
  Forall2 R xs (take (length xs) ys)
  <-> (length xs <= length ys)%nat /\ forall p, p ∈ combine xs (take (length xs) ys) -> R p.1 p.2.
Proof.
  revert ys; induction xs as [|x xs IH]; intros ys; simpl.
  { split; [|constructor]. intros _. split; [lia|]. by intros p ?%elem_of_nil. }
  destruct ys as [|y ys]; simpl.
  - split; [by inversion 1|]. intros [? _]. lia.
  - rewrite Forall2_cons, IH. setoid_rewrite elem_of_cons. split.
    + intros (Hxy & Hlen & H). split; [lia|]. intros p [->|Hp]; auto.
    + intros [Hlen H]. split_and!; [by apply (H (x, y)); left|lia|]. auto.
Qed.

Section per_entity.
Variables (s t : ManifestV2).
Hypothesis Hs : ManifestWF s.
Hypothesis Ht : ManifestWF t.
Hypothesis Hnames : map ent_name (entities s) ⊆ map ent_name (entities t).

Lemma counterpart_spec e :
  e ∈ entities s ->
  counterpart t e ∈ entities t /\ ent_name (counterpart t e) = ent_name e
  /\ dict_get (dict_of ent_name (entities t)) (ent_name e) = Some (counterpart t e).
Proof using Ht Hnames.
  intros He. assert (ent_name e ∈ map ent_name (entities t)) as (e' & Hn & He')%elem_of_map
    by (apply Hnames, elem_of_map; by exists e).
  assert (dict_get (dict_of ent_name (entities t)) (ent_name e) = Some e') as Hget.
  { apply dict_of_get; [apply (mwf_entity_names _ (mwf_references _ Ht))|done]. }
  unfold counterpart. by rewrite Hget.
Qed.

Lemma entity_identifier e : EntityWF e -> identifier (ent_name e) = true.
Proof using. intros [Hf _ _ _ _]. unfold entity_fields in Hf. bools. tauto. Qed.

Lemma classify_entity_spec e p :
  e ∈ entities s ->
  classify_entity (dict_of ent_name (entities s)) (dict_of ent_name (entities t)) (ent_name e) = Ok p
  <-> entity_extends e (counterpart t e)
      /\ p = (entity_changes e (counterpart t e), new_fields e (counterpart t e)).
Proof using All.
  intros He. destruct (counterpart_spec e He) as (Hc & Hcn & Hget).
  pose proof (mwf_entities _ Hs e He) as Hwf. pose proof (mwf_entities _ Ht _ Hc) as Hwf'.
  pose proof (entity_identifier _ Hwf) as Hid.
  assert (dict_get (dict_of ent_name (entities s)) (ent_name e) = Some e) as Hget1
    by (apply dict_of_get; [apply (mwf_entity_names _ (mwf_references _ Hs))|done]).
  unfold classify_entity. rewrite (dict_index_get _ _ _ Hget1), (dict_index_get _ _ _ Hget).
  cbn [mbind result_bind]. rewrite change_if_eq by (unfold metadata_shape; simpl; by rewrite Hid).
  cbn [mbind result_bind]. set (e' := counterpart t e) in *.
  epose proof (fun css => mapR_iff (classify_attribute_change (ent_name e))
    (fun p => attribute_extends p.1 p.2) (attribute_changes (ent_name e))
    (combine (ent_attributes e) (take (length (ent_attributes e)) (ent_attributes e'))) css
    ltac:(intros [a b] cs Hp; apply classify_attribute_change_spec; [done|];
      apply (attribute_identifier a), (ewf_attributes _ Hwf), list_elem_of_In;
      apply list_elem_of_In in Hp; by eapply in_combine_l)) as Hold.
  epose proof (fun fs => mapR_iff (classify_new_attribute (ent_name e))
    (fun a => attr_required a = false /\ attr_primary_key a = false)
    (fun a => {| fa_entity := ent_name e; fa_field := field_of a |})
    (drop (length (ent_attributes e)) (ent_attributes e')) fs
    ltac:(intros a f Ha; apply classify_new_attribute_spec; [done|];
      apply validate_attribute_field, (ewf_attributes _ Hwf'); by eapply subseteq_drop)) as Hnew.
  rewrite require_then, Nat.leb_le, bind_Ok. setoid_rewrite bind_Ok.
  setoid_rewrite Hold. setoid_rewrite Hnew. clear Hold Hnew. split.
  - intros (Hlen & css & [Hext ->] & fs & [Hnew ->] & [= <-]). split; [|done].
    split; [|done]. by apply Forall2_prefix.
  - intros [[[Hlen Hext]%Forall2_prefix Hnew] ->]. split; [done|].
    eexists. split; [by split|]. eexists. by split.
Qed.

Lemma classify_entities_spec per :
  mapR (classify_entity (dict_of ent_name (entities s)) (dict_of ent_name (entities t)))
    (sorted_strs (dict_keys (dict_of ent_name (entities s)))) = Ok per
  <-> (forall e, e ∈ entities s -> entity_extends e (counterpart t e))
      /\ per = map (fun e => (entity_changes e (counterpart t e), new_fields e (counterpart t e)))
                 (sorted_entities s).
Proof using All.
  rewrite dict_of_keys by apply (mwf_entity_names _ (mwf_references _ Hs)).
  rewrite <- map_sorted_by, mapR_map. fold (sorted_entities s).
  rewrite (mapR_iff _ (fun e => entity_extends e (counterpart t e))
    (fun e => (entity_changes e (counterpart t e), new_fields e (counterpart t e)))).
  - unfold sorted_entities. by setoid_rewrite elem_of_sorted_by.
  - intros e p He. unfold sorted_entities in He. rewrite elem_of_sorted_by in He.
    by apply classify_entity_spec.
Qed.
End per_entity.

(** ** The metadata list: sorted and without duplicates *)
Lemma key3_leb_iff a b :
  key3_leb a b = true
  <-> (a.1.1 <> b.1.1 /\ str_le a.1.1 b.1.1)
      \/ (a.1.1 = b.1.1 /\ a.1.2 <> b.1.2 /\ str_le a.1.2 b.1.2)
      \/ (a.1 = b.1 /\ str_le a.2 b.2).
Proof.
  destruct a as [[a1 a2] a3], b as [[b1 b2] b3]; unfold key3_leb, str_le; simpl.
  repeat case_bool_decide; naive_solver.
Qed.

Definition metadata_le (c d : MetadataChange) : Prop :=
  key3_leb (metadata_sort_key c) (metadata_sort_key d) = true.

#[export] Instance metadata_le_trans : Transitive metadata_le.
Proof.
  intros c d e. unfold metadata_le. rewrite !key3_leb_iff.
  generalize (metadata_sort_key c) (metadata_sort_key d) (metadata_sort_key e).
  intros [[a1 a2] a3] [[b1 b2] b3] [[c1 c2] c3]; simpl.
  intros [[Hn H]|[(-> & Hn & H)|[[= -> ->] H]]] [[Hn' H']|[(Heq & Hn' & H')|[[= Heq Heq'] H']]];
    subst; simpl; auto.
  - left. split; [|by transitivity b1]. intros ->. apply Hn. by apply (anti_symm str_le).
  - right; left. split_and!; [done| |by transitivity b2].
    intros ->. apply Hn. by apply (anti_symm str_le).
  - right; right. split; [done|by transitivity b3].
Qed.

Lemma metadata_le_total c d : metadata_le c d \/ metadata_le d c.
Proof.
  unfold metadata_le. rewrite !key3_leb_iff.
  generalize (metadata_sort_key c) (metadata_sort_key d).
  intros [[a1 a2] a3] [[b1 b2] b3]; simpl.
  destruct (decide (a1 = b1)) as [->|Hn1]; [|destruct (total str_le a1 b1); naive_solver].
  destruct (decide (a2 = b2)) as [->|Hn2]; [|destruct (total str_le a2 b2); naive_solver].
  destruct (total str_le a3 b3); naive_solver.
Qed.

Lemma sorted_metadata_idem cs : sorted_metadata (sorted_metadata cs) = sorted_metadata cs.
Proof.
  unfold sorted_metadata. apply sorted_by_id.
  apply sorted_by_sorted; [apply metadata_le_trans|apply metadata_le_total].
Qed.

Lemma elem_of_change_list c k e f x :
  x ∈ change_list c k e f -> x = {| mc_kind := k; mc_entity := e; mc_field := f |}.
Proof. destruct c; simpl; [by intros ->%list_elem_of_singleton|by intros ?%elem_of_nil]. Qed.

Lemma NoDup_change_list c k e f : NoDup (change_list c k e f).
Proof. destruct c; simpl; [apply NoDup_singleton|constructor]. Qed.

Lemma attribute_changes_shape n p x :
  x ∈ attribute_changes n p -> mc_entity x = Some n /\ mc_field x = Some (attr_name p.1).
Proof.
  destruct p as [a b]. unfold attribute_changes. rewrite !elem_of_app.
  by intros [H|[H|H]]; apply elem_of_change_list in H as ->.
Qed.

(** Lists whose members have different kinds. *)
Ltac change_kinds :=
  repeat first [ apply NoDup_change_list
               | apply NoDup_app; split_and!
               | intros ? ?%elem_of_change_list; subst; rewrite ?elem_of_app;
                 intros ?; repeat (destruct_or?; try match goal with
                 | H : _ ∈ change_list _ _ _ _ |- _ => apply elem_of_change_list in H; done end) ].

Lemma NoDup_attribute_changes n p : NoDup (attribute_changes n p).
Proof. destruct p as [a b]. unfold attribute_changes. change_kinds. Qed.

Lemma NoDup_global_changes s t : NoDup (global_changes s t).
Proof. unfold global_changes. change_kinds. Qed.

Lemma NoDup_entity_changes e e' : EntityWF e -> NoDup (entity_changes e e').
Proof.
  intros Hwf. unfold entity_changes. apply NoDup_app. split_and!.
  - apply NoDup_change_list.
  - intros x ->%elem_of_change_list (p & _ & Hx)%elem_of_concat_map.
    by apply attribute_changes_shape in Hx as [_ ?].
  - apply (NoDup_concat_map _ mc_field (fun p => Some (attr_name p.1))).
    + rewrite <- (map_map (fun p => attr_name p.1) Some). apply NoDup_fmap; [by intros ?? [=]|].
      apply (NoDup_combine attr_name), (ewf_names _ Hwf).
    + intros; apply NoDup_attribute_changes.
    + intros p x _ Hx. by apply attribute_changes_shape in Hx as [_ ?].
Qed.

Lemma entity_changes_entity e e' x : x ∈ entity_changes e e' -> mc_entity x = Some (ent_name e).
Proof.
  unfold entity_changes. rewrite elem_of_app.
  intros [->%elem_of_change_list|(p & _ & Hx)%elem_of_concat_map]; [done|].
  by apply attribute_changes_shape in Hx as [? _].
Qed.

Lemma NoDup_all_changes s t : ManifestWF s -> NoDup (all_changes s t).
Proof.
  intros Hs. unfold all_changes. apply NoDup_app. split_and!.
  - apply (NoDup_concat_map _ mc_entity (fun e => Some (ent_name e))).
    + unfold sorted_entities. rewrite NoDup_sorted_by, <- (map_map ent_name Some).
      apply NoDup_fmap; [by intros ?? [=]|]. apply (mwf_references _ Hs).
    + intros e He. unfold sorted_entities in He. rewrite elem_of_sorted_by in He.
      apply NoDup_entity_changes, (mwf_entities _ Hs), He.
    + intros e x _. apply entity_changes_entity.
  - intros x (e & _ & Hx%entity_changes_entity)%elem_of_concat_map Hg.
    unfold global_changes in Hg. rewrite !elem_of_app in Hg.
    destruct Hg as [H|[H|H]]; apply elem_of_change_list in H as ->; done.
  - apply NoDup_global_changes.
Qed.

(** ** Relationships and indices *)
Lemma compiled_names m :
  map re_name (rs_entities (compiled m)) = sorted_strs (map ent_name (entities m)).
Proof. apply spec_names. Qed.

Section additive.
Variables (s t : ManifestV2).
Hypothesis Hs : ManifestWF s.
Hypothesis Ht : ManifestWF t.
Let Rs := mwf_references _ Hs.
Let Rt := mwf_references _ Ht.

(** The names [new_entity_names]. *)
Definition fresh_names : list pystr :=
  set_minus (dict_keys (dict_of ent_name (entities t))) (dict_keys (dict_of ent_name (entities s))).

Lemma elem_of_fresh n :
  n ∈ fresh_names <-> n ∈ map ent_name (entities t) /\ n ∉ map ent_name (entities s).
Proof using Rs Rt.
  unfold fresh_names. rewrite elem_of_set_minus, !dict_of_keys by (apply Rs || apply Rt). done.
Qed.

Lemma classify_relationships_spec rels :
  classify_relationships s t fresh_names = Ok rels
  <-> relationships s ⊆ relationships t
      /\ (forall r, r ∈ relationships t -> rel_name r ∉ map rel_name (relationships s) ->
            ep_entity (rel_from r) ∉ map ent_name (entities s))
      /\ rels = add_relationships (additions_of s t).
Proof using Rs Rt.
  unfold classify_relationships. cbv zeta.
  rewrite same_items_all by (apply Rs || apply Rt).
  rewrite (dict_of_keys rel_name (relationships s)) by apply Rs.
  rewrite new_items_keys by apply Rt. rewrite mapR_map.
  rewrite (mapR_iff _ (fun r => ep_entity (rel_from r) ∈ fresh_names) relationship_of).
  - cbn [additions_of add_relationships]. setoid_rewrite elem_of_new_items.
    enough ((forall r, r ∈ relationships t /\ rel_name r ∉ map rel_name (relationships s) ->
               ep_entity (rel_from r) ∈ fresh_names)
            <-> (forall r, r ∈ relationships t -> rel_name r ∉ map rel_name (relationships s) ->
                   ep_entity (rel_from r) ∉ map ent_name (entities s))) by tauto.
    split.
    + intros H r Hr Hn. by apply elem_of_fresh, H.
    + intros H r [Hr Hn]. apply elem_of_fresh. split; [|auto].
      destruct (mwf_relationships _ Rt r Hr) as [(a & (ent & He & <- & _) & _) _ _ _].
      apply elem_of_map. by exists ent.
  - intros r y [Hr _]%elem_of_new_items.
    rewrite (dict_index_get _ _ r) by (apply dict_of_get; [apply Rt|done]).
    cbn [mbind result_bind].
    rewrite require_then, bool_decide_eq_true, make_relationship_total by (by apply Ht).
    naive_solver.
Qed.

Lemma classify_indices_spec ixs :
  classify_indices s t = Ok ixs
  <-> indices s ⊆ indices t /\ ixs = add_indices (additions_of s t).
Proof using Rs Rt.
  unfold classify_indices. cbv zeta. rewrite same_items_all by (apply Rs || apply Rt).
  rewrite (dict_of_keys idx_name (indices s)) by apply Rs.
  rewrite new_items_keys by apply Rt. rewrite mapR_map.
  rewrite (mapR_total _ index_of); [naive_solver|].
  intros i [Hi _]%elem_of_new_items.
  rewrite (dict_index_get _ _ i) by (apply dict_of_get; [apply Rt|done]).
  cbn [mbind result_bind]. by apply make_index_total; apply Ht.
Qed.

Lemma classify_new_entities :
  mapR (dict_index (dict_of re_name (rs_entities (compiled t)))) (sorted_strs fresh_names)
  = Ok (add_entities (additions_of s t)).
Proof using Rs Rt.
  unfold fresh_names. rewrite (dict_of_keys ent_name (entities s)) by apply Rs.
  rewrite new_items_keys by apply Rt. cbn [additions_of add_entities].
  rewrite <- (map_keep spec_entity re_name ent_name) by done.
  apply mapR_dict_index; [by apply spec_names_NoDup|].
  intros e' (e & -> & [He _]%elem_of_new_items)%elem_of_map. cbn [compiled rs_entities].
  apply elem_of_map. exists e. by rewrite elem_of_sorted_by.
Qed.

(** ** The second derivation, from the compiled specifications *)
Hypothesis Had : Additive s t.

(** New items of the compiled collections are the compiled new items. *)
Lemma new_compiled {A B} (ka : A -> pystr) (kb : B -> pystr) (f : A -> B) xs ys :
  (forall x, kb (f x) = ka x) -> NoDup (map ka xs) -> NoDup (map ka ys) ->
  mapR (dict_index (dict_of kb (map f (sorted_by str_leb ka ys))))
    (sorted_strs (set_minus (dict_keys (dict_of kb (map f (sorted_by str_leb ka ys))))
                            (dict_keys (dict_of kb (map f (sorted_by str_leb ka xs))))))
  = Ok (E := RelationalError) (map f (new_items ka (map ka xs) ys)).
Proof using.
  intros Hk Hxs Hys.
  assert (NoDup (map kb (map f (sorted_by str_leb ka ys)))) as Hnd
    by (by rewrite (map_keep f kb ka), NoDup_sorted_by).
  rewrite new_items_keys by done.
  rewrite mapR_dict_index; [|done|by intros x [? _]%elem_of_new_items]. f_equal.
  rewrite (new_items_map ka) by done. f_equal.
  rewrite dict_of_keys by (by rewrite (map_keep f kb ka), NoDup_sorted_by).
  rewrite (map_keep f kb ka) by done.
  apply new_items_ext; [by rewrite NoDup_sorted_by| |]; by rewrite sorted_by_perm.
Qed.

Lemma expected_fields_total e :
  e ∈ entities s ->
  expected_fields (dict_of re_name (rs_entities (compiled s)))
    (dict_of re_name (rs_entities (compiled t))) (ent_name e)
  = Ok (new_fields e (counterpart t e)).
Proof using Rs Rt Had.
  intros He. destruct (counterpart_spec s t Ht (ad_entities _ _ Had) e He) as (Hc & Hcn & _).
  destruct (ad_extends _ _ Had e He) as [Hpre Hnew].
  unfold expected_fields, compiled; cbn [rs_entities]. rewrite (dict_index_get _ _ _ (spec_lookup s Hs e He)).
  pose proof (spec_lookup t Ht _ Hc) as Hget. rewrite Hcn in Hget.
  rewrite (dict_index_get _ _ _ Hget).
  cbn [mbind result_bind spec_entity re_fields]. rewrite length_map.
  rewrite require_run.
  - rewrite skipn_map, mapR_map. unfold new_fields.
    apply mapR_total. intros a Ha. destruct (Hnew a Ha) as [Hr Hp].
    cbn [field_of rf_required rf_primary_key]. rewrite Hr, Hp. cbn [orb negb raise_if mbind result_bind].
    unfold make_addition; cbn [fa_entity].
    by rewrite entity_identifier by (by apply (mwf_entities _ Hs)).
  - apply bool_decide_eq_true. rewrite firstn_map. symmetry.
    clear -Hpre. induction Hpre as [|a b xs ys [Hf _] _ IH]; simpl; [done|]. by f_equal.
Qed.

Lemma new_sources r :
  r ∈ add_relationships (additions_of s t) ->
  rr_source_entity r ∈ set_minus (dict_keys (dict_of re_name (rs_entities (compiled t))))
                         (dict_keys (dict_of re_name (rs_entities (compiled s)))).
Proof using Rs Rt Had.
  cbn [additions_of add_relationships].
  intros (d & -> & [Hd Hn]%elem_of_new_items)%elem_of_map. cbn [relationship_of rr_source_entity].
  rewrite elem_of_set_minus, !dict_of_keys by (by apply spec_names_NoDup).
  rewrite !compiled_names, !elem_of_sorted_strs. split; [|by apply (ad_new_relationships _ _ Had)].
  destruct (mwf_relationships _ Rt d Hd) as [(a & (ent & He & <- & _) & _) _ _ _].
  apply elem_of_map. by exists ent.
Qed.

Lemma map_sub {A B} (f : A -> B) xs ys : xs ⊆ ys -> map f xs ⊆ map f ys.
Proof using. intros H y (x & -> & Hx)%elem_of_map. apply elem_of_map. exists x. auto. Qed.

Lemma map_sorted_sub {A B} (k : A -> pystr) (f : A -> B) xs ys :
  xs ⊆ ys -> map f (sorted_by str_leb k xs) ⊆ map f (sorted_by str_leb k ys).
Proof using. intros H. apply map_sub. intros x. rewrite !elem_of_sorted_by. apply H. Qed.

(** The three collections of additions, as [expected_additions] derives them. *)
Lemma new_compiled_relationships :
  mapR (dict_index (dict_of rr_name (rs_relationships (compiled t))))
    (sorted_strs (set_minus (dict_keys (dict_of rr_name (rs_relationships (compiled t))))
                            (dict_keys (dict_of rr_name (rs_relationships (compiled s))))))
  = Ok (E := RelationalError) (add_relationships (additions_of s t)).
Proof using Rs Rt. apply (new_compiled rel_name); [done|apply Rs|apply Rt]. Qed.

Lemma new_compiled_indices :
  mapR (dict_index (dict_of ri_name (rs_indices (compiled t))))
    (sorted_strs (set_minus (dict_keys (dict_of ri_name (rs_indices (compiled t))))
                            (dict_keys (dict_of ri_name (rs_indices (compiled s))))))
  = Ok (E := RelationalError) (add_indices (additions_of s t)).
Proof using Rs Rt. apply (new_compiled idx_name); [done|apply Rs|apply Rt]. Qed.

Lemma new_compiled_entities :
  mapR (dict_index (dict_of re_name (rs_entities (compiled t))))
    (sorted_strs (set_minus (dict_keys (dict_of re_name (rs_entities (compiled t))))
                            (dict_keys (dict_of re_name (rs_entities (compiled s))))))
  = Ok (E := RelationalError) (add_entities (additions_of s t)).
Proof using Rs Rt. apply (new_compiled ent_name); [done|apply Rs|apply Rt]. Qed.

Lemma NoDup_compiled {A B} (k : A -> pystr) (k' : B -> pystr) (f : A -> B) xs :
  (forall x, k' (f x) = k x) -> NoDup (map k xs) ->
  NoDup (map k' (map f (sorted_by str_leb k xs))).
Proof using. intros. by rewrite (map_keep f k' k), NoDup_sorted_by. Qed.

Lemma count_new_relationships :
  Z.of_nat (length (add_relationships (additions_of s t)))
  = Z.of_nat (length (dict_of rr_name (rs_relationships (compiled t))))
    - Z.of_nat (length (dict_of rr_name (rs_relationships (compiled s)))).
Proof using Rs Rt Had.
  rewrite !(proj2 (dict_of_length rr_name _))
    by (apply (NoDup_compiled rel_name); [done|apply Rs || apply Rt]).
  cbn [additions_of add_relationships compiled rs_relationships].
  rewrite !length_map, !length_sorted_by.
  pose proof (length_new_items rel_name (map rel_name (relationships s)) (relationships t)
    (mwf_relationship_names _ Rt) (mwf_relationship_names _ Rs)
    (map_sub _ _ _ (ad_relationships _ _ Had))) as Hl.
  rewrite length_map in Hl. lia.
Qed.

Lemma expected_fields_all :
  mapR (expected_fields (dict_of re_name (rs_entities (compiled s)))
          (dict_of re_name (rs_entities (compiled t))))
    (sorted_strs (dict_keys (dict_of re_name (rs_entities (compiled s)))))
  = Ok (map (fun e => new_fields e (counterpart t e)) (sorted_entities s)).
Proof using Rs Rt Had.
  rewrite (dict_of_keys re_name) by (by apply spec_names_NoDup).
  rewrite compiled_names, sorted_strs_id by apply sorted_strs_sorted.
  rewrite <- map_sorted_by, mapR_map. apply mapR_total.
  intros e He%elem_of_sorted_by. by apply expected_fields_total.
Qed.

Lemma expected_additions_total :
  expected_additions (compiled s) (compiled t) = Ok (additions_of s t).
Proof using Rs Rt Had.
  unfold expected_additions. cbv zeta. rewrite require_run.
  2:{ apply subset_of_spec. rewrite !dict_of_keys by (by apply spec_names_NoDup).
      rewrite !compiled_names. intros n. rewrite !elem_of_sorted_strs. apply (ad_entities _ _ Had). }
  rewrite expected_fields_all. cbn [mbind result_bind].
  apply same_items_all; [apply (NoDup_compiled rel_name); [done|apply Rs]
    |apply (NoDup_compiled rel_name); [done|apply Rt]|].
  split; [apply map_sorted_sub, Had|].
  rewrite new_compiled_relationships. cbn [mbind result_bind].
  rewrite filter_all by (apply Forall_forall, new_sources).
  rewrite require_run by (apply Z.eqb_eq, count_new_relationships).
  apply same_items_all; [apply (NoDup_compiled idx_name); [done|apply Rs]
    |apply (NoDup_compiled idx_name); [done|apply Rt]|].
  split; [apply map_sorted_sub, Had|].
  rewrite new_compiled_entities. cbn [mbind result_bind].
  by rewrite new_compiled_indices.
Qed.
End additive.

(** ** The refinement *)
Lemma history_spec s t :
  ManifestWF t -> schema_version t = schema_version s + 1 ->
  0 < schema_version s ->
  history_is_one_entry_extension s t = Ok true
  <-> exists h, migration_history t = migration_history s ++ [h]
        /\ from_schema_version h = schema_version s /\ to_schema_version h = schema_version t.
Proof.
  intros Ht Hv Hpos. pose proof (mwf_history_length _ (mwf_references _ Ht)) as Hlen.
  unfold history_is_one_entry_extension.
  destruct (exists_last (l := migration_history t)) as (pre & h & Heq).
  { intros Hnil. rewrite Hnil in Hlen. simpl in Hlen. lia. }
  rewrite Heq, removelast_last, last_snoc. case_bool_decide as Hpre; [subst pre|].
  - split.
    + intros [= Hb]. bools. by exists h.
    + intros (h' & Happ & Hf & Hto). apply app_inv_head in Happ as [= <-].
      by rewrite Hf, Hto, !Z.eqb_refl.
  - split; [done|]. intros (h' & [-> _]%app_inj_tail & _). done.
Qed.

Lemma classify_global_total s t :
  classify_global_metadata s t = Ok (global_changes s t).
Proof. unfold classify_global_metadata. by rewrite !change_if_eq. Qed.

Lemma sorted_metadata_perm cs : sorted_metadata cs ≡ₚ cs.
Proof. apply sorted_by_perm. Qed.

Lemma build_total s t :
  ManifestWF s -> ManifestWF t -> Additive s t ->
  no_change (additions_of s t) (sorted_metadata (all_changes s t)) = false ->
  build_transition (compiled s) (compiled t) (additions_of s t) (sorted_metadata (all_changes s t))
  = Ok (transition_of s t).
Proof.
  intros Hs Ht Had Hsome. unfold build_transition. rewrite require_run.
  - rewrite (expected_additions_total s t) by done. cbn [mbind result_bind].
    rewrite bool_decide_true by done. cbn [negb raise_if mbind result_bind]. by rewrite Hsome.
  - rewrite sorted_metadata_idem, bool_decide_true by done. cbn [andb].
    apply andb_true_iff. split.
    + apply distinct_spec. rewrite sorted_metadata_perm. by apply NoDup_all_changes.
    + apply Z.eqb_eq. apply (ad_version _ _ Had).
Qed.

(** Something changes between the two versions. *)
Definition changes (s t : ManifestV2) : Prop :=
  no_change (additions_of s t) (sorted_metadata (all_changes s t)) = false.

Lemma concat_map_pair {A B C} (f : A -> list B) (g : A -> list C) l :
  concat (map fst (map (fun x => (f x, g x)) l)) = concat (map f l)
  /\ concat (map snd (map (fun x => (f x, g x)) l)) = concat (map g l).
Proof. by rewrite !map_map. Qed.

Section refinement.
Variables (s t : ManifestV2).
Hypothesis Hs : ManifestWF s.
Hypothesis Ht : ManifestWF t.

Lemma schema_version_pos : 0 < schema_version s.
Proof using Hs. pose proof (mwf_fields _ Hs) as Hf. unfold manifest_fields in Hf. bools. lia. Qed.

Lemma entity_subset :
  subset_of (dict_keys (dict_of ent_name (entities s))) (dict_keys (dict_of ent_name (entities t)))
    = true
  <-> map ent_name (entities s) ⊆ map ent_name (entities t).
Proof using Hs Ht.
  by rewrite subset_of_spec, !dict_of_keys by (by apply mwf_entity_names, mwf_references).
Qed.

Lemma classify_detached_sound tr :
  classify_detached s t = Ok tr -> Additive s t /\ changes s t /\ tr = transition_of s t.
Proof using Hs Ht.
  unfold classify_detached. cbv zeta. fold (fresh_names s t).
  rewrite !compile_checked_total by done.
  intros [Hv%Z.eqb_eq H]%require_then. apply bind_Ok in H as ([|] & Hhist & H); [|done].
  apply history_spec in Hhist; [|done|done|apply schema_version_pos].
  cbn [negb raise_if mbind result_bind] in H.
  apply require_then in H as [Hsub%entity_subset H].
  apply bind_Ok in H as (per & Hper & H). apply (classify_entities_spec s t Hs Ht) in Hper as [Hext ->];
    [|done]. rewrite classify_global_total in H. cbn [mbind result_bind] in H.
  apply bind_Ok in H as (rels & Hrels & H).
  apply (classify_relationships_spec s t Hs Ht) in Hrels as (Hr & Hnr & ->).
  apply bind_Ok in H as (ixs & Hixs & H).
  apply (classify_indices_spec s t Hs Ht) in Hixs as [Hi ->].
  rewrite (classify_new_entities s t Hs Ht) in H. cbn [mbind result_bind] in H.
  destruct (concat_map_pair (fun e => entity_changes e (counterpart t e))
              (fun e => new_fields e (counterpart t e)) (sorted_entities s)) as [Hf Hn].
  rewrite Hf, Hn in H.
  assert (Additive s t) as Had by (split; try done; lia).
  apply require_then in H as [Hsome%negb_true_iff H].
  split; [done|]. split; [done|].
  pose proof (build_total s t Hs Ht Had Hsome) as Hb.
  unfold additions_of, all_changes in Hb.
  cbn [additions_of add_relationships add_indices add_entities] in H. rewrite Hb in H. by injection H as <-.
Qed.

Lemma classify_detached_complete :
  Additive s t -> changes s t -> classify_detached s t = Ok (transition_of s t).
Proof using Hs Ht.
  intros Had Hsome. unfold classify_detached. cbv zeta. fold (fresh_names s t).
  rewrite !compile_checked_total by done.
  rewrite require_run by (apply Z.eqb_eq, Had).
  rewrite (proj2 (history_spec s t Ht (ad_version _ _ Had) schema_version_pos) (ad_history _ _ Had)).
  cbn [negb raise_if mbind result_bind].
  rewrite require_run by (apply entity_subset, Had).
  rewrite (proj2 (classify_entities_spec s t Hs Ht (ad_entities _ _ Had) _)
             (conj (ad_extends _ _ Had) eq_refl)).
  rewrite classify_global_total. cbn [mbind result_bind].
  rewrite (proj2 (classify_relationships_spec s t Hs Ht _) (conj (ad_relationships _ _ Had)
             (conj (ad_new_relationships _ _ Had) eq_refl))).
  cbn [mbind result_bind].
  rewrite (proj2 (classify_indices_spec s t Hs Ht _) (conj (ad_indices _ _ Had) eq_refl)).
  cbn [mbind result_bind]. rewrite (classify_new_entities s t Hs Ht). cbn [mbind result_bind].
  destruct (concat_map_pair (fun e => entity_changes e (counterpart t e))
              (fun e => new_fields e (counterpart t e)) (sorted_entities s)) as [-> ->].
  fold (all_changes s t).
  rewrite require_run by (apply negb_true_iff, Hsome).
  exact (build_total s t Hs Ht Had Hsome).
Qed.
End refinement.

Lemma classify_transition_detached `{PublicModels} s t tr :
  classify_transition s t = Ok tr -> ManifestWF s /\ ManifestWF t /\ classify_detached s t = Ok tr.
Proof.
  unfold classify_transition. rewrite !detached_manifest_spec.
  destruct (manifest_valid s) eqn:Es; [|done]. destruct (manifest_valid t) eqn:Et; [|done].
  by apply manifest_valid_WF in Es, Et.
Qed.

(** ** The only exception is [RelationalContractError] *)
Definition safe {A} (m : result RelationalError A) : Prop :=
  forall e, m = Raise e -> e = RelationalContractError.

Lemma safe_ok {A} (a : A) : safe (Ok a).
Proof. done. Qed.

Lemma safe_refuse {A} : safe (A := A) (Raise RelationalContractError).
Proof. by intros e [= <-]. Qed.

Lemma safe_require (b : bool) : safe (require b).
Proof. destruct b; [done|by intros e [= <-]]. Qed.

Lemma safe_bind {A B} (m : result RelationalError A) (f : A -> result RelationalError B) :
  safe m -> (forall a, m = Ok a -> safe (f a)) -> safe (m ≫= f).
Proof. destruct m as [a|e]; simpl; [intros _ H; by apply H|]. intros H _ e' [= <-]. by apply H. Qed.

Lemma safe_mapR {A B} (f : A -> result RelationalError B) l :
  (forall x, x ∈ l -> safe (f x)) -> safe (mapR f l).
Proof.
  induction l as [|x l IH]; intros H; [done|]. simpl. apply safe_bind; [apply H; by left|].
  intros y _. apply safe_bind; [apply IH; intros; apply H; by right|done].
Qed.

Lemma safe_index {A} (d : list (pystr * A)) k : k ∈ map fst d -> safe (dict_index d k).
Proof.
  intros Hk. unfold dict_index. destruct (dict_get d k) eqn:E; [done|].
  by apply dict_get_None in E.
Qed.

Create HintDb safe.
#[local] Hint Resolve safe_ok safe_refuse safe_require safe_bind safe_mapR safe_index : safe.

Lemma safe_change_if c k e f : safe (change_if c k e f).
Proof. unfold change_if, make_change. destruct c; eauto 6 with safe. Qed.

Lemma safe_attribute_change n p : safe (classify_attribute_change n p).
Proof.
  destruct p as [a b]. unfold classify_attribute_change, classify_allowed_values, make_change.
  apply safe_bind; [apply safe_require|intros _ _].
  do 2 (apply safe_bind; [apply safe_change_if|intros ? _]).
  apply safe_bind; [|eauto with safe]. repeat case_match; eauto 6 with safe.
Qed.

Lemma safe_new_attribute n a : safe (classify_new_attribute n a).
Proof. unfold classify_new_attribute, make_field, make_addition. eauto 8 with safe. Qed.

Lemma safe_same_items {A} `{EqDecision A} (d d' : list (pystr * A)) k :
  k ∈ map fst d -> k ∈ map fst d' -> safe (same_items d d' k).
Proof. intros ??. unfold same_items. eauto 8 with safe. Qed.

Lemma safe_entity s t n :
  n ∈ map fst (dict_of ent_name (entities s)) -> n ∈ map fst (dict_of ent_name (entities t)) ->
  safe (classify_entity (dict_of ent_name (entities s)) (dict_of ent_name (entities t)) n).
Proof.
  intros Hn Hn'. unfold classify_entity.
  apply safe_bind; [by apply safe_index|intros e _].
  apply safe_bind; [by apply safe_index|intros e' _].
  apply safe_bind; [apply safe_change_if|intros d _].
  apply safe_bind; [apply safe_require|intros _ _].
  apply safe_bind; [apply safe_mapR; intros; apply safe_attribute_change|intros cs _].
  apply safe_bind; [apply safe_mapR; intros; apply safe_new_attribute|done].
Qed.

(** The opening checks of a named collection, then the loop over what is new. *)
Lemma safe_collection {A B} `{EqDecision A} (d d' : list (pystr * A)) (f : A -> result RelationalError B) :
  (forall x, safe (f x)) ->
  safe (require (subset_of (dict_keys d) (dict_keys d')) ;;
        mapR (same_items d d') (dict_keys d) ;;
        mapR (fun name => x ← dict_index d' name; f x)
          (sorted_strs (set_minus (dict_keys d') (dict_keys d)))).
Proof.
  intros Hf. apply safe_bind; [apply safe_require|]. intros _ Hsub%require_Ok%subset_of_spec.
  apply safe_bind; [apply safe_mapR; intros k Hk; apply safe_same_items; [done|by apply Hsub]|].
  intros _ _. apply safe_mapR. intros k [Hk _]%elem_of_sorted_strs%elem_of_set_minus.
  apply safe_bind; [by apply safe_index|]. auto.
Qed.

Lemma safe_history s t :
  ManifestWF s -> ManifestWF t -> schema_version t = schema_version s + 1 ->
  safe (history_is_one_entry_extension s t).
Proof.
  intros Hs Ht Hv. unfold history_is_one_entry_extension. case_match; [|done].
  case_match eqn:Hl; [done|]. apply last_None in Hl.
  pose proof (mwf_history_length _ (mwf_references _ Ht)) as Hlen.
  pose proof (schema_version_pos s Hs). rewrite Hl in Hlen. simpl in Hlen. lia.
Qed.

Lemma classify_detached_safe s t :
  ManifestWF s -> ManifestWF t -> safe (classify_detached s t).
Proof.
  intros Hs Ht. unfold classify_detached. cbv zeta. fold (fresh_names s t).
  rewrite !compile_checked_total by done.
  apply safe_bind; [apply safe_require|]. intros _ Hv%require_Ok%Z.eqb_eq.
  apply safe_bind; [by apply safe_history|]. intros ext Hext.
  apply safe_bind; [apply safe_require|]. intros _ ->%require_Ok.
  apply history_spec in Hext; [|done|done|by apply schema_version_pos].
  cbn [mbind result_bind].
  apply safe_bind; [apply safe_require|]. intros _ Hsub%require_Ok.
  assert (Hsub' := Hsub). apply subset_of_spec in Hsub'. apply (entity_subset s t Hs Ht) in Hsub.
  apply safe_bind.
  { apply safe_mapR. intros n Hn. rewrite elem_of_sorted_strs in Hn. apply safe_entity; [exact Hn|exact (Hsub' _ Hn)]. }
  intros per Hper. apply (classify_entities_spec s t Hs Ht) in Hper as [Hex ->]; [|done].
  rewrite classify_global_total. cbn [mbind result_bind].
  apply safe_bind.
  { apply (safe_collection _ _ (fun r => require _ ;; make_relationship _)). intros r.
    unfold make_relationship. eauto 6 with safe. }
  intros rels (Hr & Hnr & ->)%(classify_relationships_spec s t Hs Ht).
  apply safe_bind.
  { apply (safe_collection _ _ (fun i => make_index _)). intros r. unfold make_index. eauto with safe. }
  intros ixs [Hi ->]%(classify_indices_spec s t Hs Ht).
  rewrite (classify_new_entities s t Hs Ht). cbn [mbind result_bind].
  destruct (concat_map_pair (fun e => entity_changes e (counterpart t e))
              (fun e => new_fields e (counterpart t e)) (sorted_entities s)) as [-> ->].
  fold (all_changes s t).
  apply safe_bind; [apply safe_require|]. intros _ Hsome%require_Ok%negb_true_iff.
  assert (Additive s t) as Had by (split; try done; lia).
  intros e He. pose proof (build_total s t Hs Ht Had Hsome) as Hb.
  unfold additions_of in Hb at 1. cbn [additions_of add_relationships add_indices add_entities] in He.
  congruence.
Qed.

(** ** Properties *)

(** C31: [classify_transition] refines the abstract contract: it answers exactly
    when both manifests are valid, the step between them is additive and
    something changes, and then returns the transition the contract denotes;
    neither the constructors nor the second derivation of the additions inside
    [_build] refuse such a step. *)
Theorem classify_transition_refines `{PublicModels} (s t : ManifestV2) (tr : RelationalTransition) :
  classify_transition s t = Ok tr
  <-> ManifestWF s /\ ManifestWF t /\ Additive s t /\ changes s t /\ tr = transition_of s t.
Proof.
  unfold classify_transition. rewrite !detached_manifest_spec.
  destruct (manifest_valid s) eqn:Es.
  2:{ split; [done|]. intros [Hs%WF_manifest_valid _]. congruence. }
  destruct (manifest_valid t) eqn:Et.
  2:{ split; [done|]. intros (_ & Ht%WF_manifest_valid & _). congruence. }
  apply manifest_valid_WF in Es, Et. cbn [mbind result_bind]. split.
  - intros Htr. do 2 (split; [done|]). by apply classify_detached_sound.
  - intros (_ & _ & Had & Hsome & ->). by apply classify_detached_complete.
Qed.

Lemma classify_transition_refines_witness :
  classify_transition shop_v1 shop_v2 = Ok (transition_of shop_v1 shop_v2).
Proof.
  apply (classify_transition_refines shop_v1 shop_v2).
  apply (classify_transition_refines shop_v1 shop_v2 (transition_of shop_v1 shop_v2)).
  by vm_compute.
Defined.

(** Classification fails with [RelationalContractError] only: no lookup of
    its dictionaries and no access to the last history entry can fail. *)
Theorem classify_transition_error `{PublicModels} (s t : ManifestV2) (e : RelationalError) :
  classify_transition s t = Raise e -> e = RelationalContractError.
Proof.
  unfold classify_transition. rewrite !detached_manifest_spec.
  destruct (manifest_valid s) eqn:Es; [|by intros [= <-]].
  destruct (manifest_valid t) eqn:Et; [|by intros [= <-]].
  apply manifest_valid_WF in Es, Et. by apply classify_detached_safe.
Qed.

Lemma classify_transition_error_witness : classify_transition shop_v2 shop_v1 = Raise RelationalContractError.
Proof.
  destruct (classify_transition shop_v2 shop_v1) as [tr|e] eqn:E.
  - exfalso. vm_compute in E. discriminate E.
  - f_equal. exact (classify_transition_error shop_v2 shop_v1 e E).
Defined.

(** An accepted transition never touches what exists: every entity of the
    current specification is still there with its fields as a prefix of the new
    ones, the added fields are nullable, and every relationship and index is
    unchanged. *)
Theorem classify_transition_preserves `{PublicModels} (s t : ManifestV2) (tr : RelationalTransition) :
  classify_transition s t = Ok tr ->
  (forall e, e ∈ rs_entities (tr_current tr) -> exists e' new,
     e' ∈ rs_entities (tr_target tr) /\ re_name e' = re_name e
     /\ re_fields e' = re_fields e ++ new /\ Forall (fun f => rf_required f = false) new)
  /\ rs_relationships (tr_current tr) ⊆ rs_relationships (tr_target tr)
  /\ rs_indices (tr_current tr) ⊆ rs_indices (tr_target tr).
Proof.
  unfold classify_transition. rewrite !detached_manifest_spec.
  destruct (manifest_valid s) eqn:Es; [|done]. destruct (manifest_valid t) eqn:Et; [|done].
  apply manifest_valid_WF in Es, Et.
  intros (Had & _ & ->)%(classify_detached_sound s t Es Et).
  cbn [transition_of tr_current tr_target compiled rs_entities rs_relationships rs_indices].
  split_and!; [|apply map_sorted_sub, Had|apply map_sorted_sub, Had].
  intros e' (e & -> & He%elem_of_sorted_by)%elem_of_map.
  destruct (counterpart_spec s t Et (ad_entities _ _ Had) e He) as (Hc & Hn & _).
  destruct (ad_extends _ _ Had e He) as [Hpre Hnew].
  exists (spec_entity (counterpart t e)),
    (map field_of (drop (length (ent_attributes e)) (ent_attributes (counterpart t e)))).
  split; [apply elem_of_map; exists (counterpart t e); by rewrite elem_of_sorted_by|].
  split; [done|]. split.
  - cbn [spec_entity re_fields].
    rewrite <- (take_drop (length (ent_attributes e)) (ent_attributes (counterpart t e))) at 1.
    rewrite map_app. f_equal. clear -Hpre. induction Hpre as [|a b xs ys [Hf _] _ IH]; simpl; congruence.
  - apply (List.Forall_map _ _ _), Forall_forall. intros a Ha. by apply Hnew.
Qed.

Lemma classify_transition_preserves_witness :
  rs_indices (compiled shop_v1) ⊆ rs_indices (compiled shop_v2).
Proof.
  apply (classify_transition_preserves shop_v1 shop_v2 (transition_of shop_v1 shop_v2)).
  by vm_compute.
Defined.
