(* ===== verification/Contracts.v ===== *)
(** * Contracts: the storage boundary of the lifecycle coordinator

    [storage/contracts.py] and [storage/errors.py]: the values a service-store
    adapter hands out, with the checks of their constructors, and the exceptions
    a call may end with, by the class the callers distinguish. *)
From S2P Require Import Prelude Values Lifecycle Operational Models.

(** The exceptions, most specific class first: [StorageTransientJournal] is a
    [StorageUnavailable]; anything else is [OtherException]. *)
Inductive Exn :=
| ExnBusy | ExnTransientJournal | ExnUnavailable | ExnMigration | ExnContract | OtherException.

#[export] Instance Exn_eq_dec : EqDecision Exn.
Proof. solve_decision. Defined.

(** [isinstance(error, StorageUnavailable)]. *)
Definition is_unavailable (e : Exn) : bool :=
  match e with ExnTransientJournal | ExnUnavailable => true | _ => false end.

Inductive StorageComponent := REGISTRY | SERVICE_STORE.
Inductive MigrationStatus := UNINITIALISED | OUTDATED | READY | INCOMPATIBLE | DIRTY.
Inductive DomainSchemaStatus := DS_UNMATERIALISED | DS_READY | DS_INCOMPATIBLE.
#[export] Instance DomainSchemaStatus_eq_dec : EqDecision DomainSchemaStatus.
Proof. solve_decision. Defined.

#[export] Instance StorageComponent_eq_dec : EqDecision StorageComponent.
Proof. solve_decision. Defined.
#[export] Instance MigrationStatus_eq_dec : EqDecision MigrationStatus.
Proof. solve_decision. Defined.

Record ServiceStoreLocator := { lo_backend : Backend; lo_namespace : pystr }.

Definition make_locator (l : ServiceStoreLocator) : result Exn ServiceStoreLocator :=
  raise_if (negb (namespace_pattern (lo_namespace l)) || bool_decide (lo_namespace l = zero_namespace))
    ExnContract ;;
  Ok l.

(** [ServiceStoreLocator.for_service]. *)
Definition locator_for_service (b : Backend) (service_id : UUID) : result Exn ServiceStoreLocator :=
  raise_if (service_id =? 0)%N ExnContract ;;
  make_locator {| lo_backend := b; lo_namespace := service_namespace service_id |}.

Record StorageAdapterInfo := { sa_backend : Backend; sa_components : list StorageComponent }.

Definition make_adapter_info (i : StorageAdapterInfo) : result Exn StorageAdapterInfo :=
  raise_if (match sa_components i with [] => true | _ => false end) ExnContract ;; Ok i.

Record MigrationState := {
  ms_component : StorageComponent;
  ms_applied_revision : Z;
  ms_target_revision : Z;
  ms_status : MigrationStatus
}.

(** [MigrationState.__post_init__]. *)
Definition make_migration_state (m : MigrationState) : result Exn MigrationState :=
  raise_if (negb (1 <=? ms_target_revision m)) ExnContract ;;
  raise_if (negb (0 <=? ms_applied_revision m)) ExnContract ;;
  raise_if (bool_decide (ms_status m = UNINITIALISED) && negb (ms_applied_revision m =? 0)) ExnContract ;;
  raise_if (bool_decide (ms_status m = OUTDATED)
            && negb ((0 <? ms_applied_revision m) && (ms_applied_revision m <? ms_target_revision m)))
    ExnContract ;;
  raise_if (bool_decide (ms_status m = READY) && negb (ms_applied_revision m =? ms_target_revision m))
    ExnContract ;;
  Ok m.

Record DomainSchemaState := { ds_status : DomainSchemaStatus }.
