(* ===== verification/Coordinator.v ===== *)
(** * Coordinator: one finite reconciliation of a lifecycle command

    [lifecycle_coordinator.py].  The coordinator is a program over the queries
    its collaborators answer: a unit of work of the registry, the clock, the
    service-store catalogue and the domain schema store.  Where the code checks
    the type of an answer, [None] is a value of another type.  A step that may
    return early answers [inl] with the result. *)
From S2P Require Export Prog.
From S2P Require Import Prelude Values Json Sha256 Manifest Relational Transition Lifecycle.
From S2P Require Import LifecycleSpec Operational Models Contracts.

(** ** Queries *)
Inductive Query : Type -> Type :=
| Q_uow : Query unit
| Q_resolve_or_admit (c : LifecycleCommand) : Query (option LifecycleRegistryOutcome)
| Q_get (principal : pystr) (id : UUID) : Query (option Service)
| Q_finalize_completed (c : LifecycleCompletion) : Query (option LifecycleRegistryOutcome)
| Q_finalize_recovery (i : LifecycleIntent) (t : datetime) : Query (option LifecycleRegistryOutcome)
| Q_commit : Query unit
| Q_rollback : Query unit
| Q_close : Query unit
| Q_now : Query datetime
| Q_info : Query (option StorageAdapterInfo)
| Q_allocate (id : UUID) : Query (option ServiceStoreLocator)
| Q_inspect_migration (l : ServiceStoreLocator) : Query (option MigrationState)
| Q_migrate (l : ServiceStoreLocator) : Query (option MigrationState)
| Q_inspect (l : ServiceStoreLocator) (s : RelationalSpecification) : Query (option DomainSchemaState)
| Q_materialise (l : ServiceStoreLocator) (s : RelationalSpecification) : Query unit
| Q_evolve (l : ServiceStoreLocator) (t : RelationalTransition) : Query unit.

Abbreviation program := (prog Query Exn).
Abbreviation R := LifecycleExecutionResult.

(** [_result]. *)
Definition failed (c : LifecycleResultCategory) : R := {| er_category := EXEC_FAILED c; er_service := None |}.
Definition stop {A} (c : LifecycleResultCategory) : program (R + A) := give (inl (failed c)).
Definition go {A} (a : A) : program (R + A) := give (inr a).
Definition returning {A} (res : R) : program (R + A) := give (inl res).

(** [_before_commit_error] and [_terminal_write_error]. *)
Definition before_commit_error (e : Exn) : R :=
  match e with
  | ExnBusy => failed R_STORAGE_BUSY
  | e => if is_unavailable e then failed R_STORAGE_UNAVAILABLE else failed R_INTERNAL_FAILURE
  end.

Definition terminal_write_error (e : Exn) : R :=
  match e with
  | ExnBusy => failed R_STORAGE_BUSY
  | e => if is_unavailable e then failed R_OPERATION_UNCERTAIN else failed R_INTERNAL_FAILURE
  end.

(** [_close_only] and [_rollback_close], which suppress every exception. *)
Definition close_only : program unit := try_with (ask Q_close) (fun _ => give tt).
Definition rollback_close : program unit := try_with (ask Q_rollback) (fun _ => close_only).

(** A pure call that may raise something. *)
Definition pure_call {E A} (m : result E A) : program A :=
  match m with Ok a => give a | Raise _ => throw OtherException end.

Section coordinator.
Context `{PublicModels} `{FloatRepr}.

(** [_registry_outcome]: the constructor of a completed result may raise. *)
Definition registry_outcome (o : option LifecycleRegistryOutcome) : program R :=
  match o with
  | Some (LR_Completed c) => pure_call (make_execution_result EXEC_COMPLETED (Some (cl_service c)))
  | Some LR_Conflict => give (failed R_CHANGED_FINGERPRINT)
  | Some LR_Stale => give (failed R_STALE_REVISION)
  | Some LR_Unsupported => give (failed R_UNSUPPORTED_TRANSITION)
  | Some LR_InProgress => give (failed R_OPERATION_IN_PROGRESS)
  | Some (LR_RecoveryRequired _) => give (failed R_RECOVERY_REQUIRED)
  | Some (LR_Prepared _) | None => give (failed R_INTERNAL_FAILURE)
  end.

(** [_terminal_write]; the answer is a terminal claim or is refused. *)
Definition terminal_write (operation : Query (option LifecycleRegistryOutcome)) : program R :=
  try_with (ask Q_uow) (fun r =>
    match r with
    | Raise e => give (terminal_write_error e)
    | Ok _ =>
        try_with (ask operation) (fun r =>
          match r with
          | Raise e => rollback_close ;; give (terminal_write_error e)
          | Ok (Some (LR_Completed _ | LR_RecoveryRequired _) as terminal) =>
              try_with (ask Q_commit) (fun r =>
                match r with
                | Raise _ => close_only ;; give (failed R_OPERATION_UNCERTAIN)
                | Ok _ =>
                    try_with (ask Q_close) (fun r =>
                      match r with
                      | Raise _ => give (failed R_OPERATION_UNCERTAIN)
                      | Ok _ => registry_outcome terminal
                      end)
                end)
          | Ok _ => rollback_close ;; give (failed R_INTERNAL_FAILURE)
          end)
    end).

(** [_finalize_recovery]. *)
Definition finalize_recovery (i : LifecycleIntent) : program R :=
  try_with (ask Q_now) (fun r =>
    match r with
    | Raise _ => give (failed R_INTERNAL_FAILURE)
    | Ok t => terminal_write (Q_finalize_recovery i t)
    end).

(** The completion [_finalize_completed] hands to the registry. *)
Definition completion_of (i : LifecycleIntent) (l : ServiceStoreLocator) (t : datetime)
  : result ModelError LifecycleCompletion :=
  match kind i with
  | MATERIALISE =>
      st ← make_storage {| backend := lo_backend l; namespace := lo_namespace l |};
      make_materialise_completion i t st
  | EVOLVE => make_evolve_completion i t
  end.

(** [_finalize_completed]. *)
Definition finalize_completed (i : LifecycleIntent) (l : ServiceStoreLocator) : program R :=
  try_with (t ← ask Q_now; pure_call (completion_of i l t)) (fun r =>
    match r with
    | Raise _ => give (failed R_INTERNAL_FAILURE)
    | Ok completion => terminal_write (Q_finalize_completed completion)
    end).

(** [_commit_prepared]. *)
Definition commit_prepared (i : LifecycleIntent) (source : option Service)
  : program (R + (LifecycleIntent * Service)) :=
  try_with (ask Q_commit) (fun r =>
    match r with
    | Raise _ => close_only ;; stop R_OPERATION_UNCERTAIN
    | Ok _ =>
        try_with (ask Q_close) (fun r =>
          match r with
          | Raise _ => stop R_OPERATION_UNCERTAIN
          | Ok _ =>
              match source with
              | None => res ← finalize_recovery i; returning res
              | Some s => go (i, s)
              end
          end)
    end).

(** [_close_nonmutating]. *)
Definition close_nonmutating (res : R) : program R :=
  handle (ask Q_rollback ;; ask Q_close ;; give res) (fun e => give (before_commit_error e)).

(** [_admit]. *)
Definition admit_command (c : LifecycleCommand) : program (R + (LifecycleIntent * Service)) :=
  try_with (ask Q_uow) (fun r =>
    match r with
    | Raise e => returning (before_commit_error e)
    | Ok _ =>
        handle
          (outcome ← ask (Q_resolve_or_admit c);
           match outcome with
           | Some (LR_Prepared i) =>
               source ← ask (Q_get (principal_id (command_fields c)) (service_id (command_fields c)));
               commit_prepared i source
           | _ =>
               res ← registry_outcome outcome;
               res ← close_nonmutating res;
               returning res
           end)
          (fun e => rollback_close ;; returning (before_commit_error e))
    end).

(** [_source_matches]. *)
Definition source_matches (i : LifecycleIntent) (s : Service) : bool :=
  bool_decide (sv_principal_id s = principal_id (fields i))
  && (sv_service_id s =? service_id (fields i))%N
  && bool_decide (sv_operational_status s = ACTIVE)
  && (sv_service_revision s =? expected_service_revision (fields i))
  && bool_decide (sv_schema_version s = Some (expected_schema_version (fields i)))
  && is_some (sv_manifest s)
  && match kind i with
     | MATERIALISE =>
         bool_decide (sv_design_state s = SEEDED)
         && bool_decide (sv_manifest s = Some (target_manifest i))
         && bool_decide (sv_schema_version s = Some 1)
         && negb (is_some (sv_materialised_at s)) && negb (is_some (sv_storage s))
     | EVOLVE =>
         bool_decide (sv_design_state s = MATERIALISED) && is_some (sv_materialised_at s)
         && is_some (sv_storage s)
     end.

(** [_valid_locator]. *)
Definition valid_locator (info : option StorageAdapterInfo) (l : option ServiceStoreLocator)
    (i : LifecycleIntent) : bool :=
  match info, l with
  | Some info, Some l =>
      existsb (fun c => bool_decide (c = SERVICE_STORE)) (sa_components info)
      && bool_decide (lo_backend l = sa_backend info)
      && bool_decide (lo_namespace l = service_namespace (service_id (fields i)))
  | _, _ => false
  end.

(** [_locator]. *)
Definition locator (i : LifecycleIntent) (s : Service) : program (R + ServiceStoreLocator) :=
  try_with (info ← ask Q_info; l ← ask (Q_allocate (service_id (fields i))); give (info, l)) (fun r =>
    match r with
    | Raise ExnBusy => stop R_STORAGE_BUSY
    | Raise e => if is_unavailable e then stop R_STORAGE_UNAVAILABLE else stop R_INTERNAL_FAILURE
    | Ok (info, l) =>
        match l with
        | Some l' =>
            if negb (valid_locator info l i) then stop R_INTERNAL_FAILURE
            else if bool_decide (kind i = EVOLVE)
                    && negb (match sv_storage s with
                             | Some st => bool_decide (backend st = lo_backend l')
                                          && bool_decide (namespace st = lo_namespace l')
                             | None => false
                             end)
            then stop R_INTERNAL_FAILURE
            else go l'
        | None => stop R_INTERNAL_FAILURE
        end
    end).

(** [_compile]. *)
Definition compile (i : LifecycleIntent) (s : Service)
  : program (R + (RelationalSpecification * option RelationalTransition)) :=
  match compile_manifest (target_manifest i) with
  | Raise _ => stop R_INTERNAL_FAILURE
  | Ok target =>
      match kind i with
      | MATERIALISE => go (target, None)
      | EVOLVE =>
          match sv_manifest s with
          | None => stop R_INTERNAL_FAILURE
          | Some m =>
              match classify_transition m (target_manifest i) with
              | Raise _ => stop R_INTERNAL_FAILURE
              | Ok t => go (target, Some t)
              end
          end
      end
  end.
End coordinator.

(** ** Observations *)
Definition foundation_of (s : MigrationStatus) : FoundationObservation :=
  match s with
  | UNINITIALISED => F_UNINITIALISED | OUTDATED => F_OUTDATED | READY => F_READY
  | DIRTY => F_DIRTY | INCOMPATIBLE => F_INCOMPATIBLE
  end.

(** A migration state of the service store, or [None]. *)
Definition service_store_state (m : option MigrationState) : option MigrationState :=
  match m with
  | Some s => if bool_decide (ms_component s = SERVICE_STORE) then Some s else None
  | None => None
  end.

(** The end of [_foundation]. *)
Definition classify_foundation (m : option MigrationState) : program (R + FoundationObservation) :=
  match service_store_state m with
  | Some s => go (foundation_of (ms_status s))
  | None => stop R_INTERNAL_FAILURE
  end.

(** An independent read after a migration that is not ready: only an exact
    ready state may promote it. *)
Definition promote_ready (l : ServiceStoreLocator) : program (R + FoundationObservation) :=
  try_with (ask (Q_inspect_migration l)) (fun r =>
    match r with
    | Raise ExnBusy => go F_BUSY
    | Raise (ExnUnavailable | ExnTransientJournal | ExnMigration) => go F_UNCERTAIN
    | Raise _ => stop R_INTERNAL_FAILURE
    | Ok refreshed =>
        match service_store_state refreshed with
        | Some s => if bool_decide (ms_status s = READY) then go F_READY else go F_UNCERTAIN
        | None => go F_UNCERTAIN
        end
    end).

(** The state a peer's journal was reconciled to. *)
Definition after_journal (l : ServiceStoreLocator) (m : option MigrationState)
  : program (R + FoundationObservation) :=
  match service_store_state m with
  | None => stop R_INTERNAL_FAILURE
  | Some s =>
      if bool_decide (ms_status s = READY) then classify_foundation m else promote_ready l
  end.

(** The [except StorageTransientJournal] branch. *)
Definition reconcile_journal (l : ServiceStoreLocator) : program (R + FoundationObservation) :=
  try_with (ask (Q_migrate l)) (fun r =>
    match r with
    | Raise ExnBusy => go F_BUSY
    | Raise (ExnUnavailable | ExnTransientJournal) =>
        try_with (ask (Q_inspect_migration l)) (fun r =>
          match r with
          | Raise ExnBusy => go F_BUSY
          | Raise (ExnUnavailable | ExnTransientJournal | ExnMigration) => go F_UNCERTAIN
          | Raise _ => stop R_INTERNAL_FAILURE
          | Ok state => after_journal l state
          end)
    | Raise ExnMigration => go F_UNCERTAIN
    | Raise _ => stop R_INTERNAL_FAILURE
    | Ok state => after_journal l state
    end).

(** The [except StorageUnavailable] branch. *)
Definition reconcile_unavailable (l : ServiceStoreLocator) : program (R + FoundationObservation) :=
  try_with (ask (Q_migrate l)) (fun r =>
    match r with
    | Raise ExnBusy => go F_BUSY
    | Raise (ExnUnavailable | ExnTransientJournal) => go F_UNAVAILABLE
    | Raise ExnMigration => go F_UNCERTAIN
    | Raise _ => stop R_INTERNAL_FAILURE
    | Ok state => classify_foundation state
    end).

(** [_foundation]. *)
Definition foundation (l : ServiceStoreLocator) : program (R + FoundationObservation) :=
  try_with (ask (Q_inspect_migration l)) (fun r =>
    match r with
    | Raise ExnBusy => go F_BUSY
    | Raise ExnTransientJournal => reconcile_journal l
    | Raise ExnUnavailable => reconcile_unavailable l
    | Raise ExnMigration => go F_UNCERTAIN
    | Raise _ => stop R_INTERNAL_FAILURE
    | Ok state => classify_foundation state
    end).

Definition domain_of (s : DomainSchemaStatus) : DomainObservation :=
  match s with
  | DS_UNMATERIALISED => D_UNMATERIALISED | DS_READY => D_READY | DS_INCOMPATIBLE => D_INCOMPATIBLE
  end.

Definition classify_domain (s : option DomainSchemaState) : program (R + DomainObservation) :=
  match s with
  | Some s => go (domain_of (ds_status s))
  | None => stop R_INTERNAL_FAILURE
  end.

(** The [except StorageTransientJournal] branch of [_domain_state]: one
    reconciliation of the foundation, then one more read. *)
Definition domain_after_journal (l : ServiceStoreLocator) (s : RelationalSpecification)
  : program (R + DomainObservation) :=
  f ← foundation l;
  match f with
  | inl res => returning res
  | inr F_READY =>
      try_with (ask (Q_inspect l s)) (fun r =>
        match r with
        | Raise ExnBusy => go D_BUSY
        | Raise (ExnUnavailable | ExnTransientJournal | ExnMigration) => go D_UNCERTAIN
        | Raise _ => stop R_INTERNAL_FAILURE
        | Ok state => classify_domain state
        end)
  | inr F_BUSY => go D_BUSY
  | inr F_UNAVAILABLE => go D_UNAVAILABLE
  | inr F_UNCERTAIN => go D_UNCERTAIN
  | inr _ => stop R_OPERATION_UNCERTAIN
  end.

(** [_domain_state]. *)
Definition domain_state (l : ServiceStoreLocator) (s : RelationalSpecification)
  : program (R + DomainObservation) :=
  try_with (ask (Q_inspect l s)) (fun r =>
    match r with
    | Raise ExnBusy => go D_BUSY
    | Raise ExnTransientJournal => domain_after_journal l s
    | Raise ExnUnavailable => go D_UNAVAILABLE
    | Raise ExnMigration => go D_UNCERTAIN
    | Raise _ => stop R_INTERNAL_FAILURE
    | Ok state => classify_domain state
    end).

Definition checked_observation {A} (wrap : A -> LifecycleObservation) (m : result LifecycleError A)
  : program (R + LifecycleObservation) :=
  o ← pure_call m; go (wrap o).

(** [_observe]; the observations' constructors may raise. *)
Definition observe_materialise (i : LifecycleIntent) (l : ServiceStoreLocator)
    (target : RelationalSpecification) (f : FoundationObservation) : program (R + LifecycleObservation) :=
  d ← (match f with F_READY => domain_state l target | _ => go D_NOT_OBSERVED end);
  match d with
  | inl res => returning res
  | inr d =>
      checked_observation ObsMaterialise (make_materialise_observation
        {| mo_phase := phase i; mo_foundation := f; mo_target := d |})
  end.

Definition observe_evolve (i : LifecycleIntent) (l : ServiceStoreLocator)
    (target : RelationalSpecification) (transition : option RelationalTransition)
    (f : FoundationObservation) : program (R + LifecycleObservation) :=
  let observed t s := checked_observation ObsEvolve (make_evolve_observation
    {| eo_phase := phase i; eo_foundation := f; eo_target := t; eo_source := s |}) in
  match f with
  | F_READY =>
      t ← domain_state l target;
      match t with
      | inl res => returning res
      | inr t =>
          if bool_decide (t = D_UNMATERIALISED) || bool_decide (t = D_INCOMPATIBLE) then
            match transition with
            | None => stop R_INTERNAL_FAILURE
            | Some tr =>
                s ← domain_state l (tr_current tr);
                match s with
                | inl res => returning res
                | inr s => observed t s
                end
            end
          else observed t D_NOT_OBSERVED
      end
  | _ => observed D_NOT_OBSERVED D_NOT_OBSERVED
  end.

Definition observe (i : LifecycleIntent) (l : ServiceStoreLocator) (target : RelationalSpecification)
    (transition : option RelationalTransition) : program (R + LifecycleObservation) :=
  f ← foundation l;
  match f with
  | inl res => returning res
  | inr f =>
      match kind i with
      | MATERIALISE => observe_materialise i l target f
      | EVOLVE => observe_evolve i l target transition f
      end
  end.

(** [_apply]: [inr] of the migration state, if the action migrates. *)
Definition apply_action (a : RecoveryAction) (l : ServiceStoreLocator) (target : RelationalSpecification)
    (transition : option RelationalTransition) : program (R + option MigrationState) :=
  let attempt (p : program (R + option MigrationState)) :=
    handle p (fun e =>
      match e with
      | ExnBusy => stop R_STORAGE_BUSY
      | ExnContract => stop R_INTERNAL_FAILURE
      | _ => stop R_OPERATION_UNCERTAIN
      end) in
  match a, transition with
  | PREPARE_FOUNDATION, _ =>
      attempt (state ← ask (Q_migrate l);
               match service_store_state state with
               | Some s => go (Some s)
               | None => stop R_INTERNAL_FAILURE
               end)
  | APPLY_INITIAL_SCHEMA, _ => attempt (ask (Q_materialise l target) ;; go None)
  | APPLY_TRANSITION, Some t => attempt (ask (Q_evolve l t) ;; go None)
  | _, _ => stop R_INTERNAL_FAILURE
  end.

(** ** The loop *)

(** What the loop remembers: the actions attempted, the last migration state and
    whether the one extra reconciliation was used. *)
Record LoopState := {
  attempted : list RecoveryAction;
  foundation_result : option MigrationState;
  foundation_reconciled : bool
}.

Definition initial_state : LoopState :=
  {| attempted := []; foundation_result := None; foundation_reconciled := false |}.

Definition was_attempted (a : RecoveryAction) (st : LoopState) : bool :=
  existsb (fun b => bool_decide (b = a)) (attempted st).

Definition last_status (st : LoopState) (s : MigrationStatus) : bool :=
  match foundation_result st with Some m => bool_decide (ms_status m = s) | None => false end.

(** A repeated [PREPARE_FOUNDATION] on a dirty foundation may be reconciled
    once, when the last migration ended dirty or ready. *)
Definition may_reconcile (a : RecoveryAction) (o : LifecycleObservation) (st : LoopState) : bool :=
  bool_decide (a = PREPARE_FOUNDATION) && bool_decide (observation_foundation o = F_DIRTY)
  && (last_status st DIRTY || last_status st READY) && negb (foundation_reconciled st).

(** The observation and its plan; any exception is an internal failure. *)
Definition observe_and_plan (i : LifecycleIntent) (l : ServiceStoreLocator)
    (target : RelationalSpecification) (transition : option RelationalTransition)
  : program (R + (LifecycleObservation * RecoveryPlan)) :=
  handle
    (o ← observe i l target transition;
     match o with
     | inl res => returning res
     | inr o => p ← pure_call (plan_recovery i o); go (o, p)
     end)
    (fun _ => stop R_INTERNAL_FAILURE).

(** The result of a deferred plan: after a physical action an unavailable store
    cannot prove its outcome. *)
Definition deferred (p : RecoveryPlan) (st : LoopState) : R :=
  match result_category p with
  | None => failed R_INTERNAL_FAILURE
  | Some R_STORAGE_UNAVAILABLE =>
      match attempted st with [] => failed R_STORAGE_UNAVAILABLE | _ => failed R_OPERATION_UNCERTAIN end
  | Some c => failed c
  end.

(** One turn: [inl] returns, [inr] goes round again. *)
Definition turn `{PublicModels} (i : LifecycleIntent) (l : ServiceStoreLocator)
    (target : RelationalSpecification) (transition : option RelationalTransition) (st : LoopState)
  : program (R + LoopState) :=
  seen ← observe_and_plan i l target transition;
  match seen with
  | inl res => returning res
  | inr (o, p) =>
      match action p with
      | DEFER_OBSERVATION => returning (deferred p st)
      | ACTION_RECOVERY_REQUIRED => res ← finalize_recovery i; returning res
      | FINALIZE_REGISTRY => res ← finalize_completed i l; returning res
      | REPLAY_COMPLETE => stop R_INTERNAL_FAILURE
      | a =>
          if was_attempted a st then
            if may_reconcile a o st then
              x ← apply_action PREPARE_FOUNDATION l target transition;
              match x with
              | inl res => returning res
              | inr (Some m) =>
                  go {| attempted := attempted st; foundation_result := Some m;
                        foundation_reconciled := true |}
              | inr None => stop R_OPERATION_UNCERTAIN
              end
            else stop R_OPERATION_UNCERTAIN
          else
            x ← apply_action a l target transition;
            match x with
            | inl res => returning res
            | inr m =>
                go {| attempted := a :: attempted st;
                      foundation_result := match m with Some m => Some m | None => foundation_result st end;
                      foundation_reconciled := foundation_reconciled st |}
            end
      end
  end.

(** [while True], bounded by [fuel] turns; [None] when the bound was reached. *)
Fixpoint reconcile `{PublicModels} (fuel : nat) (i : LifecycleIntent) (l : ServiceStoreLocator)
    (target : RelationalSpecification) (transition : option RelationalTransition) (st : LoopState)
  : program (option R) :=
  match fuel with
  | O => give None
  | S fuel' =>
      next ← turn i l target transition st;
      match next with
      | inl res => give (Some res)
      | inr st' => reconcile fuel' i l target transition st'
      end
  end.

(** [execute], with [turns] as the bound of its loop. *)
Definition execute `{PublicModels} `{FloatRepr} (turns : nat) (c : LifecycleCommand) : program (option R) :=
  admitted ← admit_command c;
  match admitted with
  | inl res => give (Some res)
  | inr (i, source) =>
      if negb (source_matches i source) then res ← finalize_recovery i; give (Some res) else
      located ← locator i source;
      match located with
      | inl res => give (Some res)
      | inr l =>
          compiled ← compile i source;
          match compiled with
          | inl res => give (Some res)
          | inr (target, transition) => reconcile turns i l target transition initial_state
          end
      end
  end.
