(* ===== verification/CoordinatorSpec.v ===== *)
(** * CoordinatorSpec: what the coordinator guarantees against any environment

    Whatever the registry, the catalogue, the schema store and the clock answer,
    busy, unavailable or contradictory, a run of [execute] ends with a result
    after at most five turns, touches the physical store only after a durable
    admission, and reports completion only with the registry's evidence. *)
From S2P Require Export Coordinator.
From S2P Require Import Prelude Values Json Sha256 Manifest Relational Transition Lifecycle.
From S2P Require Import LifecycleSpec Operational Models Contracts Samples.

Abbreviation trace := (list (event Query Exn)).

(** ** The registry's side of the port

    A prepared outcome carries a valid prepared intent, a completed one a valid
    service: their classes guarantee it. *)
Section port.
Context `{PublicModels} `{FloatRepr}.

Definition outcome_ok (o : option LifecycleRegistryOutcome) : Prop :=
  match o with
  | Some (LR_Prepared i) => IntentValid i /\ phase i = PREPARED
  | Some (LR_Completed c) => ServiceWF (cl_service c)
  | _ => True
  end.

Definition answer_ok (e : event Query Exn) : Prop :=
  match e with
  | Event q r =>
      match q in Query X return result Exn X -> Prop with
      | Q_resolve_or_admit _ | Q_finalize_completed _ | Q_finalize_recovery _ _ =>
          fun r => match r with Ok o => outcome_ok o | Raise _ => True end
      | _ => fun _ => True
      end r
  end.

Abbreviation ensures := (Prog.ensures answer_ok).

(** ** Programs that never raise *)
Definition safe {A} (p : program A) : Prop := ensures p (fun _ r => exists a, r = Ok a).

Lemma safe_give {A} (a : A) : safe (give a).
Proof. apply ensures_done. by exists a. Qed.

(** What a [try] guards needs no proof: only its continuations do. *)
Lemma safe_try {A B} (p : program A) (k : result Exn A -> program B) :
  (forall r, safe (k r)) -> safe (try_with p k).
Proof.
  intros Hk. apply ensures_try. intros tr r _ _ tr' x Hx Hok. by eapply Hk.
Qed.

Lemma safe_try_ask {X B} (q : Query X) (k : result Exn X -> program B) :
  (forall r, answer_ok (Event q r) -> safe (k r)) -> safe (try_with (ask q) k).
Proof.
  intros Hk. apply ensures_try, ensures_ask. intros r Hr tr x Hx Hok. by eapply Hk.
Qed.

Lemma safe_then {A B} (p : program A) (f : A -> program B) :
  safe p -> (forall a, safe (f a)) -> safe (p ≫= f).
Proof.
  intros Hp Hf. apply ensures_try. intros tr r Hr Hok. destruct (Hp tr r Hr Hok) as [a ->]. apply Hf.
Qed.

Lemma safe_handle {A} (p : program A) (h : Exn -> program A) : (forall e, safe (h e)) -> safe (handle p h).
Proof. intros Hh. apply safe_try. intros [a|e]; [apply safe_give|apply Hh]. Qed.

Lemma safe_close_only : safe close_only.
Proof. apply safe_try. intros r. apply safe_give. Qed.
Lemma safe_rollback_close : safe rollback_close.
Proof. apply safe_try. intros r. apply safe_close_only. Qed.

Lemma safe_registry_outcome o : outcome_ok o -> safe (registry_outcome o).
Proof.
  intros Ho. destruct o as [[]|]; try apply safe_give. cbn in *.
  unfold make_execution_result. rewrite (proj2 (service_snapshot_spec _ _) (conj Ho eq_refl)).
  apply safe_give.
Qed.
End port.

Create HintDb coordinator discriminated.
#[export] Hint Resolve safe_give safe_close_only safe_rollback_close safe_registry_outcome : coordinator.

Ltac safely :=
  repeat first
    [ solve [eauto 3 with coordinator nocore]
    | match goal with
      | |- safe (try_with (ask _) _) => apply safe_try_ask; intros ? ?
      | |- safe (try_with _ _) => apply safe_try; intros ?
      | |- safe (handle _ _) => apply safe_handle; intros ?
      | |- safe (mbind _ _) => apply safe_then; [|intros ?]
      | |- safe (match ?x with _ => _ end) => destruct x
      | |- safe (stop _) => apply safe_give
      | |- safe (go _) => apply safe_give
      | |- safe (returning _) => apply safe_give
      end ].

Section total.
Context `{PublicModels} `{FloatRepr}.

Lemma safe_terminal_write q :
  (forall r, answer_ok (Event q r) -> match r with Ok o => outcome_ok o | Raise _ => True end) ->
  safe (terminal_write q).
Proof.
  intros Hq. unfold terminal_write. apply safe_try. intros [u|e]; [|safely].
  apply safe_try_ask. intros r Hr. apply Hq in Hr. destruct r as [[[]|]|]; safely.
Qed.

Lemma safe_finalize_recovery i : safe (finalize_recovery i).
Proof. unfold finalize_recovery. safely. apply safe_terminal_write. by intros []. Qed.

Lemma safe_finalize_completed i l : safe (finalize_completed i l).
Proof. unfold finalize_completed. safely. apply safe_terminal_write. by intros []. Qed.

Lemma safe_admit c : safe (admit_command c).
Proof. unfold admit_command. safely. Qed.

Lemma safe_locator i s : safe (locator i s).
Proof. unfold locator. safely. Qed.

Lemma safe_compile i s : safe (compile i s).
Proof. unfold compile. safely. Qed.

Lemma safe_observe_and_plan i l target tr : safe (observe_and_plan i l target tr).
Proof. unfold observe_and_plan. safely. Qed.

Lemma safe_apply_action a l target tr : safe (apply_action a l target tr).
Proof. unfold apply_action. safely. Qed.
End total.

#[export] Hint Resolve safe_finalize_recovery safe_finalize_completed safe_admit safe_locator safe_compile
  safe_observe_and_plan safe_apply_action : coordinator.

Section turns.
Context `{PublicModels} `{FloatRepr}.

Lemma safe_turn i l target tr st : safe (turn i l target tr st).
Proof. unfold turn. safely. Qed.

(** ** The loop is bounded *)
Definition physical (a : RecoveryAction) : Prop :=
  a = PREPARE_FOUNDATION \/ a = APPLY_INITIAL_SCHEMA \/ a = APPLY_TRANSITION.

(** The turns still possible: each goes round with a new physical action, or
    with the one extra reconciliation. *)
Definition budget (st : LoopState) : nat :=
  (3 - length (attempted st)) + (if foundation_reconciled st then 0 else 1).

Definition loop_ok (st : LoopState) : Prop := NoDup (attempted st) /\ Forall physical (attempted st).

Lemma loop_ok_length st : loop_ok st -> (length (attempted st) <= 3)%nat.
Proof.
  intros [Hd Hp]. apply (NoDup_incl_length (l' := [PREPARE_FOUNDATION; APPLY_INITIAL_SCHEMA; APPLY_TRANSITION]));
    [by apply NoDup_ListNoDup|]. intros a Ha. rewrite Forall_forall in Hp.
  apply list_elem_of_In in Ha. specialize (Hp a Ha). unfold physical in Hp. cbn. intuition.
Qed.

Lemma was_attempted_spec a st : was_attempted a st = false <-> a ∉ attempted st.
Proof.
  unfold was_attempted. rewrite <- not_true_iff_false, existsb_exists. split.
  - intros Hn Ha. apply Hn. exists a. split; [by apply list_elem_of_In|by apply bool_decide_eq_true].
  - intros Hn (b & Hb & Hab). apply bool_decide_eq_true in Hab as ->. by apply Hn, list_elem_of_In.
Qed.

(** The postcondition of a part that only matters when it goes on. *)
Lemma ensures_then {A B} (p : program (R + A)) (f : R + A -> program (R + B)) (P : R + B -> Prop) :
  (forall res, ensures answer_ok (f (inl res)) (fun _ r => forall x, r = Ok x -> P x)) ->
  (forall a, ensures answer_ok (f (inr a)) (fun _ r => forall x, r = Ok x -> P x)) ->
  ensures answer_ok (p ≫= f) (fun _ r => forall x, r = Ok x -> P x).
Proof.
  intros Hl Hr. apply ensures_try. intros tr [[res|a]|e] _ _.
  - apply Hl.
  - apply Hr.
  - by apply ensures_done.
Qed.

Definition progress (st : LoopState) (x : R + LoopState) : Prop :=
  forall st', x = inr st' -> loop_ok st' /\ (budget st' < budget st)%nat.

Lemma ensures_stop {A} c (P : R + A -> Prop) :
  P (inl (failed c)) -> ensures answer_ok (stop c) (fun _ r => forall x, r = Ok x -> P x).
Proof. intros HP. apply ensures_done. by intros x [= <-]. Qed.

Lemma ensures_returning {A B} (p : program B) (f : B -> R) (P : R + A -> Prop) :
  (forall res, P (inl res)) ->
  ensures answer_ok (res ← p; returning (f res)) (fun _ r => forall x, r = Ok x -> P x).
Proof.
  intros HP. apply ensures_try. intros tr [res|e] _ _; apply ensures_done; [|done].
  by intros x [= <-].
Qed.

Lemma progress_inl st res : progress st (inl res).
Proof. by intros st'. Qed.
Hint Resolve progress_inl : core.

(** Going round after an action that was not attempted before. *)
Lemma first_attempt_progress st a m :
  loop_ok st -> physical a -> was_attempted a st = false ->
  progress st (inr {| attempted := a :: attempted st; foundation_result := m;
                      foundation_reconciled := foundation_reconciled st |}).
Proof.
  intros [Hd Hp] Ha Hnew%was_attempted_spec st' [= <-].
  assert (loop_ok {| attempted := a :: attempted st; foundation_result := m;
                     foundation_reconciled := foundation_reconciled st |}) as Hok by (split; by constructor).
  split; [done|]. pose proof (loop_ok_length _ Hok). unfold budget. cbn in *. lia.
Qed.

Lemma reconcile_progress st m a o :
  loop_ok st -> may_reconcile a o st = true ->
  progress st (inr {| attempted := attempted st; foundation_result := m; foundation_reconciled := true |}).
Proof.
  intros Hok Hm st' [= <-]. split; [done|]. unfold may_reconcile in Hm. unfold budget. cbn. bools.
  destruct Hm as [_ ->]. lia.
Qed.

Lemma turn_progress i l target tr st :
  loop_ok st ->
  ensures answer_ok (turn i l target tr st) (fun _ r => forall x, r = Ok x -> progress st x).
Proof.
  intros Hok. unfold turn. apply ensures_then; [intros res; by apply ensures_done; intros x [= <-]|].
  intros [o p]. destruct (action p) eqn:Ea;
    try (first [by apply ensures_stop | by apply ensures_returning | by apply ensures_done; intros x [= <-]]).
  all: destruct (was_attempted _ st) eqn:Hw;
    [destruct (may_reconcile _ o st) eqn:Hm; [|by apply ensures_stop]|];
    apply ensures_then; intros x;
    try (by apply ensures_done; intros y [= <-]);
    try (destruct x as [m|]; [|by apply ensures_stop]);
    apply ensures_done; intros y [= <-];
    first [by eapply reconcile_progress | apply first_attempt_progress; [done|unfold physical; auto|done]].
Qed.

Lemma reconcile_returns fuel i l target tr st :
  loop_ok st -> (budget st < fuel)%nat ->
  ensures answer_ok (reconcile fuel i l target tr st) (fun _ r => exists res, r = Ok (Some res)).
Proof.
  revert st. induction fuel as [|fuel IH]; intros st Hok Hb; [lia|]. cbn [reconcile].
  apply ensures_try. intros t r Hr Ht. pose proof (turn_progress i l target tr st Hok t r Hr Ht) as Hp.
  destruct (safe_turn i l target tr st t r Hr Ht) as [[res|st'] ->].
  - apply ensures_done. by exists res.
  - destruct (Hp _ eq_refl st' eq_refl) as [Hok' Hb']. apply IH; [done|lia].
Qed.
End turns.

(** ** Runs that keep clear of some events *)
Section avoids.
Context `{PublicModels} `{FloatRepr}.

Definition avoids (B : event Query Exn -> bool) {A} (p : program A) : Prop :=
  ensures answer_ok p (fun tr _ => Forall (fun e => B e = false) tr).

Context (B : event Query Exn -> bool).

Lemma avoids_done {A} (r : result Exn A) : avoids B (Done r).
Proof. apply ensures_done. constructor. Qed.

Lemma avoids_ask {X} (q : Query X) : (forall r, B (Event q r) = false) -> avoids B (ask q).
Proof. intros Hq. apply ensures_ask. intros r _. by repeat constructor. Qed.

Lemma avoids_try {A B'} (p : program A) (k : result Exn A -> program B') :
  avoids B p -> (forall r, avoids B (k r)) -> avoids B (try_with p k).
Proof.
  intros Hp Hk. apply ensures_try. intros t1 r Hr Hok t2 x Hx Hok2.
  apply Forall_app. split; [by eapply Hp|by eapply Hk].
Qed.
End avoids.

#[export] Hint Resolve avoids_done : coordinator.

(** The first event of a kind lies beyond a prefix that has none. *)
Lemma beyond_prefix (B : event Query Exn -> bool) (pre suf t1 : trace) e t2 :
  Forall (fun e => B e = false) pre -> pre ++ suf = t1 ++ e :: t2 -> B e = true ->
  exists k, t1 = pre ++ k /\ suf = k ++ e :: t2.
Proof.
  intros Hp Heq He. apply app_eq_inv in Heq as [(k & -> & Hk)|(k & -> & ->)]; [|by exists k].
  apply Forall_app in Hp as [Hp Hk']. destruct k as [|e' k].
  - exists []. by rewrite !app_nil_r.
  - injection Hk as -> ->. apply Forall_cons in Hk' as [Hk' _]. congruence.
Qed.

Ltac avoiding :=
  repeat first
    [ solve [eauto 3 with coordinator nocore]
    | apply avoids_ask; intros ?; first [reflexivity | solve [auto]]
    | match goal with
      | |- avoids _ (try_with _ _) => apply avoids_try; [|intros ?]
      | |- avoids _ (handle _ _) => apply avoids_try; [|intros ?]
      | |- avoids _ (mbind _ _) => apply avoids_try; [|intros ?]
      | |- avoids _ (match ?x with _ => _ end) => destruct x
      | |- avoids _ (stop _) => apply avoids_done
      | |- avoids _ (go _) => apply avoids_done
      | |- avoids _ (give _) => apply avoids_done
      | |- avoids _ (throw _) => apply avoids_done
      | |- avoids _ (pure_call _) => unfold pure_call
      | |- avoids _ (returning _) => apply avoids_done
      | |- avoids _ close_only => unfold close_only
      | |- avoids _ rollback_close => unfold rollback_close
      | |- avoids _ (registry_outcome _) => unfold registry_outcome
      end ].

Section observing.
Context `{PublicModels} `{FloatRepr}.

(** Observing and planning only migrate and inspect. *)
Context (B : event Query Exn -> bool).
Hypothesis Bmigrate : forall l r, B (Event (Q_migrate l) r) = false.
Hypothesis Bstate : forall l r, B (Event (Q_inspect_migration l) r) = false.
Hypothesis Binspect : forall l s r, B (Event (Q_inspect l s) r) = false.

Lemma avoids_foundation l : avoids B (foundation l).
Proof.
  unfold foundation, reconcile_journal, reconcile_unavailable, after_journal, promote_ready, classify_foundation.
  avoiding.
Qed.

Lemma avoids_domain_state l s : avoids B (domain_state l s).
Proof. unfold domain_state, domain_after_journal, classify_domain. avoiding. apply avoids_foundation. Qed.

Lemma avoids_observe_and_plan i l target tr : avoids B (observe_and_plan i l target tr).
Proof.
  unfold observe_and_plan, observe, observe_materialise, observe_evolve, checked_observation.
  avoiding; auto using avoids_foundation, avoids_domain_state.
  all: avoiding.
Qed.
End observing.

(** Calls that may change a service store, and calls that complete a claim. *)
Definition touches_store (e : event Query Exn) : bool :=
  match e with
  | Event q _ => match q with Q_migrate _ | Q_materialise _ _ | Q_evolve _ _ => true | _ => false end
  end.

Definition completes (e : event Query Exn) : bool :=
  match e with Event q _ => match q with Q_finalize_completed _ => true | _ => false end end.

(** Calls that send schema statements. *)
Definition changes_schema (e : event Query Exn) : bool :=
  match e with Event q _ => match q with Q_materialise _ _ | Q_evolve _ _ => true | _ => false end end.

Section quiet.
Context `{PublicModels} `{FloatRepr}.

Lemma quiet_terminal_write q :
  (forall r, touches_store (Event q r) = false) -> avoids touches_store (terminal_write q).
Proof. intros Hq. unfold terminal_write. by avoiding. Qed.

Lemma quiet_finalize_recovery i : avoids touches_store (finalize_recovery i).
Proof. unfold finalize_recovery. avoiding. by apply quiet_terminal_write. Qed.

Lemma quiet_commit_prepared i s : avoids touches_store (commit_prepared i s).
Proof. unfold commit_prepared. avoiding. apply quiet_finalize_recovery. Qed.

Lemma quiet_admit c : avoids touches_store (admit_command c).
Proof. unfold admit_command, close_nonmutating. avoiding. apply quiet_commit_prepared. Qed.

Lemma quiet_locator i s : avoids touches_store (locator i s).
Proof. unfold locator. avoiding. Qed.

Lemma incomplete_terminal_write q :
  (forall r, completes (Event q r) = false) -> avoids completes (terminal_write q).
Proof. intros Hq. unfold terminal_write. by avoiding. Qed.

Lemma incomplete_finalize_recovery i : avoids completes (finalize_recovery i).
Proof. unfold finalize_recovery. avoiding. by apply incomplete_terminal_write. Qed.

Lemma incomplete_commit_prepared i s : avoids completes (commit_prepared i s).
Proof. unfold commit_prepared. avoiding. apply incomplete_finalize_recovery. Qed.

Lemma incomplete_admit c : avoids completes (admit_command c).
Proof. unfold admit_command, close_nonmutating. avoiding. apply incomplete_commit_prepared. Qed.

Lemma incomplete_locator i s : avoids completes (locator i s).
Proof. unfold locator. avoiding. Qed.

Lemma incomplete_compile i s : avoids completes (compile i s).
Proof. unfold compile. avoiding. Qed.

Lemma incomplete_observe_and_plan i l target tr : avoids completes (observe_and_plan i l target tr).
Proof. by apply avoids_observe_and_plan. Qed.

Lemma steady_observe_and_plan i l target tr : avoids changes_schema (observe_and_plan i l target tr).
Proof. by apply avoids_observe_and_plan. Qed.

Lemma incomplete_apply_action a l target tr : avoids completes (apply_action a l target tr).
Proof. unfold apply_action. avoiding. Qed.
End quiet.
