(* ===== verification/CoordinatorRuns.v ===== *)
(** * CoordinatorRuns: the properties of every run of [execute]

    What a run's trace must contain before the coordinator changes a service
    store, asks the registry to complete a claim, or reports a result. *)
From S2P Require Export CoordinatorSpec.
From S2P Require Import Prelude Values Json Sha256 Manifest Relational Transition Lifecycle.
From S2P Require Import LifecycleSpec Operational Models Contracts Samples.

Section posts.
Context `{PublicModels} `{FloatRepr}.

(** ** What a part may return *)
Definition post {A} (P : A -> Prop) (p : program A) : Prop :=
  ensures answer_ok p (fun _ r => forall a, r = Ok a -> P a).

(** A condition on the result of a part that may return early. *)
Definition early {A} (P : R -> Prop) (x : R + A) : Prop :=
  match x with inl res => P res | inr _ => True end.

Lemma post_give {A} (P : A -> Prop) a : P a -> post P (give a).
Proof. intros HP. apply ensures_done. by intros x [= <-]. Qed.

Lemma post_throw {A} (P : A -> Prop) e : post P (throw e).
Proof. by apply ensures_done. Qed.

Lemma post_try {A B} (P : B -> Prop) (p : program A) k : (forall r, post P (k r)) -> post P (try_with p k).
Proof. intros Hk. apply ensures_try. intros t1 r _ _. apply Hk. Qed.

Lemma post_bind {A B} (Q : A -> Prop) (P : B -> Prop) (p : program A) f :
  post Q p -> (forall a, Q a -> post P (f a)) -> post P (p ≫= f).
Proof.
  intros Hp Hf. apply ensures_try. intros t1 [a|e] Hr Hok; [by apply Hf, (Hp t1 (Ok a) Hr Hok)|].
  by apply ensures_done.
Qed.

Lemma post_handle {A} (P : A -> Prop) (p : program A) h :
  post P p -> (forall e, post P (h e)) -> post P (handle p h).
Proof.
  intros Hp Hh. apply ensures_try. intros t1 [a|e] Hr Hok; [|apply Hh].
  by apply post_give, (Hp t1 (Ok a) Hr Hok).
Qed.

Lemma post_any {A} (p : program A) : post (fun _ => True) p.
Proof. by intros tr r _ _ a _. Qed.

Lemma post_mono {A} (P P' : A -> Prop) (p : program A) : (forall a, P a -> P' a) -> post P p -> post P' p.
Proof. intros HP. apply ensures_mono. intros _ r Hr a Ha. by apply HP, Hr. Qed.
End posts.

(** Step through a part: what a handled call answers does not matter. *)
Ltac posts :=
  repeat match goal with
    | |- post _ (match ?x with _ => _ end) => destruct x
    | |- post _ (try_with _ _) => apply post_try; intros ?
    | |- post _ (handle _ _) => apply post_handle; [|intros ?]
    | |- post _ (ask _ ≫= _) => eapply post_bind; [apply post_any|intros ? _]
    | |- post _ (pure_call _ ≫= _) => eapply post_bind; [apply post_any|intros ? _]
    | |- post _ (rollback_close ≫= _) => eapply post_bind; [apply post_any|intros ? _]
    | |- post _ (close_only ≫= _) => eapply post_bind; [apply post_any|intros ? _]
    | |- post _ (give _) => apply post_give
    | |- post _ (throw _) => apply post_throw
    | |- post _ (Done (Ok ?a)) => apply (post_give _ a)
    | |- post _ (Done (Raise ?e)) => apply (post_throw _ e)
    | |- post _ (stop _) => apply post_give
    | |- post _ (go _) => apply post_give
    | |- post _ (returning _) => apply post_give
    end.

Section early.
Context `{PublicModels} `{FloatRepr}.

(** ** Results no part but the last may return

    [P] is a condition every failure a part returns early meets. *)
Context (P : R -> Prop).

Lemma early_bind {A B} (p : program (R + A)) (f : R + A -> program (R + B)) :
  post (early P) p -> (forall res, P res -> post (early P) (f (inl res))) ->
  (forall a, post (early P) (f (inr a))) -> post (early P) (p ≫= f).
Proof. intros Hp Hl Hr. eapply post_bind; [exact Hp|]. intros [res|a] Ha; auto. Qed.

Hypothesis Pinternal : P (failed R_INTERNAL_FAILURE).
Hypothesis Puncertain : P (failed R_OPERATION_UNCERTAIN).

Lemma early_foundation l : post (early P) (foundation l).
Proof.
  unfold foundation, reconcile_journal, reconcile_unavailable, after_journal, promote_ready, classify_foundation.
  posts; done.
Qed.

Lemma early_domain_state l s : post (early P) (domain_state l s).
Proof.
  unfold domain_state, classify_domain. apply post_try. intros [st|[]]; try (posts; done).
  unfold domain_after_journal, classify_domain.
  apply early_bind; [apply early_foundation|intros res Hres; by apply post_give|].
  intros a. posts; done.
Qed.

Lemma early_checked {A} (wrap : A -> LifecycleObservation) m : post (early P) (checked_observation wrap m).
Proof. unfold checked_observation. by posts. Qed.

Lemma early_observe i l target tr : post (early P) (observe i l target tr).
Proof.
  unfold observe. apply early_bind; [apply early_foundation|intros; by apply post_give|]. intros f.
  destruct (kind i); unfold observe_materialise, observe_evolve; cbv zeta.
  - apply early_bind; [|intros; by apply post_give|intros; apply early_checked].
    destruct f; try apply early_domain_state; by posts.
  - destruct f; try apply early_checked.
    apply early_bind; [apply early_domain_state|intros; by apply post_give|]. intros t.
    destruct (_ || _); [|apply early_checked]. destruct tr as [tr|]; [|by posts].
    apply early_bind; [apply early_domain_state|intros; by apply post_give|intros; apply early_checked].
Qed.

Lemma early_observe_and_plan i l target tr : post (early P) (observe_and_plan i l target tr).
Proof.
  unfold observe_and_plan. apply post_handle; [|intros; by apply post_give].
  apply early_bind; [apply early_observe|intros; by apply post_give|]. intros o. by posts.
Qed.

Lemma early_apply_action a l target tr : P (failed R_STORAGE_BUSY) -> post (early P) (apply_action a l target tr).
Proof. intros Pbusy. unfold apply_action. cbv zeta. posts; done. Qed.

Lemma early_compile i s : post (early P) (compile i s).
Proof. unfold compile. posts; done. Qed.

Lemma early_locator i s :
  P (failed R_STORAGE_BUSY) -> P (failed R_STORAGE_UNAVAILABLE) -> post (early P) (locator i s).
Proof. intros Pbusy Pun. unfold locator. posts; done. Qed.
End early.

(** ** The evidence of a terminal result *)
Section evidence.
Context `{PublicModels} `{FloatRepr}.

(** The queries of a terminal write. *)
Definition terminal_query (q : Query (option LifecycleRegistryOutcome)) : Prop :=
  (exists c, q = Q_finalize_completed c) \/ (exists i t, q = Q_finalize_recovery i t).

(** A run that reads a completed claim and closes, or ends with a terminal
    write the registry answered with a completed claim, committed and closed. *)
Inductive completion_evidence (c : LifecycleCommand) (s : Service) : trace -> Prop :=
| completed_before claim :
    cl_service claim = s ->
    completion_evidence c s
      [ Event Q_uow (Ok tt); Event (Q_resolve_or_admit c) (Ok (Some (LR_Completed claim)));
        Event Q_rollback (Ok tt); Event Q_close (Ok tt) ]
| completed_now tr q claim :
    terminal_query q -> cl_service claim = s ->
    completion_evidence c s
      (tr ++ [ Event Q_uow (Ok tt); Event q (Ok (Some (LR_Completed claim)));
               Event Q_commit (Ok tt); Event Q_close (Ok tt) ]).

(** A completed result is one with such a trace. *)
Definition evidenced (c : LifecycleCommand) (tr : trace) (res : R) : Prop :=
  er_category res = EXEC_COMPLETED ->
  exists s, er_service res = Some s /\ ServiceWF s /\
    (completion_evidence c s tr).

(** ... by a terminal write at its end. *)
Definition written (tr : trace) (res : R) : Prop :=
  er_category res = EXEC_COMPLETED ->
  exists s q claim t, er_service res = Some s /\ ServiceWF s /\ terminal_query q /\ cl_service claim = s
    /\ tr = t ++ [ Event Q_uow (Ok tt); Event q (Ok (Some (LR_Completed claim)));
                   Event Q_commit (Ok tt); Event Q_close (Ok tt) ].

Lemma written_failed tr c : written tr (failed c).
Proof. by intros ?. Qed.

Lemma written_app t1 t2 res : written t2 res -> written (t1 ++ t2) res.
Proof.
  intros Hw Hc. destruct (Hw Hc) as (s & q & claim & t & Hs & Hwf & Hq & Hcl & ->).
  exists s, q, claim, (t1 ++ t). by rewrite app_assoc.
Qed.

Lemma written_evidenced c tr res : written tr res -> evidenced c tr res.
Proof.
  intros Hw Hc. destruct (Hw Hc) as (s & q & claim & t & Hs & Hwf & Hq & Hcl & ->).
  exists s. split_and!; [done..|]. by apply completed_now.
Qed.

(** What the outcome becomes. *)
Lemma registry_outcome_completed o tr res :
  outcome_ok o -> runs (registry_outcome o) tr (Ok res) -> er_category res = EXEC_COMPLETED ->
  exists claim, o = Some (LR_Completed claim) /\ er_service res = Some (cl_service claim)
    /\ ServiceWF (cl_service claim) /\ tr = [].
Proof.
  destruct o as [[|claim|i|i| | |]|]; cbn [registry_outcome];
    try (by intros _ [_ [= ->]]).
  intros Hwf. unfold pure_call, make_execution_result.
  rewrite (proj2 (service_snapshot_spec _ _) (conj Hwf eq_refl)).
  intros [-> [= ->]] _. by exists claim.
Qed.

Definition uncompleted (res : R) : Prop := er_category res <> EXEC_COMPLETED.

(** A part that cannot complete, wherever it runs. *)
Lemma written_post (p : program R) t :
  post uncompleted p -> ensures answer_ok p (fun tr r => forall res, r = Ok res -> written (t tr) res).
Proof. apply ensures_mono. intros tr r Hp res Hr Hc. by destruct (Hp res Hr). Qed.

Lemma terminal_write_written q :
  terminal_query q -> ensures answer_ok (terminal_write q) (fun tr r => forall res, r = Ok res -> written tr res).
Proof.
  intros Hq. unfold terminal_write. apply ensures_try, ensures_ask. intros [[]|e] _;
    [|apply (written_post _ (app _)), post_give; by destruct e].
  apply ensures_try, ensures_ask. intros o Ho.
  assert (match o with Ok o => outcome_ok o | Raise _ => True end) as Hok
    by (destruct Hq as [(c & ->)|(i & t & ->)]; exact Ho). clear Ho.
  destruct o as [[[|claim|i|i| | |]|]|[]];
    try (apply (written_post _ (fun tr => _ ++ _ ++ tr)); posts; done).
  all: apply ensures_try, ensures_ask; intros [[]|e] _;
    [|apply (written_post _ (fun tr => _ ++ _ ++ _ ++ tr)); by posts].
  all: apply ensures_try, ensures_ask; intros [[]|e] _;
    [|apply ensures_done; intros res [= <-]; apply written_failed].
  all: intros t r Hr _ res ->; intros Hc;
    destruct (registry_outcome_completed _ _ _ Hok Hr Hc) as (claim' & [= <-] & Hs & Hwf & ->).
  by exists (cl_service claim), q, claim, [].
Qed.
End evidence.

(** ** Admission *)
Section admission.
Context `{PublicModels} `{FloatRepr}.

(** The five answers that admit_command a command durably. *)
Definition durable_admission (c : LifecycleCommand) (i : LifecycleIntent) (s : Service) : trace :=
  [ Event Q_uow (Ok tt);
    Event (Q_resolve_or_admit c) (Ok (Some (LR_Prepared i)));
    Event (Q_get (principal_id (command_fields c)) (service_id (command_fields c))) (Ok (Some s));
    Event Q_commit (Ok tt);
    Event Q_close (Ok tt) ].

Definition admission_post (c : LifecycleCommand) (tr : trace)
    (r : result Exn (R + (LifecycleIntent * Service))) : Prop :=
  match r with
  | Ok (inl res) => evidenced c tr res
  | Ok (inr (i, s)) => tr = durable_admission c i s /\ outcome_ok (Some (LR_Prepared i))
  | Raise _ => True
  end.

Definition early_uncompleted {A} (x : R + A) : Prop :=
  match x with inl res => uncompleted res | inr _ => False end.

Lemma admission_uncompleted c (p : program (R + (LifecycleIntent * Service))) t :
  post early_uncompleted p -> ensures answer_ok p (fun tr r => admission_post c (t tr) r).
Proof.
  apply ensures_mono. intros tr [[res|a]|e] Hp; [|by destruct (Hp _ eq_refl)|done].
  intros Hc. by destruct (Hp _ eq_refl).
Qed.

Lemma admission_handle c p h t :
  ensures answer_ok p (fun tr r => admission_post c (t ++ tr) r) ->
  (forall e, post early_uncompleted (h e)) ->
  ensures answer_ok (handle p h) (fun tr r => admission_post c (t ++ tr) r).
Proof.
  intros Hp Hh. apply ensures_try. eapply ensures_mono; [|exact Hp]. intros tr [a|e] Hr.
  - apply ensures_done. by rewrite app_nil_r.
  - apply (admission_uncompleted c _ (fun t2 => t ++ tr ++ t2)), Hh.
Qed.

Lemma finalize_recovery_written i :
  ensures answer_ok (finalize_recovery i) (fun tr r => forall res, r = Ok res -> written tr res).
Proof.
  unfold finalize_recovery. apply ensures_try, ensures_ask. intros [t|e] _;
    [|apply ensures_done; intros res [= <-]; apply written_failed].
  eapply ensures_mono; [|apply terminal_write_written; right; by eauto].
  intros tr r Hw res Hr. apply written_app. by apply Hw.
Qed.

Lemma finalize_completed_written i l :
  ensures answer_ok (finalize_completed i l) (fun tr r => forall res, r = Ok res -> written tr res).
Proof.
  unfold finalize_completed. apply ensures_try. intros t [comp|e] _ _;
    [|apply ensures_done; intros res [= <-]; apply written_failed].
  eapply ensures_mono; [|apply terminal_write_written; left; by eauto].
  intros tr r Hw res Hr. apply written_app. by apply Hw.
Qed.

Lemma before_commit_uncompleted e : uncompleted (before_commit_error e).
Proof. by destruct e. Qed.

(** Committing the admission. *)
Lemma commit_prepared_post c i s t :
  outcome_ok (Some (LR_Prepared i)) ->
  (forall s', s = Some s' ->
    t ++ [Event Q_commit (Ok tt); Event Q_close (Ok tt)] = durable_admission c i s') ->
  ensures answer_ok (commit_prepared i s) (fun tr r => admission_post c (t ++ tr) r).
Proof.
  intros Hi Ht. unfold commit_prepared. apply ensures_try, ensures_ask. intros [[]|e] _;
    [|apply (admission_uncompleted c _ (fun tr => t ++ _ ++ tr)); by posts].
  apply ensures_try, ensures_ask. intros [[]|e] _;
    [|apply (admission_uncompleted c _ (fun tr => t ++ _ ++ _ ++ tr)); by posts].
  destruct s as [s|]; [apply ensures_done; split; [by apply Ht|done]|].
  apply ensures_try. eapply ensures_mono; [|apply finalize_recovery_written].
  intros tr [res|e] Hw; apply ensures_done; [|done].
  apply written_evidenced. rewrite app_nil_r. by apply written_app, written_app, written_app, Hw.
Qed.

Lemma close_nonmutating_post res :
  ensures answer_ok (close_nonmutating res) (fun tr r => forall res', r = Ok res' ->
    uncompleted res' \/ (res' = res /\ tr = [Event Q_rollback (Ok tt); Event Q_close (Ok tt)])).
Proof.
  unfold close_nonmutating. apply ensures_try.
  do 2 (apply ensures_try, ensures_ask; intros [[]|e] _;
    [|apply ensures_done, ensures_done; intros res' [= <-]; left; apply before_commit_uncompleted]).
  apply ensures_done, ensures_done. intros res' [= <-]. by right.
Qed.

(** An outcome that is not a prepared claim. *)
Lemma admit_other_post c o :
  outcome_ok o ->
  ensures answer_ok (res ← registry_outcome o; res ← close_nonmutating res; returning res)
    (fun tr r => admission_post c ([Event Q_uow (Ok tt); Event (Q_resolve_or_admit c) (Ok o)] ++ tr) r).
Proof.
  intros Ho. apply ensures_try. intros t1 [res|e] Hres _; [|by apply ensures_done].
  apply ensures_try. eapply ensures_mono; [|apply close_nonmutating_post].
  intros t2 [res'|e] Hcl; apply ensures_done; [|done]. destruct (Hcl _ eq_refl) as [Hun|[-> ->]]; [by intros ?|].
  intros Hc. destruct (registry_outcome_completed _ _ _ Ho Hres Hc) as (claim & -> & Hs & Hwf & ->).
  exists (cl_service claim). split_and!; [done..|]. by apply completed_before.
Qed.

Lemma admit_post c : ensures answer_ok (admit_command c) (admission_post c).
Proof.
  unfold admit_command. apply ensures_try, ensures_ask. intros [[]|e] _;
    [|apply ensures_done; intros Hc; by destruct (before_commit_uncompleted e)].
  apply (admission_handle c _ _ [_]); [|intros e; posts; apply before_commit_uncompleted].
  apply ensures_try, ensures_ask. intros [o|e] Ho; [|by apply ensures_done]. cbn in Ho.
  destruct o as [[|claim|i|i| | |]|]; try (by apply admit_other_post).
  apply ensures_try, ensures_ask. intros [s|e] _; [|by apply ensures_done].
  apply (commit_prepared_post c i s [Event Q_uow (Ok tt); Event (Q_resolve_or_admit c) (Ok (Some (LR_Prepared i)));
    Event (Q_get (principal_id (command_fields c)) (service_id (command_fields c))) (Ok s)]); [done..|].
  by intros s' ->.
Qed.
End admission.

(** ** Completion is asked for only on a ready schema *)
Section ready.
Context `{PublicModels} `{FloatRepr}.

Lemma make_materialise_observation_keeps o o' : make_materialise_observation o = Ok o' -> o' = o.
Proof.
  unfold make_materialise_observation. intros Ho. repeat case_match; try done;
    by apply unit_then in Ho as [_ [= ->]].
Qed.

Lemma make_evolve_observation_keeps o o' : make_evolve_observation o = Ok o' -> o' = o.
Proof.
  unfold make_evolve_observation. intros Ho. repeat case_match; try done;
    by apply unit_then in Ho as [_ [= ->]].
Qed.

Lemma plan_finalize i o p :
  observation_valid o = true -> plan_recovery i o = Ok p -> action p = FINALIZE_REGISTRY ->
  observed_target o = D_READY.
Proof.
  unfold plan_recovery. intros Hv Hp Ha.
  apply raise_if_then in Hp as [_ Hp].
  apply raise_if_then in Hp as [Hph%bool_decide_eq_false%dec_stable Hp].
  destruct o as [[q f t]|[q f t s]]; cbn [observation_phase mo_phase eo_phase] in Hph; subst q;
    unfold observation_valid, make_materialise_observation, make_evolve_observation in Hv;
    cbn in Hv, Hp |- *; destruct (phase i); try (by injection Hp as <-).
  all: destruct f; try discriminate Hv; destruct t; try discriminate Hv;
    try (destruct s; try discriminate Hv); by injection Hp as <-.
Qed.

(** A trace that ends by observing schema [s] ready at [l]. *)
Definition ends_ready (l : ServiceStoreLocator) (s : RelationalSpecification) (tr : trace) : Prop :=
  exists t ds, tr = t ++ [Event (Q_inspect l s) (Ok (Some ds))] /\ ds_status ds = DS_READY.

Lemma ends_ready_app l s t1 t2 : ends_ready l s t2 -> ends_ready l s (t1 ++ t2).
Proof. intros (t & ds & -> & Hds). exists (t1 ++ t), ds. by rewrite app_assoc. Qed.

(** The observation [x] is of a ready target only at the end of such a trace. *)
Definition observes {A} (ready : A -> Prop) l s (tr : trace) (r : result Exn (R + A)) : Prop :=
  forall a, r = Ok (inr a) -> ready a -> ends_ready l s tr.

Lemma observes_never {A} (ready : A -> Prop) l s (p : program (R + A)) t :
  post (fun x => match x with inr a => ~ ready a | _ => True end) p ->
  ensures answer_ok p (fun tr r => observes ready l s (t tr) r).
Proof. apply ensures_mono. intros tr r Hp a -> Ha. by destruct (Hp _ eq_refl). Qed.

Lemma classify_domain_ready l s d t :
  ensures answer_ok (classify_domain d)
    (fun tr r => observes (eq D_READY) l s (t ++ [Event (Q_inspect l s) (Ok d)] ++ tr) r).
Proof.
  destruct d as [[[]]|]; cbn; apply ensures_done; intros a [= <-]; try done.
  intros _. by eexists t, _.
Qed.

Lemma domain_state_ready l s :
  ensures answer_ok (domain_state l s) (observes (eq D_READY) l s).
Proof.
  unfold domain_state. apply ensures_try, ensures_ask.
  intros [d|[]] _; try (by apply (observes_never _ _ _ _ (app _)); posts);
    [by apply (classify_domain_ready l s d [])|].
  unfold domain_after_journal. apply ensures_try. intros t1 [[res|f]|e] _ _; try by apply ensures_done.
  destruct f; try (by apply (observes_never _ _ _ _ (fun tr => _ ++ _ ++ tr)); posts).
  apply ensures_try, ensures_ask. intros [d|[]] _;
    try (by apply (observes_never _ _ _ _ (fun tr => _ ++ _ ++ _ ++ tr)); posts).
  eapply ensures_mono; [|apply (classify_domain_ready l s d (Event (Q_inspect l s) (Raise ExnTransientJournal) :: t1))].
  done.
Qed.

Definition target_ready (o : LifecycleObservation) : Prop := observed_target o = D_READY.

(** Wrapping an observation asks nothing. *)
Lemma checked_observation_ready {A} (wrap : A -> LifecycleObservation) (m : result LifecycleError A) l s t :
  (forall a, m = Ok a -> target_ready (wrap a) -> ends_ready l s t) ->
  ensures answer_ok (checked_observation wrap m) (fun tr r => observes target_ready l s (t ++ tr) r).
Proof.
  intros Hm. unfold checked_observation. destruct m as [a|e]; cbn; apply ensures_done; [|done].
  intros o [= <-] Ho. rewrite app_nil_r. by eapply Hm.
Qed.

Lemma observe_materialise_ready i l target f :
  ensures answer_ok (observe_materialise i l target f) (observes target_ready l target).
Proof.
  unfold observe_materialise. apply ensures_try.
  assert (ensures answer_ok (match f with F_READY => domain_state l target | _ => go D_NOT_OBSERVED end)
            (observes (eq D_READY) l target)) as Hd
    by (destruct f; try (by apply (observes_never _ _ _ _ (fun tr => tr)); posts); apply domain_state_ready).
  eapply ensures_mono; [|exact Hd]. intros tr [[res|d]|e] Hr; try by apply ensures_done.
  apply checked_observation_ready. intros a ->%make_materialise_observation_keeps Ha. by apply (Hr d).
Qed.

Lemma observe_evolve_ready i l target tr f :
  ensures answer_ok (observe_evolve i l target tr f) (observes target_ready l target).
Proof.
  unfold observe_evolve. cbv zeta.
  assert (forall t d s, d <> D_READY -> ensures answer_ok (checked_observation ObsEvolve (make_evolve_observation
     {| eo_phase := phase i; eo_foundation := f; eo_target := d; eo_source := s |}))
     (fun tr r => observes target_ready l target (t ++ tr) r)) as Hother.
  { intros t d s Hd. apply checked_observation_ready. by intros a ->%make_evolve_observation_keeps Ha. }
  destruct f; try (by apply (Hother [])).
  apply ensures_try. eapply ensures_mono; [|apply domain_state_ready].
  intros t1 [[res|d]|e] Hr; try by apply ensures_done.
  destruct (_ || _) eqn:Ed.
  - destruct tr as [tr|]; [|by apply ensures_done].
    apply ensures_try. intros t2 [[res|s]|e] _ _; try by apply ensures_done.
    assert (d <> D_READY) as Hd by (by intros ->).
    eapply ensures_mono; [|by apply (Hother (t1 ++ t2) d s)].
    intros t r. cbv beta. by rewrite <- app_assoc.
  - apply checked_observation_ready. intros a ->%make_evolve_observation_keeps Ha. by apply (Hr d).
Qed.

Lemma observe_ready i l target tr :
  ensures answer_ok (observe i l target tr) (observes target_ready l target).
Proof.
  unfold observe. apply ensures_try. intros t1 [[res|f]|e] _ _; try by apply ensures_done.
  destruct (kind i); (eapply ensures_mono;
    [|first [apply observe_materialise_ready | apply observe_evolve_ready]];
    intros t2 r Hr a Ha Hready; by apply ends_ready_app, (Hr a)).
Qed.
End ready.

Section certified.
Context `{PublicModels} `{FloatRepr}.

(** The completion an event asks for. *)
Definition asked_completion (e : event Query Exn) : option LifecycleCompletion :=
  match e with Event q _ => match q with Q_finalize_completed comp => Some comp | _ => None end end.

Lemma asked_completes e comp : asked_completion e = Some comp -> completes e = true.
Proof. destruct e as [X q r]. by destruct q. Qed.

(** Every completion asked for comes after [before]. *)
Definition asked_after (before : LifecycleCompletion -> trace -> Prop) (tr : trace) : Prop :=
  forall t1 e t2 comp, tr = t1 ++ e :: t2 -> asked_completion e = Some comp -> before comp t1.

Lemma asked_after_none before tr : Forall (fun e => completes e = false) tr -> asked_after before tr.
Proof.
  intros Hn t1 e t2 comp -> He%asked_completes. apply Forall_app in Hn as [_ [Hn _]%Forall_cons]. congruence.
Qed.

Lemma asked_after_app before t1 t2 :
  Forall (fun e => completes e = false) t1 -> asked_after (fun comp t => before comp (t1 ++ t)) t2 ->
  asked_after before (t1 ++ t2).
Proof.
  intros Hn H2 s1 e s2 comp Heq He.
  destruct (beyond_prefix completes _ _ _ _ _ Hn Heq (asked_completes _ _ He)) as (k & -> & ->).
  by eapply H2.
Qed.

Lemma asked_after_mono (before before' : LifecycleCompletion -> trace -> Prop) tr :
  (forall comp t, before comp t -> before' comp t) -> asked_after before tr -> asked_after before' tr.
Proof. intros Hb Ha t1 e t2 comp Ht He. by eapply Hb, Ha. Qed.

(** The completion is of this intent and locator, at the time the clock gave. *)
Lemma finalize_completed_asks i l :
  ensures answer_ok (finalize_completed i l) (fun tr _ =>
    asked_after (fun comp t1 => exists t, t1 = [Event Q_now (Ok t); Event Q_uow (Ok tt)]
                                /\ completion_of i l t = Ok comp) tr).
Proof.
  unfold finalize_completed. apply ensures_try, ensures_try, ensures_ask.
  intros [t|e] _; [|apply ensures_done, ensures_done, asked_after_none; by repeat constructor].
  unfold pure_call. destruct (completion_of i l t) as [comp|e] eqn:Ec;
    [|apply ensures_done, ensures_done, asked_after_none; by repeat constructor].
  apply ensures_done. unfold terminal_write.
  apply ensures_try, ensures_ask. intros [[]|e] _;
    [|apply ensures_done, asked_after_none; by repeat constructor].
  apply ensures_try, ensures_ask. intros o _.
  match goal with |- ensures _ ?p _ => assert (avoids completes p) as Hrest by avoiding end.
  eapply ensures_mono; [|exact Hrest]. intros t2 x Hx.
  rewrite app_nil_r. apply asked_after_app; [by repeat constructor|].
  apply (asked_after_app _ [Event Q_uow (Ok tt)]); [by repeat constructor|].
  intros [|e1 s1] e s2 comp' [= <- Heq] He; [injection He as <-; by exists t|].
  exfalso. rewrite Heq in Hx. apply Forall_app in Hx as [_ [Hx _]%Forall_cons].
  apply asked_completes in He. congruence.
Qed.
End certified.

(** ** One turn *)
Section turns.
Context `{PublicModels} `{FloatRepr}.

Lemma observe_valid i l target tr :
  post (fun x => match x with inr o => observation_valid o = true | _ => True end) (observe i l target tr).
Proof.
  assert (forall o, post (fun x : R + _ => match x with inr o => observation_valid o = true | _ => True end)
    (checked_observation ObsMaterialise (make_materialise_observation o))) as Hm.
  { intros o t r Hr Ht x ->. unfold checked_observation in Hr.
    destruct (make_materialise_observation o) as [o'|e] eqn:Eo; destruct Hr as [-> [= ->]].
    cbn. pose proof (make_materialise_observation_keeps _ _ Eo) as ->. by rewrite Eo. }
  assert (forall o, post (fun x : R + _ => match x with inr o => observation_valid o = true | _ => True end)
    (checked_observation ObsEvolve (make_evolve_observation o))) as He.
  { intros o t r Hr Ht x ->. unfold checked_observation in Hr.
    destruct (make_evolve_observation o) as [o'|e] eqn:Eo; destruct Hr as [-> [= ->]].
    cbn. pose proof (make_evolve_observation_keeps _ _ Eo) as ->. by rewrite Eo. }
  unfold observe. eapply post_bind; [apply post_any|]. intros [res|f] _; [by posts|].
  unfold observe_materialise, observe_evolve. cbv zeta.
  destruct (kind i); [|destruct f; try apply He].
  - eapply post_bind; [apply post_any|]. intros [res|d] _; [by posts|apply Hm].
  - eapply post_bind; [apply post_any|]. intros [res|d] _; [by posts|].
    destruct (_ || _); [|apply He]. destruct tr as [tr|]; [|by posts].
    eapply post_bind; [apply post_any|]. intros [res|d'] _; [by posts|apply He].
Qed.

(** A plan to finalize is made only after the target schema was observed ready. *)
Lemma observe_and_plan_ready i l target tr :
  ensures answer_ok (observe_and_plan i l target tr)
    (observes (fun op => action op.2 = FINALIZE_REGISTRY) l target).
Proof.
  unfold observe_and_plan. apply ensures_try, ensures_try.
  intros t r Hr Ht. pose proof (observe_ready i l target tr t r Hr Ht) as Hready.
  pose proof (observe_valid i l target tr t r Hr Ht) as Hvalid.
  destruct r as [[res|o]|e]; [by apply ensures_done, ensures_done| |by apply ensures_done, ensures_done].
  specialize (Hvalid _ eq_refl). cbn in Hvalid.
  unfold pure_call. destruct (plan_recovery i o) as [p|e] eqn:Ep; [|by apply ensures_done, ensures_done].
  apply ensures_done, ensures_done. intros a [= <-] Ha. rewrite !app_nil_r.
  apply (Hready o eq_refl). by eapply plan_finalize.
Qed.

(** The schema was observed ready, then the clock was read for this completion. *)
Definition ready_before (i : LifecycleIntent) (l : ServiceStoreLocator) (target : RelationalSpecification)
    (comp : LifecycleCompletion) (tr : trace) : Prop :=
  exists pre ds t,
    tr = pre ++ [ Event (Q_inspect l target) (Ok (Some ds)); Event Q_now (Ok t); Event Q_uow (Ok tt) ]
    /\ ds_status ds = DS_READY /\ completion_of i l t = Ok comp.

Definition turn_post i l target (st : LoopState) (tr : trace) (r : result Exn (R + LoopState)) : Prop :=
  asked_after (ready_before i l target) tr
  /\ match r with
     | Ok (inl res) =>
         written tr res
         /\ (res = failed R_STORAGE_UNAVAILABLE ->
             attempted st = [] /\ Forall (fun e => changes_schema e = false) tr)
     | Ok (inr st') => Forall (fun e => completes e = false) tr /\ attempted st' <> []
     | Raise _ => True
     end.

Definition available (res : R) : Prop := res <> failed R_STORAGE_UNAVAILABLE.

(** A turn that ends with a failure other than unavailability. *)
Lemma turn_post_failed i l target st t (p : program (R + LoopState)) :
  Forall (fun e => completes e = false) t -> avoids completes p ->
  post (fun x => exists res, x = inl res /\ uncompleted res /\ available res) p ->
  ensures answer_ok p (fun tr r => turn_post i l target st (t ++ tr) r).
Proof.
  intros Ht Hp Hpost tr r Hr Hok. split.
  - apply asked_after_none, Forall_app. split; [done|by eapply Hp].
  - destruct r as [x|e]; [|done]. destruct (Hpost tr _ Hr Hok x eq_refl) as (res & -> & Hu & Ha).
    by split; [intros Hc|intros ->].
Qed.
End turns.

Section turn.
Context `{PublicModels} `{FloatRepr}.

Lemma registry_outcome_available o : post available (registry_outcome o).
Proof.
  destruct o as [[|claim|i|i| | |]|]; cbn [registry_outcome]; posts; try done.
  intros t r Hr _ res ->. unfold pure_call, make_execution_result in Hr.
  destruct (service_snapshot _); [|by destruct Hr]. destruct Hr as [_ [= ->]]. by intros ?.
Qed.

Lemma terminal_write_available q : post available (terminal_write q).
Proof.
  unfold terminal_write. posts; try done; try (by destruct e); apply registry_outcome_available.
Qed.

Lemma finalize_recovery_available i : post available (finalize_recovery i).
Proof. unfold finalize_recovery. posts; [apply terminal_write_available|done]. Qed.

Lemma finalize_completed_available i l : post available (finalize_completed i l).
Proof.
  unfold finalize_completed. posts; [apply terminal_write_available|done].
Qed.

Lemma deferred_available p st : attempted st <> [] -> available (deferred p st).
Proof. unfold deferred. destruct (result_category p) as [[]|]; try done. by destruct (attempted st). Qed.

Lemma deferred_uncompleted p st : uncompleted (deferred p st).
Proof. unfold deferred. destruct (result_category p) as [[]|]; try done. by destruct (attempted st). Qed.

(** A physical action: what it returns early, and that it completes nothing. *)
Lemma apply_action_post a l target tr :
  ensures answer_ok (apply_action a l target tr) (fun t r =>
    Forall (fun e => completes e = false) t
    /\ forall res, r = Ok (inl res) -> uncompleted res /\ available res).
Proof.
  intros t r Hr Ht. split; [by eapply incomplete_apply_action|]. intros res ->.
  assert (post (early (fun res => uncompleted res /\ available res)) (apply_action a l target tr)) as Hp
    by (by apply early_apply_action).
  by apply (Hp t _ Hr Ht (inl res)).
Qed.

(** Going round after an action. *)
Lemma turn_post_go i l target st t0 a tr (f : R + option MigrationState -> program (R + LoopState)) :
  Forall (fun e => completes e = false) t0 ->
  (forall res, f (inl res) = returning res) ->
  (forall m, f (inr m) = stop R_OPERATION_UNCERTAIN \/ exists st', f (inr m) = go st' /\ attempted st' <> []) ->
  ensures answer_ok (apply_action a l target tr ≫= f) (fun t r => turn_post i l target st (t0 ++ t) r).
Proof.
  intros Ht0 Hl Hr. apply ensures_try. eapply ensures_mono; [|apply apply_action_post].
  intros t1 x [Ht1 Hres].
  assert (Forall (fun e => completes e = false) (t0 ++ t1 ++ [])) as Hall
    by (rewrite app_nil_r; by apply Forall_app).
  destruct x as [[res|m]|e].
  - rewrite Hl. destruct (Hres res eq_refl). apply ensures_done.
    split; [by apply asked_after_none|]. by split; [intros ?|intros ->].
  - destruct (Hr m) as [->|(st' & -> & Hst)]; apply ensures_done; by (split; [by apply asked_after_none|]).
  - apply ensures_done. by split; [apply asked_after_none|].
Qed.

(** A turn that ends with a terminal write. *)
Lemma turn_post_terminal i l target st t0 (p : program R) :
  ensures answer_ok p (fun t _ => asked_after (ready_before i l target) (t0 ++ t)) ->
  ensures answer_ok p (fun t r => forall res, r = Ok res -> written t res) -> post available p ->
  ensures answer_ok (res ← p; returning res) (fun t r => turn_post i l target st (t0 ++ t) r).
Proof.
  intros Hasked Hw Ha. apply ensures_try. intros t1 r Hr Ht.
  specialize (Hasked t1 r Hr Ht). specialize (Hw t1 r Hr Ht). specialize (Ha t1 r Hr Ht). cbv beta in *.
  destruct r as [res|e]; apply ensures_done; rewrite app_nil_r; (split; [done|]); [|done].
  split; [by apply written_app, Hw|]. intros Hun. by destruct (Ha _ eq_refl).
Qed.

Lemma observe_and_plan_post i l target tr :
  ensures answer_ok (observe_and_plan i l target tr) (fun t r =>
    Forall (fun e => completes e = false) t /\ Forall (fun e => changes_schema e = false) t
    /\ observes (fun op => action op.2 = FINALIZE_REGISTRY) l target t r
    /\ forall res, r = Ok (inl res) -> uncompleted res /\ available res).
Proof.
  intros t r Hr Ht. split_and!.
  - by eapply incomplete_observe_and_plan.
  - by eapply steady_observe_and_plan.
  - by eapply observe_and_plan_ready.
  - intros res ->.
    assert (post (early (fun res => uncompleted res /\ available res)) (observe_and_plan i l target tr)) as Hp
      by (by apply early_observe_and_plan).
    by apply (Hp t _ Hr Ht (inl res)).
Qed.

(** The completion asked for right after the target was observed ready. *)
Lemma finalize_after_ready i l target t0 :
  Forall (fun e => completes e = false) t0 -> ends_ready l target t0 ->
  ensures answer_ok (finalize_completed i l) (fun t _ => asked_after (ready_before i l target) (t0 ++ t)).
Proof.
  intros Ht0 (t1 & ds & -> & Hds). eapply ensures_mono; [|apply finalize_completed_asks].
  intros t r Ha. apply asked_after_app; [done|]. eapply asked_after_mono; [|exact Ha].
  intros comp t2 (at_ & -> & Hcomp). exists t1, ds, at_. by rewrite <- app_assoc.
Qed.

(** A physical action already attempted is repeated at most as a reconciliation. *)
Lemma turn_post_again i l target tr st o a t0 :
  Forall (fun e => completes e = false) t0 -> was_attempted a st = true ->
  ensures answer_ok
    (if may_reconcile a o st then
       x ← apply_action PREPARE_FOUNDATION l target tr;
       match x with
       | inl res => returning res
       | inr (Some m) =>
           go {| attempted := attempted st; foundation_result := Some m; foundation_reconciled := true |}
       | inr None => stop R_OPERATION_UNCERTAIN
       end
     else stop R_OPERATION_UNCERTAIN) (fun t r => turn_post i l target st (t0 ++ t) r).
Proof.
  intros Ht0 Ha. assert (attempted st <> []) as Hne by (intros E; unfold was_attempted in Ha; by rewrite E in Ha).
  destruct (may_reconcile a o st).
  - apply turn_post_go; [done|done|]. intros [m|]; [right; by eexists|by left].
  - apply ensures_done. split; [|by split]. apply asked_after_none. by rewrite app_nil_r.
Qed.

Lemma turn_spec i l target tr st :
  ensures answer_ok (turn i l target tr st) (turn_post i l target st).
Proof.
  unfold turn. apply ensures_try. eapply ensures_mono; [|apply observe_and_plan_post].
  intros t0 [[res|[o p]]|e] (Ht0 & Hsteady & Hready & Hres).
  - destruct (Hres res eq_refl). apply ensures_done. rewrite app_nil_r.
    split; [by apply asked_after_none|]. by split; [intros ?|intros ->].
  - specialize (Hready _ eq_refl). cbn in Hready. destruct (action p).
    1-3: destruct (was_attempted _ st) eqn:Hw; [by apply turn_post_again|];
      apply turn_post_go; [done|done|intros m; right; by eexists].
    + apply turn_post_terminal; [by apply finalize_after_ready, Hready|apply finalize_completed_written|].
      apply finalize_completed_available.
    + apply ensures_done. rewrite app_nil_r. by split; [apply asked_after_none|].
    + apply ensures_done. rewrite app_nil_r. split; [by apply asked_after_none|].
      split; [intros Hc; by destruct (deferred_uncompleted p st)|]. intros Hd. split; [|done].
      destruct (attempted st) eqn:Est; [done|]. exfalso. eapply (deferred_available p st); [by rewrite Est|done].
    + apply turn_post_terminal; [|apply finalize_recovery_written|apply finalize_recovery_available].
      eapply ensures_mono; [|apply incomplete_finalize_recovery]. intros t r Ht.
      by apply asked_after_none, Forall_app.
  - apply ensures_done. rewrite app_nil_r. by split; [apply asked_after_none|].
Qed.

(** ** The loop *)
Definition loop_post i l target (st : LoopState) (tr : trace) (r : result Exn (option R)) : Prop :=
  asked_after (ready_before i l target) tr
  /\ forall res, r = Ok (Some res) ->
     written tr res
     /\ (res = failed R_STORAGE_UNAVAILABLE ->
         attempted st = [] /\ Forall (fun e => changes_schema e = false) tr).

Lemma reconcile_spec fuel i l target tr st :
  ensures answer_ok (reconcile fuel i l target tr st) (loop_post i l target st).
Proof.
  revert st. induction fuel as [|fuel IH]; intros st; cbn [reconcile].
  { apply ensures_done. by split; [apply asked_after_none|]. }
  apply ensures_try. eapply ensures_mono; [|apply turn_spec].
  intros t0 [[res|st']|e] [Hasked Hr].
  - apply ensures_done. unfold loop_post. rewrite app_nil_r. split; [done|]. by intros res' [= <-].
  - destruct Hr as [Ht0 Hst']. eapply ensures_mono; [|apply (IH st')]. intros t1 r [Ha1 Hr1]. split.
    + apply asked_after_app; [done|]. eapply asked_after_mono; [|exact Ha1].
      intros comp t (pre & ds & at_ & -> & Hds & Hc). exists (t0 ++ pre), ds, at_. by rewrite app_assoc.
    + intros res ->. destruct (Hr1 res eq_refl) as [Hw Hun]. split; [by apply written_app|].
      intros Hres. by destruct (Hun Hres).
  - apply ensures_done. unfold loop_post. by rewrite app_nil_r.
Qed.
End turn.
