(* ===== verification/CoordinatorTheorems.v ===== *)
(** * CoordinatorTheorems: the contract of [LifecycleCoordinator.execute]

    Four promises, for every environment whose registry answers valid claims:
    a result after at most five turns, a durable admission before any call that
    may change a service store, a completed result only with the registry's
    committed claim, and no report of unavailability once a schema statement
    may have been sent. *)
From S2P Require Export CoordinatorRuns.
From S2P Require Import Prelude Values Json Sha256 Manifest Relational Samples Transition Lifecycle.
From S2P Require Import LifecycleSpec Operational Models Contracts Samples.

Section execute.
Context `{PublicModels} `{FloatRepr}.

Abbreviation untouched := (Forall (fun e => touches_store e = false)).
Abbreviation incomplete := (Forall (fun e => completes e = false)).

(** What the parts before the loop hand to it. *)
Lemma locator_post i s :
  ensures answer_ok (locator i s) (fun t r =>
    untouched t /\ incomplete t
    /\ (forall res, r = Ok (inl res) -> uncompleted res)
    /\ forall l, r = Ok (inr l) -> lo_namespace l = service_namespace (service_id (fields i))).
Proof.
  intros t r Hr Ht. split; [by eapply quiet_locator|]. split; [by eapply incomplete_locator|]. split.
  - intros res ->. assert (post (early uncompleted) (locator i s)) as Hp by (by apply early_locator).
    by apply (Hp t _ Hr Ht (inl res)).
  - intros l ->.
    assert (post (fun x : R + ServiceStoreLocator => match x with
      | inr l => lo_namespace l = service_namespace (service_id (fields i)) | _ => True end) (locator i s)) as Hp.
    { unfold locator. apply post_try. intros [[info o]|[]]; try by apply post_give.
      destruct o as [l'|]; [|by apply post_give]. destruct (negb (valid_locator _ _ _)) eqn:Hv; [by apply post_give|].
      destruct (_ && _); apply post_give; [done|]. destruct info as [info|]; [|done].
      unfold valid_locator in Hv. bools. by destruct Hv. }
    by apply (Hp t _ Hr Ht (inr l)).
Qed.

Lemma compile_post i s :
  ensures answer_ok (compile i s) (fun t r =>
    t = [] /\ (forall res, r = Ok (inl res) -> uncompleted res)
    /\ forall target tr, r = Ok (inr (target, tr)) -> compile_manifest (target_manifest i) = Ok target).
Proof.
  unfold compile. intros t r Hr _.
  repeat case_match; destruct Hr as [-> ->]; (split; [done|]); split;
    try (by intros res [= <-]); by intros ? ? [= <- <-].
Qed.

(** A whole run: it ends early, or the loop runs after the admission. *)
Inductive run_shape (c : LifecycleCommand) (tr : trace) (r : result Exn (option R)) : Prop :=
| ended_early :
    untouched tr -> incomplete tr -> (forall x, r = Ok x -> exists res, x = Some res /\ evidenced c tr res) ->
    run_shape c tr r
| went_on i s l target t1 t2 :
    tr = durable_admission c i s ++ t1 ++ t2 ->
    IntentValid i -> phase i = PREPARED -> source_matches i s = true ->
    lo_namespace l = service_namespace (service_id (fields i)) ->
    compile_manifest (target_manifest i) = Ok target ->
    untouched t1 -> incomplete t1 -> loop_post i l target initial_state t2 r ->
    run_shape c tr r.

Lemma ended_failed c tr res : untouched tr -> incomplete tr -> uncompleted res -> run_shape c tr (Ok (Some res)).
Proof.
  intros Hu Hi Hres. apply ended_early; [done|done|]. intros x [= <-]. exists res. split; [done|].
  intros Hc. by destruct Hres.
Qed.

Lemma durable_untouched c i s : untouched (durable_admission c i s) /\ incomplete (durable_admission c i s).
Proof. by split; repeat constructor. Qed.

Lemma execute_shape n c : ensures answer_ok (execute n c) (run_shape c).
Proof.
  unfold execute. apply ensures_try. intros t0 r0 Hr0 Hok0.
  pose proof (admit_post c t0 r0 Hr0 Hok0) as Hadm. pose proof (quiet_admit c t0 r0 Hr0 Hok0) as Hq0.
  pose proof (incomplete_admit c t0 r0 Hr0 Hok0) as Hi0.
  destruct r0 as [[res|[i s]]|e]; [| |apply ensures_done; rewrite app_nil_r; by apply ended_early].
  { apply ensures_done. rewrite app_nil_r. apply ended_early; [done|done|]. intros x [= <-]. by exists res. }
  destruct Hadm as [-> [Hi Hp]]. destruct (source_matches i s) eqn:Hs; cbn [negb].
  - apply ensures_try. eapply ensures_mono; [|apply locator_post].
    intros t1 [[res|l]|e] (Hq1 & Hi1 & Hres & Hl);
      [| |apply ensures_done; rewrite app_nil_r; apply ended_early; [by apply Forall_app..|done]].
    { apply ensures_done. rewrite app_nil_r. apply ended_failed; [by apply Forall_app..|by apply Hres]. }
    apply ensures_try. eapply ensures_mono; [|apply compile_post].
    intros t2 [[res|[target tr]]|e] (-> & Hres2 & Hc);
      [| |apply ensures_done; rewrite !app_nil_r; apply ended_early; [by apply Forall_app..|done]].
    { apply ensures_done. rewrite !app_nil_r. apply ended_failed; [by apply Forall_app..|by apply Hres2]. }
    eapply ensures_mono; [|apply reconcile_spec]. intros t3 r Hloop.
    eapply went_on; [reflexivity|done|done|done|by apply Hl|by eapply Hc|done|done|done].
  - apply ensures_try. intros t1 [res|e] Hr1 Hok1; apply ensures_done; rewrite app_nil_r; apply ended_early;
      try (by apply Forall_app; split; [|first [by eapply quiet_finalize_recovery|by eapply incomplete_finalize_recovery]]);
      [|done].
    intros x [= <-]. exists res. split; [done|].
    by apply written_evidenced, written_app, (finalize_recovery_written i t1 _ Hr1 Hok1).
Qed.
End execute.

(** An environment: it answers each query from the conversation so far. *)
Abbreviation environment := (list (event Query Exn) -> forall X, Query X -> result Exn X).

(** ** An environment that lets a materialisation through

    The registry admits [sample_intent] and accepts its completion; the store is
    uninitialised until it is migrated and has no schema until it is applied. *)
Definition shop_source : Service :=
  {| sv_service_id := 7%N; sv_principal_id := lit "owner"; sv_domain_name := lit "shop";
     sv_domain_class := lit "commerce"; sv_intent_description := lit "orders";
     sv_created_at := 10; sv_updated_at := 15; sv_last_activity_at := 15;
     sv_manifest := Some shop_v1; sv_schema_version := Some 1; sv_design_state := SEEDED;
     sv_operational_status := ACTIVE; sv_service_revision := 3; sv_materialised_at := None;
     sv_storage := None |}.

Definition store_state (s : MigrationStatus) : MigrationState :=
  {| ms_component := SERVICE_STORE;
     ms_applied_revision := (match s with READY => 1 | _ => 0 end);
     ms_target_revision := 1; ms_status := s |}.

Definition migrated (h : trace) : bool :=
  existsb (fun e => match e with Event q _ => match q with Q_migrate _ => true | _ => false end end) h.

Definition shop_env : environment := fun h X q =>
  match q in Query X return result Exn X with
  | Q_uow | Q_commit | Q_rollback | Q_close => Ok tt
  | Q_resolve_or_admit _ => Ok (Some (LR_Prepared (sample_intent PREPARED)))
  | Q_get _ _ => Ok (Some shop_source)
  | Q_finalize_completed _ =>
      Ok (Some (LR_Completed {| cl_intent := sample_intent COMPLETED; cl_service := shop_service |}))
  | Q_finalize_recovery i _ => Ok (Some (LR_RecoveryRequired i))
  | Q_now => Ok 20
  | Q_info => Ok (Some {| sa_backend := SQLITE; sa_components := [REGISTRY; SERVICE_STORE] |})
  | Q_allocate id => Ok (Some {| lo_backend := SQLITE; lo_namespace := service_namespace id |})
  | Q_inspect_migration _ => Ok (Some (store_state (if migrated h then READY else UNINITIALISED)))
  | Q_migrate _ => Ok (Some (store_state READY))
  | Q_inspect _ _ =>
      Ok (Some {| ds_status := if existsb changes_schema h then DS_READY else DS_UNMATERIALISED |})
  | Q_materialise _ _ | Q_evolve _ _ => Ok tt
  end.

(** The same, but the service-store catalogue is unavailable. *)
Definition offline_env : environment := fun h X q =>
  match q in Query X return result Exn X -> result Exn X with
  | Q_info => fun _ => Raise ExnUnavailable
  | _ => fun answer => answer
  end (shop_env h X q).

Definition shop_command : LifecycleCommand := MaterialiseCommand (sample_fields (lit "k1")).
Definition shop_run (env : environment) := play env [] (@execute plain_models datum_float_repr 5 shop_command).

Lemma shop_env_ok h X (q : Query X) :
  @answer_ok datum_float_repr (Event q (shop_env h X q))
  /\ @answer_ok datum_float_repr (Event q (offline_env h X q)).
Proof.
  assert (@IntentValid datum_float_repr (sample_intent PREPARED)) as Hi.
  { apply (@prepare_intent_valid plain_models datum_float_repr shop_command shop_v1). by vm_compute. }
  assert (ServiceWF shop_service) as Hs.
  { apply (@make_service_spec plain_models shop_service shop_service). by vm_compute. }
  destruct q; by split.
Qed.

Lemma shop_run_completes :
  match (shop_run shop_env).2 with
  | Ok (Some res) => match er_category res with EXEC_COMPLETED => true | _ => false end
  | _ => false
  end && existsb touches_store (shop_run shop_env).1 && existsb completes (shop_run shop_env).1 = true.
Proof. by vm_compute. Qed.

Lemma offline_run_stops : (shop_run offline_env).2 = Ok (Some (failed R_STORAGE_UNAVAILABLE)).
Proof. by vm_compute. Qed.

(** The event an [existsb] found. *)
Lemma existsb_event (B : event Query Exn -> bool) (tr : trace) :
  existsb B tr = true -> exists t1 e t2, tr = t1 ++ e :: t2 /\ B e = true.
Proof.
  intros (e & He%list_elem_of_In & HB)%existsb_exists. apply list_elem_of_split in He as (t1 & t2 & ->).
  by exists t1, e, t2.
Qed.

Lemma completes_event e :
  completes e = true -> exists comp x, e = Event (Q_finalize_completed comp) x.
Proof. destruct e as [X q r]. destruct q; try done. intros _. by eexists _, r. Qed.

(** ** Properties *)
Lemma untouched_steady tr :
  Forall (fun e => touches_store e = false) tr -> Forall (fun e => changes_schema e = false) tr.
Proof. intros Ht. eapply Forall_impl; [exact Ht|]. intros [X q r]. by destruct q. Qed.

Section properties.
Context `{PublicModels} `{FloatRepr}.

Lemma answers_returns (n : nat) c :
  (4 < n)%nat -> ensures answer_ok (execute n c) (fun _ r => exists res, r = Ok (Some res)).
Proof.
  intros Hn. unfold execute. apply ensures_try. intros t0 r0 Hr0 Hok0.
  destruct (safe_admit c t0 r0 Hr0 Hok0) as [[res|[i s]] ->]; [apply ensures_done; by exists res|].
  destruct (negb _).
  - apply ensures_try. intros t1 r1 Hr1 Hok1. destruct (safe_finalize_recovery i t1 r1 Hr1 Hok1) as [res ->].
    apply ensures_done. by exists res.
  - apply ensures_try. intros t1 r1 Hr1 Hok1.
    destruct (safe_locator i s t1 r1 Hr1 Hok1) as [[res|l] ->]; [apply ensures_done; by exists res|].
    apply ensures_try. intros t2 r2 Hr2 Hok2.
    destruct (safe_compile i s t2 r2 Hr2 Hok2) as [[res|[target tr]] ->]; [apply ensures_done; by exists res|].
    apply reconcile_returns; [by split; constructor|exact Hn].
Qed.
End properties.

(** C21: [execute] always returns a result: against every environment whose
    registry answers valid claims, whatever else it answers or raises, five
    turns of the loop are enough, and no exception escapes. *)
Theorem execute_returns `{PublicModels} `{FloatRepr} (env : environment) (c : LifecycleCommand) :
  (forall h X (q : Query X), answer_ok (Event q (env h X q))) ->
  exists tr res, play env [] (execute 5 c) = (tr, Ok (Some res)).
Proof.
  intros Henv. pose proof (play_runs env (execute 5 c) []) as Hrun.
  pose proof (play_ok answer_ok env (execute 5 c) [] Henv) as Hok.
  destruct (play env [] (execute 5 c)) as [tr r].
  destruct (answers_returns 5 c ltac:(lia) tr r Hrun Hok) as [res Hr]. cbn in Hr. subst r. by exists tr, res.
Qed.

Lemma execute_returns_witness : exists tr res, shop_run shop_env = (tr, Ok (Some res)).
Proof.
  apply (@execute_returns plain_models datum_float_repr shop_env shop_command).
  intros h X q. apply shop_env_ok.
Defined.

(** C12: Durable admission comes first: before any call that may change a service
    store, the registry answered the command with a prepared claim, the source
    service was read, both were committed and closed, and the source is the one
    the claim was prepared for. *)
Theorem admission_before_effects `{PublicModels} `{FloatRepr} (n : nat) (c : LifecycleCommand)
    (tr : trace) (r : result Exn (option R)) (t1 : trace) (e : event Query Exn) (t2 : trace) :
  runs (execute n c) tr r -> Forall answer_ok tr -> tr = t1 ++ e :: t2 -> touches_store e = true ->
  exists i s t, t1 = durable_admission c i s ++ t
    /\ IntentValid i /\ phase i = PREPARED /\ source_matches i s = true.
Proof.
  intros Hrun Hok Htr He.
  destruct (execute_shape n c tr r Hrun Hok) as [Hq _ _|i s l target s1 s2 Heq Hi Hp Hs _ _ _ _ _].
  - exfalso. rewrite Htr in Hq. apply Forall_app in Hq as [_ [Hq _]%Forall_cons]. congruence.
  - rewrite Htr in Heq. symmetry in Heq.
    destruct (beyond_prefix touches_store _ _ _ _ _ (proj1 (durable_untouched c i s)) Heq He) as (t & -> & _).
    by exists i, s, t.
Qed.

Lemma admission_before_effects_witness :
  exists t1 e t2 i s t, (shop_run shop_env).1 = t1 ++ e :: t2 /\ touches_store e = true
    /\ t1 = durable_admission shop_command i s ++ t.
Proof.
  pose proof (play_runs shop_env (@execute plain_models datum_float_repr 5 shop_command) []) as Hrun.
  pose proof (play_ok (@answer_ok datum_float_repr) shop_env
    (@execute plain_models datum_float_repr 5 shop_command) [] (fun h X q => proj1 (shop_env_ok h X q))) as Hok.
  pose proof shop_run_completes as [[_ He]%andb_true_iff _]%andb_true_iff.
  destruct (existsb_event _ _ He) as (t1 & e & t2 & Ht & Hb).
  destruct (@admission_before_effects plain_models datum_float_repr 5 shop_command _ _ t1 e t2 Hrun Hok Ht Hb)
    as (i & s & t & Ht1 & _).
  exists t1, e, t2, i, s, t. split; [exact Ht|]. split; [exact Hb|exact Ht1].
Defined.

(** C13: Completion has evidence: when [execute] reports a completed service, the
    registry answered with a completed claim for exactly that valid service,
    and it did so either at admission, or in a terminal write that was committed
    and closed and is the last thing the run did. *)
Theorem completed_has_evidence `{PublicModels} `{FloatRepr} (n : nat) (c : LifecycleCommand)
    (tr : trace) (res : R) :
  runs (execute n c) tr (Ok (Some res)) -> Forall answer_ok tr -> er_category res = EXEC_COMPLETED ->
  exists s, er_service res = Some s /\ ServiceWF s /\ completion_evidence c s tr.
Proof.
  intros Hrun Hok Hc.
  destruct (execute_shape n c tr _ Hrun Hok) as [_ _ Hev|i s l target t1 t2 -> Hi Hp Hs _ _ _ _ [_ Hloop]].
  - destruct (Hev _ eq_refl) as (res' & [= <-] & Hev'). by apply Hev'.
  - destruct (Hloop res eq_refl) as [Hw _]. rewrite app_assoc. by apply (written_evidenced c), Hc; apply written_app.
Qed.

Lemma completed_has_evidence_witness :
  exists s, completion_evidence shop_command s (shop_run shop_env).1.
Proof.
  pose proof (play_runs shop_env (@execute plain_models datum_float_repr 5 shop_command) []) as Hrun.
  pose proof (play_ok (@answer_ok datum_float_repr) shop_env
    (@execute plain_models datum_float_repr 5 shop_command) [] (fun h X q => proj1 (shop_env_ok h X q))) as Hok.
  pose proof shop_run_completes as [[Hc _]%andb_true_iff _]%andb_true_iff.
  change (play shop_env [] (@execute plain_models datum_float_repr 5 shop_command)) with (shop_run shop_env) in *.
  destruct (shop_run shop_env).2 as [[res|]|e]; try discriminate Hc.
  destruct (er_category res) eqn:Hcat; try discriminate Hc.
  destruct (@completed_has_evidence plain_models datum_float_repr 5 shop_command _ res Hrun Hok Hcat)
    as (s & _ & _ & Hs).
  exists s. exact Hs.
Defined.

(** C3: The registry is asked to complete a claim only right after the schema
    store answered that the manifest of the durably admitted intent is in place
    in the service's own store; the completion is of that intent and store, at
    the time the clock then gave. *)
Theorem completion_after_ready `{PublicModels} `{FloatRepr} (n : nat) (c : LifecycleCommand)
    (tr : trace) (r : result Exn (option R)) (t1 : trace) (comp : LifecycleCompletion) x (t2 : trace) :
  runs (execute n c) tr r -> Forall answer_ok tr -> tr = t1 ++ Event (Q_finalize_completed comp) x :: t2 ->
  exists i s l target pre ds t,
    t1 = durable_admission c i s ++ pre
         ++ [ Event (Q_inspect l target) (Ok (Some ds)); Event Q_now (Ok t); Event Q_uow (Ok tt) ]
    /\ ds_status ds = DS_READY /\ compile_manifest (target_manifest i) = Ok target
    /\ lo_namespace l = service_namespace (service_id (fields i)) /\ completion_of i l t = Ok comp.
Proof.
  intros Hrun Hok Htr.
  destruct (execute_shape n c tr r Hrun Hok) as [_ Hq _|i s l target s1 s2 Heq Hi Hp Hs Hl Hc _ Hs1 [Hasked _]].
  - exfalso. rewrite Htr in Hq. by apply Forall_app in Hq as [_ [Hq _]%Forall_cons].
  - rewrite Htr in Heq. symmetry in Heq. rewrite app_assoc in Heq.
    assert (Forall (fun e => completes e = false) (durable_admission c i s ++ s1)) as Hpre
      by (apply Forall_app; split; [apply durable_untouched|done]).
    destruct (beyond_prefix completes _ _ _ _ _ Hpre Heq eq_refl) as (k & -> & Hk).
    destruct (Hasked k _ t2 comp Hk eq_refl) as (pre & ds & t & -> & Hds & Hcomp).
    exists i, s, l, target, (s1 ++ pre), ds, t. by rewrite <- !app_assoc.
Qed.

Lemma completion_after_ready_witness :
  exists i l target t comp, compile_manifest (target_manifest i) = Ok target
    /\ @completion_of i l t = Ok comp.
Proof.
  pose proof (play_runs shop_env (@execute plain_models datum_float_repr 5 shop_command) []) as Hrun.
  pose proof (play_ok (@answer_ok datum_float_repr) shop_env
    (@execute plain_models datum_float_repr 5 shop_command) [] (fun h X q => proj1 (shop_env_ok h X q))) as Hok.
  pose proof shop_run_completes as [_ He]%andb_true_iff.
  destruct (existsb_event _ _ He) as (t1 & e & t2 & Ht & Hb).
  destruct (completes_event e Hb) as (comp & x & ->).
  destruct (@completion_after_ready plain_models datum_float_repr 5 shop_command _ _ t1 comp x t2 Hrun Hok Ht)
    as (i & s & l & target & pre & ds & t & _ & _ & Hc & _ & Hcomp).
  exists i, l, target, t, comp. split; [exact Hc|exact Hcomp].
Defined.

(** C28: Unavailability is reported honestly: when [execute] answers
    [storage_unavailable], which invites a retry as if nothing had happened, no
    statement that creates or evolves a schema was sent in the run. *)
Theorem unavailable_before_schema `{PublicModels} `{FloatRepr} (n : nat) (c : LifecycleCommand) (tr : trace) :
  runs (execute n c) tr (Ok (Some (failed R_STORAGE_UNAVAILABLE))) -> Forall answer_ok tr ->
  Forall (fun e => changes_schema e = false) tr.
Proof.
  intros Hrun Hok.
  destruct (execute_shape n c tr _ Hrun Hok) as [Hq _ _|i s l target t1 t2 -> Hi Hp Hs _ _ Ht1 _ [_ Hloop]].
  - by apply untouched_steady.
  - destruct (Hloop _ eq_refl) as [_ Hun]. destruct (Hun eq_refl) as [_ Ht2].
    apply Forall_app. split; [apply untouched_steady, durable_untouched|].
    apply Forall_app. split; [by apply untouched_steady|done].
Qed.

Lemma unavailable_before_schema_witness :
  Forall (fun e => changes_schema e = false) (shop_run offline_env).1.
Proof.
  pose proof (play_runs offline_env (@execute plain_models datum_float_repr 5 shop_command) []) as Hrun.
  pose proof (play_ok (@answer_ok datum_float_repr) offline_env
    (@execute plain_models datum_float_repr 5 shop_command) [] (fun h X q => proj2 (shop_env_ok h X q))) as Hok.
  change (play offline_env [] (@execute plain_models datum_float_repr 5 shop_command))
    with (shop_run offline_env) in *.
  rewrite offline_run_stops in Hrun.
  exact (@unavailable_before_schema plain_models datum_float_repr 5 shop_command _ Hrun Hok).
Defined.
