(* ===== verification/Session.v ===== *)
(** * Session: the coordinator served by the registry

    [Coordinator] asks queries, [Registry] is a store with transactions.  A
    session is what lies between: the committed tables and the working copy of
    the open unit of work.  Opening takes the tables as other clients left them;
    a call runs an operation of [Registry] on the working copy, or raises and
    leaves all, part or none of it done; a commit that raises may have happened or not; closing
    drops what was not committed.  The law the coordinator's theorems assume of
    the registry's answers holds in every session. *)
From S2P Require Export CoordinatorRuns RegistryLifecycleSpec.
From S2P Require Import Prelude Values Json Sha256 Manifest Relational Transition Lifecycle.
From S2P Require Import LifecycleSpec Operational Models Authority Codecs Contracts Samples.

Record Session := { committed : Registry; working : option Registry }.

Definition idle (r : Registry) : Session := {| committed := r; working := None |}.
Definition busy (r w : Registry) : Session := {| committed := r; working := Some w |}.

Section session.
Context `{PublicModels} `{FloatRepr} `{UnicodeData}.

(** The units of work other clients commit. *)
Definition unit_step (r r' : Registry) : Prop :=
  exists ops, Forall constructed ops /\ r' = unit_of_work ops r.

Definition interleaved : relation Registry := rtc unit_step.

(** ** One event *)
Definition call {E A B} (m : registry A) (wrap : A -> B) (s s' : Session) (x : result E B) : Prop :=
  match x with
  | Ok b => exists w a w', working s = Some w /\ m w = (Ok a, w') /\ b = wrap a /\ s' = busy (committed s) w'
  | Raise _ => s' = s \/ exists w, working s = Some w /\ s' = busy (committed s) (m w).2
  end.

Definition serves (s : Session) (e : event Query Exn) (s' : Session) : Prop :=
  match e with
  | Event q x =>
      match q in Query X return result Exn X -> Prop with
      | Q_uow => fun x =>
          match x with
          | Ok _ => working s = None /\ exists r, interleaved (committed s) r /\ s' = busy r r
          | Raise _ => s' = s
          end
      | Q_resolve_or_admit c => call (Registry.resolve_or_admit c) Some s s'
      | Q_get p u => call (Registry.get p u) id s s'
      | Q_finalize_completed c => call (Registry.finalize_completed c) Some s s'
      | Q_finalize_recovery i t => call (Registry.finalize_recovery_required i t) Some s s'
      | Q_commit => fun x =>
          match x with
          | Ok _ => exists w, working s = Some w /\ s' = idle w
          | Raise _ => s' = s \/ exists w, working s = Some w /\ s' = busy w w
          end
      | Q_rollback => fun x => match x with Ok _ => s' = idle (committed s) | Raise _ => s' = s end
      | Q_close => fun _ => s' = idle (committed s)
      | _ => fun _ => s' = s
      end x
  end.

(** ** The law of the port *)
Definition good (o : LifecycleRegistryOutcome) : Prop := outcome_ok (Some o).

(** What a computation answers, in any store. *)
Definition answers {A} (P : A -> Prop) (m : registry A) : Prop := forall r a r', m r = (Ok a, r') -> P a.

Lemma answers_bind {A B} (P : B -> Prop) (m : registry A) (f : A -> registry B) :
  (forall a, answers P (f a)) -> answers P (m ≫= f).
Proof. intros Hf r b r' (a & r1 & _ & Hrun)%bind_returns. by eapply Hf. Qed.

Lemma answers_bind' {A B} (Q : A -> Prop) (P : B -> Prop) (m : registry A) (f : A -> registry B) :
  answers Q m -> (forall a, Q a -> answers P (f a)) -> answers P (m ≫= f).
Proof. intros Hm Hf r b r' (a & r1 & Hrun1 & Hrun)%bind_returns. eapply Hf; [by eapply Hm|exact Hrun]. Qed.

Lemma answers_ret {A} (P : A -> Prop) (a : A) : P a -> answers P (ret a).
Proof. by intros HP r b r' [-> _]%ret_returns. Qed.

Lemma answers_raise {A} (P : A -> Prop) e : answers P (raise e).
Proof. by intros r b r' [=]. Qed.

Lemma answers_checked {E A} (P : A -> Prop) (m : result E A) : (forall a, m = Ok a -> P a) -> answers P (checked m).
Proof. intros Hm r a r' [Ha _]%lift_returns. by apply Hm. Qed.

Lemma decode_row_valid p k c : answers IntentValid (decode_lifecycle_row p k c).
Proof.
  unfold decode_lifecycle_row. destruct (cm_kind c), (cm_phase c), (cm_evidence c); try apply answers_raise.
  eapply answers_bind'; [apply answers_checked; intros i Hi; exact (proj1 (proj1 (make_intent_spec _ _ _ _ _ _) Hi))|].
  intros i Hi. apply answers_bind. intros _. by apply answers_ret.
Qed.

Lemma completed_claim_good i s c : make_completed_lifecycle i s = Ok c -> good (LR_Completed c).
Proof.
  unfold make_completed_lifecycle. intros (u & _ & Hc)%bind_Ok. apply bind_Ok in Hc as (s' & Hs & Hc).
  apply unit_then in Hc as [_ [= <-]]. by apply service_snapshot_spec in Hs as [Hs ->].
Qed.

Lemma claim_outcome_good i c : IntentValid i -> answers good (lifecycle_claim_outcome i c).
Proof.
  intros Hi. unfold lifecycle_claim_outcome. destruct (phase i) eqn:Hp.
  - by apply answers_ret.
  - apply answers_bind. intros s. eapply answers_bind'; [apply answers_checked; intros x Hx; exact (completed_claim_good _ _ _ Hx)|].
    intros x Hx. by apply answers_ret.
  - by apply answers_ret.
Qed.

Lemma existing_good p k row c fp : answers good (existing_lifecycle_claim p k row c fp).
Proof.
  unfold existing_lifecycle_claim. destruct (_ || _); [by apply answers_ret|].
  eapply answers_bind'; [apply decode_row_valid|]. intros i Hi. by apply claim_outcome_good.
Qed.

Lemma resolve_good c : answers good (Registry.resolve_or_admit c).
Proof.
  unfold Registry.resolve_or_admit. cbv zeta. apply answers_bind. intros [row|]; [apply existing_good|].
  apply answers_bind. intros [s|]; [|by apply answers_ret].
  destruct (lifecycle_refusal s c) as [o|] eqn:Hr.
  { apply answers_ret. unfold lifecycle_refusal in Hr. by repeat case_match; simplify_eq. }
  intros r o r' (b & r1 & Hb & Hrun)%bind_returns. destruct b as [b|].
  - apply ret_returns in Hrun as [-> _]. unfold lifecycle_blocker in Hb. rewrite reading_bind in Hb.
    repeat (returns; try case_match); by returns.
  - apply bind_returns in Hrun as (t & r2 & _ & Hrun). destruct t as [t|e]; [|by returns].
    apply bind_returns in Hrun as (i & r3 & Hi & Hrun). apply lift_returns in Hi as [Hi _].
    apply prepare_intent_fields in Hi as (Hv & _ & Hp & _).
    apply bind_returns in Hrun as (u & r4 & _ & Hrun). by apply ret_returns in Hrun as [-> _].
Qed.

Lemma terminal_good i : answers good (terminal_or_prepared i).
Proof.
  unfold terminal_or_prepared. apply answers_bind. intros _. apply answers_bind. intros [c|]; [|apply answers_raise].
  apply answers_bind. intros _. eapply answers_bind'; [apply decode_row_valid|]. intros j Hj.
  apply answers_bind. intros _. apply answers_bind. intros _. by apply claim_outcome_good.
Qed.

Lemma mark_good i t : answers good (mark_lifecycle_recovery i t).
Proof.
  unfold mark_lifecycle_recovery. apply answers_bind. intros _. apply answers_bind. intros j.
  apply answers_bind. intros _. by apply answers_ret.
Qed.

Lemma finalize_completed_good c : answers good (Registry.finalize_completed c).
Proof.
  unfold Registry.finalize_completed. cbv zeta. eapply answers_bind'; [apply terminal_good|].
  intros [] Ho; try (by apply answers_ret). apply answers_bind. intros [s|]; [|apply mark_good].
  do 4 (apply answers_bind; intros ?).
  eapply answers_bind'; [apply answers_checked; intros x Hx; exact (completed_claim_good _ _ _ Hx)|].
  intros x Hx. by apply answers_ret.
Qed.

Lemma finalize_recovery_good i t : answers good (Registry.finalize_recovery_required i t).
Proof.
  unfold Registry.finalize_recovery_required. eapply answers_bind'; [apply terminal_good|].
  intros [] Ho; try (by apply answers_ret). apply mark_good.
Qed.

Lemma call_good (m : registry LifecycleRegistryOutcome) s s' x :
  answers good m -> call (E := Exn) m Some s s' x -> match x with Ok o => outcome_ok o | Raise _ => True end.
Proof.
  intros Hm Hx. destruct x as [o|e]; [|done]. destruct Hx as (w & a & w' & _ & Hrun & -> & _). by eapply Hm.
Qed.

Lemma serves_ok s e s' : serves s e s' -> answer_ok e.
Proof.
  destruct e as [X q x]. destruct q; try done; cbn; apply call_good.
  - apply resolve_good.
  - apply finalize_completed_good.
  - apply finalize_recovery_good.
Qed.

Lemma session_ok s tr s' : served serves s tr s' -> Forall answer_ok tr.
Proof.
  revert s. induction tr as [|e tr IH]; intros s; cbn; [by constructor|].
  intros (s1 & He & Hs). constructor; [by eapply serves_ok|by eapply IH].
Qed.
End session.

Abbreviation session := (served serves).
Abbreviation leads := (Prog.leads serves).
