(* ===== verification/Replay.v ===== *)
(** * Replay: retries read the outcome they left

    [answered c o r]: a retry of the command [c] on the tables [r] answers [o]
    and changes nothing.  An admission and a terminal write both leave such a
    state behind, which is how a client that lost an answer gets it again. *)
From S2P Require Export Session.
From S2P Require Import Prelude Values Json Sha256 Manifest Relational Transition Lifecycle.
From S2P Require Import LifecycleSpec Operational Models Authority Codecs Contracts Samples.

Section replay.
Context `{PublicModels} `{FloatRepr} `{UnicodeData}.

Definition answered (c : LifecycleCommand) (o : LifecycleRegistryOutcome) (r : Registry) : Prop :=
  Registry.resolve_or_admit c r = (Ok o, r).

(** The intent stands for a request with the command's key and fingerprint. *)
Definition names (c : LifecycleCommand) (i : LifecycleIntent) : Prop :=
  principal_id (fields i) = principal_id (command_fields c)
  /\ idempotency_key (fields i) = idempotency_key (command_fields c)
  /\ fingerprint i = lifecycle_fingerprint c /\ kind i = command_kind c.

(** ** Reading a claim row *)
Definition decodes (p k : pystr) (row : Claim) (i : LifecycleIntent) : Prop :=
  exists f target,
    cm_kind row = OK_Lifecycle (kind i) /\ cm_phase row = Live (phase i)
    /\ cm_evidence row = Ev_Lifecycle (kind i) f target
    /\ make_intent (kind i) (phase i) (with_key f k) (cm_fingerprint row) target = Ok i
    /\ principal_id (fields i) = p /\ service_id (fields i) = cm_service_id row.

Lemma decode_row_reads p k row r i r' : decode_lifecycle_row p k row r = (Ok i, r') -> decodes p k row i /\ r' = r.
Proof.
  unfold decode_lifecycle_row. intros Hrun.
  destruct (cm_kind row) as [|kd| |] eqn:Ek, (cm_phase row) as [ph|] eqn:Ep,
    (cm_evidence row) as [|ke f target|] eqn:Ee; try discriminate Hrun.
  apply bind_returns in Hrun as (j & r1 & Hj & Hrun). apply lift_returns in Hj as [Hj ->].
  apply bind_returns in Hrun as (u & r1 & Hf & Hrun). apply raise_when_returns in Hf as [Hf ->].
  apply ret_returns in Hrun as [-> ->]. bools. destruct Hf as [[Hp Hs] Hk].
  apply dec_stable in Hp, Hk. split; [|done]. pose proof Hj as [_ Hi]%make_intent_spec.
  assert (kind j = ke /\ phase j = ph) as [Hke Hph] by (by rewrite Hi).
  exists f, target. rewrite Hph, Hke. split_and!; try done; congruence.
Qed.

Lemma decodes_runs p k row i r : decodes p k row i -> decode_lifecycle_row p k row r = (Ok i, r).
Proof.
  intros (f & target & Hk & Hp & He & Hm & Hpr & Hs). unfold decode_lifecycle_row. rewrite Hk, Hp, He.
  unfold checked, fail_if, lift. unfold mbind, txn_bind. rewrite Hm. unfold raise_when, ret.
  rewrite Hpr, Hs, N.eqb_refl, !bool_decide_false by (by intros ?). done.
Qed.

Lemma claim_outcome_reads i row r o r' : lifecycle_claim_outcome i row r = (Ok o, r') ->
  r' = r /\ forall r2, lifecycle_claim_outcome i row r2 = (Ok o, r2).
Proof.
  unfold lifecycle_claim_outcome, decode_result, checked, fail_if.
  destruct (phase i); [by intros [-> ->]%ret_returns| |by intros [-> ->]%ret_returns].
  intros (s & r1 & Hs & Hrun)%bind_returns. apply bind_returns in Hrun as (c & r2 & Hc & Hrun).
  apply lift_returns in Hc as [Hc ->]. apply ret_returns in Hrun as [-> ->].
  destruct (cm_result row) as [[s0|t|t]|]; try discriminate Hs.
  apply bind_returns in Hs as (u & r2 & Hv & Hs). apply raise_when_returns in Hv as [Hv ->].
  apply bind_returns in Hs as (u' & r2 & Hw & Hs). apply raise_when_returns in Hw as [Hw ->].
  apply ret_returns in Hs as [-> ->]. split; [done|]. intros r2.
  unfold mbind, txn_bind, raise_when, lift. rewrite Hv, Hw. unfold ret. by rewrite Hc.
Qed.

Lemma resolve_from_row c row i o r :
  claims r !! (principal_id (command_fields c), idempotency_key (command_fields c)) = Some row ->
  cm_fingerprint row = lifecycle_fingerprint c ->
  decodes (principal_id (command_fields c)) (idempotency_key (command_fields c)) row i ->
  kind i = command_kind c -> lifecycle_claim_outcome i row r = (Ok o, r) -> answered c o r.
Proof.
  intros Hc Hfp Hd Hk Ho. unfold answered, Registry.resolve_or_admit, select_claim. cbv zeta.
  rewrite reading_bind, Hc. unfold existing_lifecycle_claim.
  destruct Hd as (f & target & Hkd & Hd). rewrite Hkd, Hk, Hfp, !bool_decide_false by (by intros ?).
  cbn [orb]. unfold mbind, txn_bind. rewrite (decodes_runs _ _ _ i); [done|]. by exists f, target.
Qed.

(** ** Admission *)
Lemma existing_answered c row o r r' :
  existing_lifecycle_claim (principal_id (command_fields c)) (idempotency_key (command_fields c)) row c
    (lifecycle_fingerprint c) r = (Ok o, r') ->
  r' = r /\ forall i, o = LR_Prepared i -> names c i.
Proof.
  unfold existing_lifecycle_claim. destruct (_ || _) eqn:Eo; [by intros [-> ->]%ret_returns|].
  bools. destruct Eo as [Hfp Hk]. apply dec_stable in Hfp, Hk.
  intros (i & r1 & Hd & Ho)%bind_returns. apply decode_row_reads in Hd as [Hd ->].
  pose proof (claim_outcome_reads _ _ _ _ _ Ho) as [-> _]. split; [done|]. intros j ->.
  unfold lifecycle_claim_outcome in Ho.
  assert (i = j) as ->.
  { destruct (phase i); repeat (returns; try case_match); by returns. }
  destruct Hd as (f & target & Hkd & _ & _ & Hm & Hpr & _). apply make_intent_spec in Hm as [_ Hi].
  split_and!; [done|by rewrite Hi|rewrite <- Hfp; by rewrite Hi|congruence].
Qed.

(** A prepared answer is durable once committed. *)
Lemma prepared_answered c i r r' :
  Registry.resolve_or_admit c r = (Ok (LR_Prepared i), r') -> answered c (LR_Prepared i) r' /\ names c i.
Proof.
  intros Hrun. destruct (claims r !! (principal_id (command_fields c), idempotency_key (command_fields c)))
    as [row|] eqn:Hc.
  - pose proof Hrun as Hex. unfold Registry.resolve_or_admit, select_claim in Hex. cbv zeta in Hex.
    rewrite reading_bind, Hc in Hex. apply existing_answered in Hex as [-> Hn]. split; [exact Hrun|by apply Hn].
  - destruct (resolve_admits r c i r' Hc Hrun) as (Hp & Hk & Hf & Hfp & _).
    split; [by apply resolve_prepared|]. unfold names. by rewrite Hf.
Qed.

(** A completed answer was there before. *)
Lemma completed_answered c claim r r' :
  Registry.resolve_or_admit c r = (Ok (LR_Completed claim), r') -> answered c (LR_Completed claim) r.
Proof.
  intros Hrun. enough (r' = r) as -> by done.
  unfold Registry.resolve_or_admit, select_claim in Hrun. cbv zeta in Hrun. rewrite reading_bind in Hrun.
  destruct (claims r !! _) as [row|]; [by apply existing_answered in Hrun as [-> _]|]. exfalso.
  apply bind_returns in Hrun as (s & r1 & _ & Hrun). destruct s as [s|]; [|by returns].
  destruct (lifecycle_refusal s c) eqn:Hr.
  { apply ret_returns in Hrun as [<- _]. unfold lifecycle_refusal in Hr. repeat case_match; discriminate. }
  apply bind_returns in Hrun as (b & r2 & Hb & Hrun). destruct b as [b|].
  { apply ret_returns in Hrun as [<- _]. unfold lifecycle_blocker in Hb. rewrite reading_bind in Hb.
    repeat (returns; try case_match); returns; discriminate. }
  apply bind_returns in Hrun as (t & r3 & _ & Hrun). destruct t as [t|]; [|by returns].
  apply bind_returns in Hrun as (i & r4 & _ & Hrun). apply bind_returns in Hrun as (u & r5 & _ & Hrun).
  by returns.
Qed.

(** ** Terminal writes *)
Lemma terminal_reads i o r r' :
  terminal_or_prepared i r = (Ok o, r') ->
  r' = r /\ exists row j,
    claims r !! (principal_id (fields i), idempotency_key (fields i)) = Some row
    /\ cm_fingerprint row = fingerprint i /\ kind j = kind i
    /\ decodes (principal_id (fields i)) (idempotency_key (fields i)) row j
    /\ lifecycle_claim_outcome j row r = (Ok o, r) /\ (phase j = PREPARED -> j = i).
Proof.
  unfold terminal_or_prepared, select_claim. intros (u & r1 & H1' & Hrun)%bind_returns.
  apply raise_when_returns in H1' as [_ ->]. rewrite reading_bind in Hrun.
  destruct (claims r !! _) as [row|]; [|by returns].
  apply bind_returns in Hrun as (u2 & r2 & H2' & Hrun). apply raise_when_returns in H2' as [Hfp ->].
  apply bind_returns in Hrun as (j & r3 & Hd & Hrun). apply decode_row_reads in Hd as [Hd ->].
  apply bind_returns in Hrun as (u3 & r4 & H3' & Hrun). apply raise_when_returns in H3' as [Hk ->].
  apply bind_returns in Hrun as (u4 & r5 & H4' & Hrun). apply raise_when_returns in H4' as [Hj ->].
  pose proof (claim_outcome_reads _ _ _ _ _ Hrun) as [-> _].
  bools. apply dec_stable in Hfp, Hk. split; [done|]. exists row, j. split_and!; try done.
  intros Hp. destruct Hj as [Hj|Hj]; [done|by apply dec_stable in Hj].
Qed.

Lemma outcome_prepared j row r i : lifecycle_claim_outcome j row r = (Ok (LR_Prepared i), r) -> phase j = PREPARED.
Proof.
  unfold lifecycle_claim_outcome. destruct (phase j); [done| |by intros [? _]%ret_returns].
  intros (? & ? & _ & Hrun)%bind_returns. by returns.
Qed.

(** A terminal answer that was already there. *)
Lemma terminal_answered c i o r r' :
  terminal_or_prepared i r = (Ok o, r') -> names c i -> answered c o r'.
Proof.
  intros (-> & row & j & Hc & Hfp & Hk & Hd & Ho & _)%terminal_reads (Np & Nk & Nf & Nkd).
  apply (resolve_from_row c row j o); rewrite <- ?Np, <- ?Nk; try done; congruence.
Qed.

Lemma save_terminal_claims comp r x r' : save_terminal comp r = (Ok x, r') -> claims r' = claims r.
Proof.
  unfold save_terminal. cbv zeta. intros (s & r1 & Hs & Hrun)%bind_returns.
  eapply atomic_run in Hs; [|apply select_service_atomic]. destruct Hs as [-> _].
  destruct s as [s|]; [|by returns]. apply bind_returns in Hrun as (u & r2 & Hf & Hrun).
  apply raise_when_returns in Hf as [_ ->]. destruct (negb _); [by returns|].
  apply bind_returns in Hrun as (t & r3 & Ht & Hrun). apply lift_returns in Ht as [_ ->].
  apply bind_returns in Hrun as (sv & r4 & Hsv & Hrun). apply ret_returns in Hrun as [_ ->].
  unfold save in Hsv. apply bind_returns in Hsv as (u2 & r5 & Hf & Hsv).
  apply raise_when_returns in Hf as [_ ->]. apply bind_returns in Hsv as (b & r6 & Hb & Hsv).
  eapply atomic_run in Hb; [|apply update_service_atomic]. destruct Hb as [_ Hb]. destruct b.
  - destruct Hb as (old & _ & _ & _ & _ & ->). apply bind_returns in Hsv as (u3 & r7 & Hu & Hsv).
    apply ret_returns in Hsv as [_ ->]. eapply atomic_run in Hu; [|apply update_identity_atomic].
    by destruct Hu as (? & _ & _ & _ & _ & ->).
  - destruct Hb as [-> _]. by apply ret_returns in Hsv as [_ ->].
Qed.

(** The row a completed terminal write leaves decodes to the completed intent. *)
Lemma decodes_completed p k row i x :
  decodes p k row i -> decodes p k (updated_claim row COMPLETED None x) (in_phase i COMPLETED).
Proof.
  intros (f & target & Hk & Hp & He & [Hv Hi]%make_intent_spec & Hpr & Hs).
  exists f, target. split_and!; try done. apply make_intent_spec. split; [by apply intent_valid_phase|].
  cbn. rewrite Hi. done.
Qed.

Lemma completed_outcome i row x s claim r :
  validate_service s = true -> x = Some (Result_Service s) ->
  sv_principal_id s = principal_id (fields i) -> sv_service_id s = service_id (fields i) ->
  make_completed_lifecycle (in_phase i COMPLETED) s = Ok claim ->
  lifecycle_claim_outcome (in_phase i COMPLETED) (updated_claim row COMPLETED None x) r
  = (Ok (LR_Completed claim), r).
Proof.
  intros Hv -> Hp Hs Hm. unfold lifecycle_claim_outcome. cbn [in_phase phase updated_claim cm_result fields].
  unfold decode_result, fail_if, checked, lift. unfold mbind, txn_bind, raise_when.
  rewrite Hv, Hp, Hs, N.eqb_refl, bool_decide_false by (by intros ?). cbn [negb orb]. unfold ret.
  by rewrite Hm.
Qed.

Lemma completed_claim_service i s claim :
  make_completed_lifecycle i s = Ok claim ->
  sv_principal_id s = principal_id (fields i) /\ sv_service_id s = service_id (fields i).
Proof.
  unfold make_completed_lifecycle. intros (u & _ & Hc)%bind_Ok.
  apply bind_Ok in Hc as (s' & [_ ->]%service_snapshot_spec & Hc). apply unit_then in Hc as [Ht _].
  by apply validate_terminal_spec in Ht as [].
Qed.

(** A terminal write leaves its answer behind. *)
Lemma finalize_answered c comp claim r r' :
  Registry.finalize_completed comp r = (Ok (LR_Completed claim), r') -> names c (completion_intent comp) ->
  answered c (LR_Completed claim) r'.
Proof.
  unfold Registry.finalize_completed. cbv zeta. intros (o & r1 & Ht & Hrun)%bind_returns Hn.
  destruct o; try (apply ret_returns in Hrun as [[= ->] ->]; by eapply terminal_answered).
  pose proof (terminal_reads _ _ _ _ Ht) as (-> & row & j & Hc & Hfp & Hk & Hd & Ho & Hj).
  pose proof (Hj (outcome_prepared _ _ _ _ Ho)) as ->. clear Hj Ht.
  apply bind_returns in Hrun as (t & r2 & Hs & Hrun). apply save_terminal_claims in Hs.
  destruct t as [s|].
  2:{ unfold mark_lifecycle_recovery in Hrun. repeat (apply bind_returns in Hrun as (? & ? & _ & Hrun)). by returns. }
  apply bind_returns in Hrun as (i' & r3 & Hp & Hrun). apply lift_returns in Hp as [Hp ->].
  apply bind_returns in Hrun as (x & r4 & Hx & Hrun). unfold encode_result in Hx.
  apply bind_returns in Hx as (u & r5 & Hv & Hx). apply raise_when_returns in Hv as [Hv ->].
  apply ret_returns in Hx as [-> ->]. apply negb_false_iff in Hv.
  apply bind_returns in Hrun as (u1 & r5 & Hu & Hrun).
  eapply atomic_run in Hu; [|apply update_prepared_atomic].
  destruct Hu as (row' & Hrow & _ & _ & _ & ->). rewrite Hs, Hc in Hrow. injection Hrow as <-.
  apply bind_returns in Hrun as (u2 & r6 & Ha & Hrun). unfold append_terminal in Ha.
  eapply atomic_run in Ha; [|apply append_audit_atomic]. destruct Ha as [-> _].
  apply bind_returns in Hrun as (cl & r7 & Hm & Hrun). apply lift_returns in Hm as [Hm ->].
  apply ret_returns in Hrun as [[= ->] ->].
  assert (IntentValid (completion_intent comp)) as Hi by (by destruct Hd as (? & ? & _ & _ & _ & [? _]%make_intent_spec & _)).
  apply with_phase_spec in Hp as (_ & _ & ->); [|done]. destruct Hn as (Np & Nk & Nf & Nkd).
  pose proof (completed_claim_service _ _ _ Hm) as [Hsp Hsi].
  apply (resolve_from_row c (updated_claim row COMPLETED None (Some (Result_Service s)))
           (in_phase (completion_intent comp) COMPLETED)).
  - cbn. rewrite <- Np, <- Nk. apply lookup_insert_eq.
  - cbn [updated_claim cm_fingerprint]. congruence.
  - rewrite <- Np, <- Nk. by apply decodes_completed.
  - done.
  - by eapply completed_outcome.
Qed.

Lemma recovery_answered c i t claim r r' :
  Registry.finalize_recovery_required i t r = (Ok (LR_Completed claim), r') -> names c i ->
  answered c (LR_Completed claim) r'.
Proof.
  unfold Registry.finalize_recovery_required. intros (o & r1 & Ht & Hrun)%bind_returns Hn.
  destruct o; try (apply ret_returns in Hrun as [[= ->] ->]; by eapply terminal_answered).
  unfold mark_lifecycle_recovery in Hrun. repeat (apply bind_returns in Hrun as (? & ? & _ & Hrun)). by returns.
Qed.
End replay.
