(* ===== verification/Composition.v ===== *)
(** * Composition: the coordinator and the registry together

    One run of [execute] in a session: the registry it leaves is one that units
    of work reach, no unit stays open, and a completed result is in the claim
    ledger for every retry to read, whatever the clock, the service stores and
    the other clients do. *)
From S2P Require Export Replay.
From S2P Require Import Prelude Values Json Sha256 Manifest Relational Transition Lifecycle.
From S2P Require Import LifecycleSpec Operational Models Authority Codecs Contracts Samples.

Section composition.
Context `{PublicModels} `{FloatRepr} `{UnicodeData}.

(** The result of a part: the registry was left idle in a state units of work
    reach, and a completed result can be read back. *)
Definition reported (c : LifecycleCommand) (r : Registry) (res : R) : Prop :=
  er_category res = EXEC_COMPLETED ->
  exists claim, answered c (LR_Completed claim) r /\ er_service res = Some (cl_service claim).

Definition left_idle (r : Registry) (P : Registry -> Prop) (s : Session) : Prop :=
  exists r', s = idle r' /\ interleaved r r' /\ P r'.

Definition settled (c : LifecycleCommand) (r : Registry) (x : result Exn R) (s : Session) : Prop :=
  left_idle r (fun r' => forall res, x = Ok res -> reported c r' res) s.

Lemma reported_uncompleted c r res : uncompleted res -> reported c r res.
Proof. by intros Hu Hc. Qed.

Lemma settled_failed c r r' f : interleaved r r' -> settled c r (Ok (failed f)) (idle r').
Proof. intros Hr. exists r'. split_and!; [done..|]. by intros res [= <-]. Qed.

Lemma settled_error c r r' e : interleaved r r' -> settled c r (Ok (terminal_write_error e)) (idle r').
Proof. intros Hr. exists r'. split_and!; [done..|]. intros res [= <-]. apply reported_uncompleted. by destruct e. Qed.

(** ** Exceptions of an open unit *)
Lemma call_raised {E A B} (m : registry A) (wrap : A -> B) w0 w s' e :
  call (E := E) m wrap (busy w0 w) s' (Raise e) -> exists w', s' = busy w0 w'.
Proof. intros [->|(w1 & _ & ->)]; by eexists. Qed.

Lemma commit_raised w0 w e s' :
  serves (busy w0 w) (Event Q_commit (Raise e)) s' -> s' = busy w0 w \/ s' = busy w w.
Proof. intros [->|(w1 & [= <-] & ->)]; by auto. Qed.

(** ** Closing *)
Lemma leads_close_only s (P : result Exn unit -> Session -> Prop) :
  P (Ok tt) (idle (committed s)) -> leads close_only s P.
Proof. intros HP. apply leads_try, leads_ask. intros x s' ->. by apply leads_done. Qed.

Lemma leads_rollback_close s (P : result Exn unit -> Session -> Prop) :
  P (Ok tt) (idle (committed s)) -> leads rollback_close s P.
Proof.
  intros HP. apply leads_try, leads_ask. intros [u|e] s' Hs; cbn in Hs; subst; by apply leads_close_only.
Qed.

(** ** Terminal writes *)
Section terminal.
Context (c : LifecycleCommand) (q : Query (option LifecycleRegistryOutcome))
  (m : registry LifecycleRegistryOutcome).
Hypothesis Hserves : forall s x s', serves s (Event q x) s' -> call m Some s s' x.
Hypothesis Hunit : forall w o w', m w = (Ok o, w') -> unit_step w w'.
Hypothesis Hanswer : forall w claim w', m w = (Ok (LR_Completed claim), w') -> answered c (LR_Completed claim) w'.
Hypothesis Hgood : answers good m.

Lemma outcome_settled o w w' (r : Registry) :
  m w = (Ok o, w') -> interleaved r w' ->
  leads (registry_outcome (Some o)) (idle w') (settled c r).
Proof.
  intros Hm Hr tr x s' Hrun Hs. pose proof (Hgood _ _ _ Hm) as Hg.
  assert (s' = idle w' /\ forall res, x = Ok res -> reported c w' res) as [-> Hres]; [|by exists w'].
  assert (tr = []) as ->.
  { unfold registry_outcome, pure_call in Hrun. repeat case_match; by destruct Hrun. }
  split; [done|]. intros res -> Hc.
  destruct (registry_outcome_completed _ _ _ Hg Hrun Hc) as (claim & [= ->] & Hsv & _ & _).
  exists claim. split; [by eapply Hanswer|done].
Qed.

Lemma terminal_write_settles r : leads (terminal_write q) (idle r) (settled c r).
Proof.
  unfold terminal_write. apply leads_try, leads_ask. intros [u|e] s1 Hs1; cbn in Hs1.
  2:{ subst. by apply leads_done, settled_error. }
  destruct Hs1 as (_ & w & Hw & ->). apply leads_try, leads_ask. intros x s2 Hs2.
  apply Hserves in Hs2 as Hx. destruct x as [o|e].
  2:{ apply call_raised in Hx as [w' ->]. apply leads_bind, leads_rollback_close, leads_done. by apply settled_error. }
  destruct Hx as (w0 & a & w' & [= <-] & Hm & -> & ->). pose proof (rtc_r _ _ _ Hw (Hunit _ _ _ Hm)) as Hw'.
  assert (forall f, leads (rollback_close ;; give (failed f)) (busy w w') (settled c r)) as Hrefuse.
  { intros f. apply leads_bind, leads_rollback_close, leads_done. by apply settled_failed. }
  assert (leads (try_with (ask Q_commit) (fun r =>
      match r with
      | Raise _ => close_only ;; give (failed R_OPERATION_UNCERTAIN)
      | Ok _ =>
          try_with (ask Q_close) (fun r =>
            match r with
            | Raise _ => give (failed R_OPERATION_UNCERTAIN)
            | Ok _ => registry_outcome (Some a)
            end)
      end)) (busy w w') (settled c r)) as Hcommit; [|by destruct a].
  apply leads_try, leads_ask. intros [v|e] s3 Hs3.
  - destruct Hs3 as (w1 & [= <-] & ->). apply leads_try, leads_ask. intros [v'|e] s4 ->; [by eapply outcome_settled|].
    apply leads_done. by apply settled_failed.
  - apply leads_bind, leads_close_only, leads_done. apply commit_raised in Hs3 as [-> | ->]; by apply settled_failed.
Qed.
End terminal.

(** ** The operations as units of work *)
Lemma unit_of_one {A} op (m : registry A) w a w' :
  constructed op -> run op = (m ;; ret tt) -> m w = (Ok a, w') -> unit_step w w'.
Proof.
  intros Hop Hrun Hm. exists [op]. split; [by repeat constructor|].
  unfold unit_of_work. cbn [run_all]. rewrite Hrun. unfold mbind, txn_bind. by rewrite Hm.
Qed.

Lemma valid_constructed i : IntentValid i -> constructed_intent i.
Proof. intros Hi. apply make_intent_spec. split; [|by destruct i]. by destruct i. Qed.

Lemma finalize_recovery_settles c i r :
  IntentValid i -> names c i -> leads (Coordinator.finalize_recovery i) (idle r) (settled c r).
Proof.
  intros Hi Hn. unfold Coordinator.finalize_recovery. apply leads_try, leads_ask. intros [t|e] s' ->.
  2:{ apply leads_done. by apply settled_failed. }
  apply (terminal_write_settles c _ (Registry.finalize_recovery_required i t)); [done|..].
  - intros w o w'. by apply (unit_of_one (Op_finalize_recovery_required i t)); [apply valid_constructed|].
  - intros w claim w' Hm. by eapply recovery_answered.
  - apply finalize_recovery_good.
Qed.

Lemma completion_of_intent i l t comp : completion_of i l t = Ok comp -> completion_intent comp = i.
Proof.
  unfold completion_of, make_materialise_completion, make_evolve_completion. destruct (kind i).
  - intros (st & _ & Hc)%bind_Ok. apply unit_then in Hc as [_ Hc]. by apply unit_then in Hc as [_ [= <-]].
  - by intros [_ [= <-]]%unit_then.
Qed.

Lemma finalize_completed_settles c i l r :
  IntentValid i -> names c i -> leads (Coordinator.finalize_completed i l) (idle r) (settled c r).
Proof.
  intros Hi Hn. unfold Coordinator.finalize_completed.
  apply leads_try, leads_bind, leads_ask. intros [t|e] s' ->.
  2:{ apply leads_done. by apply settled_failed. }
  unfold pure_call. destruct (completion_of i l t) as [comp|e] eqn:Ec.
  2:{ apply leads_done, leads_done. by apply settled_failed. }
  apply leads_done. apply completion_of_intent in Ec as Hci.
  apply (terminal_write_settles c _ (Registry.finalize_completed comp)); [done|..].
  - intros w o w'. apply (unit_of_one (Op_finalize_completed comp)); [|done]. cbn. rewrite Hci. by apply valid_constructed.
  - intros w claim w' Hm. eapply finalize_answered; [done|]. by rewrite Hci.
  - apply finalize_completed_good.
Qed.

(** ** Admission

    An admission that goes on leaves the registry idle; one that ends may have
    failed to roll back, and then its unit is still open. *)
Definition admitted (c : LifecycleCommand) (r : Registry) (x : result Exn (R + (LifecycleIntent * Service)))
    (s : Session) : Prop :=
  interleaved r (committed s) /\
  match x with
  | Ok (inl res) => reported c (committed s) res
  | Ok (inr (i, _)) => working s = None /\ names c i /\ IntentValid i
  | Raise _ => True
  end.

Lemma admitted_failed c r s res : interleaved r (committed s) -> uncompleted res -> admitted c r (Ok (inl res)) s.
Proof. intros Hr Hu. split; [done|]. by apply reported_uncompleted. Qed.

Lemma commit_prepared_settles c i src r w w' :
  interleaved r w -> interleaved r w' -> names c i -> IntentValid i ->
  leads (commit_prepared i src) (busy w w') (admitted c r).
Proof.
  intros Hw Hw' Hn Hi. unfold commit_prepared.
  apply leads_try, leads_ask. intros [u|e] s1 Hs1.
  2:{ apply leads_bind, leads_close_only, leads_done. apply commit_raised in Hs1 as [-> | ->]; by apply admitted_failed. }
  destruct Hs1 as (w1 & [= <-] & ->). apply leads_try, leads_ask. intros [u'|e] s2 ->; [|by apply leads_done, admitted_failed].
  cbn [idle committed]. destruct src as [s|]; [by apply leads_done|].
  apply leads_bind. eapply leads_mono; [|by apply finalize_recovery_settles].
  intros [res|e] s' (r' & -> & Hr' & Hres); [apply leads_done|]; (split; [by etrans|]); [|done].
  by apply Hres.
Qed.

Lemma close_nonmutating_settles r w w' res (P : R -> Prop) :
  interleaved r w -> P res -> (forall e, P (before_commit_error e)) ->
  leads (close_nonmutating res) (busy w w') (fun x s =>
    exists res', x = Ok res' /\ P res' /\ committed s = w).
Proof.
  intros Hw HP He. unfold close_nonmutating. apply leads_handle, leads_bind, leads_ask.
  intros [u|e] s1 Hs1; cbn in Hs1; subst; [|by apply leads_done; eexists].
  apply leads_bind, leads_ask. intros [u'|e] s2 ->; [by apply leads_done; eexists|by apply leads_done; eexists].
Qed.

Lemma rollback_error_settles c r e s :
  interleaved r (committed s) ->
  leads (rollback_close ;; returning (A := LifecycleIntent * Service) (before_commit_error e)) s (admitted c r).
Proof.
  intros Hw. apply leads_bind, leads_rollback_close, leads_done.
  apply admitted_failed; [done|apply before_commit_uncompleted].
Qed.

(** An outcome that is read back, or that is no completion. *)
Lemma admit_outcome_settles c r w w' o :
  Registry.resolve_or_admit c w = (Ok o, w') -> interleaved r w ->
  leads (handle (res ← registry_outcome (Some o); res ← close_nonmutating res; returning res)
           (fun e => rollback_close ;; returning (before_commit_error e))) (busy w w') (admitted c r).
Proof.
  intros Hm Hw. apply leads_handle, leads_bind.
  intros tr x s' Hrun Hs. pose proof (resolve_good c _ _ _ Hm) as Hg.
  assert (tr = []) as ->.
  { unfold registry_outcome, pure_call in Hrun. repeat case_match; by destruct Hrun. }
  cbn in Hs. subst s'. destruct x as [res|e]; [|by apply rollback_error_settles].
  apply leads_bind. eapply leads_mono; [|apply (close_nonmutating_settles r w w' res (reported c w)); [done|..]].
  - intros x s (res' & -> & Hres & <-). by apply leads_done.
  - intros Hc. destruct (registry_outcome_completed _ _ _ Hg Hrun Hc) as (claim & [= ->] & Hsv & _ & _).
    exists claim. split; [by eapply completed_answered|done].
  - intros e. apply reported_uncompleted, before_commit_uncompleted.
Qed.

Lemma get_reads p u r x r' : Registry.get p u r = (Ok x, r') -> r' = r.
Proof.
  intros Hrun. unfold Registry.get in Hrun. eapply atomic_run in Hrun; [|apply select_service_atomic].
  by destruct Hrun.
Qed.

Lemma admit_settles c r : leads (admit_command c) (idle r) (admitted c r).
Proof.
  unfold admit_command. apply leads_try, leads_ask. intros [u|e] s1 Hs1; cbn in Hs1.
  2:{ subst. apply leads_done, admitted_failed; [by constructor|apply before_commit_uncompleted]. }
  destruct Hs1 as (_ & w & Hw & ->).
  assert (forall o w', Registry.resolve_or_admit c w = (Ok o, w') -> unit_step w w') as Hstep.
  { intros o w'. by apply (unit_of_one (Op_resolve_or_admit c)). }
  intros tr x s' Hrun Hs. destruct Hrun as (y & tr' & -> & Hrun). destruct Hs as (s2 & Hy & Hs).
  destruct y as [o|e].
  2:{ cbn [serves] in Hy. apply call_raised in Hy as [w' ->]. by apply (rollback_error_settles c r e (busy w w') Hw tr'). }
  destruct Hy as (w0 & a & w' & [= <-] & Hm & -> & ->).
  pose proof (rtc_r _ _ _ Hw (Hstep _ _ Hm)) as Hw'.
  destruct a as [|claim|i|i| | |]; try (by eapply admit_outcome_settles).
  destruct (prepared_answered _ _ _ _ Hm) as [_ Hn]. destruct (resolve_good c _ _ _ Hm) as [Hi _].
  clear Hm. revert tr' x s' Hrun Hs.
  change (leads (handle
    (source ← ask (Q_get (principal_id (command_fields c)) (service_id (command_fields c)));
     commit_prepared i source)
    (fun e => rollback_close ;; returning (before_commit_error e))) (busy w w') (admitted c r)).
  apply leads_handle, leads_bind, leads_ask. intros [src|e] s3 Hs3.
  2:{ cbn [serves] in Hs3. apply call_raised in Hs3 as [w2 ->]. by apply rollback_error_settles. }
  destruct Hs3 as (w1 & src' & w2 & [= <-] & Hget & -> & ->). apply get_reads in Hget as ->.
  eapply leads_mono; [|by eapply commit_prepared_settles].
  intros [res|e] s Hx; [done|]. by apply rollback_error_settles, Hx.
Qed.

(** ** The loop, which leaves the registry alone until its terminal write *)
Definition registry_event (e : event Query Exn) : bool :=
  match e with
  | Event q _ =>
      match q with
      | Q_uow | Q_resolve_or_admit _ | Q_get _ _ | Q_finalize_completed _ | Q_finalize_recovery _ _
      | Q_commit | Q_rollback | Q_close => true
      | _ => false
      end
  end.

Lemma serves_outside s e s' : registry_event e = false -> serves s e s' -> s' = s.
Proof. destruct e as [X q x]. by destruct q. Qed.

Lemma avoids_leads {A} (p : program A) s : avoids registry_event p -> leads p s (fun _ s' => s' = s).
Proof.
  intros Hp tr x s' Hrun Hs. specialize (Hp tr x Hrun (session_ok _ _ _ Hs)). clear Hrun. revert Hs.
  induction Hp as [|e tr He _ IH]; cbn; [done|]. intros (s1 & H1' & Hs).
  apply serves_outside in H1' as ->; [|done]. by apply IH.
Qed.

Lemma outside_locator i s : avoids registry_event (locator i s).
Proof. unfold locator. avoiding. Qed.

Lemma outside_compile i s : avoids registry_event (compile i s).
Proof. unfold compile. avoiding. Qed.

Lemma outside_apply_action a l target tr : avoids registry_event (apply_action a l target tr).
Proof. unfold apply_action. avoiding. Qed.

Lemma outside_observe_and_plan i l target tr : avoids registry_event (observe_and_plan i l target tr).
Proof. by apply avoids_observe_and_plan. Qed.

(** A part of the loop: it goes on with the registry as it was, or ends. *)
Definition round (c : LifecycleCommand) (r : Registry) {A} (x : result Exn (R + A)) (s : Session) : Prop :=
  match x with
  | Ok (inl res) => settled c r (Ok res) s
  | _ => s = idle r
  end.

Lemma terminal_round {A} c r (p : program R) :
  leads p (idle r) (settled c r) -> safe p -> leads (res ← p; returning (A := A) res) (idle r) (round c r).
Proof.
  intros Hp Hsafe. apply leads_bind. intros tr x s' Hrun Hs.
  destruct (Hsafe tr x Hrun (session_ok _ _ _ Hs)) as [res ->]. apply leads_done. by apply (Hp tr).
Qed.

Lemma early_round {A} c r (p : program (R + A)) :
  avoids registry_event p -> post (early uncompleted) p -> leads p (idle r) (round c r).
Proof.
  intros Hp Hpost tr x s' Hrun Hs. pose proof (avoids_leads p (idle r) Hp tr x s' Hrun Hs) as ->.
  specialize (Hpost tr x Hrun (session_ok _ _ _ Hs)). destruct x as [[res|a]|e]; try done.
  exists r. split_and!; [done..|]. intros res' [= <-]. apply reported_uncompleted, (Hpost _ eq_refl).
Qed.

Lemma action_round c r a l target tr (f : R + option MigrationState -> program (R + LoopState)) :
  (forall res, f (inl res) = returning res) -> (forall m, exists y, f (inr m) = give y /\ early uncompleted y) ->
  leads (apply_action a l target tr ≫= f) (idle r) (round c r).
Proof.
  intros Hl Hr. apply leads_bind. eapply leads_mono; [|apply early_round;
    [apply outside_apply_action|by apply early_apply_action]].
  intros [[res|m]|e] s Hx; cbn in Hx |- *.
  - rewrite Hl. by apply leads_done.
  - subst s. destruct (Hr m) as ([res|st'] & -> & Hy); apply leads_done; [|done].
    exists r. split_and!; [done..|]. intros res' [= <-]. by apply reported_uncompleted.
  - done.
Qed.

Lemma turn_round c i l target tr st r :
  IntentValid i -> names c i -> leads (turn i l target tr st) (idle r) (round c r).
Proof.
  intros Hi Hn. unfold turn. apply leads_bind. eapply leads_mono;
    [|apply (early_round c r); [apply outside_observe_and_plan|by apply early_observe_and_plan]].
  intros [[res|[o p]]|e] s Hx; cbn in Hx; [by apply leads_done|subst s|done].
  assert (forall a, leads
    (if was_attempted a st then
       if may_reconcile a o st then
         x ← apply_action PREPARE_FOUNDATION l target tr;
         match x with
         | inl res => returning res
         | inr (Some m) =>
             go {| attempted := attempted st; foundation_result := Some m; foundation_reconciled := true |}
         | inr None => stop R_OPERATION_UNCERTAIN
         end
       else stop R_OPERATION_UNCERTAIN
     else
       x ← apply_action a l target tr;
       match x with
       | inl res => returning res
       | inr m =>
           go {| attempted := a :: attempted st;
                 foundation_result := match m with Some m => Some m | None => foundation_result st end;
                 foundation_reconciled := foundation_reconciled st |}
       end) (idle r) (round c r)) as Hact.
  { intros a. destruct (was_attempted a st); [destruct (may_reconcile a o st)|].
    - apply action_round; [done|]. intros [m|]; by eexists.
    - apply leads_done. by apply settled_failed.
    - apply action_round; [done|]. intros m. by eexists. }
  destruct (action p); try apply Hact.
  - apply terminal_round; [by apply finalize_completed_settles|apply safe_finalize_completed].
  - apply leads_done. by apply settled_failed.
  - apply leads_done. exists r. split_and!; [done..|]. intros res [= <-]. apply reported_uncompleted, deferred_uncompleted.
  - apply terminal_round; [by apply finalize_recovery_settles|apply safe_finalize_recovery].
Qed.

Definition finished (c : LifecycleCommand) (r : Registry) (x : result Exn (option R)) (s : Session) : Prop :=
  interleaved r (committed s) /\ forall res, x = Ok (Some res) -> reported c (committed s) res.

Lemma settled_finished c r res s : settled c r (Ok res) s -> finished c r (Ok (Some res)) s.
Proof. intros (r' & -> & Hr & Hres). split; [done|]. intros res' [= <-]. by apply Hres. Qed.

Lemma finished_other c r r' (x : result Exn (option R)) :
  interleaved r r' -> (forall res, x <> Ok (Some res)) -> finished c r x (idle r').
Proof. intros Hr Hx. split; [done|]. intros res ->. by destruct (Hx res). Qed.

Lemma reconcile_finishes c fuel i l target tr st r :
  IntentValid i -> names c i -> leads (reconcile fuel i l target tr st) (idle r) (finished c r).
Proof.
  intros Hi Hn. revert st. induction fuel as [|fuel IH]; intros st; cbn [reconcile].
  { apply leads_done. by apply finished_other. }
  apply leads_bind. eapply leads_mono; [|by apply (turn_round c)].
  intros [[res|st']|e] s Hx; cbn in Hx.
  - apply leads_done. by apply settled_finished.
  - subst s. apply IH.
  - subst s. by apply finished_other.
Qed.

Lemma finished_trans c r r1 x s : interleaved r r1 -> finished c r1 x s -> finished c r x s.
Proof. intros Hr [Hr1 Hx]. split; [by etrans|done]. Qed.

Lemma part_finishes {A} c r (p : program (R + A)) (f : R + A -> program (option R)) :
  avoids registry_event p -> post (early uncompleted) p -> (forall res, f (inl res) = give (Some res)) ->
  (forall a, leads (f (inr a)) (idle r) (finished c r)) -> leads (p ≫= f) (idle r) (finished c r).
Proof.
  intros Hp Hpost Hl Hr. apply leads_bind. eapply leads_mono; [|by apply (early_round c r)].
  intros [[res|a]|e] s Hx; cbn in Hx.
  - rewrite Hl. apply leads_done. by apply settled_finished.
  - subst s. apply Hr.
  - subst s. by apply finished_other.
Qed.

Lemma execute_finishes c n r : leads (execute n c) (idle r) (finished c r).
Proof.
  unfold execute. apply leads_bind. eapply leads_mono; [|apply admit_settles].
  intros [[res|[i src]]|e] [r' w] [Hr Hx]; cbn [committed working] in *.
  - apply leads_done. split; [done|]. by intros res' [= <-].
  - destruct Hx as (-> & Hn & Hi). fold (idle r').
    eapply leads_mono; [intros x s; apply (finished_trans c r r'); exact Hr|].
    destruct (negb _).
    + apply leads_bind. intros tr x s Hrun Hs. pose proof (finalize_recovery_settles c i r' Hi Hn tr x s Hrun Hs) as Hset.
      destruct (safe_finalize_recovery i tr x Hrun (session_ok _ _ _ Hs)) as [res ->].
      apply leads_done. by apply settled_finished.
    + apply part_finishes; [apply outside_locator|by apply early_locator|done|]. intros l.
      apply part_finishes; [apply outside_compile|by apply early_compile|done|]. intros [target tr].
      by apply reconcile_finishes.
  - split; [done|]. by intros res.
Qed.
End composition.
