(* ===== verification/System.v ===== *)
(** * System: the coordinator over its registry, and progress when nothing fails

    A world in which every collaborator works: one client, the registry of
    [Registry], a clock, and a service store whose migration makes it ready,
    whose schema is what was last applied and whose inspection tells the truth.
    In it a supported command is carried through: the run completes, the service
    is saved and the store holds the target schema.  Then the two properties of
    the coordinator composed with its registry. *)
From S2P Require Export Composition Samples TransitionSpec.
From S2P Require Import Prelude Values Json Sha256 Manifest Relational Transition Lifecycle.
From S2P Require Import LifecycleSpec Operational Models Authority Codecs Contracts Samples.

Record World := {
  w_session : Session;
  w_foundation : MigrationStatus;
  w_schema : option RelationalSpecification
}.

Definition with_session (w : World) (s : Session) : World :=
  {| w_session := s; w_foundation := w_foundation w; w_schema := w_schema w |}.
Definition with_foundation (w : World) (f : MigrationStatus) : World :=
  {| w_session := w_session w; w_foundation := f; w_schema := w_schema w |}.
Definition with_schema (w : World) (s : option RelationalSpecification) : World :=
  {| w_session := w_session w; w_foundation := w_foundation w; w_schema := s |}.

Definition schema_status (held : option RelationalSpecification) (s : RelationalSpecification)
  : DomainSchemaStatus :=
  match held with
  | None => DS_UNMATERIALISED
  | Some h => if same_structure_as h s then DS_READY else DS_INCOMPATIBLE
  end.

Definition store_in (f : MigrationStatus) : MigrationState :=
  {| ms_component := SERVICE_STORE;
     ms_applied_revision := match f with READY => 1 | _ => 0 end;
     ms_target_revision := 1; ms_status := f |}.

Section world.
Context `{PublicModels} `{FloatRepr} `{UnicodeData} (now : datetime) (info : StorageAdapterInfo).

(** A call of the open unit of work. *)
Definition in_unit {A B} (m : registry A) (wrap : A -> B) (w : World) : result Exn B * World :=
  match working (w_session w) with
  | None => (Raise OtherException, w)
  | Some r =>
      match m r with
      | (Ok a, r') => (Ok (wrap a), with_session w (busy (committed (w_session w)) r'))
      | (Raise _, r') => (Raise ExnMigration, with_session w (busy (committed (w_session w)) r'))
      end
  end.

Definition answer {X} (w : World) (q : Query X) : result Exn X * World :=
  let s := w_session w in
  match q in Query X return result Exn X * World with
  | Q_uow =>
      match working s with
      | None => (Ok tt, with_session w (busy (committed s) (committed s)))
      | Some _ => (Raise ExnBusy, w)
      end
  | Q_resolve_or_admit c => in_unit (Registry.resolve_or_admit c) Some w
  | Q_get p u => in_unit (Registry.get p u) id w
  | Q_finalize_completed c => in_unit (Registry.finalize_completed c) Some w
  | Q_finalize_recovery i t => in_unit (Registry.finalize_recovery_required i t) Some w
  | Q_commit =>
      match working s with
      | None => (Raise OtherException, w)
      | Some r => (Ok tt, with_session w (idle r))
      end
  | Q_rollback | Q_close => (Ok tt, with_session w (idle (committed s)))
  | Q_now => (Ok now, w)
  | Q_info => (Ok (Some info), w)
  | Q_allocate id => (Ok (Some {| lo_backend := sa_backend info; lo_namespace := service_namespace id |}), w)
  | Q_inspect_migration _ => (Ok (Some (store_in (w_foundation w))), w)
  | Q_migrate _ => (Ok (Some (store_in READY)), with_foundation w READY)
  | Q_inspect _ t => (Ok (Some {| ds_status := schema_status (w_schema w) t |}), w)
  | Q_materialise _ t =>
      match w_schema w with
      | None => (Ok tt, with_schema w (Some t))
      | Some _ => (Raise ExnMigration, w)
      end
  | Q_evolve _ t =>
      match schema_status (w_schema w) (tr_current t) with
      | DS_READY => (Ok tt, with_schema w (Some (tr_target t)))
      | _ => (Raise ExnMigration, w)
      end
  end.

(** A program carried out in the world. *)
Fixpoint carry {A} (p : program A) (w : World) : result Exn A * World :=
  match p with
  | Done x => (x, w)
  | Ask q k => let '(x, w') := answer w q in carry (k x) w'
  end.

Lemma carry_try {A B} (p : program A) (k : result Exn A -> program B) w :
  carry (try_with p k) w = let '(x, w') := carry p w in carry (k x) w'.
Proof.
  revert w. induction p as [x|X q c IH]; intros w; cbn; [done|].
  destruct (answer w q) as [x w']. apply IH.
Qed.

Lemma carry_bind {A B} (p : program A) (f : A -> program B) w :
  carry (p ≫= f) w = match carry p w with
                     | (Ok a, w') => carry (f a) w'
                     | (Raise e, w') => (Raise e, w')
                     end.
Proof. unfold mbind, prog_bind. rewrite carry_try. by destruct (carry p w) as [[a|e] w']. Qed.

Lemma carry_handle {A} (p : program A) h w :
  carry (handle p h) w = match carry p w with
                         | (Ok a, w') => (Ok a, w')
                         | (Raise e, w') => carry (h e) w'
                         end.
Proof. unfold handle. rewrite carry_try. by destruct (carry p w) as [[a|e] w']. Qed.

Lemma carry_ask {X} (q : Query X) w : carry (ask q) w = answer w q.
Proof. cbn. by destruct (answer w q). Qed.

(** What is carried out is a run in a session. *)
Lemma in_unit_calls {A B} (m : registry A) (wrap : A -> B) w :
  call m wrap (w_session w) (w_session (in_unit m wrap w).2) (in_unit m wrap w).1.
Proof.
  unfold in_unit. destruct (working (w_session w)) as [r|] eqn:Er; [|by left].
  destruct (m r) as [[a|e] r'] eqn:Em; cbn.
  - by exists r, a, r'.
  - right. exists r. by rewrite Em.
Qed.

Lemma answer_serves {X} w (q : Query X) :
  serves (w_session w) (Event q (answer w q).1) (w_session (answer w q).2).
Proof.
  destruct q; cbn; try done; try apply in_unit_calls.
  - destruct (working (w_session w)) eqn:Ew; cbn; [done|]. split; [done|]. by eexists.
  - destruct (working (w_session w)) as [r|] eqn:Ew; cbn; [by exists r|by left].
  - by destruct (w_schema w).
  - by destruct (schema_status _ _).
Qed.

Lemma carry_served {A} (p : program A) w :
  exists tr, runs p tr (carry p w).1 /\ session (w_session w) tr (w_session (carry p w).2).
Proof.
  revert w. induction p as [x|X q k IH]; intros w; cbn [carry]; [by exists []|].
  pose proof (answer_serves w q) as Hq. destruct (answer w q) as [x w'].
  destruct (IH x w') as (tr & Hrun & Hs). exists (Event q x :: tr). split; [by exists x, tr|by eexists].
Qed.

(** ** The parts that do not fail *)
Section run.
Context (i : LifecycleIntent) (src : Service).

Definition own : ServiceStoreLocator :=
  {| lo_backend := sa_backend info; lo_namespace := service_namespace (service_id (fields i)) |}.

Lemma carry_locator w :
  existsb (fun c => bool_decide (c = SERVICE_STORE)) (sa_components info) = true ->
  (kind i = EVOLVE -> exists st, sv_storage src = Some st /\ backend st = lo_backend own
                                /\ namespace st = lo_namespace own) ->
  carry (locator i src) w = (Ok (inr own), w).
Proof.
  intros Hc Hst. unfold locator. rewrite carry_try, !carry_bind, carry_ask. cbn [answer].
  rewrite carry_bind, carry_ask. cbn [answer carry give].
  unfold valid_locator. rewrite Hc, !bool_decide_true by done. cbn [andb negb].
  case_bool_decide as Hk; [|done]. destruct (Hst Hk) as (st & -> & Hb & Hn). cbn [andb].
  unfold own in Hb, Hn. cbn in Hb, Hn. by rewrite !bool_decide_true.
Qed.

Lemma carry_foundation l w :
  carry (foundation l) w = (Ok (inr (foundation_of (w_foundation w))), w).
Proof. unfold foundation. rewrite carry_try, carry_ask. cbn [answer]. by destruct (w_foundation w). Qed.

Lemma carry_domain_state l s w :
  carry (domain_state l s) w = (Ok (inr (domain_of (schema_status (w_schema w) s))), w).
Proof. unfold domain_state. rewrite carry_try, carry_ask. cbn [answer]. by destruct (schema_status _ _). Qed.

Context (target : RelationalSpecification) (tr : option RelationalTransition).
Hypothesis Hphase : phase i = PREPARED.

(** What is observed of the store. *)
Definition seen (l : ServiceStoreLocator) (w : World) : LifecycleObservation :=
  let f := foundation_of (w_foundation w) in
  let ready := bool_decide (f = F_READY) in
  let t := domain_of (schema_status (w_schema w) target) in
  match kind i with
  | MATERIALISE =>
      ObsMaterialise {| mo_phase := phase i; mo_foundation := f;
                        mo_target := if ready then t else D_NOT_OBSERVED |}
  | EVOLVE =>
      ObsEvolve {| eo_phase := phase i; eo_foundation := f;
                   eo_target := if ready then t else D_NOT_OBSERVED;
                   eo_source := if ready && negb (bool_decide (t = D_READY))
                                then match tr with
                                     | Some tr => domain_of (schema_status (w_schema w) (tr_current tr))
                                     | None => D_NOT_OBSERVED
                                     end
                                else D_NOT_OBSERVED |}
  end.

Lemma carry_checked {A} (wrap : A -> LifecycleObservation) a w :
  carry (checked_observation wrap (Ok a)) w = (Ok (inr (wrap a)), w).
Proof. done. Qed.

Lemma carry_observe l w :
  observation_valid (seen l w) = true -> (kind i = EVOLVE -> tr <> None) ->
  carry (observe i l target tr) w = (Ok (inr (seen l w)), w).
Proof.
  unfold observe, seen, observation_valid. intros Hv Htr. rewrite carry_bind, carry_foundation. cbv zeta in *.
  destruct (kind i); unfold observe_materialise, observe_evolve; cbv zeta.
  - destruct (make_materialise_observation _) as [o|] eqn:Eo; [|done].
    pose proof (make_materialise_observation_keeps _ _ Eo) as ->. rewrite carry_bind.
    destruct (foundation_of (w_foundation w)) eqn:Ef; [..|idtac|idtac].
    all: first [rewrite bool_decide_true in Eo |- * by done | rewrite bool_decide_false in Eo |- * by done].
    all: rewrite ?carry_domain_state; cbn [go give carry]; by rewrite Eo, carry_checked.
  - destruct (make_evolve_observation _) as [o|] eqn:Eo; [|done].
    pose proof (make_evolve_observation_keeps _ _ Eo) as ->.
    destruct (foundation_of (w_foundation w)) eqn:Ef.
    all: first [rewrite (bool_decide_true (F_READY = F_READY)) in Eo |- * by done
               | rewrite bool_decide_false in Eo |- * by done].
    all: cbn [andb] in Eo |- *; try (by rewrite Eo, carry_checked).
    rewrite carry_bind, carry_domain_state.
    destruct (schema_status (w_schema w) target); cbn [domain_of] in Eo |- *.
    2: { rewrite (bool_decide_true (D_READY = D_READY)) in Eo |- * by done. cbn [negb] in Eo |- *.
         rewrite !bool_decide_false by done. cbn [orb]. by rewrite Eo, carry_checked. }
    all: rewrite (bool_decide_false (_ = D_READY)) in Eo |- * by done; cbn [negb] in Eo |- *.
    all: destruct tr as [t|]; [|by destruct (Htr eq_refl)].
    all: match goal with |- carry (if ?b then _ else _) _ = _ => replace b with true by done end.
    all: rewrite carry_bind, carry_domain_state; by rewrite Eo, carry_checked.
Qed.

Lemma carry_observe_and_plan l w p :
  observation_valid (seen l w) = true -> (kind i = EVOLVE -> tr <> None) -> plan_recovery i (seen l w) = Ok p ->
  carry (observe_and_plan i l target tr) w = (Ok (inr (seen l w, p)), w).
Proof.
  intros Hv Htr Hp. unfold observe_and_plan. rewrite carry_handle, carry_bind, carry_observe by done.
  unfold pure_call. by rewrite Hp.
Qed.

(** ** Turns *)
Abbreviation one_turn := (turn i own target tr).

Lemma carry_turn st o p w :
  seen own w = o -> observation_valid o = true -> (kind i = EVOLVE -> tr <> None) -> plan_recovery i o = Ok p ->
  carry (one_turn st) w = carry (
    match action p with
    | DEFER_OBSERVATION => returning (deferred p st)
    | ACTION_RECOVERY_REQUIRED => res ← Coordinator.finalize_recovery i; returning res
    | FINALIZE_REGISTRY => res ← Coordinator.finalize_completed i own; returning res
    | REPLAY_COMPLETE => stop R_INTERNAL_FAILURE
    | a =>
        if was_attempted a st then
          if may_reconcile a o st then
            x ← apply_action PREPARE_FOUNDATION own target tr;
            match x with
            | inl res => returning res
            | inr (Some m) =>
                go {| attempted := attempted st; foundation_result := Some m; foundation_reconciled := true |}
            | inr None => stop R_OPERATION_UNCERTAIN
            end
          else stop R_OPERATION_UNCERTAIN
        else
          x ← apply_action a own target tr;
          match x with
          | inl res => returning res
          | inr m =>
              go {| attempted := a :: attempted st;
                    foundation_result := match m with Some m => Some m | None => foundation_result st end;
                    foundation_reconciled := foundation_reconciled st |}
          end
    end) w.
Proof.
  intros <- Hv Htr Hp. unfold turn. rewrite carry_bind, (carry_observe_and_plan own w p) by done. done.
Qed.

(** The store is on its way: its foundation can be prepared, and it holds the
    target or what the command starts from. *)
Definition preparable (w : World) : Prop :=
  w_foundation w = READY \/ w_foundation w = OUTDATED
  \/ w_foundation w = UNINITIALISED /\ kind i = MATERIALISE.

Definition starting (w : World) : Prop :=
  match kind i with
  | MATERIALISE => w_schema w = None
  | EVOLVE => exists t, tr = Some t /\ schema_status (w_schema w) (tr_current t) = DS_READY
                        /\ schema_status (Some (tr_target t)) target = DS_READY
  end.

Definition reached (w : World) : Prop := schema_status (w_schema w) target = DS_READY.

#[local] Instance reached_dec w : Decision (reached w) := decide_rel eq _ _.

Hypothesis Htr : kind i = EVOLVE -> tr <> None.

Lemma turn_prepare st w :
  attempted st = [] -> preparable w -> w_foundation w <> READY ->
  exists st', carry (one_turn st) w = (Ok (inr st'), with_foundation w READY)
    /\ attempted st' = [PREPARE_FOUNDATION].
Proof.
  intros Hst Hw Hne.
  assert (exists o, seen own w = o /\ observation_valid o = true
    /\ plan_recovery i o = Ok {| action := PREPARE_FOUNDATION; deferred_result := None |}) as (o & Ho & Hv & Hp).
  { eexists. split; [done|]. unfold seen. destruct Hw as [Hw|[Hw|[Hw Hk]]]; [done|..]; rewrite Hw, ?Hk;
      [destruct (kind i) eqn:Hk|]; cbn [foundation_of]; unfold plan_recovery; cbn; rewrite Hphase, Hk; done. }
  rewrite (carry_turn st o _ w) by done. cbn [action].
  assert (was_attempted PREPARE_FOUNDATION st = false) as -> by (unfold was_attempted; by rewrite Hst).
  rewrite carry_bind. unfold apply_action. rewrite carry_handle, carry_bind, carry_ask. cbn [answer].
  eexists. split; [reflexivity|]. cbn. by rewrite Hst.
Qed.

Lemma turn_apply st w :
  was_attempted APPLY_INITIAL_SCHEMA st = false -> was_attempted APPLY_TRANSITION st = false ->
  w_foundation w = READY -> starting w -> ~ reached w ->
  exists st' held, carry (one_turn st) w = (Ok (inr st'), with_schema w (Some held))
    /\ schema_status (Some held) target = DS_READY.
Proof.
  intros Ha1 Ha2 Hw Hst Hne. unfold starting, reached in *. destruct (kind i) eqn:Hk.
  - rewrite (carry_turn st (seen own w) {| action := APPLY_INITIAL_SCHEMA; deferred_result := None |} w).
    all: unfold seen, plan_recovery; rewrite ?Hk, ?Hw, ?Hst, ?Hphase; try done.
    cbn [action]. rewrite Ha1, carry_bind. unfold apply_action. rewrite carry_handle, carry_bind, carry_ask.
    cbn [answer]. rewrite Hst. do 2 eexists. split; [reflexivity|]. unfold schema_status, same_structure_as.
    by rewrite !bool_decide_true.
  - destruct Hst as (t & Et & Hcur & Htgt).
    assert (schema_status (w_schema w) target = DS_INCOMPATIBLE) as Ht.
    { unfold schema_status in Hcur, Hne |- *. destruct (w_schema w) as [h|]; [|done].
      by destruct (same_structure_as h target). }
    rewrite (carry_turn st (seen own w) {| action := APPLY_TRANSITION; deferred_result := None |} w).
    all: unfold seen, plan_recovery; rewrite ?Hk, ?Hw, ?Ht, ?Et, ?Hcur, ?Hphase; try done.
    cbn [action]. rewrite Ha2, carry_bind. unfold apply_action. rewrite carry_handle, carry_bind, carry_ask.
    cbn [answer]. rewrite Hcur. do 2 eexists. split; [reflexivity|done].
Qed.

Lemma turn_finalize st w x w' :
  w_foundation w = READY -> reached w -> carry (Coordinator.finalize_completed i own) w = (Ok x, w') ->
  carry (one_turn st) w = (Ok (inl x), w').
Proof.
  intros Hw Hr Hfin.
  rewrite (carry_turn st (seen own w) {| action := FINALIZE_REGISTRY; deferred_result := None |} w).
  all: unfold seen, plan_recovery, reached in *; destruct (kind i) eqn:Hk; rewrite ?Hw, ?Hr, ?Hphase; try done.
  all: cbn [action]; by rewrite carry_bind, Hfin.
Qed.

(** ** The loop *)

(** What finalization answers, wherever the world stands. *)
Variables (r1 r2 : Registry) (res : R).

Definition finalizes : Prop := forall f held,
  carry (Coordinator.finalize_completed i own) {| w_session := idle r1; w_foundation := f; w_schema := held |}
  = (Ok res, {| w_session := idle r2; w_foundation := f; w_schema := held |}).

Hypothesis Hfinal : finalizes.

Definition carried_through (x : result Exn (option R) * World) : Prop :=
  exists held, x = (Ok (Some res), {| w_session := idle r2; w_foundation := READY; w_schema := Some held |})
    /\ schema_status (Some held) target = DS_READY.

Lemma reconcile_reached n st w :
  w_session w = idle r1 -> w_foundation w = READY -> reached w ->
  carried_through (carry (reconcile (S n) i own target tr st) w).
Proof.
  destruct w as [? ? held]. cbn [w_session w_foundation]. intros -> -> Hr. cbn [reconcile].
  rewrite carry_bind.
  rewrite (turn_finalize st {| w_session := idle r1; w_foundation := READY; w_schema := held |} res _
             eq_refl Hr (Hfinal _ _)).
  destruct held as [held|]; [by exists held|done].
Qed.

Lemma reconcile_ready n st w :
  w_session w = idle r1 -> w_foundation w = READY -> starting w \/ reached w ->
  was_attempted APPLY_INITIAL_SCHEMA st = false -> was_attempted APPLY_TRANSITION st = false ->
  carried_through (carry (reconcile (S (S n)) i own target tr st) w).
Proof.
  intros Hs Hf Hw Ha1 Ha2. destruct (decide (reached w)) as [Hr|Hr]; [by apply reconcile_reached|].
  destruct Hw as [Hw|Hw]; [|done]. destruct (turn_apply st w Ha1 Ha2 Hf Hw Hr) as (st' & held & Hturn & Hh).
  cbn [reconcile]. rewrite carry_bind, Hturn. by apply (reconcile_reached n).
Qed.

Lemma reconcile_carries n w :
  w_session w = idle r1 -> preparable w -> starting w \/ reached w ->
  carried_through (carry (reconcile (S (S (S n))) i own target tr initial_state) w).
Proof.
  intros Hs Hf Hw. destruct (decide (w_foundation w = READY)) as [Hr|Hr]; [by apply reconcile_ready|].
  destruct (turn_prepare initial_state w eq_refl Hf Hr) as (st' & Hturn & Hst).
  change (reconcile (S (S (S n))) i own target tr initial_state) with
    (next ← one_turn initial_state;
     match next with
     | inl res => give (Some res)
     | inr st' => reconcile (S (S n)) i own target tr st'
     end).
  rewrite carry_bind, Hturn.
  apply reconcile_ready; unfold was_attempted; rewrite ?Hst; done.
Qed.
End run.

(** ** Finalization *)
Definition completion_for (i : LifecycleIntent) : LifecycleCompletion :=
  match kind i with
  | MATERIALISE =>
      MaterialiseCompletion i now
        {| backend := sa_backend info; namespace := service_namespace (service_id (fields i)) |}
  | EVOLVE => EvolveCompletion i now
  end.

Lemma completion_for_made i :
  IntentValid i -> phase i = PREPARED -> (service_id (fields i) < 2 ^ 128)%N ->
  completion_of i (own i) now = Ok (completion_for i) /\ completion_valid (completion_for i).
Proof.
  intros Hi Hp Hu. destruct (intent_fields_ok i Hi) as (_ & _ & Hne & _).
  assert (make_storage {| backend := sa_backend info; namespace := service_namespace (service_id (fields i)) |}
          = Ok {| backend := sa_backend info; namespace := service_namespace (service_id (fields i)) |}) as Hst.
  { unfold make_storage. cbn [namespace]. rewrite service_namespace_pattern, bool_decide_false; [done|].
    intros He%service_namespace_inj; done. }
  assert (forall k, kind i = k -> require_lifecycle_intent i PREPARED (Some k) = Ok tt) as Hreq.
  { intros k Hk. apply require_intent_spec. split; [done|]. by intros k' [= <-]. }
  unfold completion_of, completion_for, own. cbn [lo_backend lo_namespace].
  destruct (kind i) eqn:Hk; cbn [completion_valid].
  - rewrite Hst. unfold make_materialise_completion. cbn [mbind result_bind namespace].
    rewrite (Hreq _ eq_refl), bool_decide_false by (by intros ?). done.
  - unfold make_evolve_completion. by rewrite (Hreq _ eq_refl).
Qed.

Lemma completion_for_intent i : completion_intent (completion_for i) = i.
Proof. unfold completion_for. by destruct (kind i). Qed.

(** The service an admitted command was admitted on may be finalized. *)
Lemma admitted_preconditions c i s :
  IntentValid i -> fields i = command_fields c -> kind i = command_kind c ->
  lifecycle_refusal s c = None -> targets s c (target_manifest i) ->
  sv_principal_id s = principal_id (fields i) -> sv_service_id s = service_id (fields i) ->
  sv_updated_at s <= now ->
  finalization_preconditions s (completion_for i) = true /\ source_matches i s = true
  /\ expected_service_revision (fields i) < MAX_SERVICE_REVISION.
Proof.
  intros [_ _ Hv _] Hf Hk Href (m & Hm & Ht) Hp Hu Hnow. unfold lifecycle_refusal in Href. rewrite <- Hf in Href.
  destruct (negb _ || _) eqn:E1; [done|]. destruct (supported_lifecycle_state s c) eqn:E2; [|done].
  cbn [negb] in Href. destruct (MAX_SERVICE_REVISION <=? _) eqn:E3; [done|]. clear Href.
  apply orb_false_iff in E1 as [E1%negb_false_iff%Z.eqb_eq E1']. apply bool_decide_eq_false, dec_stable in E1'.
  apply Z.leb_gt in E3. split_and!; [..|lia].
  all: unfold finalization_preconditions, source_matches, supported_lifecycle_state, completion_for in *; cbv zeta.
  all: destruct c as [f|f u]; cbn [command_kind] in Hk; rewrite Hk in *; cbn [completion_intent completion_at].
  all: bools; rewrite Hm, Hp, Hu, E1, E1' in *; split_and!; try tauto; try lia; try congruence.
  all: destruct Ht as [-> _]; lia.
Qed.

(** The registry a finalization leaves, and the result it answers. *)
Definition finalized (i : LifecycleIntent) (s : Service) (j : Identity) (r : Registry) : Registry :=
  let s' := terminal_fields s (completion_for i) in
  lifecycle_decided i COMPLETED (Some (Result_Service s')) (lit "completed") (completion_at (completion_for i))
    (saved_as s' j r).

Definition completed_result (i : LifecycleIntent) (s : Service) : R :=
  {| er_category := EXEC_COMPLETED; er_service := Some (terminal_fields s (completion_for i)) |}.

Lemma finalize_saves i r s j :
  RegistryOK r -> lifecycle_prepared r i -> (service_id (fields i) < 2 ^ 128)%N ->
  expected_service_revision (fields i) < MAX_SERVICE_REVISION ->
  services r !! service_id (fields i) = Some s -> identities r !! service_id (fields i) = Some j ->
  finalization_preconditions s (completion_for i) = true ->
  Registry.finalize_completed (completion_for i) r
  = (Ok (LR_Completed {| cl_intent := in_phase i COMPLETED; cl_service := terminal_fields s (completion_for i) |}),
     finalized i s j r).
Proof.
  intros Hr Hprep Hu Hrev Hs Hj Hpre. pose proof Hprep as (_ & Hi & Hp).
  destruct (completion_for_made i Hi Hp Hu) as [_ Hc].
  rewrite (finalize_completed_saves r (completion_for i) s j); rewrite ?completion_for_intent; try done.
Qed.

Lemma carry_finalize i r s j :
  RegistryOK r -> lifecycle_prepared r i -> (service_id (fields i) < 2 ^ 128)%N ->
  expected_service_revision (fields i) < MAX_SERVICE_REVISION ->
  services r !! service_id (fields i) = Some s -> identities r !! service_id (fields i) = Some j ->
  finalization_preconditions s (completion_for i) = true ->
  finalizes i r (finalized i s j r) (completed_result i s).
Proof.
  intros Hr Hprep Hu Hrev Hs Hj Hpre f held. pose proof Hprep as (_ & Hi & Hp).
  destruct (completion_for_made i Hi Hp Hu) as [Hmade Hc].
  destruct (stored_service r _ s Hr Hs) as (_ & Hv & _).
  assert (validate_service (terminal_fields s (completion_for i)) = true) as [Hwf _]%validate_service_spec.
  { apply terminal_fields_spec; rewrite ?completion_for_intent; done. }
  unfold Coordinator.finalize_completed. rewrite carry_try, carry_bind, carry_ask. cbn [answer].
  rewrite Hmade. cbn [pure_call carry give]. unfold terminal_write.
  rewrite carry_try, carry_ask. cbn [answer w_session idle working committed].
  rewrite carry_try, carry_ask. unfold answer, in_unit. cbn [with_session w_session busy working committed].
  rewrite (finalize_saves i r s j) by done. cbv iota beta.
  rewrite carry_try, carry_ask. unfold answer. cbn [with_session w_session busy working committed].
  rewrite carry_try, carry_ask. unfold answer. cbn [with_session w_session idle working committed].
  unfold registry_outcome, make_execution_result. cbn [cl_service].
  rewrite (proj2 (service_snapshot_spec _ _) (conj Hwf eq_refl)). done.
Qed.

(** ** Admission *)
Lemma carry_admit c i r r1 s w :
  w_session w = idle r -> Registry.resolve_or_admit c r = (Ok (LR_Prepared i), r1) -> RegistryOK r1 ->
  services r1 !! service_id (command_fields c) = Some s -> sv_principal_id s = principal_id (command_fields c) ->
  carry (admit_command c) w = (Ok (inr (i, s)), with_session w (idle r1)).
Proof.
  intros Hw Hm Hr1 Hs Hp. destruct w as [ses f held]. cbn [w_session] in Hw. subst ses.
  unfold admit_command. rewrite carry_try, carry_ask. cbn [answer w_session idle working committed].
  rewrite carry_handle, carry_bind, carry_ask. unfold answer at 1, in_unit at 1.
  cbn [with_session w_session busy working committed]. rewrite Hm. cbv iota beta.
  rewrite carry_bind, carry_ask. unfold answer at 1, in_unit at 1.
  cbn [with_session w_session busy working committed]. unfold Registry.get.
  rewrite select_service_runs by done. rewrite Hs, bool_decide_true by done. cbv iota beta. unfold id.
  unfold commit_prepared. rewrite carry_try, carry_ask. unfold answer at 1.
  cbn [with_session w_session busy working committed].
  rewrite carry_try, carry_ask. unfold answer at 1. cbn [with_session w_session idle working committed]. done.
Qed.

(** ** Compilation *)
Lemma carry_compile c i s w :
  IntentValid i -> kind i = command_kind c -> targets s c (target_manifest i) ->
  exists tr, carry (compile i s) w = (Ok (inr (compiled (target_manifest i), tr)), w)
    /\ match kind i with
       | MATERIALISE => True
       | EVOLVE => exists m, sv_manifest s = Some m /\ tr = Some (transition_of m (target_manifest i))
       end.
Proof.
  intros [_ Ht _ _] Hk (m & Hm & Htg). unfold compile.
  rewrite compile_manifest_eq, WF_manifest_valid by done.
  destruct (kind i) eqn:Ek; [by exists None|]. destruct c as [|f u]; [done|]. destruct Htg as [_ Hok].
  rewrite Hm. destruct (classify_transition m (target_manifest i)) as [tr|] eqn:Etr; [|done].
  exists (Some tr). split; [done|]. exists m. split; [done|].
  apply classify_transition_detached in Etr as (Hwm & Hwt & Hd). f_equal. by eapply classify_detached_sound.
Qed.

(** A world in which the command of an admitted intent can be carried out. *)
Record Workable (c : LifecycleCommand) (s : Service) (t : ManifestV2) (w : World) : Prop := {
  wk_clock : sv_updated_at s <= now;
  wk_component : existsb (fun c => bool_decide (c = SERVICE_STORE)) (sa_components info) = true;
  wk_backend : forall st, sv_storage s = Some st -> backend st = sa_backend info;
  wk_foundation : w_foundation w = READY \/ w_foundation w = OUTDATED
    \/ w_foundation w = UNINITIALISED /\ command_kind c = MATERIALISE;
  wk_schema : w_schema w = Some (compiled t)
    \/ w_schema w = match command_kind c with
                    | MATERIALISE => None
                    | EVOLVE => option_map compiled (sv_manifest s)
                    end
}.

Lemma schema_status_same t : schema_status (Some t) t = DS_READY.
Proof. unfold schema_status, same_structure_as. by rewrite !bool_decide_true. Qed.

(** What the registry knows of an admitted command. *)
Lemma admitted_facts c i r r1 s :
  reachable r -> claims r !! (principal_id (command_fields c), idempotency_key (command_fields c)) = None ->
  Registry.resolve_or_admit c r = (Ok (LR_Prepared i), r1) ->
  services r !! service_id (command_fields c) = Some s -> sv_updated_at s <= now ->
  RegistryOK r1 /\ lifecycle_prepared r1 i /\ fields i = command_fields c /\ kind i = command_kind c
  /\ fingerprint i = lifecycle_fingerprint c
  /\ services r1 !! service_id (fields i) = Some s /\ (exists j, identities r1 !! service_id (fields i) = Some j)
  /\ sv_principal_id s = principal_id (fields i) /\ ServiceWF s /\ targets s c (target_manifest i)
  /\ finalization_preconditions s (completion_for i) = true /\ source_matches i s = true
  /\ expected_service_revision (fields i) < MAX_SERVICE_REVISION.
Proof.
  intros Hr Hnew Hm Hs Hnow.
  destruct (resolve_admits r c i r1 Hnew Hm) as (Hprep & Hk & Hf & Hfp & Hsv & _ & t & Ht & Hp & Href & Htg).
  assert (t = s) as -> by (rewrite Hf in Ht; congruence).
  assert (RegistryOK r1) as Hr1.
  { apply reachable_ok. destruct (unit_of_one (Op_resolve_or_admit c) (Registry.resolve_or_admit c) r (LR_Prepared i) r1)
      as (ops & Hops & ->); [done..|]. by apply reachable_unit. }
  rewrite <- Hsv in Ht. destruct (stored_service r1 _ s Hr1 Ht) as (Hu & Hv & j & Hj & _).
  apply validate_service_spec in Hv as [Hwf _]. pose proof Hprep as (_ & Hi & _).
  split_and!; try done; [by exists j|by eapply admitted_preconditions..].
Qed.

Lemma source_storage i s :
  source_matches i s = true -> ServiceWF s -> (forall st, sv_storage s = Some st -> backend st = sa_backend info) ->
  kind i = EVOLVE -> exists st, sv_storage s = Some st /\ backend st = lo_backend (own i)
                               /\ namespace st = lo_namespace (own i).
Proof.
  unfold source_matches. intros Hm Hwf Hback Hk. rewrite Hk in Hm. bools.
  destruct Hm as [[[[[[_ Hu] _] _] _] _] [_ [st Hst]%is_some_spec]]. exists st. split_and!; [done|by apply Hback|].
  unfold own. cbn [lo_namespace]. rewrite (swf_storage s Hwf st Hst). by rewrite Hu.
Qed.

(** The schemas of a workable world, as the loop sees them. *)
Lemma workable_schema c i s tr w :
  kind i = command_kind c -> Workable c s (target_manifest i) w ->
  match kind i with
  | MATERIALISE => True
  | EVOLVE => exists m, sv_manifest s = Some m /\ tr = Some (transition_of m (target_manifest i))
  end ->
  starting i (compiled (target_manifest i)) tr w \/ reached (compiled (target_manifest i)) w.
Proof.
  intros Hk [_ _ _ _ [Hw|Hw]] Htr.
  - right. unfold reached. rewrite Hw. apply schema_status_same.
  - left. unfold starting. rewrite <- Hk in Hw. destruct (kind i); [done|]. destruct Htr as (m & Hm & ->).
    rewrite Hm in Hw. cbn [option_map] in Hw. rewrite Hw. eexists. split; [done|].
    split; apply schema_status_same.
Qed.
End world.

(** ** The coordinator over its registry

    The properties of [execute] and the registry together: what any run leaves
    behind, and that a run in which nothing fails completes. *)

(** C23: One run of the coordinator against the registry, in any session: other
    clients commit units of work in between, calls raise, commits are lost.
    The registry is left in a reachable state, with its invariant; and when a
    completed service is reported, it is in the claim ledger: a retry of the
    command reads the same completed claim and changes nothing. *)
Theorem execute_composes `{PublicModels} `{FloatRepr} `{UnicodeData} (n : nat) (c : LifecycleCommand)
    (r : Registry) (tr : trace) (x : result Exn (option R)) (s : Session) :
  reachable r -> runs (execute n c) tr x -> session (idle r) tr s ->
  reachable (committed s) /\ RegistryOK (committed s)
  /\ forall res, x = Ok (Some res) -> er_category res = EXEC_COMPLETED ->
     exists claim, Registry.resolve_or_admit c (committed s) = (Ok (LR_Completed claim), committed s)
       /\ er_service res = Some (cl_service claim).
Proof.
  intros Hr Hrun Hs. destruct (execute_finishes c n r tr x s Hrun Hs) as [Hstep Hres].
  assert (reachable (committed s)) as Hr'.
  { clear Hres Hrun Hs. induction Hstep as [r|r r1 r2 (ops & Hops & ->) _ IH]; [done|].
    by apply IH, reachable_unit. }
  split; [done|]. split; [by apply reachable_ok|]. exact Hres.
Qed.

(** A shop whose materialisation is asked for, with an empty store. *)
Definition seeded : Registry :=
  @unit_of_work plain_models datum_float_repr ascii_printable [Op_add seeded_shop] empty_registry.

Definition shop_info : StorageAdapterInfo :=
  {| sa_backend := SQLITE; sa_components := [REGISTRY; SERVICE_STORE] |}.

Definition shop_world : World :=
  {| w_session := idle seeded; w_foundation := UNINITIALISED; w_schema := None |}.

Lemma seeded_reachable : @reachable plain_models datum_float_repr ascii_printable seeded.
Proof. apply reachable_unit; [apply reachable_empty|by repeat constructor]. Qed.

Definition shop_carried := @carry plain_models datum_float_repr ascii_printable 20 shop_info _
  (@execute plain_models datum_float_repr 3 shop_command) shop_world.

Lemma shop_carried_completes :
  match shop_carried.1 with
  | Ok (Some res) => match er_category res with EXEC_COMPLETED => true | _ => false end
  | _ => false
  end = true.
Proof. by vm_compute. Qed.

Lemma execute_composes_witness :
  exists claim,
    @Registry.resolve_or_admit plain_models datum_float_repr ascii_printable shop_command
      (committed (w_session shop_carried.2)) = (Ok (LR_Completed claim), committed (w_session shop_carried.2)).
Proof.
  pose proof shop_carried_completes as Hc.
  destruct (@carry_served plain_models datum_float_repr ascii_printable 20 shop_info _
    (@execute plain_models datum_float_repr 3 shop_command) shop_world) as (tr & Hrun & Hs).
  fold shop_carried in Hrun, Hs. destruct shop_carried.1 as [[res|]|]; try discriminate Hc.
  destruct (er_category res) eqn:Hcat; try discriminate Hc.
  destruct (@execute_composes plain_models datum_float_repr ascii_printable 3 shop_command seeded tr _ _
    seeded_reachable Hrun Hs) as (_ & _ & Hres).
  destruct (Hres res eq_refl Hcat) as (claim & Hclaim & _). by exists claim.
Defined.


(** C22: Progress.  When a new command is admitted, the clock is not behind its
    service, and the store is prepared or can be migrated and holds the schema
    the command starts from or the target itself, then a run in which nothing
    fails completes within three turns of the loop: the answer is the completed
    service, which is the terminal snapshot of the intent and is what the
    registry then holds, no unit of work is left open, the foundation is ready,
    the store has the target schema, and a retry is answered from the claim. *)
Theorem execute_carries_through `{PublicModels} `{FloatRepr} `{UnicodeData} (now : datetime)
    (info : StorageAdapterInfo) (n : nat) (c : LifecycleCommand) (i : LifecycleIntent) (s : Service)
    (r r1 : Registry) (w : World) :
  reachable r -> w_session w = idle r ->
  claims r !! (principal_id (command_fields c), idempotency_key (command_fields c)) = None ->
  Registry.resolve_or_admit c r = (Ok (LR_Prepared i), r1) ->
  services r !! service_id (command_fields c) = Some s -> (service_id (command_fields c) < 2 ^ 128)%N ->
  Workable now info c s (target_manifest i) w ->
  exists s' r2 held,
    carry now info (execute (3 + n) c) w
    = (Ok (Some {| er_category := EXEC_COMPLETED; er_service := Some s' |}),
       {| w_session := idle r2; w_foundation := READY; w_schema := Some held |})
    /\ same_structure_as held (compiled (target_manifest i)) = true
    /\ services r2 !! service_id (command_fields c) = Some s'
    /\ TerminalService (in_phase i COMPLETED) s'
    /\ Registry.resolve_or_admit c r2
       = (Ok (LR_Completed {| cl_intent := in_phase i COMPLETED; cl_service := s' |}), r2).
Proof.
  intros Hr Hw Hnew Hm Hs Hu [Hnow Hcomp Hback Hfound Hsch].
  destruct (admitted_facts now info c i r r1 s Hr Hnew Hm Hs Hnow)
    as (Hr1 & Hprep & Hf & Hk & Hfp & Hs1 & (j & Hj) & Hp & Hwf & Htg & Hpre & Hsrc & Hrev).
  pose proof Hprep as (_ & Hi & Hph). rewrite <- Hf in Hs, Hu |- *.
  destruct (carry_compile now info c i s (with_session w (idle r1)) Hi Hk Htg) as (tr & Hcompile & Htr).
  assert (carry now info (execute (3 + n) c) w
    = carry now info (reconcile (S (S (S n))) i (own info i) (compiled (target_manifest i)) tr initial_state)
        (with_session w (idle r1))) as ->.
  { unfold execute. rewrite carry_bind, (carry_admit now info c i r r1 s) by (rewrite <- ?Hf; done).
    rewrite Hsrc. cbn [negb]. rewrite carry_bind, carry_locator, carry_bind, Hcompile; [done|done|].
    intros Hev. by eapply source_storage. }
  destruct (reconcile_carries now info i (compiled (target_manifest i)) tr Hph) with (n := n)
    (r1 := r1) (r2 := finalized now info i s j r1) (res := completed_result now info i s)
    (w := with_session w (idle r1)) as (held & -> & Hheld).
  - intros Hev. rewrite Hev in Htr. by destruct Htr as (m & _ & ->).
  - by apply carry_finalize.
  - done.
  - unfold preparable. by rewrite Hk.
  - eapply (workable_schema now info c i s tr (with_session w (idle r1))); [done| |done]. by constructor.
  - exists (terminal_fields s (completion_for now info i)), (finalized now info i s j r1), held.
    split; [done|]. split; [by unfold schema_status in Hheld; destruct (same_structure_as held _)|].
    pose proof (finalize_saves now info i r1 s j Hr1 Hprep Hu Hrev Hs1 Hj Hpre) as Hfin.
    destruct (stored_service r1 _ s Hr1 Hs1) as (Hid & Hv & _). split_and!.
    + unfold finalized, lifecycle_decided, saved_as. cbn. rewrite <- Hid. apply lookup_insert_eq.
    + rewrite <- (completion_for_intent now info i) at 1.
      apply terminal_fields_spec; rewrite ?completion_for_intent; try done. by apply completion_for_made.
    + eapply finalize_answered; [exact Hfin|]. rewrite completion_for_intent. split_and!; congruence.
Qed.

Lemma execute_carries_through_witness :
  exists s' w', @carry plain_models datum_float_repr ascii_printable 20 shop_info _
      (@execute plain_models datum_float_repr (3 + 0) shop_command) shop_world
    = (Ok (Some {| er_category := EXEC_COMPLETED; er_service := Some s' |}), w')
    /\ services (committed (w_session w')) !! 7%N = Some s'.
Proof.
  assert (match (@Registry.resolve_or_admit plain_models datum_float_repr ascii_printable shop_command seeded).1 with
          | Ok (LR_Prepared _) => true | _ => false end = true) as Hc by (by vm_compute).
  destruct (@Registry.resolve_or_admit plain_models datum_float_repr ascii_printable shop_command seeded)
    as [[[|claim|i|j| | |]|e] r1] eqn:E; try discriminate Hc.
  destruct (@execute_carries_through plain_models datum_float_repr ascii_printable 20 shop_info 0 shop_command
    i seeded_shop seeded r1 shop_world seeded_reachable eq_refl) as (s' & r2 & held & Hrun & _ & Hs & _).
  - by vm_compute.
  - exact E.
  - by vm_compute.
  - done.
  - clear E Hc. split; [by vm_compute|by vm_compute|discriminate| |by right]. right; right. by split.
  - exists s', {| w_session := idle r2; w_foundation := READY; w_schema := Some held |}. split; [exact Hrun|exact Hs].
Defined.

(** ** A unit of work left open

    [_close_nonmutating] does not close after a rollback that raised, as every
    other path does: the unit it was given is still open when it returns. *)
Lemma failed_rollback_leaves_open `{PublicModels} `{FloatRepr} `{UnicodeData} (r w : Registry) (res : R) (e : Exn) :
  exists tr, runs (close_nonmutating res) tr (Ok (before_commit_error e))
    /\ session (busy r w) tr (busy r w) /\ working (busy r w) <> None.
Proof.
  exists [Event Q_rollback (Raise e)]. split; [|split; [|done]].
  - exists (Raise e), []. by split.
  - exists (busy r w). by split.
Qed.
