(* ===== verification/Records.v ===== *)
(** * Records: values and specifications of records

    [records.py], first part: frozen JSON objects, the record specification with
    its checks, what a record, an update and a filter may hold, and the
    compilation of a manifest to the record specification.  A Python object that
    is not JSON is refused by the first type test of each function; the model's
    values are [json], where a list and a tuple are one. *)
From S2P Require Export JsonText.
From S2P Require Import Prelude Values Sha256 Manifest Relational.

(** ** Bounds *)
Definition MAX_RECORD_JSON_BYTES : nat := 64 * 1024.
Definition MAX_STRING_BYTES : nat := 16 * 1024.
Definition MAX_STRING_LIST_ITEMS : nat := 256.
Definition MAX_STRING_LIST_ITEM_CHARS : nat := 256.

(** [RecordContractError], the [UnicodeEncodeError] of [str.encode] on a lone
    surrogate, and the [KeyError] or [AttributeError] of a failed lookup. *)
Inductive RecordError := RecordContractError | UnicodeEncodeError | LookupFault.

Abbreviation recorded := (result RecordError).
Definition contract (b : bool) : recorded unit := raise_if (negb b) RecordContractError.

(** [if any(not check(x) for x in xs): raise RecordContractError()]: the first
    member that fails, or whose check raises, ends the loop. *)
Fixpoint each {A} (check : A -> recorded bool) (xs : list A) : recorded unit :=
  match xs with
  | [] => Ok tt
  | x :: xs' => b ← check x; contract b ;; each check xs'
  end.

(** [value.encode("utf-8")]. *)
Definition encode_utf8 (s : pystr) : recorded (list N) :=
  if unicode s then Ok (utf8 s) else Raise UnicodeEncodeError.

Definition has_nul (s : pystr) : bool := existsb (fun c => (c =? 0)%N) s.

(** ** Frozen JSON *)
Definition is_scalar_json (v : scalar) : bool :=
  match v with
  | PyStr _ | PyBool _ => true
  | PyInt _ => is_signed_64_integer v
  | PyFloat _ => is_finite_real v
  end.

(** [_validate_json] on a scalar. *)
Definition validate_scalar (v : scalar) : recorded unit :=
  contract (is_scalar_json v) ;;
  match v with
  | PyStr s => b ← encode_utf8 s; contract (length b <=? MAX_STRING_BYTES)%nat
  | _ => Ok tt
  end.

Section frozen.
Context `{FloatRepr}.

(** [_json_size] of an object; an [UnicodeEncodeError] is a [ValueError]. *)
Definition json_size (entries : list (pystr * json)) : recorded nat :=
  let t := plain_text (JObj entries) in
  if unicode t then Ok (length (utf8 t)) else Raise RecordContractError.

(** [FrozenJsonObject.__post_init__] on entries whose values are frozen already:
    freezing them once more changes nothing ([freeze_frozen]). *)
Definition make_frozen (entries : list (pystr * json)) : recorded json :=
  contract (forallb (fun e => bool_decide (e.1 <> []) && negb (has_nul e.1)) entries) ;;
  contract (distinct (map fst entries) && bool_decide (map fst entries = sorted_strs (map fst entries))) ;;
  size ← json_size entries;
  contract (size <=? MAX_RECORD_JSON_BYTES)%nat ;;
  Ok (JObj entries).

(** The values of a dictionary in order, or the first exception. *)
Definition sequence_values {A} (l : list (pystr * recorded A)) : recorded (list (pystr * A)) :=
  mapR (fun e => a ← e.2; Ok (e.1, a)) l.

(** [_freeze_json], with [FrozenJsonObject.from_mapping] on an object. *)
Fixpoint freeze_json (j : json) : recorded json :=
  match j with
  | JNull => Ok JNull
  | JScalar v => validate_scalar v ;; Ok (JScalar v)
  | JArr items => frozen ← mapR freeze_json items; Ok (JArr frozen)
  | JObj entries =>
      frozen ← sequence_values (sorted_by str_leb fst (map (fun e => (e.1, freeze_json e.2)) entries));
      make_frozen frozen
  end.

Definition from_mapping (entries : list (pystr * json)) : recorded (list (pystr * json)) :=
  o ← freeze_json (JObj entries);
  match o with JObj frozen => Ok frozen | _ => Raise RecordContractError end.
End frozen.

(** ** Texts of other types *)

(** [str(UUID(value)) == value] holds of the canonical form only: 32 lowercase
    hexadecimal digits in groups of 8, 4, 4, 4 and 12. *)
Definition dashed (h : pystr) : pystr :=
  take 8 h ++ [45%N] ++ take 4 (drop 8 h) ++ [45%N] ++ take 4 (drop 12 h) ++ [45%N]
  ++ take 4 (drop 16 h) ++ [45%N] ++ drop 20 h.

Definition uuid_form (s : pystr) : bool :=
  let h := List.filter is_hex_digit s in (length h =? 32)%nat && bool_decide (s = dashed h).

Definition hex_fold (s : pystr) : N :=
  fold_left (fun a c => match hex_value c with Some v => a * 16 + v | None => a end)%N s 0%N.

(** [UUID(value)] of a canonical text. *)
Definition parse_uuid (s : pystr) : option UUID :=
  if uuid_form s then Some (hex_fold s) else None.

Definition canonical_uuid (s : pystr) : bool :=
  match parse_uuid s with Some u => negb (u =? 0)%N | None => false end.

(** [datetime.fromisoformat]: [Some true] for a datetime whose zone is UTC,
    [Some false] for another, [None] when it raises.  [strftime] writes the year
    as the platform's C library does, which differ on years before 1000. *)
Class IsoDates := {
  fromisoformat : pystr -> option bool;
  year_text : Z -> pystr;
  year_text_four : forall y, 1000 <= y <= 9999 -> year_text y = dec_Z y
}.

(** [value.replace("Z", "+00:00")]. *)
Definition replace_Z (s : pystr) : pystr :=
  concat (map (fun c => if (c =? 90)%N then lit "+00:00" else [c]) s).

Definition canonical_datetime `{IsoDates} (s : pystr) : bool :=
  match fromisoformat (replace_Z s) with Some utc => utc | None => false end.

(** ** Types *)
Definition list_member (s : pystr) : bool :=
  (0 <? length s)%nat && (length s <=? MAX_STRING_LIST_ITEM_CHARS)%nat && negb (has_nul s).

Definition string_items (items : list json) : option (list pystr) :=
  mapM (fun j => match j with JScalar (PyStr s) => Some s | _ => None end) items.

Section types.
Context `{IsoDates}.

(** [_matches_type]. *)
Definition matches_type (value : json) (t : LogicalType) : recorded bool :=
  match t, value with
  | TString, JScalar (PyStr s) =>
      b ← encode_utf8 s; Ok ((length b <=? MAX_STRING_BYTES)%nat && negb (has_nul s))
  | TInteger, JScalar v => Ok (is_signed_64_integer v)
  | TNumber, JScalar v => Ok (is_exact_number v)
  | TBoolean, JScalar (PyBool _) => Ok true
  | TUuid, JScalar (PyStr s) => Ok (canonical_uuid s)
  | TDatetime, JScalar (PyStr s) => Ok (canonical_datetime s)
  | TStringList, JArr items =>
      Ok ((length items <=? MAX_STRING_LIST_ITEMS)%nat
          && match string_items items with
             | Some ss => forallb list_member ss && distinct ss
             | None => false
             end)
  | _, _ => Ok false
  end.

(** [_matches_allowed_value]. *)
Definition matches_allowed_value (value : scalar) (t : LogicalType) : recorded bool :=
  match t with
  | TStringList => Ok (match value with PyStr s => list_member s | _ => false end)
  | _ => matches_type (JScalar value) t
  end.

(** [a == b] of scalars: numbers are compared by value, and a bool is one. *)
Definition float_eq_int (f : spec_float) (z : Z) : bool :=
  match f with
  | S754_zero _ => z =? 0
  | S754_finite s m e =>
      let v := if s then Z.neg m else Z.pos m in
      if 0 <=? e then v * 2 ^ e =? z else v =? z * 2 ^ (- e)
  | _ => false
  end.

Definition scalar_eqb (a b : scalar) : bool :=
  let num v := match v with PyInt z => Some z | PyBool b => Some (Z.b2z b) | _ => None end in
  match a, b with
  | PyStr x, PyStr y => bool_decide (x = y)
  | PyFloat x, PyFloat y => SFeqb x y
  | PyFloat x, v | v, PyFloat x => match num v with Some z => float_eq_int x z | None => false end
  | _, _ => match num a, num b with Some x, Some y => x =? y | _, _ => false end
  end.

(** [_matches_enumeration]. *)
Definition matches_enumeration (value : json) (t : LogicalType) (allowed : list scalar) : bool :=
  match t, value with
  | TStringList, JArr items =>
      forallb (fun j => match j with JScalar v => existsb (scalar_eqb v) allowed | _ => false end) items
  | TStringList, _ => false
  | _, JScalar v => existsb (scalar_eqb v) allowed
  | _, _ => false
  end.
End types.

(** ** Fields and entities *)
Inductive FilterMode := Exact | MembershipOf | NoFilter.

#[export] Instance FilterMode_eq_dec : EqDecision FilterMode.
Proof. solve_decision. Defined.

Record RecordField := {
  fd_name : pystr;
  fd_type : LogicalType;
  fd_required : bool;
  fd_primary_key : bool;
  fd_description : option pystr;
  fd_allowed_values : option (list scalar);
  fd_retrieval_mode : option RetrievalMode
}.

Definition filter_mode (f : RecordField) : FilterMode :=
  match fd_retrieval_mode f with
  | Some Annotation => NoFilter
  | mode =>
      if bool_decide (fd_type f = TStringList)
      then if bool_decide (mode = Some Membership) then MembershipOf else NoFilter
      else Exact
  end.

(** [RecordField.__post_init__]. *)
Definition make_field `{IsoDates} (f : RecordField) : recorded RecordField :=
  contract (identifier (fd_name f) && negb (fd_primary_key f && negb (fd_required f))) ;;
  contract (negb (bool_decide (fd_retrieval_mode f = Some Annotation) && bool_decide (fd_type f <> TString))) ;;
  contract (negb (bool_decide (fd_retrieval_mode f = Some Membership) && bool_decide (fd_type f <> TStringList))) ;;
  match fd_allowed_values f with
  | None => Ok tt
  | Some vs =>
      contract (bool_decide (vs <> []) && (length vs <=? 32)%nat) ;;
      contract (distinct_by typed_eqb vs) ;;
      each (fun v => matches_allowed_value v (fd_type f)) vs
  end ;;
  Ok f.

Record RecordEntity := { re_name : pystr; re_fields : list RecordField; re_description : option pystr }.

Definition entity_record_field (e : RecordEntity) (name : pystr) : option RecordField :=
  List.find (fun f => bool_decide (fd_name f = name)) (re_fields e).

Definition server_name (name : pystr) : bool := bool_decide (name ∈ map fst SERVER_MANAGED_FIELDS).

Definition domain_fields (e : RecordEntity) : list RecordField :=
  List.filter (fun f => negb (server_name (fd_name f))) (re_fields e).

(** What a server-managed field must be. *)
Definition server_field_ok (e : RecordEntity) (p : pystr * ServerField) : bool :=
  match entity_record_field e p.1 with
  | None => false
  | Some f =>
      bool_decide (fd_type f = sf_type p.2) && Bool.eqb (fd_required f) (sf_required p.2)
      && Bool.eqb (fd_primary_key f) (sf_primary_key p.2)
      && bool_decide (fd_description f = None) && bool_decide (fd_allowed_values f = None)
      && bool_decide (fd_retrieval_mode f = None)
  end.

(** [RecordEntity.__post_init__]. *)
Definition make_entity (e : RecordEntity) : recorded RecordEntity :=
  contract (identifier (re_name e) && bool_decide (re_fields e <> []) && (length (re_fields e) <=? 64)%nat
            && distinct (map fd_name (re_fields e))
            && bool_decide (map fd_name (re_fields e) = sorted_strs (map fd_name (re_fields e)))) ;;
  contract (forallb (server_field_ok e) SERVER_MANAGED_FIELDS) ;;
  Ok e.

(** [on_delete] is always ["restrict"]. *)
Record RecordRelationship := {
  rl_name : pystr; rl_source_entity : pystr; rl_source_field : pystr;
  rl_target_entity : pystr; rl_target_field : pystr
}.

Definition make_relationship (r : RecordRelationship) : recorded RecordRelationship :=
  contract (forallb identifier
    [rl_name r; rl_source_entity r; rl_source_field r; rl_target_entity r; rl_target_field r]) ;;
  Ok r.

Record RecordFacet := { rt_entity_name : pystr; rt_field_name : pystr; rt_filter_mode : FilterMode }.

Definition make_facet (t : RecordFacet) : recorded RecordFacet :=
  contract (identifier (rt_entity_name t) && identifier (rt_field_name t)) ;; Ok t.

(** ** The specification *)
Record RecordSpecification := {
  sp_schema_version : Z;
  sp_entities : list RecordEntity;
  sp_relationships : list RecordRelationship;
  sp_facets : list RecordFacet;
  sp_query_patterns : list pystr;
  sp_retrieval_guidance : option pystr
}.

Definition spec_entity (s : RecordSpecification) (name : pystr) : option RecordEntity :=
  List.find (fun e => bool_decide (re_name e = name)) (sp_entities s).

Definition spec_field (s : RecordSpecification) (entity_name field_name : pystr) : option RecordField :=
  e ← spec_entity s entity_name; entity_record_field e field_name.

Definition in_order (names : list pystr) : bool := bool_decide (names = sorted_strs names).

Definition relation_resolves (s : RecordSpecification) (r : RecordRelationship) : bool :=
  bool_decide (is_Some (spec_field s (rl_source_entity r) (rl_source_field r)))
  && bool_decide (is_Some (spec_field s (rl_target_entity r) (rl_target_field r))).

Definition facet_resolves (s : RecordSpecification) (t : RecordFacet) : bool :=
  match spec_field s (rt_entity_name t) (rt_field_name t) with
  | Some f => bool_decide (filter_mode f = rt_filter_mode t)
  | None => false
  end.

(** [RecordSpecification.__post_init__]. *)
Definition make_specification (s : RecordSpecification) : recorded RecordSpecification :=
  contract ((1 <=? sp_schema_version s) && (sp_schema_version s <=? 65)
            && bool_decide (sp_entities s <> []) && (length (sp_entities s) <=? 32)%nat
            && in_order (map re_name (sp_entities s))
            && (length (sp_relationships s) <=? 128)%nat && in_order (map rl_name (sp_relationships s))
            && (length (sp_facets s) <=? 64)%nat && (length (sp_query_patterns s) <=? 32)%nat
            && forallb (fun q => bool_decide (q <> []) && (length q <=? 240)%nat) (sp_query_patterns s)) ;;
  contract (distinct (map re_name (sp_entities s))) ;;
  contract (forallb (relation_resolves s) (sp_relationships s)) ;;
  contract (forallb (facet_resolves s) (sp_facets s)) ;;
  Ok s.

(** ** What a record holds *)
Section validation.
Context `{FloatRepr} `{IsoDates}.

(** The loop over [record.items()]. *)
Definition check_item (fields : list RecordField) (item : pystr * json) : recorded unit :=
  match List.find (fun f => bool_decide (fd_name f = item.1)) fields with
  | None => Raise RecordContractError
  | Some f =>
      match item.2 with
      | JNull => contract (negb (fd_required f))
      | value =>
          ok ← matches_type value (fd_type f);
          contract ok ;;
          contract (match fd_allowed_values f with
                    | Some vs => matches_enumeration value (fd_type f) vs
                    | None => true
                    end)
      end
  end.

Definition validate_record (s : RecordSpecification) (entity_name : pystr) (record : list (pystr * json))
    (require_required require_nonempty : bool) : recorded (list (pystr * json)) :=
  match spec_entity s entity_name with
  | None => Raise RecordContractError
  | Some e =>
      let fields := domain_fields e in
      contract (negb (require_nonempty && bool_decide (record = []))) ;;
      contract (subset_of (map fst record) (map fd_name fields)) ;;
      contract (negb (require_required
                      && existsb (fun f => fd_required f && bool_decide (fd_name f ∉ map fst record)) fields)) ;;
      mapR (check_item fields) record ;;
      from_mapping record
  end.

Definition validate_create s entity_name record := validate_record s entity_name record true false.
Definition validate_updates s entity_name record := validate_record s entity_name record false true.

Record RecordFilter := { ff_entity : pystr; ff_field : pystr; ff_mode : FilterMode; ff_value : json }.

(** [RecordFilter.__post_init__] on a frozen value. *)
Definition make_filter (f : RecordFilter) : recorded RecordFilter :=
  contract (identifier (ff_entity f) && identifier (ff_field f) && bool_decide (ff_mode f <> NoFilter)) ;;
  freeze_json (ff_value f) ;;
  Ok f.

Definition validate_filter (s : RecordSpecification) (entity_name field_name : pystr) (value : json)
  : recorded RecordFilter :=
  match spec_field s entity_name field_name with
  | None => Raise RecordContractError
  | Some f =>
      contract (negb (server_name (fd_name f)) && bool_decide (filter_mode f <> NoFilter)) ;;
      match filter_mode f with
      | MembershipOf =>
          contract (match value with
                    | JScalar (PyStr v) => bool_decide (v <> []) && (length v <=? MAX_STRING_LIST_ITEM_CHARS)%nat
                    | _ => false
                    end)
      | _ => ok ← matches_type value (fd_type f); contract ok
      end ;;
      frozen ← freeze_json value;
      make_filter {| ff_entity := entity_name; ff_field := field_name; ff_mode := filter_mode f; ff_value := frozen |}
  end.
End validation.
