(* ===== verification/RecordCompile.v ===== *)
(** * RecordCompile: from a manifest to its record specification

    [compile_record_specification] of [records.py] with what it compiles a valid
    manifest to: the checks of every constructor it runs hold already. *)
From S2P Require Import Prelude Values Json JsonText Sha256 Manifest Relational Samples.
From S2P Require Export Records.

(** ** The compilation *)
Definition pair_leb (a b : pystr * pystr) : bool :=
  if bool_decide (a.1 = b.1) then str_leb a.2 b.2 else str_leb a.1 b.1.

Definition record_field_of (a : AttributeDefinition) : RecordField :=
  {| fd_name := attr_name a; fd_type := attr_type a; fd_required := attr_required a;
     fd_primary_key := attr_primary_key a; fd_description := attr_description a;
     fd_allowed_values := attr_allowed_values a; fd_retrieval_mode := attr_retrieval_mode a |}.

Definition record_relationship_of (r : RelationshipDefinition) : RecordRelationship :=
  {| rl_name := rel_name r;
     rl_source_entity := ep_entity (rel_from r); rl_source_field := ep_field (rel_from r);
     rl_target_entity := ep_entity (rel_to r); rl_target_field := ep_field (rel_to r) |}.

Definition record_entity_of (e : EntityDefinition) : RecordEntity :=
  {| re_name := ent_name e; re_fields := map record_field_of (sorted_by str_leb attr_name (ent_attributes e));
     re_description := ent_description e |}.

Definition find_field (ents : list RecordEntity) (entity_name field_name : pystr) : option RecordField :=
  e ← List.find (fun e => bool_decide (re_name e = entity_name)) ents; entity_record_field e field_name.

Section compile.
Context `{IsoDates} `{PublicModels}.

Definition compile_record_entity (e : EntityDefinition) : recorded RecordEntity :=
  fields ← mapR (fun a => make_field (record_field_of a)) (sorted_by str_leb attr_name (ent_attributes e));
  make_entity {| re_name := ent_name e; re_fields := fields; re_description := ent_description e |}.

Definition compile_facet (ents : list RecordEntity) (d : DiscoveryFacet) : recorded RecordFacet :=
  match find_field ents (facet_entity d) (facet_field d) with
  | Some f => make_facet {| rt_entity_name := facet_entity d; rt_field_name := facet_field d;
                            rt_filter_mode := filter_mode f |}
  | None => Raise LookupFault
  end.

Definition compile_checked_record (m : ManifestV2) : recorded RecordSpecification :=
  ents ← mapR compile_record_entity (sorted_by str_leb ent_name (entities m));
  facets ← mapR (compile_facet ents)
             (sorted_by pair_leb (fun d => (facet_entity d, facet_field d)) (discovery_facets m));
  rels ← mapR (fun r => make_relationship (record_relationship_of r))
           (sorted_by str_leb rel_name (relationships m));
  make_specification
    {| sp_schema_version := schema_version m; sp_entities := ents; sp_relationships := rels;
       sp_facets := facets; sp_query_patterns := query_patterns m;
       sp_retrieval_guidance := retrieval_guidance m |}.

Definition compile_record_specification (m : ManifestV2) : recorded RecordSpecification :=
  match model_validate (model_dump m) with
  | Ok checked => compile_checked_record checked
  | Raise _ => Raise RecordContractError
  end.
End compile.

(** ** What it compiles to *)
Definition record_entities (m : ManifestV2) : list RecordEntity :=
  map record_entity_of (sorted_by str_leb ent_name (entities m)).

Definition record_facet_of (ents : list RecordEntity) (d : DiscoveryFacet) : RecordFacet :=
  {| rt_entity_name := facet_entity d; rt_field_name := facet_field d;
     rt_filter_mode := match find_field ents (facet_entity d) (facet_field d) with
                       | Some f => filter_mode f | None => NoFilter end |}.

Definition record_specification_of (m : ManifestV2) : RecordSpecification :=
  {| sp_schema_version := schema_version m; sp_entities := record_entities m;
     sp_relationships := map record_relationship_of (sorted_by str_leb rel_name (relationships m));
     sp_facets := map (record_facet_of (record_entities m))
       (sorted_by pair_leb (fun d => (facet_entity d, facet_field d)) (discovery_facets m));
     sp_query_patterns := query_patterns m; sp_retrieval_guidance := retrieval_guidance m |}.

(** The texts among the allowed values have no lone surrogate. *)
Definition allowed_unicode (m : ManifestV2) : bool :=
  forallb (fun e => forallb (fun a =>
    match attr_allowed_values a with
    | Some vs => forallb (fun v => match v with PyStr s => unicode s | _ => true end) vs
    | None => true
    end) (ent_attributes e)) (entities m).

(** ** Fields *)
Lemma contract_Ok (b : bool) u : contract b = Ok u <-> b = true.
Proof. unfold contract. by rewrite raise_if_Ok, negb_false_iff. Qed.

Lemma require_all {B} (c : bool) (m : recorded B) x : (contract c ;; m) = Ok x <-> c = true /\ m = Ok x.
Proof. unfold contract. by rewrite raise_if_then, negb_false_iff. Qed.

Lemma contract_run {B} (b : bool) (m : recorded B) : b = true -> (contract b ;; m) = m.
Proof. by intros ->. Qed.

Lemma each_total {A} (check : A -> recorded bool) xs :
  (forall x, x ∈ xs -> check x = Ok true) -> each check xs = Ok tt.
Proof.
  induction xs as [|x xs IH]; intros Hx; cbn [each]; [done|]. rewrite (Hx x) by left.
  apply IH. intros y Hy. apply Hx. by right.
Qed.

Lemma length_utf8 s : (length (utf8 s) <= 4 * length s)%nat.
Proof.
  unfold utf8. induction s as [|c s IH]; cbn [map concat length]; [lia|]. rewrite length_app.
  assert (length (utf8_char c) <= 4)%nat; [|lia].
  unfold utf8_char. repeat case_match; cbn [length]; lia.
Qed.

Lemma has_nul_spec s : has_nul s = bool_decide (0%N ∈ s).
Proof.
  unfold has_nul. apply eq_bool_prop_intro. rewrite !Is_true_true, bool_decide_eq_true, existsb_exists. split.
  - intros (c & Hc & ->%N.eqb_eq). by apply list_elem_of_In.
  - intros Hin. exists 0%N. split; [by apply list_elem_of_In|done].
Qed.

Section total.
Context `{IsoDates}.

Lemma allowed_value_total t v :
  allowed_value_matches_type v t = true ->
  match v with PyStr s => s <> [] /\ (length s <= 96)%nat /\ (0%N ∉ s) /\ unicode s = true | _ => True end ->
  matches_allowed_value v t = Ok true.
Proof.
  intros Ht Hv. destruct t, v as [s|z|f|b]; cbn [allowed_value_matches_type is_signed_64_integer] in Ht;
    try discriminate Ht; unfold matches_allowed_value, matches_type; cbn [is_signed_64_integer];
    try (by rewrite Ht); try done.
  - destruct Hv as (_ & Hl & Hn & Hu). unfold encode_utf8. rewrite Hu. cbn [mbind result_bind].
    rewrite has_nul_spec, bool_decide_false by done. pose proof (length_utf8 s).
    rewrite (proj2 (Nat.leb_le _ _)); [done|]. unfold MAX_STRING_BYTES. lia.
  - destruct Hv as (Hne & Hl & Hn & _). unfold list_member. rewrite has_nul_spec, bool_decide_false by done.
    rewrite (proj2 (Nat.leb_le _ _)) by (unfold MAX_STRING_LIST_ITEM_CHARS; lia).
    destruct s; [done|]. done.
Qed.
End total.

Section fields.
Context `{IsoDates}.

Definition values_unicode (a : AttributeDefinition) : bool :=
  match attr_allowed_values a with
  | Some vs => forallb (fun v => match v with PyStr s => unicode s | _ => true end) vs
  | None => true
  end.

Lemma allowed_values_total a vs :
  attr_allowed_values a = Some vs -> len_ok 1 32 vs = true -> values_unicode a = true ->
  validate_allowed_values (attr_type a) vs = Ok tt ->
  bool_decide (vs <> []) && (length vs <=? 32)%nat = true /\ distinct_by typed_eqb vs = true
  /\ each (fun v => matches_allowed_value v (attr_type a)) vs = Ok tt.
Proof.
  unfold values_unicode, len_ok, validate_allowed_values. intros -> Hlen Hu Hv.
  rewrite !raise_if_then, raise_if_Ok in Hv. destruct Hv as (Hd & _ & Ht & Hl & Hn).
  rewrite negb_false_iff in Hd, Ht. rewrite forallb_forall in Hu, Ht. bools. destruct Hlen as [Hlo Hhi].
  split_and!; [by intros ->; cbn in Hlo; lia|done|done|].
  apply each_total. intros v Hin. rewrite existsb_false in Hl, Hn.
  specialize (Hl v Hin). specialize (Hn v Hin). apply list_elem_of_In in Hin.
  specialize (Ht v Hin). specialize (Hu v Hin). apply allowed_value_total; [done|].
  destruct v as [s|z|f|b]; [|done..]. rewrite bool_decide_eq_false in Hn. bools. split_and!; [tauto|lia|done|done].
Qed.

Lemma make_field_total a :
  validate_attribute a = Ok tt -> values_unicode a = true -> make_field (record_field_of a) = Ok (record_field_of a).
Proof.
  unfold validate_attribute, validate_type_metadata, attribute_fields.
  rewrite !raise_if_then, unit_then, raise_if_then, raise_if_Ok. intros (Hf & Hp & Hv & Hm & Hn) Hu.
  rewrite negb_false_iff in Hf. rewrite andb_false_iff, !bool_decide_eq_false in Hm, Hn.
  unfold make_field, record_field_of; cbn [fd_name fd_type fd_required fd_primary_key fd_allowed_values fd_retrieval_mode].
  rewrite !andb_true_iff in Hf. destruct Hf as [[Hid _] Hav]. rewrite Hid, Hp.
  rewrite contract_run by done. rewrite !contract_run by
    (rewrite negb_true_iff, andb_false_iff, !bool_decide_eq_false; tauto).
  destruct (attr_allowed_values a) as [vs|] eqn:Ea; [|done].
  apply andb_true_iff in Hav as [Hlen _].
  destruct (allowed_values_total a vs Ea Hlen Hu Hv) as (H1 & H2 & H3).
  rewrite !contract_run by done. by rewrite H3.
Qed.

Lemma entity_field_record e f a :
  NoDup (map attr_name (ent_attributes e)) -> a ∈ ent_attributes e -> attr_name a = f ->
  entity_record_field (record_entity_of e) f = Some (record_field_of a).
Proof.
  intros Hnd Ha Hf. unfold entity_record_field, record_entity_of; cbn [re_fields]. rewrite find_map.
  unfold compose; cbn [fd_name record_field_of].
  assert (NoDup (map attr_name (sorted_by str_leb attr_name (ent_attributes e)))) as Hs by (by rewrite sorted_by_perm).
  by rewrite (proj2 (find_attribute _ f a Hs) (conj (proj2 (elem_of_sorted_by _ _ _ _) Ha) Hf)).
Qed.

Lemma server_field_total e n f :
  EntityWF e -> (n, f) ∈ SERVER_MANAGED_FIELDS -> server_field_ok (record_entity_of e) (n, f) = true.
Proof.
  intros He Hf. unfold server_field_ok; cbn [fst snd].
  rewrite (entity_field_record e n (server_attribute n f)); [|by apply ewf_names|by apply ewf_server|done].
  cbn [record_field_of server_attribute fd_type fd_required fd_primary_key fd_description fd_allowed_values
       fd_retrieval_mode attr_type attr_required attr_primary_key attr_description attr_allowed_values
       attr_retrieval_mode].
  by rewrite !bool_decide_true, !Bool.eqb_reflx by done.
Qed.

Lemma compile_record_entity_total e :
  EntityWF e -> (forall a, a ∈ ent_attributes e -> values_unicode a = true) ->
  compile_record_entity e = Ok (record_entity_of e).
Proof.
  intros He Hu. unfold compile_record_entity. rewrite (mapR_total _ record_field_of).
  2:{ intros a. rewrite elem_of_sorted_by. intros Ha. apply make_field_total; [by apply (ewf_attributes _ He)|by apply Hu]. }
  cbn [mbind result_bind]. fold (record_entity_of e). unfold make_entity.
  pose proof (ewf_fields _ He) as Hf. unfold entity_fields, len_ok in Hf. bools.
  destruct Hf as [[Hid [Hlo Hhi]] _].
  assert (map fd_name (re_fields (record_entity_of e)) = sorted_strs (map attr_name (ent_attributes e))) as Hnames.
  { cbn [re_fields record_entity_of]. by rewrite (map_keep _ _ attr_name), map_sorted_by. }
  rewrite !contract_run; [done| |].
  - apply forallb_forall. intros [n f] Hin. apply server_field_total; [done|]. by apply list_elem_of_In.
  - rewrite Hnames. cbn [re_name re_fields record_entity_of]. rewrite length_map, length_sorted_by. bools.
    rewrite distinct_spec, NoDup_sorted_strs, sorted_strs_fix. split_and!; try done.
    + intros Hnil%map_eq_nil. apply (f_equal length) in Hnil. rewrite length_sorted_by in Hnil. cbn in Hnil. lia.
    + by apply ewf_names.
    + apply sorted_strs_sorted.
Qed.
End fields.

(** ** The specification *)
Section specification.
Context `{IsoDates} (m : ManifestV2) (Hm : ManifestWF m).

Lemma record_declares e f a :
  declares m e f a -> find_field (record_entities m) e f = Some (record_field_of a).
Proof using Hm.
  intros (ent & He & <- & Ha & Hf). unfold find_field, record_entities. rewrite find_map.
  destruct (List.find _ _) as [x|] eqn:Hx.
  - apply List.find_some in Hx as [Hx Hn]. unfold compose in Hn. cbn [re_name record_entity_of] in Hn.
    rewrite bool_decide_eq_true in Hn. apply list_elem_of_In, elem_of_sorted_by in Hx.
    assert (x = ent) as ->.
    { pose proof (mwf_entity_names _ (mwf_references _ Hm)) as Hnd.
      apply list_elem_of_lookup in Hx as [i Hi], He as [j Hj].
      assert (i = j) as ->; [|congruence].
      apply (NoDup_lookup _ i j (ent_name x) Hnd); rewrite list_lookup_fmap; [by rewrite Hi|by rewrite Hj, Hn]. }
    cbn [fmap option_fmap option_map mbind option_bind].
    by apply entity_field_record; [apply ewf_names, Hm|..].
  - assert (In ent (sorted_by str_leb ent_name (entities m))) as Hin by (by apply list_elem_of_In, elem_of_sorted_by).
    apply (List.find_none _ _ Hx ent) in Hin. unfold compose in Hin. cbn [re_name record_entity_of] in Hin.
    by rewrite bool_decide_true in Hin.
Qed.

Lemma compile_facet_total d :
  d ∈ discovery_facets m -> compile_facet (record_entities m) d = Ok (record_facet_of (record_entities m) d).
Proof using Hm.
  intros Hd. unfold compile_facet, record_facet_of.
  destruct (mwf_facets _ (mwf_references _ Hm) d Hd) as [a Ha]. rewrite (record_declares _ _ _ Ha).
  pose proof (mwf_facet_fields _ Hm d Hd) as Hf. unfold facet_fields in Hf.
  unfold make_facet; cbn [rt_entity_name rt_field_name]. by rewrite Hf.
Qed.

Lemma record_relationship_total r :
  r ∈ relationships m -> make_relationship (record_relationship_of r) = Ok (record_relationship_of r).
Proof using Hm.
  intros Hr. pose proof (mwf_relationship_fields _ Hm r Hr) as Hf.
  unfold relationship_fields, endpoint_fields in Hf. bools.
  unfold make_relationship. rewrite contract_run; [done|]. unfold record_relationship_of.
  cbn [forallb rl_name rl_source_entity rl_source_field rl_target_entity rl_target_field]. bools. tauto.
Qed.

Lemma relation_total r :
  r ∈ relationships m -> relation_resolves (record_specification_of m) (record_relationship_of r) = true.
Proof using Hm.
  intros Hr. destruct (mwf_relationships _ (mwf_references _ Hm) r Hr) as [(a & Ha & _) _ Hte Htf].
  apply elem_of_map in Hte as (te & Hten & Hte).
  pose proof (declares_id _ (mwf_entities _ Hm) te Hte) as Hid. rewrite <- Hten, <- Htf in Hid.
  apply record_declares in Ha, Hid. unfold relation_resolves. apply andb_true_iff.
  rewrite !bool_decide_eq_true. split; eexists; [exact Ha|exact Hid].
Qed.

Lemma facet_total d :
  d ∈ discovery_facets m ->
  facet_resolves (record_specification_of m) (record_facet_of (record_entities m) d) = true.
Proof using Hm.
  intros Hd. destruct (mwf_facets _ (mwf_references _ Hm) d Hd) as [a Ha]. apply record_declares in Ha.
  unfold facet_resolves, record_facet_of; cbn [rt_entity_name rt_field_name rt_filter_mode].
  change (spec_field (record_specification_of m)) with (find_field (record_entities m)).
  rewrite Ha. by apply bool_decide_eq_true.
Qed.

Lemma make_specification_total :
  make_specification (record_specification_of m) = Ok (record_specification_of m).
Proof using Hm.
  pose proof (mwf_fields _ Hm) as Hf. unfold manifest_fields, len_ok, MAX_ENTITIES, MAX_RELATIONSHIPS,
    MAX_QUERY_PATTERNS, MAX_DISCOVERY_FACETS in Hf.
  assert (map re_name (record_entities m) = sorted_strs (map ent_name (entities m))) as Hnames.
  { unfold record_entities. by rewrite (map_keep _ _ ent_name), map_sorted_by. }
  assert (map rl_name (sp_relationships (record_specification_of m)) = sorted_strs (map rel_name (relationships m)))
    as Hrels by (cbn [sp_relationships record_specification_of]; by rewrite (map_keep _ _ rel_name), map_sorted_by).
  unfold make_specification. rewrite !contract_run; [done|..].
  - apply forallb_forall. intros t Ht%list_elem_of_In. cbn [sp_facets record_specification_of] in Ht.
    apply elem_of_map in Ht as (d & -> & Hd). apply facet_total. by apply elem_of_sorted_by in Hd.
  - apply forallb_forall. intros t Ht%list_elem_of_In. cbn [sp_relationships record_specification_of] in Ht.
    apply elem_of_map in Ht as (r & -> & Hr). apply relation_total. by apply elem_of_sorted_by in Hr.
  - cbn [sp_entities record_specification_of]. rewrite Hnames, distinct_spec, NoDup_sorted_strs.
    apply (mwf_entity_names _ (mwf_references _ Hm)).
  - unfold in_order. rewrite Hrels. cbn [sp_schema_version sp_entities sp_relationships sp_facets sp_query_patterns record_specification_of].
    rewrite Hnames. unfold record_entities. rewrite !length_map, !length_sorted_by. bools.
    rewrite !sorted_strs_fix.
    destruct Hf as [[[[[[[[[??][??]][??]][??]][??]]Hq][??]]?]?].
    split_and!; try done; try apply sorted_strs_sorted.
    + intros Hnil%map_eq_nil. apply (f_equal length) in Hnil. rewrite length_sorted_by in Hnil. cbn in Hnil. lia.
    + rewrite forallb_forall in *. intros q Hin. specialize (Hq q Hin). unfold text_ok in Hq. bools.
      split; [|tauto]. intros ->. cbn in Hq. lia.
Qed.
End specification.

Section theorem.
Context `{IsoDates} `{PublicModels}.

(** a valid manifest whose allowed texts are Unicode compiles to its record specification, and an invalid one is refused: every check the constructors of the specification run is implied by the validation of the manifest. *)
Theorem compile_record_specification_total (m : ManifestV2) :
  allowed_unicode m = true ->
  compile_record_specification m
  = if manifest_valid m then Ok (record_specification_of m) else Raise RecordContractError.
Proof.
  intros Hu. unfold compile_record_specification, manifest_valid. rewrite model_roundtrip.
  destruct (validate_manifest m) as [[]|err] eqn:Hv; [|done]. cbn [is_ok mbind result_bind].
  apply validate_manifest_spec in Hv as Hm. unfold compile_checked_record.
  rewrite (mapR_total _ record_entity_of).
  2:{ intros e. rewrite elem_of_sorted_by. intros He. apply compile_record_entity_total; [by apply Hm|].
      unfold allowed_unicode in Hu. rewrite forallb_forall in Hu.
      specialize (Hu e (proj1 (list_elem_of_In _ _) He)). rewrite forallb_forall in Hu.
      intros a Ha. by apply Hu, list_elem_of_In. }
  cbn [mbind result_bind]. fold (record_entities m). rewrite (mapR_total _ (record_facet_of (record_entities m))).
  2:{ intros d. rewrite elem_of_sorted_by. by apply compile_facet_total. }
  cbn [mbind result_bind]. rewrite (mapR_total _ record_relationship_of).
  2:{ intros r. rewrite elem_of_sorted_by. by apply record_relationship_total. }
  cbn [mbind result_bind]. fold (record_specification_of m). by apply make_specification_total.
Qed.
End theorem.

(** A concrete reading of dates for examples: only the canonical UTC form of the
    store's own texts. *)
Definition shape_dates : IsoDates := {|
  fromisoformat := fun s => if bool_decide (length s = 32%nat) then Some true else None;
  year_text := dec_Z;
  year_text_four := fun _ _ => eq_refl
|}.

Lemma compile_record_specification_total_witness :
  @compile_record_specification shape_dates plain_models shop_v1 = Ok (record_specification_of shop_v1).
Proof.
  rewrite (@compile_record_specification_total shape_dates plain_models shop_v1); [|by vm_compute].
  assert (manifest_valid shop_v1 = true) as -> by (by vm_compute). done.
Defined.
