(* ===== verification/Datetimes.v ===== *)
(** * Datetimes: the text of a point in time

    [encode_time] and [decode_time] of [storage/codecs.py] on the UTC datetimes
    the stores keep: 27 characters, refused unless the text that comes in is the
    one that would be written. *)
From S2P Require Import Prelude Values Json Records.

Record datetime := {
  dt_year : Z; dt_month : Z; dt_day : Z;
  dt_hour : Z; dt_minute : Z; dt_second : Z; dt_microsecond : Z
}.

#[export] Instance datetime_eq_dec : EqDecision datetime.
Proof. solve_decision. Defined.

Definition leap_year (y : Z) : bool := (y mod 4 =? 0) && (negb (y mod 100 =? 0) || (y mod 400 =? 0)).

Definition days_in_month (y m : Z) : Z :=
  if m =? 2 then (if leap_year y then 29 else 28)
  else if bool_decide (m ∈ [4; 6; 9; 11]) then 30 else 31.

(** What the constructor of [datetime] accepts. *)
Definition valid_datetime (t : datetime) : bool :=
  (1 <=? dt_year t) && (dt_year t <=? 9999) && (1 <=? dt_month t) && (dt_month t <=? 12)
  && (1 <=? dt_day t) && (dt_day t <=? days_in_month (dt_year t) (dt_month t))
  && (0 <=? dt_hour t) && (dt_hour t <? 24) && (0 <=? dt_minute t) && (dt_minute t <? 60)
  && (0 <=? dt_second t) && (dt_second t <? 60)
  && (0 <=? dt_microsecond t) && (dt_microsecond t <? 1000000).

(** Two datetimes of one zone compare field by field. *)
Definition fields_of_datetime (t : datetime) : list Z :=
  [dt_year t; dt_month t; dt_day t; dt_hour t; dt_minute t; dt_second t; dt_microsecond t].

Fixpoint lex_leb (a b : list Z) : bool :=
  match a, b with
  | [], _ => true
  | _ :: _, [] => false
  | x :: a', y :: b' => (x <? y) || ((x =? y) && lex_leb a' b')
  end.

Definition datetime_leb (a b : datetime) : bool := lex_leb (fields_of_datetime a) (fields_of_datetime b).

(** The [width] last digits of [n]. *)
Fixpoint padded_dec (width : nat) (n : Z) : pystr :=
  match width with
  | O => []
  | S w => padded_dec w (n / 10) ++ [Z.to_N (48 + n mod 10)]
  end.

(** [int(text)] of a run of ASCII digits. *)
Definition read_padded (s : pystr) : option Z := if forallb is_digit s then Some (Z.of_N (undec s)) else None.

Section texts.
Context `{IsoDates}.

(** [strftime("%Y-%m-%dT%H:%M:%S.%fZ")]. *)
Definition encode_time (t : datetime) : pystr :=
  year_text (dt_year t) ++ [45%N] ++ padded_dec 2 (dt_month t) ++ [45%N] ++ padded_dec 2 (dt_day t)
  ++ [84%N] ++ padded_dec 2 (dt_hour t) ++ [58%N] ++ padded_dec 2 (dt_minute t)
  ++ [58%N] ++ padded_dec 2 (dt_second t) ++ [46%N] ++ padded_dec 6 (dt_microsecond t) ++ [90%N].

(** [strptime] finds the fields of a text in canonical form at these places; a
    text of another form that it reads is refused by the comparison. *)
Definition decode_time (s : pystr) : option datetime :=
  if negb (length s =? 27)%nat then None else
  y ← read_padded (take 4 s); mo ← read_padded (take 2 (drop 5 s)); d ← read_padded (take 2 (drop 8 s));
  h ← read_padded (take 2 (drop 11 s)); mi ← read_padded (take 2 (drop 14 s));
  sec ← read_padded (take 2 (drop 17 s)); us ← read_padded (take 6 (drop 20 s));
  let t := {| dt_year := y; dt_month := mo; dt_day := d; dt_hour := h; dt_minute := mi; dt_second := sec;
              dt_microsecond := us |} in
  if valid_datetime t && bool_decide (encode_time t = s) then Some t else None.
End texts.

(** ** Reading back *)
Lemma length_padded_dec w n : length (padded_dec w n) = w.
Proof. revert n; induction w as [|w IH]; intros n; cbn [padded_dec]; [done|]. rewrite length_app, IH. cbn. lia. Qed.

Lemma padded_dec_digits w n : forallb is_digit (padded_dec w n) = true.
Proof.
  revert n; induction w as [|w IH]; intros n; cbn [padded_dec]; [done|].
  rewrite forallb_app, IH. cbn [forallb]. rewrite andb_true_r. unfold is_digit.
  pose proof (Z.mod_pos_bound n 10). bools. lia.
Qed.

Lemma undec_snoc s c : undec (s ++ [c]) = (10 * undec s + (c - 48))%N.
Proof. unfold undec. by rewrite fold_left_app. Qed.

Lemma undec_padded w n : 0 <= n < 10 ^ Z.of_nat w -> Z.of_N (undec (padded_dec w n)) = n.
Proof.
  revert n; induction w as [|w IH]; intros n Hn; cbn [padded_dec].
  { cbn in *. lia. }
  rewrite Nat2Z.inj_succ, Z.pow_succ_r in Hn by lia. rewrite undec_snoc.
  pose proof (Z.mod_pos_bound n 10). pose proof (Z.div_mod n 10).
  assert (0 <= n / 10 < 10 ^ Z.of_nat w) as Hq
    by (split; [by apply Z.div_pos; lia|by apply Z.div_lt_upper_bound; lia]).
  specialize (IH _ Hq). lia.
Qed.

Lemma read_padded_dec w n : 0 <= n < 10 ^ Z.of_nat w -> read_padded (padded_dec w n) = Some n.
Proof. intros Hn. unfold read_padded. rewrite padded_dec_digits. by rewrite undec_padded. Qed.

Lemma dec_digits_step fuel n acc :
  (10 <= n)%N -> dec_digits (S fuel) n acc = dec_digits fuel (n / 10)%N ((48 + n mod 10)%N :: acc).
Proof.
  intros Hn. cbn [dec_digits]. rewrite (proj2 (N.eqb_neq _ _)); [done|].
  pose proof (N.Div0.div_le_mono 10 n 10). change (10 / 10)%N with 1%N in *. lia.
Qed.

Lemma dec_four y : 1000 <= y <= 9999 -> dec_Z y = padded_dec 4 y.
Proof.
  intros Hy. unfold dec_Z. rewrite (proj2 (Z.ltb_ge _ _)) by lia. unfold dec_N.
  set (n := Z.to_N y). assert (N.to_nat (N.size n) >= 9)%nat as Hs.
  { assert (2 ^ 9 <= n)%N as Hn by (cbn; lia). apply N.log2_le_mono in Hn. rewrite N.log2_pow2 in Hn by lia.
    rewrite N.size_log2 by lia. lia. }
  destruct (N.to_nat (N.size n)) as [|[|[|k]]]; [lia..|].
  rewrite !dec_digits_step by (unfold n; euclid). cbn [dec_digits].
  rewrite (proj2 (N.eqb_eq _ _)) by (unfold n; euclid). cbn [padded_dec app].
  repeat f_equal; unfold n; euclid.
Qed.

Section back.
Context `{IsoDates}.

Lemma encode_time_form t :
  1000 <= dt_year t <= 9999 ->
  encode_time t
  = padded_dec 4 (dt_year t) ++ [45%N] ++ padded_dec 2 (dt_month t) ++ [45%N] ++ padded_dec 2 (dt_day t)
    ++ [84%N] ++ padded_dec 2 (dt_hour t) ++ [58%N] ++ padded_dec 2 (dt_minute t)
    ++ [58%N] ++ padded_dec 2 (dt_second t) ++ [46%N] ++ padded_dec 6 (dt_microsecond t) ++ [90%N].
Proof. intros Hy. unfold encode_time. by rewrite year_text_four, dec_four. Qed.

Lemma length_encode_time t : 1000 <= dt_year t <= 9999 -> length (encode_time t) = 27%nat.
Proof. intros Hy. rewrite encode_time_form by done. by rewrite !length_app, !length_padded_dec. Qed.

Lemma decode_encode_time t :
  valid_datetime t = true -> 1000 <= dt_year t -> decode_time (encode_time t) = Some t.
Proof.
  intros Ht Hy. assert (dt_year t <= 9999 /\ 0 <= dt_month t < 100 /\ 0 <= dt_day t < 100
    /\ 0 <= dt_hour t < 100 /\ 0 <= dt_minute t < 100 /\ 0 <= dt_second t < 100
    /\ 0 <= dt_microsecond t < 1000000) as (Hy' & Hmo & Hd & Hh & Hmi & Hs & Hus).
  { pose proof Ht as Hv. unfold valid_datetime in Hv. bools.
    assert (days_in_month (dt_year t) (dt_month t) <= 31) by (unfold days_in_month; repeat case_match; lia). lia. }
  unfold decode_time. rewrite length_encode_time by lia. cbn [Nat.eqb negb].
  assert (take 4 (encode_time t) = padded_dec 4 (dt_year t)
    /\ take 2 (drop 5 (encode_time t)) = padded_dec 2 (dt_month t)
    /\ take 2 (drop 8 (encode_time t)) = padded_dec 2 (dt_day t)
    /\ take 2 (drop 11 (encode_time t)) = padded_dec 2 (dt_hour t)
    /\ take 2 (drop 14 (encode_time t)) = padded_dec 2 (dt_minute t)
    /\ take 2 (drop 17 (encode_time t)) = padded_dec 2 (dt_second t)
    /\ take 6 (drop 20 (encode_time t)) = padded_dec 6 (dt_microsecond t)) as (-> & -> & -> & -> & -> & -> & ->)
    by (rewrite encode_time_form by lia; split_and!; reflexivity).
  rewrite !read_padded_dec by (cbn; lia). cbn [mbind option_bind].
  destruct t; cbn [dt_year dt_month dt_day dt_hour dt_minute dt_second dt_microsecond].
  by rewrite Ht, bool_decide_true.
Qed.

Lemma decode_time_encodes s t : decode_time s = Some t -> encode_time t = s /\ valid_datetime t = true.
Proof.
  unfold decode_time. destruct (negb _); [done|].
  unfold mbind, option_bind. repeat (case_match; [|discriminate]). intros [= <-].
  match goal with Hb : _ && _ = true |- _ => apply andb_true_iff in Hb as [? Hb]; by apply bool_decide_eq_true in Hb end.
Qed.
End back.
