(* ===== verification/Frozen.v ===== *)
(** * Frozen: what a frozen value is

    Freezing sorts the keys at every level and checks every scalar, so a frozen
    value is frozen again to itself, is written the same by the canonical and by
    the plain text of JSON, can be read back, and is bounded and free of lone
    surrogates. *)
From S2P Require Import Prelude Values Json JsonText Sha256 Manifest Relational.
From S2P Require Export Records RecordCompile.

Section frozen.
Context `{FloatRepr}.

(** ** Lists *)
Lemma mapR_keep {A B E} (f : A -> result E B) (l : list A) ys :
  mapR f l = Ok ys -> length ys = length l /\ forall y, y ∈ ys -> exists x, x ∈ l /\ f x = Ok y.
Proof.
  revert ys; induction l as [|x l IH]; intros ys; cbn [mapR].
  { intros [= <-]. split; [done|]. by intros y ?%elem_of_nil. }
  intros (y & Hy & (ys' & Hys & [= <-])%bind_Ok)%bind_Ok. destruct (IH _ Hys) as [Hl Hin]. split; [cbn; lia|].
  intros z [->|Hz]%elem_of_cons; [exists x; split; [by left|done]|].
  destruct (Hin z Hz) as (x' & ? & ?). exists x'. split; [by right|done].
Qed.

Lemma mapR_fixed {A E} (f : A -> result E A) (l : list A) : (forall x, x ∈ l -> f x = Ok x) -> mapR f l = Ok l.
Proof. intros Hf. rewrite (mapR_total f id) by done. by rewrite map_id. Qed.

(** Freezing the entries of an object, sorted. *)
Definition frozen_entries (entries : list (pystr * json)) : list (pystr * recorded json) :=
  sorted_by str_leb fst (map (fun e => (e.1, freeze_json e.2)) entries).

Lemma sequence_keys {A} (l : list (pystr * recorded A)) es : sequence_values l = Ok es -> map fst es = map fst l.
Proof.
  unfold sequence_values. revert es. induction l as [|[k m] l IH]; intros es; cbn [mapR].
  { by intros [= <-]. }
  intros (y & (a & _ & [= <-])%bind_Ok & (ys & Hys & [= <-])%bind_Ok)%bind_Ok. cbn [map fst].
  by rewrite (IH _ Hys).
Qed.

Lemma sequence_in {A} (l : list (pystr * recorded A)) es e :
  sequence_values l = Ok es -> e ∈ es -> (e.1, Ok e.2) ∈ l.
Proof.
  unfold sequence_values. intros Hl He. destruct (mapR_keep _ _ _ Hl) as [_ Hk].
  destruct (Hk e He) as ([k m] & Hin & (a & Ha & [= <-])%bind_Ok). cbn in *. by rewrite <- Ha.
Qed.

Lemma freeze_object entries k :
  freeze_json (JObj entries) = Ok k ->
  exists fs, k = JObj fs /\ sequence_values (frozen_entries entries) = Ok fs /\ make_frozen fs = Ok (JObj fs).
Proof.
  cbn [freeze_json]. intros (fs & Hfs & Hk)%bind_Ok. exists fs.
  assert (k = JObj fs) as ->; [|done].
  unfold make_frozen in Hk. rewrite !require_all in Hk. destruct Hk as (_ & _ & Hk).
  apply bind_Ok in Hk as (n & _ & Hk). apply require_all in Hk as [_ Hk]. congruence.
Qed.

(** An entry of a frozen object is the freezing of an entry. *)
Lemma frozen_entry entries fs e :
  sequence_values (frozen_entries entries) = Ok fs -> e ∈ fs ->
  exists j, (e.1, j) ∈ entries /\ freeze_json j = Ok e.2.
Proof.
  intros Hfs He. apply (sequence_in _ _ e Hfs) in He. unfold frozen_entries in He.
  apply elem_of_sorted_by, elem_of_map in He as ([k j] & [= Hk Hj] & He). subst. by exists j.
Qed.

Lemma freeze_frozen j k : freeze_json j = Ok k -> freeze_json k = Ok k.
Proof.
  revert k. induction j as [|v|items IH|entries IH] using json_ind'; intros k.
  - by intros [= <-].
  - cbn [freeze_json]. intros Hv. apply unit_then in Hv as [Hv [= <-]]. cbn [freeze_json]. by rewrite Hv.
  - cbn [freeze_json]. intros (fs & Hfs & [= <-])%bind_Ok. cbn [freeze_json]. rewrite mapR_fixed; [done|].
    intros x Hx. destruct (mapR_keep _ _ _ Hfs) as [_ Hk]. destruct (Hk x Hx) as (y & Hy & Hf).
    rewrite Forall_forall in IH. by apply (IH y).
  - intros (fs & -> & Hfs & Hm)%freeze_object. cbn [freeze_json]. rewrite Forall_forall in IH.
    assert (sorted_by str_leb fst (map (fun e : pystr * json => (e.1, freeze_json e.2)) fs)
            = map (fun e => (e.1, Ok e.2)) fs) as ->.
    { rewrite (map_ext_in _ (fun e => (e.1, Ok e.2))).
      - apply sorted_by_id. apply sequence_keys in Hfs. unfold frozen_entries in Hfs.
        apply (sorted_keys_sorted (fst : pystr * recorded json -> pystr)).
        rewrite (map_keep _ _ fst), Hfs by done. apply sorted_keys_sorted, sorted_by_str_sorted.
      - intros e He%list_elem_of_In. destruct (frozen_entry _ _ _ Hfs He) as (j & Hj & Hf).
        f_equal. by apply (IH (e.1, j) Hj). }
    unfold sequence_values. rewrite mapR_map. rewrite mapR_fixed; [done|]. by intros [k j] _.
Qed.

(** ** Frozen values as texts *)
Definition frozen (j : json) : Prop := freeze_json j = Ok j.

(** Every float is a binary64 datum, which a Python float always is. *)
Fixpoint floats_valid (j : json) : bool :=
  match j with
  | JNull => true
  | JScalar v => match v with PyFloat f => binary64 f | _ => true end
  | JArr items => forallb floats_valid items
  | JObj entries => forallb (fun e => floats_valid e.2) entries
  end.

Lemma freeze_floats j k : freeze_json j = Ok k -> floats_valid j = true -> floats_valid k = true.
Proof.
  revert k. induction j as [|v|items IH|entries IH] using json_ind'; intros k.
  - by intros [= <-].
  - cbn [freeze_json]. intros Hv. by apply unit_then in Hv as [_ [= <-]].
  - cbn [freeze_json floats_valid]. intros (fs & Hfs & [= <-])%bind_Ok Hi. cbn [floats_valid].
    rewrite forallb_forall in *. intros x Hx%list_elem_of_In. destruct (mapR_keep _ _ _ Hfs) as [_ Hk].
    destruct (Hk x Hx) as (y & Hy & Hf). rewrite Forall_forall in IH.
    by apply (IH y Hy x Hf), Hi, list_elem_of_In.
  - intros (fs & -> & Hfs & _)%freeze_object Hi. cbn [floats_valid] in *.
    rewrite forallb_forall in *. intros e He%list_elem_of_In. destruct (frozen_entry _ _ _ Hfs He) as (j & Hj & Hf).
    rewrite Forall_forall in IH. apply (IH (e.1, j) Hj _ Hf), (Hi (e.1, j)). by apply list_elem_of_In.
Qed.

Lemma frozen_items items : frozen (JArr items) -> forall x, x ∈ items -> frozen x.
Proof.
  unfold frozen. cbn [freeze_json]. intros (fs & Hfs & [= ->])%bind_Ok x Hx.
  destruct (mapR_keep _ _ _ Hfs) as [_ Hk]. destruct (Hk x Hx) as (y & _ & Hf). by apply (freeze_frozen y).
Qed.

Lemma frozen_fields fs : frozen (JObj fs) ->
  make_frozen fs = Ok (JObj fs) /\ forall e, e ∈ fs -> frozen e.2.
Proof.
  intros (fs' & [= <-] & Hfs & Hm)%freeze_object. split; [done|]. intros e He.
  destruct (frozen_entry _ _ _ Hfs He) as (j & _ & Hf). by apply (freeze_frozen j).
Qed.

Lemma make_frozen_spec fs k :
  make_frozen fs = Ok k <->
  k = JObj fs /\ (forall e, e ∈ fs -> e.1 <> [] /\ has_nul e.1 = false) /\ NoDup (map fst fs)
  /\ StronglySorted str_le (map fst fs)
  /\ unicode (plain_text (JObj fs)) = true
  /\ (length (utf8 (plain_text (JObj fs))) <= MAX_RECORD_JSON_BYTES)%nat.
Proof.
  unfold make_frozen, json_size. rewrite !require_all. rewrite forallb_forall, andb_true_iff, distinct_spec.
  rewrite bool_decide_eq_true, sorted_strs_fix.
  assert ((forall x, In x fs -> bool_decide (x.1 <> []) && negb (has_nul x.1) = true)
          <-> forall e, e ∈ fs -> e.1 <> [] /\ has_nul e.1 = false) as ->.
  { split; intros Hx e He; [specialize (Hx e (proj1 (list_elem_of_In _ _) He))|specialize (Hx e (proj2 (list_elem_of_In _ _) He))].
    - by rewrite andb_true_iff, bool_decide_eq_true, negb_true_iff in Hx.
    - by rewrite andb_true_iff, bool_decide_eq_true, negb_true_iff. }
  destruct (unicode (plain_text (JObj fs))); cbn [mbind result_bind].
  - rewrite require_all, Nat.leb_le. naive_solver.
  - naive_solver.
Qed.

Lemma frozen_readable k : frozen k -> floats_valid k = true -> readable k = true.
Proof.
  induction k as [|v|items IH|entries IH] using json_ind'; intros Hk Hf; [done|..].
  - unfold frozen in Hk. cbn [freeze_json] in Hk. apply unit_then in Hk as [Hk _].
    destruct v as [s|z|f|b]; [done| |done|done]. unfold validate_scalar in Hk. by apply unit_then, proj1, contract_Ok in Hk.
  - cbn [readable floats_valid] in *. rewrite forallb_forall in *. rewrite Forall_forall in IH.
    intros x Hx%list_elem_of_In. apply IH; [done|by apply (frozen_items items)|by apply Hf, list_elem_of_In].
  - cbn [readable floats_valid] in *. rewrite forallb_forall in Hf. rewrite Forall_forall in IH.
    apply frozen_fields in Hk as [Hm Hk]. apply make_frozen_spec in Hm as (_ & _ & Hd & _).
    rewrite andb_true_iff, distinct_spec, forallb_forall. split; [done|].
    intros e He%list_elem_of_In. apply IH; [done|by apply Hk|by apply Hf, list_elem_of_In].
Qed.

Lemma frozen_sorted k : frozen k -> sort_keys k = k.
Proof.
  induction k as [|v|items IH|entries IH] using json_ind'; intros Hk; cbn [sort_keys]; [done|done|..].
  - rewrite Forall_forall in IH. f_equal. rewrite (map_ext_in _ id); [by rewrite map_id|].
    intros x Hx%list_elem_of_In. apply IH; [done|]. by apply (frozen_items items).
  - apply frozen_fields in Hk as [Hm Hk]. apply make_frozen_spec in Hm as (_ & _ & _ & Hs & _).
    rewrite Forall_forall in IH. f_equal. rewrite (map_ext_in _ id).
    + rewrite map_id. apply sorted_by_id. by apply (sorted_keys_sorted (fst : pystr * json -> pystr)).
    + intros [n j] He%list_elem_of_In. cbn. f_equal. by apply (IH (n, j) He), (Hk (n, j)).
Qed.

(** A frozen object as the store writes it: the plain text, bounded. *)
Lemma frozen_text fs : frozen (JObj fs) ->
  canonical_json (JObj fs) = plain_text (JObj fs)
  /\ unicode (canonical_json (JObj fs)) = true
  /\ (length (utf8 (canonical_json (JObj fs))) <= MAX_RECORD_JSON_BYTES)%nat.
Proof.
  intros Hk. unfold canonical_json. rewrite frozen_sorted by done.
  apply frozen_fields in Hk as [Hm _]. by apply make_frozen_spec in Hm as (_ & _ & _ & _ & Hu & Hl).
Qed.

Lemma from_mapping_frozen entries fs : from_mapping entries = Ok fs <-> freeze_json (JObj entries) = Ok (JObj fs).
Proof.
  unfold from_mapping. rewrite bind_Ok. split.
  - intros (o & Ho & Hm). pose proof (freeze_object _ _ Ho) as (gs & -> & _). congruence.
  - intros Ho. by exists (JObj fs).
Qed.
End frozen.
