(* ===== verification/RecordCommands.v ===== *)
(** * RecordCommands: the commands, queries, values and outcomes of records

    [records.py], second part: every frozen dataclass with its [__post_init__]
    check.  A value is built by its [make_] function, which runs the checks in
    the order of the code; a wrong Python type has no counterpart here. *)
From S2P Require Import Prelude Values Json JsonText Manifest Relational.
From S2P Require Export Records RecordCompile Datetimes.

Definition DEFAULT_PAGE_LIMIT : Z := 50.
Definition MAX_PAGE_LIMIT : Z := 100.
Definition MAX_SEARCH_FILTERS : nat := 16.
Definition MAX_ASSIGNMENT_TARGETS : nat := 100.
Definition MAX_IDEMPOTENCY_KEY_LENGTH : nat := 128.
Definition MAX_SAMPLES_PER_ENTITY : Z := 3.
Definition MAX_MAINTENANCE_CANDIDATES : Z := 100.
Definition MAX_FACET_VALUES : nat := 20.
Definition MAX_SUMMARY_BRANCHES : nat := 100.

(** ** Enumerations *)
Inductive BranchStatus := BranchActive | BranchArchived | BranchSuperseded.
Inductive BranchRole := Primary | Related.
Inductive AssignmentOperation := Assign | Unassign.
Inductive DataFailureCode :=
| validation_failed | not_found | already_exists | changed_fingerprint | stale_record_version
| stale_branch_revision | constraint_violation | storage_migration_required | storage_busy
| operation_uncertain | storage_unavailable | write_admission_closed | internal_error.
Inductive EventKind :=
| create_event | update_event | delete_event | primary_assign | primary_move | primary_unassign
| related_assign | related_unassign.
Inductive ScanType :=
| expired | stale | low_confidence | superseded_scan | missing_authority | unbranched | duplicate_authority
| blob_candidate.

#[export] Instance BranchStatus_eq_dec : EqDecision BranchStatus.
Proof. solve_decision. Defined.
#[export] Instance BranchRole_eq_dec : EqDecision BranchRole.
Proof. solve_decision. Defined.
#[export] Instance AssignmentOperation_eq_dec : EqDecision AssignmentOperation.
Proof. solve_decision. Defined.
#[export] Instance DataFailureCode_eq_dec : EqDecision DataFailureCode.
Proof. solve_decision. Defined.
#[export] Instance EventKind_eq_dec : EqDecision EventKind.
Proof. solve_decision. Defined.
#[export] Instance ScanType_eq_dec : EqDecision ScanType.
Proof. solve_decision. Defined.

Definition status_text (s : BranchStatus) : pystr :=
  match s with
  | BranchActive => lit "active" | BranchArchived => lit "archived" | BranchSuperseded => lit "superseded"
  end.
Definition role_text (r : BranchRole) : pystr :=
  match r with Primary => lit "primary" | Related => lit "related" end.
Definition assignment_text (o : AssignmentOperation) : pystr :=
  match o with Assign => lit "assign" | Unassign => lit "unassign" end.

Definition read_status (s : pystr) : option BranchStatus :=
  List.find (fun v => bool_decide (status_text v = s)) [BranchActive; BranchArchived; BranchSuperseded].
Definition read_role (s : pystr) : option BranchRole :=
  List.find (fun v => bool_decide (role_text v = s)) [Primary; Related].

(** ** Checks *)
Definition require_entity (name : pystr) : recorded unit := contract (identifier name).
Definition require_uuid (u : UUID) : recorded unit := contract (negb (u =? 0)%N).
Definition require_revision (v : Z) : recorded unit := contract (1 <=? v).

Definition require_idempotency_key (key : pystr) : recorded unit :=
  contract ((1 <=? length key)%nat && (length key <=? MAX_IDEMPOTENCY_KEY_LENGTH)%nat
            && negb (has_nul key) && negb (startswith (lit "__aipcs_") key)).

Definition bounded_text (value : pystr) (maximum : nat) : bool :=
  bool_decide (value <> []) && (length value <=? maximum)%nat && negb (has_nul value).
Definition require_text (value : pystr) (maximum : nat) : recorded unit := contract (bounded_text value maximum).
Definition require_optional_text (value : option pystr) (maximum : nat) : recorded unit :=
  match value with Some v => require_text v maximum | None => Ok tt end.

(** [[a-z][a-z0-9-]{1,62}[a-z0-9]]. *)
Definition slug (s : pystr) : bool :=
  let alphanumeric c := is_lower c || is_digit c in
  (3 <=? length s)%nat && (length s <=? 64)%nat
  && match s with c :: _ => is_lower c | [] => false end
  && forallb (fun c => alphanumeric c || (c =? 45)%N) s
  && match last s with Some c => alphanumeric c | None => false end.
Definition require_slug (s : pystr) : recorded unit := contract (slug s).

(** [[a-z][a-z0-9_-]{0,79}]. *)
Definition branch_type_name (s : pystr) : bool :=
  (length s <=? 80)%nat
  && match s with c :: s' => is_lower c && forallb (fun c => is_ident_char c || (c =? 45)%N) s' | [] => false end.
Definition require_optional_branch_type (s : option pystr) : recorded unit :=
  match s with Some v => contract (branch_type_name v) | None => Ok tt end.

Definition no_server_names (entries : list (pystr * json)) : bool := negb (existsb server_name (map fst entries)).

Definition when_some {A} (f : A -> recorded unit) (o : option A) : recorded unit :=
  match o with Some a => f a | None => Ok tt end.

(** ** Pages *)
Definition url_safe (c : N) : bool :=
  is_lower c || ((65 <=? c) && (c <=? 90))%N || is_digit c || (c =? 95)%N || (c =? 45)%N.

Record PageCursor := { cursor_value : pystr }.
Definition make_cursor (c : PageCursor) : recorded PageCursor :=
  contract (bool_decide (cursor_value c <> []) && (length (cursor_value c) <=? 1024)%nat
            && forallb url_safe (cursor_value c)) ;;
  Ok c.

Record PageRequest := { page_limit : Z; page_cursor : option PageCursor }.
Definition make_page (p : PageRequest) : recorded PageRequest :=
  contract ((1 <=? page_limit p) && (page_limit p <=? MAX_PAGE_LIMIT)) ;; Ok p.

(** ** Commands and queries on records *)
Record CreateRecordCommand := { cr_entity : pystr; cr_record : list (pystr * json); cr_key : pystr }.
Definition make_create_record (c : CreateRecordCommand) : recorded CreateRecordCommand :=
  require_entity (cr_entity c) ;;
  contract (no_server_names (cr_record c)) ;;
  require_idempotency_key (cr_key c) ;;
  Ok c.

Record GetRecordQuery := { gr_entity : pystr; gr_record : UUID }.
Definition make_get_record (q : GetRecordQuery) : recorded GetRecordQuery :=
  require_entity (gr_entity q) ;; require_uuid (gr_record q) ;; Ok q.

(** [(branch_id is None) == (branch_role is None)] is the pair of both. *)
Record ListRecordsQuery := { lr_entity : pystr; lr_branch : option UUID; lr_role : option BranchRole; lr_page : PageRequest }.
Definition branch_filter (branch : option UUID) (role : option BranchRole) : recorded unit :=
  when_some require_uuid branch ;;
  contract (Bool.eqb (bool_decide (branch = None)) (bool_decide (role = None))).
Definition make_list_records (q : ListRecordsQuery) : recorded ListRecordsQuery :=
  require_entity (lr_entity q) ;; branch_filter (lr_branch q) (lr_role q) ;; Ok q.

Record SearchRecordsQuery := {
  sr_entity : pystr; sr_filters : list RecordFilter; sr_branch : option UUID; sr_role : option BranchRole;
  sr_page : PageRequest
}.
Definition make_search_records (q : SearchRecordsQuery) : recorded SearchRecordsQuery :=
  require_entity (sr_entity q) ;;
  contract (bool_decide (sr_filters q <> []) && (length (sr_filters q) <=? MAX_SEARCH_FILTERS)%nat
            && forallb (fun f => bool_decide (ff_entity f = sr_entity q)) (sr_filters q)
            && distinct (map ff_field (sr_filters q))) ;;
  branch_filter (sr_branch q) (sr_role q) ;;
  Ok q.

Record UpdateRecordCommand := {
  ur_entity : pystr; ur_record : UUID; ur_updates : list (pystr * json); ur_version : Z; ur_key : pystr
}.
Definition make_update_record (c : UpdateRecordCommand) : recorded UpdateRecordCommand :=
  require_entity (ur_entity c) ;; require_uuid (ur_record c) ;;
  contract (bool_decide (ur_updates c <> []) && no_server_names (ur_updates c)) ;;
  require_revision (ur_version c) ;; require_idempotency_key (ur_key c) ;;
  Ok c.

Record DeleteRecordCommand := { dr_entity : pystr; dr_record : UUID; dr_version : Z; dr_key : pystr }.
Definition make_delete_record (c : DeleteRecordCommand) : recorded DeleteRecordCommand :=
  require_entity (dr_entity c) ;; require_uuid (dr_record c) ;; require_revision (dr_version c) ;;
  require_idempotency_key (dr_key c) ;;
  Ok c.

Record RecordHistoryQuery := { hq_entity : pystr; hq_record : option UUID; hq_page : PageRequest }.
Definition make_record_history (q : RecordHistoryQuery) : recorded RecordHistoryQuery :=
  require_entity (hq_entity q) ;; when_some require_uuid (hq_record q) ;; Ok q.

(** ** Commands and queries on branches *)
Record CreateBranchCommand := {
  cb_slug : pystr; cb_title : pystr; cb_intent : pystr; cb_type : option pystr; cb_parent : option UUID;
  cb_summary : option pystr; cb_key : pystr
}.
Definition make_create_branch (c : CreateBranchCommand) : recorded CreateBranchCommand :=
  require_slug (cb_slug c) ;; require_text (cb_title c) 160 ;; require_text (cb_intent c) 1000 ;;
  require_optional_branch_type (cb_type c) ;; when_some require_uuid (cb_parent c) ;;
  require_optional_text (cb_summary c) 1000 ;; require_idempotency_key (cb_key c) ;;
  Ok c.

Record ListBranchesQuery := {
  lb_status : option BranchStatus; lb_type : option pystr; lb_parent : option UUID; lb_page : PageRequest
}.
Definition make_list_branches (q : ListBranchesQuery) : recorded ListBranchesQuery :=
  require_optional_branch_type (lb_type q) ;; when_some require_uuid (lb_parent q) ;; Ok q.

Record UpdateBranchCommand := {
  ub_branch : UUID; ub_updates : list (pystr * json); ub_revision : Z; ub_key : pystr
}.

Definition str_value (check : pystr -> bool) (j : json) : bool :=
  match j with JScalar (PyStr s) => check s | _ => false end.
Definition optional_str_value (check : pystr -> bool) (j : json) : bool :=
  match j with JNull => true | _ => str_value check j end.

(** What the update of one attribute of a branch may be. *)
Definition branch_update_ok (e : pystr * json) : bool :=
  if bool_decide (e.1 = lit "title") then str_value (fun s => bounded_text s 160) e.2
  else if bool_decide (e.1 = lit "intent") then str_value (fun s => bounded_text s 1000) e.2
  else if bool_decide (e.1 = lit "branch_type") then optional_str_value branch_type_name e.2
  else if bool_decide (e.1 = lit "retrieval_summary") then optional_str_value (fun s => bounded_text s 1000) e.2
  else if bool_decide (e.1 = lit "parent_branch_id") then optional_str_value canonical_uuid e.2
  else if bool_decide (e.1 = lit "status") then str_value (fun s => bool_decide (is_Some (read_status s))) e.2
  else false.

Definition make_update_branch (c : UpdateBranchCommand) : recorded UpdateBranchCommand :=
  require_uuid (ub_branch c) ;; require_revision (ub_revision c) ;; require_idempotency_key (ub_key c) ;;
  contract (bool_decide (ub_updates c <> [])) ;;
  contract (forallb branch_update_ok (ub_updates c)) ;;
  Ok c.

Record BranchAssignmentTarget := { bt_entity : pystr; bt_record : UUID; bt_version : Z }.
Definition make_target (t : BranchAssignmentTarget) : recorded BranchAssignmentTarget :=
  require_entity (bt_entity t) ;; require_uuid (bt_record t) ;; require_revision (bt_version t) ;; Ok t.

Record AssignBranchRecordsCommand := {
  ab_branch : UUID; ab_role : BranchRole; ab_operation : AssignmentOperation;
  ab_targets : list BranchAssignmentTarget; ab_key : pystr
}.
Definition make_assign (c : AssignBranchRecordsCommand) : recorded AssignBranchRecordsCommand :=
  require_uuid (ab_branch c) ;;
  contract (bool_decide (ab_targets c <> []) && (length (ab_targets c) <=? MAX_ASSIGNMENT_TARGETS)%nat
            && distinct (map (fun t => (bt_entity t, bt_record t)) (ab_targets c))) ;;
  require_idempotency_key (ab_key c) ;;
  Ok c.

(** ** Discovery queries *)
Record SummaryQuery := { sm_sample_sizes : list (pystr * Z) }.
Definition make_summary (q : SummaryQuery) : recorded SummaryQuery :=
  contract (length (sm_sample_sizes q) <=? 32)%nat ;;
  mapR (fun e : pystr * Z => require_entity e.1 ;; contract ((0 <=? e.2) && (e.2 <=? MAX_SAMPLES_PER_ENTITY)))
    (sm_sample_sizes q) ;;
  contract (in_order (map fst (sm_sample_sizes q)) && distinct (map fst (sm_sample_sizes q))) ;;
  Ok q.

(** [low_confidence_below] is an int or a finite float between 0 and 1. *)
Record MaintenanceQuery := {
  mq_scan_types : list ScanType; mq_entity : option pystr; mq_branch : option UUID;
  mq_max_candidates : Z; mq_stale_after_days : Z; mq_low_confidence_below : scalar
}.
Definition unit_interval (v : scalar) : bool :=
  match v with
  | PyInt z => (0 <=? z) && (z <=? 1)
  | PyFloat f => isfinite f && SFleb (S754_zero false) f && SFleb f (S754_finite false 4503599627370496 (-52))
  | _ => false
  end.

Example unit_interval_bounds :
  unit_interval (PyFloat (S754_finite false 4503599627370496 (-52))) = true
  /\ unit_interval (PyFloat (S754_finite false 6755399441055744 (-52))) = false
  /\ unit_interval (PyFloat (S754_finite false 4503599627370496 (-53))) = true.
Proof. by vm_compute. Qed.

Definition make_maintenance (q : MaintenanceQuery) : recorded MaintenanceQuery :=
  contract (bool_decide (mq_scan_types q <> []) && (length (mq_scan_types q) <=? 8)%nat && distinct (mq_scan_types q)
            && (1 <=? mq_max_candidates q) && (mq_max_candidates q <=? MAX_MAINTENANCE_CANDIDATES)) ;;
  when_some require_entity (mq_entity q) ;;
  when_some require_uuid (mq_branch q) ;;
  contract ((1 <=? mq_stale_after_days q) && (mq_stale_after_days q <=? 3650)) ;;
  contract (unit_interval (mq_low_confidence_below q)) ;;
  Ok q.

(** ** Values *)
Record RecordValue := {
  rv_entity : pystr; rv_id : UUID; rv_version : Z; rv_created_at : datetime; rv_updated_at : datetime;
  rv_created_via : pystr; rv_fields : list (pystr * json)
}.
Definition make_record_value (v : RecordValue) : recorded RecordValue :=
  require_entity (rv_entity v) ;; require_uuid (rv_id v) ;; require_revision (rv_version v) ;;
  contract (datetime_leb (rv_created_at v) (rv_updated_at v)) ;;
  require_text (rv_created_via v) 128 ;;
  contract (no_server_names (rv_fields v)) ;;
  Ok v.

Record RecordHistoryEvent := {
  he_entity : pystr; he_id : UUID; he_version : Z; he_kind : EventKind; he_occurred_at : datetime;
  he_before : option (list (pystr * json)); he_after : option (list (pystr * json))
}.
Definition make_history_event (e : RecordHistoryEvent) : recorded RecordHistoryEvent :=
  require_entity (he_entity e) ;; require_uuid (he_id e) ;; require_revision (he_version e) ;;
  contract (match he_kind e with
            | create_event => bool_decide (he_before e = None) && bool_decide (he_after e <> None)
            | delete_event => bool_decide (he_before e <> None) && bool_decide (he_after e = None)
            | _ => true
            end) ;;
  Ok e.

Record BranchValue := {
  bv_id : UUID; bv_slug : pystr; bv_title : pystr; bv_intent : pystr; bv_type : option pystr;
  bv_parent : option UUID; bv_status : BranchStatus; bv_summary : option pystr;
  bv_created_at : datetime; bv_updated_at : datetime; bv_revision : Z
}.
Definition make_branch (b : BranchValue) : recorded BranchValue :=
  require_uuid (bv_id b) ;; require_slug (bv_slug b) ;; require_text (bv_title b) 160 ;;
  require_text (bv_intent b) 1000 ;; require_optional_branch_type (bv_type b) ;;
  when_some require_uuid (bv_parent b) ;; require_optional_text (bv_summary b) 1000 ;;
  contract (datetime_leb (bv_created_at b) (bv_updated_at b)) ;;
  require_revision (bv_revision b) ;;
  Ok b.

(** ** Pages and outcomes *)
Record RecordPage := { rp_records : list RecordValue; rp_next : option PageCursor }.
Definition make_record_page (p : RecordPage) : recorded RecordPage :=
  contract (Z.of_nat (length (rp_records p)) <=? MAX_PAGE_LIMIT) ;; Ok p.

Record HistoryPage := { hp_events : list RecordHistoryEvent; hp_next : option PageCursor }.
Definition make_history_page (p : HistoryPage) : recorded HistoryPage :=
  contract (Z.of_nat (length (hp_events p)) <=? MAX_PAGE_LIMIT) ;; Ok p.

Record BranchPage := { bp_branches : list BranchValue; bp_next : option PageCursor }.
Definition make_branch_page (p : BranchPage) : recorded BranchPage :=
  contract (Z.of_nat (length (bp_branches p)) <=? MAX_PAGE_LIMIT) ;; Ok p.

Record RecordMutationOutcome := { rm_record : option RecordValue; rm_replayed : bool }.

Record DeleteRecordOutcome := { do_id : UUID; do_version : Z; do_replayed : bool }.
Definition make_delete_outcome (o : DeleteRecordOutcome) : recorded DeleteRecordOutcome :=
  require_uuid (do_id o) ;; require_revision (do_version o) ;; Ok o.

Record BranchMutationOutcome := { bm_branch : BranchValue; bm_replayed : bool }.

Record AssignedRecordRef := { ar_entity : pystr; ar_id : UUID; ar_version : Z }.
Definition make_assigned (r : AssignedRecordRef) : recorded AssignedRecordRef :=
  require_entity (ar_entity r) ;; require_uuid (ar_id r) ;; require_revision (ar_version r) ;; Ok r.

Record BranchAssignmentOutcome := { ba_records : list AssignedRecordRef; ba_replayed : bool }.
Definition make_assignment_outcome (o : BranchAssignmentOutcome) : recorded BranchAssignmentOutcome :=
  contract (bool_decide (ba_records o <> []) && (length (ba_records o) <=? MAX_ASSIGNMENT_TARGETS)%nat) ;; Ok o.

(** ** Summaries *)
Record FacetValue := { fv_value : json; fv_count : Z }.
Definition make_facet_value (f : FacetValue) : recorded FacetValue :=
  contract (match fv_value f with JNull => true | JScalar v => is_scalar_json v | _ => false end && (0 <=? fv_count f)) ;;
  Ok f.

Record FacetObservation := { fo_entity : pystr; fo_field : pystr; fo_values : list FacetValue }.
Definition make_facet_observation (f : FacetObservation) : recorded FacetObservation :=
  require_entity (fo_entity f) ;; require_entity (fo_field f) ;;
  contract (length (fo_values f) <=? MAX_FACET_VALUES)%nat ;; Ok f.

Record BranchCard := { bc_branch : BranchValue; bc_primary : Z; bc_related : Z }.
Definition make_branch_card (c : BranchCard) : recorded BranchCard :=
  contract ((0 <=? bc_primary c) && (0 <=? bc_related c)) ;; Ok c.

Inductive DataStatus := data_ready | data_migration_required.

Record ServiceSummary := {
  ss_status : DataStatus; ss_counts : list (pystr * Z); ss_unbranched : Z; ss_facets : list FacetObservation;
  ss_branches : list BranchCard; ss_samples : list (pystr * list RecordValue)
}.
Definition make_service_summary (s : ServiceSummary) : recorded ServiceSummary :=
  contract (0 <=? ss_unbranched s) ;;
  contract (length (ss_branches s) <=? MAX_SUMMARY_BRANCHES)%nat ;;
  mapR (fun e : pystr * Z => require_entity e.1 ;; contract (0 <=? e.2)) (ss_counts s) ;;
  contract (in_order (map fst (ss_counts s)) && distinct (map fst (ss_counts s))) ;;
  mapR (fun e : pystr * list RecordValue =>
          require_entity e.1 ;;
          contract ((Z.of_nat (length e.2) <=? MAX_SAMPLES_PER_ENTITY)
                    && forallb (fun r => bool_decide (rv_entity r = e.1)) e.2)) (ss_samples s) ;;
  contract (in_order (map fst (ss_samples s)) && distinct (map fst (ss_samples s))) ;;
  Ok s.

Record MaintenanceCandidate := {
  mc_scan : ScanType; mc_entity : pystr; mc_id : UUID; mc_detail : list (pystr * json)
}.
Definition make_candidate (c : MaintenanceCandidate) : recorded MaintenanceCandidate :=
  require_entity (mc_entity c) ;; require_uuid (mc_id c) ;; Ok c.

Definition scan_text (s : ScanType) : pystr :=
  match s with
  | expired => lit "expired" | stale => lit "stale" | low_confidence => lit "low_confidence"
  | superseded_scan => lit "superseded" | missing_authority => lit "missing_authority"
  | unbranched => lit "unbranched" | duplicate_authority => lit "duplicate_authority"
  | blob_candidate => lit "blob_candidate"
  end.

Record MaintenanceResult := { ms_candidates : list MaintenanceCandidate; ms_unavailable : list ScanType }.
Definition make_maintenance_result (r : MaintenanceResult) : recorded MaintenanceResult :=
  contract ((Z.of_nat (length (ms_candidates r)) <=? MAX_MAINTENANCE_CANDIDATES)
            && in_order (map scan_text (ms_unavailable r)) && distinct (ms_unavailable r)) ;;
  Ok r.

(** ** Inversion of the constructors *)
Lemma make_record_value_spec v w :
  make_record_value v = Ok w <->
  w = v /\ identifier (rv_entity v) = true /\ rv_id v <> 0%N /\ 1 <= rv_version v
  /\ datetime_leb (rv_created_at v) (rv_updated_at v) = true /\ bounded_text (rv_created_via v) 128 = true
  /\ no_server_names (rv_fields v) = true.
Proof.
  unfold make_record_value, require_entity, require_uuid, require_revision, require_text.
  rewrite !require_all, negb_true_iff, N.eqb_neq, Z.leb_le. naive_solver.
Qed.
