(* ===== verification/RecordTables.v ===== *)
(** * RecordTables: the tables of a service store and their statements

    The domain tables of a materialised service and the four R3 tables of
    [storage/sqlite/service_store_migrations.py], with the statements that
    [data_store.py] and [topology.py] execute on them.  A statement that the
    constraints of its table refuse raises [IntegrityError] and writes nothing.
    Server-managed columns hold typed values, domain columns SQLite values. *)
From S2P Require Export Txn RecordCommands.
From S2P Require Import Prelude Values Json JsonText Sha256 Manifest.

(** ** Values and rows *)
Inductive sqlval := SqlNull | SqlInteger (z : Z) | SqlReal (f : spec_float) | SqlText (s : pystr).

#[export] Instance sqlval_eq_dec : EqDecision sqlval.
Proof. solve_decision. Defined.

(** [a = b] of SQLite, for values of one storage class; NULL equals nothing. *)
Definition sql_eqb (a b : sqlval) : bool :=
  match a, b with
  | SqlInteger x, SqlInteger y => x =? y
  | SqlReal x, SqlReal y => SFeqb x y
  | SqlText x, SqlText y => bool_decide (x = y)
  | _, _ => false
  end.

(** [PRAGMA table_xinfo] and [PRAGMA foreign_key_list], without their ordinals. *)
Record column_info := {
  ci_name : pystr; ci_type : pystr; ci_notnull : bool; ci_default : option pystr; ci_pk : Z; ci_hidden : Z
}.
Record foreign_key := {
  fk_table : pystr; fk_from : pystr; fk_to : pystr; fk_on_update : pystr; fk_on_delete : pystr; fk_match : pystr
}.

(** A row of a domain table, under its [id]. *)
Record row := {
  r_owner_id : pystr; r_created_at : datetime; r_updated_at : datetime; r_created_via : pystr;
  r_record_version : Z; r_domain : gmap pystr sqlval
}.

Record table := {
  t_columns : list column_info; t_foreign_keys : list foreign_key; t_unique : list (list pystr);
  t_rows : gmap UUID row
}.

(** [__aipcs_record_mutation], under principal and idempotency key. *)
Record mutation := { mu_kind : pystr; mu_fingerprint : pystr; mu_result : pystr; mu_completed_at : datetime }.

(** [__aipcs_record_history]. *)
Record history_row := {
  h_sequence : Z; h_principal : pystr; h_entity : pystr; h_record : UUID; h_version : Z; h_kind : EventKind;
  h_before : option pystr; h_after : option pystr; h_occurred_at : datetime
}.

(** [__aipcs_memory_branch], under its [id]. *)
Record branch_row := {
  b_principal : pystr; b_slug : pystr; b_title : pystr; b_intent : pystr; b_type : option pystr;
  b_parent : option UUID; b_status : BranchStatus; b_summary : option pystr; b_revision : Z;
  b_created_at : datetime; b_updated_at : datetime
}.

(** [__aipcs_record_branch], under principal, entity, record and branch. *)
Record membership := { m_role : BranchRole; m_assigned_at : datetime }.
Abbreviation member_key := (pystr * pystr * UUID * UUID)%type.

Record store := {
  st_tables : gmap pystr table;
  st_mutations : gmap (pystr * pystr) mutation;
  st_history : list history_row;
  st_branches : gmap UUID branch_row;
  st_members : gmap member_key membership
}.

Definition with_tables (f : gmap pystr table -> gmap pystr table) (s : store) : store :=
  {| st_tables := f (st_tables s); st_mutations := st_mutations s; st_history := st_history s;
     st_branches := st_branches s; st_members := st_members s |}.
Definition with_mutations (f : gmap (pystr * pystr) mutation -> gmap (pystr * pystr) mutation) (s : store) : store :=
  {| st_tables := st_tables s; st_mutations := f (st_mutations s); st_history := st_history s;
     st_branches := st_branches s; st_members := st_members s |}.
Definition with_history (f : list history_row -> list history_row) (s : store) : store :=
  {| st_tables := st_tables s; st_mutations := st_mutations s; st_history := f (st_history s);
     st_branches := st_branches s; st_members := st_members s |}.
Definition with_branches (f : gmap UUID branch_row -> gmap UUID branch_row) (s : store) : store :=
  {| st_tables := st_tables s; st_mutations := st_mutations s; st_history := st_history s;
     st_branches := f (st_branches s); st_members := st_members s |}.
Definition with_members (f : gmap member_key membership -> gmap member_key membership) (s : store) : store :=
  {| st_tables := st_tables s; st_mutations := st_mutations s; st_history := st_history s;
     st_branches := st_branches s; st_members := f (st_members s) |}.

Definition with_rows (f : gmap UUID row -> gmap UUID row) (t : table) : table :=
  {| t_columns := t_columns t; t_foreign_keys := t_foreign_keys t; t_unique := t_unique t; t_rows := f (t_rows t) |}.

Definition table_rows (s : store) (entity : pystr) : gmap UUID row :=
  match st_tables s !! entity with Some t => t_rows t | None => ∅ end.

(** ** Exceptions *)
Inductive fault :=
| ConstraintViolation | MigrationFault | BusyFault
| IntegrityError | DatabaseError (busy : bool) | UnavailableFault | OtherFault.

#[export] Instance fault_eq_dec : EqDecision fault.
Proof. solve_decision. Defined.

Abbreviation stx := (txn store fault).

(** Binding a text with a lone surrogate raises [UnicodeEncodeError]. *)
Definition bind_texts (texts : list pystr) : stx unit := raise_when (negb (forallb unicode texts)) OtherFault.

(** ** Domain tables *)
Section statements.
Context `{IsoDates}.

Definition cell (id : UUID) (r : row) (column : pystr) : sqlval :=
  if bool_decide (column = lit "id") then SqlText (uuid_str id)
  else if bool_decide (column = lit "owner_id") then SqlText (r_owner_id r)
  else if bool_decide (column = lit "created_at") then SqlText (encode_time (r_created_at r))
  else if bool_decide (column = lit "updated_at") then SqlText (encode_time (r_updated_at r))
  else if bool_decide (column = lit "created_via") then SqlText (r_created_via r)
  else if bool_decide (column = lit "record_version") then SqlInteger (r_record_version r)
  else default SqlNull (r_domain r !! column).

Definition not_null_ok (t : table) (id : UUID) (r : row) : bool :=
  forallb (fun c => negb (ci_notnull c && bool_decide (cell id r (ci_name c) = SqlNull))) (t_columns t).

(** No other row agrees on the columns of a unique index; NULLs differ. *)
Definition unique_ok (t : table) (id : UUID) (r : row) : bool :=
  forallb (fun columns =>
    forallb (fun other : UUID * row =>
      bool_decide (other.1 = id)
      || negb (forallb (fun c => sql_eqb (cell other.1 other.2 c) (cell id r c)) columns))
    (map_to_list (t_rows t))) (t_unique t).

(** Some row of [rows] has the value in the column. *)
Definition has_value (rows : gmap UUID row) (column : pystr) (v : sqlval) : bool :=
  existsb (fun e : UUID * row => sql_eqb (cell e.1 e.2 column) v) (map_to_list rows).

(** The foreign keys of a row, once it is in the table. *)
Definition references_ok (s : store) (t : table) (id : UUID) (r : row) : bool :=
  forallb (fun k => match cell id r (fk_from k) with
                    | SqlNull => true
                    | v => has_value (table_rows s (fk_table k)) (fk_to k) v
                    end) (t_foreign_keys t).

(** No row refers to the columns of [r] that the change takes away. *)
Definition restrict_ok (s : store) (entity : pystr) (id : UUID) (r : row) (gone : pystr -> bool) : bool :=
  forallb (fun e : pystr * table =>
    forallb (fun k => negb (bool_decide (fk_table k = entity) && gone (fk_to k)
                            && has_value (t_rows e.2) (fk_from k) (cell id r (fk_to k))))
      (t_foreign_keys e.2)) (map_to_list (st_tables s)).

Definition put_row (entity : pystr) (id : UUID) (r : row) : store -> store :=
  with_tables (alter (with_rows <[id := r]>) entity).
Definition drop_row (entity : pystr) (id : UUID) : store -> store :=
  with_tables (alter (with_rows (delete id)) entity).

Definition the_table (entity : pystr) : stx table :=
  t ← reading (fun s => st_tables s !! entity);
  match t with Some t => ret t | None => raise (DatabaseError false) end.

(** [INSERT INTO entity]. *)
Definition insert_row (entity : pystr) (id : UUID) (r : row) : stx unit :=
  t ← the_table entity;
  ok ← reading (fun s => bool_decide (t_rows t !! id = None) && not_null_ok t id r && unique_ok t id r
                         && references_ok (put_row entity id r s) t id r);
  raise_when (negb ok) IntegrityError ;;
  writing (put_row entity id r).

(** [UPDATE entity SET ... WHERE id=? AND owner_id=? AND record_version=?]; the
    row count. *)
Definition update_row (entity : pystr) (id : UUID) (owner : pystr) (version : Z) (f : row -> row) : stx bool :=
  t ← the_table entity;
  match t_rows t !! id with
  | Some old =>
      if bool_decide (r_owner_id old = owner) && (r_record_version old =? version) then
        let new := f old in
        ok ← reading (fun s =>
               let s' := put_row entity id new s in
               not_null_ok t id new && unique_ok t id new && references_ok s' t id new
               && restrict_ok s' entity id old
                    (fun c => negb (bool_decide (cell id new c = cell id old c))));
        raise_when (negb ok) IntegrityError ;;
        writing (put_row entity id new) ;;
        ret true
      else ret false
  | None => ret false
  end.

(** [DELETE FROM entity WHERE id=? AND owner_id=? AND record_version=?]. *)
Definition delete_row (entity : pystr) (id : UUID) (owner : pystr) (version : Z) : stx bool :=
  t ← the_table entity;
  match t_rows t !! id with
  | Some old =>
      if bool_decide (r_owner_id old = owner) && (r_record_version old =? version) then
        ok ← reading (fun s => restrict_ok (drop_row entity id s) entity id old (fun _ => true));
        raise_when (negb ok) IntegrityError ;;
        writing (drop_row entity id) ;;
        ret true
      else ret false
  | None => ret false
  end.

(** ** The R3 tables *)

(** The CHECK on every stored time. *)
Definition stored_time (t : datetime) : bool :=
  let s := encode_time t in
  (length s =? 27)%nat && bool_decide (s !! 10%nat = Some 84%N) && bool_decide (s !! 19%nat = Some 46%N)
  && bool_decide (s !! 26%nat = Some 90%N).

Definition fits (maximum : nat) (text : pystr) : bool := (length (utf8 text) <=? maximum)%nat.
Definition MAX_RESULT_BYTES : nat := 1024 * 1024.

Definition insert_mutation (principal key : pystr) (m : mutation) : stx unit :=
  fresh ← reading (fun s => bool_decide (st_mutations s !! (principal, key) = None));
  raise_when (negb (fresh && (1 <=? length key)%nat && (length key <=? 128)%nat
                    && (1 <=? length (mu_kind m))%nat && (length (mu_kind m) <=? 64)%nat
                    && valid_sha256 (mu_fingerprint m) && fits MAX_RESULT_BYTES (mu_result m)
                    && stored_time (mu_completed_at m))) IntegrityError ;;
  writing (with_mutations <[(principal, key) := m]>).

Definition same_version (a b : history_row) : bool :=
  bool_decide (h_principal a = h_principal b) && bool_decide (h_entity a = h_entity b)
  && (h_record a =? h_record b)%N && (h_version a =? h_version b).

(** The rowid SQLite gives a row: one more than the largest. *)
Definition next_sequence (s : store) : Z := 1 + foldr (fun h m => Z.max (h_sequence h) m) 0 (st_history s).

Definition insert_history (h : Z -> history_row) : stx unit :=
  seq ← reading next_sequence;
  let new := h seq in
  fresh ← reading (fun s => negb (existsb (same_version new) (st_history s)));
  raise_when (negb (fresh && (0 <? h_version new)
                    && match h_before new with Some t => fits MAX_RECORD_JSON_BYTES t | None => true end
                    && match h_after new with Some t => fits MAX_RECORD_JSON_BYTES t | None => true end
                    && stored_time (h_occurred_at new))) IntegrityError ;;
  writing (with_history (fun l => l ++ [new])).

Definition slug_taken (s : store) (principal slug : pystr) : bool :=
  existsb (fun e : UUID * branch_row => bool_decide (b_principal e.2 = principal) && bool_decide (b_slug e.2 = slug))
    (map_to_list (st_branches s)).

Definition parent_ok (s : store) (parent : option UUID) : bool :=
  match parent with Some p => bool_decide (is_Some (st_branches s !! p)) | None => true end.

Definition insert_branch (id : UUID) (b : branch_row) : stx unit :=
  ok ← reading (fun s => bool_decide (st_branches s !! id = None) && negb (slug_taken s (b_principal b) (b_slug b))
                         && parent_ok (with_branches <[id := b]> s) (b_parent b));
  raise_when (negb (ok && (0 <? b_revision b) && stored_time (b_created_at b) && stored_time (b_updated_at b)))
    IntegrityError ;;
  writing (with_branches <[id := b]>).

Definition update_branch_row (id : UUID) (principal : pystr) (revision : Z) (f : branch_row -> branch_row) : stx bool :=
  found ← reading (fun s => st_branches s !! id);
  match found with
  | Some old =>
      if bool_decide (b_principal old = principal) && (b_revision old =? revision) then
        let new := f old in
        ok ← reading (fun s => parent_ok s (b_parent new));
        raise_when (negb (ok && (0 <? b_revision new) && stored_time (b_updated_at new))) IntegrityError ;;
        writing (with_branches <[id := new]>) ;;
        ret true
      else ret false
  | None => ret false
  end.

(** The branches a record is a member of. *)
Definition memberships (s : store) (principal entity : pystr) (record : UUID) : list (UUID * membership) :=
  omap (fun e : member_key * membership =>
          let '(p, n, r, b) := e.1 in
          if bool_decide (p = principal) && bool_decide (n = entity) && (r =? record)%N then Some (b, e.2) else None)
    (map_to_list (st_members s)).

Definition primary_of (s : store) (principal entity : pystr) (record : UUID) : option UUID :=
  head (omap (fun e : UUID * membership => if bool_decide (m_role e.2 = Primary) then Some e.1 else None)
          (memberships s principal entity record)).

Definition insert_member (k : member_key) (m : membership) : stx unit :=
  let '(principal, entity, record, branch) := k in
  ok ← reading (fun s => bool_decide (st_members s !! k = None) && bool_decide (is_Some (st_branches s !! branch))
                         && negb (bool_decide (m_role m = Primary)
                                  && bool_decide (primary_of s principal entity record <> None)));
  raise_when (negb (ok && stored_time (m_assigned_at m))) IntegrityError ;;
  writing (with_members <[k := m]>).

Definition delete_member (k : member_key) : stx unit := writing (with_members (delete k)).

(** [DELETE ... WHERE principal_id=? AND entity_name=? AND record_id=?] and a
    condition on the rest. *)
Definition delete_members (principal entity : pystr) (record : UUID) (p : membership -> bool) : stx unit :=
  writing (with_members (filter (fun e : member_key * membership =>
    let '(p', n, r, _) := e.1 in
    ~ (p' = principal /\ n = entity /\ r = record /\ p e.2 = true)))).
End statements.
