(* ===== verification/RecordCodecs.v ===== *)
(** * RecordCodecs: what the record store writes and reads

    The encoding of fields, records, results and history of
    [storage/sqlite/data_store.py].  Reading never trusts what it reads: a row
    is validated again and a text must be the one that would be written, and
    any exception on the way is [StorageUnavailable]. *)
From S2P Require Export RecordTables Frozen.
From S2P Require Import Prelude Values Json JsonText Sha256 Manifest.

Definition MAX_REVISION : Z := 2 ^ 63 - 1.

(** [float(z)] for [|z| <= 2^53], which is exact: the mantissa is shifted to 53
    bits; only [2^53] itself has one more. *)
Definition exact_float (s : bool) (m : positive) : spec_float :=
  let d := digits2_pos m in
  if (d <=? 53)%positive
  then S754_finite s (Nat.iter (53 - Pos.to_nat d) xO m) (Z.pos d - 53)
  else S754_finite s (Pos.div2 m) 1.
Definition float_of_Z (z : Z) : spec_float :=
  match z with Z0 => S754_zero false | Zpos m => exact_float false m | Zneg m => exact_float true m end.

(** [float(value)] of a number. *)
Definition to_float (v : scalar) : scalar := match v with PyInt z => PyFloat (float_of_Z z) | _ => v end.

(** [list(value)]. *)
Definition py_list (j : json) : option (list json) :=
  match j with
  | JArr items => Some items
  | JObj entries => Some (map (fun e => JScalar (PyStr e.1)) entries)
  | JScalar (PyStr s) => Some (map (fun c => JScalar (PyStr [c])) s)
  | _ => None
  end.

(** A value as a parameter of a statement: SQLite has no type for a list. *)
Definition bound_value (j : json) : result fault sqlval :=
  match j with
  | JNull => Ok SqlNull
  | JScalar (PyStr s) => if unicode s then Ok (SqlText s) else Raise OtherFault
  | JScalar (PyInt z) => if is_signed_64_integer (PyInt z) then Ok (SqlInteger z) else Raise OtherFault
  | JScalar (PyBool b) => Ok (SqlInteger (Z.b2z b))
  | JScalar (PyFloat f) => Ok (SqlReal f)
  | _ => Raise (DatabaseError false)
  end.

(** Objects with exactly these keys. *)
Definition exact_keys (keys : list pystr) (j : json) : option (list (pystr * json)) :=
  match j with
  | JObj es => if subset_of (map fst es) keys && subset_of keys (map fst es) then Some es else None
  | _ => None
  end.
Definition as_str (j : json) : option pystr := match j with JScalar (PyStr s) => Some s | _ => None end.
Definition as_int (j : json) : option Z := match j with JScalar (PyInt z) => Some z | _ => None end.
Definition get_str (es : list (pystr * json)) (k : pystr) : option pystr := j ← dict_get es k; as_str j.
Definition get_int (es : list (pystr * json)) (k : pystr) : option Z := j ← dict_get es k; as_int j.
Definition get_uuid (es : list (pystr * json)) (k : pystr) : option UUID := s ← get_str es k; parse_uuid s.

(** [_revision]. *)
Definition revision (v : Z) : option Z := if (1 <=? v) && (v <=? MAX_REVISION) then Some v else None.

Definition ok_of {E A} (m : result E A) : option A := match m with Ok a => Some a | Raise _ => None end.
Definition trusted {A} (o : option A) : result fault A := match o with Some a => Ok a | None => Raise UnavailableFault end.

Definition jstr (s : pystr) : json := JScalar (PyStr s).
Definition jint (z : Z) : json := JScalar (PyInt z).
Definition joption {A} (f : A -> json) (o : option A) : json := match o with Some a => f a | None => JNull end.

Section codecs.
Context `{FloatRead} `{IsoDates}.

(** ** Fields *)
Definition encode_field (f : RecordField) (value : json) : result fault sqlval :=
  match value with
  | JNull => Ok SqlNull
  | _ =>
      match fd_type f with
      | TBoolean => match value with JScalar (PyBool b) => Ok (SqlInteger (Z.b2z b)) | _ => Raise OtherFault end
      | TInteger =>
          match value with
          | JScalar v => if is_signed_64_integer v then bound_value value else Raise OtherFault
          | _ => Raise OtherFault
          end
      | TNumber =>
          match value with
          | JScalar v => if is_exact_number v then bound_value (JScalar (to_float v)) else Raise OtherFault
          | _ => Raise OtherFault
          end
      | TStringList =>
          match py_list value with
          | Some items => bound_value (jstr (canonical_json (JArr items)))
          | None => Raise OtherFault
          end
      | _ => bound_value value
      end
  end.

Definition decode_field (f : RecordField) (v : sqlval) : option json :=
  match v with
  | SqlNull => Some JNull
  | _ =>
      match fd_type f with
      | TBoolean =>
          match v with SqlInteger z => if (z =? 0) || (z =? 1) then Some (JScalar (PyBool (z =? 1))) else None | _ => None end
      | TInteger =>
          match v with SqlInteger z => if is_signed_64_integer (PyInt z) then Some (jint z) else None | _ => None end
      | TNumber =>
          match v with
          | SqlInteger z => if is_exact_number (PyInt z) then Some (JScalar (to_float (PyInt z))) else None
          | SqlReal x => if is_exact_number (PyFloat x) then Some (JScalar (PyFloat x)) else None
          | _ => None
          end
      | TStringList =>
          match v with
          | SqlText s => match decode_canonical_json s with Some (JArr items) => Some (JArr items) | _ => None end
          | _ => None
          end
      | _ => match v with SqlText s => Some (jstr s) | _ => None end
      end
  end.

(** [_normalise_fields]: every field, numbers as floats. *)
Definition normal_value (f : RecordField) (value : json) : recorded json :=
  match value with
  | JNull => Ok JNull
  | _ =>
      match fd_type f with
      | TNumber =>
          match value with
          | JScalar v => contract (is_exact_number v) ;; Ok (JScalar (to_float v))
          | _ => Raise RecordContractError
          end
      | TStringList => match py_list value with Some items => Ok (JArr items) | None => Raise LookupFault end
      | _ => Ok value
      end
  end.

Definition normalise_fields (sp : RecordSpecification) (entity_name : pystr) (fields : list (pystr * json))
  : recorded (list (pystr * json)) :=
  match spec_entity sp entity_name with
  | None => Raise RecordContractError
  | Some e =>
      complete ← mapR (fun f => v ← normal_value f (default JNull (dict_get fields (fd_name f))); Ok (fd_name f, v))
                   (domain_fields e);
      validate_create sp entity_name complete
  end.

(** ** Records *)

(** The domain columns of a new or an updated row. *)
Definition encode_fields (e : RecordEntity) (fields : list (pystr * json)) : result fault (gmap pystr sqlval) :=
  columns ← mapR (fun f => v ← encode_field f (default JNull (dict_get fields (fd_name f))); Ok (fd_name f, v))
              (domain_fields e);
  Ok (list_to_map columns).

Definition decode_fields (e : RecordEntity) (r : row) : option (list (pystr * json)) :=
  mapM (fun f => v ← decode_field f (default SqlNull (r_domain r !! fd_name f)); Some (fd_name f, v)) (domain_fields e).

(** A stored identifier and a stored time are read from their texts. *)
Definition read_id (id : UUID) : option UUID :=
  u ← parse_uuid (uuid_str id); if (u =? 0)%N then None else Some u.
Definition read_time (t : datetime) : option datetime := decode_time (encode_time t).

(** [_decode_record]. *)
Definition decode_record (sp : RecordSpecification) (principal entity_name : pystr) (id : UUID) (r : row)
  : result fault RecordValue :=
  trusted (
    e ← spec_entity sp entity_name;
    if negb (bool_decide (r_owner_id r = principal)) then None else
    record_id ← read_id id;
    raw ← decode_fields e r;
    checked ← ok_of (validate_create sp entity_name raw);
    fields ← ok_of (normalise_fields sp entity_name checked);
    version ← revision (r_record_version r);
    created ← read_time (r_created_at r);
    updated ← read_time (r_updated_at r);
    ok_of (make_record_value
      {| rv_entity := entity_name; rv_id := record_id; rv_version := version; rv_created_at := created;
         rv_updated_at := updated; rv_created_via := r_created_via r; rv_fields := fields |})).

(** ** Results of mutations *)
Definition record_json (v : RecordValue) : json :=
  JObj [ (lit "entity_name", jstr (rv_entity v)); (lit "id", jstr (uuid_str (rv_id v)));
         (lit "record_version", jint (rv_version v)); (lit "created_at", jstr (encode_time (rv_created_at v)));
         (lit "updated_at", jstr (encode_time (rv_updated_at v))); (lit "created_via", jstr (rv_created_via v));
         (lit "fields", JObj (rv_fields v)) ].

Definition encode_record_result (v : RecordValue) : pystr :=
  canonical_json (JObj [(lit "kind", jstr (lit "record")); (lit "record", record_json v)]).

Definition decode_record_result (text : pystr) (sp : RecordSpecification) : result fault RecordValue :=
  trusted (
    raw ← decode_canonical_json text;
    es ← exact_keys [lit "kind"; lit "record"] raw;
    kind ← get_str es (lit "kind");
    inner ← dict_get es (lit "record");
    rs ← exact_keys [lit "entity_name"; lit "id"; lit "record_version"; lit "created_at"; lit "updated_at";
                     lit "created_via"; lit "fields"] inner;
    entity_name ← get_str rs (lit "entity_name");
    given ← dict_get rs (lit "fields");
    fields ← match given with JObj fs => ok_of (validate_create sp entity_name fs) | _ => None end;
    id ← get_uuid rs (lit "id");
    version ← (get_int rs (lit "record_version") ≫= revision);
    created ← (get_str rs (lit "created_at") ≫= decode_time);
    updated ← (get_str rs (lit "updated_at") ≫= decode_time);
    via ← get_str rs (lit "created_via");
    value ← ok_of (make_record_value
      {| rv_entity := entity_name; rv_id := id; rv_version := version; rv_created_at := created;
         rv_updated_at := updated; rv_created_via := via; rv_fields := fields |});
    if bool_decide (kind = lit "record") && bool_decide (encode_record_result value = text) then Some value else None).

Definition encode_delete_result (o : DeleteRecordOutcome) (entity_name : pystr) : pystr :=
  canonical_json (JObj [ (lit "kind", jstr (lit "delete")); (lit "entity_name", jstr entity_name);
                         (lit "id", jstr (uuid_str (do_id o))); (lit "record_version", jint (do_version o)) ]).

Definition decode_delete_result (text : pystr) (sp : RecordSpecification) (entity_name : pystr)
  : result fault DeleteRecordOutcome :=
  trusted (
    raw ← decode_canonical_json text;
    es ← exact_keys [lit "kind"; lit "entity_name"; lit "id"; lit "record_version"] raw;
    kind ← get_str es (lit "kind");
    name ← get_str es (lit "entity_name");
    _ ← spec_entity sp entity_name;
    id ← get_uuid es (lit "id");
    version ← (get_int es (lit "record_version") ≫= revision);
    o ← ok_of (make_delete_outcome {| do_id := id; do_version := version; do_replayed := true |});
    if bool_decide (kind = lit "delete") && bool_decide (name = entity_name)
       && bool_decide (encode_delete_result o entity_name = text)
    then Some o else None).

(** ** History *)
Definition decode_snapshot (text : option pystr) (sp : RecordSpecification) (entity_name : pystr)
  : option (option (list (pystr * json))) :=
  match text with
  | None => Some None
  | Some t =>
      raw ← decode_canonical_json t;
      match raw with
      | JObj fs =>
          given ← ok_of (validate_create sp entity_name fs);
          fields ← ok_of (normalise_fields sp entity_name given);
          Some (Some fields)
      | _ => None
      end
  end.

(** [_decode_history]. *)
Definition decode_history (sp : RecordSpecification) (h : history_row) : result fault RecordHistoryEvent :=
  trusted (
    _ ← spec_entity sp (h_entity h);
    before ← decode_snapshot (h_before h) sp (h_entity h);
    after ← decode_snapshot (h_after h) sp (h_entity h);
    record_id ← read_id (h_record h);
    if bool_decide (h_kind h = update_event) && (bool_decide (before = None) || bool_decide (after = None)) then None else
    version ← revision (h_version h);
    occurred ← read_time (h_occurred_at h);
    ok_of (make_history_event
      {| he_entity := h_entity h; he_id := record_id; he_version := version; he_kind := h_kind h;
         he_occurred_at := occurred; he_before := before; he_after := after |})).
End codecs.
