(* ===== verification/RecordValues.v ===== *)
(** * RecordValues: records read back as they were written

    Validation and normalisation are idempotent; a field, a record and the
    stored result of a mutation are read back as the value that was written. *)
From S2P Require Import Relational.
From S2P Require Export RecordCodecs.
From S2P Require Import Prelude Values Json JsonText Sha256 Manifest.

(** ** Identifiers *)
Lemma hex_fold_from s a :
  fold_left (fun a c => match hex_value c with Some v => a * 16 + v | None => a end)%N s a
  = (a * 16 ^ N.of_nat (length (List.filter (fun c => bool_decide (is_Some (hex_value c))) s)) + hex_fold s)%N.
Proof.
  unfold hex_fold. revert a. induction s as [|c s IH]; intros a; cbn [fold_left List.filter length].
  { rewrite N.pow_0_r. lia. }
  destruct (hex_value c) as [v|] eqn:Ec.
  - rewrite bool_decide_true by eauto. cbn [length]. rewrite (IH (a * 16 + v)%N), (IH (0 * 16 + v)%N).
    rewrite Nat2N.inj_succ, N.pow_succ_r'. lia.
  - rewrite bool_decide_false by (by intros [? [=]]). by rewrite (IH a).
Qed.

Lemma hex_fold_app s t :
  hex_fold (s ++ t)
  = (hex_fold s * 16 ^ N.of_nat (length (List.filter (fun c => bool_decide (is_Some (hex_value c))) t)) + hex_fold t)%N.
Proof. unfold hex_fold at 1. rewrite fold_left_app. by rewrite hex_fold_from. Qed.

Lemma hex_digits_value w n c : c ∈ hex_digits w n -> is_Some (hex_value c).
Proof.
  intros Hc. pose proof (hex_digits_is_hex w n) as Hh. rewrite forallb_forall in Hh.
  apply list_elem_of_In, Hh in Hc. unfold hex_value. unfold is_hex_digit in Hc.
  destruct (is_digit c); [by eauto|]. cbn in Hc. rewrite Hc. by eauto.
Qed.

Lemma hex_fold_digits w n : hex_fold (hex_digits w n) = (n mod 16 ^ N.of_nat w)%N.
Proof.
  revert n; induction w as [|w IH]; intros n; cbn [hex_digits].
  { cbn. by rewrite N.mod_1_r. }
  rewrite hex_fold_app, IH. cbn [List.filter]. rewrite hex_value_digit by (by apply N.mod_lt).
  rewrite bool_decide_true by eauto. cbn [length]. unfold hex_fold; cbn [fold_left].
  rewrite hex_value_digit by (by apply N.mod_lt). rewrite (Nat2N.inj_succ w), (N.pow_succ_r' 16 (N.of_nat w)).
  assert (16 ^ N.of_nat w <> 0)%N by (apply N.pow_nonzero; lia).
  rewrite N.Div0.mod_mul_r by done. lia.
Qed.

Lemma hex_fold_dash s t : hex_fold (s ++ 45%N :: t) = hex_fold (s ++ t).
Proof.
  rewrite !hex_fold_app. cbn [List.filter]. assert (hex_value 45 = None) as -> by done.
  rewrite bool_decide_false by (by intros [? [=]]). f_equal.
Qed.

Lemma filter_true {A} (p : A -> bool) l : forallb p l = true -> List.filter p l = l.
Proof.
  induction l as [|x l IH]; cbn; [done|]. intros [Hx Hl]%andb_true_iff. by rewrite Hx, IH.
Qed.

Lemma forallb_sublist {A} (p : A -> bool) l k : k ⊆ l -> forallb p l = true -> forallb p k = true.
Proof. rewrite !forallb_forall. intros Hk Hl x Hx%list_elem_of_In. by apply Hl, list_elem_of_In, Hk. Qed.

(** The digits of a text in groups are the digits. *)
Lemma groups (h : pystr) : take 8 h ++ take 4 (drop 8 h) ++ take 4 (drop 12 h) ++ take 4 (drop 16 h) ++ drop 20 h = h.
Proof.
  assert (forall m n, take n (drop m h) ++ drop (m + n) h = drop m h) as E
    by (intros; rewrite <- drop_drop; apply take_drop).
  rewrite (E 16 4 : _ ++ drop 20 h = _)%nat, (E 12 4 : _ ++ drop 16 h = _)%nat,
    (E 8 4 : _ ++ drop 12 h = _)%nat. apply take_drop.
Qed.

Lemma hex_fold_uuid u : hex_fold (uuid_str u) = (u mod 2 ^ 128)%N.
Proof.
  unfold uuid_str. cbv zeta. set (h := uuid_hex u). cbn [app].
  do 3 (rewrite hex_fold_dash, app_assoc). rewrite hex_fold_dash, <- !app_assoc, groups.
  unfold h, uuid_hex. by rewrite hex_fold_digits.
Qed.

Lemma dashed_digits h : forallb is_hex_digit h = true -> List.filter is_hex_digit (dashed h) = h.
Proof.
  intros Hh. unfold dashed. rewrite !List.filter_app. cbn [List.filter].
  assert (is_hex_digit 45 = false) as -> by done. cbn [app].
  rewrite !filter_true; [by apply groups|..]; (eapply forallb_sublist; [|exact Hh]).
  all: repeat first [apply subseteq_drop | etrans; [apply subseteq_take|]]; done.
Qed.

Lemma parse_uuid_str u : parse_uuid (uuid_str u) = Some (u mod 2 ^ 128)%N.
Proof.
  unfold parse_uuid. change (uuid_str u) with (dashed (uuid_hex u)) at 1. unfold uuid_form.
  rewrite dashed_digits by apply hex_digits_is_hex. unfold uuid_hex. rewrite length_hex_digits, bool_decide_true by done.
  cbn [Nat.eqb andb]. f_equal. apply hex_fold_uuid.
Qed.

Lemma read_id_spec u : (0 < u < 2 ^ 128)%N -> read_id u = Some u.
Proof.
  intros Hu. unfold read_id. rewrite parse_uuid_str. cbn [mbind option_bind].
  rewrite N.mod_small by lia. by rewrite (proj2 (N.eqb_neq _ _)) by lia.
Qed.

Lemma read_id_small u v : read_id u = Some v -> (0 < v < 2 ^ 128)%N /\ v = (u mod 2 ^ 128)%N.
Proof.
  unfold read_id. rewrite parse_uuid_str. cbn [mbind option_bind].
  pose proof (N.mod_lt u (2 ^ 128) ltac:(done)) as Hm. destruct (N.eqb_spec (u mod 2 ^ 128) 0) as [|Hz]; [done|].
  intros [= <-]. split; [|done]. split; [by apply N.neq_0_lt_0|exact Hm].
Qed.

(** ** Validation *)
Section validation.
Context `{FloatRepr} `{IsoDates}.

(** What [validate_record] accepts, and returns. *)
Record Accepted (e : RecordEntity) (r : list (pystr * json)) (complete nonempty : bool) : Prop := {
  ac_nonempty : nonempty = true -> r <> [];
  ac_known : forall k, k ∈ map fst r -> k ∈ map fd_name (domain_fields e);
  ac_required : complete = true -> forall f, f ∈ domain_fields e -> fd_required f = true -> fd_name f ∈ map fst r;
  ac_items : forall item, item ∈ r -> check_item (domain_fields e) item = Ok tt
}.

Lemma validate_record_spec sp n r complete nonempty fs :
  validate_record sp n r complete nonempty = Ok fs <->
  exists e, spec_entity sp n = Some e /\ Accepted e r complete nonempty /\ from_mapping r = Ok fs.
Proof.
  unfold validate_record. destruct (spec_entity sp n) as [e|]; [|naive_solver].
  rewrite !require_all, mapR_unit_then, negb_true_iff, negb_true_iff, andb_false_iff, andb_false_iff, existsb_false.
  unfold subset_of. rewrite forallb_forall, bool_decide_eq_false. split.
  - intros (Hn & Hk & Hr & Hi & Hm). exists e. split_and!; [done| |done]. split.
    + intros ->. by destruct Hn.
    + intros k Hin%list_elem_of_In%Hk. by apply bool_decide_eq_true in Hin.
    + intros -> f Hf Hreq. destruct Hr as [?|Hr]; [done|]. specialize (Hr f Hf). rewrite Hreq in Hr. cbn in Hr.
      apply bool_decide_eq_false in Hr. by apply dec_stable.
    + done.
  - intros (e' & [= <-] & [Hn Hk Hr Hi] & Hm). split_and!; [| | |done|done].
    + destruct nonempty; [right; by apply Hn|by left].
    + intros k Hin%list_elem_of_In. by apply bool_decide_eq_true, Hk.
    + destruct complete; [right|by left]. intros f Hf. apply andb_false_iff.
      destruct (fd_required f) eqn:E; [right|by left]. apply bool_decide_eq_false. intros Hx. by apply Hx, Hr.
Qed.

Lemma Accepted_perm e r r' c b : r ≡ₚ r' -> Accepted e r c b -> Accepted e r' c b.
Proof.
  intros Hp [Hn Hk Hr Hi]. split.
  - intros Hb ->. apply Permutation_nil_r in Hp. by apply Hn.
  - intros k Hin. apply Hk. by rewrite Hp.
  - intros Hc f Hf Hreq. rewrite <- Hp. by apply Hr.
  - intros item Hin. apply Hi. by rewrite Hp.
Qed.

Lemma mapR_same {A E} (f : A -> result E A) l ys :
  (forall x, x ∈ l -> forall y, f x = Ok y -> y = x) -> mapR f l = Ok ys -> ys = l.
Proof.
  revert ys; induction l as [|x l IH]; intros ys Hf; cbn [mapR]; [by intros [= <-]|].
  intros (y & Hy & (ys' & Hys & [= <-])%bind_Ok)%bind_Ok. f_equal; [by apply Hf; [left|]|].
  apply IH; [|done]. intros z Hz. apply Hf. by right.
Qed.

Lemma string_items_in items ss : string_items items = Some ss -> forall x, x ∈ items -> exists s, x = jstr s.
Proof.
  unfold string_items. intros Hm%mapM_Some x [i Hi]%list_elem_of_lookup.
  destruct (Forall2_lookup_l _ _ _ _ _ Hm Hi) as (s & _ & Hs).
  destruct x as [|[t|?|?|?]|?|?]; try discriminate Hs. by exists t.
Qed.

(** A value of a field's type is frozen to itself. *)
Lemma matches_frozen v t k : matches_type v t = Ok true -> freeze_json v = Ok k -> k = v.
Proof.
  destruct v as [|v|items|es]; cbn [freeze_json].
  - by intros _ [= <-].
  - by intros _ [_ [= <-]]%unit_then.
  - intros Ht (fs & Hfs & [= <-])%bind_Ok. destruct t; try discriminate Ht. cbn [matches_type] in Ht.
    injection Ht as Ht. apply andb_true_iff in Ht as [_ Ht].
    destruct (string_items items) as [ss|] eqn:Es; [|done]. f_equal. clear Ht.
    apply (mapR_same freeze_json); [|done]. intros x Hx y Hy.
    destruct (string_items_in _ _ Es x Hx) as [s ->]. cbn [freeze_json] in Hy. by apply unit_then in Hy as [_ [= <-]].
  - intros Ht. by destruct t.
Qed.

Lemma item_frozen fields item k :
  check_item fields item = Ok tt -> freeze_json item.2 = Ok k -> k = item.2.
Proof.
  unfold check_item. destruct (List.find _ _) as [f|]; [|done].
  destruct (item.2) as [|v|items|es] eqn:E; [by intros _ [= <-]|..];
    intros (b & Hb & Hc)%bind_Ok; apply require_all in Hc as [-> _]; by apply matches_frozen with (fd_type f).
Qed.

Lemma freeze_same r fs :
  (forall e, e ∈ r -> forall k, freeze_json e.2 = Ok k -> k = e.2) ->
  sequence_values (frozen_entries r) = Ok fs -> fs = sorted_by str_leb fst r.
Proof.
  intros Hr. unfold frozen_entries.
  rewrite (sorted_by_map str_leb fst fst (fun e : pystr * json => (e.1, freeze_json e.2))) by done.
  unfold sequence_values. rewrite mapR_map. apply mapR_same.
  intros [n j] He%elem_of_sorted_by y (k & Hk & [= <-])%bind_Ok. cbn [fst snd] in *. f_equal. by apply (Hr (n, j)).
Qed.

Lemma validate_sorted sp n r c b fs :
  validate_record sp n r c b = Ok fs ->
  fs = sorted_by str_leb fst r /\ validate_record sp n fs c b = Ok fs /\ from_mapping fs = Ok fs.
Proof.
  intros (e & He & Ha & Hm)%validate_record_spec.
  pose proof Hm as Hf. apply from_mapping_frozen, freeze_object in Hf as (fs' & [= <-] & Hseq & _).
  assert (fs = sorted_by str_leb fst r) as Heq.
  { apply freeze_same; [|done]. intros item Hin k. by apply (item_frozen (domain_fields e)), Ha. }
  assert (from_mapping fs = Ok fs) as Hmm.
  { apply from_mapping_frozen. apply from_mapping_frozen in Hm. by apply freeze_frozen in Hm. }
  split_and!; [done| |done]. apply validate_record_spec. exists e. split_and!; [done| |done].
  apply (Accepted_perm e r); [|done]. by rewrite Heq, sorted_by_perm.
Qed.
End validation.

(** ** Texts of frozen values *)
Section unicode.
Context `{FloatRepr}.

Lemma unicode_app s t : unicode (s ++ t) = unicode s && unicode t.
Proof. apply forallb_app. Qed.

Lemma ascii_unicode s : ascii s = true -> unicode s = true.
Proof.
  unfold ascii, unicode. rewrite !forallb_forall. intros Hs c Hc%Hs. unfold unicode_scalar.
  apply N.ltb_lt in Hc. apply orb_true_iff. left. apply N.ltb_lt. lia.
Qed.

Lemma unicode_concat (l : list pystr) : (forall s, s ∈ l -> unicode s = true) -> unicode (concat l) = true.
Proof.
  induction l as [|s l IH]; intros Hl; [done|]. cbn [concat]. rewrite unicode_app, IH, (Hl s); [done|by left|].
  intros t Ht. apply Hl. by right.
Qed.

Lemma unicode_quoted s : unicode s = true -> unicode (quoted s) = true.
Proof.
  intros Hs. unfold quoted. change (34%N :: concat (map escape_char s) ++ [34%N])
    with ([34%N] ++ concat (map escape_char s) ++ [34%N]).
  rewrite !unicode_app. rewrite unicode_concat; [done|]. intros t (c & -> & Hc)%elem_of_map.
  unfold unicode in Hs. rewrite forallb_forall in Hs. apply list_elem_of_In, Hs in Hc.
  unfold escape_char. destruct (short_escape c) as [d|] eqn:Ed.
  - assert (is_lower d || (d =? 34)%N || (d =? 92)%N = true) as Hd.
    { unfold short_escape in Ed. repeat case_match; by simplify_eq. }
    apply ascii_unicode. unfold ascii. cbn [forallb]. unfold is_lower in Hd. bools. lia.
  - destruct (N.ltb_spec c 32); [|cbn; by rewrite Hc]. apply ascii_unicode.
    change (ascii ([92%N; 117%N] ++ hex_digits 4 c) = true). rewrite ascii_app. cbn [andb].
    apply andb_true_iff. split; [done|]. apply (ascii_weaken is_hex_digit); [|apply hex_digits_is_hex].
    intros x. unfold is_hex_digit, is_digit. intros Hx. bools. lia.
Qed.

Lemma unicode_join parts : (forall s, s ∈ parts -> unicode s = true) -> unicode (join_commas parts) = true.
Proof.
  intros Hp. unfold join_commas. destruct parts as [|s parts]; [done|].
  rewrite unicode_app, (Hp s) by left. apply unicode_concat.
  intros t (u & -> & Hu)%elem_of_map. cbn. apply Hp. by right.
Qed.

Lemma frozen_unicode j : frozen j -> floats_valid j = true -> unicode (plain_text j) = true.
Proof.
  induction j as [|v|items IH|entries IH] using json_ind'; intros Hj Hf; [done|..].
  - unfold frozen in Hj. cbn [freeze_json] in Hj. apply unit_then in Hj as [Hv _]. unfold validate_scalar in Hv.
    apply unit_then in Hv as [_ Hv]. cbn [plain_text]. unfold plain_scalar. destruct v as [s|z|f|b].
    + apply bind_Ok in Hv as (bs & Hs & _). unfold encode_utf8 in Hs.
      destruct (unicode s) eqn:E; [|done]. by apply unicode_quoted.
    + apply ascii_unicode, ascii_number, dec_Z_number.
    + by apply ascii_unicode, ascii_number, float_number.
    + by destruct b.
  - cbn [plain_text floats_valid] in *. rewrite forallb_forall in Hf. rewrite Forall_forall in IH.
    change (91%N :: join_commas (map plain_text items) ++ [93%N])
      with ([91%N] ++ join_commas (map plain_text items) ++ [93%N]).
    rewrite !unicode_app, unicode_join; [done|]. intros t (x & -> & Hx)%elem_of_map.
    apply IH; [done|by apply (frozen_items items)|by apply Hf, list_elem_of_In].
  - apply frozen_fields in Hj as [Hm _]. by apply make_frozen_spec in Hm as (_ & _ & _ & _ & Hu & _).
Qed.
End unicode.

(** ** Numbers *)
Lemma digits_shift k m : digits2_pos (Nat.iter k xO m) = Pos.of_nat (k + Pos.to_nat (digits2_pos m)).
Proof.
  induction k as [|k IH].
  - cbn [Nat.iter nat_rect]. by rewrite Nat.add_0_l, Pos2Nat.id.
  - change (Nat.iter (S k) xO m) with (xO (Nat.iter k xO m)). cbn [digits2_pos]. rewrite IH.
    by rewrite <- Nat2Pos.inj_succ by lia.
Qed.

Lemma digits_lower m : 2 ^ Z.pos (digits2_pos m) <= 2 * Z.pos m.
Proof.
  induction m as [m IH|m IH|]; cbn [digits2_pos]; [..|done];
    rewrite Pos2Z.inj_succ, Z.pow_succ_r by done; lia.
Qed.

Lemma exact_float_valid s m : (m <= 2 ^ 53)%positive -> binary64 (exact_float s m) = true.
Proof.
  intros Hm. unfold exact_float. cbv zeta. destruct (Pos.leb_spec (digits2_pos m) 53) as [Hd|Hd].
  - unfold binary64, valid_binary, bounded, canonical_mantissa, fexp, emin. cbn [isfinite andb].
    rewrite digits_shift. assert (Z.pos (Pos.of_nat (53 - Pos.to_nat (digits2_pos m) + Pos.to_nat (digits2_pos m))) = 53)
      as -> by lia.
    apply andb_true_iff. split; [apply Z.eqb_eq|apply Z.leb_le]; lia.
  - assert (m = 2 ^ 53)%positive as ->; [|by destruct s].
    apply Pos.le_antisym; [done|]. pose proof (digits_lower m) as Hl.
    assert (2 ^ 54 <= 2 ^ Z.pos (digits2_pos m)) as Hp by (apply Z.pow_le_mono_r; lia). lia.
Qed.

Lemma to_float_valid v :
  is_exact_number v = true -> floats_valid (JScalar v) = true ->
  exists f, to_float v = PyFloat f /\ binary64 f = true.
Proof.
  destruct v as [s|z|f|b]; cbn [is_exact_number is_finite_real floats_valid to_float]; intros Hv Hf;
    [done| |by exists f|done].
  exists (float_of_Z z). split; [done|]. unfold IEEE_754_EXACT_INTEGER_MAX in Hv. bools.
  destruct z as [|m|m]; [done|apply exact_float_valid..]; lia.
Qed.

(** ** Fields *)
Section fields.
Context `{FloatRead} `{IsoDates}.

(** A value that a normalised record holds for the field. *)
Record FieldValue (f : RecordField) (v : json) : Prop := {
  fv_type : v = JNull \/ matches_type v (fd_type f) = Ok true;
  fv_normal : normal_value f v = Ok v;
  fv_frozen : frozen v;
  fv_floats : floats_valid v = true
}.

Lemma frozen_str s : frozen (JScalar (PyStr s)) -> unicode s = true.
Proof.
  unfold frozen. cbn [freeze_json]. intros [Hs _]%unit_then. unfold validate_scalar in Hs.
  apply unit_then in Hs as [_ (b & Hb & _)%bind_Ok]. unfold encode_utf8 in Hb. by destruct (unicode s).
Qed.

Lemma bound_text s : unicode s = true -> bound_value (jstr s) = Ok (SqlText s).
Proof. intros Hs. cbn. by rewrite Hs. Qed.

Lemma field_roundtrip f v : FieldValue f v -> exists x, encode_field f v = Ok x /\ decode_field f x = Some v.
Proof.
  intros [[->|Ht] Hn Hz Hf]; [by exists SqlNull|]. unfold encode_field, decode_field, normal_value in *.
  destruct (fd_type f) eqn:Et, v as [|[s|z|x|b]|items|es]; try done; cbn [matches_type] in Ht;
    try (injection Ht as Ht); try discriminate Ht.
  1,6,7: exists (SqlText s); by rewrite (bound_text s (frozen_str _ Hz) : bound_value (JScalar (PyStr s)) = _).
  - change (is_signed_64_integer (PyInt z) = true) in Ht. exists (SqlInteger z). cbn [bound_value]. by rewrite !Ht.
  - by apply require_all in Hn as [_ [=]].
  - change (is_exact_number (PyFloat x) = true) in Ht. exists (SqlReal x). by rewrite !Ht.
  - exists (SqlInteger (Z.b2z b)). by destruct b.
  - exists (SqlText (canonical_json (JArr items))). cbn [py_list].
    pose proof (frozen_readable _ Hz Hf) as Hr. unfold canonical_json at 1. rewrite (frozen_sorted _ Hz).
    rewrite bound_text by (by apply frozen_unicode). unfold canonical_json at 1. rewrite (frozen_sorted _ Hz).
    split; [done|]. rewrite (decode_canonical _ Hr : _ = Some _). by rewrite (frozen_sorted _ Hz).
Qed.

(** ** Normalised records *)
Lemma find_named fields f :
  NoDup (map fd_name fields) -> f ∈ fields ->
  List.find (fun g => bool_decide (fd_name g = fd_name f)) fields = Some f.
Proof.
  induction fields as [|g fields IH]; intros Hnd Hf; [by apply elem_of_nil in Hf|].
  cbn [map] in Hnd. apply NoDup_cons in Hnd as [Hg Hnd]. cbn [List.find].
  apply elem_of_cons in Hf as [->|Hf]; [by rewrite bool_decide_true|].
  rewrite bool_decide_false; [by apply IH|]. intros Heq. apply Hg, elem_of_map. by exists f.
Qed.

Definition EntityOK (e : RecordEntity) : Prop :=
  NoDup (map fd_name (re_fields e)) /\ StronglySorted str_le (map fd_name (re_fields e)).
Definition SpecOK (sp : RecordSpecification) : Prop := forall e, e ∈ sp_entities sp -> EntityOK e.

Lemma spec_entity_in sp n e : spec_entity sp n = Some e -> e ∈ sp_entities sp /\ re_name e = n.
Proof.
  intros [Hin Hn]%List.find_some. rewrite bool_decide_eq_true in Hn. by rewrite list_elem_of_In.
Qed.

Lemma filter_names (p : RecordField -> bool) l :
  NoDup (map fd_name l) -> StronglySorted str_le (map fd_name l) ->
  NoDup (map fd_name (List.filter p l)) /\ StronglySorted str_le (map fd_name (List.filter p l)).
Proof.
  assert (forall l n, n ∈ map fd_name (List.filter p l) -> n ∈ map fd_name l) as Hsub.
  { intros k n (f & -> & Hf)%elem_of_map. apply list_elem_of_In, filter_In in Hf as [Hf _].
    apply elem_of_map. exists f. by rewrite list_elem_of_In. }
  induction l as [|f l IH]; cbn [map List.filter]; [done|].
  intros [Hf Hd]%NoDup_cons [Hs Hall]%StronglySorted_inv. destruct (IH Hd Hs) as [IHd IHs].
  destruct (p f); [|done]. cbn [map]. split; constructor; [by intros ?%Hsub|done|done|].
  rewrite Forall_forall in *. intros n Hn. by apply Hall, Hsub.
Qed.

Lemma domain_ok e : EntityOK e ->
  NoDup (map fd_name (domain_fields e)) /\ StronglySorted str_le (map fd_name (domain_fields e)).
Proof. intros [Hd Hs]. by apply filter_names. Qed.

Record NormalRecord (sp : RecordSpecification) (e : RecordEntity) (fs : list (pystr * json)) : Prop := {
  nr_names : map fst fs = map fd_name (domain_fields e);
  nr_values : forall f v, f ∈ domain_fields e -> (fd_name f, v) ∈ fs -> FieldValue f v;
  nr_valid : validate_create sp (re_name e) fs = Ok fs;
  nr_frozen : frozen (JObj fs);
  nr_floats : floats_valid (JObj fs) = true
}.

Lemma columns_names {E A} (g : RecordField -> result E A) fields ys :
  mapR (fun f => v ← g f; Ok (fd_name f, v)) fields = Ok ys -> map fst ys = map fd_name fields.
Proof.
  intros Hys%mapR_Ok. induction Hys as [|f y l ys (v & _ & [= <-])%bind_Ok _ IH]; cbn [map fst]; congruence.
Qed.

Lemma normal_value_again f v w :
  normal_value f v = Ok w -> w = JNull \/ matches_type w (fd_type f) = Ok true -> normal_value f w = Ok w.
Proof.
  intros Hv [->|Hw]; [done|]. unfold normal_value in *.
  destruct v as [|v|items|es]; [by injection Hv as <-|..]; destruct (fd_type f) eqn:Et;
    try (injection Hv as <-; done); try discriminate Hv.
  - apply require_all in Hv as [Hx [= <-]].
    change (Ok (E := RecordError) (is_exact_number (to_float v)) = Ok true) in Hw. injection Hw as Hw.
    rewrite contract_run by done. by destruct v.
  - destruct (py_list _); [|done]. by injection Hv as <-.
Qed.

Lemma normal_value_floats f v w : normal_value f v = Ok w -> floats_valid v = true -> floats_valid w = true.
Proof.
  unfold normal_value. intros Hv Hf.
  destruct v as [|v|items|es]; [by injection Hv as <-|..]; destruct (fd_type f); try (by injection Hv as <-);
    try discriminate Hv.
  - apply require_all in Hv as [Hx [= <-]]. destruct (to_float_valid v Hx Hf) as (x & -> & Hb). exact Hb.
  - destruct v as [s|z|x|b]; try discriminate Hv. cbn [py_list] in Hv. injection Hv as <-.
    cbn [floats_valid]. apply forallb_forall. by intros x (c & -> & _)%list_elem_of_In%elem_of_map.
  - cbn [py_list] in Hv. injection Hv as <-.
    cbn [floats_valid]. apply forallb_forall. by intros x (c & -> & _)%list_elem_of_In%elem_of_map.
Qed.

Lemma normalise_spec sp n given fs :
  SpecOK sp -> floats_valid (JObj given) = true -> normalise_fields sp n given = Ok fs ->
  exists e, spec_entity sp n = Some e /\ NormalRecord sp e fs
    /\ forall f, f ∈ domain_fields e ->
         exists v, (fd_name f, v) ∈ fs /\ normal_value f (default JNull (dict_get given (fd_name f))) = Ok v.
Proof.
  intros Hsp Hg. unfold normalise_fields. destruct (spec_entity sp n) as [e|] eqn:He; [|done].
  intros (complete & Hc & Hv)%bind_Ok. exists e. split; [done|].
  destruct (spec_entity_in _ _ _ He) as [Hin <-]. destruct (domain_ok e (Hsp e Hin)) as [Hnd Hso].
  assert (map fst complete = map fd_name (domain_fields e)) as Hnames.
  { by apply (columns_names (fun f => normal_value f (default JNull (dict_get given (fd_name f))))). }
  assert (fs = complete /\ validate_create sp (re_name e) fs = Ok fs /\ from_mapping fs = Ok fs) as (-> & Hvf & Hm).
  { destruct (validate_sorted _ _ _ _ _ _ Hv) as (-> & ? & ?). split_and!; [|done..].
    apply sorted_by_id, (sorted_keys_sorted (fst : pystr * json -> pystr)). by rewrite Hnames. }
  assert (forall f, f ∈ domain_fields e -> exists v, (fd_name f, v) ∈ complete
            /\ normal_value f (default JNull (dict_get given (fd_name f))) = Ok v) as Hvals.
  { intros f [i Hi]%list_elem_of_lookup. apply mapR_Ok in Hc.
    destruct (Forall2_lookup_l _ _ _ _ _ Hc Hi) as (y & Hy & (v & Hnv & [= <-])%bind_Ok).
    exists v. split; [by eapply list_elem_of_lookup_2|done]. }
  assert (forall f v, f ∈ domain_fields e -> (fd_name f, v) ∈ complete ->
            normal_value f (default JNull (dict_get given (fd_name f))) = Ok v) as Huniq.
  { intros f v Hf Hfv. destruct (Hvals f Hf) as (v' & Hv' & Hn').
    assert (NoDup (map fst complete)) as Hndc by (by rewrite Hnames).
    pose proof (dict_get_in _ _ _ Hndc Hfv). pose proof (dict_get_in _ _ _ Hndc Hv'). congruence. }
  assert (frozen (JObj complete)) as Hfz by (by apply from_mapping_frozen).
  assert (forall f, f ∈ domain_fields e -> floats_valid (default JNull (dict_get given (fd_name f))) = true) as Hgf.
  { intros f _. destruct (dict_get given (fd_name f)) as [w|] eqn:Ew; [|done]. cbn [from_option id].
    apply dict_get_Some_in, list_elem_of_In in Ew. cbn [floats_valid] in Hg. rewrite forallb_forall in Hg.
    by apply (Hg _ Ew). }
  split; [|done]. split; [done| |done|done|].
  - intros f v Hf Hfv. pose proof (Huniq f v Hf Hfv) as Hn.
    assert (v = JNull \/ matches_type v (fd_type f) = Ok true) as Hty.
    { apply validate_record_spec in Hvf as (e' & He' & [_ _ _ Hi] & _). rewrite He in He'. injection He' as <-.
      specialize (Hi _ Hfv). unfold check_item in Hi. cbn [fst snd] in Hi.
      assert (List.find (fun g => bool_decide (fd_name g = fd_name f)) (domain_fields e) = Some f) as Hfind
        by (by apply find_named). rewrite Hfind in Hi.
      destruct v; [by left|right..]; apply bind_Ok in Hi as (b & Hb & Hi); by apply require_all in Hi as [-> _]. }
    split; [done|by eapply normal_value_again| |by eapply normal_value_floats; [|apply Hgf]].
    by apply (proj2 (frozen_fields _ Hfz) (fd_name f, v)).
  - cbn [floats_valid]. apply forallb_forall. intros [k v] Hkv%list_elem_of_In. cbn [snd].
    assert (k ∈ map fst complete) as Hk by (apply elem_of_map; by exists (k, v)).
    rewrite Hnames in Hk. apply elem_of_map in Hk as (f & -> & Hf).
    by eapply normal_value_floats; [apply (Huniq f)|apply Hgf].
Qed.

(** ** Rows *)
Lemma normal_pairs sp e fs : NormalRecord sp e fs -> Forall2 (fun f kv => kv.1 = fd_name f /\ FieldValue f kv.2) (domain_fields e) fs.
Proof.
  intros [Hn Hv _ _ _]. apply Forall2_same_length_lookup_2.
  - apply (f_equal length) in Hn. by rewrite !length_map in Hn.
  - intros i f [k v] Hf Hkv. cbn [fst snd]. apply (f_equal (.!! i)) in Hn.
    rewrite !list_lookup_fmap, Hf, Hkv in Hn. cbn in Hn. injection Hn as ->. split; [done|].
    apply Hv; by eapply list_elem_of_lookup_2.
Qed.

Lemma normal_get sp e fs f v :
  EntityOK e -> NormalRecord sp e fs -> (fd_name f, v) ∈ fs -> dict_get fs (fd_name f) = Some v.
Proof. intros [Hd _]%domain_ok [Hn _ _ _ _] Hin. apply dict_get_in; [by rewrite Hn|done]. Qed.

Lemma fields_roundtrip sp e fs :
  EntityOK e -> NormalRecord sp e fs ->
  exists columns, encode_fields e fs = Ok columns /\ forall r, r_domain r = columns -> decode_fields e r = Some fs.
Proof.
  intros He Hfs. pose proof (normal_pairs _ _ _ Hfs) as Hp. pose proof (proj1 (domain_ok e He)) as Hnd.
  unfold encode_fields. set (enc := fun f => v ← encode_field f (default JNull (dict_get fs (fd_name f))); Ok (fd_name f, v)).
  assert (forall f, f ∈ domain_fields e -> exists kv x, kv ∈ fs /\ kv.1 = fd_name f /\ enc f = Ok (fd_name f, x)
            /\ decode_field f x = Some kv.2) as Henc.
  { intros f [i Hi]%list_elem_of_lookup. destruct (Forall2_lookup_l _ _ _ _ _ Hp Hi) as ([k v] & Hkv & Hk & Hv).
    cbn [fst snd] in *. subst k. destruct (field_roundtrip f v Hv) as (x & Hx & Hdx). exists (fd_name f, v), x.
    assert ((fd_name f, v) ∈ fs) as Hin by (by eapply list_elem_of_lookup_2).
    split_and!; [done|done| |done]. unfold enc. rewrite (normal_get sp e fs f v) by done. cbn [from_option id]. by rewrite Hx. }
  destruct (proj2 (mapR_ok_iff enc (domain_fields e))) as [ys Hys].
  { intros f Hf. destruct (Henc f Hf) as (kv & x & _ & _ & Hx & _). by eexists. }
  assert (map fst ys = map fd_name (domain_fields e)) as Hnames by (by apply (columns_names (fun f => encode_field f (default JNull (dict_get fs (fd_name f)))))).
  rewrite Hys. cbn [mbind result_bind]. eexists. split; [done|]. intros r Hr. unfold decode_fields.
  apply mapM_Some_2, Forall2_same_length_lookup_2; [by apply Forall2_length in Hp|].
  intros i f [k v] Hf Hkv. destruct (Henc f) as (kv & x & Hin & Hk & Hx & Hdx); [by eapply list_elem_of_lookup_2|].
  destruct (Forall2_lookup_lr _ _ _ _ _ _ Hp Hf Hkv) as [Hk' _]. cbn [fst] in Hk'. subst k.
  assert (kv = (fd_name f, v)) as ->.
  { destruct kv as [k w]. cbn [fst] in Hk. subst k. f_equal.
    assert ((fd_name f, v) ∈ fs) as Hin' by (by eapply list_elem_of_lookup_2).
    pose proof (normal_get _ _ _ _ _ He Hfs Hin). pose proof (normal_get _ _ _ _ _ He Hfs Hin'). congruence. }
  rewrite Hr. assert (NoDup ys.*1) as Hndy by (change (NoDup (map fst ys)); by rewrite Hnames).
  erewrite (proj1 (elem_of_list_to_map ys (fd_name f) x Hndy)); [cbn [from_option id]; by rewrite Hdx|].
  apply mapR_Ok in Hys. destruct (Forall2_lookup_l _ _ _ _ _ Hys Hf) as (y & Hy & Hey).
  rewrite Hx in Hey. injection Hey as <-. by eapply list_elem_of_lookup_2.
Qed.

(** A record the store holds. *)
Record RecordOK (sp : RecordSpecification) (v : RecordValue) : Prop := {
  ro_fields : exists e, spec_entity sp (rv_entity v) = Some e /\ NormalRecord sp e (rv_fields v);
  ro_made : make_record_value v = Ok v;
  ro_id : (rv_id v < 2 ^ 128)%N;
  ro_version : rv_version v <= MAX_REVISION;
  ro_created : read_time (rv_created_at v) = Some (rv_created_at v);
  ro_updated : read_time (rv_updated_at v) = Some (rv_updated_at v)
}.

Definition row_of (principal : pystr) (v : RecordValue) (columns : gmap pystr sqlval) : row :=
  {| r_owner_id := principal; r_created_at := rv_created_at v; r_updated_at := rv_updated_at v;
     r_created_via := rv_created_via v; r_record_version := rv_version v; r_domain := columns |}.

Lemma normalise_again sp e fs :
  EntityOK e -> spec_entity sp (re_name e) = Some e -> NormalRecord sp e fs ->
  normalise_fields sp (re_name e) fs = Ok fs.
Proof.
  intros He Hsp Hfs. unfold normalise_fields. rewrite Hsp.
  assert (mapR (fun f => v ← normal_value f (default JNull (dict_get fs (fd_name f))); Ok (fd_name f, v)) (domain_fields e)
          = Ok fs) as ->; [|apply Hfs].
  apply mapR_Ok. pose proof (normal_pairs _ _ _ Hfs) as Hp.
  apply Forall2_same_length_lookup_2; [by apply Forall2_length in Hp|].
  intros i f [k v] Hf Hkv. destruct (Forall2_lookup_lr _ _ _ _ _ _ Hp Hf Hkv) as [Hk Hv]. cbn [fst snd] in *. subst k.
  assert ((fd_name f, v) ∈ fs) as Hin by (by eapply list_elem_of_lookup_2).
  rewrite (normal_get _ _ _ _ _ He Hfs Hin). cbn [from_option id]. by rewrite (fv_normal _ _ Hv).
Qed.

Lemma revision_ok v : 1 <= v <= MAX_REVISION -> revision v = Some v.
Proof. intros Hv. unfold revision. by rewrite !(proj2 (Z.leb_le _ _)) by lia. Qed.

Lemma record_id_ok sp v : RecordOK sp v -> (0 < rv_id v < 2 ^ 128)%N /\ 1 <= rv_version v <= MAX_REVISION.
Proof.
  intros [_ Hm Hid Hv _ _]. apply make_record_value_spec in Hm as (_ & _ & Hz & Hr & _). lia.
Qed.

Lemma decode_row sp principal v columns :
  SpecOK sp -> RecordOK sp v ->
  (forall e, spec_entity sp (rv_entity v) = Some e -> encode_fields e (rv_fields v) = Ok columns) ->
  decode_record sp principal (rv_entity v) (rv_id v) (row_of principal v columns) = Ok v.
Proof.
  intros Hsp Hv Hc. destruct (record_id_ok _ _ Hv) as [Hid Hver]. destruct Hv as [(e & He & Hn) Hm _ _ Hcr Hup].
  destruct (spec_entity_in _ _ _ He) as [Hin Hname]. pose proof (Hsp e Hin) as Heok.
  destruct (fields_roundtrip sp e (rv_fields v) Heok Hn) as (cols & Hcols & Hdec).
  rewrite (Hc e He) in Hcols. injection Hcols as <-.
  unfold decode_record. rewrite He. cbn [mbind option_bind r_owner_id row_of]. rewrite bool_decide_true by done.
  cbn [negb]. rewrite read_id_spec by done. cbn [mbind option_bind].
  rewrite (Hdec (row_of principal v columns)) by done. cbn [mbind option_bind].
  rewrite <- Hname in He |- *. rewrite (nr_valid _ _ _ Hn). cbn [ok_of mbind option_bind].
  rewrite (normalise_again sp e) by done. cbn [ok_of mbind option_bind].
  cbn [r_record_version r_created_at r_updated_at row_of r_created_via]. rewrite revision_ok by done.
  rewrite Hcr, Hup. cbn [mbind option_bind]. rewrite Hname. destruct v. cbn in *. by rewrite Hm.
Qed.

(** ** Results *)
Lemma record_json_sorted v :
  frozen (JObj (rv_fields v)) ->
  sort_keys (JObj [(lit "kind", jstr (lit "record")); (lit "record", record_json v)])
  = JObj [ (lit "kind", jstr (lit "record"));
           (lit "record",
            JObj [ (lit "created_at", jstr (encode_time (rv_created_at v))); (lit "created_via", jstr (rv_created_via v));
                   (lit "entity_name", jstr (rv_entity v)); (lit "fields", JObj (rv_fields v));
                   (lit "id", jstr (uuid_str (rv_id v))); (lit "record_version", jint (rv_version v));
                   (lit "updated_at", jstr (encode_time (rv_updated_at v))) ]) ].
Proof.
  intros Hf. transitivity (JObj [ (lit "kind", jstr (lit "record"));
           (lit "record",
            JObj [ (lit "created_at", jstr (encode_time (rv_created_at v))); (lit "created_via", jstr (rv_created_via v));
                   (lit "entity_name", jstr (rv_entity v)); (lit "fields", sort_keys (JObj (rv_fields v)));
                   (lit "id", jstr (uuid_str (rv_id v))); (lit "record_version", jint (rv_version v));
                   (lit "updated_at", jstr (encode_time (rv_updated_at v))) ]) ]); [reflexivity|].
  by rewrite (frozen_sorted _ Hf).
Qed.

Lemma record_result_readable v :
  1 <= rv_version v <= MAX_REVISION -> frozen (JObj (rv_fields v)) -> floats_valid (JObj (rv_fields v)) = true ->
  readable (JObj [(lit "kind", jstr (lit "record")); (lit "record", record_json v)]) = true.
Proof.
  intros Hv Hf Hfl. pose proof (frozen_readable _ Hf Hfl) as Hr.
  assert (is_signed_64_integer (PyInt (rv_version v)) = true) as Hi.
  { cbn. unfold SIGNED_64_MIN, SIGNED_64_MAX. unfold MAX_REVISION in Hv. bools. lia. }
  transitivity (is_signed_64_integer (PyInt (rv_version v)) && (readable (JObj (rv_fields v)) && true)); [|by rewrite Hi, Hr].
  unfold record_json. set (o := JObj (rv_fields v)). clearbody o.
  cbn [readable forallb snd jstr jint andb]. by rewrite !andb_true_r.
Qed.

Lemma parse_uuid_id u : (u < 2 ^ 128)%N -> parse_uuid (uuid_str u) = Some u.
Proof. intros Hu. by rewrite parse_uuid_str, N.mod_small. Qed.

Lemma decode_result sp v :
  SpecOK sp -> RecordOK sp v -> decode_record_result (encode_record_result v) sp = Ok v.
Proof.
  intros Hsp Hv. destruct (record_id_ok _ _ Hv) as [Hid Hver]. destruct Hv as [(e & He & Hn) Hm _ _ Hcr Hup].
  destruct (spec_entity_in _ _ _ He) as [Hin Hname]. unfold decode_record_result.
  rewrite (decode_canonical _ (record_result_readable v Hver (nr_frozen _ _ _ Hn) (nr_floats _ _ _ Hn)) :
             decode_canonical_json (encode_record_result v) = _).
  rewrite (record_json_sorted v (nr_frozen _ _ _ Hn)). cbn [mbind option_bind].
  match goal with |- context [exact_keys ?k (JObj ?es)] =>
    change (exact_keys k (JObj es)) with (Some es); set (outer := es) end. cbn [mbind option_bind].
  change (get_str outer (lit "kind")) with (Some (lit "record")). cbn [mbind option_bind].
  match eval cbv [outer] in outer with [_; (_, ?x)] => change (dict_get outer (lit "record")) with (Some x) end.
  cbn [mbind option_bind].
  match goal with |- context [exact_keys ?k (JObj ?es)] =>
    change (exact_keys k (JObj es)) with (Some es); set (inner := es) end. cbn [mbind option_bind].
  change (get_str inner (lit "entity_name")) with (Some (rv_entity v)).
  change (dict_get inner (lit "fields")) with (Some (JObj (rv_fields v))). cbn [mbind option_bind].
  assert (validate_create sp (rv_entity v) (rv_fields v) = Ok (rv_fields v)) as ->
    by (rewrite <- Hname; apply Hn). cbn [ok_of mbind option_bind].
  change (get_uuid inner (lit "id")) with (parse_uuid (uuid_str (rv_id v))). rewrite parse_uuid_id by lia.
  change (get_int inner (lit "record_version")) with (Some (rv_version v)). cbn [mbind option_bind].
  rewrite revision_ok by done.
  change (get_str inner (lit "created_at")) with (Some (encode_time (rv_created_at v))).
  change (get_str inner (lit "updated_at")) with (Some (encode_time (rv_updated_at v))).
  change (get_str inner (lit "created_via")) with (Some (rv_created_via v)). cbn [mbind option_bind].
  rewrite (Hcr : decode_time _ = _), (Hup : decode_time _ = _). cbn [mbind option_bind].
  assert ({| rv_entity := rv_entity v; rv_id := rv_id v; rv_version := rv_version v; rv_created_at := rv_created_at v;
             rv_updated_at := rv_updated_at v; rv_created_via := rv_created_via v; rv_fields := rv_fields v |} = v)
    as -> by (by destruct v).
  rewrite Hm. cbn [ok_of mbind option_bind]. by rewrite !bool_decide_true by done.
Qed.

Lemma decode_delete sp o entity e :
  spec_entity sp entity = Some e -> (0 < do_id o < 2 ^ 128)%N -> 1 <= do_version o <= MAX_REVISION ->
  decode_delete_result (encode_delete_result o entity) sp entity
  = Ok {| do_id := do_id o; do_version := do_version o; do_replayed := true |}.
Proof.
  intros He Hid Hver. unfold decode_delete_result.
  set (j := JObj [(lit "kind", jstr (lit "delete")); (lit "entity_name", jstr entity);
                  (lit "id", jstr (uuid_str (do_id o))); (lit "record_version", jint (do_version o))]).
  assert (readable j = true) as Hr.
  { transitivity (is_signed_64_integer (PyInt (do_version o)) && true); [done|]. cbn.
    unfold SIGNED_64_MIN, SIGNED_64_MAX. unfold MAX_REVISION in Hver. bools. lia. }
  rewrite (decode_canonical _ Hr : decode_canonical_json (encode_delete_result o entity) = _).
  change (sort_keys j) with (JObj [(lit "entity_name", jstr entity); (lit "id", jstr (uuid_str (do_id o)));
                                   (lit "kind", jstr (lit "delete")); (lit "record_version", jint (do_version o))]).
  cbn [mbind option_bind].
  match goal with |- context [exact_keys ?k (JObj ?es)] =>
    change (exact_keys k (JObj es)) with (Some es); set (inner := es) end. cbn [mbind option_bind].
  change (get_str inner (lit "kind")) with (Some (lit "delete")).
  change (get_str inner (lit "entity_name")) with (Some entity). cbn [mbind option_bind].
  rewrite He. cbn [mbind option_bind].
  change (get_uuid inner (lit "id")) with (parse_uuid (uuid_str (do_id o))). rewrite parse_uuid_id by lia.
  change (get_int inner (lit "record_version")) with (Some (do_version o)). cbn [mbind option_bind].
  rewrite revision_ok by done. cbn [mbind option_bind].
  assert (make_delete_outcome {| do_id := do_id o; do_version := do_version o; do_replayed := true |}
          = Ok {| do_id := do_id o; do_version := do_version o; do_replayed := true |}) as ->.
  { unfold make_delete_outcome, require_uuid, require_revision. cbn [do_id do_version].
    rewrite !contract_run; [done|by apply Z.leb_le; lia|]. apply negb_true_iff, N.eqb_neq. lia. }
  cbn [ok_of mbind option_bind]. by rewrite !bool_decide_true by done.
Qed.
End fields.
