(* ===== verification/Base64.v ===== *)
(** * Base64: the URL-safe alphabet without padding, and UTF-8 read back

    [base64.urlsafe_b64encode(raw).decode().rstrip("=")], the decoding of its
    texts with the padding restored, and [bytes.decode("utf-8")]. *)
From S2P Require Import Relational.
From S2P Require Export Sha256 RecordCommands.
From S2P Require Import Prelude Values Json JsonText.

(** ** Base 64 *)
Definition b64_char (n : N) : N :=
  if (n <? 26)%N then (65 + n)%N else if (n <? 52)%N then (71 + n)%N else if (n <? 62)%N then (n - 4)%N
  else if (n =? 62)%N then 45%N else 95%N.

Definition b64_value (c : N) : option N :=
  if ((65 <=? c) && (c <=? 90))%N then Some (c - 65)%N
  else if ((97 <=? c) && (c <=? 122))%N then Some (c - 71)%N
  else if ((48 <=? c) && (c <=? 57))%N then Some (c + 4)%N
  else if (c =? 45)%N then Some 62%N
  else if (c =? 95)%N then Some 63%N else None.

Fixpoint b64_encode (bytes : list N) : pystr :=
  match bytes with
  | [] => []
  | [a] => [b64_char (a / 4); b64_char (a mod 4 * 16)]
  | [a; b] => [b64_char (a / 4); b64_char (a mod 4 * 16 + b / 16); b64_char (b mod 16 * 4)]
  | a :: b :: c :: rest =>
      b64_char (a / 4) :: b64_char (a mod 4 * 16 + b / 16) :: b64_char (b mod 16 * 4 + c / 64) :: b64_char (c mod 64)
      :: b64_encode rest
  end%N.

(** Bits that are left over are dropped. *)
Fixpoint b64_decode (s : pystr) : option (list N) :=
  match s with
  | [] => Some []
  | [_] => None
  | [w; x] => a ← b64_value w; b ← b64_value x; Some [a * 4 + b / 16]%N
  | [w; x; y] =>
      a ← b64_value w; b ← b64_value x; c ← b64_value y; Some [a * 4 + b / 16; b mod 16 * 16 + c / 4]%N
  | w :: x :: y :: z :: rest =>
      a ← b64_value w; b ← b64_value x; c ← b64_value y; d ← b64_value z;
      l ← b64_decode rest; Some ([a * 4 + b / 16; b mod 16 * 16 + c / 4; c mod 4 * 64 + d]%N ++ l)
  end.

Lemma b64_value_char n : (n < 64)%N -> b64_value (b64_char n) = Some n.
Proof.
  intros Hn. assert (exists k, n = N.of_nat k /\ (k < 64)%nat) as (k & -> & Hk) by (exists (N.to_nat n); lia).
  do 64 (destruct k as [|k]; [reflexivity|]). lia.
Qed.

Lemma b64_char_safe n : url_safe (b64_char n) = true.
Proof.
  unfold url_safe, b64_char, is_lower, is_digit.
  destruct (N.ltb_spec n 26); [|destruct (N.ltb_spec n 52); [|destruct (N.ltb_spec n 62); [|by destruct (N.eqb_spec n 62)]]];
    rewrite ?orb_true_iff, ?andb_true_iff, ?N.leb_le; lia.
Qed.

Definition bytes_ok (bytes : list N) : Prop := Forall (fun b => (b < 256)%N) bytes.

(** Three bytes and four digits. *)
Lemma three_bytes (f : list N -> Prop) :
  f [] -> (forall a, f [a]) -> (forall a b, f [a; b]) -> (forall a b c l, f l -> f (a :: b :: c :: l)) -> forall l, f l.
Proof.
  intros H0 H1 H2 H3. fix IH 1. intros [|a [|b [|c l]]]; [exact H0|apply H1|apply H2|apply H3, IH].
Qed.

(** A byte as its high and its low part. *)
Ltac parts a k :=
  let q := fresh "q" in let r := fresh "r" in
  pose proof (N.div_mod a k ltac:(done)); pose proof (N.mod_lt a k ltac:(done));
  set (q := (a / k)%N) in *; set (r := (a mod k)%N) in *; clearbody q r.

Lemma low_part q k r : (r < k)%N -> ((q * k + r) / k = q)%N /\ ((q * k + r) mod k = r)%N.
Proof.
  intros Hr. assert (k <> 0)%N by lia.
  rewrite N.div_add_l, N.div_small, (N.add_comm (q * k)), N.Div0.mod_add, N.mod_small by lia. lia.
Qed.

Lemma low_zero q k : (k <> 0)%N -> (q * k / k = q)%N /\ (q * k mod k = 0)%N.
Proof. intros Hk. by rewrite N.div_mul, N.Div0.mod_mul. Qed.

Lemma b64_roundtrip bytes : bytes_ok bytes -> b64_decode (b64_encode bytes) = Some bytes.
Proof.
  induction bytes as [|a|a b|a b c l IH] using three_bytes; intros Hb; [done|..];
    unfold bytes_ok in *; rewrite ?Forall_cons in Hb; destruct_and? Hb;
    cbn [b64_encode b64_decode]; parts a 4%N.
  - repeat (rewrite b64_value_char; [cbn [mbind option_bind]|lia]).
    rewrite (proj1 (low_zero _ 16 ltac:(done))). do 2 f_equal. lia.
  - parts b 16%N. repeat (rewrite b64_value_char; [cbn [mbind option_bind]|lia]).
    destruct (low_part r 16 q0 ltac:(lia)) as [-> ->]. rewrite (proj1 (low_zero _ 4 ltac:(done))).
    do 2 f_equal; [lia|]. f_equal. lia.
  - parts b 16%N. parts c 64%N. repeat (rewrite b64_value_char; [cbn [mbind option_bind]|lia]).
    rewrite IH by done. cbn [mbind option_bind app].
    destruct (low_part r 16 q0 ltac:(lia)) as [-> ->], (low_part r0 4 q1 ltac:(lia)) as [-> ->].
    do 2 f_equal; [lia|]. f_equal; [lia|]. f_equal. lia.
Qed.

Lemma b64_length bytes : (3 * length (b64_encode bytes) <= 4 * length bytes + 4)%nat.
Proof.
  induction bytes as [|a|a b|a b c l IH] using three_bytes; cbn [b64_encode length]; lia.
Qed.

Lemma b64_safe bytes : forallb url_safe (b64_encode bytes) = true.
Proof.
  induction bytes as [|a|a b|a b c l IH] using three_bytes; cbn [b64_encode forallb]; rewrite ?b64_char_safe; [done..|].
  by rewrite IH.
Qed.

(** ** UTF-8 *)
Definition continuation (b : N) : bool := ((128 <=? b) && (b <? 192))%N.

Definition utf8_of (low high : N) (c : N) : option N :=
  if ((low <=? c) && (c <? high))%N && unicode_scalar c then Some c else None.

Fixpoint utf8_decode (bytes : list N) : option pystr :=
  match bytes with
  | [] => Some []
  | a :: r =>
      if (a <? 128)%N then cons a <$> utf8_decode r else
      match r with
      | [] => None
      | b :: r =>
          if negb (continuation b) then None else
          if (a <? 224)%N then
            c ← (if (192 <=? a)%N then utf8_of 128 2048 ((a - 192) * 64 + (b - 128)) else None); cons c <$> utf8_decode r
          else
            match r with
            | [] => None
            | d :: r =>
                if negb (continuation d) then None else
                if (a <? 240)%N then
                  c ← utf8_of 2048 65536 ((a - 224) * 4096 + (b - 128) * 64 + (d - 128)); cons c <$> utf8_decode r
                else
                  match r with
                  | [] => None
                  | e :: r =>
                      if negb (continuation e) then None else
                      c ← (if (a <? 248)%N
                           then utf8_of 65536 1114112 ((a - 240) * 262144 + (b - 128) * 4096 + (d - 128) * 64 + (e - 128))
                           else None);
                      cons c <$> utf8_decode r
                  end
            end
      end
  end.

Lemma ascii_utf8 s : ascii s = true -> utf8 s = s /\ utf8_decode s = Some s /\ bytes_ok s.
Proof.
  induction s as [|c s IH]; intros Hs; [split_and!; [done..|constructor]|].
  unfold ascii in Hs. cbn [forallb] in Hs. apply andb_true_iff in Hs as [Hc Hs].
  destruct (IH Hs) as (Hu & Hd & Hb). split_and!.
  - unfold utf8 in *. cbn [map concat]. unfold utf8_char at 1. by rewrite Hc, Hu.
  - cbn [utf8_decode]. by rewrite Hc, Hd.
  - constructor; [|done]. apply N.ltb_lt in Hc. lia.
Qed.

(** What is encoded is decoded. *)
Lemma utf8_of_ok low high c :
  unicode_scalar c = true -> (low <= c < high)%N -> utf8_of low high c = Some c.
Proof.
  intros Hc Hr. unfold utf8_of. by rewrite (proj2 (N.leb_le _ _)), (proj2 (N.ltb_lt _ _)), Hc by lia.
Qed.

Lemma continuation_ok r : (r < 64)%N -> continuation (128 + r) = true.
Proof. intros Hr. unfold continuation. by rewrite (proj2 (N.leb_le _ _)), (proj2 (N.ltb_lt _ _)) by lia. Qed.

Lemma utf8_char_read c rest :
  unicode_scalar c = true -> utf8_decode (utf8_char c ++ rest) = cons c <$> utf8_decode rest.
Proof.
  intros Hc. unfold utf8_char. destruct (N.ltb_spec c 128) as [H1|H1].
  { cbn [app utf8_decode]. by rewrite (proj2 (N.ltb_lt _ _)). }
  destruct (N.ltb_spec c 2048) as [H2|H2].
  { parts c 64%N. cbn [app utf8_decode]. rewrite continuation_ok by done.
    rewrite (proj2 (N.ltb_ge _ 128)), (proj2 (N.ltb_lt _ 224)), (proj2 (N.leb_le 192 _)) by lia. cbn [negb].
    replace ((192 + q - 192) * 64 + (128 + r - 128))%N with c by lia.
    rewrite utf8_of_ok by (done || lia). done. }
  assert (c < 1114112)%N as Hmax by (unfold unicode_scalar in Hc; bools; lia).
  replace (c / 4096)%N with (c / 64 / 64)%N by (by rewrite N.Div0.div_div).
  replace (c / 262144)%N with (c / 64 / 64 / 64)%N by (by rewrite !N.Div0.div_div).
  destruct (N.ltb_spec c 65536) as [H3|H3]; parts c 64%N; parts q 64%N.
  - cbn [app utf8_decode]. rewrite !continuation_ok by done.
    rewrite (proj2 (N.ltb_ge _ 128)), (proj2 (N.ltb_ge _ 224)), (proj2 (N.ltb_lt _ 240)) by lia. cbn [negb].
    replace ((224 + q0 - 224) * 4096 + (128 + r0 - 128) * 64 + (128 + r - 128))%N with c by lia.
    rewrite utf8_of_ok by (done || lia). done.
  - parts q0 64%N. cbn [app utf8_decode]. rewrite !continuation_ok by done.
    rewrite (proj2 (N.ltb_ge _ 128)), (proj2 (N.ltb_ge _ 224)), (proj2 (N.ltb_ge _ 240)), (proj2 (N.ltb_lt _ 248)) by lia.
    cbn [negb]. replace ((240 + q1 - 240) * 262144 + (128 + r1 - 128) * 4096 + (128 + r0 - 128) * 64 + (128 + r - 128))%N
      with c by lia.
    rewrite utf8_of_ok by (done || lia). done.
Qed.

Lemma utf8_roundtrip s : unicode s = true -> utf8_decode (utf8 s) = Some s.
Proof.
  induction s as [|c s IH]; [done|]. unfold unicode. cbn [forallb]. intros [Hc Hs]%andb_true_iff.
  unfold utf8 in *. cbn [map concat]. by rewrite utf8_char_read, IH.
Qed.

Lemma utf8_inj s t : unicode s = true -> unicode t = true -> utf8 s = utf8 t -> s = t.
Proof. intros Hs%utf8_roundtrip Ht%utf8_roundtrip Heq. rewrite Heq in Hs. congruence. Qed.

Example utf8_read :
  utf8_decode (utf8 [65; 233; 8364; 128512]%N) = Some [65; 233; 8364; 128512]%N
  /\ utf8_decode [237; 160; 128]%N = None /\ utf8_decode [192; 128]%N = None.
Proof. by vm_compute. Qed.
