(* ===== verification/RecordStore.v ===== *)
(** * RecordStore: the record operations of the SQLite data store

    [storage/sqlite/data_store.py]: the checks before a transaction, what each
    operation does inside one, and [_mutate], which runs a mutation, looks for
    its evidence when the commit is uncertain, and retries it once. *)
From S2P Require Export RecordCodecs Prog.
From S2P Require Import Prelude Values Json JsonText Sha256 Manifest.

(** A success or a [DataFailure]. *)
Inductive answer (A : Type) := Success (a : A) | Failure (c : DataFailureCode).
Arguments Success {A} a.
Arguments Failure {A} c.

Definition run_result {A} (m : result fault A) : stx A := match m with Ok a => ret a | Raise e => raise e end.

(** An exception that is not one of the storage faults. *)
Definition run_recorded {A} (m : recorded A) : stx A := match m with Ok a => ret a | Raise _ => raise OtherFault end.

(** What the environment gives one attempt: the clock, the identifier factories,
    and how far each step outside the database gets. *)
Inductive commit_outcome := Committed | LostCommit | DurableCommit.

Inductive readiness := Ready | Outdated (applied target : Z) | Dirty (applied target : Z) | OtherStatus.

Record attempt := {
  at_inspect : result fault readiness;
  at_migrate : result fault readiness;
  at_open : result fault unit;
  at_ready : result fault unit;
  at_now : result fault datetime;
  at_record_id : result fault UUID;
  at_branch_id : result fault UUID;
  at_commit : commit_outcome
}.

(** [_new_id]. *)
Definition new_id (m : result fault UUID) : stx UUID :=
  u ← run_result m; raise_when (u =? 0)%N UnavailableFault ;; ret u.

(** ** Admission *)

(** [_text]. *)
Definition admitted_text (value : pystr) (maximum : nat) : bool :=
  bool_decide (value <> []) && bool_decide (value = strip value) && (length value <=? maximum)%nat && negb (has_nul value).

Section store.
Context `{FloatRead} `{IsoDates}.

(** [_detach_specification]: every constructor runs again. *)
Definition detach_specification (sp : RecordSpecification) : recorded RecordSpecification :=
  ents ← mapR (fun e => fields ← mapR make_field (re_fields e);
                         make_entity {| re_name := re_name e; re_fields := fields; re_description := re_description e |})
           (sp_entities sp);
  rels ← mapR make_relationship (sp_relationships sp);
  facets ← mapR make_facet (sp_facets sp);
  make_specification
    {| sp_schema_version := sp_schema_version sp; sp_entities := ents; sp_relationships := rels;
       sp_facets := facets; sp_query_patterns := sp_query_patterns sp;
       sp_retrieval_guidance := sp_retrieval_guidance sp |}.

(** [_admit]. *)
Definition admitted (principal via : pystr) (sp : RecordSpecification) : option RecordSpecification :=
  if admitted_text principal 128 && admitted_text via 128 then ok_of (detach_specification sp) else None.

(** [_fingerprint]: the digest of the canonical text, which must encode. *)
Definition fingerprint_of (payload : json) : option pystr :=
  let t := canonical_json payload in if unicode t then Some (sha256_hex (utf8 t)) else None.

(** ** Readiness of the store *)
Definition type_name (t : LogicalType) : pystr :=
  match t with
  | TString | TDatetime | TUuid | TStringList => lit "TEXT"
  | TInteger | TBoolean => lit "INTEGER"
  | TNumber => lit "REAL"
  end.

Definition column_matches (columns : list column_info) (f : RecordField) : bool :=
  match List.find (fun c => bool_decide (ci_name c = fd_name f)) columns with
  | None => false
  | Some c =>
      bool_decide (ci_type c = type_name (fd_type f)) && Bool.eqb (ci_notnull c) (fd_required f)
      && bool_decide (ci_default c = None) && (ci_pk c =? Z.b2z (fd_primary_key f)) && (ci_hidden c =? 0)
  end.

(** The order of tuples of texts. *)
Fixpoint texts_leb (a b : list pystr) : bool :=
  match a, b with
  | [], _ => true
  | _ :: _, [] => false
  | x :: a', y :: b' => if bool_decide (x = y) then texts_leb a' b' else str_leb x y
  end.

Definition expected_keys (sp : RecordSpecification) (entity : pystr) : list (list pystr) :=
  sorted_by texts_leb id
    (map (fun r => [rl_target_entity r; rl_source_field r; rl_target_field r; lit "RESTRICT"; lit "RESTRICT"; lit "NONE"])
       (List.filter (fun r => bool_decide (rl_source_entity r = entity)) (sp_relationships sp))).
Definition actual_keys (t : table) : list (list pystr) :=
  sorted_by texts_leb id
    (map (fun k => [fk_table k; fk_from k; fk_to k; fk_on_update k; fk_on_delete k; fk_match k]) (t_foreign_keys t)).

Definition entity_ready (sp : RecordSpecification) (s : store) (e : RecordEntity) : bool :=
  match st_tables s !! re_name e with
  | None => false
  | Some t =>
      let names := map fd_name (re_fields e) in
      bool_decide (t_columns t <> [])
      && subset_of (map ci_name (t_columns t)) names && subset_of names (map ci_name (t_columns t))
      && forallb (column_matches (t_columns t)) (re_fields e)
      && bool_decide (actual_keys t = expected_keys sp (re_name e))
  end.

(** [_require_domain]. *)
Definition domain_ready (sp : RecordSpecification) (s : store) : bool := forallb (entity_ready sp s) (sp_entities sp).

(** ** The write-admission fence: [storage/write_admission.py] *)
Inductive FenceState := FenceOpen | FenceClosed.
Record WriteAdmissionFence := { fence_generation : Z; fence_state : FenceState }.

Definition FENCE_IDEMPOTENCY_KEY : pystr := lit "__aipcs_write_admission".
Definition FENCE_OPERATION_KIND : pystr := lit "write_admission".
Definition FENCE_FINGERPRINT : pystr := sha256_hex (utf8 (lit "aipcs-write-admission-v1")).
Definition INITIAL_FENCE : WriteAdmissionFence := {| fence_generation := 1; fence_state := FenceOpen |}.

Definition fence_text (f : FenceState) : pystr :=
  match f with FenceOpen => lit "open" | FenceClosed => lit "closed" end.
Definition make_fence (generation : Z) (state : pystr) : option WriteAdmissionFence :=
  if (1 <=? generation) && (generation <=? 2 ^ 63 - 1) then
    if bool_decide (state = lit "open") then Some {| fence_generation := generation; fence_state := FenceOpen |}
    else if bool_decide (state = lit "closed") then Some {| fence_generation := generation; fence_state := FenceClosed |}
    else None
  else None.

Definition encode_fence (f : WriteAdmissionFence) : pystr :=
  canonical_json (JObj [(lit "generation", jint (fence_generation f)); (lit "state", jstr (fence_text (fence_state f)))]).

Definition decode_fence (text : pystr) : option WriteAdmissionFence :=
  raw ← json_loads text;
  es ← exact_keys [lit "generation"; lit "state"] raw;
  generation ← get_int es (lit "generation");
  state ← get_str es (lit "state");
  f ← make_fence generation state;
  if bool_decide (encode_fence f = text) then Some f else None.

(** [_write_admission_open]: no row is the initial, open fence. *)
Definition fence_rows (s : store) : list ((pystr * pystr) * mutation) :=
  List.filter (fun e : (pystr * pystr) * mutation => bool_decide (mu_kind e.2 = FENCE_OPERATION_KIND))
    (map_to_list (st_mutations s)).

Definition write_admission_open (s : store) : result fault bool :=
  match fence_rows s with
  | [] => Ok (bool_decide (fence_text (fence_state INITIAL_FENCE) = lit "open"))
  | [(k, m)] =>
      if bool_decide (k.2 = FENCE_IDEMPOTENCY_KEY) && bool_decide (mu_fingerprint m = FENCE_FINGERPRINT) then
        match decode_fence (mu_result m) with
        | Some f => Ok (bool_decide (fence_text (fence_state f) = lit "open"))
        | None => Raise MigrationFault
        end
      else Raise MigrationFault
  | _ => Raise MigrationFault
  end.

(** ** Evidence of completed mutations *)
Definition mutation_row (principal key : pystr) : stx (option mutation) :=
  bind_texts [principal; key] ;; reading (fun s => st_mutations s !! (principal, key)).

Definition same_command (m : mutation) (kind fingerprint : pystr) : bool :=
  bool_decide (mu_kind m = kind) && bool_decide (mu_fingerprint m = fingerprint).

(** [_record_replay] and [_delete_replay]: [decode] reads the stored result. *)
Definition replay {A} (principal key kind fingerprint : pystr) (decode : pystr -> result fault A)
  : stx (option (answer A)) :=
  found ← mutation_row principal key;
  match found with
  | None => ret None
  | Some m =>
      if same_command m kind fingerprint
      then (value ← run_result (decode (mu_result m)); ret (Some (Success value)))
      else ret (Some (Failure changed_fingerprint))
  end.

(** [_observe_record_replay] and [_observe_delete_replay]. *)
Definition observe_replay {A} (principal key kind fingerprint : pystr) (decode : pystr -> result fault A)
  : stx (option A) :=
  found ← mutation_row principal key;
  match found with
  | None => ret None
  | Some m =>
      if same_command m kind fingerprint
      then (value ← run_result (decode (mu_result m)); ret (Some value))
      else raise OtherFault
  end.

Definition replayed_record (sp : RecordSpecification) (text : pystr) : result fault RecordMutationOutcome :=
  v ← decode_record_result text sp; Ok {| rm_record := Some v; rm_replayed := true |}.

(** [_complete_mutation]. *)
Definition complete_mutation (principal key kind fingerprint result : pystr) (now : datetime) : stx unit :=
  insert_mutation principal key
    {| mu_kind := kind; mu_fingerprint := fingerprint; mu_result := result; mu_completed_at := now |}.

(** [_append_history]. *)
Definition snapshot (fields : list (pystr * json)) : pystr := canonical_json (JObj fields).

Definition append_history (principal : pystr) (v : RecordValue) (kind : EventKind)
    (before after : option (list (pystr * json))) (now : datetime) : stx unit :=
  insert_history (fun seq =>
    {| h_sequence := seq; h_principal := principal; h_entity := rv_entity v; h_record := rv_id v;
       h_version := rv_version v; h_kind := kind; h_before := snapshot <$> before; h_after := snapshot <$> after;
       h_occurred_at := now |}).

(** ** Rows *)

(** [_select_record]. *)
Definition find_row (s : store) (principal entity : pystr) (id : UUID) : option row :=
  match table_rows s entity !! id with
  | Some r => if bool_decide (r_owner_id r = principal) then Some r else None
  | None => None
  end.

Definition select_record (principal : pystr) (sp : RecordSpecification) (entity : pystr) (id : UUID)
  : stx (option RecordValue) :=
  bind_texts [principal] ;;
  the_table entity ;;
  found ← reading (fun s => find_row s principal entity id);
  match found with
  | None => ret None
  | Some r => v ← run_result (decode_record sp principal entity id r); ret (Some v)
  end.

(** [_require_references]: every relationship whose source field is set finds
    its target among the records of the same owner. *)
Definition refers_to_owned (s : store) (principal target column : pystr) (v : sqlval) : bool :=
  existsb (fun e : UUID * row => sql_eqb (cell e.1 e.2 column) v && bool_decide (r_owner_id e.2 = principal))
    (map_to_list (table_rows s target)).

Fixpoint require_references (principal entity : pystr) (fields : list (pystr * json)) (rels : list RecordRelationship)
  : stx unit :=
  match rels with
  | [] => ret tt
  | r :: rels' =>
      (if bool_decide (rl_source_entity r = entity) then
         match default JNull (dict_get fields (rl_source_field r)) with
         | JNull => ret tt
         | value =>
             v ← run_result (bound_value value);
             the_table (rl_target_entity r) ;;
             found ← reading (fun s => refers_to_owned s principal (rl_target_entity r) (rl_target_field r) v);
             raise_when (negb found) ConstraintViolation
         end
       else ret tt) ;;
      require_references principal entity fields rels'
  end.

(** [_insert_record] and [_update_record]. *)
Definition entity_columns (sp : RecordSpecification) (entity : pystr) (fields : list (pystr * json))
  : stx (gmap pystr sqlval) :=
  match spec_entity sp entity with
  | Some e => run_result (encode_fields e fields)
  | None => raise OtherFault
  end.

Definition insert_record (principal : pystr) (sp : RecordSpecification) (v : RecordValue) : stx unit :=
  columns ← entity_columns sp (rv_entity v) (rv_fields v);
  insert_row (rv_entity v) (rv_id v)
    {| r_owner_id := principal; r_created_at := rv_created_at v; r_updated_at := rv_updated_at v;
       r_created_via := rv_created_via v; r_record_version := rv_version v; r_domain := columns |}.

Definition set_row (v : RecordValue) (columns : gmap pystr sqlval) (r : row) : row :=
  {| r_owner_id := r_owner_id r; r_created_at := r_created_at r; r_updated_at := rv_updated_at v;
     r_created_via := r_created_via r; r_record_version := rv_version v; r_domain := columns |}.

Definition update_record_row (principal : pystr) (sp : RecordSpecification) (v : RecordValue) (expected : Z) : stx bool :=
  columns ← entity_columns sp (rv_entity v) (rv_fields v);
  update_row (rv_entity v) (rv_id v) principal expected (set_row v columns).

(** ** The operations inside a transaction *)
Definition create_payload (via : pystr) (c : CreateRecordCommand) (record : list (pystr * json)) : json :=
  JObj [ (lit "operation", jstr (lit "create_record")); (lit "created_via", jstr via);
         (lit "entity_name", jstr (cr_entity c)); (lit "record", JObj record) ].

Definition new_record (c : CreateRecordCommand) (via : pystr) (id : UUID) (now : datetime)
    (record : list (pystr * json)) : RecordValue :=
  {| rv_entity := cr_entity c; rv_id := id; rv_version := 1; rv_created_at := now; rv_updated_at := now;
     rv_created_via := via; rv_fields := record |}.

Definition create_record_op (a : attempt) (principal via : pystr) (sp : RecordSpecification)
    (c : CreateRecordCommand) (record : list (pystr * json)) (fp : pystr) : stx (answer RecordMutationOutcome) :=
  seen ← replay principal (cr_key c) (lit "create_record") fp (replayed_record sp);
  match seen with
  | Some r => ret r
  | None =>
      now ← run_result (at_now a);
      id ← new_id (at_record_id a);
      value ← run_recorded (make_record_value (new_record c via id now record));
      require_references principal (cr_entity c) record (sp_relationships sp) ;;
      insert_record principal sp value ;;
      append_history principal value create_event None (Some record) now ;;
      complete_mutation principal (cr_key c) (lit "create_record") fp (encode_record_result value) now ;;
      ret (Success {| rm_record := Some value; rm_replayed := false |})
  end.

Definition update_payload (via : pystr) (c : UpdateRecordCommand) (updates : list (pystr * json)) : json :=
  JObj [ (lit "operation", jstr (lit "update_record")); (lit "created_via", jstr via);
         (lit "entity_name", jstr (ur_entity c)); (lit "record_id", jstr (uuid_str (ur_record c)));
         (lit "expected_record_version", jint (ur_version c)); (lit "updates", JObj updates) ].

(** [merged = before.fields.to_dict(); merged.update(updates)]. *)
Definition merge_fields (fields updates : list (pystr * json)) : list (pystr * json) :=
  fold_left (fun d kv => dict_set d kv.1 kv.2) updates fields.

Definition updated_record (before : RecordValue) (now : datetime) (fields : list (pystr * json)) : RecordValue :=
  {| rv_entity := rv_entity before; rv_id := rv_id before; rv_version := rv_version before + 1;
     rv_created_at := rv_created_at before; rv_updated_at := now; rv_created_via := rv_created_via before;
     rv_fields := fields |}.

Definition update_record_op (a : attempt) (principal : pystr) (sp : RecordSpecification)
    (c : UpdateRecordCommand) (updates : list (pystr * json)) (fp : pystr) : stx (answer RecordMutationOutcome) :=
  seen ← replay principal (ur_key c) (lit "update_record") fp (replayed_record sp);
  match seen with
  | Some r => ret r
  | None =>
      found ← select_record principal sp (ur_entity c) (ur_record c);
      match found with
      | None => ret (Failure not_found)
      | Some before =>
          if negb (rv_version before =? ur_version c) then ret (Failure stale_record_version) else
          match (given ← validate_create sp (ur_entity c) (merge_fields (rv_fields before) updates);
                 normalise_fields sp (ur_entity c) given) with
          | Raise _ => ret (Failure validation_failed)
          | Ok fields =>
              require_references principal (ur_entity c) fields (sp_relationships sp) ;;
              now ← run_result (at_now a);
              after ← run_recorded (make_record_value (updated_record before now fields));
              changed ← update_record_row principal sp after (rv_version before);
              if negb changed then ret (Failure stale_record_version) else
              append_history principal after update_event (Some (rv_fields before)) (Some (rv_fields after)) now ;;
              complete_mutation principal (ur_key c) (lit "update_record") fp (encode_record_result after) now ;;
              ret (Success {| rm_record := Some after; rm_replayed := false |})
          end
      end
  end.

Definition delete_payload (via : pystr) (c : DeleteRecordCommand) : json :=
  JObj [ (lit "operation", jstr (lit "delete_record")); (lit "created_via", jstr via);
         (lit "entity_name", jstr (dr_entity c)); (lit "record_id", jstr (uuid_str (dr_record c)));
         (lit "expected_record_version", jint (dr_version c)) ].

Definition delete_record_op (a : attempt) (principal : pystr) (sp : RecordSpecification)
    (c : DeleteRecordCommand) (fp : pystr) : stx (answer DeleteRecordOutcome) :=
  seen ← replay principal (dr_key c) (lit "delete_record") fp
           (fun text => decode_delete_result text sp (dr_entity c));
  match seen with
  | Some r => ret r
  | None =>
      found ← select_record principal sp (dr_entity c) (dr_record c);
      match found with
      | None => ret (Failure not_found)
      | Some before =>
          if negb (rv_version before =? dr_version c) then ret (Failure stale_record_version) else
          now ← run_result (at_now a);
          delete_members principal (dr_entity c) (dr_record c) (fun _ => true) ;;
          gone ← delete_row (dr_entity c) (dr_record c) principal (rv_version before);
          if negb gone then ret (Failure stale_record_version) else
          terminal ← run_recorded (make_record_value (updated_record before now (rv_fields before)));
          append_history principal terminal delete_event (Some (rv_fields before)) None now ;;
          result ← run_recorded (make_delete_outcome
            {| do_id := dr_record c; do_version := rv_version before + 1; do_replayed := false |});
          complete_mutation principal (dr_key c) (lit "delete_record") fp
            (encode_delete_result result (dr_entity c)) now ;;
          ret (Success result)
      end
  end.

(** ** Attempts, observations and reads *)

(** The [DataFailure] an exception becomes in [_read] and [_mutate_once]. *)
Definition fault_code (e : fault) : DataFailureCode :=
  match e with
  | ConstraintViolation | IntegrityError => constraint_violation
  | MigrationFault => storage_migration_required
  | BusyFault => storage_busy
  | DatabaseError busy => if busy then storage_busy else storage_unavailable
  | UnavailableFault => storage_unavailable
  | OtherFault => internal_error
  end.

(** A settled attempt, or [_UncertainMutation]. *)
Inductive attempted (A : Type) := Settled (r : answer A) | Uncertain.
Arguments Settled {A} r.
Arguments Uncertain {A}.

(** The part of [_mutate_once] before the operation. *)
Definition needs_migration (r : readiness) : bool :=
  match r with Outdated 2 3 | Dirty 2 3 => true | _ => false end.

Definition prepared (a : attempt) (sp : RecordSpecification) (s : store) : result fault bool :=
  state ← at_inspect a;
  state ← (if needs_migration state then at_migrate a else Ok state);
  raise_if (match state with Ready => false | _ => true end) MigrationFault ;;
  at_open a ;;
  at_ready a ;;
  raise_if (negb (domain_ready sp s)) MigrationFault ;;
  write_admission_open s.

(** [_mutate_once]: anything but a success rolls back. *)
Definition mutate_once {A} (a : attempt) (sp : RecordSpecification) (op : stx (answer A)) (s : store)
  : attempted A * store :=
  match prepared a sp s with
  | Raise e => (Settled (Failure (fault_code e)), s)
  | Ok false => (Settled (Failure write_admission_closed), s)
  | Ok true =>
      match op s with
      | (Raise e, _) => (Settled (Failure (fault_code e)), s)
      | (Ok (Failure c), _) => (Settled (Failure c), s)
      | (Ok (Success r), s') =>
          match at_commit a with
          | Committed => (Settled (Success r), s')
          | LostCommit => (Uncertain, s)
          | DurableCommit => (Uncertain, s')
          end
      end
  end.

(** A transaction that only reads: opened, ready, the domain as declared. *)
Definition reading_ready (a : attempt) (sp : RecordSpecification) (s : store) : result fault unit :=
  at_open a ;; at_ready a ;; raise_if (negb (domain_ready sp s)) MigrationFault.

(** [_observe_completed]: [None] is the absence of evidence, and any exception
    leaves the mutation uncertain. *)
Definition observe_completed {A} (a : attempt) (sp : RecordSpecification) (observer : stx (option A)) (s : store)
  : option (answer A) :=
  match (reading_ready a sp s ;; (observer s).1) with
  | Ok found => Success <$> found
  | Raise _ => Some (Failure operation_uncertain)
  end.

(** [_read]. *)
Definition read_store {A} (a : attempt) (sp : RecordSpecification) (op : stx (answer A)) (s : store) : answer A :=
  match (reading_ready a sp s ;; (op s).1) with
  | Ok r => r
  | Raise e => Failure (fault_code e)
  end.

(** [_mutate] asks its environment for attempts and observations. *)
Inductive mutation_query (A : Type) : Type -> Type :=
| Attempt : mutation_query A (attempted A)
| Observe : mutation_query A (option (answer A)).
Arguments Attempt {A}.
Arguments Observe {A}.

Definition mutate {A} : prog (mutation_query A) fault (answer A) :=
  first ← ask Attempt;
  match first with
  | Settled r => give r
  | Uncertain =>
      observed ← ask Observe;
      match observed with
      | Some r => give r
      | None =>
          retry ← ask Attempt;
          match retry with
          | Settled r => give r
          | Uncertain =>
              observed ← ask Observe;
              give (default (Failure operation_uncertain) observed)
          end
      end
  end.

(** ** The methods *)

(** What a mutation method hands to [_mutate]: the operation of an attempt and
    the observer.  A raised fault escapes the method. *)
Record mutation_plan (A : Type) := {
  pl_specification : RecordSpecification;
  pl_operation : attempt -> stx (answer A);
  pl_observer : stx (option A)
}.
Arguments pl_specification {A} m.
Arguments pl_operation {A} m.
Arguments pl_observer {A} m.

Inductive planned (A : Type) := Refused (c : DataFailureCode) | Planned (m : mutation_plan A) | Escapes.
Arguments Refused {A} c.
Arguments Planned {A} m.
Arguments Escapes {A}.

Definition create_record (principal via : pystr) (sp : RecordSpecification) (c : CreateRecordCommand)
  : planned RecordMutationOutcome :=
  match admitted principal via sp with
  | None => Refused validation_failed
  | Some checked =>
      match (given ← validate_create checked (cr_entity c) (cr_record c);
             normalise_fields checked (cr_entity c) given) with
      | Raise _ => Refused validation_failed
      | Ok record =>
          match fingerprint_of (create_payload via c record) with
          | None => Escapes
          | Some fp =>
              Planned {| pl_specification := checked;
                         pl_operation := fun a => create_record_op a principal via checked c record fp;
                         pl_observer := observe_replay principal (cr_key c) (lit "create_record") fp
                                          (replayed_record checked) |}
          end
      end
  end.

Definition update_record (principal via : pystr) (sp : RecordSpecification) (c : UpdateRecordCommand)
  : planned RecordMutationOutcome :=
  match admitted principal via sp with
  | None => Refused validation_failed
  | Some checked =>
      if MAX_REVISION <=? ur_version c then Refused validation_failed else
      match validate_updates checked (ur_entity c) (ur_updates c) with
      | Raise _ => Refused validation_failed
      | Ok updates =>
          match fingerprint_of (update_payload via c updates) with
          | None => Escapes
          | Some fp =>
              Planned {| pl_specification := checked;
                         pl_operation := fun a => update_record_op a principal checked c updates fp;
                         pl_observer := observe_replay principal (ur_key c) (lit "update_record") fp
                                          (replayed_record checked) |}
          end
      end
  end.

Definition delete_record (principal via : pystr) (sp : RecordSpecification) (c : DeleteRecordCommand)
  : planned DeleteRecordOutcome :=
  match admitted principal via sp with
  | None => Refused validation_failed
  | Some checked =>
      if MAX_REVISION <=? dr_version c then Refused validation_failed else
      match fingerprint_of (delete_payload via c) with
      | None => Escapes
      | Some fp =>
          Planned {| pl_specification := checked;
                     pl_operation := fun a => delete_record_op a principal checked c fp;
                     pl_observer := observe_replay principal (dr_key c) (lit "delete_record") fp
                                      (fun text => decode_delete_result text checked (dr_entity c)) |}
      end
  end.

(** [get_record]. *)
Definition get_record (a : attempt) (principal via : pystr) (sp : RecordSpecification) (q : GetRecordQuery) (s : store)
  : answer RecordValue :=
  match admitted principal via sp with
  | None => Failure validation_failed
  | Some checked =>
      match spec_entity checked (gr_entity q) with
      | None => Failure validation_failed
      | Some _ =>
          read_store a checked
            (found ← select_record principal checked (gr_entity q) (gr_record q);
             ret (match found with None => Failure not_found | Some v => Success v end)) s
      end
  end.
End store.

Arguments Success {A} a.
Arguments Failure {A} c.
Arguments Settled {A} r.
Arguments Uncertain {A}.
Arguments Attempt {A}.
Arguments Observe {A}.
Arguments pl_specification {A} m.
Arguments pl_operation {A} m.
Arguments pl_observer {A} m.
Arguments Refused {A} c.
Arguments Planned {A} m.
Arguments Escapes {A}.
