(* ===== verification/RecordMutation.v ===== *)
(** * RecordMutation: one mutation is applied at most once

    The contract between [_mutate] and the operations it runs: a success writes
    evidence under the idempotency key, in the same transaction as its effects,
    and the observer reads that evidence back.  Whatever happens to the commits
    of its attempts, and whatever other clients do in between, the same command
    under the same key included, a mutation is then applied at most once, a
    success it reports is backed by evidence, and a definite failure means that
    nothing was written. *)
From S2P Require Export RecordStore.
From S2P Require Import Prelude Values Json JsonText Manifest.

Section mutation.
Context `{FloatRead} `{IsoDates} {A : Type}.

(** ** The contract *)

(** The observer finds the evidence of the command, which says [r]. *)
Definition seen (pl : mutation_plan A) (s : store) (r : A) : Prop := (pl_observer pl s).1 = Ok (Some r).

Record Journalled (sane : attempt -> Prop) (good : store -> Prop) (pl : mutation_plan A) (key : pystr * pystr)
    (mark : A -> A) : Prop := {
  jn_success : forall a s r s', sane a -> good s -> pl_operation pl a s = (Ok (Success r), s') ->
    (s' = s /\ seen pl s r) \/ (st_mutations s !! key = None /\ seen pl s' (mark r));
  jn_good : forall a s r s', sane a -> good s -> pl_operation pl a s = (Ok (Success r), s') -> good s';
  jn_key : forall s s', st_mutations s !! key = st_mutations s' !! key -> (pl_observer pl s).1 = (pl_observer pl s').1;
  jn_none : forall s, (pl_observer pl s).1 = Ok None <-> st_mutations s !! key = None /\ is_ok (pl_observer pl s).1 = true
}.

(** ** Runs of [_mutate] against a store that other clients share *)
Section runs.
Variables (sane : attempt -> Prop) (good : store -> Prop) (pl : mutation_plan A) (key : pystr * pystr)
  (mark : A -> A).

(** What other clients may do between the transactions: they keep the store
    good and an entry of the ledger as it is.  They may write the entry of this
    command where there is none. *)
Variable others : relation store.
Hypothesis others_order : PreOrder others.
Hypothesis others_good : forall s s', others s s' -> good s -> good s'.
Hypothesis others_key : forall s s' m, others s s' -> st_mutations s !! key = Some m -> st_mutations s' !! key = Some m.

Definition serves (s : store) (e : event (mutation_query A) fault) (s' : store) : Prop :=
  match e with
  | Event q answered =>
      match q in mutation_query _ X return result fault X -> Prop with
      | Attempt => fun answered => exists s1 a r, others s s1 /\ sane a
          /\ mutate_once a (pl_specification pl) (pl_operation pl a) s1 = (r, s') /\ answered = Ok r
      | Observe => fun answered => others s s'
          /\ exists a, answered = Ok (observe_completed a (pl_specification pl) (pl_observer pl) s')
      end answered
  end.

(** The operation took effect, once, with this result: there was no evidence
    before, and there is evidence from then on. *)
Definition applied (s : store) (r : A) (s' : store) : Prop :=
  exists s1 a s2, others s s1 /\ sane a /\ st_mutations s1 !! key = None
    /\ pl_operation pl a s1 = (Ok (Success r), s2) /\ others s2 s' /\ seen pl s' (mark r).

Hypothesis contract : Journalled sane good pl key mark.

Lemma seen_others s s' r : others s s' -> seen pl s r -> seen pl s' r.
Proof using others_key contract.
  intros Ho Hr. destruct (st_mutations s !! key) as [m|] eqn:Hm.
  - unfold seen. by rewrite <-(jn_key _ _ _ _ _ contract s s') by (by rewrite Hm, (others_key _ _ m Ho)).
  - unfold seen in Hr. assert ((pl_observer pl s).1 = Ok None); [|congruence].
    apply (jn_none _ _ _ _ _ contract s). by rewrite Hr.
Qed.

Lemma applied_others s r s' s'' : applied s r s' -> others s' s'' -> applied s r s''.
Proof using others_order others_key contract.
  intros (s1 & a & s2 & Hb & Ha & Hn & Hop & Hc & Hr) Ho. exists s1, a, s2. split_and!; try done; [by etrans|].
  by eapply seen_others.
Qed.

Lemma others_applied s s0 r s' : others s s0 -> applied s0 r s' -> applied s r s'.
Proof using others_order.
  intros Ho (s1 & a & s2 & Hb & Ha & Hn & Hop & Hc & Hr). exists s1, a, s2. split_and!; try done. by etrans.
Qed.

(** One attempt: it settles without a change, settles with a result, or is
    uncertain, and then either way. *)
Lemma attempt_cases a s r s' :
  good s -> sane a -> mutate_once a (pl_specification pl) (pl_operation pl a) s = (r, s') ->
  match r with
  | Settled (Failure _) => s' = s
  | Settled (Success x) => (s' = s /\ seen pl s x) \/ applied s x s'
  | Uncertain => s' = s \/ exists x, applied s x s'
  end.
Proof using others_order contract.
  intros Hg Ha. unfold mutate_once. destruct (prepared _ _ _) as [[]|e]; [|by intros [= <- <-]..].
  destruct (pl_operation pl a s) as [[[x|c]|e] s1] eqn:Hop; [|by intros [= <- <-]..].
  assert (st_mutations s !! key = None -> seen pl s1 (mark x) -> applied s x s1) as Happ
    by (intros Hn Hev; exists s, a, s1; split_and!; done).
  destruct (jn_success _ _ _ _ _ contract _ _ _ _ Ha Hg Hop) as [[-> Hev]|[Hn Hev]].
  - destruct (at_commit a); intros [= <- <-]; by left.
  - destruct (at_commit a); intros [= <- <-]; [right; by apply Happ|by left|right; exists x; by apply Happ].
Qed.

(** One observation. *)
Lemma observe_cases a s :
  match observe_completed a (pl_specification pl) (pl_observer pl) s with
  | None => st_mutations s !! key = None
  | Some (Success r) => seen pl s r
  | Some (Failure c) => c = operation_uncertain
  end.
Proof using contract.
  unfold observe_completed, seen. destruct (reading_ready _ _ _) as [[]|e]; cbn [mbind result_bind]; [|done].
  destruct (pl_observer pl s).1 as [[r|]|e] eqn:Ho; cbn; [done| |done].
  by apply (jn_none _ _ _ _ _ contract s) in Ho as [? _].
Qed.

(** What a run leads to. *)
Definition mutated (s : store) (x : result fault (answer A)) (s' : store) : Prop :=
  match x with
  | Ok (Success r) =>
      (exists s1, others s s1 /\ seen pl s1 r /\ others s1 s')
      \/ exists r0, applied s r0 s' /\ (r = r0 \/ r = mark r0)
  | Ok (Failure operation_uncertain) => others s s' \/ exists r0, applied s r0 s'
  | Ok (Failure _) => others s s'
  | Raise _ => False
  end.

Lemma mutated_failure s c s' : others s s' -> mutated s (Ok (Failure c)) s'.
Proof using Type. intros Ho. destruct c; cbn; auto. Qed.

(** After an uncertain attempt that wrote, only observations of it follow. *)
Lemma observe_applied s x s1 : applied s x s1 ->
  forall s2 a, others s1 s2 ->
  match observe_completed a (pl_specification pl) (pl_observer pl) s2 with
  | Some r => mutated s (Ok r) s2
  | None => False
  end.
Proof using others_order others_key contract.
  intros Happ s2 a Ho. pose proof (observe_cases a s2) as Hc.
  assert (seen pl s2 (mark x)) as Hrec2
    by (destruct (applied_others _ _ _ _ Happ Ho) as (? & ? & ? & _ & _ & _ & _ & _ & ?); done).
  destruct (observe_completed _ _ _ _) as [[r|c]|].
  - right. exists x. split; [by eapply applied_others|right]. unfold seen in Hc, Hrec2. congruence.
  - subst c. right. exists x. by eapply applied_others.
  - unfold seen in Hrec2. assert ((pl_observer pl s2).1 = Ok None) as Hnone; [|congruence].
    apply (jn_none _ _ _ _ _ contract s2). by rewrite Hrec2.
Qed.

Lemma settled_mutated s s1 r s2 :
  others s s1 ->
  match r with
  | Failure _ => s2 = s1
  | Success x => (s2 = s1 /\ seen pl s1 x) \/ applied s1 x s2
  end -> mutated s (Ok r) s2.
Proof using others_order.
  intros Ho. destruct r as [x|c].
  - intros [[-> Hr]|Ha]; [left; by exists s1|]. right. exists x. split; [by eapply others_applied|by left].
  - intros ->. by apply mutated_failure.
Qed.

Lemma uncertain_observed s s1 a s2 :
  others s s1 -> good s1 -> sane a ->
  mutate_once a (pl_specification pl) (pl_operation pl a) s1 = (Uncertain, s2) ->
  s2 = s1 \/ exists x, applied s x s2.
Proof using others_order contract.
  intros Ho Hg Ha Hm. destruct (attempt_cases a s1 _ _ Hg Ha Hm) as [->|(x & Hx)]; [by left|].
  right. exists x. by eapply others_applied.
Qed.

Lemma observation_leads s s2 (k : option (answer A) -> prog (mutation_query A) fault (answer A)) :
  others s s2 \/ (exists x, applied s x s2) ->
  (forall s3 r, (others s s3 \/ exists x, applied s x s3) ->
     match r with Success x => mutated s (Ok r) s3 | Failure c => c = operation_uncertain end ->
     leads serves (k (Some r)) s3 (mutated s)) ->
  (forall s3, others s s3 -> leads serves (k None) s3 (mutated s)) ->
  leads serves (ask Observe ≫= k) s2 (mutated s).
Proof using others_order others_key contract.
  intros Hs2 Hsome Hnone. apply leads_bind, leads_ask. intros x s' (Ho & a & ->).
  pose proof (observe_cases a s') as Hc. destruct Hs2 as [Hs2|(y & Hy)].
  - assert (others s s') as Hos by (by etrans).
    destruct (observe_completed _ _ _ _) as [[r|c]|]; [apply Hsome..|by apply Hnone]; [by left| |by left|done].
    left. exists s'. by split_and!.
  - pose proof (observe_applied s y s2 Hy s' a Ho) as Hm.
    destruct (observe_completed _ _ _ _) as [[r|c]|]; [apply Hsome..|done].
    + right. exists y. by eapply applied_others.
    + done.
    + right. exists y. by eapply applied_others.
    + done.
Qed.

(** However a mutation is served, it is applied at most once. *)
Lemma mutate_once_only s : good s -> leads serves mutate s (mutated s).
Proof using others_order others_key others_good contract.
  intros Hg. unfold mutate. apply leads_bind, leads_ask. intros x s2 (s1 & a & r & Ho & Ha & Hm & ->).
  pose proof (attempt_cases a s1 _ _ (others_good _ _ Ho Hg) Ha Hm) as Hcase.
  destruct r as [r|].
  { apply leads_done. apply (settled_mutated s s1); [done|]. by destruct r. }
  apply observation_leads.
  - destruct (uncertain_observed s s1 a s2 Ho (others_good _ _ Ho Hg) Ha Hm) as [->|?]; [by left|by right].
  - intros s3 r Hs3 Hr. apply leads_done. destruct r; [done|]. subst. exact Hs3.
  - intros s3 Ho3. apply leads_bind, leads_ask. intros x s4 (s5 & b & r & Ho5 & Hb & Hmb & ->).
    assert (others s s5) as Hos by (by etrans).
    pose proof (attempt_cases b s5 _ _ (others_good _ _ Hos Hg) Hb Hmb) as Hcase2.
    destruct r as [r|].
    { apply leads_done. apply (settled_mutated s s5); [done|]. by destruct r. }
    apply observation_leads.
    + destruct (uncertain_observed s s5 b s4 Hos (others_good _ _ Hos Hg) Hb Hmb) as [->|?]; [by left|by right].
    + intros s6 r Hs6 Hr. apply leads_done. destruct r; [done|]. subst. exact Hs6.
    + intros s6 Ho6. apply leads_done. by left.
Qed.
End runs.
End mutation.
