(* ===== verification/RecordSteps.v ===== *)
(** * RecordSteps: what a statement and an operation that returned have written

    Inversion of the statements of [RecordTables] and of the operations of
    [RecordStore]: the store after a success is the store before with one row,
    one history event and one ledger entry changed, or, on a replay, the same. *)
From S2P Require Export RecordStore RecordValues.
From S2P Require Import Prelude Values Json JsonText Sha256 Manifest.

Section steps.
Context `{FloatRead} `{IsoDates}.

(** ** Statements *)
Lemma run_result_returns {A} (m : result fault A) s a s' : run_result m s = (Ok a, s') <-> m = Ok a /\ s' = s.
Proof. unfold run_result, raise, ret. destruct m; naive_solver. Qed.

Lemma run_recorded_returns {A} (m : recorded A) s a s' : run_recorded m s = (Ok a, s') <-> m = Ok a /\ s' = s.
Proof. unfold run_recorded, raise, ret. destruct m; naive_solver. Qed.

Lemma bind_texts_returns ts s u s' : bind_texts ts s = (Ok u, s') <-> forallb unicode ts = true /\ s' = s.
Proof. unfold bind_texts. by rewrite raise_when_returns, negb_false_iff. Qed.

Lemma the_table_returns entity s t s' : the_table entity s = (Ok t, s') <-> st_tables s !! entity = Some t /\ s' = s.
Proof.
  unfold the_table. rewrite reading_bind. destruct (st_tables s !! entity); unfold ret, raise; naive_solver.
Qed.

Lemma new_id_returns m s u s' : new_id m s = (Ok u, s') <-> m = Ok u /\ u <> 0%N /\ s' = s.
Proof.
  unfold new_id. rewrite bind_returns. setoid_rewrite run_result_returns. split.
  - intros (u' & s1 & [-> ->] & Hr). rewrite raise_when_bind in Hr.
    destruct (N.eqb_spec u' 0); [done|]. apply ret_returns in Hr as [-> ->]. done.
  - intros (-> & Hu & ->). exists u, s. split; [done|]. rewrite raise_when_bind.
    by rewrite (proj2 (N.eqb_neq _ _)).
Qed.

(** The guards of the constraints, once passed. *)
Definition insertable (s : store) (entity : pystr) (t : table) (id : UUID) (r : row) : bool :=
  bool_decide (t_rows t !! id = None) && not_null_ok t id r && unique_ok t id r
  && references_ok (put_row entity id r s) t id r.

Lemma insert_row_returns entity id r s u s' :
  insert_row entity id r s = (Ok u, s') <->
  exists t, st_tables s !! entity = Some t /\ insertable s entity t id r = true /\ s' = put_row entity id r s.
Proof.
  unfold insert_row. rewrite bind_returns. setoid_rewrite the_table_returns. split.
  - intros (t & s1 & [Ht ->] & Hr). rewrite reading_bind in Hr. rewrite raise_when_bind in Hr.
    destruct (negb _) eqn:E; [done|]. apply writing_returns in Hr as ->. exists t. by rewrite negb_false_iff in E.
  - intros (t & Ht & Hi & ->). exists t, s. split; [done|]. rewrite reading_bind, raise_when_bind.
    fold (insertable s entity t id r). rewrite Hi. by apply writing_returns.
Qed.

Definition updatable (s : store) (entity : pystr) (t : table) (id : UUID) (old new : row) : bool :=
  not_null_ok t id new && unique_ok t id new && references_ok (put_row entity id new s) t id new
  && restrict_ok (put_row entity id new s) entity id old (fun c => negb (bool_decide (cell id new c = cell id old c))).

Lemma update_row_returns entity id owner version f s s' :
  update_row entity id owner version f s = (Ok true, s') <->
  exists t old, st_tables s !! entity = Some t /\ t_rows t !! id = Some old /\ r_owner_id old = owner
    /\ r_record_version old = version /\ updatable s entity t id old (f old) = true
    /\ s' = put_row entity id (f old) s.
Proof.
  unfold update_row. rewrite bind_returns. setoid_rewrite the_table_returns. split.
  - intros (t & s1 & [Ht ->] & Hr). destruct (t_rows t !! id) as [old|] eqn:Hold; [|by apply ret_returns in Hr as [? _]].
    destruct (bool_decide _ && _) eqn:Ec; [|by apply ret_returns in Hr as [? _]].
    cbv zeta in Hr. rewrite reading_bind, raise_when_bind in Hr. destruct (negb _) eqn:E; [done|].
    apply bind_returns in Hr as (? & ? & ->%writing_returns & [_ ->]%ret_returns).
    rewrite negb_false_iff in E. apply andb_true_iff in Ec as [Ho%bool_decide_eq_true Hv%Z.eqb_eq].
    exists t, old. by split_and!.
  - intros (t & old & Ht & Hold & <- & <- & Hu & ->). exists t, s. split; [done|]. rewrite Hold.
    rewrite bool_decide_true, Z.eqb_refl by done. cbn [andb]. cbv zeta. rewrite reading_bind, raise_when_bind.
    fold (updatable s entity t id old (f old)). rewrite Hu. done.
Qed.

Definition deletable (s : store) (entity : pystr) (id : UUID) (old : row) : bool :=
  restrict_ok (drop_row entity id s) entity id old (fun _ => true).

Lemma delete_row_returns entity id owner version s s' :
  delete_row entity id owner version s = (Ok true, s') <->
  exists t old, st_tables s !! entity = Some t /\ t_rows t !! id = Some old /\ r_owner_id old = owner
    /\ r_record_version old = version /\ deletable s entity id old = true /\ s' = drop_row entity id s.
Proof.
  unfold delete_row. rewrite bind_returns. setoid_rewrite the_table_returns. split.
  - intros (t & s1 & [Ht ->] & Hr). destruct (t_rows t !! id) as [old|] eqn:Hold; [|by apply ret_returns in Hr as [? _]].
    destruct (bool_decide _ && _) eqn:Ec; [|by apply ret_returns in Hr as [? _]].
    rewrite reading_bind, raise_when_bind in Hr. destruct (negb _) eqn:E; [done|].
    apply bind_returns in Hr as (? & ? & ->%writing_returns & [_ ->]%ret_returns).
    rewrite negb_false_iff in E. apply andb_true_iff in Ec as [Ho%bool_decide_eq_true Hv%Z.eqb_eq].
    exists t, old. by split_and!.
  - intros (t & old & Ht & Hold & <- & <- & Hu & ->). exists t, s. split; [done|]. rewrite Hold.
    rewrite bool_decide_true, Z.eqb_refl by done. cbn [andb]. rewrite reading_bind, raise_when_bind.
    fold (deletable s entity id old). rewrite Hu. done.
Qed.

(** The history event is new, and its texts fit. *)
Definition recordable (s : store) (h : history_row) : bool :=
  negb (existsb (same_version h) (st_history s)) && (0 <? h_version h)
  && match h_before h with Some t => fits MAX_RECORD_JSON_BYTES t | None => true end
  && match h_after h with Some t => fits MAX_RECORD_JSON_BYTES t | None => true end
  && stored_time (h_occurred_at h).

Lemma insert_history_returns h s u s' :
  insert_history h s = (Ok u, s') <->
  recordable s (h (next_sequence s)) = true /\ s' = with_history (fun l => l ++ [h (next_sequence s)]) s.
Proof.
  unfold insert_history. rewrite reading_bind. cbv zeta. rewrite reading_bind, raise_when_bind.
  fold (recordable s (h (next_sequence s))). destruct (recordable _ _); cbn [negb].
  - rewrite writing_returns. naive_solver.
  - naive_solver.
Qed.

Definition completable (s : store) (principal key : pystr) (m : mutation) : bool :=
  bool_decide (st_mutations s !! (principal, key) = None) && (1 <=? length key)%nat && (length key <=? 128)%nat
  && (1 <=? length (mu_kind m))%nat && (length (mu_kind m) <=? 64)%nat && valid_sha256 (mu_fingerprint m)
  && fits MAX_RESULT_BYTES (mu_result m) && stored_time (mu_completed_at m).

Lemma insert_mutation_returns principal key m s u s' :
  insert_mutation principal key m s = (Ok u, s') <->
  completable s principal key m = true /\ s' = with_mutations <[(principal, key) := m]> s.
Proof.
  unfold insert_mutation. rewrite reading_bind, raise_when_bind. fold (completable s principal key m).
  destruct (completable _ _ _ _); cbn [negb].
  - rewrite writing_returns. naive_solver.
  - naive_solver.
Qed.

(** ** Evidence and references *)
Lemma mutation_row_returns principal key s m s' :
  mutation_row principal key s = (Ok m, s') <->
  unicode principal = true /\ unicode key = true /\ m = st_mutations s !! (principal, key) /\ s' = s.
Proof.
  unfold mutation_row, bind_texts. rewrite raise_when_bind. cbn [forallb]. rewrite andb_true_r.
  destruct (unicode principal), (unicode key); cbn [andb negb]; unfold reading; naive_solver.
Qed.

Lemma replay_returns {A} principal key kind fp (decode : pystr -> result fault A) s x s' :
  replay principal key kind fp decode s = (Ok x, s') ->
  s' = s /\ (unicode principal = true /\ unicode key = true) /\
  match x with
  | None => st_mutations s !! (principal, key) = None
  | Some (Success v) => exists m, st_mutations s !! (principal, key) = Some m
                          /\ same_command m kind fp = true /\ decode (mu_result m) = Ok v
  | Some (Failure c) => c = changed_fingerprint /\ exists m, st_mutations s !! (principal, key) = Some m
                          /\ same_command m kind fp = false
  end.
Proof.
  unfold replay. intros (m & s1 & (Hp & Hk & -> & ->)%mutation_row_returns & Hr)%bind_returns.
  destruct (st_mutations s !! _) as [m|] eqn:Em; [|by apply ret_returns in Hr as [-> ->]].
  destruct (same_command m kind fp) eqn:Ec.
  - apply bind_returns in Hr as (v & s1 & [Hv ->]%run_result_returns & [-> ->]%ret_returns). split_and!; eauto.
  - apply ret_returns in Hr as [-> ->]. split_and!; eauto.
Qed.

Lemma observe_replay_returns {A} principal key kind fp (decode : pystr -> result fault A) s x s' :
  observe_replay principal key kind fp decode s = (Ok x, s') ->
  match x with
  | None => st_mutations s !! (principal, key) = None
  | Some v => exists m, st_mutations s !! (principal, key) = Some m
                /\ same_command m kind fp = true /\ decode (mu_result m) = Ok v
  end.
Proof.
  unfold observe_replay. intros (m & s1 & (_ & _ & -> & ->)%mutation_row_returns & Hr)%bind_returns.
  destruct (st_mutations s !! _) as [m|] eqn:Em; [|by apply ret_returns in Hr as [-> _]].
  destruct (same_command m kind fp) eqn:Ec; [|done].
  apply bind_returns in Hr as (v & s1 & [Hv ->]%run_result_returns & [-> _]%ret_returns). eauto.
Qed.

Lemma mutation_row_bind {A} principal key (k : option mutation -> stx A) s :
  (mutation_row principal key ≫= k) s
  = if unicode principal && unicode key then k (st_mutations s !! (principal, key)) s else (Raise OtherFault, s).
Proof.
  unfold mutation_row, bind_texts. cbn [forallb]. rewrite andb_true_r. by destruct (_ && _).
Qed.

(** The observer reads the entry of its own command. *)
Lemma observe_replay_found {A} principal key kind fp (decode : pystr -> result fault A) s m r :
  unicode principal = true -> unicode key = true -> st_mutations s !! (principal, key) = Some m ->
  same_command m kind fp = true -> decode (mu_result m) = Ok r ->
  (observe_replay principal key kind fp decode s).1 = Ok (Some r).
Proof.
  intros Hp Hk Hm Hc Hd. unfold observe_replay. rewrite mutation_row_bind, Hp, Hk, Hm, Hc. cbn [andb].
  by rewrite Hd.
Qed.

(** It depends on nothing else. *)
Lemma observe_replay_key {A} principal key kind fp (decode : pystr -> result fault A) s s' :
  st_mutations s !! (principal, key) = st_mutations s' !! (principal, key) ->
  (observe_replay principal key kind fp decode s).1 = (observe_replay principal key kind fp decode s').1.
Proof.
  intros Hm. unfold observe_replay. rewrite !mutation_row_bind, Hm. destruct (_ && _); [|done].
  destruct (st_mutations s' !! _) as [m|]; [|done].
  destruct (same_command m kind fp); [|done]. by destruct (decode (mu_result m)).
Qed.

Lemma observe_replay_none {A} principal key kind fp (decode : pystr -> result fault A) s :
  (observe_replay principal key kind fp decode s).1 = Ok None <->
  st_mutations s !! (principal, key) = None /\ is_ok (observe_replay principal key kind fp decode s).1 = true.
Proof.
  unfold observe_replay. rewrite mutation_row_bind. destruct (_ && _); [|naive_solver].
  destruct (st_mutations s !! _) as [m|]; [|cbn; naive_solver].
  destruct (same_command m kind fp); [|cbn; naive_solver]. destruct (decode (mu_result m)); cbn; naive_solver.
Qed.

(** The references of the fields, checked. *)
Definition reference_ok (s : store) (principal entity : pystr) (fields : list (pystr * json)) (r : RecordRelationship)
  : Prop :=
  rl_source_entity r = entity -> default JNull (dict_get fields (rl_source_field r)) <> JNull ->
  exists v, bound_value (default JNull (dict_get fields (rl_source_field r))) = Ok v
    /\ refers_to_owned s principal (rl_target_entity r) (rl_target_field r) v = true.

Lemma require_references_returns principal entity fields rels s u s' :
  require_references principal entity fields rels s = (Ok u, s') ->
  s' = s /\ forall r, r ∈ rels -> reference_ok s principal entity fields r.
Proof.
  revert s'. induction rels as [|r rels IH]; cbn [require_references]; intros s'.
  { intros [_ ->]%ret_returns. split; [done|]. by intros r ?%elem_of_nil. }
  intros (u1 & s1 & Hr & Hrels)%bind_returns.
  assert (s1 = s /\ reference_ok s principal entity fields r) as [-> Hok].
  { case_bool_decide as Hent; [|apply ret_returns in Hr as [_ ->]; split; [done|]; by intros Hx].
    destruct (default JNull (dict_get fields (rl_source_field r))) eqn:Ev;
      [apply ret_returns in Hr as [_ ->]; split; [done|]; unfold reference_ok; by rewrite Ev|..];
      apply bind_returns in Hr as (sv & s2 & [Hsv ->]%run_result_returns & Hr);
      apply bind_returns in Hr as (t & s2 & [Ht ->]%the_table_returns & Hr);
      rewrite reading_bind in Hr; apply raise_when_returns in Hr as [Hr ->]; (split; [done|]);
      intros _ _; exists sv; rewrite Ev; by rewrite negb_false_iff in Hr. }
  destruct (IH s' Hrels) as [-> Hall]. split; [done|]. intros r' [->|Hr']%elem_of_cons; [done|by apply Hall].
Qed.

Lemma entity_columns_returns sp entity fields s columns s' :
  entity_columns sp entity fields s = (Ok columns, s') <->
  (exists e, spec_entity sp entity = Some e /\ encode_fields e fields = Ok columns) /\ s' = s.
Proof.
  unfold entity_columns. destruct (spec_entity sp entity) as [e|].
  - rewrite run_result_returns. naive_solver.
  - unfold raise. naive_solver.
Qed.

Lemma select_record_returns principal sp entity id s x s' :
  select_record principal sp entity id s = (Ok x, s') ->
  s' = s /\ match x with
            | None => find_row s principal entity id = None
            | Some v => exists r, find_row s principal entity id = Some r
                          /\ decode_record sp principal entity id r = Ok v
            end.
Proof.
  unfold select_record. intros (u & s1 & [_ ->]%bind_texts_returns & Hr)%bind_returns.
  apply bind_returns in Hr as (t & s1 & [_ ->]%the_table_returns & Hr). rewrite reading_bind in Hr.
  destruct (find_row s principal entity id) as [r|] eqn:Er; [|by apply ret_returns in Hr as [-> ->]].
  apply bind_returns in Hr as (v & s1 & [Hv ->]%run_result_returns & [-> ->]%ret_returns). eauto.
Qed.

(** ** Rows that were read *)
Lemma trusted_Ok {A} (o : option A) a : trusted o = Ok a <-> o = Some a.
Proof. destruct o; cbn; naive_solver. Qed.

Lemma ok_of_Some {E A} (m : result E A) a : ok_of m = Some a <-> m = Ok a.
Proof. destruct m; cbn; naive_solver. Qed.

Lemma revision_Some v w : revision v = Some w <-> w = v /\ 1 <= v <= MAX_REVISION.
Proof.
  unfold revision. destruct ((1 <=? v) && (v <=? MAX_REVISION)) eqn:E.
  - apply andb_true_iff in E as [?%Z.leb_le ?%Z.leb_le]. split; [by intros [= ->]|by intros [-> _]].
  - split; [done|]. intros [_ Hv]. apply andb_false_iff in E as [?%Z.leb_gt|?%Z.leb_gt]; lia.
Qed.

(** The row an operation found is the one its statement changes. *)
Lemma find_row_at s principal entity id r :
  find_row s principal entity id = Some r ->
  exists t, st_tables s !! entity = Some t /\ t_rows t !! id = Some r /\ r_owner_id r = principal.
Proof.
  unfold find_row, table_rows. destruct (st_tables s !! entity) as [t|]; [|by rewrite lookup_empty].
  destruct (t_rows t !! id) as [r'|] eqn:Er; [|done]. case_bool_decide; [|done]. intros [= <-]. by exists t.
Qed.

Lemma decode_record_inv sp principal entity id r v :
  decode_record sp principal entity id r = Ok v ->
  exists e raw checked, spec_entity sp entity = Some e /\ r_owner_id r = principal /\ read_id id = Some (rv_id v)
    /\ decode_fields e r = Some raw /\ validate_create sp entity raw = Ok checked
    /\ normalise_fields sp entity checked = Ok (rv_fields v)
    /\ r_record_version r = rv_version v /\ 1 <= rv_version v <= MAX_REVISION
    /\ read_time (r_created_at r) = Some (rv_created_at v) /\ read_time (r_updated_at r) = Some (rv_updated_at v)
    /\ r_created_via r = rv_created_via v /\ rv_entity v = entity /\ make_record_value v = Ok v.
Proof.
  unfold decode_record. rewrite trusted_Ok. intros (e & He & Hd)%bind_Some.
  destruct (bool_decide _) eqn:Eo; cbn [negb] in Hd; [|done]. apply bool_decide_eq_true in Eo.
  apply bind_Some in Hd as (id' & Hid & (raw & Hraw & (checked & Hch & (fields & Hf & Hd)%bind_Some)%bind_Some)%bind_Some).
  apply bind_Some in Hd as (version & (-> & Hv1 & Hv2)%revision_Some & (cr & Hcr & (up & Hup & Hd)%bind_Some)%bind_Some).
  apply ok_of_Some in Hch, Hf, Hd. pose proof Hd as (-> & _)%make_record_value_spec.
  exists e, raw, checked. cbn [rv_id rv_fields rv_version rv_created_at rv_updated_at rv_created_via rv_entity]. by split_and!.
Qed.

(** ** Operations *)

(** The event [append_history] writes. *)
Definition event_of (principal : pystr) (v : RecordValue) (kind : EventKind)
    (before after : option (list (pystr * json))) (now : datetime) (seq : Z) : history_row :=
  {| h_sequence := seq; h_principal := principal; h_entity := rv_entity v; h_record := rv_id v;
     h_version := rv_version v; h_kind := kind; h_before := snapshot <$> before; h_after := snapshot <$> after;
     h_occurred_at := now |}.

Definition entry_of (kind fp result : pystr) (now : datetime) : mutation :=
  {| mu_kind := kind; mu_fingerprint := fp; mu_result := result; mu_completed_at := now |}.

(** A success that was found in the ledger. *)
Definition replayed_from {A} (s : store) (key : pystr * pystr) (kind fp : pystr) (decode : pystr -> result fault A)
    (r : A) : Prop :=
  exists m, st_mutations s !! key = Some m /\ same_command m kind fp = true /\ decode (mu_result m) = Ok r.

(** The store after a change of one row, its event and its ledger entry. *)
Definition journal (key : pystr * pystr) (m : mutation) (h : Z -> history_row) (s : store) : store :=
  with_mutations <[key := m]> (with_history (fun l => l ++ [h (next_sequence s)]) s).

Definition created (a : attempt) (principal via : pystr) (sp : RecordSpecification) (c : CreateRecordCommand)
    (record : list (pystr * json)) (fp : pystr) (s : store) (r : RecordMutationOutcome) (s' : store) : Prop :=
  exists now id v columns e t,
    at_now a = Ok now /\ at_record_id a = Ok id /\ id <> 0%N
    /\ v = new_record c via id now record /\ make_record_value v = Ok v
    /\ (forall rel, rel ∈ sp_relationships sp -> reference_ok s principal (cr_entity c) record rel)
    /\ spec_entity sp (cr_entity c) = Some e /\ encode_fields e record = Ok columns
    /\ st_tables s !! cr_entity c = Some t
    /\ insertable s (cr_entity c) t id (row_of principal v columns) = true
    /\ (let s1 := put_row (cr_entity c) id (row_of principal v columns) s in
        let h := event_of principal v create_event None (Some record) now in
        let m := entry_of (lit "create_record") fp (encode_record_result v) now in
        recordable s1 (h (next_sequence s1)) = true
        /\ completable s1 principal (cr_key c) m = true
        /\ s' = journal (principal, cr_key c) m h s1)
    /\ r = {| rm_record := Some v; rm_replayed := false |}.

Lemma create_returns a principal via sp c record fp s r s' :
  create_record_op a principal via sp c record fp s = (Ok (Success r), s') ->
  (unicode principal = true /\ unicode (cr_key c) = true) /\
  ((s' = s /\ replayed_from s (principal, cr_key c) (lit "create_record") fp (replayed_record sp) r)
   \/ (st_mutations s !! (principal, cr_key c) = None /\ created a principal via sp c record fp s r s')).
Proof.
  unfold create_record_op. intros (seen & s1 & Hseen & Hr)%bind_returns.
  apply replay_returns in Hseen as (-> & Hp & Hseen). split; [done|].
  destruct seen as [[v|code]|].
  - apply ret_returns in Hr as [[= <-] ->]. by left.
  - by apply ret_returns in Hr as [[=] _].
  - right. split; [done|].
    apply bind_returns in Hr as (now & s1 & [Hnow ->]%run_result_returns & Hr).
    apply bind_returns in Hr as (id & s1 & (Hid & Hid0 & ->)%new_id_returns & Hr).
    apply bind_returns in Hr as (v & s1 & [Hv ->]%run_recorded_returns & Hr).
    pose proof Hv as (-> & _)%make_record_value_spec.
    apply bind_returns in Hr as (u & s1 & [-> Href]%require_references_returns & Hr).
    apply bind_returns in Hr as (u1 & s1 & Hins & Hr). unfold insert_record in Hins.
    apply bind_returns in Hins as (columns & s2 & [(e & He & Hc) ->]%entity_columns_returns & Hins).
    apply insert_row_returns in Hins as (t & Ht & Hi & ->).
    apply bind_returns in Hr as (u2 & s2 & [Hh ->]%insert_history_returns & Hr).
    apply bind_returns in Hr as (u3 & s3 & [Hm ->]%insert_mutation_returns & [[= ->] ->]%ret_returns).
    exists now, id, (new_record c via id now record), columns, e, t. by split_and!.
Qed.

Definition updated (a : attempt) (principal : pystr) (sp : RecordSpecification) (c : UpdateRecordCommand)
    (updates : list (pystr * json)) (fp : pystr) (s : store) (r : RecordMutationOutcome) (s' : store) : Prop :=
  exists now old before given fields columns e t,
    find_row s principal (ur_entity c) (ur_record c) = Some old
    /\ decode_record sp principal (ur_entity c) (ur_record c) old = Ok before
    /\ rv_version before = ur_version c
    /\ validate_create sp (ur_entity c) (merge_fields (rv_fields before) updates) = Ok given
    /\ normalise_fields sp (ur_entity c) given = Ok fields
    /\ (forall rel, rel ∈ sp_relationships sp -> reference_ok s principal (ur_entity c) fields rel)
    /\ at_now a = Ok now /\ make_record_value (updated_record before now fields) = Ok (updated_record before now fields)
    /\ spec_entity sp (rv_entity before) = Some e /\ encode_fields e fields = Ok columns
    /\ st_tables s !! rv_entity before = Some t /\ t_rows t !! rv_id before = Some old
    /\ r_owner_id old = principal /\ r_record_version old = rv_version before
    /\ (let after := updated_record before now fields in
        let new := set_row after columns old in
        let s1 := put_row (rv_entity before) (rv_id before) new s in
        let h := event_of principal after update_event (Some (rv_fields before)) (Some fields) now in
        let m := entry_of (lit "update_record") fp (encode_record_result after) now in
        updatable s (rv_entity before) t (rv_id before) old new = true
        /\ recordable s1 (h (next_sequence s1)) = true
        /\ completable s1 principal (ur_key c) m = true
        /\ s' = journal (principal, ur_key c) m h s1
        /\ r = {| rm_record := Some after; rm_replayed := false |}).

Lemma update_returns a principal sp c updates fp s r s' :
  (ur_record c < 2 ^ 128)%N -> update_record_op a principal sp c updates fp s = (Ok (Success r), s') ->
  (unicode principal = true /\ unicode (ur_key c) = true) /\
  ((s' = s /\ replayed_from s (principal, ur_key c) (lit "update_record") fp (replayed_record sp) r)
   \/ (st_mutations s !! (principal, ur_key c) = None /\ updated a principal sp c updates fp s r s')).
Proof.
  unfold update_record_op. intros Hsmall (seen & s1 & Hseen & Hr)%bind_returns.
  apply replay_returns in Hseen as (-> & Hp & Hseen). split; [done|].
  destruct seen as [[v|code]|].
  { apply ret_returns in Hr as [[= <-] ->]. by left. }
  { by apply ret_returns in Hr as [[=] _]. }
  right. split; [done|]. apply bind_returns in Hr as (found & s1 & [-> Hsel]%select_record_returns & Hr).
  destruct found as [before|]; [|by apply ret_returns in Hr as [[=] _]].
  destruct Hsel as (old & Hold & Hdec).
  destruct (Z.eqb_spec (rv_version before) (ur_version c)) as [Hver|]; cbn [negb] in Hr;
    [|by apply ret_returns in Hr as [[=] _]].
  destruct (_ ≫= _) as [fields|] eqn:Hfields in Hr; [|by apply ret_returns in Hr as [[=] _]].
  apply bind_Ok in Hfields as (given & Hgiven & Hfields).
  apply bind_returns in Hr as (u & s1 & [-> Href]%require_references_returns & Hr).
  apply bind_returns in Hr as (now & s1 & [Hnow ->]%run_result_returns & Hr).
  apply bind_returns in Hr as (after & s1 & [Hafter ->]%run_recorded_returns & Hr).
  pose proof Hafter as (-> & _)%make_record_value_spec.
  apply bind_returns in Hr as (changed & s1 & Hupd & Hr). unfold update_record_row in Hupd.
  apply bind_returns in Hupd as (columns & s2 & [(e & He & Hc) ->]%entity_columns_returns & Hupd).
  destruct changed; cbn [negb] in Hr; [|by apply ret_returns in Hr as [[=] _]].
  apply update_row_returns in Hupd as (t & old' & Ht & Hrow & Hown & Hrv & Hu & ->).
  cbn [rv_entity rv_id rv_fields updated_record] in *.
  assert (old' = old) as ->.
  { pose proof (decode_record_inv _ _ _ _ _ _ Hdec) as (? & ? & ? & _ & _ & Hid & _ & _ & _ & _ & _ & _ & _ & _ & Hent & _).
    apply read_id_small in Hid as [_ Hid]. rewrite N.mod_small in Hid by done.
    destruct (find_row_at _ _ _ _ _ Hold) as (t' & Ht' & Hrow' & _). rewrite Hent in Ht. rewrite Hid in Hrow. congruence. }
  apply bind_returns in Hr as (u2 & s2 & [Hh ->]%insert_history_returns & Hr).
  apply bind_returns in Hr as (u3 & s3 & [Hm ->]%insert_mutation_returns & [[= ->] ->]%ret_returns).
  exists now, old, before, given, fields, columns, e, t. by split_and!.
Qed.

Definition deleted (a : attempt) (principal : pystr) (sp : RecordSpecification) (c : DeleteRecordCommand)
    (fp : pystr) (s : store) (r : DeleteRecordOutcome) (s' : store) : Prop :=
  exists now old before t,
    find_row s principal (dr_entity c) (dr_record c) = Some old
    /\ decode_record sp principal (dr_entity c) (dr_record c) old = Ok before
    /\ rv_version before = dr_version c /\ at_now a = Ok now
    /\ make_record_value (updated_record before now (rv_fields before)) = Ok (updated_record before now (rv_fields before))
    /\ st_tables s !! dr_entity c = Some t /\ t_rows t !! dr_record c = Some old
    /\ (let s0 := with_members (filter (fun e : member_key * membership =>
                     let '(p', n, u, _) := e.1 in
                     ~ (p' = principal /\ n = dr_entity c /\ u = dr_record c /\ true = true))) s in
        let s1 := drop_row (dr_entity c) (dr_record c) s0 in
        let terminal := updated_record before now (rv_fields before) in
        let h := event_of principal terminal delete_event (Some (rv_fields before)) None now in
        let m := entry_of (lit "delete_record") fp (encode_delete_result r (dr_entity c)) now in
        deletable s0 (dr_entity c) (dr_record c) old = true
        /\ recordable s1 (h (next_sequence s1)) = true
        /\ completable s1 principal (dr_key c) m = true
        /\ s' = journal (principal, dr_key c) m h s1)
    /\ r = {| do_id := dr_record c; do_version := rv_version before + 1; do_replayed := false |}.

Lemma delete_returns a principal sp c fp s r s' :
  delete_record_op a principal sp c fp s = (Ok (Success r), s') ->
  (unicode principal = true /\ unicode (dr_key c) = true) /\
  ((s' = s /\ replayed_from s (principal, dr_key c) (lit "delete_record") fp
                (fun text => decode_delete_result text sp (dr_entity c)) r)
   \/ (st_mutations s !! (principal, dr_key c) = None /\ deleted a principal sp c fp s r s')).
Proof.
  unfold delete_record_op. intros (seen & s1 & Hseen & Hr)%bind_returns.
  apply replay_returns in Hseen as (-> & Hp & Hseen). split; [done|].
  destruct seen as [[v|code]|].
  { apply ret_returns in Hr as [[= <-] ->]. by left. }
  { by apply ret_returns in Hr as [[=] _]. }
  right. split; [done|]. apply bind_returns in Hr as (found & s1 & [-> Hsel]%select_record_returns & Hr).
  destruct found as [before|]; [|by apply ret_returns in Hr as [[=] _]].
  destruct Hsel as (old & Hold & Hdec).
  destruct (Z.eqb_spec (rv_version before) (dr_version c)) as [Hver|]; cbn [negb] in Hr;
    [|by apply ret_returns in Hr as [[=] _]].
  apply bind_returns in Hr as (now & s1 & [Hnow ->]%run_result_returns & Hr).
  apply bind_returns in Hr as (u & s1 & ->%writing_returns & Hr).
  apply bind_returns in Hr as (gone & s1 & Hdel & Hr).
  destruct gone; cbn [negb] in Hr; [|by apply ret_returns in Hr as [[=] _]].
  apply delete_row_returns in Hdel as (t & old' & Ht & Hrow & Hown & Hrv & Hu & ->).
  destruct (find_row_at _ _ _ _ _ Hold) as (t' & Ht' & Hrow' & _). cbn [st_tables with_members] in Ht.
  rewrite Ht' in Ht. injection Ht as <-. rewrite Hrow' in Hrow. injection Hrow as <-.
  apply bind_returns in Hr as (after & s1 & [Hafter ->]%run_recorded_returns & Hr).
  pose proof Hafter as (-> & _)%make_record_value_spec.
  apply bind_returns in Hr as (u2 & s2 & [Hh ->]%insert_history_returns & Hr).
  apply bind_returns in Hr as (r' & s3 & [Hout ->]%run_recorded_returns & Hr).
  assert (r' = {| do_id := dr_record c; do_version := rv_version before + 1; do_replayed := false |}) as ->.
  { unfold make_delete_outcome, require_uuid, require_revision in Hout. rewrite !require_all in Hout. naive_solver. }
  apply bind_returns in Hr as (u3 & s3 & [Hm ->]%insert_mutation_returns & [[= ->] ->]%ret_returns).
  exists now, old, before, t'. by split_and!.
Qed.
End steps.
