(* ===== verification/RecordEvidence.v ===== *)
(** * RecordEvidence: record mutations leave evidence that reads back

    The operations on records keep the contract of [RecordMutation]: what they
    write in the ledger is read back, by a replay or by an observation, as the
    result they returned. *)
From S2P Require Export RecordMutation RecordSteps.
From S2P Require Import Prelude Values Json JsonText Sha256 Manifest.

(** The clock and the identifier factories of an attempt give what the standard
    library's types hold, and the clock is past the year 1000. *)
Record Sane (a : attempt) : Prop := {
  sane_now : forall t, at_now a = Ok t -> valid_datetime t = true /\ 1000 <= dt_year t;
  sane_record : forall u, at_record_id a = Ok u -> (u < 2 ^ 128)%N;
  sane_branch : forall u, at_branch_id a = Ok u -> (u < 2 ^ 128)%N
}.

(** Every REAL in a row is a binary64 datum. *)
Definition row_reals (columns : gmap pystr sqlval) : Prop :=
  forall c x, columns !! c = Some (SqlReal x) -> binary64 x = true.
Definition reals_ok (s : store) : Prop :=
  forall entity id r, table_rows s entity !! id = Some r -> row_reals (r_domain r).

Section evidence.
Context `{FloatRead} `{IsoDates}.

(** ** Floats *)
Lemma matches_floats v t :
  v = JNull \/ matches_type v t = Ok true -> (forall x, v = JScalar (PyFloat x) -> binary64 x = true) ->
  floats_valid v = true.
Proof.
  intros [->|Ht] Hx; [done|]. destruct v as [|[s|z|x|b]|items|es]; try done; cbn [floats_valid]; [by apply Hx| |].
  - destruct t; try discriminate Ht. cbn [matches_type] in Ht. injection Ht as Ht.
    apply andb_true_iff in Ht as [_ Ht]. destruct (string_items items) as [ss|] eqn:Es; [|done].
    apply forallb_forall. intros x' Hin%list_elem_of_In. by destruct (string_items_in _ _ Es x' Hin) as [s ->].
  - by destruct t.
Qed.

Lemma accepted_floats sp n r c b fs :
  validate_record sp n r c b = Ok fs -> (forall k x, (k, JScalar (PyFloat x)) ∈ r -> binary64 x = true) ->
  floats_valid (JObj fs) = true.
Proof.
  intros Hv Hr. destruct (validate_sorted _ _ _ _ _ _ Hv) as (-> & _ & _).
  apply validate_record_spec in Hv as (e & _ & [_ _ _ Hi] & _). cbn [floats_valid].
  apply forallb_forall. intros [k v] Hin%list_elem_of_In%elem_of_sorted_by. cbn [snd].
  pose proof (Hi _ Hin) as Hc. unfold check_item in Hc. cbn [fst snd] in Hc.
  destruct (List.find _ _) as [f|]; [|done]. apply (matches_floats v (fd_type f)); [|by intros x ->; apply (Hr k)].
  destruct v; [by left|right..]; apply bind_Ok in Hc as (b' & Hb & Hc); by apply require_all in Hc as [-> _].
Qed.

Lemma floats_in fs k x : floats_valid (JObj fs) = true -> (k, JScalar (PyFloat x)) ∈ fs -> binary64 x = true.
Proof.
  cbn [floats_valid]. rewrite forallb_forall. intros Hf Hin. apply (Hf (k, JScalar (PyFloat x))). by apply list_elem_of_In.
Qed.

Lemma decode_field_float f v x :
  decode_field f v = Some (JScalar (PyFloat x)) -> (forall y, v = SqlReal y -> binary64 y = true) -> binary64 x = true.
Proof.
  unfold decode_field. intros Hd Hv. destruct v as [|z|y|s]; [done|..]; destruct (fd_type f); try done;
    repeat case_match; simplify_eq; try done; [|by apply Hv].
  match goal with Hz : is_exact_number (PyInt z) = true |- _ =>
    destruct (to_float_valid (PyInt z) Hz eq_refl) as (y & [= ->] & Hy) end. done.
Qed.

Lemma decoded_floats e r raw k x :
  row_reals (r_domain r) -> decode_fields e r = Some raw -> (k, JScalar (PyFloat x)) ∈ raw -> binary64 x = true.
Proof.
  intros Hr Hm%mapM_Some [i Hi]%list_elem_of_lookup.
  destruct (Forall2_lookup_r _ _ _ _ _ Hm Hi) as (f & _ & (v & Hv & [= <- ->])%bind_Some).
  apply (decode_field_float f _ x Hv). intros y Hy. apply (Hr (fd_name f)).
  destruct (r_domain r !! fd_name f); cbn in Hy; congruence.
Qed.

Lemma encoded_reals e fs columns :
  encode_fields e fs = Ok columns -> floats_valid (JObj fs) = true -> row_reals columns.
Proof.
  unfold encode_fields. intros (ys & Hys & [= <-])%bind_Ok Hf c x Hc.
  apply elem_of_list_to_map_2, list_elem_of_lookup in Hc as [i Hi]. apply mapR_Ok in Hys.
  destruct (Forall2_lookup_r _ _ _ _ _ Hys Hi) as (f & _ & (v & Hv & [= <- ->])%bind_Ok).
  assert (floats_valid (default JNull (dict_get fs (fd_name f))) = true) as Hfv.
  { destruct (dict_get fs (fd_name f)) as [w|] eqn:Ew; [|done]. cbn [from_option id].
    apply dict_get_Some_in, list_elem_of_In in Ew. cbn [floats_valid] in Hf. rewrite forallb_forall in Hf. by apply (Hf _ Ew). }
  unfold encode_field, bound_value in Hv.
  destruct (default JNull _) as [|w|items|es]; [done|..]; destruct (fd_type f) eqn:Et;
    repeat case_match; simplify_eq; try done.
  match goal with Hx : is_exact_number w = true |- _ => destruct (to_float_valid w Hx Hfv) as (y & Hy & Hb) end.
  congruence.
Qed.

(** ** Records *)
Lemma read_time_again t t' : read_time t = Some t' -> read_time t' = Some t'.
Proof. unfold read_time. intros Ht. destruct (decode_time_encodes _ _ Ht) as [-> _]. exact Ht. Qed.

Lemma sane_time a t : Sane a -> at_now a = Ok t -> read_time t = Some t.
Proof. intros Ha Ht. destruct (sane_now _ Ha t Ht). by apply decode_encode_time. Qed.

(** What is read from a row is a record the store could have written. *)
Lemma decoded_ok sp principal entity id r v :
  SpecOK sp -> row_reals (r_domain r) -> decode_record sp principal entity id r = Ok v -> RecordOK sp v.
Proof.
  intros Hsp Hr Hd.
  apply decode_record_inv in Hd as (e & raw & checked & He & _ & Hid & Hraw & Hch & Hf & _ & Hv & Hcr & Hup & _ & Hent & Hm).
  assert (floats_valid (JObj checked) = true) as Hfl
    by (eapply accepted_floats; [exact Hch|]; intros k x; by eapply decoded_floats).
  destruct (normalise_spec _ _ _ _ Hsp Hfl Hf) as (e' & He' & Hn & _).
  split; [exists e'; by rewrite Hent|done| |lia|by apply (read_time_again (r_created_at r))|by apply (read_time_again (r_updated_at r))].
  apply read_id_small in Hid. lia.
Qed.

(** The fields a create or an update writes. *)
Lemma given_normal sp n given fields r c b :
  SpecOK sp -> validate_record sp n r c b = Ok given ->
  (forall k x, (k, JScalar (PyFloat x)) ∈ r -> binary64 x = true) ->
  normalise_fields sp n given = Ok fields ->
  exists e, spec_entity sp n = Some e /\ NormalRecord sp e fields.
Proof.
  intros Hsp Hg Hr Hf. assert (floats_valid (JObj given) = true) as Hfl by (by eapply accepted_floats).
  destruct (normalise_spec _ _ _ _ Hsp Hfl Hf) as (e & He & Hn & _). by exists e.
Qed.

Lemma dict_set_in {A} (d : list (pystr * A)) k a e : e ∈ dict_set d k a -> e = (k, a) \/ e ∈ d.
Proof.
  induction d as [|[k' a'] d IH]; cbn [dict_set].
  - intros ->%list_elem_of_singleton. by left.
  - case_bool_decide as Hk.
    + intros [->|He]%elem_of_cons; [left; by rewrite Hk|right; by right].
    + intros [->|He]%elem_of_cons; [right; by left|]. destruct (IH He); [by left|right; by right].
Qed.

Lemma merge_in fields updates e : e ∈ merge_fields fields updates -> e ∈ fields \/ e ∈ updates.
Proof.
  unfold merge_fields. revert fields. induction updates as [|[k a] updates IH]; intros fields; cbn [fold_left]; [by left|].
  intros [He|He]%IH; [|right; by right].
  apply dict_set_in in He as [->|He]; [right; by left|by left].
Qed.

Lemma new_record_ok sp a via c id now record e :
  Sane a -> at_now a = Ok now -> at_record_id a = Ok id ->
  spec_entity sp (cr_entity c) = Some e -> NormalRecord sp e record ->
  make_record_value (new_record c via id now record) = Ok (new_record c via id now record) ->
  RecordOK sp (new_record c via id now record).
Proof.
  intros Ha Hnow Hid He Hn Hm. pose proof (sane_time _ _ Ha Hnow).
  split; [by exists e|done|by apply (sane_record _ Ha)|done|done|done].
Qed.

Lemma updated_record_ok sp a before now fields e :
  Sane a -> at_now a = Ok now -> RecordOK sp before -> rv_version before < MAX_REVISION ->
  spec_entity sp (rv_entity before) = Some e -> NormalRecord sp e fields ->
  make_record_value (updated_record before now fields) = Ok (updated_record before now fields) ->
  RecordOK sp (updated_record before now fields).
Proof.
  intros Ha Hnow [_ _ Hid _ Hcr _] Hv He Hn Hm. pose proof (sane_time _ _ Ha Hnow).
  split; cbn [rv_entity rv_fields rv_id rv_version rv_created_at rv_updated_at updated_record]; [by exists e|done|done|lia|done|done].
Qed.

(** ** The specification that was detached *)
Lemma make_entity_ok e e' : make_entity e = Ok e' -> e' = e /\ EntityOK e.
Proof.
  unfold make_entity. rewrite !require_all. intros (Hc & _ & [= <-]). split; [done|].
  apply andb_true_iff in Hc as [[_ Hd]%andb_true_iff Hs]. apply distinct_spec in Hd.
  by apply bool_decide_eq_true, sorted_strs_fix in Hs.
Qed.

Lemma make_field_same f g : make_field f = Ok g -> g = f.
Proof.
  unfold make_field. rewrite !require_all. intros (_ & _ & _ & Hg).
  by apply unit_then in Hg as [_ [= <-]].
Qed.

Lemma detached_ok sp sp' : detach_specification sp = Ok sp' -> sp' = sp /\ SpecOK sp /\ make_specification sp = Ok sp.
Proof.
  unfold detach_specification. intros (ents & Hents & (rels & Hrels & (facets & Hfacets & Hm)%bind_Ok)%bind_Ok)%bind_Ok.
  assert (ents = sp_entities sp) as ->.
  { eapply mapR_same; [|exact Hents]. intros e He y (fields & Hf & Hy)%bind_Ok.
    apply make_entity_ok in Hy as [-> _]. assert (fields = re_fields e) as -> by
      (eapply mapR_same; [|exact Hf]; intros f _ g; apply make_field_same). by destruct e. }
  assert (rels = sp_relationships sp) as ->.
  { eapply mapR_same; [|exact Hrels]. intros r _ y. unfold make_relationship. rewrite require_all. naive_solver. }
  assert (facets = sp_facets sp) as ->.
  { eapply mapR_same; [|exact Hfacets]. intros r _ y. unfold make_facet. rewrite require_all. naive_solver. }
  assert ({| sp_schema_version := sp_schema_version sp; sp_entities := sp_entities sp;
             sp_relationships := sp_relationships sp; sp_facets := sp_facets sp;
             sp_query_patterns := sp_query_patterns sp; sp_retrieval_guidance := sp_retrieval_guidance sp |} = sp)
    as Heq by (by destruct sp). rewrite Heq in Hm.
  assert (sp' = sp) as -> by (unfold make_specification in Hm; rewrite !require_all in Hm; naive_solver).
  split_and!; [done| |done]. intros e He. apply mapR_Ok in Hents.
  apply list_elem_of_lookup in He as [i Hi]. destruct (Forall2_lookup_l _ _ _ _ _ Hents Hi) as (y & Hy & Hey).
  apply bind_Ok in Hey as (fields & Hf & Hey).
  assert (fields = re_fields e) as -> by (eapply mapR_same; [|exact Hf]; intros f _ g; apply make_field_same).
  by apply make_entity_ok in Hey as [_ Hok].
Qed.

Lemma admitted_spec principal via sp checked :
  admitted principal via sp = Some checked ->
  checked = sp /\ SpecOK sp /\ admitted_text principal 128 = true /\ admitted_text via 128 = true.
Proof.
  unfold admitted. destruct (_ && _) eqn:E; [|done]. intros (-> & Hok & _)%ok_of_Some%detached_ok.
  apply andb_true_iff in E. naive_solver.
Qed.

(** ** Rows after a change *)
Lemma table_rows_put s entity t id r n :
  st_tables s !! entity = Some t ->
  table_rows (put_row entity id r s) n = if bool_decide (n = entity) then <[id := r]> (t_rows t) else table_rows s n.
Proof.
  intros Ht. unfold table_rows, put_row, with_tables. cbn [st_tables]. case_bool_decide as Hn.
  - subst. by rewrite lookup_alter_eq, Ht.
  - by rewrite lookup_alter_ne.
Qed.

Lemma table_rows_drop s entity t id n :
  st_tables s !! entity = Some t ->
  table_rows (drop_row entity id s) n = if bool_decide (n = entity) then delete id (t_rows t) else table_rows s n.
Proof.
  intros Ht. unfold table_rows, drop_row, with_tables. cbn [st_tables]. case_bool_decide as Hn.
  - subst. by rewrite lookup_alter_eq, Ht.
  - by rewrite lookup_alter_ne.
Qed.

Lemma table_rows_at s entity t : st_tables s !! entity = Some t -> table_rows s entity = t_rows t.
Proof. unfold table_rows. by intros ->. Qed.

Lemma reals_put s entity t id r :
  st_tables s !! entity = Some t -> reals_ok s -> row_reals (r_domain r) -> reals_ok (put_row entity id r s).
Proof.
  intros Ht Hs Hr n u q. rewrite (table_rows_put _ _ _ _ _ _ Ht). case_bool_decide as Hn; [|apply Hs].
  subst. intros [[<- <-]|[_ Hq]]%lookup_insert_Some; [done|]. apply (Hs entity u). by rewrite (table_rows_at _ _ _ Ht).
Qed.

Lemma reals_drop s entity t id : st_tables s !! entity = Some t -> reals_ok s -> reals_ok (drop_row entity id s).
Proof.
  intros Ht Hs n u q. rewrite (table_rows_drop _ _ _ _ _ Ht). case_bool_decide as Hn; [|apply Hs].
  subst. intros [_ Hq]%lookup_delete_Some. apply (Hs entity u). by rewrite (table_rows_at _ _ _ Ht).
Qed.

Lemma reals_journal key m h s : reals_ok s -> reals_ok (journal key m h s).
Proof. done. Qed.

Lemma journal_entry key m h s : st_mutations (journal key m h s) !! key = Some m.
Proof. unfold journal, with_mutations. cbn [st_mutations]. by rewrite lookup_insert_eq. Qed.

(** ** The contracts *)
Definition mark_record (r : RecordMutationOutcome) : RecordMutationOutcome :=
  {| rm_record := rm_record r; rm_replayed := true |}.
Definition mark_delete (r : DeleteRecordOutcome) : DeleteRecordOutcome :=
  {| do_id := do_id r; do_version := do_version r; do_replayed := true |}.

Lemma entry_same kind fp result now : same_command (entry_of kind fp result now) kind fp = true.
Proof. unfold same_command, entry_of. cbn [mu_kind mu_fingerprint]. by rewrite !bool_decide_true. Qed.

Lemma create_contract principal via sp c pl :
  create_record principal via sp c = Planned pl -> floats_valid (JObj (cr_record c)) = true ->
  Journalled Sane reals_ok pl (principal, cr_key c) mark_record.
Proof.
  unfold create_record. destruct (admitted principal via sp) as [checked|] eqn:Hadm; [|done].
  destruct (_ ≫= _) as [record|] eqn:Hrec; [|done]. destruct (fingerprint_of _) as [fp|]; [|done].
  intros [= <-] Hfl. apply admitted_spec in Hadm as (-> & Hsp & _).
  apply bind_Ok in Hrec as (given & Hgiven & Hrec).
  destruct (given_normal _ _ _ _ _ _ _ Hsp Hgiven (fun k x => floats_in _ k x Hfl) Hrec) as (e & He & Hn).
  split; cbn [pl_operation pl_observer pl_specification].
  - intros a s r s' Ha _ [[Hp Hk] [[-> (m & Hm & Hc & Hd)]|[Hn0 Hcr]]]%create_returns; [left; by split; [|eapply observe_replay_found]|right]. split; [done|].
    destruct Hcr as (now & id & v & columns & e' & t & Hnow & Hid & _ & -> & Hmk & _ & _ & _ & _ & _ & (_ & _ & ->) & ->).
    eapply observe_replay_found; [done|done|apply journal_entry|apply entry_same|]. unfold replayed_record. cbn [mu_result entry_of].
    rewrite decode_result; [done|done|by eapply new_record_ok].
  - intros a s r s' _ Hs [_ [[-> _]|[_ Hcr]]]%create_returns; [done|].
    destruct Hcr as (now & id & v & columns & e' & t & _ & _ & _ & _ & _ & _ & He' & Hcol & Ht & _ & (_ & _ & ->) & _).
    apply reals_journal. eapply reals_put; [done|done|]. cbn [r_domain row_of].
    eapply encoded_reals; [done|apply (nr_floats _ _ _ Hn)].
  - apply observe_replay_key.
  - apply observe_replay_none.
Qed.

(** What an update reads and writes is well formed. *)
Lemma update_normal sp principal entity id s old before updates given fields :
  SpecOK sp -> reals_ok s -> floats_valid (JObj updates) = true ->
  find_row s principal entity id = Some old -> decode_record sp principal entity id old = Ok before ->
  validate_create sp entity (merge_fields (rv_fields before) updates) = Ok given ->
  normalise_fields sp entity given = Ok fields ->
  RecordOK sp before /\ rv_entity before = entity
  /\ exists e, spec_entity sp entity = Some e /\ NormalRecord sp e fields.
Proof.
  intros Hsp Hs Hu Hold Hdec Hgiven Hfields.
  destruct (find_row_at _ _ _ _ _ Hold) as (t & Ht & Hrow & _).
  assert (row_reals (r_domain old)) as Hr by (apply (Hs entity id); by rewrite (table_rows_at _ _ _ Ht)).
  pose proof (decoded_ok _ _ _ _ _ _ Hsp Hr Hdec) as Hok. split; [done|].
  pose proof (decode_record_inv _ _ _ _ _ _ Hdec) as (? & ? & ? & _ & _ & _ & _ & _ & _ & _ & _ & _ & _ & _ & Hent & _).
  split; [done|]. eapply given_normal; [done|exact Hgiven| |exact Hfields].
  intros k y [Hin|Hin]%merge_in; [|by eapply floats_in].
  destruct (ro_fields _ _ Hok) as (e & _ & Hn). by eapply floats_in; [apply (nr_floats _ _ _ Hn)|].
Qed.

Lemma update_contract principal via sp c pl :
  update_record principal via sp c = Planned pl -> floats_valid (JObj (ur_updates c)) = true ->
  (ur_record c < 2 ^ 128)%N ->
  Journalled Sane reals_ok pl (principal, ur_key c) mark_record.
Proof.
  unfold update_record. destruct (admitted principal via sp) as [checked|] eqn:Hadm; [|done].
  destruct (Z.leb_spec MAX_REVISION (ur_version c)) as [|Hmax]; [done|].
  destruct (validate_updates _ _ _) as [updates|] eqn:Hup; [|done]. destruct (fingerprint_of _) as [fp|]; [|done].
  intros [= <-] Hfl Hid. apply admitted_spec in Hadm as (-> & Hsp & _).
  pose proof (accepted_floats _ _ _ _ _ _ Hup (fun k x => floats_in _ k x Hfl)) as Hupf.
  split; cbn [pl_operation pl_observer pl_specification].
  - intros a s r s' Ha Hs [[Hp Hk] [[-> (m & Hm & Hc & Hd)]|[Hn0 Hcr]]]%update_returns; [left; by split; [|eapply observe_replay_found]| |done].
    right. split; [done|].
    destruct Hcr as (now & old & before & given & fields & columns & e & t & Hold & Hdec & Hver & Hgiven & Hfields
      & _ & Hnow & Hmk & _ & _ & _ & _ & _ & _ & (_ & _ & _ & -> & ->)).
    destruct (update_normal _ _ _ _ _ _ _ _ _ _ Hsp Hs Hupf Hold Hdec Hgiven Hfields) as (Hok & Hent & e' & He' & Hn).
    eapply observe_replay_found; [done|done|apply journal_entry|apply entry_same|]. unfold replayed_record. cbn [mu_result entry_of].
    rewrite decode_result; [done|done|]. eapply updated_record_ok; [done|done|done|lia|by rewrite Hent|done|done].
  - intros a s r s' _ Hs [_ [[-> _]|[_ Hcr]]]%update_returns; [done| |done].
    destruct Hcr as (now & old & before & given & fields & columns & e & t & Hold & Hdec & Hver & Hgiven & Hfields
      & _ & _ & _ & He & Hcol & Ht & _ & _ & _ & (_ & _ & _ & -> & _)).
    destruct (update_normal _ _ _ _ _ _ _ _ _ _ Hsp Hs Hupf Hold Hdec Hgiven Hfields) as (_ & Hent & e' & He' & Hn).
    apply reals_journal. eapply reals_put; [done|done|]. cbn [r_domain set_row].
    eapply encoded_reals; [done|]. apply (nr_floats _ _ _ Hn).
  - apply observe_replay_key.
  - apply observe_replay_none.
Qed.

Lemma delete_contract principal via sp c pl :
  delete_record principal via sp c = Planned pl -> (dr_record c < 2 ^ 128)%N ->
  Journalled Sane reals_ok pl (principal, dr_key c) mark_delete.
Proof.
  unfold delete_record. destruct (admitted principal via sp) as [checked|] eqn:Hadm; [|done].
  destruct (Z.leb_spec MAX_REVISION (dr_version c)) as [|Hmax]; [done|]. destruct (fingerprint_of _) as [fp|]; [|done].
  intros [= <-] Hid. apply admitted_spec in Hadm as (-> & Hsp & _).
  split; cbn [pl_operation pl_observer pl_specification].
  - intros a s r s' Ha Hs [[Hp Hk] [[-> (m & Hm & Hc & Hd)]|[Hn0 Hcr]]]%delete_returns; [left; by split; [|eapply observe_replay_found]|].
    right. split; [done|].
    destruct Hcr as (now & old & before & t & Hold & Hdec & Hver & Hnow & Hmk & Ht & Hrow & (_ & _ & _ & ->) & ->).
    pose proof (decode_record_inv _ _ _ _ _ _ Hdec) as (e & ? & ? & He & _ & Hread & _ & _ & _ & _ & Hrange & _).
    apply read_id_small in Hread as [Hpos Hmod]. rewrite N.mod_small in Hmod by done. rewrite Hmod in Hpos.
    eapply observe_replay_found; [done|done|apply journal_entry|apply entry_same|]. cbn [mu_result entry_of].
    by rewrite (decode_delete sp _ _ e) by (cbn [do_id do_version]; done || lia).
  - intros a s r s' _ Hs [_ [[-> _]|[_ Hcr]]]%delete_returns; [done|].
    destruct Hcr as (now & old & before & t & _ & _ & _ & _ & _ & Ht & _ & (_ & _ & _ & ->) & _).
    apply reals_journal. eapply reals_drop; [exact Ht|done].
  - apply observe_replay_key.
  - apply observe_replay_none.
Qed.
End evidence.
