(* ===== verification/Topology.v ===== *)
(** * Topology: branches and the records assigned to them

    [storage/sqlite/topology.py]: the mutations of branches and memberships
    inside a transaction, their stored results, and the methods of
    [storage/sqlite/data_store.py] that run them.  An exception inside an
    operation becomes a failure, and the caller rolls back. *)
From S2P Require Export RecordStore.
From S2P Require Import Prelude Values Json JsonText Sha256 Manifest.

#[export] Instance BranchValue_eq_dec : EqDecision BranchValue.
Proof. solve_decision. Defined.

(** A [ValueError] of the module. *)
Definition valued {A} (o : option A) : result fault A := match o with Some a => Ok a | None => Raise OtherFault end.

Definition uuid_json (o : option UUID) : json := joption (fun u => jstr (uuid_str u)) o.
Definition text_json (o : option pystr) : json := joption jstr o.

(** [_parse_parent]: a stored or requested parent. *)
Definition parse_parent (j : json) : option (option UUID) :=
  match j with
  | JNull => Some None
  | JScalar (PyStr s) =>
      u ← parse_uuid s;
      if bool_decide (uuid_str u = s) && negb (u =? 0)%N then Some (Some u) else None
  | _ => None
  end.

(** [str | None] of an object. *)
Definition as_text (j : json) : option (option pystr) :=
  match j with JNull => Some None | _ => Some <$> as_str j end.
Definition get_text (es : list (pystr * json)) (k : pystr) : option (option pystr) := j ← dict_get es k; as_text j.

(** ** Texts of branches and assignments *)
Section codecs.
Context `{FloatRead} `{IsoDates}.

(** [_decode_branch]. *)
Definition decode_branch (id : UUID) (b : branch_row) : option BranchValue :=
  bid ← parse_uuid (uuid_str id);
  parent ← parse_parent (uuid_json (b_parent b));
  created ← read_time (b_created_at b);
  updated ← read_time (b_updated_at b);
  version ← revision (b_revision b);
  v ← ok_of (make_branch
        {| bv_id := bid; bv_slug := b_slug b; bv_title := b_title b; bv_intent := b_intent b; bv_type := b_type b;
           bv_parent := parent; bv_status := b_status b; bv_summary := b_summary b; bv_created_at := created;
           bv_updated_at := updated; bv_revision := version |});
  if bool_decide (uuid_str (bv_id v) = uuid_str id) then Some v else None.

Definition branch_json (v : BranchValue) : json :=
  JObj [ (lit "id", jstr (uuid_str (bv_id v))); (lit "slug", jstr (bv_slug v)); (lit "title", jstr (bv_title v));
         (lit "intent", jstr (bv_intent v)); (lit "branch_type", text_json (bv_type v));
         (lit "parent_branch_id", uuid_json (bv_parent v)); (lit "status", jstr (status_text (bv_status v)));
         (lit "retrieval_summary", text_json (bv_summary v)); (lit "created_at", jstr (encode_time (bv_created_at v)));
         (lit "updated_at", jstr (encode_time (bv_updated_at v))); (lit "branch_revision", jint (bv_revision v)) ].

Definition encode_branch_result (v : BranchValue) : pystr :=
  canonical_json (JObj [(lit "kind", jstr (lit "branch")); (lit "branch", branch_json v)]).

Definition decode_branch_result (text : pystr) : option BranchValue :=
  raw ← decode_canonical_json text;
  es ← exact_keys [lit "kind"; lit "branch"] raw;
  kind ← get_str es (lit "kind");
  if negb (bool_decide (kind = lit "branch")) then None else
  item ← dict_get es (lit "branch");
  bs ← exact_keys [ lit "id"; lit "slug"; lit "title"; lit "intent"; lit "branch_type"; lit "parent_branch_id";
                    lit "status"; lit "retrieval_summary"; lit "created_at"; lit "updated_at"; lit "branch_revision" ] item;
  id ← get_uuid bs (lit "id");
  slug ← get_str bs (lit "slug");
  title ← get_str bs (lit "title");
  intent ← get_str bs (lit "intent");
  type ← get_text bs (lit "branch_type");
  parent ← (dict_get bs (lit "parent_branch_id") ≫= parse_parent);
  status ← (get_str bs (lit "status") ≫= read_status);
  summary ← get_text bs (lit "retrieval_summary");
  created ← (get_str bs (lit "created_at") ≫= decode_time);
  updated ← (get_str bs (lit "updated_at") ≫= decode_time);
  version ← (get_int bs (lit "branch_revision") ≫= revision);
  v ← ok_of (make_branch
        {| bv_id := id; bv_slug := slug; bv_title := title; bv_intent := intent; bv_type := type;
           bv_parent := parent; bv_status := status; bv_summary := summary; bv_created_at := created;
           bv_updated_at := updated; bv_revision := version |});
  if bool_decide (encode_branch_result v = text) then Some v else None.

Definition assigned_json (r : AssignedRecordRef) : json :=
  JObj [ (lit "entity_name", jstr (ar_entity r)); (lit "id", jstr (uuid_str (ar_id r)));
         (lit "record_version", jint (ar_version r)) ].

Definition encode_assignment_result (o : BranchAssignmentOutcome) : pystr :=
  canonical_json (JObj [ (lit "kind", jstr (lit "branch_assignment"));
                         (lit "records", JArr (map assigned_json (ba_records o))) ]).

Definition decode_assigned (j : json) : option AssignedRecordRef :=
  es ← exact_keys [lit "entity_name"; lit "id"; lit "record_version"] j;
  entity ← get_str es (lit "entity_name");
  id ← get_uuid es (lit "id");
  version ← (get_int es (lit "record_version") ≫= revision);
  ok_of (make_assigned {| ar_entity := entity; ar_id := id; ar_version := version |}).

Definition decode_assignment_result (text : pystr) : option (list AssignedRecordRef) :=
  raw ← decode_canonical_json text;
  es ← exact_keys [lit "kind"; lit "records"] raw;
  kind ← get_str es (lit "kind");
  if negb (bool_decide (kind = lit "branch_assignment")) then None else
  values ← dict_get es (lit "records");
  match values with
  | JArr items =>
      refs ← mapM decode_assigned items;
      outcome ← ok_of (make_assignment_outcome {| ba_records := refs; ba_replayed := false |});
      if bool_decide (encode_assignment_result outcome = text) then Some refs else None
  | _ => None
  end.

(** ** Evidence of completed mutations *)

(** [_branch_replay] and [_assignment_replay]. *)
Definition topology_replay {A} (principal key kind fingerprint : pystr) (decode : pystr -> option A)
  : stx (option (answer A)) :=
  found ← mutation_row principal key;
  match found with
  | None => ret None
  | Some m =>
      if same_command m kind fingerprint
      then ret (Some (match decode (mu_result m) with Some v => Success v | None => Failure internal_error end))
      else ret (Some (Failure changed_fingerprint))
  end.

Definition replayed_branch (text : pystr) : option BranchMutationOutcome :=
  v ← decode_branch_result text; Some {| bm_branch := v; bm_replayed := true |}.
Definition replayed_assignment (text : pystr) : option BranchAssignmentOutcome :=
  refs ← decode_assignment_result text;
  ok_of (make_assignment_outcome {| ba_records := refs; ba_replayed := true |}).

(** [observe_branch_replay] and [observe_assignment_replay]. *)
Definition observe_topology {A} (principal key kind fingerprint : pystr) (decode : pystr -> option A) : stx (option A) :=
  observe_replay principal key kind fingerprint (fun text => valued (decode text)).

(** [except sqlite3.IntegrityError: constraint], and [internal_error] for any
    other exception. *)
Definition answered {A} (constraint : DataFailureCode) (m : stx (answer A)) : stx (answer A) := fun s =>
  match m s with
  | (Raise IntegrityError, s') => (Ok (Failure constraint), s')
  | (Raise _, s') => (Ok (Failure internal_error), s')
  | x => x
  end.

(** ** Branches *)

(** [_branch_row] and [_branch_exists]. *)
Definition find_branch (bs : gmap UUID branch_row) (principal : pystr) (id : UUID) : option branch_row :=
  match bs !! id with
  | Some b => if bool_decide (b_principal b = principal) then Some b else None
  | None => None
  end.
Definition select_branch (principal : pystr) (id : UUID) : stx (option branch_row) :=
  bind_texts [principal] ;; reading (fun s => find_branch (st_branches s) principal id).

(** [_has_ancestor]; [None] when the walk takes more steps than the fuel. *)
Fixpoint has_ancestor (fuel : nat) (bs : gmap UUID branch_row) (principal : pystr) (seen : gset UUID)
    (current : option UUID) (sought : UUID) : option (result fault bool) :=
  match current with
  | None => Some (Ok false)
  | Some c =>
      if (c =? sought)%N then Some (Ok true) else
      if bool_decide (c ∈ seen) then Some (Ok true) else
      match fuel with
      | O => None
      | S fuel' =>
          match find_branch bs principal c with
          | None => Some (Ok false)
          | Some b =>
              match parse_parent (uuid_json (b_parent b)) with
              | None => Some (Raise OtherFault)
              | Some parent => has_ancestor fuel' bs principal ({[c]} ∪ seen) parent sought
              end
          end
      end
  end.

(** Every step but the last two sees another branch. *)
Definition ancestor_fuel (bs : gmap UUID branch_row) : nat := S (size bs).

Definition is_ancestor (principal : pystr) (start sought : UUID) : stx bool :=
  found ← reading (fun s => has_ancestor (ancestor_fuel (st_branches s)) (st_branches s) principal ∅ (Some start) sought);
  run_result (match found with Some r => r | None => Raise OtherFault end).
End codecs.

(** ** The operations on branches *)
Section branches.
Context `{FloatRead} `{IsoDates}.

(** The row of a branch, and the row an update leaves. *)
Definition branch_row_of (principal : pystr) (v : BranchValue) : branch_row :=
  {| b_principal := principal; b_slug := bv_slug v; b_title := bv_title v; b_intent := bv_intent v;
     b_type := bv_type v; b_parent := bv_parent v; b_status := bv_status v; b_summary := bv_summary v;
     b_revision := bv_revision v; b_created_at := bv_created_at v; b_updated_at := bv_updated_at v |}.
Definition set_branch (v : BranchValue) (b : branch_row) : branch_row :=
  {| b_principal := b_principal b; b_slug := b_slug b; b_title := bv_title v; b_intent := bv_intent v;
     b_type := bv_type v; b_parent := bv_parent v; b_status := bv_status v; b_summary := bv_summary v;
     b_revision := bv_revision v; b_created_at := b_created_at b; b_updated_at := bv_updated_at v |}.

Definition create_branch_payload (via : pystr) (c : CreateBranchCommand) : json :=
  JObj [ (lit "operation", jstr (lit "create_branch")); (lit "created_via", jstr via); (lit "slug", jstr (cb_slug c));
         (lit "title", jstr (cb_title c)); (lit "intent", jstr (cb_intent c)); (lit "branch_type", text_json (cb_type c));
         (lit "parent_branch_id", uuid_json (cb_parent c)); (lit "retrieval_summary", text_json (cb_summary c)) ].

Definition new_branch (c : CreateBranchCommand) (id : UUID) (now : datetime) : BranchValue :=
  {| bv_id := id; bv_slug := cb_slug c; bv_title := cb_title c; bv_intent := cb_intent c; bv_type := cb_type c;
     bv_parent := cb_parent c; bv_status := BranchActive; bv_summary := cb_summary c; bv_created_at := now;
     bv_updated_at := now; bv_revision := 1 |}.

(** A parent that was named must be a branch of the caller. *)
Definition parent_missing (principal : pystr) (parent : option UUID) : stx bool :=
  match parent with
  | None => ret false
  | Some p => found ← select_branch principal p; ret (bool_decide (found = None))
  end.

Definition topology_admitted (principal via : pystr) : bool := admitted_text principal 128 && admitted_text via 128.

Definition create_branch_op (a : attempt) (principal via : pystr) (c : CreateBranchCommand)
  : stx (answer BranchMutationOutcome) :=
  if negb (topology_admitted principal via) then ret (Failure validation_failed) else
  fp ← run_result (valued (fingerprint_of (create_branch_payload via c)));
  answered already_exists (
    seen ← topology_replay principal (cb_key c) (lit "create_branch") fp replayed_branch;
    match seen with
    | Some r => ret r
    | None =>
        missing ← parent_missing principal (cb_parent c);
        if (missing : bool) then ret (Failure not_found) else
        now ← run_result (at_now a);
        id ← new_id (at_branch_id a);
        branch ← run_recorded (make_branch (new_branch c id now));
        insert_branch (bv_id branch) (branch_row_of principal branch) ;;
        complete_mutation principal (cb_key c) (lit "create_branch") fp (encode_branch_result branch) now ;;
        ret (Success {| bm_branch := branch; bm_replayed := false |})
    end).

Definition update_branch_payload (via : pystr) (c : UpdateBranchCommand) : json :=
  JObj [ (lit "operation", jstr (lit "update_branch")); (lit "created_via", jstr via);
         (lit "branch_id", jstr (uuid_str (ub_branch c))); (lit "expected_branch_revision", jint (ub_revision c));
         (lit "updates", JObj (ub_updates c)) ].

(** [updates.get(name, current)]. *)
Definition updated_str (updates : list (pystr * json)) (k : pystr) (current : pystr) : option pystr :=
  match dict_get updates k with None => Some current | Some j => as_str j end.
Definition updated_text (updates : list (pystr * json)) (k : pystr) (current : option pystr) : option (option pystr) :=
  match dict_get updates k with None => Some current | Some j => as_text j end.

(** The branch the command asks for, under its new parent: [current] when
    nothing changes.  The command has checked the types of its updates. *)
Definition updated_branch (current : BranchValue) (updates : list (pystr * json)) (parent : option UUID)
  : option BranchValue :=
  title ← updated_str updates (lit "title") (bv_title current);
  intent ← updated_str updates (lit "intent") (bv_intent current);
  type ← updated_text updates (lit "branch_type") (bv_type current);
  status ← (updated_str updates (lit "status") (status_text (bv_status current)) ≫= read_status);
  summary ← updated_text updates (lit "retrieval_summary") (bv_summary current);
  Some {| bv_id := bv_id current; bv_slug := bv_slug current; bv_title := title; bv_intent := intent;
          bv_type := type; bv_parent := parent; bv_status := status; bv_summary := summary;
          bv_created_at := bv_created_at current; bv_updated_at := bv_updated_at current;
          bv_revision := bv_revision current |}.

Definition touched (v : BranchValue) (now : datetime) : BranchValue :=
  {| bv_id := bv_id v; bv_slug := bv_slug v; bv_title := bv_title v; bv_intent := bv_intent v; bv_type := bv_type v;
     bv_parent := bv_parent v; bv_status := bv_status v; bv_summary := bv_summary v;
     bv_created_at := bv_created_at v; bv_updated_at := now; bv_revision := bv_revision v + 1 |}.

(** What forbids a parent: it is the branch, is no branch of the caller, or
    descends from the branch. *)
Definition refused_parent (principal : pystr) (id : UUID) (parent : option UUID) : stx (option DataFailureCode) :=
  if bool_decide (parent = Some id) then ret (Some constraint_violation) else
  match parent with
  | None => ret None
  | Some p =>
      missing ← parent_missing principal (Some p);
      if (missing : bool) then ret (Some not_found) else
      cycle ← is_ancestor principal p id;
      ret (if (cycle : bool) then Some constraint_violation else None)
  end.

Definition update_branch_op (a : attempt) (principal via : pystr) (c : UpdateBranchCommand)
  : stx (answer BranchMutationOutcome) :=
  if negb (topology_admitted principal via) then ret (Failure validation_failed) else
  if MAX_REVISION <=? ub_revision c then ret (Failure validation_failed) else
  fp ← run_result (valued (fingerprint_of (update_branch_payload via c)));
  answered constraint_violation (
    seen ← topology_replay principal (ub_key c) (lit "update_branch") fp replayed_branch;
    match seen with
    | Some r => ret r
    | None =>
        found ← select_branch principal (ub_branch c);
        match found with
        | None => ret (Failure not_found)
        | Some b =>
            current ← run_result (valued (decode_branch (ub_branch c) b));
            if negb (bv_revision current =? ub_revision c) then ret (Failure stale_branch_revision) else
            parent ← run_result (valued (parse_parent
                       (default (uuid_json (bv_parent current)) (dict_get (ub_updates c) (lit "parent_branch_id")))));
            refused ← refused_parent principal (bv_id current) parent;
            match refused with
            | Some code => ret (Failure code)
            | None =>
                candidate ← run_result (valued (updated_branch current (ub_updates c) parent));
                now ← run_result (at_now a);
                if bool_decide (candidate = current) then
                  complete_mutation principal (ub_key c) (lit "update_branch") fp (encode_branch_result current) now ;;
                  ret (Success {| bm_branch := current; bm_replayed := false |})
                else
                  next ← run_recorded (make_branch (touched candidate now));
                  changed ← update_branch_row (bv_id next) principal (bv_revision current) (set_branch next);
                  if negb changed then ret (Failure stale_branch_revision) else
                  complete_mutation principal (ub_key c) (lit "update_branch") fp (encode_branch_result next) now ;;
                  ret (Success {| bm_branch := next; bm_replayed := false |})
            end
        end
    end).
End branches.

(** ** Assigning records *)
Section assignments.
Context `{FloatRead} `{IsoDates}.

Definition target_json (t : BranchAssignmentTarget) : json :=
  JObj [ (lit "entity_name", jstr (bt_entity t)); (lit "record_id", jstr (uuid_str (bt_record t)));
         (lit "expected_record_version", jint (bt_version t)) ].

Definition assign_payload (via : pystr) (c : AssignBranchRecordsCommand) : json :=
  JObj [ (lit "operation", jstr (lit "assign_branch_records")); (lit "created_via", jstr via);
         (lit "branch_id", jstr (uuid_str (ab_branch c))); (lit "role", jstr (role_text (ab_role c)));
         (lit "operation_kind", jstr (assignment_text (ab_operation c)));
         (lit "targets", JArr (map target_json (ab_targets c))) ].

(** [_record_row] and [_record_fields]. *)
Definition select_row (principal entity : pystr) (id : UUID) : stx (option row) :=
  bind_texts [principal] ;; the_table entity ;; reading (fun s => find_row s principal entity id).

Definition record_fields (sp : RecordSpecification) (entity : pystr) (r : row) : result fault (list (pystr * json)) :=
  valued (e ← spec_entity sp entity; raw ← decode_fields e r; ok_of (validate_create sp entity raw)).

(** Every target is checked before anything changes. *)
Fixpoint select_targets (principal : pystr) (sp : RecordSpecification) (ts : list BranchAssignmentTarget)
  : stx (answer (list (list (pystr * json)))) :=
  match ts with
  | [] => ret (Success [])
  | t :: ts' =>
      found ← select_row principal (bt_entity t) (bt_record t);
      match found with
      | None => ret (Failure not_found)
      | Some r =>
          if negb (r_record_version r =? bt_version t) then ret (Failure stale_record_version) else
          fields ← run_result (record_fields sp (bt_entity t) r);
          rest ← select_targets principal sp ts';
          ret (match rest with Success l => Success (fields :: l) | Failure c => Failure c end)
      end
  end.

(** [_apply_mapping]: the kind of the event, when a membership changed. *)
Definition apply_mapping (principal : pystr) (branch : UUID) (role : BranchRole) (operation : AssignmentOperation)
    (entity : pystr) (record : UUID) (now : datetime) : stx (option EventKind) :=
  let k := (principal, entity, record, branch) in
  mapping ← reading (fun s => m_role <$> st_members s !! k);
  match operation, role with
  | Unassign, _ =>
      if bool_decide (mapping = Some role) then
        delete_member k ;; ret (Some (match role with Primary => primary_unassign | Related => related_unassign end))
      else ret None
  | Assign, Related =>
      if bool_decide (mapping = None) then
        insert_member k {| m_role := Related; m_assigned_at := now |} ;; ret (Some related_assign)
      else ret None
  | Assign, Primary =>
      if bool_decide (mapping = Some Primary) then ret None else
      previous ← reading (fun s => primary_of s principal entity record);
      (if bool_decide (mapping = None) then ret tt else delete_member k) ;;
      (if bool_decide (previous = None) then ret tt
       else delete_members principal entity record (fun m => bool_decide (m_role m = Primary))) ;;
      insert_member k {| m_role := Primary; m_assigned_at := now |} ;;
      ret (Some (if bool_decide (previous = None) then primary_assign else primary_move))
  end.

Definition set_version (version : Z) (now : datetime) (r : row) : row :=
  {| r_owner_id := r_owner_id r; r_created_at := r_created_at r; r_updated_at := now;
     r_created_via := r_created_via r; r_record_version := version; r_domain := r_domain r |}.

(** [_append_topology_history]. *)
Definition append_topology_history (principal entity : pystr) (record : UUID) (version : Z) (kind : EventKind)
    (fields : list (pystr * json)) (now : datetime) : stx unit :=
  insert_history (fun seq =>
    {| h_sequence := seq; h_principal := principal; h_entity := entity; h_record := record; h_version := version;
       h_kind := kind; h_before := Some (snapshot fields); h_after := Some (snapshot fields); h_occurred_at := now |}).

(** One target: [None] when its row was not at the expected version. *)
Definition assign_target (principal : pystr) (c : AssignBranchRecordsCommand) (now : datetime)
    (t : BranchAssignmentTarget) (fields : list (pystr * json)) : stx (option AssignedRecordRef) :=
  changed ← apply_mapping principal (ab_branch c) (ab_role c) (ab_operation c) (bt_entity t) (bt_record t) now;
  match changed with
  | None =>
      ref ← run_recorded (make_assigned {| ar_entity := bt_entity t; ar_id := bt_record t; ar_version := bt_version t |});
      ret (Some ref)
  | Some kind =>
      let version := bt_version t + 1 in
      updated ← update_row (bt_entity t) (bt_record t) principal (bt_version t) (set_version version now);
      if negb updated then ret None else
      append_topology_history principal (bt_entity t) (bt_record t) version kind fields now ;;
      ref ← run_recorded (make_assigned {| ar_entity := bt_entity t; ar_id := bt_record t; ar_version := version |});
      ret (Some ref)
  end.

Fixpoint assign_targets (principal : pystr) (c : AssignBranchRecordsCommand) (now : datetime)
    (ts : list (BranchAssignmentTarget * list (pystr * json))) : stx (option (list AssignedRecordRef)) :=
  match ts with
  | [] => ret (Some [])
  | (t, fields) :: ts' =>
      ref ← assign_target principal c now t fields;
      match ref with
      | None => ret None
      | Some ref => rest ← assign_targets principal c now ts'; ret (cons ref <$> rest)
      end
  end.

Definition assign_records_op (a : attempt) (principal via : pystr) (sp : RecordSpecification)
    (c : AssignBranchRecordsCommand) : stx (answer BranchAssignmentOutcome) :=
  if negb (topology_admitted principal via) then ret (Failure validation_failed) else
  if existsb (fun t => bool_decide (spec_entity sp (bt_entity t) = None)) (ab_targets c)
  then ret (Failure validation_failed) else
  if existsb (fun t => MAX_REVISION <=? bt_version t) (ab_targets c) then ret (Failure validation_failed) else
  fp ← run_result (valued (fingerprint_of (assign_payload via c)));
  answered constraint_violation (
    seen ← topology_replay principal (ab_key c) (lit "assign_branch_records") fp replayed_assignment;
    match seen with
    | Some r => ret r
    | None =>
        found ← select_branch principal (ab_branch c);
        match found with
        | None => ret (Failure not_found)
        | Some b =>
            if bool_decide (ab_operation c = Assign) && negb (bool_decide (b_status b = BranchActive))
            then ret (Failure constraint_violation) else
            records ← select_targets principal sp (ab_targets c);
            match records with
            | Failure code => ret (Failure code)
            | Success records =>
                now ← run_result (at_now a);
                refs ← assign_targets principal c now (combine (ab_targets c) records);
                match refs with
                | None => ret (Failure stale_record_version)
                | Some refs =>
                    outcome ← run_recorded (make_assignment_outcome {| ba_records := refs; ba_replayed := false |});
                    complete_mutation principal (ab_key c) (lit "assign_branch_records") fp
                      (encode_assignment_result outcome) now ;;
                    ret (Success outcome)
                end
            end
        end
    end).
End assignments.

(** ** The methods of the store *)
Section methods.
Context `{FloatRead} `{IsoDates}.

(** The observers compute the fingerprint of their command again. *)
Definition observed {A} (principal key kind : pystr) (payload : json) (decode : pystr -> option A) : stx (option A) :=
  fp ← run_result (valued (fingerprint_of payload)); observe_topology principal key kind fp decode.

Definition create_branch (principal via : pystr) (sp : RecordSpecification) (c : CreateBranchCommand)
  : planned BranchMutationOutcome :=
  match admitted principal via sp with
  | None => Refused validation_failed
  | Some checked =>
      Planned {| pl_specification := checked;
                 pl_operation := fun a => create_branch_op a principal via c;
                 pl_observer := observed principal (cb_key c) (lit "create_branch") (create_branch_payload via c)
                                  replayed_branch |}
  end.

Definition update_branch (principal via : pystr) (sp : RecordSpecification) (c : UpdateBranchCommand)
  : planned BranchMutationOutcome :=
  match admitted principal via sp with
  | None => Refused validation_failed
  | Some checked =>
      Planned {| pl_specification := checked;
                 pl_operation := fun a => update_branch_op a principal via c;
                 pl_observer := observed principal (ub_key c) (lit "update_branch") (update_branch_payload via c)
                                  replayed_branch |}
  end.

Definition assign_branch_records (principal via : pystr) (sp : RecordSpecification) (c : AssignBranchRecordsCommand)
  : planned BranchAssignmentOutcome :=
  match admitted principal via sp with
  | None => Refused validation_failed
  | Some checked =>
      Planned {| pl_specification := checked;
                 pl_operation := fun a => assign_records_op a principal via checked c;
                 pl_observer := observed principal (ab_key c) (lit "assign_branch_records") (assign_payload via c)
                                  replayed_assignment |}
  end.
End methods.
