(* ===== verification/TopologyValues.v ===== *)
(** * TopologyValues: stored results of branch mutations read back

    A branch is read from its row as it was written, and the stored result of a
    branch mutation or an assignment is read as the value that was stored. *)
From S2P Require Export RecordValues Topology RecordEvidence.
From S2P Require Import Prelude Values Json JsonText Sha256 Manifest.

(** ** The parents of branches

    [_has_ancestor] always answers, and on branches whose parents are a forest
    it answers whether the branch sought is on the way up.  Putting a branch
    under a parent that does not descend from it keeps the forest. *)

Section forest.
Context `{IsoDates}.
Implicit Types bs : gmap UUID branch_row.

(** ** Ways up *)
Definition ascends bs (principal : pystr) (x y : UUID) : Prop :=
  exists b, find_branch bs principal x = Some b /\ b_parent b = Some y.

(** A branch of the caller whose way up ends. *)
Inductive rooted bs (principal : pystr) : UUID -> Prop :=
| rooted_at id b : find_branch bs principal id = Some b ->
    (forall p, b_parent b = Some p -> rooted bs principal p) -> rooted bs principal id.

Definition Forest bs : Prop :=
  forall id b, bs !! id = Some b -> (0 < id < 2 ^ 128)%N /\ rooted bs (b_principal b) id.

Lemma find_branch_Some bs principal id b :
  find_branch bs principal id = Some b <-> bs !! id = Some b /\ b_principal b = principal.
Proof.
  unfold find_branch. destruct (bs !! id) as [b'|]; [|naive_solver].
  case_bool_decide; naive_solver.
Qed.

Lemma rooted_up bs principal x y : rooted bs principal x -> ascends bs principal x y -> rooted bs principal y.
Proof. intros [id b Hb Hp] (b' & Hb' & Hy). assert (b' = b) as -> by congruence. by apply Hp. Qed.

Lemma rooted_rtc bs principal x y : rooted bs principal x -> rtc (ascends bs principal) x y -> rooted bs principal y.
Proof. intros Hx Hr. induction Hr; [done|]. apply IHHr. by eapply rooted_up. Qed.

Lemma rooted_acyclic bs principal x : rooted bs principal x -> ~ tc (ascends bs principal) x x.
Proof.
  induction 1 as [id b Hb _ IH]. intros Ht.
  assert (exists p, b_parent b = Some p /\ rtc (ascends bs principal) p id) as (p & Hp & Hr).
  { inversion Ht as [? ? (b' & Hb' & Hy)|? y ? (b' & Hb' & Hy) Hy']; subst;
      assert (b' = b) as -> by congruence; eexists; (split; [done|]); [done|by apply tc_rtc]. }
  apply (IH p Hp). eapply tc_rtc_l; [exact Hr|]. apply tc_once. by exists b.
Qed.

Lemma parse_parent_str u : (0 < u < 2 ^ 128)%N -> parse_parent (uuid_json (Some u)) = Some (Some u).
Proof.
  intros Hu. cbn [uuid_json joption parse_parent jstr]. rewrite parse_uuid_id by lia. cbn [mbind option_bind].
  rewrite bool_decide_true by done. by rewrite (proj2 (N.eqb_neq _ _)) by lia.
Qed.

Lemma forest_id bs id b : Forest bs -> bs !! id = Some b -> (0 < id < 2 ^ 128)%N.
Proof. intros Hf Hb. by apply (Hf id b). Qed.

(** A stored parent is read back. *)
Lemma forest_parent bs principal id b :
  Forest bs -> find_branch bs principal id = Some b -> parse_parent (uuid_json (b_parent b)) = Some (b_parent b).
Proof.
  intros Hf [Hb Hown]%find_branch_Some. destruct (b_parent b) as [p|] eqn:Ep; [|done].
  destruct (Hf id b Hb) as [_ Hr]. assert (rooted bs (b_principal b) p) as Hp.
  { eapply rooted_up; [done|]. exists b. by rewrite find_branch_Some. }
  destruct Hp as [p b' [Hb' _]%find_branch_Some _]. apply parse_parent_str. by eapply forest_id.
Qed.

(** ** The walk *)
Lemma has_ancestor_total bs principal fuel seen current sought :
  seen ⊆ dom bs -> (size bs < fuel + size seen)%nat ->
  has_ancestor fuel bs principal seen current sought <> None.
Proof.
  revert seen current. induction fuel as [|fuel IH]; intros seen current Hseen Hsize; cbn [has_ancestor];
    (destruct current as [c|]; [|done]); (destruct (N.eqb_spec c sought); [done|]); case_bool_decide as Hc; try done.
  { apply subseteq_size in Hseen. rewrite size_dom in Hseen. lia. }
  destruct (find_branch bs principal c) as [b|] eqn:Eb; [|done].
  destruct (parse_parent _) as [parent|]; [|done]. apply find_branch_Some in Eb as [Eb _]. apply IH.
  - apply union_subseteq. split; [|done]. apply singleton_subseteq_l. by eapply elem_of_dom_2.
  - rewrite size_union, size_singleton by set_solver. lia.
Qed.

Lemma has_ancestor_spec bs principal fuel seen c sought r :
  Forest bs -> rooted bs principal c -> (forall x, x ∈ seen -> ~ rtc (ascends bs principal) c x) ->
  has_ancestor fuel bs principal seen (Some c) sought = Some r ->
  exists found, r = Ok found /\ (found = true <-> rtc (ascends bs principal) c sought).
Proof.
  intros Hf Hc. revert fuel seen. induction Hc as [c b Hb Hpar IH]; intros fuel seen Hseen.
  pose proof (rooted_at _ _ c b Hb Hpar) as Hroot.
  destruct fuel as [|fuel]; cbn [has_ancestor]; (destruct (N.eqb_spec c sought) as [->|Hne];
    [intros [= <-]; exists true; by split|]);
    (rewrite bool_decide_false; [|intros Hx; by apply (Hseen c)]); [done|].
  rewrite Hb. rewrite (forest_parent _ _ _ _ Hf Hb). destruct (b_parent b) as [p|] eqn:Ep.
  - intros Hr. assert (ascends bs principal c p) as Hup by (by exists b).
    destruct (IH p eq_refl fuel ({[c]} ∪ seen)) as (found & -> & Hfound); [|done|].
    { intros x [->%elem_of_singleton|Hx]%elem_of_union Hpx.
      - apply (rooted_acyclic bs principal c Hroot). eapply tc_rtc_r; [by apply tc_once|done].
      - apply (Hseen x Hx). by eapply rtc_l. }
    exists found. split; [done|]. rewrite Hfound. split; [by apply rtc_l|].
    intros Hcs. inversion Hcs as [|? y ? (b' & Hb' & Hy) Hys]; subst; [done|]. congruence.
  - destruct fuel; intros [= <-]; (exists false; split; [done|]; split; [done|]); intros Hcs;
      (inversion Hcs as [|? y ? (b' & Hb' & Hy) Hys]; subst; [done|]; congruence).
Qed.

(** [_has_ancestor] on a forest: it answers, and rightly. *)
Lemma is_ancestor_spec principal start sought s :
  Forest (st_branches s) -> rooted (st_branches s) principal start ->
  exists found, is_ancestor principal start sought s = (Ok found, s)
    /\ (found = true <-> rtc (ascends (st_branches s) principal) start sought).
Proof.
  intros Hf Hr. unfold is_ancestor. rewrite reading_bind.
  destruct (has_ancestor _ _ _ _ _ _) as [r|] eqn:E.
  - destruct (has_ancestor_spec _ _ _ _ _ _ _ Hf Hr (fun x Hx => match not_elem_of_empty x Hx with end) E)
      as (found & -> & Hfound). by exists found.
  - exfalso. revert E. apply has_ancestor_total; [set_solver|]. unfold ancestor_fuel. lia.
Qed.

(** ** Changes *)
Lemma find_put_ne bs id b principal x : x <> id -> find_branch (<[id := b]> bs) principal x = find_branch bs principal x.
Proof. intros Hx. unfold find_branch. by rewrite lookup_insert_ne. Qed.

Lemma find_put_eq bs id b : find_branch (<[id := b]> bs) (b_principal b) id = Some b.
Proof. apply find_branch_Some. by rewrite lookup_insert_eq. Qed.

(** A way up that avoids [id] stays. *)
Lemma rooted_avoid bs id new principal x :
  rooted bs principal x -> ~ rtc (ascends bs principal) x id -> rooted (<[id := new]> bs) principal x.
Proof.
  induction 1 as [x b Hb _ IH]. intros Hav.
  assert (x <> id) as Hne by (intros ->; by apply Hav).
  apply (rooted_at _ _ x b); [by rewrite find_put_ne|]. intros p Hp. apply IH; [done|].
  intros Hr. apply Hav. eapply rtc_l; [|exact Hr]. by exists b.
Qed.

Lemma rooted_put bs id new principal x :
  rooted bs principal x -> rooted (<[id := new]> bs) (b_principal new) id ->
  (forall b, bs !! id = Some b -> b_principal b = b_principal new) ->
  rooted (<[id := new]> bs) principal x.
Proof.
  intros Hx Hid Hown. induction Hx as [x b Hb _ IH].
  destruct (decide (x = id)) as [->|Hne].
  - apply find_branch_Some in Hb as [Hb <-]. by rewrite (Hown b Hb).
  - apply (rooted_at _ _ x b); [by rewrite find_put_ne|done].
Qed.

(** A branch that is new or stays with its owner, under a parent that does not
    descend from it. *)
Lemma forest_put bs id new :
  Forest bs -> (0 < id < 2 ^ 128)%N ->
  (forall b, bs !! id = Some b -> b_principal b = b_principal new) ->
  (forall p, b_parent new = Some p -> rooted bs (b_principal new) p /\ ~ rtc (ascends bs (b_principal new)) p id) ->
  Forest (<[id := new]> bs).
Proof.
  intros Hf Hid Hown Hpar.
  assert (rooted (<[id := new]> bs) (b_principal new) id) as Hnew.
  { apply (rooted_at _ _ id new); [apply find_put_eq|]. intros p Hp. destruct (Hpar p Hp). by apply rooted_avoid. }
  intros x b [[<- <-]|[Hne Hb]]%lookup_insert_Some; [done|].
  destruct (Hf x b Hb) as [Hx Hr]. split; [done|]. by apply rooted_put.
Qed.

(** A branch that is not there yet is on no way up. *)
Lemma fresh_avoided bs id principal x : rooted bs principal x -> bs !! id = None -> ~ rtc (ascends bs principal) x id.
Proof.
  intros Hx Hid Hr. pose proof (rooted_rtc _ _ _ _ Hx Hr) as Hroot.
  destruct Hroot as [id b [Hb _]%find_branch_Some _]. congruence.
Qed.

Lemma forest_rooted bs principal id : Forest bs -> is_Some (find_branch bs principal id) -> rooted bs principal id.
Proof. intros Hf [b [Hb <-]%find_branch_Some]. by apply (Hf id b). Qed.
End forest.

Section values.
Context `{FloatRead} `{IsoDates}.

(** A branch the store holds. *)
Record BranchOK (v : BranchValue) : Prop := {
  bo_made : make_branch v = Ok v;
  bo_id : (bv_id v < 2 ^ 128)%N;
  bo_parent : forall p, bv_parent v = Some p -> (p < 2 ^ 128)%N;
  bo_revision : bv_revision v <= MAX_REVISION;
  bo_created : read_time (bv_created_at v) = Some (bv_created_at v);
  bo_updated : read_time (bv_updated_at v) = Some (bv_updated_at v)
}.

Lemma make_branch_spec v w :
  make_branch v = Ok w ->
  w = v /\ bv_id v <> 0%N /\ (forall p, bv_parent v = Some p -> p <> 0%N) /\ 1 <= bv_revision v
  /\ datetime_leb (bv_created_at v) (bv_updated_at v) = true.
Proof.
  unfold make_branch, require_uuid, require_revision. rewrite require_all. intros [Hid Hm].
  do 4 apply unit_then in Hm as [_ Hm]. apply unit_then in Hm as [Hp Hm]. apply unit_then in Hm as [_ Hm].
  rewrite !require_all in Hm. destruct Hm as (Ht & Hr & [= <-]). split_and!; [done| | |by apply Z.leb_le|done].
  - by apply N.eqb_neq, negb_true_iff.
  - intros p Hpar ->. by rewrite Hpar in Hp.
Qed.

Lemma branch_ids v : BranchOK v ->
  (0 < bv_id v < 2 ^ 128)%N /\ (forall p, bv_parent v = Some p -> (0 < p < 2 ^ 128)%N) /\ 1 <= bv_revision v <= MAX_REVISION.
Proof.
  intros [Hm Hid Hp Hr _ _]. apply make_branch_spec in Hm as (_ & Hid0 & Hp0 & Hr0 & _).
  split_and!; [by apply N.neq_0_lt_0|done| |done|done]. intros p Hpar. split; [by apply N.neq_0_lt_0, Hp0|by apply Hp].
Qed.

(** ** Rows *)
Lemma parse_parent_json o : (forall p, o = Some p -> (0 < p < 2 ^ 128)%N) -> parse_parent (uuid_json o) = Some o.
Proof.
  destruct o as [u|]; intros Hu; [|done]. specialize (Hu u eq_refl). cbn [uuid_json joption parse_parent jstr].
  rewrite parse_uuid_id by lia. cbn [mbind option_bind]. rewrite bool_decide_true by done.
  by rewrite (proj2 (N.eqb_neq _ _)) by lia.
Qed.

Lemma decode_branch_row principal v : BranchOK v -> decode_branch (bv_id v) (branch_row_of principal v) = Some v.
Proof.
  intros Hv. pose proof (branch_ids v Hv) as (Hid & Hp & Hr). destruct Hv as [Hm _ _ _ Hcr Hup].
  unfold decode_branch. rewrite parse_uuid_id by lia. cbn [mbind option_bind b_parent branch_row_of].
  rewrite (parse_parent_json _ Hp). cbn [mbind option_bind b_created_at b_updated_at b_revision branch_row_of].
  rewrite Hcr, Hup, (revision_ok _ Hr). cbn [mbind option_bind b_slug b_title b_intent b_type b_status b_summary branch_row_of].
  destruct v. cbn in *. rewrite Hm. cbn. by rewrite bool_decide_true.
Qed.

(** What is read from a row is a branch the store could have written. *)
Lemma decode_branch_inv id b v :
  decode_branch id b = Some v ->
  BranchOK v /\ bv_id v = (id mod 2 ^ 128)%N /\ parse_parent (uuid_json (b_parent b)) = Some (bv_parent v)
  /\ bv_slug v = b_slug b /\ bv_status v = b_status b /\ bv_revision v = b_revision b
  /\ read_time (b_created_at b) = Some (bv_created_at v).
Proof.
  unfold decode_branch. rewrite parse_uuid_str. cbn [mbind option_bind].
  intros (parent & Hp & (cr & Hcr & (up & Hup & (version & (-> & Hr)%revision_Some & Hd)%bind_Some)%bind_Some)%bind_Some)%bind_Some.
  apply bind_Some in Hd as (w & Hm%ok_of_Some & Hd). pose proof Hm as (-> & Hid0 & Hp0 & Hr0 & Ht)%make_branch_spec.
  destruct (bool_decide _); [|done]. injection Hd as <-.
  cbn [bv_id bv_parent bv_slug bv_status bv_revision bv_created_at] in *. split_and!; try done.
  split; cbn [bv_id bv_parent bv_slug bv_status bv_revision bv_created_at bv_updated_at]; try done; [by apply N.mod_lt| |lia|..].
  - intros p ->. destruct (b_parent b) as [u|]; cbn [uuid_json joption parse_parent jstr] in Hp; [|done].
    rewrite parse_uuid_str in Hp. cbn [mbind option_bind] in Hp. case_match; [|done]. injection Hp as <-. by apply N.mod_lt.
  - by eapply read_time_again.
  - by eapply read_time_again.
Qed.

(** ** Results *)
Lemma text_json_sorted o : sort_keys (text_json o) = text_json o.
Proof. by destruct o. Qed.
Lemma uuid_json_sorted o : sort_keys (uuid_json o) = uuid_json o.
Proof. by destruct o. Qed.
Lemma text_json_readable o : readable (text_json o) = true.
Proof. by destruct o. Qed.
Lemma uuid_json_readable o : readable (uuid_json o) = true.
Proof. by destruct o. Qed.
Lemma as_text_json o : as_text (text_json o) = Some o.
Proof. by destruct o. Qed.
Lemma read_status_text s : read_status (status_text s) = Some s.
Proof. by destruct s. Qed.

Lemma revision_readable v : 1 <= v <= MAX_REVISION -> readable (jint v) = true.
Proof. intros Hv. cbn. unfold SIGNED_64_MIN, SIGNED_64_MAX. unfold MAX_REVISION in Hv. bools. lia. Qed.

Lemma branch_result_sorted v :
  sort_keys (JObj [(lit "kind", jstr (lit "branch")); (lit "branch", branch_json v)])
  = JObj [ (lit "branch",
            JObj [ (lit "branch_revision", jint (bv_revision v)); (lit "branch_type", text_json (bv_type v));
                   (lit "created_at", jstr (encode_time (bv_created_at v))); (lit "id", jstr (uuid_str (bv_id v)));
                   (lit "intent", jstr (bv_intent v)); (lit "parent_branch_id", uuid_json (bv_parent v));
                   (lit "retrieval_summary", text_json (bv_summary v)); (lit "slug", jstr (bv_slug v));
                   (lit "status", jstr (status_text (bv_status v))); (lit "title", jstr (bv_title v));
                   (lit "updated_at", jstr (encode_time (bv_updated_at v))) ]);
           (lit "kind", jstr (lit "branch")) ].
Proof.
  transitivity (JObj [ (lit "branch",
            JObj [ (lit "branch_revision", jint (bv_revision v)); (lit "branch_type", sort_keys (text_json (bv_type v)));
                   (lit "created_at", jstr (encode_time (bv_created_at v))); (lit "id", jstr (uuid_str (bv_id v)));
                   (lit "intent", jstr (bv_intent v)); (lit "parent_branch_id", sort_keys (uuid_json (bv_parent v)));
                   (lit "retrieval_summary", sort_keys (text_json (bv_summary v))); (lit "slug", jstr (bv_slug v));
                   (lit "status", jstr (status_text (bv_status v))); (lit "title", jstr (bv_title v));
                   (lit "updated_at", jstr (encode_time (bv_updated_at v))) ]);
           (lit "kind", jstr (lit "branch")) ]); [reflexivity|].
  by rewrite !text_json_sorted, uuid_json_sorted.
Qed.

Lemma branch_result_readable v :
  1 <= bv_revision v <= MAX_REVISION ->
  readable (JObj [(lit "kind", jstr (lit "branch")); (lit "branch", branch_json v)]) = true.
Proof.
  intros Hv. unfold branch_json.
  pose proof (revision_readable _ Hv) as Hi. pose proof (text_json_readable (bv_type v)) as Ht.
  pose proof (text_json_readable (bv_summary v)) as Hs. pose proof (uuid_json_readable (bv_parent v)) as Hp.
  set (a := jint (bv_revision v)) in *. set (b := text_json (bv_type v)) in *. set (c := text_json (bv_summary v)) in *.
  set (d := uuid_json (bv_parent v)) in *. clearbody a b c d.
  cbn [readable forallb snd jstr]. by rewrite Hi, Ht, Hs, Hp.
Qed.

Lemma decode_branch_encoded v : BranchOK v -> decode_branch_result (encode_branch_result v) = Some v.
Proof.
  intros Hv. pose proof (branch_ids v Hv) as (Hid & Hp & Hr). destruct Hv as [Hm _ _ _ Hcr Hup].
  unfold decode_branch_result.
  rewrite (decode_canonical _ (branch_result_readable v Hr) : decode_canonical_json (encode_branch_result v) = _).
  rewrite branch_result_sorted. cbn [mbind option_bind].
  match goal with |- context [exact_keys ?k (JObj ?es)] =>
    change (exact_keys k (JObj es)) with (Some es); set (outer := es) end. cbn [mbind option_bind].
  change (get_str outer (lit "kind")) with (Some (lit "branch")). cbn [mbind option_bind].
  rewrite bool_decide_true by done. cbn [negb].
  match eval cbv [outer] in outer with [(_, ?x); _] => change (dict_get outer (lit "branch")) with (Some x) end.
  cbn [mbind option_bind].
  match goal with |- context [exact_keys ?k (JObj ?es)] =>
    change (exact_keys k (JObj es)) with (Some es); set (inner := es) end. cbn [mbind option_bind].
  change (get_uuid inner (lit "id")) with (parse_uuid (uuid_str (bv_id v))). rewrite parse_uuid_id by lia.
  change (get_str inner (lit "slug")) with (Some (bv_slug v)).
  change (get_str inner (lit "title")) with (Some (bv_title v)).
  change (get_str inner (lit "intent")) with (Some (bv_intent v)).
  change (get_text inner (lit "branch_type")) with (as_text (text_json (bv_type v))).
  change (dict_get inner (lit "parent_branch_id")) with (Some (uuid_json (bv_parent v))).
  change (get_str inner (lit "status")) with (Some (status_text (bv_status v))).
  change (get_text inner (lit "retrieval_summary")) with (as_text (text_json (bv_summary v))).
  change (get_str inner (lit "created_at")) with (Some (encode_time (bv_created_at v))).
  change (get_str inner (lit "updated_at")) with (Some (encode_time (bv_updated_at v))).
  change (get_int inner (lit "branch_revision")) with (Some (bv_revision v)). clearbody inner outer.
  cbn [mbind option_bind]. rewrite !as_text_json. cbn [mbind option_bind].
  rewrite (parse_parent_json _ Hp), read_status_text, (revision_ok _ Hr). cbn [mbind option_bind].
  rewrite (Hcr : decode_time _ = _), (Hup : decode_time _ = _). cbn [mbind option_bind].
  destruct v. cbn in Hm |- *. rewrite Hm. cbn [ok_of mbind option_bind]. by rewrite bool_decide_true.
Qed.

(** ** Assignments *)
Definition AssignedOK (r : AssignedRecordRef) : Prop :=
  make_assigned r = Ok r /\ (ar_id r < 2 ^ 128)%N /\ ar_version r <= MAX_REVISION.

Lemma make_assigned_spec r w :
  make_assigned r = Ok w <-> w = r /\ identifier (ar_entity r) = true /\ ar_id r <> 0%N /\ 1 <= ar_version r.
Proof.
  unfold make_assigned, require_entity, require_uuid, require_revision.
  rewrite !require_all, negb_true_iff, N.eqb_neq, Z.leb_le. naive_solver.
Qed.

Lemma assigned_ids r : AssignedOK r -> 1 <= ar_version r <= MAX_REVISION.
Proof. intros (Hm & _ & Hr). apply make_assigned_spec in Hm. lia. Qed.

Lemma assigned_json_sorted r : sort_keys (assigned_json r) = assigned_json r.
Proof. reflexivity. Qed.

Lemma assignment_result_sorted refs :
  sort_keys (JObj [(lit "kind", jstr (lit "branch_assignment")); (lit "records", JArr (map assigned_json refs))])
  = JObj [(lit "kind", jstr (lit "branch_assignment")); (lit "records", JArr (map assigned_json refs))].
Proof.
  transitivity (JObj [(lit "kind", jstr (lit "branch_assignment"));
                      (lit "records", JArr (map sort_keys (map assigned_json refs)))]); [reflexivity|].
  by rewrite map_map.
Qed.

Lemma assignment_result_readable refs :
  Forall AssignedOK refs ->
  readable (JObj [(lit "kind", jstr (lit "branch_assignment")); (lit "records", JArr (map assigned_json refs))]) = true.
Proof.
  intros Hr. cbn [readable forallb snd jstr andb]. rewrite andb_true_r.
  apply forallb_forall. intros j (r & <- & Hin)%in_map_iff. rewrite Forall_forall in Hr.
  apply list_elem_of_In, Hr, assigned_ids, revision_readable in Hin.
  unfold assigned_json. set (z := jint (ar_version r)) in *. clearbody z. cbn [readable forallb snd jstr]. by rewrite Hin.
Qed.

Lemma decode_assigned_json r : AssignedOK r -> decode_assigned (assigned_json r) = Some r.
Proof.
  intros Hr. pose proof (assigned_ids r Hr) as Hv. destruct Hr as (Hm & Hid & _). unfold decode_assigned, assigned_json.
  match goal with |- context [exact_keys ?k (JObj ?es)] =>
    change (exact_keys k (JObj es)) with (Some es); set (inner := es) end. cbn [mbind option_bind].
  change (get_str inner (lit "entity_name")) with (Some (ar_entity r)).
  change (get_uuid inner (lit "id")) with (parse_uuid (uuid_str (ar_id r))). rewrite parse_uuid_id by lia.
  change (get_int inner (lit "record_version")) with (Some (ar_version r)). cbn [mbind option_bind].
  rewrite (revision_ok _ Hv). cbn [mbind option_bind]. destruct r. cbn in *. by rewrite Hm.
Qed.

Lemma decode_assignment_encoded o :
  Forall AssignedOK (ba_records o) -> make_assignment_outcome o = Ok o ->
  decode_assignment_result (encode_assignment_result o) = Some (ba_records o).
Proof.
  intros Hr Hm. unfold decode_assignment_result.
  rewrite (decode_canonical _ (assignment_result_readable _ Hr) : decode_canonical_json (encode_assignment_result o) = _).
  rewrite assignment_result_sorted. cbn [mbind option_bind].
  match goal with |- context [exact_keys ?k (JObj ?es)] =>
    change (exact_keys k (JObj es)) with (Some es); set (outer := es) end. cbn [mbind option_bind].
  change (get_str outer (lit "kind")) with (Some (lit "branch_assignment")). cbn [mbind option_bind].
  rewrite bool_decide_true by done. cbn [negb].
  change (dict_get outer (lit "records")) with (Some (JArr (map assigned_json (ba_records o)))). cbn [mbind option_bind].
  assert (mapM decode_assigned (map assigned_json (ba_records o)) = Some (ba_records o)) as ->.
  { clear Hm outer. induction Hr as [|r l Hr _ IH]; [done|]. change (map assigned_json (r :: l)) with (assigned_json r :: map assigned_json l).
    cbn [mapM]. rewrite (decode_assigned_json _ Hr). cbn [mbind option_bind]. by rewrite IH. }
  cbn [mbind option_bind]. unfold make_assignment_outcome in *. apply require_all in Hm as [Hm _]. cbn [ba_records].
  rewrite contract_run by exact Hm. cbn [ok_of mbind option_bind].
  by rewrite bool_decide_true.
Qed.
End values.
