(* ===== verification/Membership.v ===== *)
(** * Membership: what an assignment does to the branches of a record

    [_apply_mapping] on a store where a record has at most one primary branch:
    it never meets a constraint, changes exactly the memberships of the record
    it names, and leaves at most one primary branch. *)
From S2P Require Export TopologyValues.
From S2P Require Import Prelude Values Json JsonText Sha256 Manifest.

Section membership.
Context `{FloatRead} `{IsoDates}.

(** A stored time of this clock passes the CHECK of its column. *)
Lemma sane_stored a t : Sane a -> at_now a = Ok t -> stored_time t = true.
Proof.
  intros Ha Ht. destruct (sane_now _ Ha t Ht) as [Hv Hy].
  assert (1000 <= dt_year t <= 9999) as Hyear by (unfold valid_datetime in Hv; bools; lia).
  unfold stored_time. rewrite length_encode_time by done. cbn [Nat.eqb andb].
  assert (exists a b, length a = 10%nat /\ length b = 8%nat /\ exists c, length c = 6%nat
            /\ encode_time t = a ++ [84%N] ++ b ++ [46%N] ++ c ++ [90%N]) as (x & y & Hx & Hy' & z & Hz & ->).
  { rewrite encode_time_form by done.
    exists (padded_dec 4 (dt_year t) ++ [45%N] ++ padded_dec 2 (dt_month t) ++ [45%N] ++ padded_dec 2 (dt_day t)).
    exists (padded_dec 2 (dt_hour t) ++ [58%N] ++ padded_dec 2 (dt_minute t) ++ [58%N] ++ padded_dec 2 (dt_second t)).
    rewrite !length_app, !length_padded_dec. split_and!; [done..|].
    exists (padded_dec 6 (dt_microsecond t)). rewrite length_padded_dec. split; [done|]. by rewrite <- !app_assoc. }
  do 10 (destruct x as [|? x]; [done|]). destruct x; [|done].
  do 8 (destruct y as [|? y]; [done|]). destruct y; [|done].
  do 6 (destruct z as [|? z]; [done|]). by destruct z.
Qed.

(** ** The memberships of a record *)
Lemma memberships_in s principal entity record b m :
  (b, m) ∈ memberships s principal entity record <-> st_members s !! (principal, entity, record, b) = Some m.
Proof.
  unfold memberships. rewrite list_elem_of_omap. split.
  - intros ([[[[p n] r] b'] m'] & Hin%elem_of_map_to_list & Hf). cbn [fst snd] in *.
    destruct (_ && _) eqn:E; [|done]. injection Hf as -> ->.
    apply andb_true_iff in E as [[->%bool_decide_eq_true ->%bool_decide_eq_true]%andb_true_iff ->%N.eqb_eq]. done.
  - intros Hm. exists ((principal, entity, record, b), m). rewrite elem_of_map_to_list. split; [done|].
    cbn [fst snd]. by rewrite !bool_decide_true, N.eqb_refl by done.
Qed.

Definition primary_member (s : store) (principal entity : pystr) (record branch : UUID) : Prop :=
  exists m, st_members s !! (principal, entity, record, branch) = Some m /\ m_role m = Primary.

Lemma primary_of_None s principal entity record :
  primary_of s principal entity record = None <-> forall b, ~ primary_member s principal entity record b.
Proof.
  unfold primary_of. rewrite head_None. split.
  - intros Hn b (m & Hm & Hr). apply memberships_in in Hm.
    assert (b ∈ omap (fun e : UUID * membership => if bool_decide (m_role e.2 = Primary) then Some e.1 else None)
                  (memberships s principal entity record)) as Hin.
    { apply list_elem_of_omap. exists (b, m). split; [done|]. cbn. by rewrite bool_decide_true. }
    rewrite Hn in Hin. by apply elem_of_nil in Hin.
  - intros Hn. destruct (omap _ _) as [|b l] eqn:E; [done|]. exfalso.
    assert (b ∈ b :: l) as Hin by (by left). rewrite <- E in Hin.
    apply list_elem_of_omap in Hin as ([b' m] & Hin%memberships_in & Hb). cbn in Hb.
    case_bool_decide as Hr; [|done]. injection Hb as <-. apply (Hn b'). by exists m.
Qed.

(** ** The effect of an assignment *)
Definition same_record (k k' : member_key) : Prop := k.1 = k'.1.
#[local] Instance same_record_dec k k' : Decision (same_record k k').
Proof. unfold same_record. apply _. Defined.

Definition mapped (role : BranchRole) (operation : AssignmentOperation) (k : member_key) (now : datetime)
    (ms : gmap member_key membership) : gmap member_key membership :=
  match operation, role with
  | Unassign, _ => delete k ms
  | Assign, Related => <[k := {| m_role := Related; m_assigned_at := now |}]> ms
  | Assign, Primary =>
      <[k := {| m_role := Primary; m_assigned_at := now |}]>
        (filter (fun e : member_key * membership => ~ (same_record e.1 k /\ m_role e.2 = Primary)) ms)
  end.

(** Whether it changes anything, and the event it leaves. *)
Definition mapping_event (role : BranchRole) (operation : AssignmentOperation) (current : option BranchRole) (moves : bool)
  : option EventKind :=
  match operation, role with
  | Unassign, Primary => if bool_decide (current = Some Primary) then Some primary_unassign else None
  | Unassign, Related => if bool_decide (current = Some Related) then Some related_unassign else None
  | Assign, Related => if bool_decide (current = None) then Some related_assign else None
  | Assign, Primary =>
      if bool_decide (current = Some Primary) then None else Some (if moves then primary_move else primary_assign)
  end.

Lemma with_members_eq f g s : f (st_members s) = g (st_members s) -> with_members f s = with_members g s.
Proof. unfold with_members. by intros ->. Qed.

Lemma with_members_with f g s : with_members f (with_members g s) = with_members (fun ms => f (g ms)) s.
Proof. done. Qed.

Lemma insert_member_runs principal entity record branch m s :
  st_members s !! (principal, entity, record, branch) = None -> is_Some (st_branches s !! branch) ->
  (m_role m = Primary -> primary_of s principal entity record = None) -> stored_time (m_assigned_at m) = true ->
  insert_member (principal, entity, record, branch) m s
  = (Ok tt, with_members <[(principal, entity, record, branch) := m]> s).
Proof.
  intros Hk Hb Hp Ht. unfold insert_member. rewrite reading_bind, raise_when_bind, Ht.
  rewrite (bool_decide_true (st_members s !! _ = None)) by done. rewrite (bool_decide_true (is_Some _)) by done.
  destruct (m_role m); cbn [andb negb]; [rewrite Hp by done|]; done.
Qed.

(** The memberships of a record without its primary one. *)
Definition without_primary (k : member_key) (ms : gmap member_key membership) : gmap member_key membership :=
  filter (fun e : member_key * membership => ~ (same_record e.1 k /\ m_role e.2 = Primary)) ms.

Lemma without_primary_lookup k ms k' m :
  without_primary k ms !! k' = Some m <-> ms !! k' = Some m /\ ~ (same_record k' k /\ m_role m = Primary).
Proof. unfold without_primary. by rewrite map_lookup_filter_Some. Qed.

Lemma without_primary_none k ms k' : ms !! k' = None -> without_primary k ms !! k' = None.
Proof. intros Hk. apply map_lookup_filter_None. by left. Qed.

Lemma no_primaries s principal entity record branch :
  primary_of s principal entity record = None ->
  without_primary (principal, entity, record, branch) (st_members s) = st_members s.
Proof.
  intros Hn. apply map_filter_id. intros [[[p n] r] b] m Hm [Hk Hr]. unfold same_record in Hk. cbn in Hk.
  injection Hk as -> -> ->. apply (proj1 (primary_of_None _ _ _ _) Hn b). by exists m.
Qed.

Lemma primary_removed s principal entity record branch :
  st_members s = without_primary (principal, entity, record, branch) (st_members s) ->
  primary_of s principal entity record = None.
Proof.
  intros Heq. apply primary_of_None. intros b (m & Hm & Hr). rewrite Heq in Hm.
  apply without_primary_lookup in Hm as [_ Hn]. by apply Hn.
Qed.

Lemma without_primary_again k ms : without_primary k (without_primary k ms) = without_primary k ms.
Proof. apply map_filter_id. intros k' m Hm. by apply without_primary_lookup in Hm as [_ ?]. Qed.

Lemma delete_primaries principal entity record branch s :
  delete_members principal entity record (fun m => bool_decide (m_role m = Primary)) s
  = (Ok tt, with_members (without_primary (principal, entity, record, branch)) s).
Proof.
  unfold delete_members, writing. f_equal. apply with_members_eq, map_filter_ext.
  intros [[[p n] r] b] m _. unfold same_record. cbn. rewrite bool_decide_eq_true. naive_solver.
Qed.

(** Without the membership itself and the other primary one, the way is free. *)
Lemma make_room principal entity record branch s :
  let k := (principal, entity, record, branch) in
  let cur := m_role <$> st_members s !! k in
  cur <> Some Primary ->
  exists ms, ((if bool_decide (cur = None) then ret tt else delete_member k) ;;
     (if bool_decide (primary_of s principal entity record = None) then ret tt
      else delete_members principal entity record (fun m => bool_decide (m_role m = Primary)))) s
    = (Ok tt, with_members (fun _ => ms) s)
  /\ ms !! k = None /\ without_primary k ms = ms
  /\ forall m, <[k := m]> ms = <[k := m]> (without_primary k (st_members s)).
Proof.
  cbv zeta. set (k := (principal, entity, record, branch)). intros Hcur.
  set (s1 := if bool_decide ((m_role <$> st_members s !! k) = None) then s else with_members (delete k) s).
  set (ms1 := if bool_decide ((m_role <$> st_members s !! k) = None) then st_members s else delete k (st_members s)).
  assert (s1 = with_members (fun _ => ms1) s) as Hs1.
  { unfold s1, ms1. case_bool_decide; [by destruct s|done]. }
  assert (ms1 !! k = None) as Hk1.
  { unfold ms1. case_bool_decide as Hn; [by apply fmap_None in Hn|by rewrite lookup_delete_eq]. }
  exists (without_primary k ms1). split_and!.
  - change (without_primary k ms1) with (without_primary k (id ms1)).
    transitivity ((if bool_decide (primary_of s principal entity record = None) then ret tt
      else delete_members principal entity record (fun m => bool_decide (m_role m = Primary))) s1).
    { unfold s1, delete_member, k. by destruct (bool_decide (m_role <$> _ = None)). }
    rewrite Hs1. case_bool_decide as Hp.
    + unfold ret. f_equal. apply with_members_eq. unfold ms1, id.
      assert (without_primary k (st_members s) = st_members s) as Hw by (by apply no_primaries).
      case_bool_decide; [done|]. unfold without_primary in *. by rewrite map_filter_delete, Hw.
    + by rewrite (delete_primaries _ _ _ branch).
  - by apply without_primary_none.
  - apply without_primary_again.
  - intros m. unfold ms1. case_bool_decide; [done|]. unfold without_primary. by rewrite map_filter_delete, insert_delete_eq.
Qed.

Lemma apply_mapping_spec principal branch role operation entity record now s :
  is_Some (st_branches s !! branch) -> stored_time now = true ->
  let k := (principal, entity, record, branch) in
  let event := mapping_event role operation (m_role <$> st_members s !! k)
                 (bool_decide (primary_of s principal entity record <> None)) in
  apply_mapping principal branch role operation entity record now s
  = (Ok event, if bool_decide (event = None) then s else with_members (mapped role operation k now) s).
Proof.
  intros Hb Ht. cbv zeta. set (k := (principal, entity, record, branch)).
  unfold apply_mapping. rewrite reading_bind. fold k. destruct operation, role; cbn [mapping_event].
  - case_bool_decide as Hc; [done|]. rewrite reading_bind.
    destruct (make_room principal entity record branch s Hc) as (ms & Hroom & Hk & Hw & Hins).
    rewrite <- bind_nested, (bind_run _ _ _ _ _ Hroom).
    erewrite bind_run; [|apply insert_member_runs; [done|done| |done]].
    + unfold ret. rewrite (bool_decide_false (Some _ = None)) by done. f_equal.
      * case_bool_decide; [by rewrite bool_decide_false by tauto|by rewrite bool_decide_true].
      * rewrite with_members_with. apply with_members_eq, Hins.
    + intros _. by apply (primary_removed _ _ _ _ branch).
  - case_bool_decide as Hc; [|done]. apply fmap_None in Hc. rewrite (bool_decide_false (Some _ = None)) by done.
    by erewrite bind_run by (by apply insert_member_runs).
  - case_bool_decide; [|done]. by rewrite (bool_decide_false (Some _ = None)) by done.
  - case_bool_decide; [|done]. by rewrite (bool_decide_false (Some _ = None)) by done.
Qed.

(** ** Roles after an assignment *)
Lemma mapped_other role operation (k k' : member_key) (now : datetime) ms :
  k'.1 <> k.1 -> mapped role operation k now ms !! k' = ms !! k'.
Proof.
  intros Hk. assert (k' <> k) as Hne by (intros ->; by apply Hk). unfold mapped. destruct operation, role.
  - rewrite lookup_insert_ne by done. destruct (ms !! k') as [m|] eqn:Em.
    + apply (without_primary_lookup k). split; [done|]. by intros [? _].
    + by apply (without_primary_none k).
  - by rewrite lookup_insert_ne.
  - by rewrite lookup_delete_ne.
  - by rewrite lookup_delete_ne.
Qed.

(** The role of a record in a branch. *)
Definition role_in (ms : gmap member_key membership) (p e : pystr) (u b : UUID) : option BranchRole :=
  m_role <$> ms !! (p, e, u, b).

Definition role_after (role : BranchRole) (operation : AssignmentOperation) (ms ms' : gmap member_key membership)
    (p e : pystr) (u branch : UUID) : Prop :=
  match operation, role with
  | Assign, Primary => forall b, role_in ms' p e u b =
      if bool_decide (b = branch) then Some Primary
      else if bool_decide (role_in ms p e u b = Some Primary /\ role_in ms p e u branch <> Some Primary) then None
      else role_in ms p e u b
  | Assign, Related => forall b, role_in ms' p e u b =
      if bool_decide (b = branch) then Some (default Related (role_in ms p e u b)) else role_in ms p e u b
  | Unassign, _ => forall b, role_in ms' p e u b =
      if bool_decide (b = branch /\ role_in ms p e u b = Some role) then None else role_in ms p e u b
  end.

Lemma without_primary_role p e u branch ms b :
  role_in (without_primary (p, e, u, branch) ms) p e u b
  = if bool_decide (role_in ms p e u b = Some Primary) then None else role_in ms p e u b.
Proof.
  unfold role_in. destruct (ms !! (p, e, u, b)) as [m|] eqn:Em; cbn [fmap option_fmap option_map].
  - case_bool_decide as Hm.
    + destruct (without_primary _ ms !! _) as [m'|] eqn:E'; [|done].
      apply without_primary_lookup in E' as [E' Hn]. exfalso. apply Hn. split; [done|congruence].
    + assert (without_primary (p, e, u, branch) ms !! (p, e, u, b) = Some m) as ->; [|done].
      apply without_primary_lookup. split; [done|]. intros [_ Hr]. by rewrite Hr in Hm.
  - by rewrite (without_primary_none _ _ _ Em).
Qed.

Lemma mapped_roles role operation p e u branch now ms moves event :
  mapping_event role operation (role_in ms p e u branch) moves = Some event ->
  role_after role operation ms (mapped role operation (p, e, u, branch) now ms) p e u branch.
Proof.
  unfold role_after, mapping_event. destruct operation, role; intros Hev; case_bool_decide as Hc; try done; intros b;
    (destruct (decide (b = branch)) as [->|Hne]).
  - rewrite bool_decide_true by done. unfold role_in, mapped. by rewrite lookup_insert_eq.
  - rewrite bool_decide_false by done. transitivity (role_in (without_primary (p, e, u, branch) ms) p e u b).
    { unfold role_in, mapped. by rewrite lookup_insert_ne by congruence. }
    rewrite without_primary_role. case_bool_decide as Hr; [by rewrite bool_decide_true|].
    rewrite bool_decide_false; [done|]. by intros [? _].
  - rewrite bool_decide_true by done. rewrite Hc. unfold role_in, mapped. by rewrite lookup_insert_eq.
  - rewrite bool_decide_false by done. unfold role_in, mapped. by rewrite lookup_insert_ne by congruence.
  - rewrite bool_decide_true by done. unfold role_in, mapped. by rewrite lookup_delete_eq.
  - rewrite bool_decide_false by (by intros [? _]). unfold role_in, mapped. by rewrite lookup_delete_ne by congruence.
  - rewrite bool_decide_true by done. unfold role_in, mapped. by rewrite lookup_delete_eq.
  - rewrite bool_decide_false by (by intros [? _]). unfold role_in, mapped. by rewrite lookup_delete_ne by congruence.
Qed.

Lemma unmapped_roles role operation p e u branch ms moves :
  mapping_event role operation (role_in ms p e u branch) moves = None -> role_after role operation ms ms p e u branch.
Proof.
  unfold role_after, mapping_event. destruct operation, role; intros Hev; case_bool_decide as Hc; try done; intros b.
  - case_bool_decide; [by subst|]. rewrite bool_decide_false; [done|]. by intros [_ ?].
  - case_bool_decide; [subst|done]. by destruct (role_in ms p e u branch).
  - rewrite bool_decide_false; [done|]. by intros [-> ?].
  - rewrite bool_decide_false; [done|]. by intros [-> ?].
Qed.
End membership.
