(* ===== verification/TopologySteps.v ===== *)
(** * TopologySteps: what a branch operation that returned has written

    Inversion of the operations of [Topology]: after a success the store is the
    store before, or the store before with the branch, or with the records and
    memberships of the targets, changed, and the ledger entry of the command. *)
From S2P Require Export TopologyValues Membership.
From S2P Require Import Prelude Values Json JsonText Sha256 Manifest.

Section steps.
Context `{FloatRead} `{IsoDates}.

Lemma valued_Ok {A} (o : option A) a : valued o = Ok a <-> o = Some a.
Proof. destruct o; cbn; naive_solver. Qed.

Lemma answered_returns {A} code (m : stx (answer A)) s r s' :
  answered code m s = (Ok (Success r), s') <-> m s = (Ok (Success r), s').
Proof. unfold answered. destruct (m s) as [[x|e] s1]; [done|]. destruct e; naive_solver. Qed.

Lemma topology_replay_returns {A} principal key kind fp (decode : pystr -> option A) s x s' :
  topology_replay principal key kind fp decode s = (Ok x, s') ->
  s' = s /\ (unicode principal = true /\ unicode key = true) /\
  match x with
  | None => st_mutations s !! (principal, key) = None
  | Some (Success v) => exists m, st_mutations s !! (principal, key) = Some m
                          /\ same_command m kind fp = true /\ decode (mu_result m) = Some v
  | Some (Failure _) => True
  end.
Proof.
  unfold topology_replay. rewrite mutation_row_bind.
  destruct (unicode principal), (unicode key); try done. cbn [andb].
  destruct (st_mutations s !! _) as [m|] eqn:Em; [|by intros [-> ->]%ret_returns].
  destruct (same_command m kind fp) eqn:Ec; intros [-> ->]%ret_returns; [|done].
  split_and!; [done..|]. destruct (decode (mu_result m)) eqn:Ed; eauto.
Qed.

Lemma select_branch_returns principal id s x s' :
  select_branch principal id s = (Ok x, s') <->
  unicode principal = true /\ x = find_branch (st_branches s) principal id /\ s' = s.
Proof.
  unfold select_branch, bind_texts. rewrite raise_when_bind. cbn [forallb]. rewrite andb_true_r.
  destruct (unicode principal); cbn [negb]; unfold reading; naive_solver.
Qed.

Lemma parent_missing_returns principal parent s x s' :
  parent_missing principal parent s = (Ok x, s') ->
  s' = s /\ (x = false -> forall p, parent = Some p -> is_Some (find_branch (st_branches s) principal p)).
Proof.
  unfold parent_missing. destruct parent as [p|].
  - intros (f & s1 & (_ & -> & ->)%select_branch_returns & [-> ->]%ret_returns)%bind_returns. split; [done|].
    intros Hf%bool_decide_eq_false p' [= <-]. by destruct (find_branch _ _ _).
  - intros [-> ->]%ret_returns. split; [done|]. by intros _ p.
Qed.

(** ** Statements on branches *)
Lemma insert_branch_returns id b s u s' :
  insert_branch id b s = (Ok u, s') ->
  st_branches s !! id = None /\ slug_taken s (b_principal b) (b_slug b) = false
  /\ s' = with_branches <[id := b]> s.
Proof.
  unfold insert_branch. rewrite reading_bind, raise_when_bind. destruct (negb _) eqn:E; [done|].
  intros ->%writing_returns. rewrite negb_false_iff in E.
  apply andb_true_iff in E as [[[[[Hid%bool_decide_eq_true Hs%negb_true_iff]%andb_true_iff _]%andb_true_iff _]%andb_true_iff
    _]%andb_true_iff _]. done.
Qed.

Lemma update_branch_row_returns id principal version f s s' :
  update_branch_row id principal version f s = (Ok true, s') ->
  exists b, find_branch (st_branches s) principal id = Some b /\ b_revision b = version
    /\ s' = with_branches <[id := f b]> s.
Proof.
  unfold update_branch_row. rewrite reading_bind. unfold find_branch.
  destruct (st_branches s !! id) as [b|]; [|by intros [? _]%ret_returns].
  case_bool_decide as Hp; cbn [andb]; [|by intros [? _]%ret_returns].
  destruct (Z.eqb_spec (b_revision b) version) as [<-|]; [|by intros [? _]%ret_returns]. cbv zeta.
  rewrite reading_bind, raise_when_bind. destruct (negb _); [done|].
  intros (? & ? & ->%writing_returns & [_ ->]%ret_returns)%bind_returns. by exists b.
Qed.

(** ** Branches *)
Definition logged (principal key kind fp result : pystr) (now : datetime) (s : store) : store :=
  with_mutations <[(principal, key) := entry_of kind fp result now]> s.

Definition branch_created (a : attempt) (principal : pystr) (c : CreateBranchCommand) (fp : pystr)
    (s : store) (r : BranchMutationOutcome) (s' : store) : Prop :=
  exists now id, let v := new_branch c id now in
    at_now a = Ok now /\ at_branch_id a = Ok id /\ make_branch v = Ok v
    /\ (forall p, cb_parent c = Some p -> is_Some (find_branch (st_branches s) principal p))
    /\ st_branches s !! id = None /\ slug_taken s principal (cb_slug c) = false
    /\ s' = logged principal (cb_key c) (lit "create_branch") fp (encode_branch_result v) now
              (with_branches <[id := branch_row_of principal v]> s)
    /\ r = {| bm_branch := v; bm_replayed := false |}.

(** What a branch operation read from the ledger. *)
Definition topology_replayed {A} (s : store) (key : pystr * pystr) (kind fp : pystr) (decode : pystr -> option A)
    (r : A) : Prop :=
  exists m, st_mutations s !! key = Some m /\ same_command m kind fp = true /\ decode (mu_result m) = Some r.

Lemma create_branch_returns a principal via c s r s' :
  create_branch_op a principal via c s = (Ok (Success r), s') ->
  (unicode principal = true /\ unicode (cb_key c) = true) /\
  exists fp, fingerprint_of (create_branch_payload via c) = Some fp /\
  ((s' = s /\ topology_replayed s (principal, cb_key c) (lit "create_branch") fp replayed_branch r)
   \/ (st_mutations s !! (principal, cb_key c) = None /\ branch_created a principal c fp s r s')).
Proof.
  unfold create_branch_op. destruct (negb _); [by intros [[=] _]%ret_returns|].
  intros (fp & s1 & [Hfp%valued_Ok ->]%run_result_returns & Hr%answered_returns)%bind_returns.
  apply bind_returns in Hr as (seen & s1 & (-> & Hu & Hseen)%topology_replay_returns & Hr).
  split; [done|]. exists fp. split; [done|]. destruct seen as [[v|code]|].
  { apply ret_returns in Hr as [[= <-] ->]. by left. }
  { by apply ret_returns in Hr as [[=] _]. }
  right. split; [done|]. apply bind_returns in Hr as (missing & s1 & [-> Hpar]%parent_missing_returns & Hr).
  destruct missing; [by apply ret_returns in Hr as [[=] _]|].
  apply bind_returns in Hr as (now & s1 & [Hnow ->]%run_result_returns & Hr).
  apply bind_returns in Hr as (id & s1 & (Hid & _ & ->)%new_id_returns & Hr).
  apply bind_returns in Hr as (v & s1 & [Hv ->]%run_recorded_returns & Hr).
  pose proof Hv as (-> & _)%make_branch_spec.
  apply bind_returns in Hr as (u & s1 & (Hf & Hs & ->)%insert_branch_returns & Hr).
  apply bind_returns in Hr as (u2 & s2 & [_ ->]%insert_mutation_returns & [[= ->] ->]%ret_returns).
  specialize (Hpar eq_refl). exists now, id. cbv zeta. by split_and!.
Qed.

(** The branch an update leaves: the one it found, or a revision of it. *)
Definition branch_updated (a : attempt) (principal : pystr) (c : UpdateBranchCommand) (fp : pystr)
    (s : store) (r : BranchMutationOutcome) (s' : store) : Prop :=
  exists now b current parent candidate,
    at_now a = Ok now /\ find_branch (st_branches s) principal (ub_branch c) = Some b
    /\ decode_branch (ub_branch c) b = Some current /\ bv_revision current = ub_revision c
    /\ parse_parent (default (uuid_json (bv_parent current)) (dict_get (ub_updates c) (lit "parent_branch_id")))
       = Some parent
    /\ refused_parent principal (bv_id current) parent s = (Ok None, s)
    /\ updated_branch current (ub_updates c) parent = Some candidate
    /\ let v := if bool_decide (candidate = current) then current else touched candidate now in
       let log := logged principal (ub_key c) (lit "update_branch") fp (encode_branch_result v) now in
       make_branch v = Ok v /\ r = {| bm_branch := v; bm_replayed := false |}
       /\ if bool_decide (candidate = current) then s' = log s
          else exists old, find_branch (st_branches s) principal (bv_id v) = Some old
                 /\ b_revision old = bv_revision current
                 /\ s' = log (with_branches <[bv_id v := set_branch v old]> s).

Lemma refused_parent_returns principal id parent s x s' :
  refused_parent principal id parent s = (Ok x, s') -> s' = s.
Proof.
  unfold refused_parent. case_bool_decide; [by intros [_ ->]%ret_returns|].
  destruct parent as [p|]; [|by intros [_ ->]%ret_returns].
  intros (missing & s1 & [-> _]%parent_missing_returns & Hr)%bind_returns.
  destruct missing; [by apply ret_returns in Hr as [_ ->]|].
  apply bind_returns in Hr as (cycle & s1 & Hc & [_ ->]%ret_returns). unfold is_ancestor in Hc.
  rewrite reading_bind in Hc. by apply run_result_returns in Hc as [_ ->].
Qed.

Lemma update_branch_returns a principal via c s r s' :
  update_branch_op a principal via c s = (Ok (Success r), s') ->
  (unicode principal = true /\ unicode (ub_key c) = true) /\ ub_revision c < MAX_REVISION /\
  exists fp, fingerprint_of (update_branch_payload via c) = Some fp /\
  ((s' = s /\ topology_replayed s (principal, ub_key c) (lit "update_branch") fp replayed_branch r)
   \/ (st_mutations s !! (principal, ub_key c) = None /\ branch_updated a principal c fp s r s')).
Proof.
  unfold update_branch_op. destruct (negb _); [by intros [[=] _]%ret_returns|].
  destruct (Z.leb_spec MAX_REVISION (ub_revision c)) as [|Hmax]; [by intros [[=] _]%ret_returns|].
  intros (fp & s1 & [Hfp%valued_Ok ->]%run_result_returns & Hr%answered_returns)%bind_returns.
  apply bind_returns in Hr as (seen & s1 & (-> & Hu & Hseen)%topology_replay_returns & Hr).
  split; [done|]. split; [done|]. exists fp. split; [done|]. destruct seen as [[v|code]|].
  { apply ret_returns in Hr as [[= <-] ->]. by left. }
  { by apply ret_returns in Hr as [[=] _]. }
  right. split; [done|]. apply bind_returns in Hr as (found & s1 & (_ & Hb & ->)%select_branch_returns & Hr).
  destruct found as [b|]; [|by apply ret_returns in Hr as [[=] _]].
  apply bind_returns in Hr as (current & s1 & [Hcur%valued_Ok ->]%run_result_returns & Hr).
  destruct (Z.eqb_spec (bv_revision current) (ub_revision c)) as [Hrev|]; cbn [negb] in Hr;
    [|by apply ret_returns in Hr as [[=] _]].
  apply bind_returns in Hr as (parent & s1 & [Hpar%valued_Ok ->]%run_result_returns & Hr).
  apply bind_returns in Hr as (refused & s1 & Href & Hr). pose proof Href as ->%refused_parent_returns.
  destruct refused; [by apply ret_returns in Hr as [[=] _]|].
  apply bind_returns in Hr as (candidate & s1 & [Hcand%valued_Ok ->]%run_result_returns & Hr).
  apply bind_returns in Hr as (now & s1 & [Hnow ->]%run_result_returns & Hr).
  exists now, b, current, parent, candidate. do 7 (split; [done|]). cbv zeta. case_bool_decide.
  - apply bind_returns in Hr as (u & s1 & [_ ->]%insert_mutation_returns & [[= ->] ->]%ret_returns).
    split; [|done]. apply decode_branch_inv in Hcur as [[Hm _ _ _ _ _] _]. exact Hm.
  - apply bind_returns in Hr as (next & s1 & [Hn ->]%run_recorded_returns & Hr).
    pose proof Hn as (-> & _)%make_branch_spec.
    apply bind_returns in Hr as (changed & s1 & Hch & Hr).
    destruct changed; cbn [negb] in Hr; [|by apply ret_returns in Hr as [[=] _]].
    apply update_branch_row_returns in Hch as (old & Hold & Hrev' & ->).
    apply bind_returns in Hr as (u & s1 & [_ ->]%insert_mutation_returns & [[= ->] ->]%ret_returns).
    split; [done|]. split; [done|]. by exists old.
Qed.

(** ** Assignments *)
Definition selected (principal : pystr) (sp : RecordSpecification) (s : store) (t : BranchAssignmentTarget)
    (fields : list (pystr * json)) : Prop :=
  exists r, find_row s principal (bt_entity t) (bt_record t) = Some r /\ r_record_version r = bt_version t
    /\ record_fields sp (bt_entity t) r = Ok fields.

Lemma select_targets_returns principal sp ts s l s' :
  select_targets principal sp ts s = (Ok (Success l), s') -> s' = s /\ Forall2 (selected principal sp s) ts l.
Proof.
  revert l. induction ts as [|t ts IH]; intros l; cbn [select_targets].
  { intros [[= ->] ->]%ret_returns. by split. }
  intros (found & s1 & Hf & Hr)%bind_returns. unfold select_row in Hf.
  apply bind_returns in Hf as (u & s2 & [_ ->]%bind_texts_returns & Hf).
  apply bind_returns in Hf as (tb & s2 & [_ ->]%the_table_returns & [-> ->]%reading_returns).
  destruct (find_row s principal (bt_entity t) (bt_record t)) as [r|] eqn:Er; [|by apply ret_returns in Hr as [[=] _]].
  destruct (Z.eqb_spec (r_record_version r) (bt_version t)) as [Hv|]; cbn [negb] in Hr;
    [|by apply ret_returns in Hr as [[=] _]].
  apply bind_returns in Hr as (fields & s1 & [Hfl ->]%run_result_returns & Hr).
  apply bind_returns in Hr as (rest & s1 & Hrest & [Hx ->]%ret_returns).
  destruct rest as [l'|]; [|done]. injection Hx as ->. destruct (IH l' Hrest) as [-> Hall].
  split; [done|]. constructor; [|done]. by exists r.
Qed.

Definition ref_of (t : BranchAssignmentTarget) (version : Z) : AssignedRecordRef :=
  {| ar_entity := bt_entity t; ar_id := bt_record t; ar_version := version |}.

Definition topology_event (principal : pystr) (t : BranchAssignmentTarget) (kind : EventKind)
    (fields : list (pystr * json)) (now : datetime) (seq : Z) : history_row :=
  {| h_sequence := seq; h_principal := principal; h_entity := bt_entity t; h_record := bt_record t;
     h_version := bt_version t + 1; h_kind := kind; h_before := Some (snapshot fields);
     h_after := Some (snapshot fields); h_occurred_at := now |}.

(** One target: its membership as asked, and when that changes anything its row
    one version on, with an event. *)
Definition assigned_one (principal : pystr) (c : AssignBranchRecordsCommand) (now : datetime)
    (t : BranchAssignmentTarget) (fields : list (pystr * json)) (s : store) (ref : AssignedRecordRef) (s' : store) : Prop :=
  make_assigned ref = Ok ref /\
  let k := (principal, bt_entity t, bt_record t, ab_branch c) in
  match mapping_event (ab_role c) (ab_operation c) (m_role <$> st_members s !! k)
          (bool_decide (primary_of s principal (bt_entity t) (bt_record t) <> None)) with
  | None => ref = ref_of t (bt_version t) /\ s' = s
  | Some kind =>
      ref = ref_of t (bt_version t + 1) /\
      exists tb old, st_tables s !! bt_entity t = Some tb /\ t_rows tb !! bt_record t = Some old
        /\ r_owner_id old = principal /\ r_record_version old = bt_version t /\
        let s1 := put_row (bt_entity t) (bt_record t) (set_version (bt_version t + 1) now old)
                    (with_members (mapped (ab_role c) (ab_operation c) k now) s) in
        let h := topology_event principal t kind fields now in
        recordable s1 (h (next_sequence s1)) = true
        /\ s' = with_history (fun l => l ++ [h (next_sequence s1)]) s1
  end.

Lemma assign_target_returns principal c now t fields s ref s' :
  is_Some (st_branches s !! ab_branch c) -> stored_time now = true ->
  assign_target principal c now t fields s = (Ok (Some ref), s') -> assigned_one principal c now t fields s ref s'.
Proof.
  intros Hb Ht. unfold assign_target.
  erewrite bind_run; [|by apply apply_mapping_spec]. unfold assigned_one. cbv zeta.
  destruct (mapping_event _ _ _ _) as [kind|].
  - rewrite bool_decide_false by done. intros (upd & s1 & Hupd & Hr)%bind_returns.
    destruct upd; cbn [negb] in Hr; [|by apply ret_returns in Hr as [[=] _]].
    apply update_row_returns in Hupd as (tb & old & Htb & Hrow & Hown & Hver & _ & ->).
    unfold append_topology_history in Hr.
    apply bind_returns in Hr as (u & s1 & [Hh ->]%insert_history_returns & Hr).
    apply bind_returns in Hr as (r & s1 & [Hm ->]%run_recorded_returns & [[= ->] ->]%ret_returns).
    pose proof Hm as (-> & _)%make_assigned_spec. split; [done|]. split; [done|]. by exists tb, old.
  - rewrite bool_decide_true by done.
    intros (r & s1 & [Hm ->]%run_recorded_returns & [[= ->] ->]%ret_returns)%bind_returns.
    by pose proof Hm as (-> & _)%make_assigned_spec.
Qed.

Inductive assigned (principal : pystr) (c : AssignBranchRecordsCommand) (now : datetime) :
    list (BranchAssignmentTarget * list (pystr * json)) -> store -> list AssignedRecordRef -> store -> Prop :=
| assigned_nil s : assigned principal c now [] s [] s
| assigned_cons t fields ts s ref s1 refs s2 :
    assigned_one principal c now t fields s ref s1 -> assigned principal c now ts s1 refs s2 ->
    assigned principal c now ((t, fields) :: ts) s (ref :: refs) s2.

Lemma assigned_one_steady principal c now t fields s ref s' :
  assigned_one principal c now t fields s ref s' -> st_branches s' = st_branches s /\ st_mutations s' = st_mutations s.
Proof.
  intros [_ Ha]. cbv zeta in Ha. destruct (mapping_event _ _ _ _); [|by destruct Ha as [_ ->]].
  by destruct Ha as (_ & tb & old & _ & _ & _ & _ & _ & ->).
Qed.

Lemma assigned_steady principal c now ts s refs s' :
  assigned principal c now ts s refs s' -> st_branches s' = st_branches s /\ st_mutations s' = st_mutations s.
Proof.
  induction 1 as [|t fields ts s ref s1 refs s2 [Hb Hm]%assigned_one_steady _ [IHb IHm]]; [done|]. split; congruence.
Qed.

Lemma assign_targets_returns principal c now ts s refs s' :
  is_Some (st_branches s !! ab_branch c) -> stored_time now = true ->
  assign_targets principal c now ts s = (Ok (Some refs), s') -> assigned principal c now ts s refs s'.
Proof.
  intros Hb Ht. revert s refs Hb. induction ts as [|[t fields] ts IH]; intros s refs Hb; cbn [assign_targets].
  { intros [[= ->] ->]%ret_returns. constructor. }
  intros (ref & s1 & Hone & Hr)%bind_returns. destruct ref as [ref|]; [|by apply ret_returns in Hr as [[=] _]].
  apply assign_target_returns in Hone; [|done..].
  apply bind_returns in Hr as (rest & s2 & Hrest & [Hx ->]%ret_returns).
  destruct rest as [l|]; [|done]. injection Hx as ->. econstructor; [exact Hone|]. apply IH; [|done].
  by destruct (assigned_one_steady _ _ _ _ _ _ _ _ Hone) as [-> _].
Qed.

Definition records_assigned (a : attempt) (principal : pystr) (sp : RecordSpecification) (c : AssignBranchRecordsCommand)
    (fp : pystr) (s : store) (r : BranchAssignmentOutcome) (s' : store) : Prop :=
  exists now b fields refs s1,
    at_now a = Ok now /\ find_branch (st_branches s) principal (ab_branch c) = Some b
    /\ (ab_operation c = Assign -> b_status b = BranchActive)
    /\ Forall2 (selected principal sp s) (ab_targets c) fields
    /\ assigned principal c now (combine (ab_targets c) fields) s refs s1
    /\ r = {| ba_records := refs; ba_replayed := false |} /\ make_assignment_outcome r = Ok r
    /\ s' = logged principal (ab_key c) (lit "assign_branch_records") fp (encode_assignment_result r) now s1.

Lemma assign_records_returns a principal via sp c s r s' :
  Sane a -> assign_records_op a principal via sp c s = (Ok (Success r), s') ->
  (unicode principal = true /\ unicode (ab_key c) = true)
  /\ (forall t, t ∈ ab_targets c -> bt_version t < MAX_REVISION) /\
  exists fp, fingerprint_of (assign_payload via c) = Some fp /\
  ((s' = s /\ topology_replayed s (principal, ab_key c) (lit "assign_branch_records") fp replayed_assignment r)
   \/ (st_mutations s !! (principal, ab_key c) = None /\ records_assigned a principal sp c fp s r s')).
Proof.
  intros Ha. unfold assign_records_op. destruct (negb _); [by intros [[=] _]%ret_returns|].
  destruct (existsb _ (ab_targets c)); [by intros [[=] _]%ret_returns|].
  destruct (existsb (fun t => MAX_REVISION <=? bt_version t) (ab_targets c)) eqn:Emax; [by intros [[=] _]%ret_returns|].
  intros (fp & s1 & [Hfp%valued_Ok ->]%run_result_returns & Hr%answered_returns)%bind_returns.
  apply bind_returns in Hr as (seen & s1 & (-> & Hu & Hseen)%topology_replay_returns & Hr).
  split; [done|]. split.
  { intros t Ht. apply Z.leb_gt. rewrite existsb_false in Emax. by apply Emax. }
  exists fp. split; [done|]. destruct seen as [[v|code]|].
  { apply ret_returns in Hr as [[= <-] ->]. by left. }
  { by apply ret_returns in Hr as [[=] _]. }
  right. split; [done|]. apply bind_returns in Hr as (found & s1 & (_ & Hb & ->)%select_branch_returns & Hr).
  destruct found as [b|]; [|by apply ret_returns in Hr as [[=] _]].
  destruct (_ && _) eqn:Est; [by apply ret_returns in Hr as [[=] _]|].
  apply bind_returns in Hr as (records & s1 & Hsel & Hr).
  destruct records as [fields|]; [|by apply ret_returns in Hr as [[=] _]].
  apply select_targets_returns in Hsel as [-> Hsel].
  apply bind_returns in Hr as (now & s1 & [Hnow ->]%run_result_returns & Hr).
  apply bind_returns in Hr as (refs & s1 & Has & Hr).
  destruct refs as [refs|]; [|by apply ret_returns in Hr as [[=] _]].
  apply assign_targets_returns in Has; [| |by eapply sane_stored].
  2:{ symmetry in Hb. unfold find_branch in Hb. by destruct (st_branches s !! ab_branch c). }
  apply bind_returns in Hr as (o & s2 & [Ho ->]%run_recorded_returns & Hr).
  assert (o = {| ba_records := refs; ba_replayed := false |}) as ->
    by (unfold make_assignment_outcome in Ho; rewrite require_all in Ho; naive_solver).
  apply bind_returns in Hr as (u & s2 & [_ ->]%insert_mutation_returns & [[= ->] ->]%ret_returns).
  exists now, b, fields, refs, s1. split_and!; try done.
  intros Hop. rewrite Hop, bool_decide_true in Est by done. cbn [andb] in Est.
  by apply negb_false_iff, bool_decide_eq_true in Est.
Qed.
End steps.
