(* ===== verification/StoreCommands.v ===== *)
(** * StoreCommands: the mutations of a service store and their contract

    The six commands of the data store as one type, and the proof that each
    keeps the contract of [RecordMutation]: what it writes in the ledger reads
    back as the result it returned. *)
From S2P Require Export TopologySteps.
From S2P Require Import Prelude Values Json JsonText Sha256 Manifest.

(** ** Commands *)
Inductive store_command : Type -> Type :=
| CreateRecord (c : CreateRecordCommand) : store_command RecordMutationOutcome
| UpdateRecord (c : UpdateRecordCommand) : store_command RecordMutationOutcome
| DeleteRecord (c : DeleteRecordCommand) : store_command DeleteRecordOutcome
| CreateBranch (c : CreateBranchCommand) : store_command BranchMutationOutcome
| UpdateBranch (c : UpdateBranchCommand) : store_command BranchMutationOutcome
| AssignRecords (c : AssignBranchRecordsCommand) : store_command BranchAssignmentOutcome.

Definition key_of {A} (k : store_command A) : pystr :=
  match k with
  | CreateRecord c => cr_key c | UpdateRecord c => ur_key c | DeleteRecord c => dr_key c
  | CreateBranch c => cb_key c | UpdateBranch c => ub_key c | AssignRecords c => ab_key c
  end.

Definition mark_branch (r : BranchMutationOutcome) : BranchMutationOutcome :=
  {| bm_branch := bm_branch r; bm_replayed := true |}.
Definition mark_assignment (r : BranchAssignmentOutcome) : BranchAssignmentOutcome :=
  {| ba_records := ba_records r; ba_replayed := true |}.

(** The result, marked as a replay. *)
Definition mark_of {A} (k : store_command A) : A -> A :=
  match k in store_command A return A -> A with
  | CreateRecord _ | UpdateRecord _ => mark_record
  | DeleteRecord _ => mark_delete
  | CreateBranch _ | UpdateBranch _ => mark_branch
  | AssignRecords _ => mark_assignment
  end.

(** What Python's types give: a [UUID] has 128 bits and a [float] is a binary64
    datum. *)
Definition well_typed {A} (k : store_command A) : Prop :=
  match k with
  | CreateRecord c => floats_valid (JObj (cr_record c)) = true
  | UpdateRecord c => floats_valid (JObj (ur_updates c)) = true /\ (ur_record c < 2 ^ 128)%N
  | DeleteRecord c => (dr_record c < 2 ^ 128)%N
  | CreateBranch c => forall p, cb_parent c = Some p -> (p < 2 ^ 128)%N
  | UpdateBranch c => (ub_branch c < 2 ^ 128)%N
  | AssignRecords c => (ab_branch c < 2 ^ 128)%N /\ forall t, t ∈ ab_targets c -> (bt_record t < 2 ^ 128)%N
  end.

Section commands.
Context `{FloatRead} `{IsoDates}.

Definition plan_of {A} (principal via : pystr) (sp : RecordSpecification) (k : store_command A) : planned A :=
  match k in store_command A return planned A with
  | CreateRecord c => create_record principal via sp c
  | UpdateRecord c => update_record principal via sp c
  | DeleteRecord c => delete_record principal via sp c
  | CreateBranch c => create_branch principal via sp c
  | UpdateBranch c => update_branch principal via sp c
  | AssignRecords c => assign_branch_records principal via sp c
  end.

(** ** The contract of branch commands *)
Lemma observed_found {A} principal key kind payload fp (decode : pystr -> option A) s m r :
  unicode principal = true -> unicode key = true -> fingerprint_of payload = Some fp ->
  st_mutations s !! (principal, key) = Some m -> same_command m kind fp = true -> decode (mu_result m) = Some r ->
  (observed principal key kind payload decode s).1 = Ok (Some r).
Proof.
  intros Hp Hk Hfp Hm Hc Hd. unfold observed. rewrite Hfp. cbn [valued run_result].
  apply (observe_replay_found principal key kind fp _ s m r Hp Hk Hm Hc). by rewrite Hd.
Qed.

Lemma observed_key {A} principal key kind payload (decode : pystr -> option A) s s' :
  st_mutations s !! (principal, key) = st_mutations s' !! (principal, key) ->
  (observed principal key kind payload decode s).1 = (observed principal key kind payload decode s').1.
Proof.
  intros Hm. unfold observed. destruct (fingerprint_of payload) as [fp|]; [|done]. cbn [valued run_result].
  by apply observe_replay_key.
Qed.

Lemma observed_none {A} principal key kind payload (decode : pystr -> option A) s :
  (observed principal key kind payload decode s).1 = Ok None <->
  st_mutations s !! (principal, key) = None /\ is_ok (observed principal key kind payload decode s).1 = true.
Proof.
  unfold observed. destruct (fingerprint_of payload) as [fp|]; [|cbn; naive_solver]. cbn [valued run_result].
  apply (observe_replay_none principal key kind fp).
Qed.

Lemma logged_entry principal key kind fp result now s :
  st_mutations (logged principal key kind fp result now s) !! (principal, key) = Some (entry_of kind fp result now).
Proof. unfold logged, with_mutations. cbn [st_mutations]. by rewrite lookup_insert_eq. Qed.

(** An operation that replays its entry or writes one keeps the contract. *)
Lemma topology_contract {A} (good : store -> Prop) sp principal key kind payload (decode : pystr -> option A) mark
    (op : attempt -> stx (answer A)) (effect : attempt -> pystr -> store -> A -> store -> Prop) :
  (forall a s r s', Sane a -> op a s = (Ok (Success r), s') ->
     (unicode principal = true /\ unicode key = true) /\
     exists fp, fingerprint_of payload = Some fp /\
     ((s' = s /\ topology_replayed s (principal, key) kind fp decode r)
      \/ (st_mutations s !! (principal, key) = None /\ effect a fp s r s'))) ->
  (forall a fp s r s', Sane a -> good s -> effect a fp s r s' ->
     good s' /\ exists result now, decode result = Some (mark r)
       /\ st_mutations s' !! (principal, key) = Some (entry_of kind fp result now)) ->
  Journalled Sane good {| pl_specification := sp; pl_operation := op;
                          pl_observer := observed principal key kind payload decode |} (principal, key) mark.
Proof.
  intros Hop Heff. split; cbn [pl_operation pl_observer pl_specification].
  - intros a s r s' Ha Hg Hr. destruct (Hop a s r s' Ha Hr) as ((Hp & Hk) & fp & Hfp & [[-> (m & Hm & Hc & Hd)]|[Hn He]]).
    + left. split; [done|]. by eapply observed_found.
    + right. split; [done|]. destruct (Heff a fp s r s' Ha Hg He) as (_ & result & now & Hd & Hm).
      eapply observed_found; [done|done|done|exact Hm|apply entry_same|done].
  - intros a s r s' Ha Hg Hr. destruct (Hop a s r s' Ha Hr) as (_ & fp & _ & [[-> _]|[_ He]]); [done|].
    by destruct (Heff a fp s r s' Ha Hg He) as [? _].
  - apply observed_key.
  - apply observed_none.
Qed.

Lemma new_branch_ok a c now id :
  Sane a -> at_now a = Ok now -> at_branch_id a = Ok id -> (forall p, cb_parent c = Some p -> (p < 2 ^ 128)%N) ->
  make_branch (new_branch c id now) = Ok (new_branch c id now) -> BranchOK (new_branch c id now).
Proof.
  intros Ha Hnow Hid Hp Hm. pose proof (sane_time _ _ Ha Hnow).
  split; cbn; [done|by apply (sane_branch _ Ha)|done|done|done|done].
Qed.

Lemma create_branch_contract principal via sp c pl :
  create_branch principal via sp c = Planned pl -> (forall p, cb_parent c = Some p -> (p < 2 ^ 128)%N) ->
  Journalled Sane reals_ok pl (principal, cb_key c) mark_branch.
Proof.
  unfold create_branch. destruct (admitted principal via sp) as [checked|]; [|done]. intros [= <-] Hp.
  apply (topology_contract reals_ok checked principal _ _ _ _ _ _ (fun a fp => branch_created a principal c fp)).
  - intros a s r s' _. apply create_branch_returns.
  - intros a fp s r s' Ha Hg (now & id & Hnow & Hid & Hm & _ & _ & _ & -> & ->). split; [exact Hg|].
    eexists _, now. split; [|apply logged_entry]. unfold replayed_branch.
    rewrite decode_branch_encoded; [done|]. by eapply new_branch_ok.
Qed.

Lemma parse_parent_small j parent : parse_parent j = Some parent -> forall p, parent = Some p -> (p < 2 ^ 128)%N.
Proof.
  destruct j as [|[s|?|?|?]|?|?]; cbn [parse_parent]; try done; [by intros [= <-]|].
  intros (u & Hu & Hp)%bind_Some p ->. destruct (bool_decide _) eqn:E; [|done].
  apply bool_decide_eq_true in E. cbn [andb] in Hp. destruct (negb _); [|done]. injection Hp as <-.
  rewrite <- E, parse_uuid_str in Hu. injection Hu as Hu. rewrite <- Hu. by apply N.mod_lt.
Qed.

Lemma updated_branch_same v updates parent w :
  updated_branch v updates parent = Some w ->
  bv_id w = bv_id v /\ bv_slug w = bv_slug v /\ bv_parent w = parent /\ bv_created_at w = bv_created_at v
  /\ bv_revision w = bv_revision v.
Proof.
  unfold updated_branch.
  intros (? & _ & (? & _ & (? & _ & (? & _ & (? & _ & [= <-])%bind_Some)%bind_Some)%bind_Some)%bind_Some)%bind_Some.
  done.
Qed.

(** The branch an update stores is well formed. *)
Lemma branch_updated_ok a principal c fp s r s' :
  Sane a -> ub_revision c < MAX_REVISION -> branch_updated a principal c fp s r s' -> BranchOK (bm_branch r).
Proof.
  intros Ha Hmax (now & b & current & parent & candidate & Hnow & _ & Hcur & Hrev & Hpar & _ & Hcand & Hv).
  cbv zeta in Hv. apply decode_branch_inv in Hcur as (Hok & _). destruct Hv as (Hm & -> & _).
  cbn [bm_branch]. case_bool_decide as Heq; [done|].
  apply updated_branch_same in Hcand as (Hid & _ & Hp & Hcr & Hr).
  pose proof (sane_time _ _ Ha Hnow). pose proof (branch_ids _ Hok) as (? & _ & ?).
  split; cbn [bv_id bv_parent bv_revision bv_created_at bv_updated_at touched]; [done|by rewrite Hid; apply Hok| |lia| |done].
  - rewrite Hp. by eapply parse_parent_small.
  - rewrite Hcr. apply Hok.
Qed.

Lemma update_branch_contract principal via sp c pl :
  update_branch principal via sp c = Planned pl ->
  Journalled Sane reals_ok pl (principal, ub_key c) mark_branch.
Proof.
  unfold update_branch. destruct (admitted principal via sp) as [checked|]; [|done]. intros [= <-].
  apply (topology_contract reals_ok checked principal _ _ _ _ _ _
           (fun a fp s r s' => ub_revision c < MAX_REVISION /\ branch_updated a principal c fp s r s')).
  - intros a s r s' _ (Hu & Hmax & fp & Hfp & Hr)%update_branch_returns. split; [done|]. exists fp. split; [done|].
    destruct Hr as [?|[? ?]]; [by left|by right].
  - intros a fp s r s' Ha Hg [Hmax He]. pose proof (branch_updated_ok _ _ _ _ _ _ _ Ha Hmax He) as Hok.
    destruct He as (now & b & current & parent & candidate & _ & _ & _ & _ & _ & _ & _ & Hv). cbv zeta in Hv.
    destruct Hv as (_ & -> & Hs). cbn [bm_branch] in Hok.
    assert (exists s1, reals_ok s1 /\ s' = logged principal (ub_key c) (lit "update_branch") fp
              (encode_branch_result (if bool_decide (candidate = current) then current else touched candidate now)) now s1)
      as (s1 & Hg1 & ->).
    { case_bool_decide; [by exists s|]. destruct Hs as (old & _ & _ & ->). eexists. by split; [|done]. }
    split; [exact Hg1|]. eexists _, now. split; [|apply logged_entry]. unfold replayed_branch.
    by rewrite decode_branch_encoded.
Qed.

(** ** The contract of assignments *)
Lemma reals_members f s : reals_ok s -> reals_ok (with_members f s).
Proof. done. Qed.

Lemma assigned_one_reals principal c now t fields s ref s' :
  assigned_one principal c now t fields s ref s' -> reals_ok s -> reals_ok s'.
Proof.
  intros [_ Ha] Hs. cbv zeta in Ha. destruct (mapping_event _ _ _ _) as [kind|]; [|by destruct Ha as [_ ->]].
  destruct Ha as (_ & tb & old & Htb & Hrow & _ & _ & _ & ->).
  apply (reals_put _ _ tb); [done|done|]. cbn [r_domain set_version]. apply (Hs (bt_entity t) (bt_record t)).
  by rewrite (table_rows_at _ _ _ Htb).
Qed.

Lemma assigned_reals principal c now ts s refs s' :
  assigned principal c now ts s refs s' -> reals_ok s -> reals_ok s'.
Proof. induction 1; [done|]. intros Hs. by eauto using assigned_one_reals. Qed.

Lemma assigned_refs principal c now ts s refs s' :
  assigned principal c now ts s refs s' ->
  (forall t fields, (t, fields) ∈ ts -> (bt_record t < 2 ^ 128)%N /\ bt_version t < MAX_REVISION) ->
  Forall AssignedOK refs.
Proof.
  induction 1 as [|t fields ts s ref s1 refs s2 Hone _ IH]; intros Hts; [constructor|].
  constructor; [|apply IH; intros ???; eapply Hts; by right].
  destruct (Hts t fields) as [Hid Hv]; [by left|]. destruct Hone as [Hm Ha]. cbv zeta in Ha.
  destruct (mapping_event _ _ _ _); destruct Ha as [-> _]; split_and!; cbn; lia || done.
Qed.

Lemma assign_contract principal via sp c pl :
  assign_branch_records principal via sp c = Planned pl ->
  (forall t, t ∈ ab_targets c -> (bt_record t < 2 ^ 128)%N) ->
  Journalled Sane reals_ok pl (principal, ab_key c) mark_assignment.
Proof.
  unfold assign_branch_records. destruct (admitted principal via sp) as [checked|]; [|done]. intros [= <-] Hids.
  apply (topology_contract reals_ok checked principal _ _ _ _ _ _
           (fun a fp s r s' => (forall t, t ∈ ab_targets c -> bt_version t < MAX_REVISION)
              /\ records_assigned a principal checked c fp s r s')).
  - intros a s r s' Ha (Hu & Hmax & fp & Hfp & Hr)%assign_records_returns; [|done]. split; [done|]. exists fp.
    split; [done|]. destruct Hr as [?|[? ?]]; [by left|by right].
  - intros a fp s r s' Ha Hg [Hmax (now & b & fields & refs & s1 & _ & _ & _ & _ & Has & -> & Hm & ->)].
    split; [exact (assigned_reals _ _ _ _ _ _ _ Has Hg)|]. eexists _, now. split; [|apply logged_entry].
    unfold replayed_assignment. rewrite decode_assignment_encoded; [|cbn [ba_records]|done].
    + cbn [mbind option_bind ba_records]. unfold make_assignment_outcome in *. apply require_all in Hm as [Hm _].
      by rewrite contract_run by exact Hm.
    + eapply assigned_refs; [done|]. intros t f Hin%list_elem_of_In%in_combine_l%list_elem_of_In. by split; [apply Hids|apply Hmax].
Qed.

(** ** All commands *)
Lemma command_contract {A} principal via sp (k : store_command A) pl :
  plan_of principal via sp k = Planned pl -> well_typed k ->
  Journalled Sane reals_ok pl (principal, key_of k) (mark_of k).
Proof.
  destruct k; cbn [plan_of well_typed key_of mark_of]; intros Hpl Hk.
  - by eapply create_contract.
  - by eapply update_contract; [|apply Hk|apply Hk].
  - by eapply delete_contract.
  - by eapply create_branch_contract.
  - by eapply update_branch_contract.
  - by eapply assign_contract; [|apply Hk].
Qed.
End commands.
