(* ===== verification/StoreInvariant.v ===== *)
(** * StoreInvariant: what every state of a service store satisfies

    The history of a record is the chain of its versions, from its creation to
    its row or its deletion; parents of branches are a forest; a membership
    joins a record and a branch of one owner, and a record has at most one
    primary branch.  Every command keeps all of it. *)
From S2P Require Export StoreCommands TopologyValues.
From S2P Require Import Prelude Values Json JsonText Sha256 Manifest.

Section invariant.
Context `{FloatRead} `{IsoDates}.

(** ** Histories *)
Definition of_record (principal entity : pystr) (record : UUID) (h : history_row) : Prop :=
  h_principal h = principal /\ h_entity h = entity /\ h_record h = record.
#[local] Instance of_record_dec p e u h : Decision (of_record p e u h).
Proof. unfold of_record. apply _. Defined.

Definition events (s : store) (principal entity : pystr) (record : UUID) : list history_row :=
  filter (of_record principal entity record) (st_history s).

(** The events of a record are its versions in order: the first is its creation,
    only the last can be its deletion, and the row, if it is there, is at the
    version of the last. *)
Record HistoryOK (evs : list history_row) (current : option row) : Prop := {
  ho_versions : map h_version evs = map Z.of_nat (seq 1 (length evs));
  ho_create : forall i h, evs !! i = Some h -> h_kind h = create_event <-> i = 0%nat;
  ho_delete : forall i h, evs !! i = Some h -> h_kind h = delete_event -> S i = length evs /\ current = None;
  ho_row : match current with
           | Some r => evs <> [] /\ r_record_version r = Z.of_nat (length evs)
           | None => forall h, last evs = Some h -> h_kind h = delete_event
           end
}.

Lemma versions_snoc evs h :
  map h_version evs = map Z.of_nat (seq 1 (length evs)) -> h_version h = Z.of_nat (length evs) + 1 ->
  map h_version (evs ++ [h]) = map Z.of_nat (seq 1 (length (evs ++ [h]))).
Proof.
  intros Hv Hh. rewrite length_app, seq_app, !map_app, Hv. cbn [length seq map]. rewrite Hh. do 2 f_equal. lia.
Qed.

(** A record is created. *)
Lemma history_create h r :
  h_version h = 1 -> h_kind h = create_event -> r_record_version r = 1 -> HistoryOK [h] (Some r).
Proof.
  intros Hv Hk Hr. split; cbn [map length seq].
  - by rewrite Hv.
  - intros [|i] h'; cbn; [by intros [= <-]|by destruct i].
  - intros [|i] h'; cbn; [intros [= <-]; congruence|by destruct i].
  - done.
Qed.

(** A record goes on to its next version. *)
Lemma history_next evs r h r' :
  HistoryOK evs (Some r) -> h_version h = r_record_version r + 1 ->
  h_kind h <> create_event -> h_kind h <> delete_event -> r_record_version r' = h_version h ->
  HistoryOK (evs ++ [h]) (Some r').
Proof.
  intros [Hv Hc Hd [Hne Hr]] Hh Hk Hk' Hr'. split.
  - apply versions_snoc; [done|lia].
  - intros i h' [Hi|[Hi Hx]]%lookup_app_Some; [by apply Hc|].
    apply list_lookup_singleton_Some in Hx as [? <-]. split; [done|].
    intros ->. destruct evs; [done|cbn in Hi; lia].
  - intros i h' [Hi|[Hi Hx]]%lookup_app_Some Hkd.
    + by destruct (Hd i h' Hi Hkd).
    + by apply list_lookup_singleton_Some in Hx as [_ <-].
  - split; [by destruct evs|]. rewrite Hr', Hh, Hr, length_app. cbn [length]. lia.
Qed.

(** A record is deleted. *)
Lemma history_delete evs r h :
  HistoryOK evs (Some r) -> h_version h = r_record_version r + 1 -> h_kind h = delete_event ->
  HistoryOK (evs ++ [h]) None.
Proof.
  intros [Hv Hc Hd [Hne Hr]] Hh Hk. split.
  - apply versions_snoc; [done|lia].
  - intros i h' [Hi|[Hi Hx]]%lookup_app_Some; [by apply Hc|].
    apply list_lookup_singleton_Some in Hx as [? <-]. rewrite Hk. split; [done|]. intros ->. destruct evs; [done|cbn in Hi; lia].
  - intros i h' [Hi|[Hi Hx]]%lookup_app_Some Hkd.
    + by destruct (Hd i h' Hi Hkd).
    + apply list_lookup_singleton_Some in Hx as [Hz _]. rewrite length_app. cbn [length]. split; [lia|done].
  - intros h'. rewrite last_snoc. by intros [= <-].
Qed.

(** The first version is taken once a record has a history. *)
Lemma history_first evs current h :
  HistoryOK evs current -> h ∈ evs \/ evs = [] \/ exists h0, h0 ∈ evs /\ h_version h0 = 1.
Proof.
  intros [Hv _ _ _]. right. destruct evs as [|h0 evs]; [by left|right]. exists h0. split; [by left|].
  cbn in Hv. by injection Hv as ->.
Qed.

(** ** The invariant *)
Record RecordsOK (s : store) : Prop := {
  so_history : forall p e u, HistoryOK (events s p e u) (find_row s p e u);
  so_sequence : StronglySorted Z.lt (map h_sequence (st_history s))
}.

Record BranchesOK (s : store) : Prop := {
  so_forest : Forest (st_branches s);
  so_slugs : forall id id' b b', st_branches s !! id = Some b -> st_branches s !! id' = Some b' ->
    b_principal b = b_principal b' -> b_slug b = b_slug b' -> id = id'
}.

Record MembersOK (s : store) : Prop := {
  so_members : forall p e u b m, st_members s !! (p, e, u, b) = Some m ->
    is_Some (find_row s p e u) /\ is_Some (find_branch (st_branches s) p b);
  so_primary : forall p e u b b', primary_member s p e u b -> primary_member s p e u b' -> b = b'
}.

Record StoreOK (s : store) : Prop := {
  so_records : RecordsOK s;
  so_branches : BranchesOK s;
  so_assigned : MembersOK s;
  so_reals : reals_ok s
}.

(** ** Rows and events after a change *)
Lemma find_row_put s entity t id r p n u :
  st_tables s !! entity = Some t ->
  find_row (put_row entity id r s) p n u
  = if bool_decide (n = entity /\ u = id) then (if bool_decide (r_owner_id r = p) then Some r else None)
    else find_row s p n u.
Proof.
  intros Ht. unfold find_row. rewrite (table_rows_put _ _ _ _ _ _ Ht).
  destruct (decide (n = entity)) as [->|Hn]; [|by rewrite !bool_decide_false by naive_solver].
  rewrite (bool_decide_true (entity = entity)) by done. destruct (decide (u = id)) as [->|Hu].
  - by rewrite lookup_insert_eq, (bool_decide_true (entity = entity /\ id = id)) by done.
  - rewrite lookup_insert_ne, (bool_decide_false (entity = entity /\ u = id)) by naive_solver.
    by rewrite (table_rows_at _ _ _ Ht).
Qed.

Lemma find_row_drop s entity t id p n u :
  st_tables s !! entity = Some t ->
  find_row (drop_row entity id s) p n u = if bool_decide (n = entity /\ u = id) then None else find_row s p n u.
Proof.
  intros Ht. unfold find_row. rewrite (table_rows_drop _ _ _ _ _ Ht).
  destruct (decide (n = entity)) as [->|Hn]; [|by rewrite !bool_decide_false by naive_solver].
  rewrite (bool_decide_true (entity = entity)) by done. destruct (decide (u = id)) as [->|Hu].
  - by rewrite lookup_delete_eq, (bool_decide_true (entity = entity /\ id = id)) by done.
  - rewrite lookup_delete_ne, (bool_decide_false (entity = entity /\ u = id)) by naive_solver.
    by rewrite (table_rows_at _ _ _ Ht).
Qed.

Lemma events_snoc s h p e u :
  filter (of_record p e u) (st_history s ++ [h])
  = events s p e u ++ (if decide (of_record p e u h) then [h] else []).
Proof. unfold events. by rewrite filter_app. Qed.

Lemma next_sequence_above s h : h ∈ st_history s -> h_sequence h < next_sequence s.
Proof.
  unfold next_sequence. induction (st_history s) as [|h' l IH]; [by intros ?%elem_of_nil|].
  cbn [foldr]. intros [->|Hin]%elem_of_cons; [lia|]. specialize (IH Hin). lia.
Qed.

Lemma sequence_snoc s h :
  StronglySorted Z.lt (map h_sequence (st_history s)) -> h_sequence h = next_sequence s ->
  StronglySorted Z.lt (map h_sequence (st_history s ++ [h])).
Proof.
  intros Hs Hh. assert (forall h', h' ∈ st_history s -> h_sequence h' < h_sequence h) as Hall
    by (intros h' Hin; rewrite Hh; by apply next_sequence_above).
  clear Hh. induction (st_history s) as [|h' l IH]; cbn [map app]; [by repeat constructor|].
  cbn [map] in Hs. apply StronglySorted_inv in Hs as [Hs Hf]. constructor.
  - apply IH; [done|]. intros x Hx. apply Hall. by right.
  - rewrite map_app. apply Forall_app. split; [done|]. cbn. constructor; [apply Hall; by left|constructor].
Qed.

(** ** What keeps each part *)
Lemma members_keep s s' :
  MembersOK s -> st_members s' = st_members s ->
  (forall p e u, is_Some (find_row s p e u) -> is_Some (find_row s' p e u)) ->
  (forall p b, is_Some (find_branch (st_branches s) p b) -> is_Some (find_branch (st_branches s') p b)) ->
  MembersOK s'.
Proof.
  intros [Hm Hp] Hs Hr Hb. split.
  - intros p e u b m. rewrite Hs. intros Hk. destruct (Hm p e u b m Hk). auto.
  - intros p e u b b'. unfold primary_member. rewrite Hs. apply Hp.
Qed.

(** One more event, for one record. *)
Lemma records_event s s' h p e u :
  RecordsOK s -> st_history s' = st_history s ++ [h] -> h_sequence h = next_sequence s -> of_record p e u h ->
  (forall p' n u', ~ (p' = p /\ n = e /\ u' = u) -> find_row s' p' n u' = find_row s p' n u') ->
  HistoryOK (events s p e u ++ [h]) (find_row s' p e u) ->
  RecordsOK s'.
Proof.
  intros [Hh Hs] Hist Hseq Hof Hrows Hnew. split; [|by rewrite Hist; apply sequence_snoc].
  intros p' n u'. unfold events. rewrite Hist, events_snoc.
  destruct (decide (p' = p /\ n = e /\ u' = u)) as [(-> & -> & ->)|Hne].
  - by rewrite decide_True.
  - rewrite decide_False, app_nil_r, Hrows; [done|done|].
    intros (Hp & He & Hu). destruct Hof as (? & ? & ?). apply Hne. by split_and!; congruence.
Qed.

Lemma records_same s s' : RecordsOK s -> st_history s' = st_history s -> st_tables s' = st_tables s -> RecordsOK s'.
Proof.
  intros [Hh Hs] Hist Ht. split; [|by rewrite Hist]. intros p e u.
  assert (find_row s' p e u = find_row s p e u) as -> by (unfold find_row, table_rows; by rewrite Ht).
  unfold events. rewrite Hist. apply Hh.
Qed.

Lemma find_row_table s e tb u r p :
  st_tables s !! e = Some tb -> t_rows tb !! u = Some r -> r_owner_id r = p -> find_row s p e u = Some r.
Proof.
  intros Ht Hr Hp. unfold find_row. rewrite (table_rows_at _ _ _ Ht), Hr. by rewrite bool_decide_true.
Qed.

Lemma find_row_other s e tb u r p p' :
  st_tables s !! e = Some tb -> t_rows tb !! u = Some r -> r_owner_id r = p -> p' <> p -> find_row s p' e u = None.
Proof.
  intros Ht Hr Hp Hne. unfold find_row. rewrite (table_rows_at _ _ _ Ht), Hr. by rewrite bool_decide_false by congruence.
Qed.

(** A row that stays with its owner, in a store whose tables are otherwise the
    same. *)
Section next_row.
Variables (s s' : store) (e : pystr) (tb : table) (u : UUID) (old new : row).
Hypothesis at_table : st_tables s !! e = Some tb.
Hypothesis at_row : t_rows tb !! u = Some old.
Hypothesis same_owner : r_owner_id new = r_owner_id old.
Hypothesis tables : st_tables s' = st_tables (put_row e u new s).

Lemma put_rows p n u' :
  find_row s' p n u' = if bool_decide (p = r_owner_id old /\ n = e /\ u' = u) then Some new else find_row s p n u'.
Proof using at_table at_row same_owner tables.
  transitivity (find_row (put_row e u new s) p n u'); [by unfold find_row, table_rows; rewrite tables|].
  rewrite (find_row_put _ _ _ _ _ _ _ _ at_table), same_owner.
  destruct (decide (n = e /\ u' = u)) as [[-> ->]|Hne].
  - rewrite (bool_decide_true (e = e /\ u = u)) by done. destruct (decide (p = r_owner_id old)) as [->|Hp].
    + by rewrite !bool_decide_true by done.
    + rewrite !bool_decide_false by (congruence || tauto). symmetry. by apply (find_row_other s e tb u old (r_owner_id old)).
  - by rewrite !bool_decide_false by naive_solver.
Qed.

Lemma put_keeps p n u' : is_Some (find_row s p n u') -> is_Some (find_row s' p n u').
Proof using at_table at_row same_owner tables. intros Hs. rewrite put_rows. by case_bool_decide. Qed.

Lemma records_next h :
  RecordsOK s -> st_history s' = st_history s ++ [h] -> h_sequence h = next_sequence s ->
  of_record (r_owner_id old) e u h -> h_version h = r_record_version old + 1 -> r_record_version new = h_version h ->
  h_kind h <> create_event -> h_kind h <> delete_event ->
  RecordsOK s'.
Proof using at_table at_row same_owner tables.
  intros Hs Hist Hseq Hof Hv Hn Hk Hk'. eapply records_event; [done..| |].
  - intros p' n u' Hne. by rewrite put_rows, bool_decide_false.
  - rewrite put_rows, bool_decide_true by done. eapply history_next; [|done..].
    rewrite <- (find_row_table s e tb u old (r_owner_id old)) by done. apply Hs.
Qed.
End next_row.
End invariant.
