(* ===== verification/StoreKeeps.v ===== *)
(** * StoreKeeps: every command keeps the invariant of the store

    One lemma per command, from what [RecordSteps] and [TopologySteps] say its
    operation wrote. *)
From S2P Require Export StoreInvariant.
From S2P Require Import Prelude Values Json JsonText Sha256 Manifest.

Section keeps.
Context `{FloatRead} `{IsoDates}.

(** ** Records *)
Lemma recordable_fresh s h h0 :
  recordable s h = true -> h0 ∈ st_history s -> of_record (h_principal h) (h_entity h) (h_record h) h0 ->
  h_version h0 <> h_version h.
Proof.
  unfold recordable. intros Hr Hin (Hp & He & Hu) Hv. do 4 apply andb_true_iff in Hr as [Hr _].
  apply negb_true_iff in Hr. rewrite existsb_false in Hr. specialize (Hr h0 Hin).
  unfold same_version in Hr. rewrite Hp, He, Hu, Hv in Hr.
  by rewrite !bool_decide_true, N.eqb_refl, Z.eqb_refl in Hr by done.
Qed.

Lemma insert_keeps s s' e tb u new h :
  RecordsOK s -> MembersOK s -> st_tables s !! e = Some tb -> t_rows tb !! u = None ->
  st_tables s' = st_tables (put_row e u new s) -> st_history s' = st_history s ++ [h] ->
  st_members s' = st_members s -> st_branches s' = st_branches s ->
  h_sequence h = next_sequence s -> of_record (r_owner_id new) e u h -> h_version h = 1 -> r_record_version new = 1 ->
  h_kind h = create_event -> recordable (put_row e u new s) h = true ->
  RecordsOK s' /\ MembersOK s'.
Proof.
  intros Hs Hm Ht Hu Htab Hist Hmem Hbr Hseq Hof Hv Hnv Hk Hrec.
  assert (forall p n u', find_row s' p n u'
    = if bool_decide (p = r_owner_id new /\ n = e /\ u' = u) then Some new else find_row s p n u') as Hrows.
  { intros p n u'. transitivity (find_row (put_row e u new s) p n u'); [by unfold find_row, table_rows; rewrite Htab|].
    rewrite (find_row_put _ _ _ _ _ _ _ _ Ht). destruct (decide (n = e /\ u' = u)) as [[-> ->]|Hne].
    - rewrite (bool_decide_true (e = e /\ u = u)) by done. destruct (decide (p = r_owner_id new)) as [->|Hp].
      + by rewrite !bool_decide_true by done.
      + rewrite !bool_decide_false by (congruence || tauto). symmetry. unfold find_row. by rewrite (table_rows_at _ _ _ Ht), Hu.
    - by rewrite !bool_decide_false by naive_solver. }
  assert (forall p, find_row s p e u = None) as Hnone
    by (intros p; unfold find_row; by rewrite (table_rows_at _ _ _ Ht), Hu).
  split.
  - eapply records_event; [done..| |].
    + intros p' n u' Hne. by rewrite Hrows, bool_decide_false.
    + rewrite Hrows, bool_decide_true by done. destruct Hs as [Hh _]. specialize (Hh (r_owner_id new) e u).
      destruct (events s (r_owner_id new) e u) as [|h0 evs] eqn:Ee; [by apply history_create|].
      exfalso. pose proof (ho_versions _ _ Hh) as Hvs. cbn in Hvs. injection Hvs as Hv0 _.
      assert (h0 ∈ events s (r_owner_id new) e u) as Hin by (rewrite Ee; by left).
      apply list_elem_of_filter in Hin as [Hof0 Hin].
      apply (recordable_fresh _ h h0 Hrec Hin); [|cbn in Hv0; lia].
      destruct Hof as (-> & -> & ->). exact Hof0.
  - eapply members_keep; [done|done| |by rewrite Hbr]. intros p n u' Hp. rewrite Hrows. by case_bool_decide.
Qed.

Lemma created_keeps a principal via sp c record fp s r s' :
  StoreOK s -> created a principal via sp c record fp s r s' -> reals_ok s' -> StoreOK s'.
Proof.
  intros [Hrec Hbr Hmem _] (now & id & v & columns & e & t & Hnow & Hid & Hid0 & -> & Hmk & _ & _ & _ & Ht & Hins & Hj & _) Hre.
  cbv zeta in Hj. destruct Hj as (Hok & _ & ->). unfold insertable in Hins.
  do 3 apply andb_true_iff in Hins as [Hins _]. apply bool_decide_eq_true in Hins.
  destruct (insert_keeps s (journal (principal, cr_key c) (entry_of (lit "create_record") fp
      (encode_record_result (new_record c via id now record)) now)
      (event_of principal (new_record c via id now record) create_event None (Some record) now)
      (put_row (cr_entity c) id (row_of principal (new_record c via id now record) columns) s))
    (cr_entity c) t id (row_of principal (new_record c via id now record) columns)
    (event_of principal (new_record c via id now record) create_event None (Some record) now (next_sequence s)))
    as [? ?]; try done.
  split; [done| |done|done]. destruct Hbr. by split.
Qed.

Lemma updated_keeps a principal sp c updates fp s r s' :
  StoreOK s -> updated a principal sp c updates fp s r s' -> reals_ok s' -> StoreOK s'.
Proof.
  intros [Hrec Hbr Hmem _] (now & old & before & given & fields & columns & e & t & _ & Hdec & _ & _ & _ & _ & _ & _ & _ & _
    & Ht & Hrow & Hown & Hver & Hj) Hre.
  cbv zeta in Hj. destruct Hj as (_ & _ & _ & -> & _). set (after := updated_record before now fields) in *.
  set (new := set_row after columns old) in *.
  split; [|destruct Hbr; by split| |done].
  - eapply (records_next s _ (rv_entity before) t (rv_id before) old new);
      [done..| | | | |]; cbn; try done; congruence.
  - eapply members_keep; [done|done| |done]. intros p n u. by eapply (put_keeps s _ (rv_entity before) t (rv_id before) old new).
Qed.

Lemma deleted_keeps a principal sp c fp s r s' :
  (dr_record c < 2 ^ 128)%N -> StoreOK s -> deleted a principal sp c fp s r s' -> reals_ok s' -> StoreOK s'.
Proof.
  intros Hsmall [Hrec Hbr Hmem _] (now & old & before & t & Hold & Hdec & _ & _ & _ & Ht & Hrow & Hj & _) Hre.
  cbv zeta in Hj. destruct Hj as (_ & _ & _ & ->).
  pose proof (decode_record_inv _ _ _ _ _ _ Hdec) as (? & ? & ? & _ & Hown & Hid & _ & _ & _ & Hver & _ & _ & _ & _ & Hent & _).
  apply read_id_small in Hid as [_ Hid]. rewrite N.mod_small in Hid by done.
  set (s0 := with_members _ s). set (h := event_of principal (updated_record before now (rv_fields before)) delete_event
    (Some (rv_fields before)) None now).
  set (s' := journal _ _ h _).
  assert (forall p n u, find_row s' p n u = if bool_decide (n = dr_entity c /\ u = dr_record c) then None else find_row s p n u)
    as Hrows by (intros p n u; exact (find_row_drop s0 _ t _ p n u Ht)).
  split; [|destruct Hbr; by split| |done].
  - eapply (records_event s s' (h (next_sequence s)) principal (dr_entity c) (dr_record c)); [done|done|done|by split_and!| |].
    + intros p n u Hne. rewrite Hrows. case_bool_decide as Hx; [|done]. destruct Hx as [-> ->]. symmetry.
      eapply (find_row_other s _ t _ old principal); [done|done|done|]. intros ->. by apply Hne.
    + rewrite Hrows, bool_decide_true by done. eapply (history_delete _ old); [|cbn; by rewrite Hver|done].
      rewrite <- Hold. apply Hrec.
  - destruct Hmem as [Hm Hp]. split.
    + intros p n u b m Hk. cbn [st_members s' journal drop_row with_tables with_mutations with_history s0 with_members] in Hk.
      apply map_lookup_filter_Some in Hk as [Hk Hne]. destruct (Hm p n u b m Hk) as [Hr Hb]. split; [|done].
      rewrite Hrows. case_bool_decide as Hx; [|done]. destruct Hx as [-> ->]. destruct Hr as [r' Hr'].
      exfalso. apply Hne. cbn. split_and!; try done. destruct (decide (p = principal)) as [|Hpp]; [done|].
      rewrite (find_row_other s (dr_entity c) t (dr_record c) old principal p) in Hr'; done.
    + intros p n u b b' (m & Hk & Hr) (m' & Hk' & Hr').
      cbn [st_members s' journal drop_row with_tables with_mutations with_history s0 with_members] in Hk, Hk'.
      apply map_lookup_filter_Some in Hk as [Hk _]. apply map_lookup_filter_Some in Hk' as [Hk' _].
      apply (Hp p n u); [by exists m|by exists m'].
Qed.

(** ** Branches *)
Lemma logged_keeps principal key kind fp result now s : StoreOK s -> StoreOK (logged principal key kind fp result now s).
Proof. intros [[] [] [] ?]. split; [by split|by split|by split|done]. Qed.

Lemma find_branch_put bs id b p x :
  (forall old, bs !! id = Some old -> b_principal old = b_principal b) ->
  is_Some (find_branch bs p x) -> is_Some (find_branch (<[id := b]> bs) p x).
Proof.
  intros Hold [b' [Hb Hp]%find_branch_Some]. destruct (decide (x = id)) as [->|Hne].
  - exists b. apply find_branch_Some. rewrite lookup_insert_eq. split; [done|]. by rewrite <- (Hold b' Hb).
  - exists b'. apply find_branch_Some. by rewrite lookup_insert_ne.
Qed.

(** A branch is put, new or in the place of one of its owner and slug. *)
Lemma branch_keeps s (id : UUID) (b : branch_row) :
  StoreOK s -> (0 < id < 2 ^ 128)%N ->
  (forall old, st_branches s !! id = Some old -> b_principal old = b_principal b) ->
  (forall x b', st_branches s !! x = Some b' -> b_principal b' = b_principal b -> b_slug b' = b_slug b -> x = id) ->
  (forall p, b_parent b = Some p -> rooted (st_branches s) (b_principal b) p
     /\ ~ rtc (ascends (st_branches s) (b_principal b)) p id) ->
  StoreOK (with_branches <[id := b]> s).
Proof.
  intros [Hrec [Hf Hsl] Hmem Hre] Hid Hold Hslug Hpar.
  split; [by destruct Hrec| | |done].
  - split; cbn [st_branches with_branches].
    + by apply forest_put.
    + intros x y bx bY [[<- <-]|[Hx Hbx]]%lookup_insert_Some [[<- <-]|[Hy Hby]]%lookup_insert_Some Hp Hs.
      * done.
      * symmetry. by apply (Hslug y bY).
      * by apply (Hslug x bx).
      * by apply (Hsl x y bx bY).
  - eapply members_keep; [done|done|done|]. intros p x. by apply find_branch_put.
Qed.

Lemma slug_free s principal slug x b :
  slug_taken s principal slug = false -> st_branches s !! x = Some b -> b_principal b = principal -> b_slug b <> slug.
Proof.
  unfold slug_taken. rewrite existsb_false. intros Hs Hb Hp Hslug.
  specialize (Hs (x, b)). cbn in Hs. rewrite Hp, Hslug, !bool_decide_true in Hs by done.
  discriminate Hs. by apply elem_of_map_to_list.
Qed.

Lemma branch_created_keeps a principal c fp s r s' :
  Sane a -> StoreOK s -> branch_created a principal c fp s r s' -> StoreOK s'.
Proof.
  intros Ha Hs (now & id & Hc). cbv zeta in Hc. destruct Hc as (Hnow & Hid & Hm & Hpar & Hfresh & Hslug & -> & _).
  pose proof Hm as (_ & Hid0 & _)%make_branch_spec. cbn in Hid0. apply logged_keeps, branch_keeps; [done| | | |].
  - split; [by apply N.neq_0_lt_0|by apply (sane_branch _ Ha)].
  - intros old Hold. congruence.
  - intros x b Hb Hp Hsl. exfalso. by eapply slug_free.
  - intros p Hp. cbn in Hp |- *. pose proof (so_forest _ (so_branches _ Hs)) as Hf.
    assert (rooted (st_branches s) principal p) as Hroot by (by apply forest_rooted, Hpar).
    split; [done|]. by apply fresh_avoided.
Qed.

(** A parent that was not refused is a branch above which the branch is not. *)
Lemma parent_accepted principal id parent s :
  Forest (st_branches s) -> refused_parent principal id parent s = (Ok None, s) ->
  forall p, parent = Some p -> rooted (st_branches s) principal p /\ ~ rtc (ascends (st_branches s) principal) p id.
Proof.
  intros Hf Href p ->. unfold refused_parent in Href. case_bool_decide as Hid; [done|].
  apply bind_returns in Href as (missing & s1 & [-> Hpar]%parent_missing_returns & Hr).
  destruct missing; [by apply ret_returns in Hr as [[=] _]|]. specialize (Hpar eq_refl p eq_refl).
  apply forest_rooted in Hpar; [|done]. destruct (is_ancestor_spec principal p id s Hf Hpar) as (found & Hrun & Hfound).
  rewrite (bind_run _ _ _ _ _ Hrun) in Hr. apply ret_returns in Hr as [Hr _]. destruct found; [done|].
  split; [done|]. intros Hx%Hfound. done.
Qed.

Lemma branch_updated_keeps a principal c fp s r s' :
  StoreOK s -> branch_updated a principal c fp s r s' -> StoreOK s'.
Proof.
  intros Hs (now & b & current & parent & candidate & _ & Hb & Hdec & _ & _ & Href & Hcand & Hv). cbv zeta in Hv.
  destruct Hv as (_ & _ & Hs'). case_bool_decide; [subst; by apply logged_keeps|].
  destruct Hs' as (old & Hold & _ & ->). apply updated_branch_same in Hcand as (Hid & _ & Hp & _).
  change (bv_id (touched candidate now)) with (bv_id candidate) in *. rewrite Hid in *.
  pose proof (so_branches _ Hs) as [Hf Hsl]. apply find_branch_Some in Hold as [Hold Hown].
  apply logged_keeps, branch_keeps; [done|by eapply forest_id| | |].
  - intros old' Hold'. cbn. congruence.
  - intros x b' Hb' Hp' Hs'. by apply (Hsl x (bv_id current) b' old).
  - intros p Hpar. cbn in Hpar |- *. rewrite Hown. rewrite Hp in Hpar. by eapply parent_accepted.
Qed.

(** ** Assignments *)
Lemma mapped_lookup role operation k now ms k' m :
  mapped role operation k now ms !! k' = Some m -> k' = k \/ ms !! k' = Some m.
Proof.
  unfold mapped. destruct operation, role.
  - intros [[<- _]|[_ Hm]]%lookup_insert_Some; [by left|right]. by apply map_lookup_filter_Some in Hm as [? _].
  - intros [[<- _]|[_ Hm]]%lookup_insert_Some; [by left|by right].
  - intros [_ Hm]%lookup_delete_Some. by right.
  - intros [_ Hm]%lookup_delete_Some. by right.
Qed.

Definition primary_in (ms : gmap member_key membership) (p e : pystr) (u b : UUID) : Prop :=
  exists m, ms !! (p, e, u, b) = Some m /\ m_role m = Primary.

(** At most one primary branch remains. *)
Lemma mapped_primary role operation k now ms :
  (forall p e u b b', primary_in ms p e u b -> primary_in ms p e u b' -> b = b') ->
  forall p e u b b', primary_in (mapped role operation k now ms) p e u b ->
    primary_in (mapped role operation k now ms) p e u b' -> b = b'.
Proof.
  intros Hone p e u b b' (m & Hm & Hr) (m' & Hm' & Hr').
  assert (forall x mx, m_role mx = Primary -> mapped role operation k now ms !! (p, e, u, x) = Some mx ->
    ((p, e, u, x) = k /\ operation = Assign /\ role = Primary)
    \/ ms !! (p, e, u, x) = Some mx /\ (operation = Assign -> role = Primary -> ~ same_record (p, e, u, x) k)) as Hcase.
  { intros x mx Hrx. unfold mapped. destruct operation, role.
    - intros [[Hk _]|[_ Hx]]%lookup_insert_Some; [by left|right].
      apply map_lookup_filter_Some in Hx as [Hx Hn]. split; [done|]. intros _ _ Hsame. by apply Hn.
    - intros [[_ <-]|[_ Hx]]%lookup_insert_Some; [done|by right].
    - intros [_ Hx]%lookup_delete_Some. by right.
    - intros [_ Hx]%lookup_delete_Some. by right. }
  destruct (Hcase b m Hr Hm) as [(Hk & Ho & Hro)|[Hx Hn]], (Hcase b' m' Hr' Hm') as [(Hk' & Ho' & Hro')|[Hx' Hn']].
  - congruence.
  - exfalso. apply Hn'; [done..|]. by rewrite <- Hk.
  - exfalso. apply Hn; [done..|]. by rewrite <- Hk'.
  - apply (Hone p e u); [by exists m|by exists m'].
Qed.

Lemma mapping_event_kind role operation cur moves kind :
  mapping_event role operation cur moves = Some kind -> kind <> create_event /\ kind <> delete_event.
Proof. unfold mapping_event. destruct operation, role, moves; case_bool_decide; by intros [= <-]. Qed.

Lemma assigned_one_keeps principal c now t fields s ref s' b :
  StoreOK s -> find_branch (st_branches s) principal (ab_branch c) = Some b ->
  assigned_one principal c now t fields s ref s' -> StoreOK s'.
Proof.
  intros [Hrec Hbr [Hm Hp] Hre] Hb Ha. pose proof (assigned_one_reals _ _ _ _ _ _ _ _ Ha Hre) as Hre'.
  destruct Ha as [_ Ha]. cbv zeta in Ha. destruct (mapping_event _ _ _ _) as [kind|] eqn:Ek; [|by destruct Ha as [_ ->]].
  apply mapping_event_kind in Ek as [Hk Hk'].
  destruct Ha as (_ & tb & old & Ht & Hrow & Hown & Hver & _ & Hs'). cbv zeta in Hs'.
  set (new := set_version (bt_version t + 1) now old) in *.
  assert (st_tables s' = st_tables (put_row (bt_entity t) (bt_record t) new s)) as Htab by (by rewrite Hs').
  pose proof (put_keeps s s' (bt_entity t) tb (bt_record t) old new Ht Hrow eq_refl Htab) as Hkeep.
  split; [|destruct Hbr; rewrite Hs'; by split| |done].
  - eapply (records_next s s' (bt_entity t) tb (bt_record t) old new);
      [done|done|done|done|done|rewrite Hs'; reflexivity|..]; cbn; try done; congruence.
  - split.
    + intros p e u x m. rewrite Hs'. cbn [st_members with_history put_row with_tables with_members st_branches].
      intros [[= -> -> -> ->]|Hx]%mapped_lookup.
      * rewrite <- Hs'. split; [|by eexists]. apply Hkeep. exists old. by eapply find_row_table.
      * destruct (Hm p e u x m Hx) as [Hr Hbx]. split; [|done]. rewrite <- Hs'. by apply Hkeep.
    + intros p e u x y. unfold primary_member. rewrite Hs'. cbn [st_members with_history put_row with_tables with_members].
      apply mapped_primary. exact Hp.
Qed.

Lemma assigned_keeps principal c now ts s refs s' b :
  StoreOK s -> find_branch (st_branches s) principal (ab_branch c) = Some b ->
  assigned principal c now ts s refs s' -> StoreOK s'.
Proof.
  intros Hs Hb Ha. induction Ha as [|t fields ts s ref s1 refs s2 Hone _ IH]; [done|].
  apply IH; [by eapply assigned_one_keeps|]. by destruct (assigned_one_steady _ _ _ _ _ _ _ _ Hone) as [-> _].
Qed.

(** ** Every command *)
Lemma plan_effect {A} principal via sp (k : store_command A) pl a s r s' :
  plan_of principal via sp k = Planned pl -> well_typed k -> Sane a -> StoreOK s ->
  pl_operation pl a s = (Ok (Success r), s') -> StoreOK s'.
Proof.
  intros Hpl Hk Ha Hs Hr.
  pose proof (jn_good _ _ _ _ _ (command_contract _ _ _ _ _ Hpl Hk) a s r s' Ha (so_reals _ Hs) Hr) as Hre.
  destruct k; cbn [plan_of well_typed] in Hpl, Hk.
  - unfold create_record in Hpl. repeat case_match; try done. injection Hpl as <-. cbn [pl_operation] in Hr.
    apply create_returns in Hr as [_ [[-> _]|[_ Hc]]]; [done|]. by eapply created_keeps.
  - unfold update_record in Hpl. repeat case_match; try done. injection Hpl as <-. cbn [pl_operation] in Hr.
    apply update_returns in Hr as [_ [[-> _]|[_ Hc]]]; [done|by eapply updated_keeps|apply Hk].
  - unfold delete_record in Hpl. repeat case_match; try done. injection Hpl as <-. cbn [pl_operation] in Hr.
    apply delete_returns in Hr as [_ [[-> _]|[_ Hc]]]; [done|]. by eapply deleted_keeps.
  - unfold create_branch in Hpl. repeat case_match; try done. injection Hpl as <-. cbn [pl_operation] in Hr.
    apply create_branch_returns in Hr as (_ & fp & _ & [[-> _]|[_ Hc]]); [done|]. by eapply branch_created_keeps.
  - unfold update_branch in Hpl. repeat case_match; try done. injection Hpl as <-. cbn [pl_operation] in Hr.
    apply update_branch_returns in Hr as (_ & _ & fp & _ & [[-> _]|[_ Hc]]); [done|]. by eapply branch_updated_keeps.
  - unfold assign_branch_records in Hpl. repeat case_match; try done. injection Hpl as <-. cbn [pl_operation] in Hr.
    apply assign_records_returns in Hr as (_ & _ & fp & _ & [[-> _]|[_ Hc]]); [done| |done].
    destruct Hc as (now & b & fields & refs & s1 & _ & Hb & _ & _ & Has & _ & _ & ->).
    apply logged_keeps. by eapply assigned_keeps.
Qed.
End keeps.

(** ** Other clients: any attempts at any commands *)
Section clients.
Context `{FloatRead} `{IsoDates}.

(** One attempt at one command, however it ends. *)
Definition store_step (s s' : store) : Prop :=
  exists A principal via sp (k : store_command A) pl a r,
    plan_of principal via sp k = Planned pl /\ well_typed k /\ Sane a
    /\ mutate_once a (pl_specification pl) (pl_operation pl a) s = (r, s').
Definition commands : relation store := rtc store_step.

#[export] Instance commands_order : PreOrder commands.
Proof. unfold commands. split; [by intros s|intros s1 s2 s3; by etrans]. Qed.

Lemma step_cases s s' :
  store_step s s' ->
  s' = s \/ exists A principal via sp (k : store_command A) pl a x,
    plan_of principal via sp k = Planned pl /\ well_typed k /\ Sane a /\ pl_operation pl a s = (Ok (Success x), s').
Proof.
  intros (A & principal & via & sp & k & pl & a & r & Hpl & Hk & Ha & Hm). unfold mutate_once in Hm.
  destruct (prepared _ _ _) as [[]|e]; [|injection Hm as _ <-; by left..].
  destruct (pl_operation pl a s) as [[[x|c]|e] s1] eqn:Hop; [|injection Hm as _ <-; by left..].
  destruct (at_commit a); injection Hm as _ <-; [|by left|]; right; by exists A, principal, via, sp, k, pl, a, x.
Qed.

(** A success writes an entry where there is none. *)
Definition ledger_grows (s s' : store) : Prop :=
  forall key m, st_mutations s !! key = Some m -> st_mutations s' !! key = Some m.

Lemma grows_refl s : ledger_grows s s.
Proof. by intros key m. Qed.
#[local] Hint Resolve grows_refl : core.

Lemma grows_journal s s0 key m h : st_mutations s !! key = None -> st_mutations s0 = st_mutations s -> ledger_grows s (journal key m h s0).
Proof.
  intros Hn Heq j n Hj. unfold journal, with_mutations, with_history. cbn [st_mutations]. rewrite Heq, lookup_insert_ne; congruence.
Qed.

Lemma grows_logged s s0 principal key kind fp result now :
  st_mutations s !! (principal, key) = None -> st_mutations s0 = st_mutations s ->
  ledger_grows s (logged principal key kind fp result now s0).
Proof. intros Hn Heq j n Hj. unfold logged, with_mutations. cbn [st_mutations]. rewrite Heq, lookup_insert_ne; congruence. Qed.

Lemma plan_ledger {A} principal via sp (k : store_command A) pl a s r s' :
  plan_of principal via sp k = Planned pl -> well_typed k -> Sane a ->
  pl_operation pl a s = (Ok (Success r), s') -> ledger_grows s s'.
Proof.
  intros Hpl Hk Ha Hr. destruct k; cbn [plan_of well_typed] in Hpl, Hk.
  - unfold create_record in Hpl. repeat case_match; try done. injection Hpl as <-. cbn [pl_operation] in Hr.
    apply create_returns in Hr as [_ [[-> _]|[Hn (now & id & v & columns & e & t & Hc)]]]; [done|].
    destruct Hc as (_ & _ & _ & _ & _ & _ & _ & _ & _ & _ & (_ & _ & ->) & _). by apply grows_journal.
  - unfold update_record in Hpl. repeat case_match; try done. injection Hpl as <-. cbn [pl_operation] in Hr.
    apply update_returns in Hr as [_ [[-> _]|[Hn (now & old & before & given & fields & columns & e & t & Hc)]]];
      [done| |apply Hk].
    destruct Hc as (_ & _ & _ & _ & _ & _ & _ & _ & _ & _ & _ & _ & _ & _ & (_ & _ & _ & -> & _)). by apply grows_journal.
  - unfold delete_record in Hpl. repeat case_match; try done. injection Hpl as <-. cbn [pl_operation] in Hr.
    apply delete_returns in Hr as [_ [[-> _]|[Hn (now & old & before & t & Hc)]]]; [done|].
    destruct Hc as (_ & _ & _ & _ & _ & _ & _ & (_ & _ & _ & ->) & _). by apply grows_journal.
  - unfold create_branch in Hpl. repeat case_match; try done. injection Hpl as <-. cbn [pl_operation] in Hr.
    apply create_branch_returns in Hr as (_ & fp & _ & [[-> _]|[Hn (now & id & Hc)]]); [done|].
    destruct Hc as (_ & _ & _ & _ & _ & _ & -> & _). by apply grows_logged.
  - unfold update_branch in Hpl. repeat case_match; try done. injection Hpl as <-. cbn [pl_operation] in Hr.
    apply update_branch_returns in Hr as (_ & _ & fp & _ & [[-> _]|[Hn Hc]]); [done|].
    destruct Hc as (now & b & current & parent & candidate & _ & _ & _ & _ & _ & _ & _ & (_ & _ & Hs)).
    case_bool_decide; [subst; by apply grows_logged|]. destruct Hs as (old & _ & _ & ->). by apply grows_logged.
  - unfold assign_branch_records in Hpl. repeat case_match; try done. injection Hpl as <-. cbn [pl_operation] in Hr.
    apply assign_records_returns in Hr as (_ & _ & fp & _ & [[-> _]|[Hn Hc]]); [done| |done].
    destruct Hc as (now & b & fields & refs & s1 & _ & _ & _ & _ & Has & _ & _ & ->). apply grows_logged; [done|].
    by eapply assigned_steady.
Qed.

(** What every attempt keeps. *)
Lemma commands_reals s s' : commands s s' -> reals_ok s -> reals_ok s'.
Proof.
  induction 1 as [|s1 s2 s3 Hs _ IH]; [done|]. intros Hr. apply IH.
  apply step_cases in Hs as [->|(A & p & via & sp & k & pl & a & x & Hpl & Hk & Ha & Hop)]; [done|].
  exact (jn_good _ _ _ _ _ (command_contract _ _ _ _ _ Hpl Hk) a s1 x s2 Ha Hr Hop).
Qed.

Lemma commands_entries s s' : commands s s' -> ledger_grows s s'.
Proof.
  induction 1 as [|s1 s2 s3 Hs _ IH]; [done|]. intros key m Hm. apply IH.
  apply step_cases in Hs as [->|(A & p & via & sp & k & pl & a & x & Hpl & Hk & Ha & Hop)]; [done|].
  exact (plan_ledger _ _ _ _ _ _ _ _ _ Hpl Hk Ha Hop key m Hm).
Qed.
End clients.

(** ** What a record command wrote is what the next read returns *)

Section readback.
Context `{FloatRead} `{IsoDates}.

(** Decoding a row reads its creation time as text. *)
Lemma decode_set_row sp principal entity id old before after columns :
  decode_record sp principal entity id old = Ok before ->
  rv_created_at after = rv_created_at before -> rv_created_via after = rv_created_via before ->
  decode_record sp principal entity (rv_id after) (set_row after columns old)
  = decode_record sp principal entity (rv_id after) (row_of principal after columns).
Proof.
  intros Hd Hcr Hvia.
  apply decode_record_inv in Hd as (e & raw & checked & _ & Hown & _ & _ & _ & _ & _ & _ & Hc & _ & Hv & _).
  unfold decode_record. cbn [r_owner_id r_record_version r_created_at r_updated_at r_created_via set_row row_of].
  rewrite Hown, Hc, Hv, Hcr, Hvia, (read_time_again _ _ Hc). reflexivity.
Qed.

(** A record that is read where it was written. *)
Lemma select_written principal sp entity id s r v tb :
  unicode principal = true -> st_tables s !! entity = Some tb -> find_row s principal entity id = Some r ->
  decode_record sp principal entity id r = Ok v ->
  select_record principal sp entity id s = (Ok (Some v), s).
Proof.
  intros Hu Ht Hr Hd. unfold select_record, bind_texts. cbn [forallb]. rewrite Hu. cbn [andb negb].
  rewrite raise_when_bind. unfold the_table. rewrite bind_nested, reading_bind, Ht.
  erewrite bind_run by done. rewrite reading_bind, Hr. cbn [run_result]. rewrite Hd. done.
Qed.

Lemma select_absent principal sp entity id s tb :
  unicode principal = true -> st_tables s !! entity = Some tb -> find_row s principal entity id = None ->
  select_record principal sp entity id s = (Ok None, s).
Proof.
  intros Hu Ht Hr. unfold select_record, bind_texts. cbn [forallb]. rewrite Hu. cbn [andb negb].
  rewrite raise_when_bind. unfold the_table. rewrite bind_nested, reading_bind, Ht.
  erewrite bind_run by done. by rewrite reading_bind, Hr.
Qed.

Lemma put_table s e tb u new : st_tables s !! e = Some tb -> is_Some (st_tables (put_row e u new s) !! e).
Proof. intros Ht. unfold put_row, with_tables. cbn [st_tables]. rewrite lookup_alter_eq, Ht. by eexists. Qed.

(** What a read of the record finds after the command. *)
Definition found_after (principal : pystr) (sp : RecordSpecification) {A} (k : store_command A) (r : A) (s : store) : Prop :=
  match k in store_command A return A -> Prop with
  | CreateRecord c => fun r => exists v, rm_record r = Some v /\ rv_version v = 1
      /\ select_record principal sp (cr_entity c) (rv_id v) s = (Ok (Some v), s)
  | UpdateRecord c => fun r => exists v, rm_record r = Some v /\ rv_version v = ur_version c + 1
      /\ rv_id v = ur_record c /\ select_record principal sp (ur_entity c) (ur_record c) s = (Ok (Some v), s)
  | DeleteRecord c => fun r => do_version r = dr_version c + 1 /\ do_id r = dr_record c
      /\ select_record principal sp (dr_entity c) (dr_record c) s = (Ok None, s)
  | _ => fun _ => True
  end r.

Lemma created_found a principal via sp c record fp s r s' :
  Sane a -> SpecOK sp -> unicode principal = true ->
  (exists e, spec_entity sp (cr_entity c) = Some e /\ NormalRecord sp e record) ->
  created a principal via sp c record fp s r s' -> found_after principal sp (CreateRecord c) r s'.
Proof.
  intros Ha Hsp Hu (e0 & He0 & Hn) (now & id & v & columns & e & t & Hnow & Hid & Hid0 & -> & Hmk & _ & He & Hcol & Ht & _ & Hj & ->).
  cbv zeta in Hj. destruct Hj as (_ & _ & ->). eexists. split; [reflexivity|]. split; [done|].
  cbn [rv_id new_record]. destruct (put_table s (cr_entity c) t id (row_of principal (new_record c via id now record) columns) Ht)
    as [tb Htb]. eapply select_written; [done|exact Htb| |].
  - transitivity (find_row (put_row (cr_entity c) id (row_of principal (new_record c via id now record) columns) s)
      principal (cr_entity c) id); [done|].
    rewrite (find_row_put _ _ _ _ _ _ _ _ Ht), bool_decide_true by done. cbn [r_owner_id row_of]. by rewrite bool_decide_true.
  - apply (decode_row sp principal (new_record c via id now record)); [done|by apply (new_record_ok sp a via c id now record e0)|].
    intros e1 He1. cbn [rv_entity rv_fields new_record] in *. congruence.
Qed.

Lemma updated_found a principal sp c updates fp s r s' :
  Sane a -> SpecOK sp -> reals_ok s -> unicode principal = true -> (ur_record c < 2 ^ 128)%N ->
  ur_version c < MAX_REVISION -> floats_valid (JObj updates) = true ->
  updated a principal sp c updates fp s r s' -> found_after principal sp (UpdateRecord c) r s'.
Proof.
  intros Ha Hsp Hre Hu Hsmall Hmax Hfl (now & old & before & given & fields & columns & e & t & Hold & Hdec & Hver & Hgiven & Hfields
    & _ & Hnow & Hmk & He & Hcol & Ht & Hrow & Hown & Hrv & Hj).
  cbv zeta in Hj. destruct Hj as (_ & _ & _ & -> & ->).
  destruct (update_normal _ _ _ _ _ _ _ _ _ _ Hsp Hre Hfl Hold Hdec Hgiven Hfields) as (Hok & Hent & e' & He' & Hn).
  pose proof (decode_record_inv _ _ _ _ _ _ Hdec) as (? & ? & ? & _ & _ & Hid & _).
  apply read_id_small in Hid as [_ Hid]. rewrite N.mod_small in Hid by done.
  eexists. split; [reflexivity|]. cbn [rv_version rv_id updated_record]. split; [lia|]. split; [done|].
  set (after := updated_record before now fields). set (new := set_row after columns old).
  rewrite Hent, Hid in *. destruct (put_table s (ur_entity c) t (ur_record c) new Ht) as [tb Htb].
  eapply select_written; [done|exact Htb| |].
  - transitivity (find_row (put_row (ur_entity c) (ur_record c) new s) principal (ur_entity c) (ur_record c)); [done|].
    rewrite (find_row_put _ _ _ _ _ _ _ _ Ht), bool_decide_true by done. cbn [r_owner_id new set_row].
    rewrite Hown. by rewrite bool_decide_true.
  - assert (rv_id after = ur_record c) as Hida by done. rewrite <- Hida. unfold new.
    erewrite decode_set_row by done. assert (rv_entity after = ur_entity c) as Henta by done. rewrite <- Henta.
    apply decode_row; [done| |].
    + eapply updated_record_ok; [done|done|done|lia|by rewrite Hent|done|done].
    + intros e1 He1. rewrite Henta in He1. cbn [rv_fields after updated_record]. congruence.
Qed.

Lemma deleted_found a principal sp c fp s r s' :
  unicode principal = true -> deleted a principal sp c fp s r s' -> found_after principal sp (DeleteRecord c) r s'.
Proof.
  intros Hu (now & old & before & t & Hold & Hdec & Hver & _ & _ & Ht & Hrow & Hj & ->).
  cbv zeta in Hj. destruct Hj as (_ & _ & _ & ->). cbn [found_after do_version do_id]. split; [lia|]. split; [done|].
  match goal with |- select_record _ _ _ _ ?s' = _ => set (s1 := s') end.
  assert (exists tb, st_tables s1 !! dr_entity c = Some tb) as [tb Htb].
  { unfold s1, journal, drop_row, with_mutations, with_history, with_tables, with_members. cbn [st_tables].
    rewrite lookup_alter_eq, Ht. by eexists. }
  eapply select_absent; [done|exact Htb|].
  match goal with s1 := journal _ _ _ (drop_row ?e ?u ?s0) |- _ =>
    transitivity (find_row (drop_row e u s0) principal e u); [done|] end.
  rewrite (find_row_drop _ _ t) by done. by rewrite bool_decide_true.
Qed.
End readback.
