(* ===== verification/RecordSamples.v ===== *)
(** * RecordSamples: a concrete service store

    The shop of [Samples] as a service store: its specification, its empty
    tables, an attempt whose calls succeed, and one command of each kind. *)
From S2P Require Export StoreCommands.
From S2P Require Import Prelude Values Json JsonText Sha256 Manifest Samples.

#[local] Existing Instances datum_float_repr datum_float_read shape_dates.

Definition shop_spec : RecordSpecification := record_specification_of shop_v1.

Definition column_of (f : RecordField) : column_info :=
  {| ci_name := fd_name f; ci_type := type_name (fd_type f); ci_notnull := fd_required f; ci_default := None;
     ci_pk := Z.b2z (fd_primary_key f); ci_hidden := 0 |}.

Definition keys_of (sp : RecordSpecification) (entity : pystr) : list foreign_key :=
  map (fun r => {| fk_table := rl_target_entity r; fk_from := rl_source_field r; fk_to := rl_target_field r;
                   fk_on_update := lit "RESTRICT"; fk_on_delete := lit "RESTRICT"; fk_match := lit "NONE" |})
    (List.filter (fun r => bool_decide (rl_source_entity r = entity)) (sp_relationships sp)).

(** The empty table of an entity. *)
Definition empty_table (sp : RecordSpecification) (e : RecordEntity) : table :=
  {| t_columns := map column_of (re_fields e); t_foreign_keys := keys_of sp (re_name e); t_unique := []; t_rows := ∅ |}.

Definition empty_store (sp : RecordSpecification) : store :=
  {| st_tables := list_to_map (map (fun e => (re_name e, empty_table sp e)) (sp_entities sp));
     st_mutations := ∅; st_history := []; st_branches := ∅; st_members := ∅ |}.

Definition noon : datetime :=
  {| dt_year := 2025; dt_month := 6; dt_day := 1; dt_hour := 12; dt_minute := 0; dt_second := 0; dt_microsecond := 0 |}.

Definition fair_attempt (record branch : UUID) (commit : commit_outcome) : attempt :=
  {| at_inspect := Ok Ready; at_migrate := Ok Ready; at_open := Ok tt; at_ready := Ok tt; at_now := Ok noon;
     at_record_id := Ok record; at_branch_id := Ok branch; at_commit := commit |}.

Lemma fair_sane record branch commit :
  (record < 2 ^ 128)%N -> (branch < 2 ^ 128)%N -> Sane (fair_attempt record branch commit).
Proof. intros Hr Hb. split; cbn; [by intros t [= <-]|by intros u [= <-]|by intros u [= <-]]. Qed.

Lemma empty_reals sp : reals_ok (empty_store sp).
Proof.
  intros entity id r. unfold table_rows, empty_store. cbn [st_tables].
  destruct (list_to_map _ !! entity) as [t|] eqn:E; [|by rewrite lookup_empty].
  apply elem_of_list_to_map_2, elem_of_map in E as (e & [= -> ->] & _). cbn [t_rows empty_table]. by rewrite lookup_empty.
Qed.

Definition owner : pystr := lit "alice".
Definition agent : pystr := lit "agent".

Definition new_customer : CreateRecordCommand :=
  {| cr_entity := lit "customer"; cr_record := [(lit "name", jstr (lit "Ada"))]; cr_key := lit "k1" |}.
Definition renamed_customer : UpdateRecordCommand :=
  {| ur_entity := lit "customer"; ur_record := 7%N; ur_updates := [(lit "name", jstr (lit "Grace"))];
     ur_version := 1; ur_key := lit "k2" |}.
Definition gone_customer : DeleteRecordCommand :=
  {| dr_entity := lit "customer"; dr_record := 7%N; dr_version := 2; dr_key := lit "k3" |}.

(** What an attempt at a command leaves. *)
Definition attempted_on {A} (k : store_command A) (a : attempt) (s : store) : option (attempted A * store) :=
  match plan_of owner agent shop_spec k with
  | Planned pl => Some (mutate_once a (pl_specification pl) (pl_operation pl a) s)
  | _ => None
  end.

Definition is_success {A} (r : option (attempted A * store)) : bool :=
  match r with Some (Settled (Success _), _) => true | _ => false end.
Definition store_after {A} (r : option (attempted A * store)) : store :=
  match r with Some (_, s) => s | None => empty_store shop_spec end.

Definition shop_store : store := empty_store shop_spec.
Definition with_customer := attempted_on (CreateRecord new_customer) (fair_attempt 7%N 1%N Committed) shop_store.
Definition with_renamed := attempted_on (UpdateRecord renamed_customer) (fair_attempt 8%N 1%N Committed) (store_after with_customer).
Definition with_gone := attempted_on (DeleteRecord gone_customer) (fair_attempt 9%N 1%N Committed) (store_after with_renamed).

Example shop_ready : domain_ready shop_spec shop_store = true.
Proof. by vm_compute. Qed.
Example records_come_and_go : is_success with_customer && is_success with_renamed && is_success with_gone = true.
Proof. by vm_compute. Qed.
