(* ===== verification/StoreTheorems.v ===== *)
(** * StoreTheorems: the properties of a service store

    The main property of the data store, for every command, every outcome of
    the commits and any other clients that leave the command's ledger entry
    alone; the invariant of every reachable store; what a read finds after a
    write; the cycle check and the effect of an assignment. *)
From S2P Require Export RecordSamples StoreKeeps.
From S2P Require Import Prelude Values Json JsonText Sha256 Manifest Samples.

(** C4: However the attempts and observations of [_mutate] are answered, with
    commits lost or made durable without an answer, a command on records,
    branches or assignments takes effect at most once: the operation runs where
    the ledger has no entry under its key, and leaves one.  A success is either
    evidence that was found, or the result of the one time the operation ran; a
    definite failure means that it never took effect; and only
    [operation_uncertain] leaves that open.  Other clients may write in between,
    the same command under the same key included, as long as they keep numbers
    finite and the entries of the ledger as they are: what every client that
    attempts commands does ([commands_reals], [commands_entries]). *)
Theorem mutation_applied_once `{FloatRead} `{IsoDates} {A : Type} (principal via : pystr) (sp : RecordSpecification)
    (k : store_command A) (pl : mutation_plan A) (others : relation store) (s : store) :
  plan_of principal via sp k = Planned pl -> well_typed k ->
  PreOrder others -> (forall s s', others s s' -> reals_ok s -> reals_ok s') ->
  (forall s s' m, others s s' -> st_mutations s !! (principal, key_of k) = Some m ->
     st_mutations s' !! (principal, key_of k) = Some m) ->
  reals_ok s ->
  leads (serves Sane pl others) mutate s (mutated Sane pl (principal, key_of k) (mark_of k) others s).
Proof.
  intros Hpl Hk Ho Hg Hkey Hs. eapply mutate_once_only; [done|exact Hg|exact Hkey| |exact Hs].
  by eapply command_contract.
Qed.

#[local] Existing Instances datum_float_repr datum_float_read shape_dates.

Definition is_planned {A} (p : planned A) : bool := match p with Planned _ => true | _ => false end.

Definition shop_plan : planned RecordMutationOutcome :=
  @plan_of datum_float_repr datum_float_read shape_dates _ owner agent shop_spec (CreateRecord new_customer).

Lemma shop_planned : is_planned shop_plan = true.
Proof. by vm_compute. Qed.

Lemma mutation_applied_once_witness :
  exists pl, shop_plan = Planned pl
    /\ leads (serves Sane pl commands) mutate shop_store
         (mutated Sane pl (owner, lit "k1") (mark_of (CreateRecord new_customer)) commands shop_store).
Proof.
  pose proof shop_planned as Hp. destruct shop_plan as [c|pl|] eqn:E; [discriminate Hp| |discriminate Hp].
  exists pl. split; [reflexivity|].
  apply (@mutation_applied_once datum_float_repr datum_float_read shape_dates _ owner agent shop_spec
    (CreateRecord new_customer) pl commands shop_store E);
    [vm_compute; reflexivity|typeclasses eauto|exact commands_reals|
     intros s s' m Hc; exact (commands_entries s s' Hc _ m)|apply empty_reals].
Defined.

(** ** The invariant of a store *)

(** A materialised store without records. *)
Definition fresh (s : store) : Prop :=
  (forall e tb, st_tables s !! e = Some tb -> t_rows tb = ∅)
  /\ st_history s = [] /\ st_branches s = ∅ /\ st_members s = ∅.

Lemma fresh_ok `{IsoDates} s : fresh s -> StoreOK s.
Proof.
  intros (Hrows & Hh & Hb & Hm).
  assert (forall e, table_rows s e = ∅) as Hempty.
  { intros e. unfold table_rows. destruct (st_tables s !! e) as [tb|] eqn:E; [by apply (Hrows e)|done]. }
  assert (forall p e u, find_row s p e u = None) as Hnone by (intros; unfold find_row; by rewrite Hempty, lookup_empty).
  split.
  - split; [|rewrite Hh; constructor]. intros p e u. unfold events. rewrite Hh, Hnone. by split.
  - rewrite ?Hb. split; [intros id b|intros id id' b b']; rewrite Hb, lookup_empty; done.
  - split; [intros p e u b m|intros p e u b b' (m & Hk & _)]; [rewrite Hm, lookup_empty; done|].
    by rewrite Hm, lookup_empty in Hk.
  - intros e u r. by rewrite Hempty, lookup_empty.
Qed.

Lemma step_keeps `{FloatRead} `{IsoDates} s s' : store_step s s' -> StoreOK s -> StoreOK s'.
Proof.
  intros (A & principal & via & sp & k & pl & a & r & Hpl & Hk & Ha & Hm) Hs. unfold mutate_once in Hm.
  destruct (prepared _ _ _) as [[]|e]; [|by injection Hm as _ <-..].
  destruct (pl_operation pl a s) as [[[x|c]|e] s1] eqn:Hop; [|by injection Hm as _ <-..].
  destruct (at_commit a); injection Hm as _ <-; [|done|]; by eapply plan_effect.
Qed.

(** C5: Every state of a service store that commands on records, branches and
    assignments lead to, from an empty one and whatever happens to their
    commits, is consistent: the history of each record is the chain of its
    versions from its creation to its row or its deletion, in the order of its
    sequence numbers; parents of branches form a forest; slugs are unique; every
    membership joins a record and a branch of one owner; and a record has at
    most one primary branch. *)
Theorem store_invariant `{FloatRead} `{IsoDates} (s0 s : store) : fresh s0 -> rtc store_step s0 s -> StoreOK s.
Proof.
  intros Hf%fresh_ok Hr. induction Hr as [s|s s1 s2 Hstep _ IH]; [done|]. by eapply IH, step_keeps.
Qed.

Lemma shop_fresh : fresh shop_store.
Proof.
  split; [|done]. intros e tb Ht. unfold shop_store, empty_store in Ht. cbn [st_tables] in Ht.
  by apply elem_of_list_to_map_2, elem_of_map in Ht as (x & [= _ ->] & _).
Qed.

Lemma attempted_step {A} (k : store_command A) a s :
  well_typed k -> Sane a -> is_success (attempted_on k a s) = true -> store_step s (store_after (attempted_on k a s)).
Proof.
  unfold attempted_on. intros Hk Ha Hs. destruct (plan_of owner agent shop_spec k) as [c|pl|] eqn:E; [done| |done].
  destruct (mutate_once _ _ _ s) as [r s'] eqn:Em. cbn [store_after].
  exists A, owner, agent, shop_spec, k, pl, a, r. by split_and!.
Qed.

Lemma customer_step : store_step shop_store (store_after with_customer).
Proof.
  assert (is_success with_customer = true) as Hs by (by vm_compute). revert Hs. unfold with_customer.
  apply (attempted_step (CreateRecord new_customer)); [by vm_compute|by apply fair_sane].
Qed.

Lemma renamed_step : store_step (store_after with_customer) (store_after with_renamed).
Proof.
  assert (is_success with_renamed = true) as Hs by (by vm_compute). revert Hs. unfold with_renamed.
  apply (attempted_step (UpdateRecord renamed_customer)); [by vm_compute|by apply fair_sane].
Qed.

Lemma gone_step : store_step (store_after with_renamed) (store_after with_gone).
Proof.
  assert (is_success with_gone = true) as Hs by (by vm_compute). revert Hs. unfold with_gone.
  apply (attempted_step (DeleteRecord gone_customer)); [by vm_compute|by apply fair_sane].
Qed.

Lemma gone_reached : rtc store_step shop_store (store_after with_gone).
Proof. eapply rtc_l; [apply customer_step|]. eapply rtc_l; [apply renamed_step|]. apply rtc_once, gone_step. Qed.

Lemma store_invariant_witness : rtc store_step shop_store (store_after with_gone) /\ StoreOK (store_after with_gone).
Proof. split; [exact gone_reached|]. exact (store_invariant _ _ shop_fresh gone_reached). Defined.

(** C6: What a command on a record wrote is what the next read of the record
    returns: after a creation or an update that was not a replay, exactly the
    value in the result, at version one or at the version after the expected
    one; after a deletion, nothing. *)
Theorem write_read_back `{FloatRead} `{IsoDates} {A : Type} (principal via : pystr) (sp : RecordSpecification)
    (k : store_command A) (pl : mutation_plan A) (a : attempt) (s : store) (r : A) (s' : store) :
  plan_of principal via sp k = Planned pl -> well_typed k -> Sane a -> StoreOK s ->
  st_mutations s !! (principal, key_of k) = None -> pl_operation pl a s = (Ok (Success r), s') ->
  found_after principal sp k r s'.
Proof.
  intros Hpl Hk Ha Hs Hnone Hr. destruct k; cbn [plan_of well_typed key_of] in Hpl, Hk, Hnone; try done.
  - unfold create_record in Hpl. destruct (admitted principal via sp) as [checked|] eqn:Hadm; [|done].
    destruct (_ ≫= _) as [record|] eqn:Hrec; [|done]. destruct (fingerprint_of _); [|done]. injection Hpl as <-.
    apply admitted_spec in Hadm as (-> & Hsp & _). apply bind_Ok in Hrec as (given & Hg & Hn).
    apply create_returns in Hr as [[Hu _] [[_ (m & Hm & _)]|[_ Hc]]]; [congruence|].
    eapply created_found; [done|done|done| |done]. eapply given_normal; [done|done| |done]. intros j x. by apply floats_in.
  - unfold update_record in Hpl. destruct (admitted principal via sp) as [checked|] eqn:Hadm; [|done].
    destruct (Z.leb_spec MAX_REVISION (ur_version c)); [done|].
    destruct (validate_updates _ _ _) as [updates|] eqn:Hup; [|done]. destruct (fingerprint_of _); [|done].
    injection Hpl as <-. apply admitted_spec in Hadm as (-> & Hsp & _). destruct Hk as [Hfl Hid].
    apply update_returns in Hr as [[Hu _] [[_ (m & Hm & _)]|[_ Hc]]]; [congruence| |done].
    eapply updated_found; [done|done|by apply Hs|done|done|done| |done].
    eapply accepted_floats; [exact Hup|]. intros j x. by apply floats_in.
  - unfold delete_record in Hpl. destruct (admitted principal via sp) as [checked|] eqn:Hadm; [|done].
    destruct (MAX_REVISION <=? dr_version c); [done|]. destruct (fingerprint_of _); [|done]. injection Hpl as <-.
    apply admitted_spec in Hadm as (-> & _).
    apply delete_returns in Hr as [[Hu _] [[_ (m & Hm & _)]|[_ Hc]]]; [congruence|]. by eapply deleted_found.
Qed.

Definition succeeded {A} (x : result fault (answer A) * store) : bool :=
  match x.1 with Ok (Success _) => true | _ => false end.

Lemma write_read_back_witness :
  exists pl r s', shop_plan = Planned pl
    /\ pl_operation pl (fair_attempt 7%N 1%N Committed) shop_store = (Ok (Success r), s')
    /\ found_after owner shop_spec (CreateRecord new_customer) r s'.
Proof.
  assert (match shop_plan with
          | Planned pl => succeeded (pl_operation pl (fair_attempt 7%N 1%N Committed) shop_store)
          | _ => false
          end = true) as Hok by (by vm_compute).
  destruct shop_plan as [c|pl|] eqn:E; [discriminate Hok| |discriminate Hok].
  destruct (pl_operation pl (fair_attempt 7%N 1%N Committed) shop_store) as [[[r|c]|e] s'] eqn:Hr;
    [|discriminate Hok..].
  exists pl, r, s'. split; [reflexivity|]. split; [exact Hr|].
  apply (@write_read_back datum_float_repr datum_float_read shape_dates _ owner agent shop_spec
    (CreateRecord new_customer) pl (fair_attempt 7%N 1%N Committed) shop_store r s' E);
    [vm_compute; reflexivity|by apply fair_sane|exact (fresh_ok _ shop_fresh)|reflexivity|exact Hr].
Defined.

(** ** Branches *)

(** C37: The cycle check of a branch update takes at most one step per branch and
    always answers; and in every reachable store it answers whether the branch
    is on the way up from the parent that is asked for. *)
Theorem parent_check_correct `{FloatRead} `{IsoDates} (s0 s : store) (principal : pystr) (start sought : UUID) :
  has_ancestor (ancestor_fuel (st_branches s)) (st_branches s) principal ∅ (Some start) sought <> None
  /\ (fresh s0 -> rtc store_step s0 s -> is_Some (find_branch (st_branches s) principal start) ->
      exists found, is_ancestor principal start sought s = (Ok found, s)
        /\ (found = true <-> rtc (ascends (st_branches s) principal) start sought)).
Proof.
  split; [apply has_ancestor_total; [set_solver|unfold ancestor_fuel; lia]|].
  intros Hf%fresh_ok Hr Hs. assert (StoreOK s) as Hok.
  { clear Hs. induction Hr as [x|x y z Hstep _ IH]; [done|]. by eapply IH, step_keeps. }
  destruct Hok as [_ [Hforest _] _ _]. apply is_ancestor_spec; [done|]. by apply forest_rooted.
Qed.

(** Assigning a record to a branch never meets a constraint of the table and
    touches no other record.  A primary assignment leaves that branch as the
    only primary one; a related one adds the branch where it was missing; and
    unassigning removes exactly the membership in the role that was named. *)
Theorem assignment_effect `{IsoDates} (principal entity : pystr) (branch record : UUID) (role : BranchRole)
    (operation : AssignmentOperation) (now : datetime) (s : store) :
  is_Some (st_branches s !! branch) -> stored_time now = true ->
  let role_at (st : store) (b : UUID) := m_role <$> st_members st !! (principal, entity, record, b) in
  exists event s', apply_mapping principal branch role operation entity record now s = (Ok event, s')
    /\ (event = None -> s' = s)
    /\ (forall k, k.1 <> (principal, entity, record) -> st_members s' !! k = st_members s !! k)
    /\ match operation, role with
       | Assign, Primary => forall b, role_at s' b =
           if bool_decide (b = branch) then Some Primary
           else if bool_decide (role_at s b = Some Primary /\ role_at s branch <> Some Primary) then None else role_at s b
       | Assign, Related => forall b, role_at s' b =
           if bool_decide (b = branch) then Some (default Related (role_at s b)) else role_at s b
       | Unassign, _ => forall b, role_at s' b =
           if bool_decide (b = branch /\ role_at s b = Some role) then None else role_at s b
       end.
Proof.
  intros Hb Ht. cbv zeta. set (k := (principal, entity, record, branch)).
  eexists _, _. split; [by apply apply_mapping_spec|]. fold k.
  destruct (mapping_event role operation _ _) as [event|] eqn:Ev.
  - rewrite bool_decide_false by done. split; [done|].
    split; [intros k' Hk'; by apply mapped_other|]. by eapply mapped_roles.
  - rewrite bool_decide_true by done. split; [done|]. split; [done|]. by eapply unmapped_roles.
Qed.

Definition new_plans : store_command BranchMutationOutcome :=
  CreateBranch {| cb_slug := lit "plans"; cb_title := lit "Plans"; cb_intent := lit "What is next"; cb_type := None;
                  cb_parent := None; cb_summary := None; cb_key := lit "b1" |}.

(** The store with a customer and a branch. *)
Definition branch_plan : attempted BranchMutationOutcome * store :=
  default (Uncertain, shop_store) (attempted_on new_plans (fair_attempt 7%N 5%N Committed) (store_after with_customer)).

Lemma branch_reached : rtc store_step shop_store branch_plan.2.
Proof.
  eapply rtc_l; [apply customer_step|]. apply rtc_once.
  assert (is_success (attempted_on new_plans (fair_attempt 7%N 5%N Committed) (store_after with_customer)) = true) as Hs
    by (by vm_compute).
  pose proof (attempted_step new_plans (fair_attempt 7%N 5%N Committed) (store_after with_customer)) as Hstep.
  unfold branch_plan. destruct (attempted_on new_plans _ _) as [[r s']|]; [|done]. apply Hstep; [done|by apply fair_sane|done].
Qed.

Lemma assignment_effect_witness :
  exists s', apply_mapping owner 5%N Primary Assign (lit "customer") 7%N noon branch_plan.2 = (Ok (Some primary_assign), s')
    /\ m_role <$> st_members s' !! (owner, lit "customer", 7%N, 5%N) = Some Primary.
Proof.
  assert (bool_decide (is_Some (st_branches branch_plan.2 !! 5%N)) = true) as Hb by (by vm_compute).
  apply bool_decide_eq_true in Hb.
  destruct (@assignment_effect shape_dates owner (lit "customer") 5%N 7%N Primary Assign noon branch_plan.2 Hb eq_refl)
    as (event & s' & Hrun & _ & _ & Hrole).
  exists s'. split; [|etrans; [apply (Hrole 5%N)|by rewrite bool_decide_true]].
  assert ((apply_mapping owner 5%N Primary Assign (lit "customer") 7%N noon branch_plan.2).1 = Ok (Some primary_assign))
    as He by (by vm_compute).
  rewrite Hrun in He |- *. cbn [fst] in He. congruence.
Defined.

Lemma parent_check_correct_witness :
  exists found, is_ancestor owner 5%N 6%N branch_plan.2 = (Ok found, branch_plan.2).
Proof.
  assert (bool_decide (is_Some (find_branch (st_branches branch_plan.2) owner 5%N)) = true) as Hb by (by vm_compute).
  apply bool_decide_eq_true in Hb.
  destruct (proj2 (@parent_check_correct datum_float_repr datum_float_read shape_dates shop_store branch_plan.2 owner 5%N 6%N)
    shop_fresh branch_reached Hb) as (found & Hrun & _).
  exists found. exact Hrun.
Defined.

(** ** Three behaviours of the data store worth knowing

    Evaluated on the shop: an assignment at an earlier time than the record's
    creation leaves a record that no longer reads; and a text that UTF-8 cannot
    encode escapes the contract error of the record values, and the
    [DataFailure] of a mutation. *)

#[local] Existing Instances datum_float_repr datum_float_read shape_dates.

(** A clock that went back. *)
Definition morning : datetime :=
  {| dt_year := 2025; dt_month := 6; dt_day := 1; dt_hour := 9; dt_minute := 0; dt_second := 0; dt_microsecond := 0 |}.

Definition morning_attempt : attempt :=
  {| at_inspect := Ok Ready; at_migrate := Ok Ready; at_open := Ok tt; at_ready := Ok tt; at_now := Ok morning;
     at_record_id := Ok 8%N; at_branch_id := Ok 6%N; at_commit := Committed |}.

Definition plan_customer : AssignBranchRecordsCommand :=
  {| ab_branch := 5%N; ab_role := Primary; ab_operation := Assign;
     ab_targets := [ {| bt_entity := lit "customer"; bt_record := 7%N; bt_version := 1 |} ]; ab_key := lit "a1" |}.

Definition assigned_early := attempted_on (AssignRecords plan_customer) morning_attempt branch_plan.2.

Definition read_customer (s : store) : answer RecordValue :=
  get_record (fair_attempt 7%N 5%N Committed) owner agent shop_spec {| gr_entity := lit "customer"; gr_record := 7%N |} s.

(** [assign_records] writes the current time into [updated_at] without the
    comparison with [created_at] that every read makes. *)
Example assignment_hides_record :
  is_success assigned_early = true /\ read_customer (store_after assigned_early) = Failure storage_unavailable.
Proof. by vm_compute. Qed.

(** [_validate_json] encodes before it compares: a lone surrogate raises
    [UnicodeEncodeError], which the callers of [from_mapping] do not expect. *)
Example surrogate_escapes : from_mapping [(lit "name", jstr [55296%N])] = Raise UnicodeEncodeError.
Proof. by vm_compute. Qed.

(** And [_fingerprint] of a [created_via] with one raises outside [_mutate]. *)
Example fingerprint_escapes :
  match create_record owner [55296%N] shop_spec new_customer with Escapes => true | _ => false end = true.
Proof. by vm_compute. Qed.
