(* ===== verification/Cursors.v ===== *)
(** * Cursors: page cursors bound to their query

    A cursor is the canonical JSON text of its kind, the identity of its query
    and a position, in URL-safe base 64.  [_cursor_position] reads back what
    [_encode_cursor] wrote for the same query and refuses everything else. *)
From S2P Require Import Relational.
From S2P Require Export Base64 Topology RecordValues.
From S2P Require Import Prelude Values Json JsonText Sha256 Manifest.

Section cursors.
Context `{FloatRead}.

Definition FilterMode_text (m : FilterMode) : pystr :=
  match m with Exact => lit "exact" | MembershipOf => lit "membership" | NoFilter => lit "none" end.

Definition role_json (role : option BranchRole) : json := joption (fun r => jstr (role_text r)) role.

(** [_query_identity]; [None] is the exception of a text that does not encode. *)
Definition query_payload (kind principal : pystr) (schema_version : Z) (entity_name : pystr) (branch : option UUID)
    (role : option BranchRole) (filters : list json) : json :=
  JObj [
    (lit "kind", jstr kind); (lit "principal_id", jstr principal); (lit "schema_version", jint schema_version);
    (lit "entity_name", jstr entity_name); (lit "branch_id", uuid_json branch); (lit "branch_role", role_json role);
    (lit "filters", JArr filters)].

Definition query_identity (kind principal : pystr) (schema_version : Z) (entity_name : pystr) (branch : option UUID)
    (role : option BranchRole) (filters : list json) : option pystr :=
  fingerprint_of (query_payload kind principal schema_version entity_name branch role filters).

(** ** Sealing *)
Definition cursor_json (kind identity key : pystr) (position : json) : json :=
  JObj [(lit "v", jint 1); (lit "kind", jstr kind); (lit "query", jstr identity); (key, position)].

Definition seal_cursor (kind identity key : pystr) (position : json) : recorded PageCursor :=
  bytes ← encode_utf8 (canonical_json (cursor_json kind identity key position));
  make_cursor {| cursor_value := b64_encode bytes |}.

(** [raw["v"] == 1]: [True] and [1.0] are equal to it. *)
Definition is_one (j : json) : bool := match j with JScalar v => scalar_eqb v (PyInt 1) | _ => false end.

(** What a cursor holds under its key, for a query of this kind and identity. *)
Definition open_cursor (strict : bool) (kind identity key : pystr) (c : PageCursor) : option json :=
  bytes ← b64_decode (cursor_value c);
  if strict && negb (bool_decide (b64_encode bytes = cursor_value c)) then None else
  text ← utf8_decode bytes;
  raw ← decode_canonical_json text;
  es ← exact_keys [lit "v"; lit "kind"; lit "query"; key] raw;
  v ← dict_get es (lit "v");
  k ← get_str es (lit "kind");
  q ← get_str es (lit "query");
  if is_one v && bool_decide (k = kind) && bool_decide (q = identity) then dict_get es key else None.

Definition POSITION : pystr := lit "position".
Definition INNER : pystr := lit "inner".

(** [_encode_cursor] with the id of a row, and with the sequence of an event. *)
Definition encode_cursor (kind identity : pystr) (id : UUID) : recorded PageCursor :=
  seal_cursor kind identity POSITION (jstr (uuid_str id)).
Definition encode_sequence_cursor (kind identity : pystr) (sequence : Z) : recorded PageCursor :=
  seal_cursor kind identity POSITION (jint sequence).

(** The id that is written canonically and is not zero. *)
Definition position_id (j : json) : option UUID :=
  s ← as_str j; u ← parse_uuid s; if bool_decide (uuid_str u = s) && negb (u =? 0)%N then Some u else None.

(** [_cursor_position] for [str] and for [int]; the error is a
    [RecordContractError]. *)
Definition cursor_position (kind identity : pystr) (c : option PageCursor) : option (option UUID) :=
  match c with
  | None => Some None
  | Some c => j ← open_cursor true kind identity POSITION c; u ← position_id j; Some (Some u)
  end.

Definition cursor_sequence (kind identity : pystr) (c : option PageCursor) : option (option Z) :=
  match c with
  | None => Some None
  | Some c => j ← open_cursor true kind identity POSITION c; z ← as_int j; if z <? 1 then None else Some (Some z)
  end.

(** [_cursor_position] of [topology.py] does not encode again. *)
Definition branch_position (identity : pystr) (c : option PageCursor) : option (option UUID) :=
  match c with
  | None => Some None
  | Some c => j ← open_cursor false (lit "branch") identity POSITION c; u ← position_id j; Some (Some u)
  end.

(** [_wrap_branch_cursor] and [_unwrap_branch_cursor]. *)
Definition wrap_branch_cursor (identity : pystr) (c : option PageCursor) : recorded (option PageCursor) :=
  match c with
  | None => Ok None
  | Some c => w ← seal_cursor (lit "branch_scope") identity INNER (jstr (cursor_value c)); Ok (Some w)
  end.

Definition unwrap_branch_cursor (identity : pystr) (c : option PageCursor) : option (option PageCursor) :=
  match c with
  | None => Some None
  | Some c =>
      j ← open_cursor true (lit "branch_scope") identity INNER c;
      s ← as_str j;
      inner ← ok_of (make_cursor {| cursor_value := s |});
      Some (Some inner)
  end.
End cursors.

(** ** Round trip *)

(** The texts of a cursor need no escapes. *)
Lemma url_safe_bounds c : url_safe c = true -> (45 <= c < 128)%N /\ c <> 92%N.
Proof.
  unfold url_safe, is_lower, is_digit. rewrite !orb_true_iff, !andb_true_iff, !N.leb_le, !N.eqb_eq. lia.
Qed.

Lemma escape_safe c : url_safe c = true -> escape_char c = [c].
Proof.
  intros Hc%url_safe_bounds. assert (short_escape c = None) as Hn.
  { unfold short_escape. repeat (case_match; [bools; lia|]). done. }
  unfold escape_char. rewrite Hn. by rewrite (proj2 (N.ltb_ge c 32)) by lia.
Qed.

Lemma quoted_safe s : forallb url_safe s = true -> quoted s = 34%N :: s ++ [34%N].
Proof.
  intros Hs. unfold quoted. do 2 f_equal. induction s as [|c s IH]; [done|].
  cbn [forallb] in Hs. apply andb_true_iff in Hs as [Hc Hs]. cbn [map concat]. by rewrite IH, escape_safe.
Qed.

Lemma safe_ascii s : forallb url_safe s = true -> ascii s = true.
Proof. apply ascii_weaken. intros c Hc%url_safe_bounds. lia. Qed.

Lemma ascii_cons c s : ascii (c :: s) = (c <? 128)%N && ascii s.
Proof. done. Qed.

Section roundtrip.
Context `{FloatRead}.

(** The position of a cursor: a text without escapes or a sequence number. *)
Definition plain_position (j : json) : Prop :=
  (exists s, j = jstr s /\ forallb url_safe s = true /\ (length s <= 512)%nat)
  \/ (exists z, j = jint z /\ 0 <= z < 2 ^ 63).

Lemma plain_position_text j :
  plain_position j -> readable j = true /\ sort_keys j = j /\ ascii (plain_text j) = true
  /\ (length (plain_text j) <= 514)%nat.
Proof.
  intros [(s & -> & Hs & Hl)|(z & -> & Hz)]; cbn [plain_text plain_scalar jstr jint].
  - rewrite quoted_safe by done. split_and!; [done|done| |cbn [length]; rewrite length_app; cbn; lia].
    change (ascii ([34%N] ++ s ++ [34%N]) = true).  by rewrite !ascii_app, (safe_ascii s).
  - cbn [scalar_text]. split_and!; [|done|apply ascii_number, dec_Z_number|].
    + cbn [readable is_signed_64_integer].
      apply andb_true_iff. rewrite !Z.leb_le. unfold SIGNED_64_MIN, SIGNED_64_MAX. lia.
    + unfold dec_Z. destruct (Z.ltb_spec z 0); [lia|]. unfold dec_N. etrans; [apply length_dec_digits|]. cbn [length].
      assert (N.size (Z.to_N z) <= 63)%N; [|lia]. destruct (decide (Z.to_N z = 0%N)) as [->|Hz0]; [done|].
      rewrite N.size_log2 by done. apply N.le_succ_l, N.log2_lt_pow2; [by apply N.neq_0_lt_0|].
      apply N2Z.inj_lt. rewrite Z2N.id by lia. by apply Hz.
Qed.

(** Kinds and identities. *)
Definition plain_words (kind identity : pystr) : Prop :=
  forallb url_safe kind = true /\ (length kind <= 16)%nat /\ forallb url_safe identity = true /\ length identity = 64%nat.

Lemma cursor_words_length :
  (length (quoted (lit "kind")) = 6 /\ length (quoted (lit "query")) = 7 /\ length (quoted (lit "v")) = 3)%nat
  /\ (length (quoted POSITION) <= 10 /\ length (quoted INNER) <= 10)%nat.
Proof. vm_compute. lia. Qed.

#[local] Ltac cursor_shape kind identity Ha :=
  cbn [plain_text map fst snd join_commas concat jstr jint plain_scalar];
  rewrite !(quoted_safe kind), !(quoted_safe identity) by done; (split_and!; [| |done..]);
  [ repeat rewrite ?ascii_app, ?ascii_cons; by rewrite Ha, (safe_ascii kind), (safe_ascii identity)
  | pose proof cursor_words_length; change (length (scalar_text (PyInt 1))) with 1%nat;
    repeat (rewrite length_app || cbn [length]); change (length (scalar_text (PyInt 1))) with 1%nat; lia ].

Lemma cursor_text_spec kind identity key position :
  plain_words kind identity -> (key = POSITION \/ key = INNER) -> plain_position position ->
  let t := canonical_json (cursor_json kind identity key position) in
  ascii t = true /\ (length t <= 136 + length (plain_text position))%nat /\ t <> []
  /\ decode_canonical_json t = Some (sort_keys (cursor_json kind identity key position)).
Proof.
  intros (Hk & Hkl & Hi & Hil) Hkey (Hr & Hs & Ha & Hl)%plain_position_text. cbv zeta.
  assert (decode_canonical_json (canonical_json (cursor_json kind identity key position))
    = Some (sort_keys (cursor_json kind identity key position))) as ->.
  { apply decode_canonical. destruct Hkey as [-> | ->]; cbn [cursor_json readable forallb snd]; by rewrite Hr. }
  unfold canonical_json.
  destruct Hkey as [-> | ->]; unfold cursor_json; cbn [sort_keys map fst snd jstr jint]; rewrite Hs.
  - change (sorted_by _ _ _) with [(lit "kind", jstr kind); (POSITION, position); (lit "query", jstr identity); (lit "v", jint 1)].
    cursor_shape kind identity Ha.
  - change (sorted_by _ _ _) with [(INNER, position); (lit "kind", jstr kind); (lit "query", jstr identity); (lit "v", jint 1)].
    cursor_shape kind identity Ha.
Qed.

Lemma cursor_entries kind identity key position :
  key = POSITION \/ key = INNER -> sort_keys position = position ->
  exists es, sort_keys (cursor_json kind identity key position) = JObj es
    /\ exact_keys [lit "v"; lit "kind"; lit "query"; key] (JObj es) = Some es
    /\ dict_get es (lit "v") = Some (jint 1) /\ get_str es (lit "kind") = Some kind
    /\ get_str es (lit "query") = Some identity /\ dict_get es key = Some position.
Proof.
  intros [-> | ->] Hs; unfold cursor_json; cbn [sort_keys map fst snd jstr jint]; rewrite Hs.
  - exists [(lit "kind", jstr kind); (POSITION, position); (lit "query", jstr identity); (lit "v", jint 1)]. by split_and!.
  - exists [(INNER, position); (lit "kind", jstr kind); (lit "query", jstr identity); (lit "v", jint 1)]. by split_and!.
Qed.

(** A cursor is sealed, and opened by the same query alone. *)
Lemma seal_open kind identity key position :
  plain_words kind identity -> (key = POSITION \/ key = INNER) -> plain_position position ->
  exists c, seal_cursor kind identity key position = Ok c
    /\ (3 * length (cursor_value c) <= 4 * (136 + length (plain_text position)) + 4)%nat
    /\ forallb url_safe (cursor_value c) = true /\ cursor_value c <> []
    /\ forall strict, open_cursor strict kind identity key c = Some position.
Proof.
  intros Hw Hkey Hp. pose proof (cursor_text_spec kind identity key position Hw Hkey Hp) as (Ha & Hl & Hne & Hd).
  set (t := canonical_json _) in *. destruct (ascii_utf8 t Ha) as (Hu & Hdec & Hb).
  pose proof (plain_position_text _ Hp) as (_ & _ & _ & Hpl). pose proof (b64_length t) as Hlen. pose proof (b64_safe t) as Hsafe.
  assert (b64_encode t <> []) as Hn by (destruct t as [|? [|? [|? ?]]]; done).
  exists {| cursor_value := b64_encode t |}. cbn [cursor_value]. split_and!; [|lia|done|done|].
  - unfold seal_cursor. fold t. unfold encode_utf8. rewrite (ascii_unicode _ Ha), Hu. unfold make_cursor, contract, mbind, result_bind.
    cbn [cursor_value]. rewrite Hsafe, bool_decide_true by done. by rewrite (proj2 (Nat.leb_le _ 1024)) by lia.
  - intros strict. unfold open_cursor. cbn [cursor_value]. rewrite (b64_roundtrip _ Hb). cbn [mbind option_bind].
    rewrite (bool_decide_true (b64_encode t = _)) by done. rewrite andb_false_r, Hdec. cbn [mbind option_bind]. rewrite Hd.
    pose proof (plain_position_text _ Hp) as (_ & Hs & _). cbn [mbind option_bind].
    destruct (cursor_entries kind identity key position Hkey Hs) as (es & -> & Hes & Hv & Hk & Hq & Hkp).
    rewrite Hes. cbn [mbind option_bind]. rewrite Hv. cbn [mbind option_bind]. rewrite Hk. cbn [mbind option_bind].
    rewrite Hq. cbn [mbind option_bind]. by rewrite !bool_decide_true.
Qed.

Lemma hex_safe s : forallb is_hex_digit s = true -> forallb url_safe s = true.
Proof.
  rewrite !forallb_forall. intros Hs c Hc%Hs. unfold is_hex_digit in Hc. unfold url_safe, is_lower.
  apply orb_true_iff in Hc as [->|Hc]; [by rewrite !orb_true_r|]. bools. lia.
Qed.

Lemma uuid_safe u : forallb url_safe (uuid_str u) = true /\ length (uuid_str u) = 36%nat.
Proof.
  unfold uuid_str. cbv zeta. set (h := uuid_hex u).
  assert (length h = 32%nat) as Hl by apply length_hex_digits.
  assert (forallb url_safe h = true) as Hh by apply hex_safe, hex_digits_is_hex.
  split.
  - rewrite !forallb_app. cbn [forallb]. rewrite !andb_true_iff.
    split_and!; try done; (eapply forallb_sublist; [|exact Hh]);
      repeat first [apply subseteq_drop | etrans; [apply subseteq_take|]]; done.
  - rewrite !length_app, !length_take, !length_drop, Hl. done.
Qed.

Lemma uuid_position u : plain_position (jstr (uuid_str u)).
Proof. left. exists (uuid_str u). destruct (uuid_safe u) as [? ->]. split_and!; [done|done|lia]. Qed.

Lemma identity_words kind identity :
  forallb url_safe kind = true -> (length kind <= 16)%nat -> valid_sha256 identity = true -> plain_words kind identity.
Proof.
  unfold valid_sha256. intros Hk Hkl [Hl%Nat.eqb_eq Hi]%andb_true_iff. split_and!; [done|done| |done]. by apply hex_safe.
Qed.

Lemma query_identity_valid kind principal version entity branch role filters identity :
  query_identity kind principal version entity branch role filters = Some identity -> valid_sha256 identity = true.
Proof.
  unfold query_identity, fingerprint_of. destruct (unicode _); [|done]. intros [= <-]. apply sha256_hex_valid.
Qed.

Lemma position_id_str u : (0 < u < 2 ^ 128)%N -> position_id (jstr (uuid_str u)) = Some u.
Proof.
  intros Hu. unfold position_id. cbn [as_str jstr mbind option_bind]. rewrite parse_uuid_str.
  cbn [mbind option_bind]. rewrite N.mod_small by lia. rewrite bool_decide_true by done.
  by rewrite (proj2 (N.eqb_neq _ _)) by lia.
Qed.

Lemma fingerprint_digest j i :
  fingerprint_of j = Some i -> unicode (canonical_json j) = true /\ i = sha256_hex (utf8 (canonical_json j)).
Proof. unfold fingerprint_of. cbv zeta. destruct (unicode _) eqn:E; [|done]. by intros [= <-]. Qed.

(** Well-formed values encode. *)
Lemma plain_unicode j : json_wf j = true -> unicode (plain_text j) = true.
Proof.
  induction j as [|v|items IH|entries IH] using json_ind'; cbn [json_wf plain_text]; intros Hj; [done|..].
  - unfold plain_scalar. destruct v as [s|z|f|b]; cbn [scalar_wf] in Hj.
    + by apply unicode_quoted.
    + apply ascii_unicode, ascii_number, dec_Z_number.
    + by apply ascii_unicode, ascii_number, float_number.
    + by destruct b.
  - rewrite forallb_forall in Hj. rewrite Forall_forall in IH.
    change (91%N :: join_commas (map plain_text items) ++ [93%N])
      with ([91%N] ++ join_commas (map plain_text items) ++ [93%N]).
    rewrite !unicode_app, unicode_join; [done|]. intros t (x & -> & Hx)%elem_of_map.
    by apply IH, Hj, list_elem_of_In.
  - rewrite forallb_forall in Hj. rewrite Forall_forall in IH.
    set (parts := map _ entries). change (123%N :: join_commas parts ++ [125%N]) with ([123%N] ++ join_commas parts ++ [125%N]).
    rewrite !unicode_app, unicode_join; [done|]. intros t (x & -> & Hx)%elem_of_map.
    pose proof (Hj x (proj1 (list_elem_of_In _ _) Hx)) as [Hk Hv]%andb_true_iff.
    change (quoted x.1 ++ 58%N :: plain_text x.2) with (quoted x.1 ++ [58%N] ++ plain_text x.2).
    by rewrite !unicode_app, unicode_quoted, IH.
Qed.

Lemma fingerprint_encodes j : json_wf j = true -> exists fp, fingerprint_of j = Some fp /\ valid_sha256 fp = true.
Proof.
  intros Hj. unfold fingerprint_of, canonical_json. rewrite plain_unicode by (by rewrite sort_keys_wf).
  eexists. split; [done|apply sha256_hex_valid].
Qed.

(** ** The position read back is the position that was written *)
Section positions.
Variables (kind identity : pystr).
Hypothesis words : plain_words kind identity.

Lemma encode_cursor_spec (u : UUID) :
  (0 < u < 2 ^ 128)%N -> exists c, encode_cursor kind identity u = Ok c
    /\ (forallb url_safe (cursor_value c) = true /\ cursor_value c <> [] /\ (length (cursor_value c) <= 512)%nat)
    /\ cursor_position kind identity (Some c) = Some (Some u)
    /\ (kind = lit "branch" -> branch_position identity (Some c) = Some (Some u)).
Proof using words.
  intros Hu. destruct (seal_open kind identity POSITION (jstr (uuid_str u))) as (c & Hc & Hl & Hs & Hn & Ho);
    [done|by left|apply uuid_position|].
  assert (length (plain_text (jstr (uuid_str u))) = 38%nat) as Hlen.
  { cbn [plain_text jstr plain_scalar]. destruct (uuid_safe u) as [Hsafe Hu36]. rewrite quoted_safe by done.
    cbn [length]. rewrite length_app, Hu36. done. }
  rewrite Hlen in Hl. exists c. split; [done|]. split; [split_and!; [done|done|lia]|].
  unfold cursor_position, branch_position. rewrite Ho. cbn [mbind option_bind]. rewrite (position_id_str _ Hu).
  split; [done|]. intros <-. rewrite Ho. cbn [mbind option_bind]. by rewrite (position_id_str _ Hu).
Qed.

Lemma encode_sequence_spec (z : Z) :
  1 <= z < 2 ^ 63 -> exists c, encode_sequence_cursor kind identity z = Ok c
    /\ cursor_sequence kind identity (Some c) = Some (Some z).
Proof using words.
  intros Hz. destruct (seal_open kind identity POSITION (jint z)) as (c & Hc & _ & _ & _ & Ho);
    [done|by left|right; exists z; split; [done|lia]|].
  exists c. split; [done|]. unfold cursor_sequence. rewrite Ho. cbn [mbind option_bind as_int jint].
  by rewrite (proj2 (Z.ltb_ge _ _)) by lia.
Qed.
End positions.

Lemma wrap_spec identity c :
  valid_sha256 identity = true -> forallb url_safe (cursor_value c) = true -> cursor_value c <> [] ->
  (length (cursor_value c) <= 512)%nat ->
  exists w, wrap_branch_cursor identity (Some c) = Ok (Some w) /\ unwrap_branch_cursor identity (Some w) = Some (Some c).
Proof.
  intros Hi Hs Hn Hl. destruct (seal_open (lit "branch_scope") identity INNER (jstr (cursor_value c)))
    as (w & Hw & _ & _ & _ & Ho); [apply identity_words; [done|vm_compute; lia|done]|by right|left; by exists (cursor_value c)|].
  exists w. unfold wrap_branch_cursor. rewrite Hw. split; [done|].
  unfold unwrap_branch_cursor. rewrite Ho. cbn [mbind option_bind as_str jstr].
  unfold make_cursor, contract, mbind, result_bind. cbn [cursor_value]. rewrite Hs, bool_decide_true by done.
  rewrite (proj2 (Nat.leb_le _ 1024)) by lia. by destruct c.
Qed.
End roundtrip.
