(* ===== verification/Pages.v ===== *)
(** * Pages: lists, searches and histories, a page at a time

    [list_records], [search_records], [record_history] and [list_branches] of
    [storage/sqlite/data_store.py], with [list_branches] of [topology.py] below
    the last.  A page is a query with [LIMIT limit + 1] after the position of its
    cursor; the row too many only says that there is a next page.  A method whose
    query does not encode raises, which is [None] here. *)
From S2P Require Import Relational.
From S2P Require Export Cursors.
From S2P Require Import Prelude Values Json JsonText Sha256 Manifest.

(** ** Queries in the order of a key *)

(** [SELECT ... WHERE p ORDER BY ... LIMIT n] on rows in order: the condition is
    evaluated row by row until [n] rows are found. *)
Fixpoint select_first {E A} (p : A -> result E bool) (n : nat) (l : list A) : result E (list A) :=
  match n, l with
  | O, _ | _, [] => Ok []
  | S n', x :: l' =>
      keep ← p x;
      if (keep : bool) then rest ← select_first p n' l'; Ok (x :: rest) else select_first p n l'
  end.

(** The values of a page and the cursor of the next one, from [limit + 1] rows. *)
Definition paged {E A B} (limit : nat) (decode : A -> result E B) (cursor : A -> result E PageCursor) (rows : list A)
  : result E (list B * option PageCursor) :=
  values ← mapR decode (take limit rows);
  next ← match drop limit rows, last (take limit rows) with
         | _ :: _, Some r => c ← cursor r; Ok (Some c)
         | _, _ => Ok None
         end;
  Ok (values, next).

Definition str_ltb (a b : pystr) : bool := negb (str_leb b a).

(** ["id" > ?], where no position is the empty text. *)
Definition after_id (position : option UUID) (id : UUID) : bool :=
  match position with Some p => str_ltb (uuid_str p) (uuid_str id) | None => true end.

Definition by_id {A} (rows : gmap UUID A) : list (UUID * A) := sorted_by str_leb (fun e => uuid_str e.1) (map_to_list rows).

(** An exception of a contract inside an operation is an internal error. *)
Definition contractual {A} (m : recorded A) : result fault A := match m with Ok a => Ok a | Raise _ => Raise OtherFault end.

(** ** Filters *)
Inductive filter_test := EqualTo (v : sqlval) | Contains (v : sqlval).

Section records.
Context `{FloatRead} `{IsoDates}.

(** [json_each(column).value]: the elements of an array, a scalar itself. *)
Definition element_value (j : json) : sqlval :=
  match j with
  | JNull => SqlNull
  | JScalar (PyStr s) => SqlText s
  | JScalar (PyInt z) => SqlInteger z
  | JScalar (PyBool b) => SqlInteger (Z.b2z b)
  | JScalar (PyFloat f) => SqlReal f
  | _ => SqlText (plain_text j)
  end.

Definition json_each (v : sqlval) : result fault (list sqlval) :=
  match v with
  | SqlNull => Ok []
  | SqlText s =>
      match json_loads s with
      | Some (JArr items) => Ok (map element_value items)
      | Some (JObj entries) => Ok (map (fun e => element_value e.2) entries)
      | Some j => Ok [element_value j]
      | None => Raise (DatabaseError false)
      end
  | _ => Ok [v]
  end.

(** The clause of a filter and its parameter. *)
Definition prepare_filter (sp : RecordSpecification) (entity : pystr) (f : RecordFilter) : result fault (pystr * filter_test) :=
  match spec_field sp entity (ff_field f) with
  | None => Raise OtherFault
  | Some field =>
      match ff_mode f with
      | MembershipOf => v ← bound_value (ff_value f); Ok (ff_field f, Contains v)
      | _ => v ← encode_field field (ff_value f); Ok (ff_field f, EqualTo v)
      end
  end.

Definition filter_holds (e : UUID * row) (f : pystr * filter_test) : result fault bool :=
  match f.2 with
  | EqualTo v => Ok (sql_eqb (cell e.1 e.2 f.1) v)
  | Contains v => values ← json_each (cell e.1 e.2 f.1); Ok (existsb (fun x => sql_eqb x v) values)
  end.

Fixpoint filters_hold (fs : list (pystr * filter_test)) (e : UUID * row) : result fault bool :=
  match fs with
  | [] => Ok true
  | f :: fs' => b ← filter_holds e f; if (b : bool) then filters_hold fs' e else Ok false
  end.

(** ** [_record_page] *)

(** The join with the memberships of a branch in a role. *)
Definition in_branch (s : store) (principal entity : pystr) (branch : option UUID) (role : option BranchRole) (id : UUID)
  : bool :=
  match branch with
  | None => true
  | Some b => match st_members s !! (principal, entity, id, b) with
              | Some m => bool_decide (Some (m_role m) = role)
              | None => false
              end
  end.

Definition page_candidates (s : store) (principal entity : pystr) (branch : option UUID) (role : option BranchRole)
    (position : option UUID) : list (UUID * row) :=
  List.filter (fun e => bool_decide (r_owner_id e.2 = principal) && after_id position e.1
                        && in_branch s principal entity branch role e.1) (by_id (table_rows s entity)).

Definition record_page (principal : pystr) (sp : RecordSpecification) (entity : pystr) (filters : list RecordFilter)
    (branch : option UUID) (role : option BranchRole) (limit : Z) (position : option UUID) (identity : pystr)
  : stx (answer RecordPage) :=
  tests ← run_result (mapR (prepare_filter sp entity) filters);
  bind_texts [principal] ;;
  the_table entity ;;
  found ← reading (fun s => select_first (filters_hold tests) (S (Z.to_nat limit))
                              (page_candidates s principal entity branch role position));
  rows ← run_result found;
  '(values, next) ← run_result (paged (Z.to_nat limit) (fun e => decode_record sp principal entity e.1 e.2)
                                  (fun e => contractual (encode_cursor (lit "record") identity e.1)) rows);
  page ← run_recorded (make_record_page {| rp_records := values; rp_next := next |});
  ret (Success page).

(** ** [list_records] and [search_records] *)
Definition filter_json (f : RecordFilter) : json :=
  JArr [jstr (ff_field f); jstr (FilterMode_text (ff_mode f)); ff_value f].

Definition list_records (a : attempt) (principal via : pystr) (sp : RecordSpecification) (q : ListRecordsQuery) (s : store)
  : option (answer RecordPage) :=
  match admitted principal via sp with
  | None => Some (Failure validation_failed)
  | Some checked =>
      match spec_entity checked (lr_entity q) with
      | None => Some (Failure validation_failed)
      | Some _ =>
          identity ← query_identity (lit "list_records") principal (sp_schema_version checked) (lr_entity q)
                       (lr_branch q) (lr_role q) [];
          Some (match cursor_position (lit "record") identity (page_cursor (lr_page q)) with
                | None => Failure validation_failed
                | Some position =>
                    read_store a checked
                      (record_page principal checked (lr_entity q) [] (lr_branch q) (lr_role q)
                         (page_limit (lr_page q)) position identity) s
                end)
      end
  end.

(** [filters == query.filters]: a filter that was validated has the value it was
    given. *)
Definition same_value (a b : json) : bool :=
  match a, b with JScalar v, JScalar w => scalar_eqb v w | JNull, JNull => true | _, _ => false end.
Definition same_filter (f g : RecordFilter) : bool :=
  bool_decide (ff_entity f = ff_entity g) && bool_decide (ff_field f = ff_field g)
  && bool_decide (ff_mode f = ff_mode g) && same_value (ff_value f) (ff_value g).
Fixpoint same_filters (fs gs : list RecordFilter) : bool :=
  match fs, gs with
  | [], [] => true
  | f :: fs', g :: gs' => same_filter f g && same_filters fs' gs'
  | _, _ => false
  end.

Definition checked_filters (sp : RecordSpecification) (q : SearchRecordsQuery) : option (list RecordFilter) :=
  match mapR (fun f => validate_filter sp (sr_entity q) (ff_field f) (ff_value f)) (sr_filters q) with
  | Ok filters => if same_filters filters (sr_filters q) then Some filters else None
  | Raise _ => None
  end.

Definition search_records (a : attempt) (principal via : pystr) (sp : RecordSpecification) (q : SearchRecordsQuery)
    (s : store) : option (answer RecordPage) :=
  match admitted principal via sp with
  | None => Some (Failure validation_failed)
  | Some checked =>
      match checked_filters checked q with
      | None => Some (Failure validation_failed)
      | Some filters =>
          identity ← query_identity (lit "search_records") principal (sp_schema_version checked) (sr_entity q)
                       (sr_branch q) (sr_role q) (map filter_json filters);
          Some (match cursor_position (lit "record") identity (page_cursor (sr_page q)) with
                | None => Failure validation_failed
                | Some position =>
                    read_store a checked
                      (record_page principal checked (sr_entity q) filters (sr_branch q) (sr_role q)
                         (page_limit (sr_page q)) position identity) s
                end)
      end
  end.

(** ** [record_history] *)
Definition history_candidates (s : store) (principal entity : pystr) (record : option UUID) (position : option Z)
  : list history_row :=
  sorted_by Z.leb h_sequence
    (List.filter (fun h => bool_decide (h_principal h = principal) && bool_decide (h_entity h = entity)
                           && (default 0 position <? h_sequence h)
                           && match record with Some u => (h_record h =? u)%N | None => true end) (st_history s)).

Definition history_page (principal : pystr) (sp : RecordSpecification) (q : RecordHistoryQuery) (position : option Z)
    (identity : pystr) : stx (answer HistoryPage) :=
  bind_texts [principal] ;;
  rows ← reading (fun s => take (S (Z.to_nat (page_limit (hq_page q))))
                             (history_candidates s principal (hq_entity q) (hq_record q) position));
  '(events, next) ← run_result (paged (Z.to_nat (page_limit (hq_page q))) (decode_history sp)
                       (fun h => contractual (encode_sequence_cursor (lit "history") identity (h_sequence h))) rows);
  page ← run_recorded (make_history_page {| hp_events := events; hp_next := next |});
  ret (Success page).

Definition record_history (a : attempt) (principal via : pystr) (sp : RecordSpecification) (q : RecordHistoryQuery)
    (s : store) : option (answer HistoryPage) :=
  match admitted principal via sp with
  | None => Some (Failure validation_failed)
  | Some checked =>
      match spec_entity checked (hq_entity q) with
      | None => Some (Failure validation_failed)
      | Some _ =>
          identity ← query_identity (lit "record_history") principal (sp_schema_version checked) (hq_entity q)
                       (hq_record q) None [];
          Some (match cursor_sequence (lit "history") identity (page_cursor (hq_page q)) with
                | None => Failure validation_failed
                | Some position => read_store a checked (history_page principal checked q position identity) s
                end)
      end
  end.
End records.

(** ** Branches *)
Section branches.
Context `{FloatRead} `{IsoDates}.

(** [_decode_branch], with the exceptions its callers tell apart: an attribute
    that [BranchValue] refuses is a [RecordContractError], a column that cannot
    be read is not. *)
Definition branch_arguments (id : UUID) (b : branch_row) : option BranchValue :=
  bid ← parse_uuid (uuid_str id);
  parent ← parse_parent (uuid_json (b_parent b));
  created ← read_time (b_created_at b);
  updated ← read_time (b_updated_at b);
  version ← revision (b_revision b);
  Some {| bv_id := bid; bv_slug := b_slug b; bv_title := b_title b; bv_intent := b_intent b; bv_type := b_type b;
          bv_parent := parent; bv_status := b_status b; bv_summary := b_summary b; bv_created_at := created;
          bv_updated_at := updated; bv_revision := version |}.

Definition read_branch (e : UUID * branch_row) : recorded BranchValue :=
  match branch_arguments e.1 e.2 with
  | None => Raise LookupFault
  | Some given =>
      v ← make_branch given;
      if bool_decide (uuid_str (bv_id v) = uuid_str e.1) then Ok v else Raise LookupFault
  end.

Lemma read_branch_decode e : ok_of (read_branch e) = decode_branch e.1 e.2.
Proof.
  unfold read_branch, decode_branch, branch_arguments.
  do 5 (match goal with |- context [?o ≫= _] => destruct o; cbn [mbind option_bind]; [|done] end).
  destruct (make_branch _); cbn [ok_of mbind option_bind result_bind]; [|done]. by destruct (bool_decide _).
Qed.

(** [list_branches] of the topology. *)
Definition status_json (o : option BranchStatus) : json := joption (fun t => jstr (status_text t)) o.

Definition branch_query_payload (q : ListBranchesQuery) : json :=
  JObj [ (lit "operation", jstr (lit "list_branches")); (lit "status", status_json (lb_status q));
         (lit "branch_type", text_json (lb_type q)); (lit "parent_branch_id", uuid_json (lb_parent q)) ].

Definition branch_selected (principal : pystr) (q : ListBranchesQuery) (e : UUID * branch_row) : bool :=
  bool_decide (b_principal e.2 = principal)
  && match lb_status q with Some t => bool_decide (b_status e.2 = t) | None => true end
  && match lb_type q with Some t => bool_decide (b_type e.2 = Some t) | None => true end
  && match lb_parent q with Some p => bool_decide (b_parent e.2 = Some p) | None => true end.

Definition branch_candidates (s : store) (principal : pystr) (q : ListBranchesQuery) (position : option UUID)
  : list (UUID * branch_row) :=
  List.filter (fun e => branch_selected principal q e && after_id position e.1) (by_id (st_branches s)).

(** [except RecordContractError: validation_failed], and [internal_error] for
    any other exception. *)
Definition branch_answer {A} (m : recorded A) : answer A :=
  match m with
  | Ok a => Success a
  | Raise RecordContractError => Failure validation_failed
  | Raise _ => Failure internal_error
  end.

Definition topology_list (principal : pystr) (q : ListBranchesQuery) : stx (answer BranchPage) :=
  if negb (topology_admitted principal (lit "read")) then ret (Failure validation_failed) else
  identity ← run_result (valued (fingerprint_of (branch_query_payload q)));
  match branch_position identity (page_cursor (lb_page q)) with
  | None => ret (Failure validation_failed)
  | Some position =>
      if negb (unicode principal) then ret (Failure internal_error) else
      rows ← reading (fun s => take (S (Z.to_nat (page_limit (lb_page q)))) (branch_candidates s principal q position));
      ret (branch_answer (
        '(values, next) ← paged (Z.to_nat (page_limit (lb_page q))) read_branch
                            (fun e => encode_cursor (lit "branch") identity e.1) rows;
        make_branch_page {| bp_branches := values; bp_next := next |}))
  end.

(** [list_branches] of the data store: the cursor of the topology inside one
    that is bound to the service as well. *)
Definition inner_query (q : ListBranchesQuery) (inner : option PageCursor) : recorded ListBranchesQuery :=
  page ← make_page {| page_limit := page_limit (lb_page q); page_cursor := inner |};
  make_list_branches {| lb_status := lb_status q; lb_type := lb_type q; lb_parent := lb_parent q; lb_page := page |}.

Definition rewrapped (identity : pystr) (r : answer BranchPage) : stx (answer BranchPage) :=
  match r with
  | Failure c => ret (Failure c)
  | Success p =>
      next ← run_recorded (wrap_branch_cursor identity (bp_next p));
      page ← run_recorded (make_branch_page {| bp_branches := bp_branches p; bp_next := next |});
      ret (Success page)
  end.

Definition list_branches (a : attempt) (principal via : pystr) (sp : RecordSpecification) (q : ListBranchesQuery)
    (s : store) : option (answer BranchPage) :=
  match admitted principal via sp with
  | None => Some (Failure validation_failed)
  | Some checked =>
      identity ← query_identity (lit "list_branches") principal (sp_schema_version checked) (lit "branch")
                   (lb_parent q) None
                   [JArr [jstr (lit "status"); status_json (lb_status q)];
                    JArr [jstr (lit "branch_type"); text_json (lb_type q)]];
      Some (match unwrap_branch_cursor identity (page_cursor (lb_page q)) with
            | None => Failure validation_failed
            | Some inner =>
                match inner_query q inner with
                | Raise _ => Failure validation_failed
                | Ok within => read_store a checked (r ← topology_list principal within; rewrapped identity r) s
                end
            end)
  end.
End branches.

(** ** Pages that follow each other are the whole

    Rows in the strict order of a key, read a page at a time from the position
    after a row: following the cursors from the first page returns every row
    exactly once, in order, after at most one page per row. *)

(** ** Selections *)
Section selection.
Context {E A B : Type}.

(** The rows a condition holds for, all of them. *)
Fixpoint filterR (p : A -> result E bool) (l : list A) : result E (list A) :=
  match l with
  | [] => Ok []
  | x :: l' => keep ← p x; rest ← filterR p l'; Ok (if (keep : bool) then x :: rest else rest)
  end.

Lemma filterR_Ok p l r :
  filterR p l = Ok r -> exists q, (forall x, x ∈ l -> p x = Ok (q x)) /\ r = List.filter q l.
Proof.
  intros Hr. exists (fun x => match p x with Ok b => b | Raise _ => false end).
  revert r Hr; induction l as [|x l IH]; intros r; cbn [filterR].
  { intros [= <-]. split; [|done]. by intros x ?%elem_of_nil. }
  intros (b & Hb & (rest & (Hall & ->)%IH & [= <-])%bind_Ok)%bind_Ok. cbn [List.filter]. rewrite Hb. split; [|by destruct b].
  intros y [->|Hy]%elem_of_cons; [by rewrite Hb|by apply Hall].
Qed.

Lemma select_first_pure (p : A -> result E bool) (q : A -> bool) n l :
  (forall x, x ∈ l -> p x = Ok (q x)) -> select_first p n l = Ok (take n (List.filter q l)).
Proof.
  revert n; induction l as [|x l IH]; intros n Hp.
  { destruct n; done. }
  destruct n as [|n]; [done|]. cbn [select_first List.filter]. rewrite Hp by (by left).
  cbn [mbind result_bind]. destruct (q x); cbn [take].
  - rewrite IH by (intros y Hy; apply Hp; by right). done.
  - apply IH. intros y Hy. apply Hp. by right.
Qed.

Lemma mapR_take (f : A -> result E B) n l ys : mapR f l = Ok ys -> mapR f (take n l) = Ok (take n ys).
Proof. rewrite !mapR_Ok. apply Forall2_take. Qed.

Lemma mapR_drop (f : A -> result E B) n l ys : mapR f l = Ok ys -> mapR f (drop n l) = Ok (drop n ys).
Proof. rewrite !mapR_Ok. apply Forall2_drop. Qed.

Lemma mapR_length (f : A -> result E B) l ys : mapR f l = Ok ys -> length ys = length l.
Proof. rewrite mapR_Ok. intros Hf%Forall2_length. done. Qed.

Lemma filter_filter (p q : A -> bool) l : List.filter p (List.filter q l) = List.filter (fun x => q x && p x) l.
Proof.
  induction l as [|x l IH]; [done|]. cbn [List.filter]. destruct (q x); cbn [List.filter andb]; [destruct (p x)|]; by rewrite IH.
Qed.

Lemma filter_equal (p q : A -> bool) l : (forall x, x ∈ l -> p x = q x) -> List.filter p l = List.filter q l.
Proof.
  induction l as [|x l IH]; intros Hp; [done|]. cbn [List.filter].
  rewrite (Hp x) by (by left). rewrite IH by (intros y Hy; apply Hp; by right). done.
Qed.
End selection.

(** ** Rows after a row *)
Section order.
Context {A K : Type} (rank : A -> K) (after : K -> A -> bool).
Hypothesis asymmetric : forall x y, after (rank x) y = true -> after (rank y) x = false.

Definition ordered : list A -> Prop := StronglySorted (fun x y => after (rank x) y = true).

Lemma ordered_filter p l : ordered l -> ordered (List.filter p l).
Proof.
  induction 1 as [|x l Hl IH Hx]; [constructor|]. cbn [List.filter]. destruct (p x); [|done].
  constructor; [done|]. rewrite Forall_forall in *. intros y [Hy _]%list_elem_of_In%filter_In. by apply Hx, list_elem_of_In.
Qed.

Lemma after_drop l j e : ordered l -> l !! j = Some e -> List.filter (after (rank e)) l = drop (S j) l.
Proof using asymmetric.
  intros Ho. revert j; induction Ho as [|x l Hl IH Hx]; intros j; [done|]. rewrite Forall_forall in Hx.
  destruct j as [|j]; cbn [lookup list_lookup List.filter].
  - intros [= <-]. destruct (after (rank x) x) eqn:Hs; [by rewrite (asymmetric _ _ Hs) in Hs|].
    change (drop 1 (x :: l)) with l. apply RecordValues.filter_true, forallb_forall. intros y Hy. by apply Hx, list_elem_of_In.
  - intros He. rewrite (asymmetric x e) by (apply Hx; by eapply list_elem_of_lookup_2). by apply IH.
Qed.
End order.

(** ** A page of rows in order *)
Section page.
Context {E A B : Type} (decode : A -> result E B) (cursor : A -> result E PageCursor) (limit : nat).
Hypothesis positive : (0 < limit)%nat.

Lemma paged_at rows values i :
  mapR decode rows = Ok values -> (forall e, e ∈ rows -> is_ok (cursor e) = true) ->
  exists next, paged limit decode cursor (take (S limit) (drop i rows)) = Ok (take limit (drop i values), next)
    /\ match next with
       | None => (length rows <= i + limit)%nat
       | Some c => exists e, rows !! (i + limit - 1)%nat = Some e /\ cursor e = Ok c /\ (i + limit < length rows)%nat
       end.
Proof using positive.
  intros Hv Hc. unfold paged. rewrite take_take, Nat.min_l by lia.
  rewrite (mapR_take _ _ _ (drop i values)) by (by apply mapR_drop). cbn [mbind result_bind].
  rewrite skipn_firstn_comm, drop_drop. replace (S limit - limit)%nat with 1%nat by lia.
  destruct (decide (i + limit < length rows)%nat) as [Hlt|Hge].
  - destruct (lookup_lt_is_Some_2 rows (i + limit) Hlt) as [x Hx].
    destruct (lookup_lt_is_Some_2 rows (i + limit - 1)%nat ltac:(lia)) as [e He].
    rewrite (drop_S _ _ _ Hx). cbn [take].
    assert (last (take limit (drop i rows)) = Some e) as ->.
    { rewrite last_lookup, length_take, length_drop, Nat.min_l by lia.
      rewrite lookup_take_lt by lia. rewrite lookup_drop. rewrite <- He. f_equal. lia. }
    specialize (Hc e (list_elem_of_lookup_2 _ _ _ He)). destruct (cursor e) as [c|] eqn:Ec; [|done].
    exists (Some c). split; [done|]. by exists e.
  - rewrite (drop_ge rows (i + limit)) by lia. exists None. split; [done|lia].
Qed.
End page.

(** ** Following the cursors *)
Section walk.
Context {P B : Type} (items : P -> list B) (next : P -> option PageCursor) (ask : option PageCursor -> option (answer P)).

(** What a client collects that asks for page after page; [None] when a page is
    refused or the fuel is used up. *)
Fixpoint walk (fuel : nat) (c : option PageCursor) : option (list B) :=
  match fuel with
  | O => None
  | S fuel' =>
      match ask c with
      | Some (Success p) =>
          match next p with
          | None => Some (items p)
          | Some c' => rest ← walk fuel' (Some c'); Some (items p ++ rest)
          end
      | _ => None
      end
  end.

Variables (limit : nat) (values : list B) (at_row : nat -> option PageCursor -> Prop).
Hypothesis positive : (0 < limit)%nat.
Hypothesis first_page : at_row 0 None.
Hypothesis pages : forall i c, (i <= length values)%nat -> at_row i c ->
  exists p, ask c = Some (Success p) /\ items p = take limit (drop i values)
    /\ match next p with
       | None => (length values <= i + limit)%nat
       | Some c' => (i + limit < length values)%nat /\ at_row (i + limit) (Some c')
       end.

Lemma walk_from fuel i c :
  (i <= length values)%nat -> at_row i c -> (length values - i < fuel)%nat -> walk fuel c = Some (drop i values).
Proof using positive pages.
  revert i c; induction fuel as [|fuel IH]; intros i c Hi Hc Hf; [lia|]. cbn [walk].
  destruct (pages i c Hi Hc) as (p & -> & Hp & Hn). destruct (next p) as [c'|].
  - destruct Hn as [Hlt Hc']. rewrite (IH (i + limit)%nat) by (lia || done). cbn [mbind option_bind].
    by rewrite Hp, <- drop_drop, take_drop.
  - rewrite Hp. f_equal. apply take_ge. rewrite length_drop. lia.
Qed.

Lemma walk_complete : walk (S (length values)) None = Some values.
Proof using first_page positive pages. by rewrite (walk_from _ 0%nat) by (lia || done). Qed.
End walk.
