(* ===== verification/PagesSpec.v ===== *)
(** * PagesSpec: the pages of records, of a history and of branches

    Each paged query against the same query without pages: following the cursors
    gives its values, and a cursor is only good for the query it came from. *)
From S2P Require Import Relational.
From S2P Require Export Pages RecordEvidence.
From S2P Require Import Prelude Values Json JsonText Sha256 Manifest.

(** ** Ids in order *)
Definition ids_ok {A} (rows : gmap UUID A) : Prop := forall (id : UUID), is_Some (rows !! id) -> (0 < id < 2 ^ 128)%N.

Lemma uuid_text_inj (u v : UUID) : (u < 2 ^ 128)%N -> (v < 2 ^ 128)%N -> uuid_str u = uuid_str v -> u = v.
Proof.
  intros Hu Hv Heq. pose proof (parse_uuid_str u) as Pu. rewrite Heq, parse_uuid_str in Pu.
  rewrite !N.mod_small in Pu by done. congruence.
Qed.

Definition later {A} (u : UUID) (e : UUID * A) : bool := after_id (Some u) e.1.

Lemma later_asymmetric {A} (x y : UUID * A) : later x.1 y = true -> later y.1 x = false.
Proof.
  unfold later, after_id, str_ltb. rewrite negb_true_iff, negb_false_iff. intros Hn.
  destruct (str_le_total (uuid_str x.1) (uuid_str y.1)) as [Hle|Hle]; [done|]. unfold str_le in Hle. congruence.
Qed.

Lemma strictly {A} (key : A -> pystr) l :
  StronglySorted (key_le key) l -> NoDup (map key l) -> StronglySorted (fun x y => negb (str_leb (key y) (key x)) = true) l.
Proof.
  induction 1 as [|x l Hl IH Hx]; [constructor|]. cbn [map]. intros [Hnot Hnd]%NoDup_cons.
  constructor; [by apply IH|]. rewrite Forall_forall in *. intros y Hy. apply negb_true_iff, not_true_iff_false. intros Hle.
  apply Hnot, list_elem_of_fmap. exists y. split; [|done].
  apply (anti_symm str_le); [by apply (Hx y)|done].
Qed.

Lemma by_id_ordered {A} (rows : gmap UUID A) : ids_ok rows -> ordered fst later (by_id rows).
Proof.
  intros Hok. unfold ordered, by_id, later, after_id, str_ltb.
  apply (strictly (fun e : UUID * A => uuid_str e.1)); [apply sorted_by_str_sorted|].
  apply NoDup_sorted_by. apply NoDup_fmap_2_strong; [|apply NoDup_map_to_list].
  intros [u x] [v y] Hx%elem_of_map_to_list Hy%elem_of_map_to_list Heq. cbn [fst] in Heq.
  assert (u = v) as ->; [|congruence]. apply uuid_text_inj; [by apply Hok|by apply Hok|done].
Qed.

Lemma by_id_in {A} (rows : gmap UUID A) e : e ∈ by_id rows <-> rows !! e.1 = Some e.2.
Proof.
  unfold by_id. rewrite elem_of_sorted_by. destruct e as [u x]. apply elem_of_map_to_list.
Qed.

(** A position is before everything, or the id of the row before. *)
Definition row_before {A} (rows : list (UUID * A)) (i : nat) (position : option UUID) : Prop :=
  match position with
  | None => i = 0%nat
  | Some u => (0 < i)%nat /\ exists e, rows !! (i - 1)%nat = Some e /\ e.1 = u
  end.

Lemma rows_after {A} (rows : list (UUID * A)) i position :
  ordered fst later rows -> row_before rows i position ->
  List.filter (fun e => after_id position e.1) rows = drop i rows.
Proof.
  intros Ho. destruct position as [u|]; cbn [row_before].
  - intros (Hi & e & He & <-). etrans; [by apply (after_drop fst later later_asymmetric)|]. f_equal. lia.
  - intros ->. rewrite drop_0. apply RecordValues.filter_true, forallb_forall. done.
Qed.

Section records.
Context `{FloatRead} `{IsoDates}.

(** ** Records *)

(** The query without pages: the rows of the owner, in the branch, in the order
    of their ids, that pass the filters. *)
Definition unpaged (principal : pystr) (sp : RecordSpecification) (entity : pystr) (filters : list RecordFilter)
    (branch : option UUID) (role : option BranchRole) (s : store) : result fault (list RecordValue) :=
  tests ← mapR (prepare_filter sp entity) filters;
  rows ← filterR (filters_hold tests) (page_candidates s principal entity branch role None);
  mapR (fun e => decode_record sp principal entity e.1 e.2) rows.

Lemma page_candidates_after s principal entity branch role position :
  page_candidates s principal entity branch role position
  = List.filter (fun e => after_id position e.1) (page_candidates s principal entity branch role None).
Proof.
  unfold page_candidates. rewrite filter_filter. apply filter_equal. intros e _. cbn [after_id].
  destruct (bool_decide _), (in_branch _ _ _ _ _ _); by rewrite ?andb_true_r, ?andb_false_r.
Qed.

Section record_pages.
Variables (principal : pystr) (sp : RecordSpecification) (entity : pystr) (filters : list RecordFilter).
Variables (branch : option UUID) (role : option BranchRole) (limit : Z) (identity : pystr) (s : store).
Variable values : list RecordValue.
Hypothesis whole : unpaged principal sp entity filters branch role s = Ok values.
Hypothesis texts : unicode principal = true.
Hypothesis table_there : is_Some (st_tables s !! entity).
Hypothesis ids : ids_ok (table_rows s entity).
Hypothesis bound : 1 <= limit <= MAX_PAGE_LIMIT.
Hypothesis digest : valid_sha256 identity = true.

Lemma record_page_at : exists rows : list (UUID * row), forall i position,
  row_before rows i position ->
  exists next, record_page principal sp entity filters branch role limit position identity s
               = (Ok (Success {| rp_records := take (Z.to_nat limit) (drop i values); rp_next := next |}), s)
    /\ match next with
       | None => (length values <= i + Z.to_nat limit)%nat
       | Some c => (i + Z.to_nat limit < length values)%nat
                   /\ exists u, cursor_position (lit "record") identity (Some c) = Some (Some u)
                        /\ row_before rows (i + Z.to_nat limit) (Some u)
       end.
Proof using whole texts table_there ids bound digest.
  unfold unpaged in whole. apply bind_Ok in whole as (tests & Ht & (rows & Hrows & Hv)%bind_Ok).
  apply filterR_Ok in Hrows as (q & Hq & ->). exists (List.filter q (page_candidates s principal entity branch role None)).
  set (rows := List.filter q _) in *. intros i position Hpos.
  assert (ordered fst later rows) as Ho by (by apply ordered_filter, ordered_filter, by_id_ordered).
  assert (forall e, e ∈ rows -> (0 < e.1 < 2 ^ 128)%N) as Hids.
  { intros e He. apply ids. unfold rows, page_candidates in He. rewrite filter_filter in He.
    apply list_elem_of_In, filter_In in He as [He%list_elem_of_In%by_id_in _]. by eexists. }
  assert (exists next, paged (Z.to_nat limit) (fun e => decode_record sp principal entity e.1 e.2)
      (fun e => contractual (encode_cursor (lit "record") identity e.1)) (take (S (Z.to_nat limit)) (drop i rows))
      = Ok (take (Z.to_nat limit) (drop i values), next) /\ match next with
        | None => (length rows <= i + Z.to_nat limit)%nat
        | Some c => exists e, rows !! (i + Z.to_nat limit - 1)%nat = Some e
            /\ contractual (encode_cursor (lit "record") identity e.1) = Ok c /\ (i + Z.to_nat limit < length rows)%nat
        end) as (next & Hpage & Hnext).
  { apply paged_at; [lia|done|]. intros e He. destruct (encode_cursor_spec (lit "record") identity
      ltac:(apply identity_words; [done|vm_compute; lia|done]) e.1 (Hids e He)) as (c & -> & _). done. }
  exists next. split.
  - destruct table_there as [tb Htb]. unfold record_page. rewrite Ht. cbn [run_result]. erewrite bind_run by reflexivity.
    unfold bind_texts. cbn [forallb]. rewrite texts. cbn [andb negb]. rewrite raise_when_bind.
    unfold the_table. rewrite bind_nested, reading_bind, Htb. erewrite bind_run by reflexivity. rewrite reading_bind.
    rewrite (select_first_pure _ q), page_candidates_after, filter_filter by (intros e He; apply Hq;
      rewrite page_candidates_after in He; by apply list_elem_of_In, filter_In in He as [He%list_elem_of_In _]).
    rewrite (filter_equal (fun e => after_id position e.1 && q e) (fun e => q e && after_id position e.1))
      by (intros; apply andb_comm).
    rewrite <- filter_filter. fold rows. rewrite (rows_after rows i position Ho Hpos). cbn [run_result].
    erewrite bind_run by reflexivity. rewrite Hpage. cbn [run_result]. erewrite bind_run by reflexivity. cbv beta iota.
    erewrite bind_run; [reflexivity|]. unfold make_record_page. cbn [rp_records].
    rewrite (proj2 (Z.leb_le _ MAX_PAGE_LIMIT)) by (rewrite length_take; lia). reflexivity.
  - rewrite (mapR_length _ _ _ Hv). destruct next as [c|]; [|done]. destruct Hnext as (e & He & Hc & Hlt). split; [done|].
    destruct (encode_cursor_spec (lit "record") identity ltac:(apply identity_words; [done|vm_compute; lia|done])
      e.1 (Hids e (list_elem_of_lookup_2 _ _ _ He))) as (c' & Hc' & _ & Hpos' & _).
    rewrite Hc' in Hc. injection Hc as <-. exists e.1. split; [done|]. split; [lia|by exists e].
Qed.
End record_pages.

(** Both queries on records, a page at a time and without pages. *)
Inductive record_query := Listing (q : ListRecordsQuery) | Searching (q : SearchRecordsQuery).

Definition query_entity (k : record_query) : pystr := match k with Listing q => lr_entity q | Searching q => sr_entity q end.
Definition query_page (k : record_query) : PageRequest := match k with Listing q => lr_page q | Searching q => sr_page q end.
Definition page_at (p : PageRequest) (c : option PageCursor) : PageRequest := {| page_limit := page_limit p; page_cursor := c |}.

Definition ask_records (a : attempt) (principal via : pystr) (sp : RecordSpecification) (s : store) (k : record_query)
    (c : option PageCursor) : option (answer RecordPage) :=
  match k with
  | Listing q =>
      list_records a principal via sp
        {| lr_entity := lr_entity q; lr_branch := lr_branch q; lr_role := lr_role q; lr_page := page_at (lr_page q) c |} s
  | Searching q =>
      search_records a principal via sp
        {| sr_entity := sr_entity q; sr_filters := sr_filters q; sr_branch := sr_branch q; sr_role := sr_role q;
           sr_page := page_at (sr_page q) c |} s
  end.

Definition whole_query (principal : pystr) (sp : RecordSpecification) (s : store) (k : record_query)
  : result fault (list RecordValue) :=
  match k with
  | Listing q => unpaged principal sp (lr_entity q) [] (lr_branch q) (lr_role q) s
  | Searching q =>
      match checked_filters sp q with
      | Some filters => unpaged principal sp (sr_entity q) filters (sr_branch q) (sr_role q) s
      | None => Raise OtherFault
      end
  end.

Lemma ready_table a sp s n :
  reading_ready a sp s = Ok tt -> is_Some (spec_entity sp n) -> is_Some (st_tables s !! n).
Proof.
  unfold reading_ready. intros (_ & _ & (_ & _ & Hd)%bind_Ok)%bind_Ok [e He].
  unfold raise_if in Hd. destruct (domain_ready sp s) eqn:E; [|done]. unfold domain_ready in E.
  rewrite forallb_forall in E. unfold spec_entity in He. apply find_some in He as [Hin Hn].
  apply E in Hin. unfold entity_ready in Hin. apply bool_decide_eq_true in Hn. rewrite Hn in Hin.
  destruct (st_tables s !! n); [by eexists|done].
Qed.

Lemma read_answers {A} a sp (op : stx (answer A)) s r :
  reading_ready a sp s = Ok tt -> op s = (Ok r, s) -> read_store a sp op s = r.
Proof. intros Hr Ho. unfold read_store. rewrite Hr. cbn [mbind result_bind]. by rewrite Ho. Qed.

(** What a request asks of [_record_page], whatever its cursor. *)
Lemma ask_records_spec a principal via sp s k values :
  is_Some (admitted principal via sp) -> is_Some (spec_entity sp (query_entity k)) ->
  whole_query principal sp s k = Ok values -> ask_records a principal via sp s k None <> None ->
  exists filters branch role identity,
    unpaged principal sp (query_entity k) filters branch role s = Ok values /\ valid_sha256 identity = true
    /\ forall c, ask_records a principal via sp s k c = Some (
         match cursor_position (lit "record") identity c with
         | None => Failure validation_failed
         | Some position => read_store a sp (record_page principal sp (query_entity k) filters branch role
                                               (page_limit (query_page k)) position identity) s
         end).
Proof.
  intros [checked Hadm] [e He] Hv Hask. pose proof (admitted_spec _ _ _ _ Hadm) as (-> & _).
  destruct k as [q|q]; unfold whole_query, ask_records, list_records, search_records in *; rewrite Hadm in *.
  - cbn [lr_entity lr_branch lr_role lr_page page_at page_cursor page_limit query_entity query_page] in *. rewrite He in *.
    destruct (query_identity _ _ _ _ _ _ _) as [identity|] eqn:Hi; [|done].
    exists [], (lr_branch q), (lr_role q), identity. split; [done|]. split; [by eapply query_identity_valid|done].
  - unfold checked_filters in *. cbn [sr_entity sr_branch sr_role sr_page sr_filters page_at page_cursor page_limit query_entity query_page] in *.
    destruct (match mapR _ _ with Ok _ => _ | Raise _ => _ end) as [filters|] eqn:Hf; [|done].
    destruct (query_identity _ _ _ _ _ _ _) as [identity|] eqn:Hi; [|done].
    exists filters, (sr_branch q), (sr_role q), identity. split; [done|]. split; [by eapply query_identity_valid|done].
Qed.

Lemma records_walk a principal via sp s k values :
  is_Some (admitted principal via sp) -> unicode principal = true -> is_Some (spec_entity sp (query_entity k)) ->
  1 <= page_limit (query_page k) <= MAX_PAGE_LIMIT -> ids_ok (table_rows s (query_entity k)) ->
  reading_ready a sp s = Ok tt -> ask_records a principal via sp s k None <> None ->
  whole_query principal sp s k = Ok values ->
  walk rp_records rp_next (ask_records a principal via sp s k) (S (length values)) None = Some values.
Proof.
  intros Hadm Hu He Hl Hids Hr Hask Hv.
  destruct (ask_records_spec a principal via sp s k values Hadm He Hv Hask) as (filters & branch & role & identity & Hw & Hd & Heq).
  destruct (record_page_at principal sp (query_entity k) filters branch role (page_limit (query_page k)) identity s values
    Hw Hu (ready_table _ _ _ _ Hr He) Hids Hl Hd) as (rows & Hpages).
  apply (walk_complete rp_records rp_next _ (Z.to_nat (page_limit (query_page k))) values
    (fun i c => exists position, cursor_position (lit "record") identity c = Some position /\ row_before rows i position));
    [lia|by exists None|].
  intros i c _ (position & Hpos & Hrow). destruct (Hpages i position Hrow) as (next & Hrun & Hnext).
  eexists. rewrite Heq, Hpos. split; [f_equal; by eapply read_answers|]. split; [done|]. cbn [rp_next].
  destruct next as [c'|]; [|done]. destruct Hnext as (Hlt & u & Hu' & Hrow'). split; [done|]. by exists (Some u).
Qed.

(** ** Histories *)
Definition ask_history (a : attempt) (principal via : pystr) (sp : RecordSpecification) (s : store) (q : RecordHistoryQuery)
    (c : option PageCursor) : option (answer HistoryPage) :=
  record_history a principal via sp
    {| hq_entity := hq_entity q; hq_record := hq_record q; hq_page := page_at (hq_page q) c |} s.

Definition whole_history (principal : pystr) (sp : RecordSpecification) (s : store) (q : RecordHistoryQuery)
  : result fault (list RecordHistoryEvent) :=
  mapR (decode_history sp) (history_candidates s principal (hq_entity q) (hq_record q) None).

Definition sequences_ok (s : store) : Prop := forall h, h ∈ st_history s -> 1 <= h_sequence h < 2 ^ 63.

Definition event_before (rows : list history_row) (i : nat) (position : option Z) : Prop :=
  match position with
  | None => i = 0%nat
  | Some z => (0 < i)%nat /\ exists h, rows !! (i - 1)%nat = Some h /\ h_sequence h = z
  end.

Lemma history_in_order s : StronglySorted Z.lt (map h_sequence (st_history s)) ->
  ordered h_sequence (fun z h => z <? h_sequence h) (st_history s).
Proof.
  unfold ordered. induction (st_history s) as [|h l IH]; cbn [map]; [constructor|].
  intros [Hs Hf]%StronglySorted_inv. constructor; [by apply IH|].
  apply Forall_forall. intros x Hx. apply Z.ltb_lt. by eapply (proj1 (Forall_forall _ _)); [exact Hf|apply list_elem_of_fmap_2].
Qed.

Lemma sequence_asymmetric (x y : history_row) : (h_sequence x <? h_sequence y) = true -> (h_sequence y <? h_sequence x) = false.
Proof. rewrite Z.ltb_lt, Z.ltb_ge. lia. Qed.

Lemma history_candidates_spec s principal entity record position :
  StronglySorted Z.lt (map h_sequence (st_history s)) -> sequences_ok s ->
  let rows := history_candidates s principal entity record None in
  ordered h_sequence (fun z h => z <? h_sequence h) rows
  /\ (forall h, h ∈ rows -> h ∈ st_history s)
  /\ history_candidates s principal entity record position
     = List.filter (fun h => default 0 position <? h_sequence h) rows.
Proof.
  intros Hs%history_in_order Hok. cbv zeta.
  assert (forall p, history_candidates s principal entity record p
    = List.filter (fun h => bool_decide (h_principal h = principal) && bool_decide (h_entity h = entity)
                           && (default 0 p <? h_sequence h)
                           && match record with Some u => (h_record h =? u)%N | None => true end) (st_history s)) as E.
  { intros p. apply sorted_by_id. match goal with |- StronglySorted _ (List.filter ?f _) => set (g := f) end.
    pose proof (ordered_filter h_sequence (fun z h => z <? h_sequence h) g _ Hs) as Ho. unfold ordered in Ho.
    clear Hs. induction Ho as [|x l Hl IH Hx]; constructor; [done|]. rewrite Forall_forall in *. intros y Hy%Hx. lia. }
  rewrite !E. split_and!.
  - by apply ordered_filter.
  - intros h [Hh _]%list_elem_of_In%filter_In. by apply list_elem_of_In.
  - rewrite filter_filter. apply filter_equal. intros h Hh%Hok. cbn [default from_option id].
    rewrite (proj2 (Z.ltb_lt 0 _)) by lia. rewrite andb_true_r.
    destruct (bool_decide _ && _), (default 0 position <? _), (match record with Some _ => _ | None => _ end); done.
Qed.

Lemma events_after rows i position :
  ordered h_sequence (fun z h => z <? h_sequence h) rows -> (forall h, h ∈ rows -> 1 <= h_sequence h) ->
  event_before rows i position ->
  List.filter (fun h => default 0 position <? h_sequence h) rows = drop i rows.
Proof.
  intros Ho Hok. destruct position as [z|]; cbn [event_before].
  - intros (Hi & h & Hh & <-). cbn [default from_option id].
    etrans; [by apply (after_drop h_sequence (fun z h => z <? h_sequence h) sequence_asymmetric)|]. f_equal. lia.
  - intros ->. rewrite drop_0. apply RecordValues.filter_true, forallb_forall. intros h Hh%list_elem_of_In%Hok. cbn. lia.
Qed.

(** A method whose page function answers every position walks the whole. *)
Lemma history_page_at principal sp q s values identity i position :
  whole_history principal sp s q = Ok values -> unicode principal = true -> valid_sha256 identity = true ->
  StronglySorted Z.lt (map h_sequence (st_history s)) -> sequences_ok s ->
  1 <= page_limit (hq_page q) <= MAX_PAGE_LIMIT ->
  let rows := history_candidates s principal (hq_entity q) (hq_record q) None in
  let limit := Z.to_nat (page_limit (hq_page q)) in
  event_before rows i position ->
  exists next, history_page principal sp q position identity s
               = (Ok (Success {| hp_events := take limit (drop i values); hp_next := next |}), s)
    /\ match next with
       | None => (length values <= i + limit)%nat
       | Some c => (i + limit < length values)%nat
                   /\ exists z, cursor_sequence (lit "history") identity (Some c) = Some (Some z)
                        /\ event_before rows (i + limit) (Some z)
       end.
Proof.
  intros Hv Hu Hd Hs Hok Hl. cbv zeta. intros Hpos. unfold whole_history in Hv.
  destruct (history_candidates_spec s principal (hq_entity q) (hq_record q) position Hs Hok) as (Ho & Hin & Hpage).
  set (rows := history_candidates _ _ _ _ None) in *. set (limit := Z.to_nat _) in *.
  assert (forall h, h ∈ rows -> 1 <= h_sequence h < 2 ^ 63) as Hrows by auto.
  assert (plain_words (lit "history") identity) as Hw by (apply identity_words; [done|vm_compute; lia|done]).
  destruct (paged_at (decode_history sp)
    (fun h => contractual (encode_sequence_cursor (lit "history") identity (h_sequence h))) limit ltac:(lia) rows values i Hv)
    as (next & Hpg & Hnext).
  { intros h Hh. by destruct (encode_sequence_spec (lit "history") identity Hw _ (Hrows h Hh)) as (c & -> & _). }
  exists next. split.
  - unfold history_page, bind_texts. cbn [forallb]. rewrite Hu. cbn [andb negb]. rewrite raise_when_bind, reading_bind, Hpage.
    rewrite (events_after rows i position Ho) by (done || (intros h Hh; by apply Hrows)).
    fold limit. rewrite Hpg. cbn [run_result]. erewrite bind_run by reflexivity. cbv beta iota.
    erewrite bind_run; [reflexivity|]. unfold make_history_page. cbn [hp_events].
    rewrite (proj2 (Z.leb_le _ MAX_PAGE_LIMIT)) by (rewrite length_take; lia). reflexivity.
  - rewrite (mapR_length _ _ _ Hv). destruct next as [c|]; [|done]. destruct Hnext as (h & Hh & Hc & Hlt). split; [done|].
    destruct (encode_sequence_spec (lit "history") identity Hw _ (Hrows h (list_elem_of_lookup_2 _ _ _ Hh))) as (c' & Hc' & Hpos').
    rewrite Hc' in Hc. injection Hc as <-. exists (h_sequence h). split; [done|]. split; [lia|by exists h].
Qed.

Lemma history_walk a principal via sp s q values :
  is_Some (admitted principal via sp) -> unicode principal = true -> is_Some (spec_entity sp (hq_entity q)) ->
  1 <= page_limit (hq_page q) <= MAX_PAGE_LIMIT ->
  StronglySorted Z.lt (map h_sequence (st_history s)) -> sequences_ok s ->
  reading_ready a sp s = Ok tt -> ask_history a principal via sp s q None <> None ->
  whole_history principal sp s q = Ok values ->
  walk hp_events hp_next (ask_history a principal via sp s q) (S (length values)) None = Some values.
Proof.
  intros [checked Hadm] Hu [e He] Hl Hs Hok Hr Hask Hv. pose proof (admitted_spec _ _ _ _ Hadm) as (-> & _).
  assert (exists identity, valid_sha256 identity = true /\ forall c, ask_history a principal via sp s q c = Some (
    match cursor_sequence (lit "history") identity c with
    | None => Failure validation_failed
    | Some position => read_store a sp (history_page principal sp q position identity) s
    end)) as (identity & Hd & Heq).
  { unfold ask_history, record_history in *. rewrite Hadm in *. cbn [hq_entity hq_record hq_page page_at page_cursor] in *.
    rewrite He in *. destruct (query_identity _ _ _ _ _ _ _) as [identity|] eqn:Hi; [|done].
    exists identity. split; [by eapply query_identity_valid|done]. }
  apply (walk_complete hp_events hp_next _ (Z.to_nat (page_limit (hq_page q))) values
    (fun i c => exists position, cursor_sequence (lit "history") identity c = Some position
                  /\ event_before (history_candidates s principal (hq_entity q) (hq_record q) None) i position));
    [lia|by exists None|].
  intros i c _ (position & Hpos & Hrow).
  destruct (history_page_at principal sp q s values identity i position Hv Hu Hd Hs Hok Hl Hrow) as (next & Hrun & Hnext).
  eexists. rewrite Heq, Hpos. split; [f_equal; by eapply read_answers|]. split; [done|]. cbn [hp_next].
  destruct next as [c'|]; [|done]. destruct Hnext as (Hlt & u & Hu' & Hrow'). split; [done|]. by exists (Some u).
Qed.
End records.

(** ** Branches *)
Section branches.
Context `{FloatRead} `{IsoDates}.

Definition ask_branches (a : attempt) (principal via : pystr) (sp : RecordSpecification) (s : store) (q : ListBranchesQuery)
    (c : option PageCursor) : option (answer BranchPage) :=
  list_branches a principal via sp
    {| lb_status := lb_status q; lb_type := lb_type q; lb_parent := lb_parent q; lb_page := page_at (lb_page q) c |} s.

Definition whole_branches (principal : pystr) (s : store) (q : ListBranchesQuery) : recorded (list BranchValue) :=
  mapR read_branch (branch_candidates s principal q None).

Lemma branch_type_unicode t : branch_type_name t = true -> unicode t = true.
Proof.
  unfold branch_type_name. intros [_ Ht]%andb_true_iff. apply ascii_unicode, safe_ascii.
  destruct t as [|c t]; [done|]. apply andb_true_iff in Ht as [Hc Ht]. cbn [forallb]. apply andb_true_iff. split.
  - unfold url_safe. by rewrite Hc.
  - revert Ht. rewrite !forallb_forall. intros Ht d Hd%Ht. unfold is_ident_char in Hd. unfold url_safe.
    destruct (is_lower d), (is_digit d), (d =? 95)%N, (d =? 45)%N; by rewrite ?orb_true_r.
Qed.

Lemma branch_texts q :
  is_ok (make_list_branches q) = true ->
  json_wf (uuid_json (lb_parent q)) = true /\ json_wf (text_json (lb_type q)) = true /\ json_wf (status_json (lb_status q)) = true.
Proof.
  intros Hq. split_and!.
  - destruct (lb_parent q) as [u|]; [|done]. cbn [uuid_json joption json_wf jstr scalar_wf]. by apply ascii_unicode, safe_ascii, uuid_safe.
  - destruct (lb_type q) as [t|] eqn:Et; [|done]. unfold make_list_branches, require_optional_branch_type in Hq. rewrite Et in Hq.
    cbn [text_json joption json_wf jstr scalar_wf]. destruct (branch_type_name t) eqn:Eb; [by apply branch_type_unicode|done].
  - by destruct (lb_status q) as [[]|].
Qed.

(** The identities a query of branches has, whatever its cursor. *)
Lemma branch_identities principal sp q :
  is_ok (make_list_branches q) = true -> unicode principal = true ->
  exists fp identity, valid_sha256 fp = true /\ valid_sha256 identity = true
    /\ fingerprint_of (branch_query_payload q) = Some fp
    /\ query_identity (lit "list_branches") principal (sp_schema_version sp) (lit "branch") (lb_parent q) None
         [JArr [jstr (lit "status"); status_json (lb_status q)]; JArr [jstr (lit "branch_type"); text_json (lb_type q)]]
       = Some identity.
Proof.
  intros (Hp & Ht & Hs)%branch_texts Hu.
  destruct (fingerprint_encodes (branch_query_payload q)) as (fp & Hfp & Hfpv).
  { unfold branch_query_payload. cbn [json_wf forallb fst snd]. by rewrite Hp, Ht, Hs. }
  match goal with |- context [query_identity ?k ?p ?v ?e ?b ?r ?fs] =>
    destruct (fingerprint_encodes (query_payload k p v e b r fs)) as (identity & Hi & Hiv) end.
  { cbn [query_payload role_json joption json_wf forallb fst snd jstr jint scalar_wf]. by rewrite Hp, Ht, Hs, Hu. }
  by exists fp, identity.
Qed.

Lemma branch_candidates_spec s principal q position :
  ids_ok (st_branches s) ->
  let rows := branch_candidates s principal q None in
  ordered fst later rows /\ (forall e, e ∈ rows -> (0 < e.1 < 2 ^ 128)%N)
  /\ branch_candidates s principal q position = List.filter (fun e => after_id position e.1) rows.
Proof.
  intros Hids. cbv zeta. split_and!.
  - by apply ordered_filter, by_id_ordered.
  - intros e [He%list_elem_of_In%by_id_in _]%list_elem_of_In%filter_In. apply Hids. by eexists.
  - unfold branch_candidates. rewrite filter_filter. apply filter_equal. intros e _. cbn [after_id]. by rewrite andb_true_r.
Qed.

Lemma branch_page_at principal q s values fp i position :
  whole_branches principal s q = Ok values -> unicode principal = true -> topology_admitted principal (lit "read") = true ->
  valid_sha256 fp = true -> fingerprint_of (branch_query_payload q) = Some fp -> ids_ok (st_branches s) ->
  1 <= page_limit (lb_page q) <= MAX_PAGE_LIMIT -> branch_position fp (page_cursor (lb_page q)) = Some position ->
  let rows := branch_candidates s principal q None in
  let limit := Z.to_nat (page_limit (lb_page q)) in
  row_before rows i position ->
  exists next, topology_list principal q s
               = (Ok (Success {| bp_branches := take limit (drop i values); bp_next := next |}), s)
    /\ match next with
       | None => (length values <= i + limit)%nat
       | Some c => (i + limit < length values)%nat
                   /\ (forallb url_safe (cursor_value c) = true /\ cursor_value c <> [] /\ (length (cursor_value c) <= 512)%nat)
                   /\ exists u, branch_position fp (Some c) = Some (Some u) /\ row_before rows (i + limit) (Some u)
       end.
Proof.
  intros Hv Hu Hadm Hd Hfp Hids Hl Hpos. cbv zeta. intros Hrow. unfold whole_branches in Hv.
  destruct (branch_candidates_spec s principal q position Hids) as (Ho & Hin & Hpage).
  set (rows := branch_candidates _ _ _ None) in *. set (limit := Z.to_nat _) in *.
  assert (plain_words (lit "branch") fp) as Hw by (apply identity_words; [done|vm_compute; lia|done]).
  destruct (paged_at read_branch (fun e => encode_cursor (lit "branch") fp e.1) limit ltac:(lia) rows values i Hv)
    as (next & Hpg & Hnext).
  { intros e He. by destruct (encode_cursor_spec (lit "branch") fp Hw e.1 (Hin e He)) as (c & -> & _). }
  exists next. split.
  - unfold topology_list. rewrite Hadm. cbn [negb]. rewrite Hfp. cbn [valued run_result]. erewrite bind_run by reflexivity.
    rewrite Hpos, Hu. cbn [negb]. rewrite reading_bind, Hpage, (rows_after rows i position Ho Hrow). fold limit.
    rewrite Hpg. cbn [mbind result_bind]. unfold make_branch_page. cbn [bp_branches].
    rewrite (proj2 (Z.leb_le _ MAX_PAGE_LIMIT)) by (rewrite length_take; lia). reflexivity.
  - rewrite (mapR_length _ _ _ Hv). destruct next as [c|]; [|done]. destruct Hnext as (e & He & Hc & Hlt). split; [done|].
    destruct (encode_cursor_spec (lit "branch") fp Hw e.1 (Hin e (list_elem_of_lookup_2 _ _ _ He))) as (c' & Hc' & Hsafe & _ & Hpos').
    rewrite Hc' in Hc. injection Hc as <-. split; [done|]. exists e.1. split; [by apply Hpos'|]. split; [lia|by exists e].
Qed.

Lemma branches_walk a principal via sp s q values :
  is_Some (admitted principal via sp) -> unicode principal = true -> is_ok (make_list_branches q) = true ->
  1 <= page_limit (lb_page q) <= MAX_PAGE_LIMIT -> ids_ok (st_branches s) ->
  reading_ready a sp s = Ok tt -> whole_branches principal s q = Ok values ->
  walk bp_branches bp_next (ask_branches a principal via sp s q) (S (length values)) None = Some values.
Proof.
  intros [checked Hadm] Hu Hq Hl Hids Hr Hv. pose proof (admitted_spec _ _ _ _ Hadm) as (-> & _ & Hp & _).
  destruct (branch_identities principal sp q Hq Hu) as (fp & identity & Hfpv & Hiv & Hfp & Hi).
  set (within inner := {| lb_status := lb_status q; lb_type := lb_type q; lb_parent := lb_parent q; lb_page := page_at (lb_page q) inner |}).
  assert (forall c, ask_branches a principal via sp s q c = Some (
    match unwrap_branch_cursor identity c with
    | None => Failure validation_failed
    | Some inner => read_store a sp (r ← topology_list principal (within inner); rewrapped identity r) s
    end)) as Heq.
  { intros c. unfold ask_branches, list_branches. rewrite Hadm. cbn [lb_parent lb_status lb_type lb_page page_at page_cursor].
    rewrite Hi. cbn [mbind option_bind]. f_equal. destruct (unwrap_branch_cursor identity c) as [inner|]; [|done].
    unfold inner_query, make_page. cbn [lb_parent lb_status lb_type lb_page page_limit].
    cbn [page_limit page_at]. rewrite (proj2 (Z.leb_le 1 _)), (proj2 (Z.leb_le _ MAX_PAGE_LIMIT)) by lia.
    cbn [contract raise_if negb andb mbind result_bind]. change (make_list_branches _) with (make_list_branches (within inner)). assert (make_list_branches (within inner) = Ok (within inner)) as ->; [|done].
    revert Hq. unfold make_list_branches. cbn [lb_type lb_parent within].
    destruct (require_optional_branch_type (lb_type q)) as [[]|]; [|done]. cbn [mbind result_bind].
    by destruct (when_some require_uuid (lb_parent q)) as [[]|]. }
  apply (walk_complete bp_branches bp_next _ (Z.to_nat (page_limit (lb_page q))) values
    (fun i c => exists inner position, unwrap_branch_cursor identity c = Some inner
       /\ branch_position fp inner = Some position /\ row_before (branch_candidates s principal q None) i position));
    [lia|by exists None, None|].
  intros i c _ (inner & position & Hin & Hpos & Hrow).
  destruct (branch_page_at principal (within inner) s values fp i position) as (next & Hrun & Hnext);
    [done|done|by unfold topology_admitted; rewrite Hp|done..|].
  rewrite Heq, Hin. destruct next as [c'|].
  - destruct Hnext as (Hlt & (Hs & Hne & Hlen) & u & Hu' & Hrow').
    destruct (wrap_spec identity c' Hiv Hs Hne Hlen) as (w & Hw & Hun).
    eexists. split; [f_equal; eapply read_answers; [done|]|].
    { erewrite bind_run by exact Hrun. cbn [rewrapped bp_next bp_branches]. rewrite Hw. cbn [run_recorded].
      erewrite bind_run by reflexivity. erewrite bind_run; [reflexivity|]. unfold make_branch_page. cbn [bp_branches].
      rewrite (proj2 (Z.leb_le _ MAX_PAGE_LIMIT)); [reflexivity|]. rewrite length_take. cbn [lb_page within page_at page_limit]. lia. }
    split; [done|]. cbn [bp_next]. split; [done|]. by exists (Some c'), (Some u).
  - eexists. split; [f_equal; eapply read_answers; [done|]|].
    { erewrite bind_run by exact Hrun. cbn [rewrapped bp_next bp_branches wrap_branch_cursor run_recorded].
      erewrite bind_run by reflexivity. erewrite bind_run; [reflexivity|]. unfold make_branch_page. cbn [bp_branches].
      rewrite (proj2 (Z.leb_le _ MAX_PAGE_LIMIT)); [reflexivity|]. rewrite length_take. cbn [lb_page within page_at page_limit]. lia. }
    by split.
Qed.
End branches.

(** ** What a cursor is bound to *)
Section bound.
Context `{FloatRead}.

Lemma open_cursor_bound (strict : bool) kind identity key c j :
  open_cursor strict kind identity key c = Some j ->
  exists text es, (b64_decode (cursor_value c) ≫= utf8_decode) = Some text
    /\ (decode_canonical_json text ≫= exact_keys [lit "v"; lit "kind"; lit "query"; key]) = Some es
    /\ get_str es (lit "kind") = Some kind /\ get_str es (lit "query") = Some identity /\ dict_get es key = Some j.
Proof.
  unfold open_cursor. intros (bytes & Hb & Hu)%bind_Some. destruct (strict && _); [done|].
  apply bind_Some in Hu as (text & Ht & (raw & Hr & (es & He & (v & Hv & (k & Hk & (q & Hq & Hx)%bind_Some)%bind_Some)%bind_Some)%bind_Some)%bind_Some).
  destruct (is_one v && _ && _) eqn:E; [|done]. apply andb_true_iff in E as [[_ ->%bool_decide_eq_true]%andb_true_iff ->%bool_decide_eq_true].
  exists text, es. rewrite Hb. cbn [mbind option_bind]. split; [done|]. rewrite Hr. done.
Qed.

(** The words of a cursor do not depend on what is asked of it. *)
Lemma open_cursor_words (strict strict' : bool) kind kind' identity identity' key key' c j j' :
  open_cursor strict kind identity key c = Some j -> open_cursor strict' kind' identity' key' c = Some j' ->
  kind = kind' /\ identity = identity'.
Proof.
  intros (text & es & Ht & He & Hk & Hq & _)%open_cursor_bound (text' & es' & Ht' & He' & Hk' & Hq' & _)%open_cursor_bound.
  rewrite Ht in Ht'. injection Ht' as <-. apply bind_Some in He as (raw & Hr & He), He' as (raw' & Hr' & He').
  assert (raw' = raw) as -> by congruence. destruct raw as [|v|items|entries]; [done..|]. unfold exact_keys in He, He'.
  destruct (_ && _) in He; [|done]. destruct (_ && _) in He'; [|done]. split; congruence.
Qed.

Lemma query_payload_inj kind kind' principal principal' version version' entity entity' branch branch' role role' filters filters' :
  sort_keys (query_payload kind principal version entity branch role filters)
  = sort_keys (query_payload kind' principal' version' entity' branch' role' filters') ->
  kind = kind' /\ principal = principal' /\ version = version' /\ entity = entity'
  /\ uuid_str <$> branch = uuid_str <$> branch' /\ role = role' /\ map sort_keys filters = map sort_keys filters'.
Proof.
  intros Heq. unfold query_payload in Heq. cbn [sort_keys map fst snd jstr jint] in Heq.
  assert (forall b : option UUID, sort_keys (uuid_json b) = uuid_json b) as Hb by (by intros []).
  assert (forall r, sort_keys (role_json r) = role_json r) as Hr by (by intros []). rewrite !Hb, !Hr in Heq.
  apply (f_equal (fun j => match j with JObj es => es | _ => [] end)) in Heq.
  pose proof (fun k => f_equal (fun es => dict_get es (k : pystr)) Heq) as Hget. clear Heq.
  pose proof (Hget (lit "kind") : Some (jstr kind) = Some (jstr kind')) as [= ->].
  pose proof (Hget (lit "principal_id") : Some (jstr principal) = Some (jstr principal')) as [= ->].
  pose proof (Hget (lit "schema_version") : Some (jint version) = Some (jint version')) as [= ->].
  pose proof (Hget (lit "entity_name") : Some (jstr entity) = Some (jstr entity')) as [= ->].
  pose proof (Hget (lit "branch_id") : Some (uuid_json branch) = Some (uuid_json branch')) as [= Hbranch].
  pose proof (Hget (lit "branch_role") : Some (role_json role) = Some (role_json role')) as [= Hrole].
  pose proof (Hget (lit "filters") : Some (JArr (map sort_keys filters)) = Some (JArr (map sort_keys filters'))) as [= Hfs].
  split_and!; [done..| | |done].
  - destruct branch as [u|], branch' as [u'|]; [|done..].
    exact (f_equal as_str Hbranch).
  - by destruct role as [[]|], role' as [[]|].
Qed.

(** ** Cursors at the paged operations *)
Inductive paged_query :=
| PagedList (q : ListRecordsQuery) | PagedSearch (q : SearchRecordsQuery) | PagedHistory (q : RecordHistoryQuery)
| PagedBranches (q : ListBranchesQuery).

Definition cursor_of (k : paged_query) : option PageCursor :=
  match k with
  | PagedList q => page_cursor (lr_page q) | PagedSearch q => page_cursor (sr_page q)
  | PagedHistory q => page_cursor (hq_page q) | PagedBranches q => page_cursor (lb_page q)
  end.

(** The operation answers with a page. *)
Definition page_answered `{IsoDates} (a : attempt) (principal via : pystr) (sp : RecordSpecification) (s : store) (k : paged_query)
  : Prop :=
  match k with
  | PagedList q => exists p, list_records a principal via sp q s = Some (Success p)
  | PagedSearch q => exists p, search_records a principal via sp q s = Some (Success p)
  | PagedHistory q => exists p, record_history a principal via sp q s = Some (Success p)
  | PagedBranches q => exists p, list_branches a principal via sp q s = Some (Success p)
  end.

(** What identifies a query, as a document. *)
Definition branch_filters (q : ListBranchesQuery) : list json :=
  [JArr [jstr (lit "status"); status_json (lb_status q)]; JArr [jstr (lit "branch_type"); text_json (lb_type q)]].
Definition query_document `{IsoDates} (principal : pystr) (sp : RecordSpecification) (k : paged_query) : option json :=
  match k with
  | PagedList q =>
      Some (query_payload (lit "list_records") principal (sp_schema_version sp) (lr_entity q) (lr_branch q) (lr_role q) [])
  | PagedSearch q =>
      filters ← checked_filters sp q;
      Some (query_payload (lit "search_records") principal (sp_schema_version sp) (sr_entity q) (sr_branch q) (sr_role q)
              (map filter_json filters))
  | PagedHistory q =>
      Some (query_payload (lit "record_history") principal (sp_schema_version sp) (hq_entity q) (hq_record q) None [])
  | PagedBranches q =>
      Some (query_payload (lit "list_branches") principal (sp_schema_version sp) (lit "branch") (lb_parent q) None
              (branch_filters q))
  end.

(** The identity that [_query_identity] gives the query. *)
Definition asked_identity `{IsoDates} (principal : pystr) (sp : RecordSpecification) (k : paged_query) : option pystr :=
  match k with
  | PagedList q =>
      query_identity (lit "list_records") principal (sp_schema_version sp) (lr_entity q) (lr_branch q) (lr_role q) []
  | PagedSearch q =>
      filters ← checked_filters sp q;
      query_identity (lit "search_records") principal (sp_schema_version sp) (sr_entity q) (sr_branch q) (sr_role q)
        (map filter_json filters)
  | PagedHistory q =>
      query_identity (lit "record_history") principal (sp_schema_version sp) (hq_entity q) (hq_record q) None []
  | PagedBranches q =>
      query_identity (lit "list_branches") principal (sp_schema_version sp) (lit "branch") (lb_parent q) None
        (branch_filters q)
  end.

Lemma asked_document `{IsoDates} principal sp k :
  asked_identity principal sp k = query_document principal sp k ≫= fingerprint_of.
Proof. destruct k as [q|q|q|q]; cbn [asked_identity query_document]; [done| |done..]. by destruct (checked_filters sp q). Qed.

(** The same question of the same caller on the same schema version. *)
Definition same_query `{IsoDates} (principal : pystr) (sp : RecordSpecification) (k : paged_query)
    (principal' : pystr) (sp' : RecordSpecification) (k' : paged_query) : Prop :=
  principal = principal' /\ sp_schema_version sp = sp_schema_version sp'
  /\ match k, k' with
     | PagedList q, PagedList q' =>
         lr_entity q = lr_entity q' /\ uuid_str <$> lr_branch q = uuid_str <$> lr_branch q' /\ lr_role q = lr_role q'
     | PagedSearch q, PagedSearch q' =>
         sr_entity q = sr_entity q' /\ uuid_str <$> sr_branch q = uuid_str <$> sr_branch q' /\ sr_role q = sr_role q'
         /\ (map sort_keys ∘ map filter_json) <$> checked_filters sp q
            = (map sort_keys ∘ map filter_json) <$> checked_filters sp' q'
     | PagedHistory q, PagedHistory q' => hq_entity q = hq_entity q' /\ uuid_str <$> hq_record q = uuid_str <$> hq_record q'
     | PagedBranches q, PagedBranches q' =>
         lb_status q = lb_status q' /\ lb_type q = lb_type q' /\ uuid_str <$> lb_parent q = uuid_str <$> lb_parent q'
     | _, _ => False
     end.

(** An answered query with a cursor has opened it with its identity. *)
Lemma answered_opens `{IsoDates} a principal via sp s k c :
  page_answered a principal via sp s k -> cursor_of k = Some c ->
  exists document identity kind key j, query_document principal sp k = Some document /\ fingerprint_of document = Some identity
    /\ asked_identity principal sp k = Some identity
    /\ open_cursor true kind identity key c = Some j.
Proof.
  intros Hp Hc. enough (exists document identity kind key j, query_document principal sp k = Some document
    /\ fingerprint_of document = Some identity /\ open_cursor true kind identity key c = Some j)
    as (d & i & kind & key & j & Hd & Hi & Ho).
  { exists d, i, kind, key, j. rewrite asked_document, Hd. by split_and!. }
  revert Hp Hc. destruct k as [q|q|q|q]; cbn [page_answered cursor_of query_document]; intros [p Hp] Hc;
    [unfold list_records in Hp|unfold search_records in Hp|unfold record_history in Hp|unfold list_branches in Hp];
    destruct (admitted principal via sp) as [checked|] eqn:Hadm; try done;
    pose proof (admitted_spec _ _ _ _ Hadm) as (-> & _).
  - destruct (spec_entity sp _); [|done]. apply bind_Some in Hp as (identity & Hi & Hp). rewrite Hc in Hp.
    exists (query_payload (lit "list_records") principal (sp_schema_version sp) (lr_entity q) (lr_branch q) (lr_role q) []), identity.
    destruct (cursor_position _ _ _) as [position|] eqn:Ho; [|done]. apply bind_Some in Ho as (j & Ho & _). by eexists _, _, j.
  - destruct (checked_filters sp q) as [filters|]; [|done]. apply bind_Some in Hp as (identity & Hi & Hp). rewrite Hc in Hp.
    cbn [mbind option_bind]. eexists _, identity.
    destruct (cursor_position _ _ _) as [position|] eqn:Ho; [|done]. apply bind_Some in Ho as (j & Ho & _).
    by eexists _, _, j.
  - destruct (spec_entity sp _); [|done]. apply bind_Some in Hp as (identity & Hi & Hp). rewrite Hc in Hp.
    eexists _, identity. destruct (cursor_sequence _ _ _) as [position|] eqn:Ho; [|done].
    apply bind_Some in Ho as (j & Ho & _). by eexists _, _, j.
  - apply bind_Some in Hp as (identity & Hi & Hp). rewrite Hc in Hp. eexists _, identity.
    destruct (unwrap_branch_cursor _ _) as [inner|] eqn:Ho; [|done]. apply bind_Some in Ho as (j & Ho & _). by eexists _, _, j.
Qed.

Lemma same_document `{IsoDates} principal sp k principal' sp' k' d d' :
  query_document principal sp k = Some d -> query_document principal' sp' k' = Some d' -> sort_keys d = sort_keys d' ->
  same_query principal sp k principal' sp' k'.
Proof.
  intros Hd Hd' Heq. unfold same_query.
  destruct k as [q|q|q|q], k' as [q'|q'|q'|q']; cbn [query_document] in Hd, Hd';
    repeat match goal with
    | H : (_ ≫= _) = Some _ |- _ => let fs := fresh "fs" in let Hf := fresh "Hf" in apply bind_Some in H as (fs & Hf & H)
    end;
    apply (inj Some) in Hd as <-, Hd' as <-; apply query_payload_inj in Heq as (Hk & -> & -> & He & Hb & Hr & Hfs);
    try discriminate Hk; split_and!; try done.
  - cbn [fmap option_fmap option_map]. rewrite Hf, Hf0. cbn. by rewrite Hfs.
  - injection Hfs as Hs _. by destruct (lb_status q) as [[]|], (lb_status q') as [[]|].
  - injection Hfs as _ Ht. destruct (lb_type q) as [t|], (lb_type q') as [t'|]; try done. by injection Ht as ->.
Qed.
End bound.
