(* ===== verification/PagesTheorems.v ===== *)
(** * PagesTheorems: the properties of paged queries *)
From S2P Require Import Relational.
From S2P Require Export PagesSpec RecordSamples StoreTheorems.
From S2P Require Import Prelude Values Json JsonText Sha256 Manifest Samples.

(** C32: Following the cursors of [list_records] or [search_records] from the first
    page, for a store that stays as it is, gives every record that the query
    without pages finds: those of the owner, in the branch and role, that pass
    the filters, each exactly once and in the order of their ids.  The walk ends
    after at most one page per record, and no cursor that a page gives is
    refused. *)
Theorem record_pages_complete `{FloatRead} `{IsoDates} (a : attempt) (principal via : pystr) (sp : RecordSpecification)
    (s : store) (k : record_query) (values : list RecordValue) :
  is_Some (admitted principal via sp) -> unicode principal = true -> is_Some (spec_entity sp (query_entity k)) ->
  1 <= page_limit (query_page k) <= MAX_PAGE_LIMIT -> ids_ok (table_rows s (query_entity k)) ->
  reading_ready a sp s = Ok tt -> ask_records a principal via sp s k None <> None ->
  whole_query principal sp s k = Ok values ->
  walk rp_records rp_next (ask_records a principal via sp s k) (S (length values)) None = Some values.
Proof. apply records_walk. Qed.

(** C33: The same of [record_history] in every reachable store, whose events come
    in the order of their sequence numbers, and of [list_branches], whose
    cursors are those of the topology sealed once more for the service. *)
Theorem history_and_branch_pages_complete `{FloatRead} `{IsoDates} (a : attempt) (principal via : pystr)
    (sp : RecordSpecification) (s : store) :
  is_Some (admitted principal via sp) -> unicode principal = true -> reading_ready a sp s = Ok tt ->
  (forall (q : RecordHistoryQuery) events,
     StoreOK s -> sequences_ok s -> is_Some (spec_entity sp (hq_entity q)) -> 1 <= page_limit (hq_page q) <= MAX_PAGE_LIMIT ->
     ask_history a principal via sp s q None <> None -> whole_history principal sp s q = Ok events ->
     walk hp_events hp_next (ask_history a principal via sp s q) (S (length events)) None = Some events)
  /\ (forall (q : ListBranchesQuery) branches,
     ids_ok (st_branches s) -> is_ok (make_list_branches q) = true -> 1 <= page_limit (lb_page q) <= MAX_PAGE_LIMIT ->
     whole_branches principal s q = Ok branches ->
     walk bp_branches bp_next (ask_branches a principal via sp s q) (S (length branches)) None = Some branches).
Proof.
  intros Hadm Hu Hr. split.
  - intros q events [[_ Hs] _ _ _] Hseq He Hl Hask Hv. by apply history_walk.
  - intros q branches Hids Hq Hl Hv. by apply branches_walk.
Qed.

(** C34: A cursor is good for one query.  When two paged operations, list, search,
    history or branches, of any callers at any stores, answer pages for the same
    cursor, [_query_identity] gives both queries one identity; and they are the
    same operation asked the same thing: by the same caller on the same schema
    version, of the same entity, with the same branch, role, filters, record,
    status, type and parent; or the texts that identify them are two different
    inputs on which SHA-256 collides.  The values in the queries are ones that
    canonical JSON reads back: Python's, with whole numbers of 64 bits. *)
Theorem cursor_bound `{FloatRead} `{IsoDates} (a a' : attempt) (principal principal' via via' : pystr)
    (sp sp' : RecordSpecification) (s s' : store) (k k' : paged_query) (c : PageCursor) :
  page_answered a principal via sp s k -> page_answered a' principal' via' sp' s' k' ->
  cursor_of k = Some c -> cursor_of k' = Some c ->
  (forall d, query_document principal sp k = Some d -> JsonText.readable d = true) ->
  (forall d, query_document principal' sp' k' = Some d -> JsonText.readable d = true) ->
  (exists identity, asked_identity principal sp k = Some identity /\ asked_identity principal' sp' k' = Some identity)
  /\ (same_query principal sp k principal' sp' k'
      \/ exists d d', query_document principal sp k = Some d /\ query_document principal' sp' k' = Some d'
           /\ utf8 (canonical_json d) <> utf8 (canonical_json d')
           /\ sha256_hex (utf8 (canonical_json d)) = sha256_hex (utf8 (canonical_json d'))).
Proof.
  intros Ha Ha' Hc Hc' Hr Hr'.
  destruct (answered_opens _ _ _ _ _ _ _ Ha Hc) as (d & i & kind & key & j & Hd & Hi & Hasked & Hj).
  destruct (answered_opens _ _ _ _ _ _ _ Ha' Hc') as (d' & i' & kind' & key' & j' & Hd' & Hi' & Hasked' & Hj').
  destruct (open_cursor_words _ _ _ _ _ _ _ _ _ _ _ Hj Hj') as [_ <-]. split; [by exists i|].
  apply fingerprint_digest in Hi as [Hu ->], Hi' as [Hu' Heq].
  destruct (decide (canonical_json d = canonical_json d')) as [Hsame|Hne].
  - left. apply (same_document _ _ _ _ _ _ d d' Hd Hd'). by apply (canonical_text_inj _ _ (Hr d Hd) (Hr' d' Hd')).
  - right. exists d, d'. split_and!; [done|done| |done]. intros Hb. by apply Hne, utf8_inj.
Qed.

(** ** A shop with two customers *)
#[local] Existing Instances datum_float_repr datum_float_read shape_dates.

Definition another_customer : CreateRecordCommand :=
  {| cr_entity := lit "customer"; cr_record := [(lit "name", jstr (lit "Grace"))]; cr_key := lit "k4" |}.
Definition two_customers : store :=
  store_after (attempted_on (CreateRecord another_customer) (fair_attempt 9%N 1%N Committed) (store_after with_customer)).

Definition one_at_a_time : PageRequest := {| page_limit := 1; page_cursor := None |}.
Definition customer_list : record_query :=
  Listing {| lr_entity := lit "customer"; lr_branch := None; lr_role := None; lr_page := one_at_a_time |}.
Definition customer_search : record_query :=
  Searching {| sr_entity := lit "customer";
               sr_filters := [{| ff_entity := lit "customer"; ff_field := lit "name"; ff_mode := Exact;
                                 ff_value := jstr (lit "Grace") |}];
               sr_branch := None; sr_role := None; sr_page := one_at_a_time |}.
Definition reader : attempt := fair_attempt 7%N 1%N Committed.

Definition found_ids (r : option (list RecordValue)) : option (list UUID) := map rv_id <$> r.

Example pages_evaluate :
  found_ids (walk rp_records rp_next (ask_records reader owner agent shop_spec two_customers customer_list) 3 None) = Some [7%N; 9%N]
  /\ found_ids (walk rp_records rp_next (ask_records reader owner agent shop_spec two_customers customer_search) 3 None) = Some [9%N].
Proof. by vm_compute. Qed.

Lemma ids_small {A} (rows : gmap UUID A) :
  forallb (fun e : UUID * A => (0 <? e.1)%N && (e.1 <? 2 ^ 128)%N) (map_to_list rows) = true -> ids_ok rows.
Proof.
  rewrite forallb_forall. intros Hall id [x Hx%elem_of_map_to_list%list_elem_of_In]. apply Hall in Hx. cbn [fst] in Hx.
  by apply andb_true_iff in Hx as [?%N.ltb_lt ?%N.ltb_lt].
Qed.

Definition answered_at_all {A} (o : option A) : bool := match o with Some _ => true | None => false end.
Definition found_some {A} (n : nat) (r : result fault (list A)) : bool :=
  match r with Ok l => (length l =? n)%nat | Raise _ => false end.

Lemma one_is_a_limit : 1 <= page_limit one_at_a_time <= MAX_PAGE_LIMIT.
Proof. done. Qed.

Lemma owner_admitted : is_Some (admitted owner agent shop_spec).
Proof. apply (proj1 (bool_decide_eq_true (is_Some (admitted owner agent shop_spec)))). by vm_compute. Qed.

Lemma customers_declared : is_Some (spec_entity shop_spec (lit "customer")).
Proof. apply (proj1 (bool_decide_eq_true (is_Some (spec_entity shop_spec (lit "customer"))))). by vm_compute. Qed.

Lemma record_pages_complete_witness :
  exists values, length values = 2%nat
    /\ walk rp_records rp_next (ask_records reader owner agent shop_spec two_customers customer_list) 3 None = Some values.
Proof.
  assert (found_some 2 (whole_query owner shop_spec two_customers customer_list) = true) as Hv by (by vm_compute).
  destruct (whole_query owner shop_spec two_customers customer_list) as [values|] eqn:E; [|discriminate Hv].
  cbn [found_some] in Hv. apply Nat.eqb_eq in Hv. exists values. split; [exact Hv|].
  assert (answered_at_all (ask_records reader owner agent shop_spec two_customers customer_list None) = true) as Hk by (by vm_compute).
  assert (unicode owner = true) as Hu by (by vm_compute).
  assert (ids_ok (table_rows two_customers (query_entity customer_list))) as Hids by (apply ids_small; by vm_compute).
  assert (reading_ready reader shop_spec two_customers = Ok tt) as Hr by (by vm_compute).
  assert (ask_records reader owner agent shop_spec two_customers customer_list None <> None) as Hask.
  { intros Hnone. rewrite Hnone in Hk. discriminate Hk. }
  pose proof (@record_pages_complete datum_float_repr datum_float_read shape_dates reader owner agent shop_spec two_customers
    customer_list values owner_admitted Hu customers_declared one_is_a_limit Hids Hr Hask E) as Hthm.
  rewrite Hv in Hthm. exact Hthm.
Defined.

Definition customer_history : RecordHistoryQuery :=
  {| hq_entity := lit "customer"; hq_record := None; hq_page := one_at_a_time |}.
Definition all_branches : ListBranchesQuery :=
  {| lb_status := None; lb_type := None; lb_parent := None; lb_page := one_at_a_time |}.

Lemma second_step : store_step (store_after with_customer) two_customers.
Proof.
  assert (is_success (attempted_on (CreateRecord another_customer) (fair_attempt 9%N 1%N Committed) (store_after with_customer))
    = true) as Hs by (by vm_compute). revert Hs. unfold two_customers.
  apply (attempted_step (CreateRecord another_customer)); [by vm_compute|by apply fair_sane].
Qed.

Lemma two_ok : StoreOK two_customers.
Proof. eapply step_keeps; [apply second_step|]. eapply step_keeps; [apply customer_step|apply fresh_ok, shop_fresh]. Qed.

Lemma sequences_small s :
  forallb (fun h => (1 <=? h_sequence h) && (h_sequence h <? 2 ^ 63)) (st_history s) = true -> sequences_ok s.
Proof. rewrite forallb_forall. intros Hall h Hh%list_elem_of_In%Hall%andb_true_iff. lia. Qed.

Lemma history_and_branch_pages_complete_witness :
  (exists events, length events = 2%nat
     /\ walk hp_events hp_next (ask_history reader owner agent shop_spec two_customers customer_history) 3 None = Some events)
  /\ exists branches, length branches = 1%nat
     /\ walk bp_branches bp_next (ask_branches reader owner agent shop_spec branch_plan.2 all_branches) 2 None = Some branches.
Proof.
  split.
  - assert (found_some 2 (whole_history owner shop_spec two_customers customer_history) = true) as Hv by (by vm_compute).
    destruct (whole_history owner shop_spec two_customers customer_history) as [events|] eqn:E; [|discriminate Hv].
    cbn [found_some] in Hv. apply Nat.eqb_eq in Hv. exists events. split; [exact Hv|].
    assert (answered_at_all (ask_history reader owner agent shop_spec two_customers customer_history None) = true) as Hk by (by vm_compute).
    assert (reading_ready reader shop_spec two_customers = Ok tt) as Hr by (by vm_compute).
    pose proof (proj1 (@history_and_branch_pages_complete datum_float_repr datum_float_read shape_dates reader owner agent shop_spec
      two_customers owner_admitted eq_refl Hr) customer_history events two_ok) as Hthm. rewrite Hv in Hthm.
    apply Hthm; [apply sequences_small; by vm_compute|exact customers_declared|exact one_is_a_limit| |exact E].
    intros Hnone. rewrite Hnone in Hk. discriminate Hk.
  - assert (match whole_branches owner branch_plan.2 all_branches with Ok l => (length l =? 1)%nat | Raise _ => false end = true)
      as Hv by (by vm_compute).
    destruct (whole_branches owner branch_plan.2 all_branches) as [branches|] eqn:E; [|discriminate Hv].
    apply Nat.eqb_eq in Hv. exists branches. split; [exact Hv|].
    assert (reading_ready reader shop_spec branch_plan.2 = Ok tt) as Hr by (by vm_compute).
    pose proof (proj2 (@history_and_branch_pages_complete datum_float_repr datum_float_read shape_dates reader owner agent shop_spec
      branch_plan.2 owner_admitted eq_refl Hr) all_branches branches) as Hthm. rewrite Hv in Hthm.
    apply Hthm; [apply ids_small; by vm_compute|by vm_compute|exact one_is_a_limit|exact E].
Defined.

(** The second page of the customers, by the cursor of the first. *)
Definition first_customers : option (answer RecordPage) :=
  list_records reader owner agent shop_spec
    {| lr_entity := lit "customer"; lr_branch := None; lr_role := None; lr_page := one_at_a_time |} two_customers.
Definition next_cursor : option PageCursor :=
  match first_customers with Some (Success p) => rp_next p | _ => None end.
Definition next_customers (limit : Z) (c : PageCursor) : ListRecordsQuery :=
  {| lr_entity := lit "customer"; lr_branch := None; lr_role := None;
     lr_page := {| page_limit := limit; page_cursor := Some c |} |}.
Definition is_page (r : option (answer RecordPage)) : bool := match r with Some (Success _) => true | _ => false end.

Lemma page_given r : is_page r = true -> exists p, r = Some (Success p).
Proof. destruct r as [[p|]|]; [by exists p|done..]. Qed.

Lemma next_readable limit c :
  forall d, query_document owner shop_spec (PagedList (next_customers limit c)) = Some d -> JsonText.readable d = true.
Proof. intros d Hd. cbn [query_document next_customers lr_entity lr_branch lr_role] in Hd. apply (inj Some) in Hd as <-. by vm_compute. Qed.

Lemma cursor_bound_witness :
  exists c, next_cursor = Some c
    /\ (exists identity, asked_identity owner shop_spec (PagedList (next_customers 1 c)) = Some identity
          /\ asked_identity owner shop_spec (PagedList (next_customers 2 c)) = Some identity)
    /\ (same_query owner shop_spec (PagedList (next_customers 1 c)) owner shop_spec (PagedList (next_customers 2 c))
        \/ exists d d', query_document owner shop_spec (PagedList (next_customers 1 c)) = Some d
             /\ query_document owner shop_spec (PagedList (next_customers 2 c)) = Some d'
             /\ utf8 (canonical_json d) <> utf8 (canonical_json d')
             /\ sha256_hex (utf8 (canonical_json d)) = sha256_hex (utf8 (canonical_json d'))).
Proof.
  assert (match next_cursor with
          | Some c => is_page (list_records reader owner agent shop_spec (next_customers 1 c) two_customers)
                      && is_page (list_records reader owner agent shop_spec (next_customers 2 c) (store_after with_customer))
          | None => false
          end = true) as Hok by (by vm_compute).
  destruct next_cursor as [c|]; [|discriminate Hok]. exists c. split; [reflexivity|].
  apply andb_true_iff in Hok as [Hok Hok2]. apply page_given in Hok, Hok2.
  exact (@cursor_bound datum_float_repr datum_float_read shape_dates reader reader owner owner agent agent shop_spec shop_spec
    two_customers (store_after with_customer) (PagedList (next_customers 1 c)) (PagedList (next_customers 2 c)) c
    Hok Hok2 eq_refl eq_refl (next_readable 1 c) (next_readable 2 c)).
Defined.
