(* ===== verification/Discovery.v ===== *)
(** * Discovery: summaries of a service store and scans for maintenance

    [storage/sqlite/discovery.py], and the two methods of the data store above
    it.  Both only read.  An exception of SQLite or of a value that cannot be
    read is [StorageUnavailable]; a [RecordContractError] stays one, which the
    data store answers as an internal error. *)
From S2P Require Import Relational.
From S2P Require Export Pages.
From S2P Require Import Prelude Values Json JsonText Sha256 Manifest.

(** [julianday] of SQLite on the texts of a column; [None] is NULL. *)
Class JulianDays := { julianday : pystr -> option spec_float }.

Definition AUTHORITY_FIELDS : list pystr :=
  map lit ["provenance_type"; "provenance_note"; "provenance_source"; "source_ref"; "source_kind"; "scope"; "scope_ref";
           "confidence"; "status"; "valid_from"; "valid_until"; "supersedes"; "superseded_by"]%string.
Definition DUPLICATE_AUTHORITY_FIELDS : list pystr := [lit "provenance_source"; lit "source_ref"].
Definition BLOB_THRESHOLD_BYTES : Z := 1024.

(** [except (RecordContractError, StorageUnavailable): raise], and any other
    exception as [StorageUnavailable]. *)
Definition discovered {A} (m : recorded A) : result fault A :=
  match m with
  | Ok a => Ok a
  | Raise RecordContractError => Raise OtherFault
  | Raise _ => Raise UnavailableFault
  end.

Definition entity_table (s : store) (principal entity : pystr) : result fault (gmap UUID row) :=
  if negb (unicode principal) then Raise UnavailableFault else
  match st_tables s !! entity with Some t => Ok (t_rows t) | None => Raise UnavailableFault end.

Definition nonempty {A} (l : list A) : bool := match l with [] => false | _ => true end.

(** ** Values of columns *)

(** [ORDER BY] on values: NULL, numbers, texts. *)
Definition sql_leb (a b : sqlval) : bool :=
  match a, b with
  | SqlNull, _ => true
  | _, SqlNull => false
  | SqlText x, SqlText y => str_leb x y
  | SqlText _, _ => false
  | _, SqlText _ => true
  | SqlInteger x, SqlInteger y => x <=? y
  | SqlReal x, SqlReal y => SFleb x y
  | SqlInteger x, SqlReal y => SFleb (float_of_Z x) y
  | SqlReal x, SqlInteger y => SFleb x (float_of_Z y)
  end.

(** [GROUP BY] with [count( * )]. *)
Fixpoint count_value (v : sqlval) (groups : list (sqlval * Z)) : list (sqlval * Z) :=
  match groups with
  | [] => [(v, 1)]
  | (w, n) :: groups' => if sql_eqb w v then (w, n + 1) :: groups' else (w, n) :: count_value v groups'
  end.
Definition grouped (values : list sqlval) : list (sqlval * Z) := fold_left (fun g v => count_value v g) values [].

(** [ORDER BY count( * ) DESC, value ASC]. *)
Definition facet_leb (x y : sqlval * Z) : bool := (y.2 <? x.2) || ((x.2 =? y.2) && sql_leb x.1 y.1).

(** [trim(x)] takes spaces away, [str.strip()] every white space. *)
Definition sql_trim (s : pystr) : pystr := strip_by (fun c => (c =? 32)%N) s.

(** [_present_sql] and [_present_value]. *)
Definition present_sql (f : RecordField) (v : sqlval) : bool :=
  match v with
  | SqlNull => false
  | SqlText s =>
      match fd_type f with
      | TString => bool_decide (sql_trim s <> [])
      | TStringList => bool_decide (s <> lit "[]")
      | _ => true
      end
  | _ => true
  end.

Definition present_value (f : RecordField) (v : sqlval) : bool :=
  match v with
  | SqlNull => false
  | SqlText s =>
      match fd_type f with
      | TString => bool_decide (strip s <> [])
      | TStringList => bool_decide (s <> lit "[]")
      | _ => true
      end
  | _ => negb (bool_decide (fd_type f = TString))
  end.

Definition entity_field_named (e : RecordEntity) (name : pystr) : option RecordField :=
  List.find (fun f => bool_decide (fd_name f = name)) (domain_fields e).

Definition authority_fields (e : RecordEntity) : list RecordField :=
  List.filter (fun f => bool_decide (fd_name f ∈ AUTHORITY_FIELDS)) (domain_fields e).

Definition duplicate_fields (e : RecordEntity) : list RecordField :=
  omap (fun name => match entity_field_named e name with
                    | Some f => match fd_type f with TString | TUuid => Some f | _ => None end
                    | None => None
                    end) DUPLICATE_AUTHORITY_FIELDS.

Definition blob_fields (e : RecordEntity) : list RecordField :=
  List.filter (fun f => bool_decide (fd_type f = TString) && bool_decide (fd_retrieval_mode f = Some Annotation)) (domain_fields e).

(** ** Rows *)

(** [_scope]. *)
Definition in_scope (s : store) (principal entity : pystr) (branch : option UUID) (e : UUID * row) : bool :=
  bool_decide (r_owner_id e.2 = principal)
  && match branch with Some b => bool_decide (is_Some (st_members s !! (principal, entity, e.1, b))) | None => true end.

Definition scope_rows (s : store) (principal entity : pystr) (branch : option UUID) (rows : gmap UUID row) : list (UUID * row) :=
  List.filter (in_scope s principal entity branch) (by_id rows).

Definition owned_rows (principal : pystr) (rows : gmap UUID row) : list (UUID * row) :=
  List.filter (fun e => bool_decide (r_owner_id e.2 = principal)) (by_id rows).

(** A record with a primary branch. *)
Definition has_primary (s : store) (principal entity : pystr) (id : UUID) : bool :=
  bool_decide (primary_of s principal entity id <> None).

(** [_uuid]. *)
Definition found_id (id : UUID) : result fault UUID := trusted (read_id id).

(** ** Points in time *)

(** [datetime.toordinal()] and [datetime.fromordinal()]. *)
Definition days_before_year (y : Z) : Z := let p := y - 1 in p * 365 + p / 4 - p / 100 + p / 400.
Definition days_before_month (y m : Z) : Z :=
  foldr Z.add 0 (map (fun k => days_in_month y (Z.of_nat k)) (seq 1 (Z.to_nat (m - 1)))).
Definition to_ordinal (t : datetime) : Z := days_before_year (dt_year t) + days_before_month (dt_year t) (dt_month t) + dt_day t.

Definition from_ordinal (n : Z) : Z * Z * Z :=
  let n := n - 1 in
  let n400 := n / 146097 in let n := n mod 146097 in
  let n100 := n / 36524 in let n := n mod 36524 in
  let n4 := n / 1461 in let n := n mod 1461 in
  let n1 := n / 365 in let n := n mod 365 in
  let year := n400 * 400 + 1 + n100 * 100 + n4 * 4 + n1 in
  if (n1 =? 4) || (n100 =? 4) then (year - 1, 12, 31)
  else
    let month := (n + 50) / 32 in
    let month := if days_before_month year month >? n then month - 1 else month in
    (year, month, n - days_before_month year month + 1).

(** [now - timedelta(days=days)]; [None] is an [OverflowError]. *)
Definition days_ago (now : datetime) (days : Z) : option datetime :=
  let n := to_ordinal now - days in
  if (1 <=? n) && (n <=? 3652059) then
    let '(y, m, d) := from_ordinal n in
    Some {| dt_year := y; dt_month := m; dt_day := d; dt_hour := dt_hour now; dt_minute := dt_minute now;
            dt_second := dt_second now; dt_microsecond := dt_microsecond now |}
  else None.

Definition microseconds (t : datetime) : Z :=
  (((to_ordinal t * 24 + dt_hour t) * 60 + dt_minute t) * 60 + dt_second t) * 1000000 + dt_microsecond t.

(** [(now - then).days]. *)
Definition days_between (now before : datetime) : Z := (microseconds now - microseconds before) / (86400 * 1000000).

(** ** Summaries *)
Section summary.
Context `{FloatRead} `{IsoDates}.

(** [_facet_observation]. *)
Definition text_members (values : list sqlval) : list sqlval :=
  List.filter (fun v => match v with SqlText _ => true | _ => false end) values.

Definition facet_groups (f : RecordField) (rows : list (UUID * row)) : result fault (list (sqlval * Z)) :=
  values ← (match filter_mode f with
            | MembershipOf =>
                members ← mapR (fun e => json_each (cell e.1 e.2 (fd_name f))) rows;
                Ok (text_members (concat members))
            | _ => Ok (List.filter (fun v => negb (bool_decide (v = SqlNull))) (map (fun e => cell e.1 e.2 (fd_name f)) rows))
            end);
  Ok (take MAX_FACET_VALUES (sorted_by facet_leb id (grouped values))).

Definition facet_value (f : RecordField) (g : sqlval * Z) : result fault FacetValue :=
  value ← (match filter_mode f with
           | MembershipOf => match g.1 with SqlText s => Ok (jstr s) | _ => Raise UnavailableFault end
           | _ => trusted (decode_field f g.1)
           end);
  discovered (make_facet_value {| fv_value := value; fv_count := g.2 |}).

Definition facet_observation (s : store) (principal : pystr) (sp : RecordSpecification) (entity field : pystr)
  : result fault FacetObservation :=
  f ← trusted (spec_field sp entity field);
  rows ← entity_table s principal entity;
  groups ← (match facet_groups f (owned_rows principal rows) with Ok g => Ok g | Raise _ => Raise UnavailableFault end);
  values ← mapR (facet_value f) groups;
  discovered (make_facet_observation {| fo_entity := entity; fo_field := field; fo_values := values |}).

(** The facets of a summary: server-managed fields have none. *)
Definition summary_facets (s : store) (principal : pystr) (sp : RecordSpecification) : result fault (list FacetObservation) :=
  mapR (fun t => facet_observation s principal sp (rt_entity_name t) (rt_field_name t))
    (List.filter (fun t => match spec_entity sp (rt_entity_name t) with
                           | Some e => bool_decide (rt_field_name t ∈ map fd_name (domain_fields e))
                           | None => false
                           end) (sp_facets sp)).

(** [_branch_cards]. *)
Definition card_leb (x y : UUID * branch_row) : bool :=
  let tx := encode_time (b_updated_at x.2) in
  let ty := encode_time (b_updated_at y.2) in
  str_ltb ty tx || (bool_decide (tx = ty) && str_leb (uuid_str x.1) (uuid_str y.1)).

Definition members_in_role (s : store) (principal : pystr) (branch : UUID) (role : BranchRole) : Z :=
  Z.of_nat (length (List.filter (fun e : member_key * membership =>
    let '(p, _, _, b) := e.1 in bool_decide (p = principal) && (b =? branch)%N && bool_decide (m_role e.2 = role))
    (map_to_list (st_members s)))).

Definition branch_card (s : store) (principal : pystr) (e : UUID * branch_row) : result fault BranchCard :=
  let b := e.2 in
  given ← trusted (
    id ← read_id e.1;
    parent ← parse_parent (uuid_json (b_parent b));
    created ← read_time (b_created_at b);
    updated ← read_time (b_updated_at b);
    version ← revision (b_revision b);
    Some {| bv_id := id; bv_slug := b_slug b; bv_title := b_title b; bv_intent := b_intent b; bv_type := b_type b;
            bv_parent := parent; bv_status := b_status b; bv_summary := b_summary b; bv_created_at := created;
            bv_updated_at := updated; bv_revision := version |});
  v ← discovered (make_branch given);
  discovered (make_branch_card {| bc_branch := v; bc_primary := members_in_role s principal e.1 Primary;
                                  bc_related := members_in_role s principal e.1 Related |}).

Definition branch_cards (s : store) (principal : pystr) : result fault (list BranchCard) :=
  mapR (branch_card s principal)
    (take MAX_SUMMARY_BRANCHES
       (sorted_by card_leb id (List.filter (fun e : UUID * branch_row => bool_decide (b_principal e.2 = principal))
                                 (by_id (st_branches s))))).

(** [_decode_record] and [_sample_records]. *)
Definition sample_record (sp : RecordSpecification) (entity : pystr) (e : UUID * row) : result fault RecordValue :=
  '(raw, id, version, created, updated) ← trusted (
    ent ← spec_entity sp entity;
    raw ← decode_fields ent e.2;
    id ← read_id e.1;
    version ← revision (r_record_version e.2);
    created ← read_time (r_created_at e.2);
    updated ← read_time (r_updated_at e.2);
    Some (raw, id, version, created, updated));
  fields ← discovered (validate_create sp entity raw);
  discovered (make_record_value
    {| rv_entity := entity; rv_id := id; rv_version := version; rv_created_at := created; rv_updated_at := updated;
       rv_created_via := r_created_via e.2; rv_fields := fields |}).

Definition sample_records (s : store) (principal : pystr) (sp : RecordSpecification) (entity : pystr) (size : Z)
  : result fault (list RecordValue) :=
  if size =? 0 then Ok [] else
  rows ← entity_table s principal entity;
  mapR (sample_record sp entity) (take (Z.to_nat size) (owned_rows principal rows)).

(** [service_summary] of the module. *)
Definition record_count (s : store) (principal : pystr) (e : RecordEntity) : result fault Z :=
  rows ← entity_table s principal (re_name e);
  Ok (Z.of_nat (length (owned_rows principal rows))).

Definition unbranched_count (s : store) (principal : pystr) (e : RecordEntity) : result fault Z :=
  rows ← entity_table s principal (re_name e);
  Ok (Z.of_nat (length (List.filter (fun r => negb (has_primary s principal (re_name e) r.1)) (owned_rows principal rows)))).

Definition summarise (s : store) (principal : pystr) (sp : RecordSpecification) (q : SummaryQuery) : result fault ServiceSummary :=
  counts ← mapR (fun e => n ← record_count s principal e; Ok (re_name e, n)) (sp_entities sp);
  facets ← summary_facets s principal sp;
  branches ← branch_cards s principal;
  unbranched ← mapR (unbranched_count s principal) (sp_entities sp);
  samples ← mapR (fun e : pystr * Z => v ← sample_records s principal sp e.1 e.2; Ok (e.1, v))
              (sorted_by str_leb fst (sm_sample_sizes q));
  discovered (make_service_summary
    {| ss_status := data_ready; ss_counts := counts; ss_unbranched := foldr Z.add 0 unbranched; ss_facets := facets;
       ss_branches := branches; ss_samples := samples |}).

(** [service_summary] of the data store: a store of the revision before is
    described by its affordances alone. *)
Definition known_samples (sp : RecordSpecification) (q : SummaryQuery) : bool :=
  subset_of (map fst (sm_sample_sizes q)) (map re_name (sp_entities sp)).

Definition no_summary : ServiceSummary :=
  {| ss_status := data_migration_required; ss_counts := []; ss_unbranched := 0; ss_facets := []; ss_branches := [];
     ss_samples := [] |}.

Definition summary_read (a : attempt) (sp : RecordSpecification) (op : readiness -> result fault ServiceSummary) (s : store)
  : answer ServiceSummary :=
  match (at_open a ;; state ← at_inspect a; raise_if (negb (domain_ready sp s)) MigrationFault ;; op state) with
  | Ok r => Success r
  | Raise e => Failure (fault_code e)
  end.

Definition service_summary (a : attempt) (principal via : pystr) (sp : RecordSpecification) (q : SummaryQuery) (s : store)
  : answer ServiceSummary :=
  match admitted principal via sp with
  | None => Failure validation_failed
  | Some checked =>
      if negb (known_samples checked q) then Failure validation_failed else
      summary_read a checked (fun state =>
        match state with
        | Outdated 2 3 => discovered (make_service_summary no_summary)
        | Ready => summarise s principal checked q
        | _ => Raise MigrationFault
        end) s
  end.
End summary.

(** ** Maintenance *)
Section maintenance.
Context `{FloatRead} `{IsoDates} `{JulianDays}.

(** [_scan_available]. *)
Definition has_type (e : RecordEntity) (name : pystr) (types : list LogicalType) : bool :=
  match entity_field_named e name with Some f => bool_decide (fd_type f ∈ types) | None => false end.

Definition scan_available (t : ScanType) (e : RecordEntity) : bool :=
  match t with
  | stale | unbranched => true
  | expired => has_type e (lit "valid_until") [TDatetime]
  | low_confidence => has_type e (lit "confidence") [TInteger; TNumber]
  | superseded_scan => has_type e (lit "status") [TString] || has_type e (lit "superseded_by") [TString; TUuid; TStringList]
  | missing_authority => nonempty (authority_fields e)
  | duplicate_authority => nonempty (duplicate_fields e)
  | blob_candidate => nonempty (blob_fields e)
  end.

(** A number below a bound; a text is above every number. *)
Definition below (v : sqlval) (bound : spec_float) : bool :=
  match v with
  | SqlInteger z => SFltb (float_of_Z z) bound
  | SqlReal x => SFltb x bound
  | _ => false
  end.

(** [julianday(column) < julianday(?)]. *)
Definition passed (v : sqlval) (now : pystr) : bool :=
  match v with
  | SqlText s => match julianday s, julianday now with Some x, Some y => SFltb x y | _, _ => false end
  | _ => false
  end.

(** [MaintenanceCandidate(..., FrozenJsonObject.from_mapping(detail))]. *)
Definition candidate (t : ScanType) (entity : pystr) (id : UUID) (detail : list (pystr * json)) : result fault MaintenanceCandidate :=
  u ← found_id id;
  frozen ← discovered (from_mapping detail);
  discovered (make_candidate {| mc_scan := t; mc_entity := entity; mc_id := u; mc_detail := frozen |}).

(** [_simple_candidates]. *)
Definition simple_candidates (s : store) (principal : pystr) (e : RecordEntity) (branch : option UUID) (t : ScanType)
    (predicate : UUID * row -> bool) (limit : nat) (details : UUID * row -> result fault (list (pystr * json)))
  : result fault (list MaintenanceCandidate) :=
  rows ← entity_table s principal (re_name e);
  mapR (fun r => detail ← details r; candidate t (re_name e) r.1 detail)
    (take limit (List.filter predicate (scope_rows s principal (re_name e) branch rows))).

Definition field_cell (f : RecordField) (r : UUID * row) : sqlval := cell r.1 r.2 (fd_name f).

(** [_superseded_candidates]. *)
Definition superseded_status (e : RecordEntity) (r : UUID * row) : bool :=
  has_type e (lit "status") [TString] && sql_eqb (cell r.1 r.2 (lit "status")) (SqlText (lit "superseded")).

Definition superseded_predicate (e : RecordEntity) (r : UUID * row) : bool :=
  superseded_status e r
  || match entity_field_named e (lit "superseded_by") with Some f => present_sql f (field_cell f r) | None => false end.

Definition superseded_details (e : RecordEntity) (r : UUID * row) : list (pystr * json) :=
  [(lit "signals", JArr ((if superseded_status e r then [jstr (lit "status")] else [])
     ++ match entity_field_named e (lit "superseded_by") with
        | Some f => if present_value f (field_cell f r) then [jstr (lit "superseded_by")] else []
        | None => []
        end))].

(** [_duplicate_candidates] and [_blob_candidates]: the rows of each field in
    turn, the first of them for a record, the first [limit] records. *)
Definition set_default {A} (found : list (UUID * A)) (u : UUID) (a : A) : list (UUID * A) :=
  if bool_decide (u ∈ map fst found) then found else found ++ [(u, a)].

Definition duplicate_count (f : RecordField) (rows : list (UUID * row)) (r : UUID * row) : Z :=
  Z.of_nat (length (List.filter (fun x => present_sql f (field_cell f x) && sql_eqb (field_cell f x) (field_cell f r)) rows)).

Definition byte_length (v : sqlval) : option Z := match v with SqlText s => Some (Z.of_nat (length (utf8 s))) | _ => None end.

Definition field_rows (t : ScanType) (f : RecordField) (rows : list (UUID * row)) : list (UUID * list (pystr * json)) :=
  match t with
  | duplicate_authority =>
      map (fun r => (r.1, [(lit "duplicate_count", jint (duplicate_count f rows r)); (lit "field_name", jstr (fd_name f))]))
        (List.filter (fun r => 1 <? duplicate_count f rows r) rows)
  | _ =>
      omap (fun r => n ← byte_length (field_cell f r);
                     if BLOB_THRESHOLD_BYTES <? n
                     then Some (r.1, [(lit "byte_length", jint n); (lit "field_name", jstr (fd_name f));
                                      (lit "threshold_bytes", jint BLOB_THRESHOLD_BYTES)])
                     else None) rows
  end.

Fixpoint merge_rows (t : ScanType) (entity : pystr) (found : list (UUID * MaintenanceCandidate))
    (rows : list (UUID * list (pystr * json))) {struct rows} : result fault (list (UUID * MaintenanceCandidate)) :=
  match rows with
  | [] => Ok found
  | r :: rows' => c ← candidate t entity r.1 r.2; merge_rows t entity (set_default found (mc_id c) c) rows'
  end.

Fixpoint merge_fields_of (t : ScanType) (entity : pystr) (limit : nat) (rows : list (UUID * row))
    (found : list (UUID * MaintenanceCandidate)) (fields : list RecordField) {struct fields}
  : result fault (list (UUID * MaintenanceCandidate)) :=
  match fields with
  | [] => Ok found
  | f :: fields' =>
      found' ← merge_rows t entity found (take limit (field_rows t f rows));
      merge_fields_of t entity limit rows found' fields'
  end.

Definition field_candidates (s : store) (principal : pystr) (e : RecordEntity) (branch : option UUID) (t : ScanType)
    (fields : list RecordField) (limit : nat) : result fault (list MaintenanceCandidate) :=
  rows ← entity_table s principal (re_name e);
  found ← merge_fields_of t (re_name e) limit (scope_rows s principal (re_name e) branch rows) [] fields;
  Ok (map snd (take limit (sorted_by str_leb (fun x : UUID * MaintenanceCandidate => uuid_str x.1) found))).

(** [_scan_entity]. *)
Definition scan_entity (s : store) (principal : pystr) (e : RecordEntity) (t : ScanType) (q : MaintenanceQuery) (now : datetime)
    (limit : nat) : result fault (list MaintenanceCandidate) :=
  let simple := simple_candidates s principal e (mq_branch q) t in
  match t with
  | expired =>
      simple (fun r => passed (cell r.1 r.2 (lit "valid_until")) (encode_time now)) limit
        (fun _ => Ok [(lit "field_name", jstr (lit "valid_until"))])
  | stale =>
      cutoff ← trusted (days_ago now (mq_stale_after_days q));
      simple (fun r => str_leb (encode_time (r_updated_at r.2)) (encode_time cutoff)) limit
        (fun r => updated ← trusted (read_time (r_updated_at r.2));
                  Ok [(lit "age_days", jint (Z.max 0 (days_between now updated)));
                      (lit "threshold_days", jint (mq_stale_after_days q))])
  | low_confidence =>
      match to_float (mq_low_confidence_below q) with
      | PyFloat bound =>
          simple (fun r => below (cell r.1 r.2 (lit "confidence")) bound) limit
            (fun _ => Ok [(lit "threshold", JScalar (PyFloat bound))])
      | _ => Raise UnavailableFault
      end
  | superseded_scan => simple (superseded_predicate e) limit (fun r => Ok (superseded_details e r))
  | missing_authority =>
      simple (fun r => forallb (fun f => negb (present_sql f (field_cell f r))) (authority_fields e)) limit
        (fun _ => Ok [(lit "declared_field_count", jint (Z.of_nat (length (authority_fields e))))])
  | unbranched =>
      simple (fun r => negb (has_primary s principal (re_name e) r.1)) limit
        (fun _ => Ok [(lit "missing_role", jstr (lit "primary"))])
  | duplicate_authority => field_candidates s principal e (mq_branch q) t (duplicate_fields e) limit
  | blob_candidate => field_candidates s principal e (mq_branch q) t (blob_fields e) limit
  end.

(** [maintenance_scan] of the module. *)
Definition selected_entities (sp : RecordSpecification) (q : MaintenanceQuery) : list RecordEntity :=
  match mq_entity q with
  | None => sp_entities sp
  | Some n => List.filter (fun e => bool_decide (re_name e = n)) (sp_entities sp)
  end.

Definition sorted_scans (ts : list ScanType) : list ScanType := sorted_by str_leb scan_text ts.

Definition unavailable_scans (es : list RecordEntity) (ts : list ScanType) : list ScanType :=
  sorted_scans (List.filter (fun t => negb (existsb (scan_available t) es)) ts).

(** The scans in the order they run. *)
Definition scan_order (es : list RecordEntity) (ts : list ScanType) : list (ScanType * RecordEntity) :=
  concat (map (fun t => map (fun e => (t, e)) (List.filter (scan_available t) es)) (sorted_scans ts)).

Fixpoint scan_all (s : store) (principal : pystr) (q : MaintenanceQuery) (now : datetime) (maximum : nat)
    (found : list MaintenanceCandidate) (pairs : list (ScanType * RecordEntity)) {struct pairs} : result fault (list MaintenanceCandidate) :=
  match pairs with
  | [] => Ok found
  | p :: pairs' =>
      if (maximum - length found =? 0)%nat then Ok found else
      more ← scan_entity s principal p.2 p.1 q now (maximum - length found);
      scan_all s principal q now maximum (found ++ more) pairs'
  end.

Definition scan_store (s : store) (principal : pystr) (sp : RecordSpecification) (q : MaintenanceQuery) (now : datetime)
  : result fault MaintenanceResult :=
  let es := selected_entities sp q in
  raise_if (negb (nonempty es)) OtherFault ;;
  found ← scan_all s principal q now (Z.to_nat (mq_max_candidates q)) [] (scan_order es (mq_scan_types q));
  discovered (make_maintenance_result {| ms_candidates := found; ms_unavailable := unavailable_scans es (mq_scan_types q) |}).

(** [maintenance_scan] of the data store. *)
Definition maintenance_scan (a : attempt) (principal via : pystr) (sp : RecordSpecification) (q : MaintenanceQuery) (s : store)
  : answer MaintenanceResult :=
  match admitted principal via sp with
  | None => Failure validation_failed
  | Some checked =>
      if match mq_entity q with Some n => match spec_entity checked n with None => true | Some _ => false end | None => false end
      then Failure validation_failed else
      read_store a checked (r ← run_result (now ← at_now a; scan_store s principal checked q now); ret (Success r)) s
  end.
End maintenance.
