(* ===== verification/DiscoverySpec.v ===== *)
(** * DiscoverySpec: what a maintenance scan finds

    The candidates of a scan are the first of one list: scan by scan, entity by
    entity and in the order of their ids, the records in scope that the scan is
    about. *)
From S2P Require Import Relational.
From S2P Require Export Discovery PagesSpec StoreInvariant.
From S2P Require Import Prelude Values Json JsonText Sha256 Manifest.

(** ** Ids in strict order *)
Definition id_before (u v : UUID) : Prop := after_id (Some u) v = true.

Lemma id_before_asym u v : id_before u v -> ~ id_before v u.
Proof.
  unfold id_before. intros Huv Hvu. pose proof (later_asymmetric (u, tt) (v, tt) Huv) as Hn. cbn [fst] in Hn.
  unfold later in Hn. cbn [fst] in Hn. congruence.
Qed.

(** A sorted list that has the first [n] of another, and nothing else, starts
    with them. *)
Lemma sorted_prefix (f u : list UUID) n :
  StronglySorted id_before f -> StronglySorted id_before u ->
  (forall x, x ∈ f -> x ∈ u) -> (forall x, x ∈ take n u -> x ∈ f) -> take n f = take n u.
Proof.
  intros Hf Hu. revert f n Hf. induction Hu as [|x u Hu IH Hx]; intros f n Hf Hin Hfirst.
  { destruct f as [|y f]; [done|]. destruct (not_elem_of_nil y). apply Hin. by left. }
  destruct n as [|n]; [done|]. rewrite Forall_forall in Hx.
  assert (x ∈ f) as Hxf by (apply Hfirst; by left).
  destruct f as [|y f]; [by apply elem_of_nil in Hxf|]. apply StronglySorted_inv in Hf as [Hf Hy]. rewrite Forall_forall in Hy.
  assert (y = x) as ->.
  { assert (y ∈ x :: u) as [->|Hyu]%elem_of_cons by (apply Hin; by left); [done|].
    apply elem_of_cons in Hxf as [->|Hxf]; [done|]. by destruct (id_before_asym y x (Hy _ Hxf) (Hx _ Hyu)). }
  assert (forall z, z ∈ f -> z <> x) as Hne.
  { intros z Hz ->. specialize (Hy _ Hz). by destruct (id_before_asym _ _ Hy Hy). }
  cbn [take]. f_equal. apply IH; [done| |].
  - intros z Hz. assert (z ∈ x :: u) as [->|]%elem_of_cons by (apply Hin; by right); [by destruct (Hne x Hz)|done].
  - intros z Hz. assert (z ∈ x :: f) as [->|]%elem_of_cons by (apply Hfirst; cbn [take]; by right); [|done].
    apply elem_of_take in Hz as (i & Hi & _). apply list_elem_of_lookup_2, Hx in Hi. by destruct (id_before_asym _ _ Hi Hi).
Qed.

(** A row that is among the first of a selection is among the first of every
    narrower selection that has it. *)
Lemma filter_first {A} (p q : A -> bool) l n x :
  (forall y, p y = true -> q y = true) -> x ∈ take n (List.filter q l) -> p x = true -> x ∈ take n (List.filter p l).
Proof.
  intros Hpq. revert n; induction l as [|y l IH]; intros n Hx Hp; [destruct n; done|].
  cbn [List.filter] in *. destruct (q y) eqn:Eq.
  - destruct n as [|n]; [by apply elem_of_nil in Hx|]. cbn [take] in Hx. apply elem_of_cons in Hx as [->|Hx].
    + rewrite Hp. cbn [take]. by left.
    + destruct (p y); [cbn [take]; right; by apply IH|]. specialize (IH n Hx Hp).
      apply elem_of_take in IH as (i & Hi & Hlt). apply elem_of_take. exists i. split; [done|lia].
  - destruct (p y) eqn:Ep; [by rewrite (Hpq y Ep) in Eq|]. by apply IH.
Qed.

Lemma ordered_ids {A} (l : list (UUID * A)) : ordered fst later l -> StronglySorted id_before (map fst l).
Proof.
  unfold ordered. induction 1 as [|x l Hl IH Hx]; cbn [map]; constructor; [done|].
  rewrite Forall_forall in Hx. apply Forall_forall. intros v (y & -> & Hy)%elem_of_map. by apply Hx.
Qed.

Section scans.
Context `{FloatRead} `{IsoDates} `{JulianDays}.

(** ** Candidates *)
Definition key_of_candidate (c : MaintenanceCandidate) : ScanType * pystr * UUID := (mc_scan c, mc_entity c, mc_id c).

Lemma candidate_key t entity id detail c :
  (0 < id < 2 ^ 128)%N -> candidate t entity id detail = Ok c -> key_of_candidate c = (t, entity, id).
Proof.
  intros Hid. unfold candidate, found_id. rewrite (read_id_spec _ Hid). cbn [trusted mbind result_bind].
  intros (frozen & _ & Hc)%bind_Ok. unfold make_candidate in Hc.
  destruct (require_entity _) as [[]|[]]; [|done..]. destruct (require_uuid _) as [[]|[]]; [|done..].
  by injection Hc as <-.
Qed.

Lemma entity_table_rows s principal entity rows : entity_table s principal entity = Ok rows -> rows = table_rows s entity.
Proof.
  unfold entity_table, table_rows. destruct (negb _); [done|]. destruct (st_tables s !! entity); [by intros [= ->]|done].
Qed.

Lemma scope_ordered s principal entity branch rows :
  ids_ok rows -> ordered fst later (scope_rows s principal entity branch rows).
Proof. intros Hids. by apply ordered_filter, by_id_ordered. Qed.

Lemma scope_ids s principal entity branch rows (r : UUID * row) :
  ids_ok rows -> r ∈ scope_rows s principal entity branch rows -> (0 < r.1 < 2 ^ 128)%N.
Proof. intros Hids [Hr%list_elem_of_In%by_id_in _]%list_elem_of_In%filter_In. apply Hids. by eexists. Qed.

Lemma simple_keys s principal e branch t predicate limit details cs :
  ids_ok (table_rows s (re_name e)) ->
  simple_candidates s principal e branch t predicate limit details = Ok cs ->
  map key_of_candidate cs
  = map (fun r => (t, re_name e, r.1))
      (take limit (List.filter predicate (scope_rows s principal (re_name e) branch (table_rows s (re_name e))))).
Proof.
  intros Hids (rows & ->%entity_table_rows & Hcs)%bind_Ok. apply mapR_Ok in Hcs.
  assert (forall r, r ∈ take limit (List.filter predicate (scope_rows s principal (re_name e) branch (table_rows s (re_name e)))) ->
    (0 < r.1 < 2 ^ 128)%N) as Hall.
  { intros r (i & [Hr _]%list_elem_of_lookup_2%list_elem_of_In%filter_In & _)%elem_of_take.
    eapply scope_ids; [exact Hids|by apply list_elem_of_In]. }
  induction Hcs as [|r c rs cs Hc _ IH]; [done|]. cbn [map]. f_equal.
  - apply bind_Ok in Hc as (detail & _ & Hc). eapply candidate_key; [apply Hall; by left|done].
  - apply IH. intros x Hx. apply Hall. by right.
Qed.

(** ** Candidates of several fields *)
Definition found_ok (t : ScanType) (entity : pystr) (found : list (UUID * MaintenanceCandidate)) : Prop :=
  NoDup (map fst found) /\ forall x, x ∈ found -> key_of_candidate x.2 = (t, entity, x.1).

Lemma set_default_ok t entity found u c :
  found_ok t entity found -> key_of_candidate c = (t, entity, u) ->
  found_ok t entity (set_default found u c) /\ (forall v, v ∈ map fst (set_default found u c) <-> v ∈ map fst found \/ v = u).
Proof.
  intros [Hnd Hk] Hc. unfold set_default. case_bool_decide as Hu.
  - split; [done|]. intros v. split; [by left|]. by intros [?| ->].
  - split; [split|].
    + rewrite map_app. cbn [map]. apply NoDup_app. split; [done|]. split; [|apply NoDup_singleton].
      by intros v Hv ->%list_elem_of_singleton.
    + intros x [Hx|Hx%list_elem_of_singleton]%elem_of_app; [by apply Hk|by subst].
    + intros v. rewrite map_app, elem_of_app. cbn [map]. by rewrite list_elem_of_singleton.
Qed.

Lemma merge_rows_ok t entity found rows found' :
  (forall r, r ∈ rows -> (0 < r.1 < 2 ^ 128)%N) -> found_ok t entity found -> merge_rows t entity found rows = Ok found' ->
  found_ok t entity found' /\ (forall v, v ∈ map fst found' <-> v ∈ map fst found \/ v ∈ map fst rows).
Proof.
  revert found. induction rows as [|r rows IH]; intros found Hids Hok; cbn [merge_rows].
  { intros [= <-]. split; [done|]. intros v. cbn [map]. rewrite elem_of_nil. tauto. }
  intros (c & Hc & Hm)%bind_Ok. apply candidate_key in Hc; [|by apply Hids; left].
  assert (mc_id c = r.1) as Hcid by (by injection Hc). rewrite Hcid in Hm.
  destruct (set_default_ok t entity found r.1 c Hok Hc) as [Hok1 Hs1].
  apply IH in Hm as [Hok2 Hs2]; [|intros x Hx; apply Hids; by right|done].
  split; [done|]. intros v. rewrite Hs2, Hs1. cbn [map]. rewrite elem_of_cons. tauto.
Qed.

(** What a field contributes. *)
Definition field_hit (t : ScanType) (f : RecordField) (rows : list (UUID * row)) (r : UUID * row) : bool :=
  match t with
  | duplicate_authority => 1 <? duplicate_count f rows r
  | _ => match byte_length (field_cell f r) with Some n => BLOB_THRESHOLD_BYTES <? n | None => false end
  end.

Lemma field_rows_ids t f rows l :
  map fst (match t with
           | duplicate_authority =>
               map (fun r => (r.1, [(lit "duplicate_count", jint (duplicate_count f rows r)); (lit "field_name", jstr (fd_name f))]))
                 (List.filter (fun r => 1 <? duplicate_count f rows r) l)
           | _ =>
               omap (fun r => n ← byte_length (field_cell f r);
                     if BLOB_THRESHOLD_BYTES <? n
                     then Some (r.1, [(lit "byte_length", jint n); (lit "field_name", jstr (fd_name f));
                                      (lit "threshold_bytes", jint BLOB_THRESHOLD_BYTES)])
                     else None) l
           end) = map fst (List.filter (field_hit t f rows) l).
Proof.
  assert (forall l, map fst (omap (fun r : UUID * row => n ← byte_length (field_cell f r);
                     if BLOB_THRESHOLD_BYTES <? n
                     then Some (r.1, [(lit "byte_length", jint n); (lit "field_name", jstr (fd_name f));
                                      (lit "threshold_bytes", jint BLOB_THRESHOLD_BYTES)])
                     else None) l)
    = map fst (List.filter (fun r => match byte_length (field_cell f r) with Some n => BLOB_THRESHOLD_BYTES <? n | None => false end) l)) as Hblob.
  { induction l0 as [|r l0 IH]; [done|]. cbn [omap list_omap List.filter].
    destruct (byte_length (field_cell f r)) as [n|]; cbn [mbind option_bind]; [|done].
    destruct (BLOB_THRESHOLD_BYTES <? n); cbn [map]; [by f_equal|done]. }
  destruct t; try apply Hblob. rewrite map_map. done.
Qed.

Lemma merge_fields_ok t entity limit rows found fields found' :
  (forall r, r ∈ rows -> (0 < r.1 < 2 ^ 128)%N) -> found_ok t entity found ->
  merge_fields_of t entity limit rows found fields = Ok found' ->
  found_ok t entity found'
  /\ (forall v, v ∈ map fst found' <->
       v ∈ map fst found \/ exists f, f ∈ fields /\ v ∈ map fst (take limit (List.filter (field_hit t f rows) rows))).
Proof.
  intros Hids. revert found. induction fields as [|f fields IH]; intros found Hok; cbn [merge_fields_of].
  { intros [= <-]. split; [done|]. intros v. split; [by left|]. intros [?|(f & ?%elem_of_nil & _)]; done. }
  assert (map fst (take limit (field_rows t f rows)) = map fst (take limit (List.filter (field_hit t f rows) rows))) as Hf.
  { rewrite <- !firstn_map. unfold field_rows. by rewrite field_rows_ids. }
  intros (found1 & Hm & Hrest)%bind_Ok. apply merge_rows_ok in Hm as [Hok1 Hs1]; [| |done].
  2: { intros r Hr. assert (r.1 ∈ map fst (take limit (field_rows t f rows))) as Hin by (by apply list_elem_of_fmap_2).
       rewrite Hf in Hin. apply elem_of_map in Hin as (x & -> & (i & Hx & _)%elem_of_take).
       apply list_elem_of_lookup_2, list_elem_of_In, filter_In in Hx as [Hx _]. by apply Hids, list_elem_of_In. }
  apply IH in Hrest as [Hok2 Hs2]; [|done]. split; [done|]. intros v. rewrite Hs2, Hs1, Hf. split.
  - intros [[?|?]|(g & Hg & ?)]; [by left|right; exists f; split; [by left|done]|right; exists g; split; [by right|done]].
  - intros [?|(g & [->|Hg]%elem_of_cons & ?)]; [by left; left|left; by right|right; by exists g].
Qed.

(** ** What each scan is about *)
Definition fields_hit (t : ScanType) (fields : list RecordField) (rows : list (UUID * row)) (r : UUID * row) : bool :=
  existsb (fun f => field_hit t f rows r) fields.

Definition hit (s : store) (principal : pystr) (q : MaintenanceQuery) (now : datetime) (t : ScanType) (e : RecordEntity)
    (rows : list (UUID * row)) (r : UUID * row) : bool :=
  match t with
  | expired => passed (cell r.1 r.2 (lit "valid_until")) (encode_time now)
  | stale =>
      match days_ago now (mq_stale_after_days q) with
      | Some cutoff => str_leb (encode_time (r_updated_at r.2)) (encode_time cutoff)
      | None => false
      end
  | low_confidence =>
      match to_float (mq_low_confidence_below q) with
      | PyFloat bound => below (cell r.1 r.2 (lit "confidence")) bound
      | _ => false
      end
  | superseded_scan => superseded_predicate e r
  | missing_authority => forallb (fun f => negb (present_sql f (field_cell f r))) (authority_fields e)
  | unbranched => negb (has_primary s principal (re_name e) r.1)
  | duplicate_authority => fields_hit t (duplicate_fields e) rows r
  | blob_candidate => fields_hit t (blob_fields e) rows r
  end.

(** Everything a scan of an entity is about, without a bound. *)
Definition all_hits (s : store) (principal : pystr) (q : MaintenanceQuery) (now : datetime) (p : ScanType * RecordEntity)
  : list (ScanType * pystr * UUID) :=
  let rows := scope_rows s principal (re_name p.2) (mq_branch q) (table_rows s (re_name p.2)) in
  map (fun r => (p.1, re_name p.2, r.1)) (List.filter (hit s principal q now p.1 p.2 rows) rows).

Lemma sorted_found t entity found :
  found_ok t entity found -> (forall v, v ∈ map fst found -> (v < 2 ^ 128)%N) ->
  StronglySorted id_before (map fst (sorted_by str_leb (fun x : UUID * MaintenanceCandidate => uuid_str x.1) found)).
Proof.
  intros [Hnd _] Hids. apply ordered_ids. unfold ordered, later, after_id, str_ltb.
  apply (strictly (fun x : UUID * MaintenanceCandidate => uuid_str x.1)); [apply sorted_by_str_sorted|].
  apply NoDup_sorted_by. clear -Hnd Hids. induction found as [|x found IH]; cbn [map] in *; [constructor|].
  apply NoDup_cons in Hnd as [Hnot Hnd]. apply NoDup_cons. split.
  - intros (y & Heq & Hy)%elem_of_map. apply Hnot, elem_of_map. exists y. split; [|done].
    apply uuid_text_inj; [by apply Hids; left|apply Hids; right; by apply list_elem_of_fmap_2|done].
  - apply IH; [done|]. intros v Hv. apply Hids. by right.
Qed.

Lemma field_keys s principal e branch t fields limit cs :
  ids_ok (table_rows s (re_name e)) ->
  field_candidates s principal e branch t fields limit = Ok cs ->
  let rows := scope_rows s principal (re_name e) branch (table_rows s (re_name e)) in
  map key_of_candidate cs = map (fun r => (t, re_name e, r.1)) (take limit (List.filter (fields_hit t fields rows) rows)).
Proof.
  intros Hids (rows & ->%entity_table_rows & (found & Hf & [= <-])%bind_Ok)%bind_Ok. cbv zeta.
  set (rows := scope_rows _ _ _ _ _) in *.
  assert (forall r, r ∈ rows -> (0 < r.1 < 2 ^ 128)%N) as Hrows by (intros r Hr; by eapply scope_ids).
  apply merge_fields_ok in Hf as [Hok Hin]; [|done|split; [constructor|by intros x ?%elem_of_nil]].
  set (sorted := sorted_by _ _ found).
  assert (forall v, v ∈ map fst sorted <-> v ∈ map fst found) as Hsorted.
  { intros v. unfold sorted. rewrite !elem_of_map. by setoid_rewrite elem_of_sorted_by. }
  transitivity (map (fun v => (t, re_name e, v)) (take limit (map fst sorted))).
  { rewrite firstn_map, !map_map. apply map_ext_in. intros x Hx%list_elem_of_In.
    apply elem_of_take in Hx as (i & Hx & _). apply list_elem_of_lookup_2 in Hx. unfold sorted in Hx.
    rewrite elem_of_sorted_by in Hx. by apply Hok. }
  transitivity (map (fun v => (t, re_name e, v)) (take limit (map fst (List.filter (fields_hit t fields rows) rows)))).
  2: { by rewrite firstn_map, map_map. }
  f_equal. apply sorted_prefix.
  - eapply sorted_found; [done|]. intros v. rewrite Hin. intros [?%elem_of_nil|(f & _ & Hv)]; [done|].
    apply elem_of_map in Hv as (r & -> & (i & [Hr _]%list_elem_of_lookup_2%list_elem_of_In%filter_In & _)%elem_of_take).
    by apply Hrows, list_elem_of_In.
  - apply ordered_ids, ordered_filter. by apply scope_ordered.
  - intros v. rewrite Hsorted, Hin. intros [?%elem_of_nil|(f & Hf & Hv)]; [done|].
    apply elem_of_map in Hv as (r & -> & (i & [Hr Hhit]%list_elem_of_lookup_2%list_elem_of_In%filter_In & _)%elem_of_take).
    apply list_elem_of_fmap_2, list_elem_of_In, filter_In. split; [done|]. apply existsb_exists. exists f.
    split; [by apply list_elem_of_In|done].
  - intros v. rewrite firstn_map. intros (r & -> & Hr)%elem_of_map. apply Hsorted, Hin. right.
    pose proof Hr as (i & [_ Hhit]%list_elem_of_lookup_2%list_elem_of_In%filter_In & _)%elem_of_take.
    apply existsb_exists in Hhit as (f & Hf & Hhit). exists f. split; [by apply list_elem_of_In|].
    apply list_elem_of_fmap_2. eapply filter_first; [|exact Hr|done].
    intros y Hy. apply existsb_exists. by exists f.
Qed.

Lemma scan_entity_keys s principal e t q now limit cs :
  ids_ok (table_rows s (re_name e)) -> scan_entity s principal e t q now limit = Ok cs ->
  map key_of_candidate cs = take limit (all_hits s principal q now (t, e)).
Proof.
  intros Hids Hs. unfold all_hits. cbn [fst snd]. rewrite firstn_map.
  destruct t; cbn [scan_entity] in Hs; unfold hit; try (by eapply simple_keys); try (by eapply field_keys).
  - apply bind_Ok in Hs as (cutoff & Hc & Hs). destruct (days_ago _ _); [|done]. injection Hc as ->. apply simple_keys in Hs; [|done].
    exact Hs.
  - destruct (to_float _); try done. by eapply simple_keys in Hs.
Qed.

Lemma scan_all_keys s principal q now maximum found pairs result :
  (forall p, p ∈ pairs -> ids_ok (table_rows s (re_name p.2))) ->
  (length found <= maximum)%nat ->
  scan_all s principal q now maximum found pairs = Ok result ->
  map key_of_candidate result
  = map key_of_candidate found ++ take (maximum - length found) (concat (map (all_hits s principal q now) pairs)).
Proof.
  intros Hids. revert found. induction pairs as [|p pairs IH]; intros found Hlen; cbn [scan_all].
  { intros [= <-]. cbn [map concat]. by rewrite take_nil, app_nil_r. }
  destruct (Nat.eqb_spec (maximum - length found) 0) as [E|E].
  { intros [= <-]. by rewrite E, take_0, app_nil_r. }
  intros (more & Hm & Hrest)%bind_Ok. apply scan_entity_keys in Hm; [|by apply Hids; left].
  replace (p.1, p.2) with p in Hm by (by destruct p).
  assert (length more = Nat.min (maximum - length found) (length (all_hits s principal q now p))) as Hl.
  { by rewrite <- (length_map key_of_candidate more), Hm, length_take. }
  apply IH in Hrest; [|intros x Hx; apply Hids; by right|rewrite length_app; lia].
  rewrite Hrest, map_app, Hm, <- app_assoc. f_equal. cbn [map concat]. rewrite take_app. f_equal. f_equal.
  rewrite length_app. lia.
Qed.
End scans.

(** ** The counts of a summary

    In a consistent store the records without a primary branch and the primary
    memberships together are the records. *)

(** ** Lengths of selections *)
Lemma length_split {A} (p : A -> bool) l :
  (length (List.filter (fun x => negb (p x)) l) + length (List.filter p l) = length l)%nat.
Proof. induction l as [|x l IH]; [done|]. cbn [List.filter]. destruct (p x); cbn [negb length]; lia. Qed.

Lemma same_length {A} (l k : list A) : NoDup l -> NoDup k -> (forall x, x ∈ l <-> x ∈ k) -> length l = length k.
Proof. intros Hl Hk Hlk. apply Permutation_length, NoDup_Permutation; done. Qed.

(** A selection by a key that is one of several, key by key. *)
Lemma length_by_key {A} (key : A -> pystr) (p : A -> bool) names l : NoDup names ->
  length (List.filter (fun x => p x && bool_decide (key x ∈ names)) l)
  = list_sum (map (fun n => length (List.filter (fun x => p x && bool_decide (key x = n)) l)) names).
Proof.
  induction 1 as [|n names Hn _ IH]; cbn [map list_sum].
  { rewrite (filter_equal _ (fun _ => false)); [by induction l|]. intros x _.
    rewrite bool_decide_false by (by intros ?%elem_of_nil). apply andb_false_r. }
  rewrite list_sum_cons, <- IH. clear IH. induction l as [|x l IHl]; [done|]. cbn [List.filter].
  destruct (p x); cbn [andb]; [|done]. destruct (decide (key x = n)) as [<-|Hne].
  - rewrite (bool_decide_true (key x ∈ key x :: names)), (bool_decide_true (key x = key x)),
      (bool_decide_false (key x ∈ names)) by (done || by left). cbn [length]. lia.
  - rewrite (bool_decide_false (key x = n)) by done. destruct (decide (key x ∈ names)) as [Hin|Hin].
    + rewrite (bool_decide_true (key x ∈ n :: names)), (bool_decide_true (key x ∈ names)) by (done || by right). cbn [length]. lia.
    + rewrite (bool_decide_false (key x ∈ n :: names)), (bool_decide_false (key x ∈ names)) by (done || set_solver). done.
Qed.

Section counts.
Context `{FloatRead} `{IsoDates}.

Definition member_entity (e : member_key * membership) : pystr := let '(_, n, _, _) := e.1 in n.
Definition member_record (e : member_key * membership) : UUID := let '(_, _, u, _) := e.1 in u.
Definition primary_for (principal : pystr) (e : member_key * membership) : bool :=
  let '(p, _, _, _) := e.1 in bool_decide (p = principal) && bool_decide (m_role e.2 = Primary).

Lemma primary_of_member s principal n u b : primary_of s principal n u = Some b -> primary_member s principal n u b.
Proof.
  unfold primary_of. intros Hb%head_Some_elem_of. apply list_elem_of_omap in Hb as ([b' m] & Hin%memberships_in & Hb).
  cbn in Hb. case_bool_decide as Hr; [|done]. injection Hb as <-. by exists m.
Qed.

(** The primary memberships of a caller in the declared entities. *)
Definition primaries (s : store) (principal : pystr) (names : list pystr) : list (member_key * membership) :=
  List.filter (fun e => primary_for principal e && bool_decide (member_entity e ∈ names)) (map_to_list (st_members s)).

Lemma primary_entries s principal n u :
  u ∈ map member_record (List.filter (fun e => primary_for principal e && bool_decide (member_entity e = n)) (map_to_list (st_members s)))
  <-> exists b, primary_member s principal n u b.
Proof.
  unfold primary_member. rewrite elem_of_map. split.
  - intros ([[[[p n'] u'] b] m] & -> & [He Hp]%list_elem_of_In%filter_In). apply list_elem_of_In, elem_of_map_to_list in He.
    unfold primary_for, member_entity in Hp. cbn [fst snd] in *.
    rewrite !andb_true_iff, !bool_decide_eq_true in Hp. destruct Hp as [[-> Hr] ->]. by exists b, m.
  - intros (b & m & Hm & Hr). exists ((principal, n, u, b), m). split; [done|]. apply list_elem_of_In, filter_In.
    split; [by apply list_elem_of_In, elem_of_map_to_list|]. unfold primary_for, member_entity. cbn [fst snd].
    by rewrite !bool_decide_true.
Qed.

Lemma primary_entries_NoDup s principal n : MembersOK s ->
  NoDup (map member_record (List.filter (fun e => primary_for principal e && bool_decide (member_entity e = n)) (map_to_list (st_members s)))).
Proof.
  intros [_ Hp]. apply NoDup_fmap_2_strong.
  - intros [[[[p1 n1] u1] b1] m1] [[[[p2 n2] u2] b2] m2] [Hx Px]%list_elem_of_In%filter_In [Hy Py]%list_elem_of_In%filter_In Heq.
    apply list_elem_of_In, elem_of_map_to_list in Hx, Hy. unfold primary_for, member_entity, member_record in *. cbn [fst snd] in *.
    rewrite !andb_true_iff, !bool_decide_eq_true in Px, Py. destruct Px as [[-> R1] ->], Py as [[-> R2] ->]. subst u2.
    assert (b1 = b2) as -> by (by apply (Hp principal n u1); eexists). congruence.
  - apply NoDup_ListNoDup, List.NoDup_filter, NoDup_ListNoDup, NoDup_map_to_list.
Qed.

(** The rows of an entity that have a primary branch are as many as its primary
    memberships. *)
Lemma primary_rows s principal n : MembersOK s ->
  length (List.filter (fun r : UUID * row => has_primary s principal n r.1) (owned_rows principal (table_rows s n)))
  = length (List.filter (fun e => primary_for principal e && bool_decide (member_entity e = n)) (map_to_list (st_members s))).
Proof.
  intros Hs. rewrite <- (length_map fst (List.filter _ (owned_rows _ _))), <- (length_map member_record).
  apply same_length; [|by apply primary_entries_NoDup|].
  - unfold owned_rows. rewrite filter_filter. apply NoDup_fmap_2_strong.
    + intros [u r] [v r'] [Hx _]%list_elem_of_In%filter_In [Hy _]%list_elem_of_In%filter_In Heq.
      apply list_elem_of_In, by_id_in in Hx, Hy. cbn [fst snd] in *. congruence.
    + apply NoDup_ListNoDup, List.NoDup_filter, NoDup_ListNoDup. unfold by_id. rewrite sorted_by_perm. apply NoDup_map_to_list.
  - intros u. rewrite primary_entries, elem_of_map. unfold has_primary, owned_rows. rewrite filter_filter. split.
    + intros ([v r] & -> & [_ Hp]%list_elem_of_In%filter_In). cbn [fst snd] in *.
      apply andb_true_iff in Hp as [_ Hp%bool_decide_eq_true]. destruct (primary_of s principal n v) as [b|] eqn:E; [|done].
      exists b. by apply primary_of_member.
    + intros (b & Hb). pose proof Hb as (m & Hm & _). destruct (so_members s Hs _ _ _ _ _ Hm) as [[r Hr] _].
      unfold find_row in Hr. destruct (table_rows s n !! u) as [r'|] eqn:E; [|done]. case_bool_decide as Ho; [|done].
      injection Hr as ->. exists (u, r). split; [done|]. apply list_elem_of_In, filter_In.
      split; [by apply list_elem_of_In, by_id_in|]. cbn [fst snd]. rewrite bool_decide_true by done. apply bool_decide_eq_true.
      intros Hnone. by eapply primary_of_None.
Qed.

Lemma entity_counts s principal e n k : MembersOK s ->
  record_count s principal e = Ok n -> unbranched_count s principal e = Ok k ->
  n = Z.of_nat (length (owned_rows principal (table_rows s (re_name e))))
  /\ k + Z.of_nat (length (List.filter (fun x => primary_for principal x && bool_decide (member_entity x = re_name e))
                            (map_to_list (st_members s)))) = n.
Proof.
  intros Hs. unfold record_count, unbranched_count, entity_table, table_rows.
  destruct (negb _); [done|]. destruct (st_tables s !! re_name e) as [t|] eqn:E; [|done]. cbn [mbind result_bind].
  intros [= <-] [= <-]. split; [done|]. rewrite <- primary_rows by done. unfold table_rows. rewrite E.
  pose proof (length_split (fun r : UUID * row => has_primary s principal (re_name e) r.1) (owned_rows principal (t_rows t))). lia.
Qed.

(** Entity by entity, and in all. *)
Lemma all_counts s principal es counts ks : MembersOK s ->
  mapR (fun e => n ← record_count s principal e; Ok (re_name e, n)) es = Ok counts ->
  mapR (unbranched_count s principal) es = Ok ks ->
  counts = map (fun e => (re_name e, Z.of_nat (length (owned_rows principal (table_rows s (re_name e)))))) es
  /\ foldr Z.add 0 ks
     + Z.of_nat (list_sum (map (fun n => length (List.filter (fun x => primary_for principal x && bool_decide (member_entity x = n))
                                                   (map_to_list (st_members s)))) (map re_name es)))
     = foldr Z.add 0 (map snd counts).
Proof.
  intros Hs. revert counts ks. induction es as [|e es IH]; intros counts ks; cbn [mapR map].
  { intros [= <-] [= <-]. done. }
  intros ([n' n] & (m & Hn & [= <- <-])%bind_Ok & (counts' & Hc & [= <-])%bind_Ok)%bind_Ok.
  intros (k & Hk & (ks' & Hks & [= <-])%bind_Ok)%bind_Ok.
  destruct (IH _ _ Hc Hks) as [-> Hsum], (entity_counts s principal e m k Hs Hn Hk) as [-> Hone].
  split; [done|]. cbn [foldr map snd]. rewrite list_sum_cons. lia.
Qed.
End counts.
