(* ===== verification/DiscoveryTheorems.v ===== *)
(** * DiscoveryTheorems: the properties of scans and summaries *)
From S2P Require Import Relational.
From S2P Require Export DiscoverySpec PagesTheorems.
From S2P Require Import Prelude Values Json JsonText Sha256 Manifest Samples.

Section unavailable.
Context `{FloatRead} `{IsoDates} `{JulianDays}.

Lemma elem_of_unavailable es ts t :
  t ∈ unavailable_scans es ts <-> t ∈ ts /\ forall e, e ∈ es -> scan_available t e = false.
Proof.
  unfold unavailable_scans, sorted_scans. rewrite elem_of_sorted_by, list_elem_of_In, filter_In, negb_true_iff.
  by rewrite existsb_false, <- list_elem_of_In.
Qed.

Lemma unavailable_accepted es ts : NoDup ts ->
  in_order (map scan_text (unavailable_scans es ts)) && distinct (unavailable_scans es ts) = true.
Proof.
  intros Hnd. apply andb_true_iff. split.
  - apply bool_decide_eq_true, sorted_strs_fix. unfold unavailable_scans, sorted_scans.
    rewrite map_sorted_by. apply sorted_strs_sorted.
  - apply distinct_spec. unfold unavailable_scans, sorted_scans. rewrite sorted_by_perm.
    by apply NoDup_ListNoDup, List.NoDup_filter, NoDup_ListNoDup.
Qed.

Lemma scan_order_entity es ts p : p ∈ scan_order es ts -> p.2 ∈ es.
Proof.
  unfold scan_order. rewrite list_elem_of_In, in_concat. intros (l & Hl & Hp). apply list_elem_of_In in Hl, Hp.
  apply elem_of_map in Hl as (t & -> & _). apply elem_of_map in Hp as (e & -> & He).
  by apply list_elem_of_In, filter_In in He as [He%list_elem_of_In _].
Qed.

Lemma scan_all_bounded s principal q now maximum pairs found r :
  (forall p, p ∈ pairs -> ids_ok (table_rows s (re_name p.2))) -> (length found <= maximum)%nat ->
  scan_all s principal q now maximum found pairs = Ok r -> (length r <= maximum)%nat.
Proof.
  intros Hids Hl Hr. apply scan_all_keys in Hr; [|done|done].
  rewrite <- (length_map key_of_candidate r), Hr, length_app, length_map, length_take. lia.
Qed.

Lemma scan_all_returns s principal q now maximum pairs found :
  (forall p limit, p ∈ pairs -> is_ok (scan_entity s principal p.2 p.1 q now limit) = true) ->
  exists r, scan_all s principal q now maximum found pairs = Ok r.
Proof.
  revert found. induction pairs as [|p pairs IH]; intros found Hok; cbn [scan_all]; [by eexists|].
  destruct (_ =? 0)%nat; [by eexists|]. specialize (Hok p (maximum - length found)%nat) as Hp.
  destruct (scan_entity _ _ _ _ _ _ _) as [more|]; [|by specialize (Hp ltac:(by left))].
  cbn [mbind result_bind]. apply IH. intros x n Hx. apply Hok. by right.
Qed.
End unavailable.

(** C35: A maintenance scan returns exactly the beginning, up to its maximum, of one
    list: scan after scan in the order of their names, entity after entity, the
    records in scope that the scan is about in the order of their ids, each
    once for a scan.  The limits on single statements and the merging of fields
    lose nothing.  A scan is reported unavailable exactly when it was asked for
    and no entity has the fields for it; and the scan returns whenever its
    statements do. *)
Theorem maintenance_exact `{FloatRead} `{IsoDates} `{JulianDays} (s : store) (principal : pystr) (sp : RecordSpecification)
    (q : MaintenanceQuery) (now : datetime) :
  make_maintenance q = Ok q -> (forall e, e ∈ selected_entities sp q -> ids_ok (table_rows s (re_name e))) ->
  let pairs := scan_order (selected_entities sp q) (mq_scan_types q) in
  (forall r, scan_store s principal sp q now = Ok r ->
     map key_of_candidate (ms_candidates r)
     = take (Z.to_nat (mq_max_candidates q)) (concat (map (all_hits s principal q now) pairs))
     /\ forall t, t ∈ ms_unavailable r <->
          t ∈ mq_scan_types q /\ forall e, e ∈ selected_entities sp q -> scan_available t e = false)
  /\ (selected_entities sp q <> [] ->
      (forall p limit, p ∈ pairs -> is_ok (scan_entity s principal p.2 p.1 q now limit) = true) ->
      exists r, scan_store s principal sp q now = Ok r).
Proof.
  intros Hq Hids. cbv zeta. apply require_all in Hq as [Hscan _].
  rewrite !andb_true_iff in Hscan. destruct Hscan as [[[[_ _] Hnd%distinct_spec] Hmin%Z.leb_le] Hmax%Z.leb_le].
  set (es := selected_entities sp q) in *. set (pairs := scan_order es (mq_scan_types q)).
  assert (forall p, p ∈ pairs -> ids_ok (table_rows s (re_name p.2))) as Hpairs
    by (intros p Hp%scan_order_entity; by apply Hids).
  assert (forall found, scan_all s principal q now (Z.to_nat (mq_max_candidates q)) [] pairs = Ok found ->
    make_maintenance_result {| ms_candidates := found; ms_unavailable := unavailable_scans es (mq_scan_types q) |}
    = Ok {| ms_candidates := found; ms_unavailable := unavailable_scans es (mq_scan_types q) |}) as Hmake.
  { intros found Hf. apply scan_all_bounded in Hf; [|done|cbn; lia]. unfold make_maintenance_result.
    cbn [ms_candidates ms_unavailable]. rewrite <- andb_assoc, unavailable_accepted by done.
    by rewrite (proj2 (Z.leb_le _ MAX_MAINTENANCE_CANDIDATES)) by lia. }
  unfold scan_store. cbv zeta. fold es. fold pairs. split.
  - intros r (_ & _ & (found & Hf & Hr)%bind_Ok)%bind_Ok. rewrite (Hmake _ Hf) in Hr. injection Hr as <-.
    cbn [ms_candidates ms_unavailable]. split; [|intros t; by apply elem_of_unavailable].
    apply scan_all_keys in Hf; [|done|cbn; lia]. cbn [map app length] in Hf. by rewrite Hf, Nat.sub_0_r.
  - intros Hne Hok. destruct (scan_all_returns s principal q now (Z.to_nat (mq_max_candidates q)) pairs [] Hok) as (found & Hf).
    assert (nonempty es = true) as -> by (by destruct es). cbn [negb raise_if mbind result_bind].
    rewrite Hf. cbn [mbind result_bind]. rewrite (Hmake _ Hf). by eexists.
Qed.

Lemma service_summary_given x y : make_service_summary x = Ok y -> y = x.
Proof. unfold make_service_summary. intros Hm. do 6 (apply bind_Ok in Hm as (? & _ & Hm)). by injection Hm. Qed.

(** C36: The counts of a summary of a consistent store are true: those of the
    entities are the records of the caller, and the records without a primary
    branch and the caller's primary memberships together are all of them. *)
Theorem summary_counts `{FloatRead} `{IsoDates} (s : store) (principal : pystr) (sp : RecordSpecification) (q : SummaryQuery)
    (r : ServiceSummary) :
  StoreOK s -> make_specification sp = Ok sp -> summarise s principal sp q = Ok r ->
  ss_counts r = map (fun e => (re_name e, Z.of_nat (length (owned_rows principal (table_rows s (re_name e)))))) (sp_entities sp)
  /\ ss_unbranched r + Z.of_nat (length (primaries s principal (map re_name (sp_entities sp))))
     = foldr Z.add 0 (map snd (ss_counts r)).
Proof.
  intros [_ _ Hs _] Hsp. unfold make_specification in Hsp. rewrite !require_all in Hsp.
  destruct Hsp as (_ & Hnd%distinct_spec & _). unfold summarise.
  intros (counts & Hc & (facets & _ & (branches & _ & (ks & Hk & (samples & _ & Hr)%bind_Ok)%bind_Ok)%bind_Ok)%bind_Ok)%bind_Ok.
  assert (ss_counts r = counts /\ ss_unbranched r = foldr Z.add 0 ks) as [-> ->].
  { destruct (make_service_summary _) as [x|[]] eqn:Hm; [|done..]. injection Hr as <-. apply service_summary_given in Hm as ->. done. }
  destruct (all_counts s principal (sp_entities sp) counts ks Hs Hc Hk) as [Hcounts Hsum]. split; [done|].
  unfold primaries. rewrite length_by_key by done. done.
Qed.

(** ** Scans of the shop *)
#[local] Existing Instances datum_float_repr datum_float_read shape_dates.

(** Days as seconds, for texts in the form of the store. *)
Definition second_days : JulianDays :=
  {| julianday := fun s => t ← decode_time s; Some (float_of_Z (microseconds t / 1000000)) |}.
#[local] Existing Instance second_days.

Definition loose_ends : MaintenanceQuery :=
  {| mq_scan_types := [unbranched; expired; stale]; mq_entity := None; mq_branch := None; mq_max_candidates := 2;
     mq_stale_after_days := 90; mq_low_confidence_below := PyInt 1 |}.

Definition next_year : datetime :=
  {| dt_year := 2026; dt_month := 3; dt_day := 1; dt_hour := 9; dt_minute := 0; dt_second := 0; dt_microsecond := 0 |}.

Definition candidate_keys (r : result fault MaintenanceResult) : option (list (ScanType * pystr * UUID) * list ScanType) :=
  match r with Ok m => Some (map key_of_candidate (ms_candidates m), ms_unavailable m) | Raise _ => None end.

Example scan_evaluates :
  candidate_keys (scan_store two_customers owner shop_spec loose_ends next_year)
  = Some ([(stale, lit "customer", 7%N); (stale, lit "customer", 9%N)], [expired])
  /\ candidate_keys (scan_store two_customers owner shop_spec loose_ends noon)
     = Some ([(unbranched, lit "customer", 7%N); (unbranched, lit "customer", 9%N)], [expired]).
Proof. by vm_compute. Qed.

(** 1 March 2026 was 273 days after 1 June 2025, and 29 February is read back. *)
Example days_evaluate :
  days_between next_year noon = 272
  /\ (dt_month <$> days_ago next_year 1) = Some 2 /\ (dt_day <$> days_ago next_year 1) = Some 28
  /\ from_ordinal (to_ordinal {| dt_year := 2024; dt_month := 2; dt_day := 29; dt_hour := 0; dt_minute := 0; dt_second := 0;
                                 dt_microsecond := 0 |}) = (2024, 2, 29).
Proof. by vm_compute. Qed.

Definition rows_small (s : store) (es : list RecordEntity) : bool :=
  forallb (fun e => forallb (fun x : UUID * row => (0 <? x.1)%N && (x.1 <? 2 ^ 128)%N) (map_to_list (table_rows s (re_name e)))) es.

Lemma rows_small_ok s es : rows_small s es = true -> forall e, e ∈ es -> ids_ok (table_rows s (re_name e)).
Proof. unfold rows_small. rewrite forallb_forall. intros Hall e He%list_elem_of_In. by apply ids_small, Hall. Qed.

Lemma maintenance_exact_witness :
  exists r, scan_store two_customers owner shop_spec loose_ends noon = Ok r
    /\ length (ms_candidates r) = 2%nat /\ expired ∈ ms_unavailable r.
Proof.
  assert (match scan_store two_customers owner shop_spec loose_ends noon with
          | Ok r => (length (ms_candidates r) =? 2)%nat && bool_decide (expired ∈ ms_unavailable r)
          | Raise _ => false
          end = true) as Hrun by (by vm_compute).
  destruct (scan_store two_customers owner shop_spec loose_ends noon) as [r|] eqn:E; [|discriminate Hrun].
  apply andb_true_iff in Hrun as [Hl Hexp]. apply Nat.eqb_eq in Hl. apply bool_decide_eq_true in Hexp.
  exists r. split; [reflexivity|]. split; [exact Hl|].
  assert (make_maintenance loose_ends = Ok loose_ends) as Hq by (by vm_compute).
  assert (rows_small two_customers (selected_entities shop_spec loose_ends) = true) as Hrows by (by vm_compute).
  pose proof (proj2 (proj1 (@maintenance_exact datum_float_repr datum_float_read shape_dates second_days two_customers owner
    shop_spec loose_ends noon Hq (rows_small_ok _ _ Hrows)) r E) expired) as [Hun _].
  destruct (Hun Hexp) as [_ _]. exact Hexp.
Defined.

(** ** A facet that no summary survives *)

(** A list of tags that is no membership field, as a discovery facet: the
    manifest and its specification are accepted. *)
Definition note : EntityDefinition := entity_with (lit "note") [plain (lit "tags") TStringList false].
Definition tagged : ManifestV2 :=
  {| schema_version := 1; entities := [note]; relationships := []; indices := []; query_patterns := [];
     discovery_facets := [{| facet_entity := lit "note"; facet_field := lit "tags" |}];
     retrieval_guidance := None; migration_history := [] |}.
Definition tagged_spec : RecordSpecification := record_specification_of tagged.

Definition tagged_note : CreateRecordCommand :=
  {| cr_entity := lit "note"; cr_record := [(lit "tags", JArr [jstr (lit "a")])]; cr_key := lit "k1" |}.
Definition tagged_store : store :=
  match plan_of owner agent tagged_spec (CreateRecord tagged_note) with
  | Planned pl => (mutate_once (fair_attempt 7%N 1%N Committed) (pl_specification pl) (pl_operation pl (fair_attempt 7%N 1%N Committed))
                     (empty_store tagged_spec)).2
  | _ => empty_store tagged_spec
  end.

Definition summary_of (sp : RecordSpecification) (s : store) : answer ServiceSummary :=
  service_summary reader owner agent sp {| sm_sample_sizes := [] |} s.
Definition summary_status {A} (r : answer A) : option DataFailureCode := match r with Success _ => None | Failure c => Some c end.

Example list_facet_breaks_summary :
  manifest_valid tagged = true /\ is_ok (make_specification tagged_spec) = true
  /\ summary_status (summary_of tagged_spec (empty_store tagged_spec)) = None
  /\ summary_status (summary_of tagged_spec tagged_store) = Some internal_error.
Proof. by vm_compute. Qed.

(** ** The summary of the shop *)
Definition samples_asked : SummaryQuery := {| sm_sample_sizes := [(lit "customer", 1)] |}.

Lemma summary_counts_witness :
  exists r, summarise two_customers owner shop_spec samples_asked = Ok r
    /\ ss_unbranched r + Z.of_nat (length (primaries two_customers owner (map re_name (sp_entities shop_spec)))) = 2.
Proof.
  assert (match summarise two_customers owner shop_spec samples_asked with
          | Ok r => foldr Z.add 0 (map snd (ss_counts r)) =? 2
          | Raise _ => false
          end = true) as Hrun by (by vm_compute).
  destruct (summarise two_customers owner shop_spec samples_asked) as [r|] eqn:E; [|discriminate Hrun].
  apply Z.eqb_eq in Hrun. exists r. split; [reflexivity|].
  assert (make_specification shop_spec = Ok shop_spec) as Hsp by (by vm_compute).
  destruct (@summary_counts datum_float_repr datum_float_read shape_dates two_customers owner shop_spec samples_asked r
    two_ok Hsp E) as [_ Hsum].
  rewrite Hsum. exact Hrun.
Defined.
