(* ===== verification/Services.v ===== *)
(** * Services: the use cases of the application

    What they ask of their collaborators ([application/ports.py]), the public
    projection of a service, and seeding, listing, inspecting and designing
    ([application/services.py]). *)
From S2P Require Export Session StoreCommands Pages Discovery Codecs.
From S2P Require Import Prelude Values Json Sha256 Manifest PublicJson Relational Lifecycle Operational Models Authority Contracts.

(** ** What the application layer asks of its collaborators

    [application/ports.py]: one query per method of a unit of work, the clock,
    the id provider and the admitted data store.  [_safe_application_error] and
    the errors of [application/errors.py] are here too.  [port_serves] is what
    the collaborators may answer: a unit of work runs the operations of
    [Registry] on a working copy, may raise at any of them, and a commit that
    raised may have happened; an exception of storage is never an application
    error. *)

(** ** Errors *)
Inductive AppError := NotFound | AppConflict | InvalidState | InvalidCommand | InternalFailure.
#[export] Instance AppError_eq_dec : EqDecision AppError.
Proof. solve_decision. Defined.

(** What a collaborator or the application raises. *)
Inductive AppExn := Safe (e : AppError) | Unsafe.

Definition safe_application_error (e : AppExn) : AppError :=
  match e with Safe e => e | Unsafe => InternalFailure end.

(** ** Data requests: [DataOperation] with its value and the type of a success *)
Inductive data_request : Type -> Type :=
| DR_create_record (c : CreateRecordCommand) : data_request RecordMutationOutcome
| DR_get_record (q : GetRecordQuery) : data_request RecordValue
| DR_list_records (q : ListRecordsQuery) : data_request RecordPage
| DR_search_records (q : SearchRecordsQuery) : data_request RecordPage
| DR_update_record (c : UpdateRecordCommand) : data_request RecordMutationOutcome
| DR_delete_record (c : DeleteRecordCommand) : data_request DeleteRecordOutcome
| DR_record_history (q : RecordHistoryQuery) : data_request HistoryPage
| DR_create_branch (c : CreateBranchCommand) : data_request BranchMutationOutcome
| DR_list_branches (q : ListBranchesQuery) : data_request BranchPage
| DR_update_branch (c : UpdateBranchCommand) : data_request BranchMutationOutcome
| DR_assign_branch_records (c : AssignBranchRecordsCommand) : data_request BranchAssignmentOutcome
| DR_service_summary (q : SummaryQuery) : data_request ServiceSummary
| DR_maintenance_scan (q : MaintenanceQuery) : data_request MaintenanceResult.

(** ** Queries.  [None] is an answer of another type. *)
Inductive Port : Type -> Type :=
| P_open : Port unit
| P_find_domain (principal domain_name : pystr) : Port (option Service)
| P_get (principal : pystr) (id : UUID) : Port (option Service)
| P_count (principal : pystr) : Port Z
| P_list (principal : pystr) (limit : Z) : Port (list Service)
| P_add (s : Service) : Port unit
| P_save (s : Service) (expected : Z) : Port ServiceSaveResult
| P_recovery_state (principal : pystr) (id : UUID) : Port RecoveryState
| P_resolve_non_lifecycle (k : CompletedNonLifecycleKind) (principal key fp : pystr) : Port NonLifecycleRegistryOutcome
| P_complete_non_lifecycle (k : CompletedNonLifecycleKind) (principal key fp : pystr) (s : Service) : Port unit
| P_append (e : AuditEvent) : Port unit
| P_commit : Port unit
| P_rollback : Port unit
| P_close : Port unit
| P_now : Port (option datetime)
| P_new_service_id : Port (option UUID)
| P_execute {A : Type} (st : MaterialisationStorage) (principal via : pystr) (sp : RecordSpecification)
    (q : data_request A) : Port (option (answer A)).

Abbreviation usecase := (prog Port AppExn).

Definition refuse_app {A} (e : AppError) : usecase A := throw (Safe e).
Definition require_app (b : bool) (e : AppError) : usecase unit := if b then give tt else refuse_app e.

(** [try: call() except Exception: raise failure]. *)
Definition guarded {A} (p : usecase A) (e : AppError) : usecase A :=
  try_with p (fun r => match r with Ok a => give a | Raise _ => refuse_app e end).

(** ** What the collaborators answer *)
Section serving.
Context `{PublicModels} `{FloatRepr} `{UnicodeData}.

(** What other clients commit between two units of work. *)
Variable others : relation Registry.

Definition stored {A} (m : registry A) (s s' : Session) (x : result AppExn A) : Prop :=
  call m id s s' x /\ match x with Raise (Safe _) => False | _ => True end.

Definition port_serves (s : Session) (e : event Port AppExn) (s' : Session) : Prop :=
  match e with
  | Event q x =>
      match q in Port X return result AppExn X -> Prop with
      | P_open => fun x =>
          match x with
          | Ok _ => working s = None /\ exists r, others (committed s) r /\ s' = busy r r
          | Raise _ => s' = s
          end
      | P_find_domain p d => stored (find_domain p d) s s'
      | P_get p u => stored (Registry.get p u) s s'
      | P_count p => stored (count p) s s'
      | P_list p n => stored (list_services p n) s s'
      | P_add v => stored (add v) s s'
      | P_save v n => stored (save v n) s s'
      | P_recovery_state p u => stored (recovery_state p u) s s'
      | P_resolve_non_lifecycle k p key fp => stored (resolve_non_lifecycle k p key fp) s s'
      | P_complete_non_lifecycle k p key fp v => stored (complete_non_lifecycle k p key fp v) s s'
      | P_append e => stored (append_audit e) s s'
      | P_commit => fun x =>
          match x with
          | Ok _ => exists w, working s = Some w /\ s' = idle w
          | Raise (Safe _) => False
          | Raise _ => s' = s \/ exists w, working s = Some w /\ s' = busy w w
          end
      | P_rollback => fun x => match x with Ok _ => s' = idle (committed s) | Raise _ => s' = s end
      | P_close => fun _ => s' = idle (committed s)
      | P_now | P_new_service_id | P_execute _ _ _ _ _ => fun _ => s' = s
      end x
  end.
End serving.

(** ** The public projection of a service

    [ServiceMetadata] and [StorageSummary] of [contracts.py] with the checks
    pydantic makes, and [project] of [application/models.py].  A text of the
    public models loses its outer white space and must be free of lone
    surrogates. *)

Record StorageSummary := { ss_backend : Backend; ss_namespace : pystr }.

Record ServiceMetadata := {
  md_service_id : UUID;
  md_domain_name : pystr;
  md_domain_class : pystr;
  md_intent_description : pystr;
  md_design_state : DesignState;
  md_operational_status : OperationalStatus;
  md_schema : option ManifestV2;
  md_schema_version : option Z;
  md_service_revision : Z;
  md_recovery_state : RecoveryState;
  md_created_at : datetime;
  md_updated_at : datetime;
  md_last_activity_at : datetime;
  md_materialised_at : option datetime;
  md_storage : option StorageSummary
}.

#[export] Instance RecoveryState_eq_dec : EqDecision RecoveryState.
Proof. solve_decision. Defined.
#[export] Instance StorageSummary_eq_dec : EqDecision StorageSummary.
Proof. solve_decision. Defined.
#[export] Instance ServiceMetadata_eq_dec : EqDecision ServiceMetadata.
Proof. solve_decision. Defined.

Inductive MetadataError := TextInvalid | NumberInvalid | SummaryInvalid.

(** [str] with [min_length] and [max_length], stripped. *)
Definition public_text (lo hi : nat) (s : pystr) : result MetadataError pystr :=
  let stripped := trim s in
  raise_if (negb (forallb unicode_scalar s && (lo <=? length stripped)%nat && (length stripped <=? hi)%nat)) TextInvalid ;;
  Ok stripped.

Definition make_summary_of (st : MaterialisationStorage) : result MetadataError StorageSummary :=
  raise_if (negb (namespace_pattern (namespace st)) || bool_decide (namespace st = zero_namespace)) SummaryInvalid ;;
  Ok {| ss_backend := backend st; ss_namespace := trim (namespace st) |}.

(** [project]. *)
Definition project (s : Service) (recovery : RecoveryState) : result MetadataError ServiceMetadata :=
  name ← public_text 1 96 (sv_domain_name s);
  class ← public_text 1 64 (sv_domain_class s);
  intent ← public_text 1 1000 (sv_intent_description s);
  raise_if (negb (in_opt (fun v => 1 <=? v) (sv_schema_version s))) NumberInvalid ;;
  raise_if (negb ((1 <=? sv_service_revision s) && (sv_service_revision s <=? 2 ^ 63 - 1))) NumberInvalid ;;
  storage ← match sv_storage s with
            | None => Ok None
            | Some st => summary ← make_summary_of st; Ok (Some summary)
            end;
  Ok {| md_service_id := sv_service_id s; md_domain_name := name; md_domain_class := class;
        md_intent_description := intent; md_design_state := sv_design_state s;
        md_operational_status := sv_operational_status s; md_schema := sv_manifest s;
        md_schema_version := sv_schema_version s; md_service_revision := sv_service_revision s;
        md_recovery_state := recovery; md_created_at := sv_created_at s; md_updated_at := sv_updated_at s;
        md_last_activity_at := sv_last_activity_at s; md_materialised_at := sv_materialised_at s;
        md_storage := storage |}.

(** ** Stored services have a projection *)
Lemma lstrip_length space s : (length (lstrip_by space s) <= length s)%nat.
Proof. induction s as [|c s IH]; cbn; [done|]. destruct (space c); cbn; lia. Qed.

Lemma lstrip_same space s : length (lstrip_by space s) = length s -> lstrip_by space s = s.
Proof.
  destruct s as [|c s]; [done|]. cbn. destruct (space c); [|done]. pose proof (lstrip_length space s). cbn. lia.
Qed.

Lemma lstrip_weaken space space' s :
  (forall c, space' c = true -> space c = true) -> lstrip_by space s = s -> lstrip_by space' s = s.
Proof.
  intros Hle. destruct s as [|c s]; [done|]. cbn. destruct (space' c) eqn:E; [|done]. rewrite (Hle c E).
  intros Hs. pose proof (lstrip_length space s) as Hl. rewrite Hs in Hl. cbn in Hl. lia.
Qed.

Lemma strip_weaken space space' s :
  (forall c, space' c = true -> space c = true) -> strip_by space s = s -> strip_by space' s = s.
Proof.
  intros Hle. unfold strip_by. intros Hs. pose proof (lstrip_length space s) as H1.
  set (t := lstrip_by space s) in *. pose proof (lstrip_length space (reverse t)) as H2.
  pose proof (f_equal length Hs) as Hlen. rewrite length_reverse in Hlen, H2.
  assert (t = s) as Ht by (apply lstrip_same; fold t; lia). rewrite Ht in *.
  rewrite (lstrip_weaken space space' s) by done. rewrite (lstrip_weaken space); [apply reverse_involutive|done|].
  apply lstrip_same. rewrite length_reverse. lia.
Qed.

Lemma trim_stripped s : s = strip s -> trim s = s.
Proof.
  intros Hs. apply (strip_weaken py_isspace); [|by symmetry]. intros c Hc. unfold white_space in Hc. by apply andb_true_iff in Hc as [Hc _].
Qed.

Section projection.
Context `{PublicModels} `{UnicodeData}.

(** The projection of a stored service: its own fields. *)
Definition metadata_of (s : Service) (recovery : RecoveryState) : ServiceMetadata :=
  {| md_service_id := sv_service_id s; md_domain_name := sv_domain_name s; md_domain_class := sv_domain_class s;
     md_intent_description := sv_intent_description s; md_design_state := sv_design_state s;
     md_operational_status := sv_operational_status s; md_schema := sv_manifest s;
     md_schema_version := sv_schema_version s; md_service_revision := sv_service_revision s;
     md_recovery_state := recovery; md_created_at := sv_created_at s; md_updated_at := sv_updated_at s;
     md_last_activity_at := sv_last_activity_at s; md_materialised_at := sv_materialised_at s;
     md_storage := option_map (fun st => {| ss_backend := backend st; ss_namespace := namespace st |}) (sv_storage s) |}.

Lemma public_text_valid hi hi' s : text s hi = true -> (hi <= hi')%nat -> public_text 1 hi' s = Ok s.
Proof.
  unfold text, public_text. intros Ht Hhi. bools. destruct Ht as [[[Hne Hs] Hl] Hp].
  rewrite (trim_stripped s Hs). cbv zeta. replace (forallb unicode_scalar s) with true.
  2:{ symmetry. apply forallb_forall. intros c Hc. rewrite forallb_forall in Hp. by apply isprintable_scalar, Hp. }
  destruct s as [|c s]; [done|]. cbn [length] in *. cbn [andb]. unfold raise_if.
  replace ((S (length s) <=? hi')%nat) with true; [done|]. symmetry. apply Nat.leb_le. lia.
Qed.

Lemma summary_valid s st :
  sv_service_id s <> 0%N -> (sv_service_id s < 2 ^ 128)%N -> namespace st = service_namespace (sv_service_id s) -> text (namespace st) 36 = true ->
  make_summary_of st = Ok {| ss_backend := backend st; ss_namespace := namespace st |}.
Proof.
  intros Hid Hb Hn Ht. unfold make_summary_of. rewrite Hn, service_namespace_pattern. rewrite bool_decide_false.
  - cbn [negb orb raise_if mbind result_bind]. rewrite trim_stripped; [done|]. rewrite <- Hn. unfold text in Ht. bools. by destruct Ht as [[[_ Hs] _] _].
  - intros Hz. by apply service_namespace_inj in Hz.
Qed.

Lemma project_valid s recovery :
  validate_service s = true -> (sv_service_id s < 2 ^ 128)%N -> project s recovery = Ok (metadata_of s recovery).
Proof.
  unfold validate_service, domain. intros Hv Hb. bools.
  destruct Hv as [[[[[[[[[[[[[Hid Hp] [Hn Hd]] Hc] Hi] Ht] Hm] Hm'] Hs] Hr] Hst] Hma] Hsto] Hds].
  unfold project. rewrite (public_text_valid 63 96 _ Hn) by lia. cbn [mbind result_bind].
  rewrite (public_text_valid 64 64 _ Hc) by lia. cbn [mbind result_bind].
  rewrite (public_text_valid 1000 1000 _ Hi) by lia. cbn [mbind result_bind].
  replace (in_opt (fun v => 1 <=? v) (sv_schema_version s)) with true.
  2:{ destruct (sv_schema_version s) as [v|]; [|done]. cbn [in_opt] in *. bools. symmetry. bools. lia. }
  assert ((1 <=? sv_service_revision s) && (sv_service_revision s <=? 2 ^ 63 - 1) = true) as -> by (bools; lia).
  unfold metadata_of. destruct (sv_storage s) as [st|]; [|done]. cbn [in_opt] in Hsto. bools.
  destruct Hsto as [[_ Htx] Hns]. by rewrite (summary_valid s).
Qed.
End projection.

(** ** Seeding, listing, inspecting and designing

    [ServiceApplication] of [application/services.py] as programs over the
    queries of [Ports]: the validation of a command, one unit of work, the
    rollback after any exception and the translation of exceptions. *)

(** ** Values of [application/models.py] *)
Record ApplicationContext := { ac_principal_id : pystr; ac_created_via : pystr }.

Record SeedCommand := {
  sd_domain_name : pystr; sd_domain_class : pystr; sd_intent_description : pystr; sd_idempotency_key : pystr
}.

Record DesignCommand := { dg_service_id : UUID; dg_manifest : ManifestV2; dg_idempotency_key : pystr }.

(** ** Validation *)
Definition valid_context (c : ApplicationContext) : bool :=
  valid_text (ac_principal_id c) 128 && valid_text (ac_created_via c) 64.

Definition valid_seed (c : SeedCommand) : bool :=
  identifier (sd_domain_name c) && valid_text (sd_domain_class c) 64
  && valid_text (sd_intent_description c) 1000 && valid_text (sd_idempotency_key c) 128.

Definition valid_design (c : DesignCommand) : bool :=
  negb (dg_service_id c =? 0)%N && valid_text (dg_idempotency_key c) 128
  && (schema_version (dg_manifest c) =? 1)
  && match migration_history (dg_manifest c) with [] => true | _ => false end.

(** [_fingerprint]. *)
Definition seed_payload (x : ApplicationContext) (c : SeedCommand) : json :=
  JObj [ (lit "kind", jstr (lit "seed"));
         (lit "principal", jstr (ac_principal_id x));
         (lit "created_via", jstr (ac_created_via x));
         (lit "domain_name", jstr (sd_domain_name c));
         (lit "domain_class", jstr (sd_domain_class c));
         (lit "intent", jstr (sd_intent_description c)) ].

Definition design_payload (x : ApplicationContext) (c : DesignCommand) : json :=
  JObj [ (lit "kind", jstr (lit "design"));
         (lit "principal", jstr (ac_principal_id x));
         (lit "created_via", jstr (ac_created_via x));
         (lit "service_id", jstr (uuid_str (dg_service_id c)));
         (lit "manifest", to_public_dict (dg_manifest c)) ].

Definition application_fingerprint `{FloatRepr} (payload : json) : pystr := sha256_hex (utf8 (json_dumps payload)).

(** ** Collaborators *)
Definition new_uow : usecase unit := guarded (ask P_open) InternalFailure.

Definition read_clock : usecase datetime :=
  try_with (ask P_now) (fun r => match r with Ok (Some t) => give t | _ => refuse_app InternalFailure end).

Definition fresh_service_id : usecase UUID :=
  try_with (ask P_new_service_id) (fun r =>
    match r with
    | Ok (Some u) => require_app (negb (u =? 0)%N) InternalFailure ;; give u
    | _ => refuse_app InternalFailure
    end).

Definition read_recovery (principal : pystr) (u : UUID) : usecase RecoveryState :=
  guarded (ask (P_recovery_state principal u)) InternalFailure.

(** [_project] of a service and its recovery state. *)
Definition answer_project (s : Service) (recovery : RecoveryState) : usecase ServiceMetadata :=
  match project s recovery with Ok m => give m | Raise _ => refuse_app InternalFailure end.

Definition projected (principal : pystr) (s : Service) : usecase ServiceMetadata :=
  recovery ← read_recovery principal (sv_service_id s);
  answer_project s recovery.

(** [_resolve_non_lifecycle_claim]. *)
Definition resolve_claim (o : NonLifecycleRegistryOutcome) (k : CompletedNonLifecycleKind) (principal : pystr)
  : usecase (option Service) :=
  match o with
  | NL_New => give None
  | NL_Completed c =>
      if negb (bool_decide (nl_kind c = LEGACY) || bool_decide (nl_kind c = k))
         || bool_decide (sv_principal_id (nl_service c) <> principal)
      then refuse_app InternalFailure else give (Some (nl_service c))
  | NL_Conflict => refuse_app AppConflict
  end.

(** ** How a unit of work ends *)

(** [_close_failure]. *)
Definition close_failure : usecase (option AppError) :=
  try_with (ask P_close) (fun r => give (match r with Ok _ => None | Raise _ => Some InternalFailure end)).

(** [_failure_after_close] and [_failure_after_rollback]. *)
Definition failure_after_close (e : AppExn) : usecase AppError :=
  try_with (ask P_close) (fun _ => give (safe_application_error e)).
Definition failure_after_rollback (e : AppExn) : usecase AppError :=
  try_with (ask P_rollback) (fun _ => failure_after_close e).

(** The [try]/[except]/[else] around the body of a use case. *)
Definition concluded {A} (on_error : AppExn -> usecase AppError) (body : usecase A) : usecase A :=
  try_with body (fun r =>
    match r with
    | Raise e => f ← on_error e; refuse_app f
    | Ok a => f ← close_failure; match f with Some f => refuse_app f | None => give a end
    end).

Section services.
Context `{PublicModels} `{FloatRepr}.

Definition audit_of (x : ApplicationContext) (action outcome : pystr) (u : UUID) (t : datetime) : AuditEvent :=
  {| ae_action := action; ae_outcome := outcome; ae_service_id := u; ae_principal_id := ac_principal_id x;
     ae_created_via := ac_created_via x; ae_at := t |}.

(** The writes that end a use case: the audit row, the claim, the commit. *)
Definition recorded_as (x : ApplicationContext) (k : CompletedNonLifecycleKind) (action outcome key fp : pystr)
    (s : Service) (t : datetime) : usecase ServiceMetadata :=
  ask (P_append (audit_of x action outcome (sv_service_id s) t)) ;;
  ask (P_complete_non_lifecycle k (ac_principal_id x) key fp s) ;;
  m ← projected (ac_principal_id x) s;
  ask P_commit ;;
  give m.

(** ** [seed] *)
Definition seeded_service (x : ApplicationContext) (c : SeedCommand) (u : UUID) (t : datetime) : Service :=
  {| sv_service_id := u; sv_principal_id := ac_principal_id x; sv_domain_name := sd_domain_name c;
     sv_domain_class := sd_domain_class c; sv_intent_description := sd_intent_description c;
     sv_created_at := t; sv_updated_at := t; sv_last_activity_at := t; sv_manifest := None;
     sv_schema_version := None; sv_design_state := SEEDED; sv_operational_status := ACTIVE;
     sv_service_revision := 1; sv_materialised_at := None; sv_storage := None |}.

(** A constructor of a value that may raise. *)
Definition constructed_value {E A} (m : result E A) : usecase A :=
  match m with Ok a => give a | Raise _ => throw Unsafe end.

Definition seed_new (x : ApplicationContext) (c : SeedCommand) (fp : pystr) : usecase ServiceMetadata :=
  t ← read_clock;
  u ← fresh_service_id;
  s ← constructed_value (make_service (seeded_service x c u t));
  ask (P_add s) ;;
  recorded_as x SEED (lit "seed") (lit "created") (sd_idempotency_key c) fp s t.

Definition seed_body (x : ApplicationContext) (c : SeedCommand) (fp : pystr) : usecase ServiceMetadata :=
  claim ← ask (P_resolve_non_lifecycle SEED (ac_principal_id x) (sd_idempotency_key c) fp);
  replay ← resolve_claim claim SEED (ac_principal_id x);
  match replay with
  | Some s => projected (ac_principal_id x) s
  | None =>
      existing ← ask (P_find_domain (ac_principal_id x) (sd_domain_name c));
      match existing with
      | Some s =>
          if bool_decide (sv_principal_id s <> ac_principal_id x) then seed_new x c fp else
          t ← read_clock;
          recorded_as x SEED (lit "seed") (lit "duplicate") (sd_idempotency_key c) fp s t
      | None => seed_new x c fp
      end
  end.

Definition seed (x : ApplicationContext) (c : SeedCommand) : usecase ServiceMetadata :=
  require_app (valid_context x) InvalidCommand ;;
  require_app (valid_seed c) InvalidCommand ;;
  new_uow ;;
  concluded failure_after_rollback (seed_body x c (application_fingerprint (seed_payload x c))).

(** ** [list] and [inspect] *)
Definition scoped (principal : pystr) (l : list Service) : list Service :=
  List.filter (fun s => bool_decide (sv_principal_id s = principal)) l.

Definition ordered_services (l : list Service) : list Service :=
  sorted_by created_order (fun s => (sv_created_at s, sv_service_id s)) l.

Fixpoint project_all (principal : pystr) (l : list Service) : usecase (list ServiceMetadata) :=
  match l with
  | [] => give []
  | s :: l' => m ← projected principal s; ms ← project_all principal l'; give (m :: ms)
  end.

Definition list_services_of (x : ApplicationContext) (limit : Z) : usecase (list ServiceMetadata) :=
  require_app (valid_context x) InvalidCommand ;;
  require_app ((1 <=? limit) && (limit <=? 100)) InvalidCommand ;;
  new_uow ;;
  concluded failure_after_close (
    items ← ask (P_list (ac_principal_id x) limit);
    project_all (ac_principal_id x) (take (Z.to_nat limit) (ordered_services (scoped (ac_principal_id x) items)))).

Definition inspect (x : ApplicationContext) (u : UUID) : usecase ServiceMetadata :=
  require_app (valid_context x) InvalidCommand ;;
  require_app (negb (u =? 0)%N) InvalidCommand ;;
  new_uow ;;
  found ← concluded failure_after_close (
    s ← ask (P_get (ac_principal_id x) u);
    match s with
    | Some s =>
        if bool_decide (sv_principal_id s = ac_principal_id x)
        then m ← projected (ac_principal_id x) s; give (Some m) else give None
    | None => give None
    end);
  match found with Some m => give m | None => refuse_app NotFound end.

(** ** [design] *)
Definition designed_service (s : Service) (m : ManifestV2) (t : datetime) : Service :=
  {| sv_service_id := sv_service_id s; sv_principal_id := sv_principal_id s;
     sv_domain_name := sv_domain_name s; sv_domain_class := sv_domain_class s;
     sv_intent_description := sv_intent_description s; sv_created_at := sv_created_at s;
     sv_updated_at := t; sv_last_activity_at := t; sv_manifest := Some m; sv_schema_version := Some 1;
     sv_design_state := sv_design_state s; sv_operational_status := sv_operational_status s;
     sv_service_revision := sv_service_revision s + 1; sv_materialised_at := sv_materialised_at s;
     sv_storage := sv_storage s |}.

(** The state in which a service may be designed. *)
Definition designable (s : Service) : bool :=
  bool_decide (sv_operational_status s = ACTIVE) && bool_decide (sv_design_state s = SEEDED)
  && negb (is_some (sv_manifest s)).

(** [_reread_after_stale_design]. *)
Definition reread_after_stale (principal : pystr) (u : UUID) : usecase unit :=
  current ← ask (P_get principal u);
  match current with
  | Some s => if bool_decide (sv_principal_id s = principal) then refuse_app InvalidState else refuse_app NotFound
  | None => refuse_app NotFound
  end.

Definition design_save (x : ApplicationContext) (c : DesignCommand) (fp : pystr) (s : Service) : usecase ServiceMetadata :=
  t ← read_clock;
  require_app (negb (t <? sv_updated_at s)) InternalFailure ;;
  changed ← constructed_value (make_service (designed_service s (dg_manifest c) t));
  saved ← ask (P_save changed (sv_service_revision s));
  match saved with
  | STALE_REVISION => reread_after_stale (ac_principal_id x) (dg_service_id c) ;; refuse_app InternalFailure
  | SAVED => recorded_as x DESIGN (lit "design") (lit "accepted") (dg_idempotency_key c) fp changed t
  end.

Definition design_body (x : ApplicationContext) (c : DesignCommand) (fp : pystr) : usecase ServiceMetadata :=
  claim ← ask (P_resolve_non_lifecycle DESIGN (ac_principal_id x) (dg_idempotency_key c) fp);
  replay ← resolve_claim claim DESIGN (ac_principal_id x);
  match replay with
  | Some s => projected (ac_principal_id x) s
  | None =>
      found ← ask (P_get (ac_principal_id x) (dg_service_id c));
      match found with
      | Some s =>
          require_app (bool_decide (sv_principal_id s = ac_principal_id x)) NotFound ;;
          require_app (designable s) InvalidState ;;
          require_app (negb (MAX_SERVICE_REVISION <=? sv_service_revision s)) InternalFailure ;;
          design_save x c fp s
      | None => refuse_app NotFound
      end
  end.

Definition with_manifest (c : DesignCommand) (m : ManifestV2) : DesignCommand :=
  {| dg_service_id := dg_service_id c; dg_manifest := m; dg_idempotency_key := dg_idempotency_key c |}.

Definition design (x : ApplicationContext) (c : DesignCommand) : usecase ServiceMetadata :=
  require_app (valid_context x) InvalidCommand ;;
  require_app (valid_design c) InvalidCommand ;;
  m ← match model_validate (model_dump (dg_manifest c)) with Ok m => give m | Raise _ => refuse_app InvalidCommand end;
  let c := with_manifest c m in
  new_uow ;;
  concluded failure_after_rollback (design_body x c (application_fingerprint (design_payload x c))).
End services.
