(* ===== verification/ServicesSpec.v ===== *)
(** * ServicesSpec: what seeding and designing do to the registry

    [seeded] and [designed]: the change of the tables behind one successful use
    case, as a relation between the registry before it, the service it answers
    and the registry after it; and the runs of [Services] that lead there. *)
From S2P Require Export Services.
From S2P Require Import Prelude Values Json Sha256 Manifest Relational Lifecycle Operational Models Authority Codecs Contracts.

(** ** Reasoning about the use cases of the application

    One lemma per step of a use case: opening, a call of the registry, the
    clock, the recovery state, the writes that end it, and the closing that
    follows whatever happened. *)

(** A collaborator failed: it raised, or it answered no time or no usable id. *)
Definition failing (e : event Port AppExn) : bool :=
  match e with
  | Event q (Raise _) => true
  | Event q (Ok v) =>
      match q in Port X return X -> bool with
      | P_now => fun t => negb (is_some t)
      | P_new_service_id => fun u => match u with Some u => (u =? 0)%N || (2 ^ 128 <=? u)%N | None => true end
      | _ => fun _ => false
      end v
  end.

(** A run with a failing collaborator, and the times a run was told. *)
Definition failed_in (tr : list (event Port AppExn)) : Prop := exists e, e ∈ tr /\ failing e = true.
Definition ticked_in (tr : list (event Port AppExn)) (t : datetime) : Prop := Event P_now (Ok (Some t)) ∈ tr.

Section runs.
Context `{PublicModels} `{FloatRepr} `{UnicodeData}.
Variable others : relation Registry.
(** The events a run may consist of. *)
Variable ok : event Port AppExn -> Prop.

Definition serving (s : Session) (e : event Port AppExn) (s' : Session) : Prop := port_serves others s e s' /\ ok e.
Definition troubled : Prop := exists e, ok e /\ failing e = true.

Lemma raised {X} (q : Port X) e : ok (Event q (Raise e)) -> troubled.
Proof. intros Hok. by exists (Event q (Raise e)). Qed.

Abbreviation leading := (Prog.leads serving).

(** Runs served by the collaborators, whose events are all [ok]. *)
Lemma leads_run {A} (p : usecase A) s P tr x s' :
  leading p s P -> runs p tr x -> served (port_serves others) s tr s' -> Forall ok tr -> P x s'.
Proof.
  intros Hp Hr Hs Hok. apply (Hp tr x s' Hr). clear Hp Hr. revert s Hs.
  induction Hok as [|e tr He Hok IH]; intros s; cbn; [done|]. intros (s1 & H1' & H2'). exists s1. by split; [|apply IH].
Qed.

(** A property that needs no event to be [ok]. *)
Lemma leads_plain {A} (p : usecase A) s P : (forall e, ok e) -> leading p s P -> Prog.leads (port_serves others) p s P.
Proof. intros Hall Hp tr x s' Hr Hs. eapply leads_run; [exact Hp|done..|]. by apply Forall_true. Qed.

(** ** Single steps *)
Lemma guard_then {A} b e (p : usecase A) s P :
  (b = false -> P (Raise (Safe e)) s) -> (b = true -> leading p s P) -> leading (require_app b e ;; p) s P.
Proof.
  intros Hf Ht. apply leads_bind. unfold require_app. destruct b; apply leads_done; [by apply Ht|by apply Hf].
Qed.

Lemma open_then {A} (p : usecase A) r P :
  (troubled -> P (Raise (Safe InternalFailure)) (idle r)) ->
  (forall r1, others r r1 -> leading p (busy r1 r1) P) -> leading (new_uow ;; p) (idle r) P.
Proof.
  intros Hf Ho. apply leads_bind, leads_try, leads_ask. intros [u|e] s [Hs Hok]; cbn in Hs.
  - destruct Hs as (_ & r1 & Hr & ->). apply leads_done. by apply Ho.
  - subst. apply leads_done. by eapply Hf, raised.
Qed.

(** A query that runs an operation of the registry. *)
Definition runs_as {A} (q : Port A) (m : registry A) : Prop :=
  forall s s' x, port_serves others s (Event q x) s' -> stored m s s' x.

Lemma call_leads {A} (q : Port A) m r w (P : result AppExn A -> Session -> Prop) :
  runs_as q m -> (troubled -> forall w', P (Raise Unsafe) (busy r w')) ->
  (forall a w', m w = (Ok a, w') -> P (Ok a) (busy r w')) -> leading (ask q) (busy r w) P.
Proof.
  intros Hq Hf Hok. apply leads_ask. intros x s [[Hc Hx]%Hq Ht]. destruct x as [a|e].
  - destruct Hc as (w0 & b & w' & [= <-] & Hm & -> & ->). by apply Hok.
  - apply raised in Ht. destruct e; [done|]. destruct Hc as [->|(w0 & [= <-] & ->)]; by apply Hf.
Qed.

Lemma call_then {A B} (q : Port A) m (f : A -> usecase B) r w P :
  runs_as q m -> (troubled -> forall w', P (Raise Unsafe) (busy r w')) ->
  (forall a w', m w = (Ok a, w') -> leading (f a) (busy r w') P) -> leading (ask q ≫= f) (busy r w) P.
Proof. intros Hq Hf Hok. apply leads_bind. by eapply call_leads. Qed.

Lemma clock_then {B} (f : datetime -> usecase B) s P :
  (troubled -> P (Raise (Safe InternalFailure)) s) -> (forall t, ok (Event P_now (Ok (Some t))) -> leading (f t) s P) ->
  leading (read_clock ≫= f) s P.
Proof.
  intros Hf Ht. apply leads_bind, leads_try, leads_ask. intros x s' [Hs Hok]. cbn in Hs. subst.
  destruct x as [[t|]|e]; apply leads_done; [by apply Ht| |]; apply Hf; by eexists.
Qed.

Lemma fresh_then {B} (f : UUID -> usecase B) s P :
  (troubled -> P (Raise (Safe InternalFailure)) s) ->
  (forall u, u <> 0%N -> ((2 ^ 128 <= u)%N -> troubled) -> leading (f u) s P) ->
  leading (fresh_service_id ≫= f) s P.
Proof.
  intros Hf Hu. apply leads_bind, leads_try, leads_ask. intros x s' [Hs Hok]. cbn in Hs. subst.
  destruct x as [[u|]|e]; [|apply leads_done, Hf; by eexists..].
  apply guard_then; intros Hb.
  - apply Hf. eexists. split; [exact Hok|]. apply negb_false_iff in Hb. cbn. by rewrite Hb.
  - apply leads_done. apply Hu; [by bools|]. intros Hlarge. eexists. split; [exact Hok|]. cbn.
    by rewrite (proj2 (N.leb_le _ _) Hlarge), orb_true_r.
Qed.

Lemma constructed_then {E A B} (m : result E A) (f : A -> usecase B) s P :
  (forall e, m = Raise e -> P (Raise Unsafe) s) -> (forall a, m = Ok a -> leading (f a) s P) ->
  leading (constructed_value m ≫= f) s P.
Proof. intros Hf Ha. apply leads_bind. destruct m; apply leads_done; [by apply Ha|by eapply Hf]. Qed.

(** ** The recovery state and the projection *)
Lemma recovery_reads p u r rec r' : recovery_state p u r = (Ok rec, r') -> r' = r.
Proof.
  unfold recovery_state. rewrite reading_bind. unfold id.
  destruct (active_claims r p u) as [|[k c] [|]]; [by intros [-> ->]%ret_returns| |done].
  destruct (cm_phase c) as [[]|]; try done; by intros [-> ->]%ret_returns.
Qed.

(** Why a projection may be missing. *)
Definition projection_troubled (s : Service) : Prop := troubled \/ exists rec e, project s rec = Raise e.

Lemma projected_leads p s r w (P : result AppExn ServiceMetadata -> Session -> Prop) :
  (projection_troubled s -> forall w', P (Raise (Safe InternalFailure)) (busy r w')) ->
  (forall rec m, recovery_state p (sv_service_id s) w = (Ok rec, w) -> project s rec = Ok m ->
     P (Ok m) (busy r w)) ->
  leading (projected p s) (busy r w) P.
Proof.
  intros Hf Hok. unfold projected, read_recovery, guarded. apply leads_bind, leads_try.
  eapply call_leads; [by intros ? ? ?|by intros Ht w'; apply leads_done, Hf; left|].
  intros rec w' Hrec. pose proof (recovery_reads _ _ _ _ _ Hrec) as ->. apply leads_done.
  unfold answer_project. destruct (project s rec) as [m|e] eqn:Hm; apply leads_done; [by eapply Hok|].
  apply Hf. right. by exists rec, e.
Qed.

Lemma projected_then {B} p s (f : ServiceMetadata -> usecase B) r w P :
  (projection_troubled s -> forall w', P (Raise (Safe InternalFailure)) (busy r w')) ->
  (forall rec m, recovery_state p (sv_service_id s) w = (Ok rec, w) -> project s rec = Ok m ->
     leading (f m) (busy r w) P) ->
  leading (projected p s ≫= f) (busy r w) P.
Proof. intros Hf Hok. by apply leads_bind, projected_leads. Qed.

(** ** The end of a use case *)
Definition ends {A} (P : result AppExn A -> Session -> Prop) (x : result AppExn A) (s : Session) : Prop :=
  match x with
  | Ok a => P (Ok a) (idle (committed s)) /\ (troubled -> P (Raise (Safe InternalFailure)) (idle (committed s)))
  | Raise e => P (Raise (Safe (safe_application_error e))) (idle (committed s))
  end.

Lemma closed_leads s (P : result AppExn (option AppError) -> Session -> Prop) :
  P (Ok None) (idle (committed s)) -> (troubled -> P (Ok (Some InternalFailure)) (idle (committed s))) ->
  leading close_failure s P.
Proof.
  intros H1' H2'. apply leads_try, leads_ask. intros x s' [-> Hok]. apply leads_done. destruct x; [done|]. by eapply H2', raised.
Qed.

Lemma failed_close e s (P : result AppExn AppError -> Session -> Prop) :
  P (Ok (safe_application_error e)) (idle (committed s)) -> leading (failure_after_close e) s P.
Proof. intros HP. apply leads_try, leads_ask. intros x s' [-> _]. by apply leads_done. Qed.

Lemma failed_rollback e s (P : result AppExn AppError -> Session -> Prop) :
  P (Ok (safe_application_error e)) (idle (committed s)) -> leading (failure_after_rollback e) s P.
Proof.
  intros HP. apply leads_try, leads_ask. intros [u|x] s' [Hs _]; cbn in Hs; subst; by apply failed_close.
Qed.

Lemma concluded_leads {A} on_error (body : usecase A) s P :
  (forall e s (Q : result AppExn AppError -> Session -> Prop),
     Q (Ok (safe_application_error e)) (idle (committed s)) -> leading (on_error e) s Q) ->
  leading body s (ends P) -> leading (concluded on_error body) s P.
Proof.
  intros He Hb. apply leads_try. eapply leads_mono; [|exact Hb]. intros [a|e] s1 Hx; cbn in Hx.
  - destruct Hx as [Hok Hf]. apply leads_bind, closed_leads; [by apply leads_done|]. intros Ht. by apply leads_done, Hf.
  - apply leads_bind, He. by apply leads_done.
Qed.

End runs.

Section effects.
Context `{PublicModels} `{FloatRepr} `{UnicodeData}.

(** ** Claims of seeds and designs *)
Definition completed_row (k : CompletedNonLifecycleKind) (fp : pystr) (s : Service) : Claim :=
  {| cm_fingerprint := fp; cm_service_id := sv_service_id s; cm_kind := OK_NonLifecycle k;
     cm_phase := Live COMPLETED; cm_evidence := Ev_None; cm_result := Some (Result_Service s) |}.

(** A retry with this kind and fingerprint is answered with the service. *)
Definition replays (k : CompletedNonLifecycleKind) (fp : pystr) (row : Claim) (s : Service) : Prop :=
  cm_fingerprint row = fp
  /\ (cm_kind row = OK_NonLifecycle LEGACY \/ cm_kind row = OK_NonLifecycle k)
  /\ cm_phase row = Live COMPLETED /\ cm_result row = Some (Result_Service s).

(** The audit row and the claim that end a use case. *)
Definition claimed_by (x : ApplicationContext) (k : CompletedNonLifecycleKind) (action outcome key fp : pystr)
    (s : Service) (t : datetime) (r : Registry) : Registry :=
  set_claims <[(ac_principal_id x, key) := completed_row k fp s]>
    (set_audits (fun l => retain (ac_principal_id x) (l ++ [audit_of x action outcome (sv_service_id s) t])) r).

Lemma service_result_returns b res p u r s r' :
  Registry.decode_result b res p u r = (Ok s, r') ->
  r' = r /\ res = Some (Result_Service s) /\ sv_principal_id s = p /\ validate_service s = true.
Proof.
  unfold Registry.decode_result. destruct res as [[t|t|t]|]; try done. intros (v & r1 & Hv & Hrun)%bind_returns.
  apply raise_when_returns in Hv as [Hv ->]. apply bind_returns in Hrun as (v' & r1 & Hp & Hrun).
  apply raise_when_returns in Hp as [Hp ->]. apply ret_returns in Hrun as [-> ->].
  apply orb_false_iff in Hp as [Hp _]. apply bool_decide_eq_false, dec_stable in Hp. split_and!; [done..|].
  apply negb_false_iff in Hv. destruct b; [|done]. unfold r1_service in Hv. bools. tauto.
Qed.

Lemma resolve_nl_returns k p key fp w o w' :
  resolve_non_lifecycle k p key fp w = (Ok o, w') ->
  w' = w /\ match o with
            | NL_New => claims w !! (p, key) = None
            | NL_Conflict => exists row, claims w !! (p, key) = Some row /\ forall s, ~ replays k fp row s
            | NL_Completed c => exists row, claims w !! (p, key) = Some row /\ replays k fp row (nl_service c)
                                 /\ sv_principal_id (nl_service c) = p /\ validate_service (nl_service c) = true
                                 /\ (nl_kind c = LEGACY \/ nl_kind c = k)
            end.
Proof.
  unfold resolve_non_lifecycle, select_claim. intros (v & r1 & Hk & Hrun)%bind_returns.
  apply raise_when_returns in Hk as [_ ->]. rewrite reading_bind in Hrun.
  destruct (claims w !! (p, key)) as [row|]; [|by apply ret_returns in Hrun as [-> ->]].
  case_bool_decide as Hfp.
  { apply ret_returns in Hrun as [-> ->]. split; [done|]. exists row. split; [done|]. by intros s [? _]. }
  destruct (cm_kind row) as [stored| | |] eqn:Ek, (cm_phase row) as [[]|] eqn:Ep;
    try (apply ret_returns in Hrun as [-> ->]; split; [done|]; exists row; split; [done|];
         intros s (_ & Hkd & Hph & _); rewrite Ek, Ep in *; naive_solver).
  destruct (bool_decide (stored = LEGACY) || bool_decide (stored = k)) eqn:Es.
  - apply bind_returns in Hrun as (s & r1 & Hd & Hrun). apply service_result_returns in Hd as (-> & Hres & Hpr & Hval).
    apply bind_returns in Hrun as (c & r1 & Hc & Hrun). apply lift_returns in Hc as [Hc ->].
    apply ret_returns in Hrun as [-> ->]. split; [done|]. exists row.
    unfold make_completed_non_lifecycle in Hc. apply bind_Ok in Hc as (s' & [_ ->]%service_snapshot_spec & Hc).
    apply reject_then in Hc as [_ [= <-]]. cbn. apply orb_true_iff in Es. rewrite !bool_decide_eq_true in Es.
    split_and!; try done. unfold replays. rewrite Ek. split_and!; try done. destruct Es as [->| ->]; auto.
  - apply ret_returns in Hrun as [-> ->]. split; [done|]. exists row. split; [done|].
    intros s (_ & Hkd & _). rewrite Ek in Hkd. apply orb_false_iff in Es. rewrite !bool_decide_eq_false in Es.
    naive_solver.
Qed.

(** The answer of [_resolve_non_lifecycle_claim]. *)
Lemma resolved_then {B} others ok k p key fp (f : option Service -> usecase B) r w P :
  (troubled ok -> forall w', P (Raise Unsafe) (busy r w')) ->
  (claims w !! (p, key) = None -> Prog.leads (serving others ok) (f None) (busy r w) P) ->
  (forall row s, claims w !! (p, key) = Some row -> replays k fp row s -> sv_principal_id s = p -> validate_service s = true ->
     Prog.leads (serving others ok) (f (Some s)) (busy r w) P) ->
  (forall row, claims w !! (p, key) = Some row -> (forall s, ~ replays k fp row s) ->
     P (Raise (Safe AppConflict)) (busy r w)) ->
  Prog.leads (serving others ok)
    (claim ← ask (P_resolve_non_lifecycle k p key fp); replay ← resolve_claim claim k p; f replay) (busy r w) P.
Proof.
  intros Hf Hnew Hold Hcon. eapply call_then; [by intros ? ? ?|done|].
  intros o w' [-> Ho]%resolve_nl_returns. apply leads_bind. destruct o as [| |c]; cbn [resolve_claim].
  - by apply leads_done, Hnew.
  - destruct Ho as (row & Hrow & Hno). by eapply leads_done, Hcon.
  - destruct Ho as (row & Hrow & Hre & Hp & Hval & Hk).
    assert (negb (bool_decide (nl_kind c = LEGACY) || bool_decide (nl_kind c = k))
            || bool_decide (sv_principal_id (nl_service c) <> p) = false) as ->.
    { apply orb_false_iff. split; [apply negb_false_iff, orb_true_iff; rewrite !bool_decide_eq_true; tauto|].
      apply bool_decide_eq_false. by intros ?. }
    by eapply leads_done, Hold.
Qed.

Lemma complete_nl_returns k p key fp s w u w' :
  complete_non_lifecycle k p key fp s w = (Ok u, w') ->
  claims w !! (p, key) = None /\ w' = set_claims <[(p, key) := completed_row k fp s]> w.
Proof.
  unfold complete_non_lifecycle, encode_result. intros (v & r1 & Hk & Hrun)%bind_returns.
  apply raise_when_returns in Hk as [_ ->]. apply bind_returns in Hrun as (res & r1 & Hres & Hrun).
  apply bind_returns in Hres as (v' & r2 & Hv & Hres). apply raise_when_returns in Hv as [_ ->].
  apply ret_returns in Hres as [-> ->].
  apply (atomic_run _ _ _ _ _ (insert_claim_atomic _ _ _ _)) in Hrun as (-> & _ & Hn & _). done.
Qed.

Lemma recorded_leads others ok x k action outcome key fp s t r w P :
  (troubled ok -> forall w', P (Raise Unsafe) (busy r w')) ->
  (projection_troubled ok s -> forall w', P (Raise (Safe InternalFailure)) (busy r w')) ->
  (claims w !! (ac_principal_id x, key) = None ->
   let w1 := claimed_by x k action outcome key fp s t w in
   (troubled ok -> P (Raise Unsafe) (busy w1 w1)) /\
   forall rec m, recovery_state (ac_principal_id x) (sv_service_id s) w1 = (Ok rec, w1) -> project s rec = Ok m ->
     P (Ok m) (idle w1)) ->
  Prog.leads (serving others ok) (recorded_as x k action outcome key fp s t) (busy r w) P.
Proof.
  intros Hf Hi Hok. unfold recorded_as. eapply call_then; [by intros ? ? ?|done|]. intros u1 w1 Ha.
  apply (atomic_run _ _ _ _ _ (append_audit_atomic _ _)) in Ha as [-> _].
  eapply call_then; [by intros ? ? ?|done|]. intros u2 w2 [Hn ->]%complete_nl_returns.
  destruct (Hok Hn) as [Hun Hm]. apply projected_then; [done|]. intros rec m Hrec Hpr.
  apply leads_bind, leads_ask. intros [u3|e] s3 [Hs Ht]; cbn in Hs.
  - destruct Hs as (w3 & [= <-] & ->). apply leads_done. by eapply Hm.
  - apply raised in Ht. destruct e; [done|]. destruct Hs as [->|(w3 & [= <-] & ->)]; [by apply Hf|by apply Hun].
Qed.
(** ** Seeds *)
Lemma owned_in r p s : s ∈ owned r p <-> (exists u, services r !! u = Some s) /\ sv_principal_id s = p.
Proof.
  unfold owned. rewrite list_elem_of_In, List.filter_In, <- list_elem_of_In, bool_decide_eq_true, elem_of_map.
  split.
  - intros [((u & t) & -> & Ht%elem_of_map_to_list) Hp]. split; [by exists u|done].
  - intros [(u & Hu) Hp]. split; [|done]. exists (u, s). split; [done|by apply elem_of_map_to_list].
Qed.

Lemma find_domain_returns p d r o r' :
  find_domain p d r = (Ok o, r') ->
  r' = r /\ match o with
            | Some s => s ∈ owned r p /\ sv_domain_name s = d /\ validate_service s = true
            | None => forall s, s ∈ owned r p -> sv_domain_name s <> d
            end.
Proof.
  unfold find_domain. rewrite reading_bind. unfold id.
  destruct (List.filter _ _) as [|s l] eqn:Ef.
  - intros [-> ->]%ret_returns. split; [done|]. intros s Hs Hd.
    assert (s ∈ List.filter (fun s => bool_decide (sv_domain_name s = d)) (owned r p)) as Hin.
    { apply list_elem_of_In, List.filter_In. split; [by apply list_elem_of_In|by apply bool_decide_eq_true]. }
    rewrite Ef in Hin. by apply elem_of_nil in Hin.
  - intros (t & r1 & Ht & Hrun)%bind_returns. apply ret_returns in Hrun as [-> ->].
    unfold decode_service in Ht. apply bind_returns in Ht as (v & r2 & Hv & Ht).
    apply raise_when_returns in Hv as [Hv%negb_false_iff ->]. apply ret_returns in Ht as [-> ->]. split; [done|].
    assert (s ∈ List.filter (fun s => bool_decide (sv_domain_name s = d)) (owned r p)) as Hin
      by (rewrite Ef; apply list_elem_of_here).
    apply list_elem_of_In, List.filter_In in Hin as [Hin Hd]. apply list_elem_of_In in Hin.
    apply bool_decide_eq_true in Hd. by split_and!.
Qed.

Definition seed_fingerprint (x : ApplicationContext) (c : SeedCommand) : pystr :=
  application_fingerprint (seed_payload x c).

(** The new rows of a service. *)
Definition with_service (s : Service) (r : Registry) : Registry :=
  set_identities <[sv_service_id s := live_identity s]> (set_services <[sv_service_id s := s]> r).

(** What a successful seed did: nothing, when the claim of an earlier one
    answers; a claim for the service that has the domain; or a new service. *)
Inductive seeded (x : ApplicationContext) (c : SeedCommand) (r : Registry) : Service -> Registry -> Prop :=
| seeded_replay row s :
    claims r !! (ac_principal_id x, sd_idempotency_key c) = Some row ->
    replays SEED (seed_fingerprint x c) row s -> sv_principal_id s = ac_principal_id x ->
    seeded x c r s r
| seeded_duplicate s t :
    claims r !! (ac_principal_id x, sd_idempotency_key c) = None ->
    s ∈ owned r (ac_principal_id x) -> sv_domain_name s = sd_domain_name c ->
    seeded x c r s
      (claimed_by x SEED (lit "seed") (lit "duplicate") (sd_idempotency_key c) (seed_fingerprint x c) s t r)
| seeded_new u t :
    let s := seeded_service x c u t in
    claims r !! (ac_principal_id x, sd_idempotency_key c) = None ->
    (forall s', s' ∈ owned r (ac_principal_id x) -> sv_domain_name s' <> sd_domain_name c) ->
    services r !! u = None -> identities r !! u = None ->
    seeded x c r s
      (claimed_by x SEED (lit "seed") (lit "created") (sd_idempotency_key c) (seed_fingerprint x c) s t
         (with_service s r)).

Lemma add_returns s r u r' :
  add s r = (Ok u, r') ->
  r' = with_service s r /\ services r !! sv_service_id s = None /\ identities r !! sv_service_id s = None.
Proof.
  unfold add, insert_live_identity. intros (v & r1 & Hi & Hrun)%bind_returns.
  apply (atomic_run _ _ _ _ _ (insert_service_atomic _ _)) in Hi as (-> & _ & Hs & _).
  by apply (atomic_run _ _ _ _ _ (insert_identity_atomic _ _ _)) in Hrun as (-> & Hn & _).
Qed.

Lemma add_valid s r u r' : add s r = (Ok u, r') -> validate_service s = true.
Proof.
  unfold add. intros (v & r1 & Hi & _)%bind_returns.
  apply (atomic_run _ _ _ _ _ (insert_service_atomic _ _)) in Hi as (_ & Hv & _). done.
Qed.

(** Every service in the tables has an id of 128 bits, as a [UUID] has. *)
Definition uuids (r : Registry) : Prop :=
  (forall u s, services r !! u = Some s -> (sv_service_id s < 2 ^ 128)%N)
  /\ (forall k c s, claims r !! k = Some c -> cm_result c = Some (Result_Service s) -> (sv_service_id s < 2 ^ 128)%N).

(** A valid service is projected unless a collaborator failed. *)
Lemma projection_fails ok s :
  validate_service s = true -> ((2 ^ 128 <= sv_service_id s)%N -> troubled ok) -> projection_troubled ok s -> troubled ok.
Proof.
  intros Hv Hid [Ht|(rec & e & He)]; [done|]. destruct (N.lt_ge_cases (sv_service_id s) (2 ^ 128)) as [Hs|Hs]; [|by apply Hid].
  by rewrite project_valid in He.
Qed.

Section seed.
Variable others : relation Registry.
Variable ok : event Port AppExn -> Prop.
Hypothesis others_refl : forall r, others r r.
Hypothesis others_uuids : forall r r', others r r' -> uuids r -> uuids r'.

(** Why a seed is refused. *)
Definition seed_refusal (x : ApplicationContext) (c : SeedCommand) (r : Registry) (e : AppError) : Prop :=
  match e with
  | InvalidCommand => valid_context x && valid_seed c = false
  | AppConflict => valid_context x && valid_seed c = true
      /\ exists row, claims r !! (ac_principal_id x, sd_idempotency_key c) = Some row
                    /\ forall s, ~ replays SEED (seed_fingerprint x c) row s
  | _ => False
  end.

Lemma seed_refusal_unique x c r e e' : seed_refusal x c r e -> seed_refusal x c r e' -> e' = e.
Proof. destruct e, e'; cbn; try done; try (intros [? _]; congruence); intros ? [? _]; congruence. Qed.

Lemma seeded_not_refused x c r s r' e :
  valid_context x && valid_seed c = true -> seeded x c r s r' -> ~ seed_refusal x c r e.
Proof.
  intros Hv Hs. destruct e; cbn; try tauto; [|congruence]. intros (_ & row & Hrow & Hno).
  destruct Hs as [row' s' Hrow' Hre _|s' t Hn|u t s' Hn]; [|congruence..].
  assert (row' = row) as -> by congruence. by apply (Hno s').
Qed.

(** How a seed may end: [r1] is the registry its unit of work opened at, and
    [failed] that a collaborator failed. *)
Definition seed_outcome (failed : Prop) (x : ApplicationContext) (c : SeedCommand) (r : Registry)
    (y : result AppExn ServiceMetadata) (s' : Session) : Prop :=
  exists r1 r', others r r1 /\ s' = idle r'
  /\ (forall e, seed_refusal x c r1 e -> y = Raise (Safe e) \/ failed)
  /\ match y with
     | Ok m => exists s rec, seeded x c r1 s r' /\ project s rec = Ok m
                /\ recovery_state (ac_principal_id x) (sv_service_id s) r' = (Ok rec, r')
     | Raise (Safe InternalFailure) => failed /\ (r' = r1 \/ exists s, seeded x c r1 s r')
     | Raise (Safe e) => r' = r1 /\ seed_refusal x c r1 e
     | Raise Unsafe => False
     end.
Abbreviation outcome := (seed_outcome (troubled ok)).
Abbreviation leading := (Prog.leads (serving others ok)).

Lemma seed_refused x c r r1 e : others r r1 -> seed_refusal x c r1 e -> outcome x c r (Raise (Safe e)) (idle r1).
Proof.
  intros Ho He. exists r1, r1. split_and!; [done..| |].
  - intros e' He'. left. by rewrite (seed_refusal_unique _ _ _ _ _ He He').
  - by destruct e.
Qed.

Lemma seed_troubled x c r r1 r' :
  others r r1 -> r' = r1 \/ (exists s, seeded x c r1 s r') -> troubled ok ->
  outcome x c r (Raise (Safe InternalFailure)) (idle r').
Proof. intros Ho Hr Ht. exists r1, r'. split_and!; try done. auto. Qed.

Lemma seed_answered x c r r1 r' s rec m :
  others r r1 -> valid_context x && valid_seed c = true -> seeded x c r1 s r' -> project s rec = Ok m ->
  recovery_state (ac_principal_id x) (sv_service_id s) r' = (Ok rec, r') -> outcome x c r (Ok m) (idle r').
Proof.
  intros Ho Hv Hs Hm Hrec. exists r1, r'. split_and!; [done..| |by exists s, rec].
  intros e He. by destruct (seeded_not_refused _ _ _ _ _ _ Hv Hs He).
Qed.

Lemma seed_recorded x c r r1 w label s t :
  others r r1 -> valid_context x && valid_seed c = true ->
  validate_service s = true -> ((2 ^ 128 <= sv_service_id s)%N -> troubled ok) ->
  (claims w !! (ac_principal_id x, sd_idempotency_key c) = None ->
   seeded x c r1 s (claimed_by x SEED (lit "seed") label (sd_idempotency_key c) (seed_fingerprint x c) s t w)) ->
  leading (recorded_as x SEED (lit "seed") label (sd_idempotency_key c) (seed_fingerprint x c) s t)
    (busy r1 w) (ends ok (outcome x c r)).
Proof.
  intros Ho Hv Hval Hid Hs.
  assert (troubled ok -> outcome x c r (Raise (Safe InternalFailure)) (idle r1)) as Hf by (apply (seed_troubled _ _ _ r1); auto).
  apply recorded_leads; [by intros Ht w'; apply Hf|intros Ht w'; apply Hf; by eapply projection_fails|].
  intros Hn. specialize (Hs Hn). cbv zeta. set (w1 := claimed_by _ _ _ _ _ _ _ _ _) in *.
  assert (troubled ok -> outcome x c r (Raise (Safe InternalFailure)) (idle w1)) as Hf1 by (apply (seed_troubled _ _ _ r1); eauto).
  split; [done|]. intros rec m Hrec Hm. split; [by apply (seed_answered _ _ _ r1 _ s rec)|done].
Qed.

Lemma seeded_service_made x c u t : u <> 0%N -> make_service (seeded_service x c u t) = Ok (seeded_service x c u t).
Proof.
  intros Hu. unfold make_service, keep_manifest, seeded_service. cbn. rewrite (proj2 (N.eqb_neq _ _)) by done.
  cbn. rewrite !Z.leb_refl. done.
Qed.

Lemma seed_new_leads x c r r1 :
  others r r1 -> valid_context x && valid_seed c = true -> claims r1 !! (ac_principal_id x, sd_idempotency_key c) = None ->
  (forall s', s' ∈ owned r1 (ac_principal_id x) -> sv_domain_name s' <> sd_domain_name c) ->
  leading (seed_new x c (seed_fingerprint x c)) (busy r1 r1) (ends ok (outcome x c r)).
Proof.
  intros Ho Hv Hn Hd.
  assert (troubled ok -> outcome x c r (Raise (Safe InternalFailure)) (idle r1)) as Hf by (apply (seed_troubled _ _ _ r1); auto).
  apply clock_then; [done|]. intros t _. apply fresh_then; [done|]. intros u Hu Hlarge.
  apply constructed_then; [by rewrite (seeded_service_made _ _ _ _ Hu)|]. intros s Hs.
  rewrite (seeded_service_made _ _ _ _ Hu) in Hs. injection Hs as <-.
  eapply call_then; [by intros ? ? ?|by intros Ht w'; apply Hf|]. intros v w Hadd.
  pose proof (add_valid _ _ _ _ Hadd) as Hval. apply add_returns in Hadd as (-> & Hs & Hi).
  apply seed_recorded; [done..|]. intros _. by apply seeded_new.
Qed.

Lemma seed_leads x c r : uuids r -> leading (seed x c) (idle r) (outcome x c r).
Proof using others_refl others_uuids.
  intros Huu. unfold seed.
  apply guard_then; [intros Hc; apply seed_refused; [done|]; cbn; by rewrite Hc|intros Hc].
  apply guard_then; [intros Hs; apply seed_refused; [done|]; cbn; by rewrite Hs, andb_false_r|intros Hs].
  assert (valid_context x && valid_seed c = true) as Hv by (by rewrite Hc, Hs).
  apply open_then; [apply (seed_troubled _ _ _ r); auto|]. intros r1 Ho. pose proof (others_uuids _ _ Ho Huu) as [Hus Huc].
  assert (troubled ok -> outcome x c r (Raise (Safe InternalFailure)) (idle r1)) as Hf by (apply (seed_troubled _ _ _ r1); auto).
  apply concluded_leads; [intros; by apply failed_rollback|].
  apply resolved_then; [by intros Ht w'; apply Hf|..].
  - intros Hn. eapply call_then; [by intros ? ? ?|by intros Ht w'; apply Hf|]. intros o w [-> Hfound]%find_domain_returns.
    destruct o as [s|]; [|by apply seed_new_leads]. destruct Hfound as (Hin & Hd & Hval).
    pose proof Hin as [[u Hu] Hp]%owned_in. rewrite bool_decide_false by (by intros ?).
    apply clock_then; [done|]. intros t _. apply seed_recorded; [done..| |].
    + intros Hlarge. specialize (Hus u s Hu). lia.
    + intros _. by apply seeded_duplicate.
  - intros row s Hrow Hre Hp Hval. pose proof Hre as (_ & _ & _ & Hres). specialize (Huc _ _ _ Hrow Hres).
    apply projected_leads; [intros Ht w'; apply Hf; eapply projection_fails; [done| |done]; lia|].
    intros rec m Hrec Hm. split; [|done]. apply (seed_answered _ _ _ r1 _ s rec); try done. by eapply seeded_replay.
  - intros row Hrow Hno. apply seed_refused; [done|]. split; [done|]. by exists row.
Qed.
End seed.
End effects.

(** ** What designing does to the registry, and what reads answer

    [designed]: a design saves the manifest over the service it found, at the
    next revision, and records its claim; [listed]: the services a list
    answers.  The runs of [Services] lead there. *)

Section design.
Context `{PublicModels} `{FloatRepr} `{UnicodeData}.

Definition design_fingerprint (x : ApplicationContext) (c : DesignCommand) : pystr :=
  application_fingerprint (design_payload x c).

(** What a successful design did. *)
Inductive designed (x : ApplicationContext) (c : DesignCommand) (r : Registry) : Service -> Registry -> Prop :=
| designed_replay row s :
    claims r !! (ac_principal_id x, dg_idempotency_key c) = Some row ->
    replays DESIGN (design_fingerprint x c) row s -> sv_principal_id s = ac_principal_id x ->
    designed x c r s r
| designed_new s i t :
    let s' := designed_service s (dg_manifest c) t in
    claims r !! (ac_principal_id x, dg_idempotency_key c) = None ->
    services r !! dg_service_id c = Some s -> sv_principal_id s = ac_principal_id x ->
    designable s = true -> sv_updated_at s <= t ->
    identities r !! dg_service_id c = Some i -> matches s i ->
    designed x c r s'
      (claimed_by x DESIGN (lit "design") (lit "accepted") (dg_idempotency_key c) (design_fingerprint x c) s' t
         (saved_as s' i r)).

Lemma save_valid s e r o r' : save s e r = (Ok o, r') -> validate_service s = true.
Proof.
  unfold save. intros (v & r1 & Hg & Hrun)%bind_returns. apply raise_when_returns in Hg as [_ ->].
  apply bind_returns in Hrun as (b & r2 & Hu & _).
  by apply (atomic_run _ _ _ _ _ (update_service_atomic _ _ _)) in Hu as [Hv _].
Qed.

(** [save] over the row it was computed from. *)
Lemma save_next r old s e o r' :
  RegistryOK r -> services r !! sv_service_id s = Some old -> sv_domain_name old = sv_domain_name s ->
  sv_principal_id old = sv_principal_id s -> sv_service_revision old = e -> save s e r = (Ok o, r') ->
  exists i, identities r !! sv_service_id s = Some i /\ matches old i /\ o = SAVED /\ r' = saved_as s i r.
Proof.
  intros Hr Hold Hd Hp He Hrun. pose proof (stored_service r _ old Hr Hold) as (_ & _ & i & Hi & Hm).
  exists i. pose proof Hrun as Hinv. unfold save in Hinv. apply bind_returns in Hinv as (v & r1 & Hg & Hinv).
  apply raise_when_returns in Hg as [Hg ->]. apply bind_returns in Hinv as (b & r1 & Hu & _).
  apply (atomic_run _ _ _ _ _ (update_service_atomic _ _ _)) in Hu as [Hv _]. bools. destruct Hg as [[H1' H2'] H3'].
  rewrite (save_own r s e i) in Hrun by (done || lia || (by left) || (intros ? ?; congruence)).
  rewrite Hold, Hp, He, bool_decide_true, Z.eqb_refl in Hrun by done. by injection Hrun as <- <-.
Qed.

Variable others : relation Registry.
Variable ok : event Port AppExn -> Prop.
Hypothesis others_refl : forall r, others r r.
Hypothesis others_ok : forall r r', others r r' -> RegistryOK r -> RegistryOK r'.
Hypothesis others_uuids : forall r r', others r r' -> uuids r -> uuids r'.

Definition design_accepted (x : ApplicationContext) (c : DesignCommand) : bool :=
  valid_context x && valid_design c && is_ok (validate_manifest (dg_manifest c)).

(** The caller's service, when no claim answers. *)
Definition design_found (x : ApplicationContext) (c : DesignCommand) (r : Registry) (s : Service) : Prop :=
  claims r !! (ac_principal_id x, dg_idempotency_key c) = None /\ services r !! dg_service_id c = Some s
  /\ sv_principal_id s = ac_principal_id x.

(** Why a design is refused; the last is a revision that cannot grow. *)
Definition design_refusal (x : ApplicationContext) (c : DesignCommand) (r : Registry) (e : AppError) : Prop :=
  match e with
  | InvalidCommand => design_accepted x c = false
  | AppConflict => design_accepted x c = true
      /\ exists row, claims r !! (ac_principal_id x, dg_idempotency_key c) = Some row
                    /\ forall s, ~ replays DESIGN (design_fingerprint x c) row s
  | NotFound => design_accepted x c = true /\ claims r !! (ac_principal_id x, dg_idempotency_key c) = None
      /\ forall s, services r !! dg_service_id c = Some s -> sv_principal_id s <> ac_principal_id x
  | InvalidState => design_accepted x c = true /\ exists s, design_found x c r s /\ designable s = false
  | InternalFailure => design_accepted x c = true
      /\ exists s, design_found x c r s /\ designable s = true /\ MAX_SERVICE_REVISION <= sv_service_revision s
  end.

Lemma design_refusal_unique x c r e e' : design_refusal x c r e -> design_refusal x c r e' -> e' = e.
Proof.
  unfold design_refusal, design_found. destruct e, e'; try done; intros He He'; exfalso;
    repeat match goal with H : _ /\ _ |- _ => destruct H | H : exists _, _ |- _ => destruct H end;
    try congruence; simplify_eq; try congruence; naive_solver.
Qed.

(** A service that can be designed at the next revision. *)
Definition design_target (x : ApplicationContext) (c : DesignCommand) (r : Registry) (s : Service) : Prop :=
  design_found x c r s /\ designable s = true /\ sv_service_revision s < MAX_SERVICE_REVISION.

Lemma target_not_refused x c r s e : design_accepted x c = true -> design_target x c r s -> ~ design_refusal x c r e.
Proof.
  intros Hv ((Hn & Hs & Hp) & Hd & Hr) He. destruct e; cbn in He; [| | |congruence|].
  - destruct He as (_ & _ & Ho). by apply (Ho s).
  - destruct He as (_ & row & Hrow & _). congruence.
  - destruct He as (_ & s' & (_ & Hs' & _) & Hd'). congruence.
  - destruct He as (_ & s' & (_ & Hs' & _) & _ & Hr'). assert (s' = s) as -> by congruence. lia.
Qed.

Lemma replay_not_refused x c r row s e :
  design_accepted x c = true -> claims r !! (ac_principal_id x, dg_idempotency_key c) = Some row ->
  replays DESIGN (design_fingerprint x c) row s -> ~ design_refusal x c r e.
Proof.
  intros Hv Hrow Hre He. destruct e; cbn in He; [| | |congruence|].
  - destruct He as (_ & Hn & _). congruence.
  - destruct He as (_ & row' & Hrow' & Hno). assert (row' = row) as -> by congruence. by apply (Hno s).
  - destruct He as (_ & s' & (Hn & _) & _). congruence.
  - destruct He as (_ & s' & (Hn & _) & _). congruence.
Qed.

(** How a design may end: [r1] is the registry its unit of work opened at,
    [failed] that a collaborator failed, and [ticked] what the clock answered. *)
Definition design_outcome (failed : Prop) (ticked : datetime -> Prop) (x : ApplicationContext) (c : DesignCommand)
    (r : Registry) (y : result AppExn ServiceMetadata) (s' : Session) : Prop :=
  exists r1 r', others r r1 /\ s' = idle r'
  /\ (forall e, design_refusal x c r1 e -> y = Raise (Safe e) \/ failed)
  /\ match y with
     | Ok m => exists s rec, designed x c r1 s r' /\ project s rec = Ok m
                /\ recovery_state (ac_principal_id x) (sv_service_id s) r' = (Ok rec, r')
     | Raise (Safe InternalFailure) =>
         failed /\ (r' = r1 \/ exists s, designed x c r1 s r')
         \/ r' = r1 /\ (design_refusal x c r1 InternalFailure
              \/ exists s t, design_target x c r1 s /\ ticked t /\ t < sv_updated_at s)
     | Raise (Safe e) => r' = r1 /\ design_refusal x c r1 e
     | Raise Unsafe => False
     end.
Definition ticks (t : datetime) : Prop := ok (Event P_now (Ok (Some t))).
Abbreviation outcome := (design_outcome (troubled ok) ticks).
Abbreviation leading := (Prog.leads (serving others ok)).

Lemma design_refused x c r r1 e : others r r1 -> design_refusal x c r1 e -> outcome x c r (Raise (Safe e)) (idle r1).
Proof.
  intros Ho He. exists r1, r1. split_and!; [done..| |].
  - intros e' He'. left. by rewrite (design_refusal_unique _ _ _ _ _ He He').
  - destruct e; auto.
Qed.

Lemma design_troubled x c r r1 r' :
  others r r1 -> r' = r1 \/ (exists s, designed x c r1 s r') -> troubled ok ->
  outcome x c r (Raise (Safe InternalFailure)) (idle r').
Proof. intros Ho Hr Ht. exists r1, r'. split_and!; try done; auto. Qed.

Lemma designed_service_made s m t :
  validate_service s = true -> designable s = true -> sv_updated_at s <= t -> schema_version m = 1 ->
  validate_manifest m = Ok tt -> sv_service_revision s < MAX_SERVICE_REVISION ->
  make_service (designed_service s m t) = Ok (designed_service s m t).
Proof.
  intros Hv Hd Ht Hm Hval Hr. apply validate_service_spec in Hv as [[] _]. unfold designable in Hd. bools.
  destruct Hd as [[_ Hde] _]. apply make_service_spec. split; [|done].
  rewrite Hde in swf_design. destruct swf_design as [Hmat Hst].
  split; cbn -[service_namespace]; rewrite ?Hde, ?Hmat, ?Hst; try done; try lia.
  intros m' [= <-]. rewrite Hm. split; [by apply validate_manifest_spec|done].
Qed.

Lemma design_save_leads x c r r1 s :
  others r r1 -> RegistryOK r1 -> uuids r1 -> design_accepted x c = true -> design_target x c r1 s ->
  leading (design_save x c (design_fingerprint x c) s) (busy r1 r1) (ends ok (outcome x c r)).
Proof.
  intros Ho Hr Huu Hv Htg. pose proof Htg as ((Hn & Hs & Hp) & Hd & Hrev).
  assert (troubled ok -> outcome x c r (Raise (Safe InternalFailure)) (idle r1)) as Hf by (apply (design_troubled _ _ _ r1); auto).
  destruct (stored_service r1 _ s Hr Hs) as (Hid & Hval & _).
  apply clock_then; [done|]. intros t Htick. apply guard_then; intros Ht.
  { exists r1, r1. split_and!; [done..| |].
    - intros e He. by destruct (target_not_refused _ _ _ _ _ Hv Htg He).
    - right. split; [done|]. right. exists s, t. split_and!; [done..|]. bools. lia. }
  assert (make_service (designed_service s (dg_manifest c) t) = Ok (designed_service s (dg_manifest c) t)) as Hmade.
  { unfold design_accepted, valid_design in Hv. bools. destruct Hv as [[_ [[[_ _] Hone] _]] Hman].
    apply designed_service_made; try done; [by destruct (validate_manifest _) as [[]|]]. }
  apply constructed_then; [by rewrite Hmade|]. intros s' Hs'. rewrite Hmade in Hs'. injection Hs' as <-.
  eapply call_then; [by intros ? ? ?|by intros Ht' w'; apply Hf|]. intros o w Hsave.
  pose proof (save_valid _ _ _ _ _ Hsave) as Hval'.
  apply (save_next r1 s) in Hsave as (i & Hi & Hm & -> & ->); [|done|by cbn; rewrite Hid|done..].
  apply recorded_leads; [by intros Ht' w'; apply Hf|intros Ht' w'; apply Hf; eapply projection_fails; [done| |done]|].
  { cbn. intros Hlarge. destruct Huu as [Hus _]. specialize (Hus _ _ Hs). lia. }
  intros _. cbv zeta. set (w1 := claimed_by _ _ _ _ _ _ _ _ _) in *.
  assert (designed x c r1 (designed_service s (dg_manifest c) t) w1) as Hdes.
  { cbn in Hi. rewrite Hid in Hi. apply designed_new; try done. bools. lia. }
  assert (troubled ok -> outcome x c r (Raise (Safe InternalFailure)) (idle w1)) as Hf1 by (apply (design_troubled _ _ _ r1); eauto).
  split; [done|]. intros rec m Hrec Hpr. split; [|done]. exists r1, w1. split_and!; [done..| |by eexists _, rec].
  intros e He. by destruct (target_not_refused _ _ _ _ _ Hv Htg He).
Qed.

Lemma design_body_leads x c r r1 :
  others r r1 -> RegistryOK r1 -> uuids r1 -> design_accepted x c = true ->
  leading (design_body x c (design_fingerprint x c)) (busy r1 r1) (ends ok (outcome x c r)).
Proof.
  intros Ho Hr Huu Hv.
  assert (troubled ok -> outcome x c r (Raise (Safe InternalFailure)) (idle r1)) as Hf by (apply (design_troubled _ _ _ r1); auto).
  apply resolved_then; [by intros Ht w'; apply Hf|..].
  - intros Hn. eapply call_then; [by intros ? ? ?|by intros Ht w'; apply Hf|]. intros o w Hget.
    apply (atomic_run _ _ _ _ _ (select_service_atomic _ _ _)) in Hget as [-> Hs]. destruct o as [s|].
    + destruct Hs as (Hs & Hp & _). rewrite (bool_decide_true _ Hp). apply guard_then; [done|intros _].
      apply guard_then; intros Hd.
      { apply design_refused; [done|]. split; [done|]. by exists s. }
      apply guard_then; intros Hrev.
      { apply design_refused; [done|]. split; [done|]. exists s. split_and!; [done..|]. bools. lia. }
      apply design_save_leads; try done. split_and!; [done..|]. bools. lia.
    + apply leads_done. apply design_refused; [done|]. by split_and!.
  - intros row s Hrow Hre Hp Hval. pose proof Hre as (_ & _ & _ & Hres). destruct Huu as [_ Huc]. specialize (Huc _ _ _ Hrow Hres).
    apply projected_leads; [intros Ht w'; apply Hf; eapply projection_fails; [done| |done]; lia|].
    intros rec m Hrec Hm. split; [|done]. exists r1, r1. split_and!; [done..| |].
    + intros e He. by destruct (replay_not_refused _ _ _ _ _ _ Hv Hrow Hre He).
    + exists s, rec. split_and!; try done. by eapply designed_replay.
  - intros row Hrow Hno. apply design_refused; [done|]. split; [done|]. by exists row.
Qed.

Lemma design_leads x c r : RegistryOK r -> uuids r -> leading (design x c) (idle r) (outcome x c r).
Proof using others_refl others_ok others_uuids.
  intros Hr Huu. unfold design.
  apply guard_then; [intros Hc; apply design_refused; [done|]; cbn; unfold design_accepted; by rewrite Hc|intros Hc].
  apply guard_then; [intros Hd; apply design_refused; [done|]; cbn; unfold design_accepted; by rewrite Hd, andb_false_r|intros Hd].
  rewrite model_roundtrip. apply leads_bind. destruct (validate_manifest (dg_manifest c)) as [u|e] eqn:Em.
  2:{ apply leads_done. apply design_refused; [done|]. cbn. unfold design_accepted. by rewrite Em, andb_false_r. }
  apply leads_done. cbv zeta. replace (with_manifest c (dg_manifest c)) with c by (by destruct c).
  apply open_then; [apply (design_troubled _ _ _ r); auto|]. intros r1 Ho.
  apply concluded_leads; [intros; by apply failed_rollback|].
  apply design_body_leads; [done|by eapply others_ok|by eapply others_uuids|]. unfold design_accepted. by rewrite Hc, Hd, Em.
Qed.
End design.

(** ** Lists and single services *)
Section reads.
Context `{PublicModels} `{FloatRepr} `{UnicodeData}.

Definition service_key (s : Service) : Z * UUID := (sv_created_at s, sv_service_id s).
Definition service_le (a b : Service) : Prop := created_order (service_key a) (service_key b) = true.

Lemma service_le_trans : Transitive service_le.
Proof. intros a b c. unfold service_le, created_order. cbn. intros Hab Hbc. bools. lia. Qed.

Lemma service_le_total a b : service_le a b \/ service_le b a.
Proof. unfold service_le, created_order. cbn. bools. lia. Qed.

Lemma sorted_take {A} (R : relation A) n l : StronglySorted R l -> StronglySorted R (take n l).
Proof.
  intros Hl. revert n. induction Hl as [|x l Hl IH Hx]; intros [|n]; cbn; constructor; [apply IH|by apply Forall_take].
Qed.

Lemma decode_services_returns l w l' w' : decode_services l w = (Ok l', w') -> w' = w /\ l' = l.
Proof.
  revert l' w'. induction l as [|s l IH]; intros l' w'; cbn [decode_services]; [by intros [-> ->]%ret_returns|].
  intros (t & r1 & Ht & Hrun)%bind_returns. unfold decode_service in Ht.
  apply bind_returns in Ht as (v & r2 & Hv & Ht). apply raise_when_returns in Hv as [_ ->].
  apply ret_returns in Ht as [-> ->]. apply bind_returns in Hrun as (l1 & r2 & [-> ->]%IH & Hrun).
  by apply ret_returns in Hrun as [-> ->].
Qed.

(** The services a list answers: the first of the caller's, by creation. *)
Definition listed (r : Registry) (p : pystr) (limit : Z) : list Service :=
  take (Z.to_nat limit) (ordered_services (owned r p)).

Lemma listed_scoped r p limit : scoped p (listed r p limit) = listed r p limit.
Proof.
  apply RecordValues.filter_true. apply forallb_forall. intros s Hs%list_elem_of_In. apply bool_decide_eq_true.
  unfold listed in Hs. apply elem_of_take in Hs as (i & Hi%list_elem_of_lookup_2 & _).
  by apply elem_of_sorted_by, owned_in in Hi as [_ Hp].
Qed.

Lemma listed_again r p limit :
  take (Z.to_nat limit) (ordered_services (scoped p (listed r p limit))) = listed r p limit.
Proof.
  rewrite listed_scoped.
  assert (ordered_services (listed r p limit) = listed r p limit) as ->.
  { apply sorted_by_id, sorted_take, sorted_by_sorted; [apply service_le_trans|apply service_le_total]. }
  unfold listed. rewrite take_take. f_equal. lia.
Qed.

Variable others : relation Registry.
Variable ok : event Port AppExn -> Prop.
Hypothesis others_refl : forall r, others r r.

(** A service as the registry shows it. *)
Definition shown (r : Registry) (p : pystr) (s : Service) (m : ServiceMetadata) : Prop :=
  exists rec, recovery_state p (sv_service_id s) r = (Ok rec, r) /\ project s rec = Ok m.

(** A read leaves the registry as the others left it. *)
Definition read_outcome {A} (valid : bool) (answered : Registry -> A -> Prop) (missing : Registry -> Prop) (r : Registry)
    (y : result AppExn A) (s' : Session) : Prop :=
  exists r', s' = idle r' /\
  match y with
  | Ok a => others r r' /\ answered r' a
  | Raise (Safe NotFound) => others r r' /\ missing r'
  | Raise (Safe InternalFailure) => others r r'
  | Raise (Safe InvalidCommand) => r' = r /\ valid = false
  | Raise _ => False
  end.

Lemma project_all_leads p l r w (P : result AppExn (list ServiceMetadata) -> Session -> Prop) :
  (forall w', P (Raise (Safe InternalFailure)) (busy r w')) ->
  (forall ms, Forall2 (shown w p) l ms -> P (Ok ms) (busy r w)) ->
  Prog.leads (serving others ok) (project_all p l) (busy r w) P.
Proof.
  revert P. induction l as [|s l IH]; intros P Hf Hok; cbn [project_all]; [by apply leads_done, Hok|].
  apply projected_then; [by intros _ w'|]. intros rec m Hrec Hm. apply leads_bind, IH; [done|].
  intros ms Hms. apply leads_done, Hok. constructor; [by exists rec|done].
Qed.

Lemma list_leads x limit r :
  Prog.leads (serving others ok) (list_services_of x limit) (idle r)
    (read_outcome (valid_context x && ((1 <=? limit) && (limit <=? 100)))
       (fun r' ms => Forall2 (shown r' (ac_principal_id x)) (listed r' (ac_principal_id x) limit) ms)
       (fun _ => False) r).
Proof using others_refl.
  unfold list_services_of.
  apply guard_then; [intros Hc; exists r; rewrite Hc; done|intros Hc].
  apply guard_then; [intros Hv; exists r; rewrite Hv, andb_false_r; done|intros Hv].
  apply open_then; [intros _; exists r; by split|]. intros r1 Ho.
  apply concluded_leads; [intros; by apply failed_close|].
  eapply call_then; [by intros ? ? ?|intros _ w'; exists r1; by split|]. intros items w Hl.
  unfold list_services in Hl. rewrite reading_bind in Hl. unfold id in Hl. apply decode_services_returns in Hl as [-> ->].
  assert (limit_rows limit (sorted_by created_order (fun s => (sv_created_at s, sv_service_id s))
            (owned r1 (ac_principal_id x))) = listed r1 (ac_principal_id x) limit) as ->.
  { unfold limit_rows, listed. destruct (limit <? 0) eqn:E; [|done]. bools. lia. }
  rewrite listed_again. apply project_all_leads; [intros w'; exists r1; by split|].
  intros ms Hms. split; [|intros _]; by exists r1.
Qed.

Lemma inspect_leads x u r :
  Prog.leads (serving others ok) (inspect x u) (idle r)
    (read_outcome (valid_context x && negb (u =? 0)%N)
       (fun r' m => exists s, services r' !! u = Some s /\ sv_principal_id s = ac_principal_id x
                              /\ shown r' (ac_principal_id x) s m)
       (fun r' => forall s, services r' !! u = Some s -> sv_principal_id s <> ac_principal_id x) r).
Proof using others_refl.
  unfold inspect.
  apply guard_then; [intros Hc; exists r; rewrite Hc; done|intros Hc].
  apply guard_then; [intros Hv; exists r; rewrite Hv, andb_false_r; done|intros Hv].
  apply open_then; [intros _; exists r; by split|]. intros r1 Ho. apply leads_bind.
  apply concluded_leads; [intros; by apply failed_close|].
  eapply call_then; [by intros ? ? ?|intros _ w'; exists r1; by split|]. intros o w Hget.
  apply (atomic_run _ _ _ _ _ (select_service_atomic _ _ _)) in Hget as [-> Hs]. destruct o as [s|].
  - destruct Hs as (Hs & Hp & _). rewrite (bool_decide_true _ Hp).
    apply projected_then; [intros _ w'; exists r1; by split|]. intros rec m Hrec Hm. apply leads_done. split.
    + apply leads_done. exists r1. split_and!; [done..|]. exists s. split_and!; [done..|]. by exists rec.
    + intros _. exists r1. by split.
  - apply leads_done. split; [apply leads_done|intros _]; exists r1; by split_and!.
Qed.
End reads.
