(* ===== verification/DataApp.v ===== *)
(** * DataApp: the admission of data requests

    [DataApplication] of [application/data.py]: one snapshot of the registry
    decides whether a principal may use a service; the unit of work is closed
    before the data store is called with the storage identity and the record
    specification of the service.  [sqlite_execute] is the bridge of
    [runtime.py] to the methods of the SQLite data store. *)
From S2P Require Import Relational.
From S2P Require Export Services RecordMutation.
From S2P Require Import Prelude Values Json JsonText Manifest Lifecycle Operational Models Authority Codecs Contracts.

(** ** Values *)
Record Admission := {
  ad_storage : MaterialisationStorage;
  ad_principal_id : pystr;
  ad_specification : RecordSpecification
}.

Record SummaryView := { vw_summary : ServiceSummary; vw_specification : RecordSpecification }.

Record BootstrapService := {
  bs_service_id : UUID;
  bs_domain_name : pystr;
  bs_domain_class : pystr;
  bs_intent_description : pystr;
  bs_design_state : DesignState;
  bs_operational_status : OperationalStatus;
  bs_schema_version : option Z;
  bs_recovery_state : RecoveryState;
  bs_entity_names : list pystr
}.

Record BootstrapResult := { br_services : list BootstrapService; br_truncated : bool }.

Definition MAX_BOOTSTRAP_SERVICES : Z := 100.

(** ** Admission *)

(** [_close], around a result. *)
Definition closing {A} (y : answer A) : usecase (answer A) :=
  try_with (ask P_close) (fun r => give (match r with Ok _ => y | Raise _ => Failure internal_error end)).

(** Opens a unit of work, runs the body in it, and closes it. *)
Definition in_snapshot {A} (body : usecase (answer A)) : usecase (answer A) :=
  try_with (ask P_open) (fun r =>
    match r with
    | Raise _ => give (Failure internal_error)
    | Ok _ => try_with body (fun y => closing (match y with Ok y => y | Raise _ => Failure internal_error end))
    end).

Section admission.
Context `{PublicModels} `{IsoDates}.

(** [_detach_admission]. *)
Definition detach_admission (principal : pystr) (s : Service) (recovery : RecoveryState) : answer Admission :=
  match recovery with
  | PENDING => Failure storage_busy
  | STATE_RECOVERY_REQUIRED => Failure storage_unavailable
  | CLEAR =>
      if negb (bool_decide (sv_design_state s = MATERIALISED)) || negb (bool_decide (sv_operational_status s = ACTIVE))
      then Failure storage_unavailable else
      match sv_manifest s, sv_storage s with
      | Some m, Some st =>
          match make_storage st, compile_record_specification m with
          | Ok st, Ok sp => Success {| ad_storage := st; ad_principal_id := principal; ad_specification := sp |}
          | _, _ => Failure internal_error
          end
      | _, _ => Failure storage_unavailable
      end
  end.

(** [_admit]. *)
Definition admission (x : ApplicationContext) (u : UUID) : usecase (answer Admission) :=
  if negb (valid_context x && negb (u =? 0)%N) then give (Failure validation_failed) else
  in_snapshot (
    s ← ask (P_get (ac_principal_id x) u);
    match s with
    | Some s =>
        if bool_decide (sv_principal_id s <> ac_principal_id x) then give (Failure not_found) else
        recovery ← ask (P_recovery_state (ac_principal_id x) u);
        give (detach_admission (ac_principal_id x) s recovery)
    | None => give (Failure not_found)
    end).

(** [_execute_admitted]. *)
Definition execute_admitted {A} (d : Admission) (x : ApplicationContext) (q : data_request A) : usecase (answer A) :=
  try_with (ask (P_execute (ad_storage d) (ad_principal_id d) (ac_created_via x) (ad_specification d) q)) (fun r =>
    give (match r with Ok (Some y) => y | _ => Failure internal_error end)).

(** [if type(admission) is DataFailure: return admission]. *)
Definition once_admitted {A} (x : ApplicationContext) (u : UUID) (k : Admission -> usecase (answer A)) : usecase (answer A) :=
  d ← admission x u;
  match d with Success d => k d | Failure c => give (Failure c) end.

(** [_dispatch]: the thirteen operations but the two that need the specification. *)
Definition dispatch {A} (x : ApplicationContext) (u : UUID) (q : data_request A) : usecase (answer A) :=
  once_admitted x u (fun d => execute_admitted d x q).

(** ** Operations that use the admitted specification *)
Definition viewed (d : Admission) (y : answer ServiceSummary) : answer SummaryView :=
  match y with
  | Success v => Success {| vw_summary := v; vw_specification := ad_specification d |}
  | Failure c => Failure c
  end.

Definition summary_of (x : ApplicationContext) (u : UUID) (q : SummaryQuery) : usecase (answer SummaryView) :=
  once_admitted x u (fun d => y ← execute_admitted d x (DR_service_summary q); give (viewed d y)).

Definition service_summary_sample (x : ApplicationContext) (u : UUID) (sample : Z) : usecase (answer SummaryView) :=
  if negb ((0 <=? sample) && (sample <=? 3)) then give (Failure validation_failed) else
  once_admitted x u (fun d =>
    match make_summary {| sm_sample_sizes := map (fun e => (re_name e, sample)) (sp_entities (ad_specification d)) |} with
    | Raise _ => give (Failure internal_error)
    | Ok q => y ← execute_admitted d x (DR_service_summary q); give (viewed d y)
    end).

(** The role as the caller wrote it. *)
Definition role_argument (role : option pystr) : recorded (option BranchRole) :=
  match role with
  | None => Ok None
  | Some t => match read_role t with Some r => Ok (Some r) | None => Raise RecordContractError end
  end.

Definition filter_query `{FloatRepr} (sp : RecordSpecification) (entity : pystr) (filters : list (pystr * json))
    (branch : option UUID) (role : option pystr) (page : PageRequest) : recorded SearchRecordsQuery :=
  compiled ← mapR (fun e : pystr * json => validate_filter sp entity e.1 e.2) (sorted_by str_leb fst filters);
  role ← role_argument role;
  make_search_records {| sr_entity := entity; sr_filters := compiled; sr_branch := branch; sr_role := role; sr_page := page |}.

Definition search_records_from_filters `{FloatRepr} (x : ApplicationContext) (u : UUID) (entity : pystr)
    (filters : list (pystr * json)) (branch : option UUID) (role : option pystr) (page : PageRequest)
  : usecase (answer RecordPage) :=
  once_admitted x u (fun d =>
    match filter_query (ad_specification d) entity filters branch role page with
    | Raise _ => give (Failure validation_failed)
    | Ok q => execute_admitted d x (DR_search_records q)
    end).

(** ** [bootstrap] *)
Definition bootstrap_card (s : Service) (recovery : RecoveryState) : usecase BootstrapService :=
  names ← match sv_manifest s with
          | None => give []
          | Some m => sp ← constructed_value (compile_record_specification m); give (map re_name (sp_entities sp))
          end;
  give {| bs_service_id := sv_service_id s; bs_domain_name := sv_domain_name s; bs_domain_class := sv_domain_class s;
          bs_intent_description := sv_intent_description s; bs_design_state := sv_design_state s;
          bs_operational_status := sv_operational_status s; bs_schema_version := sv_schema_version s;
          bs_recovery_state := recovery; bs_entity_names := names |}.

Fixpoint bootstrap_cards (principal : pystr) (l : list Service) : usecase (list BootstrapService) :=
  match l with
  | [] => give []
  | s :: l' =>
      recovery ← ask (P_recovery_state principal (sv_service_id s));
      card ← bootstrap_card s recovery;
      cards ← bootstrap_cards principal l';
      give (card :: cards)
  end.

Definition bootstrap (x : ApplicationContext) (limit : Z) : usecase (answer BootstrapResult) :=
  if negb (valid_context x && ((1 <=? limit) && (limit <=? MAX_BOOTSTRAP_SERVICES)))
  then give (Failure validation_failed) else
  in_snapshot (
    total ← ask (P_count (ac_principal_id x));
    services ← ask (P_list (ac_principal_id x) limit);
    if (total <? 0) || existsb (fun s => negb (bool_decide (sv_principal_id s = ac_principal_id x))) services
    then throw Unsafe else
    cards ← bootstrap_cards (ac_principal_id x) (take (Z.to_nat limit) (ordered_services services));
    give (Success {| br_services := cards; br_truncated := Z.of_nat (length cards) <? total |})).
End admission.
