(* ===== verification/Deployment.v ===== *)
(** * Deployment: the application over a registry and its SQLite stores

    Which data requests reach a store, what the store then does, and what the
    first orientation of an agent shows. *)
From S2P Require Import Relational.
From S2P Require Export DataApp ServicesSpec RecordEvidence StoreCommands.
From S2P Require Import Prelude Values Json JsonText Manifest Lifecycle Operational Models Authority Codecs Contracts.

(** ** Which data requests reach a store, and what a store does

    The runs of [DataApp] against a deployment: the registry of [Ports] and one
    SQLite store per namespace, where a call runs the methods of the record
    store.  [deployment_serves] includes the bridge of [runtime.py],
    [SQLiteAdmittedDataStore.execute]. *)

(** ** Admission *)
Section admission.
Context `{PublicModels} `{FloatRepr} `{UnicodeData} `{IsoDates}.
Variable others : relation Registry.
Variable ok : event Port AppExn -> Prop.

Abbreviation leading := (Prog.leads (serving others ok)).

(** What an admission says of the registry. *)
Record AdmittedAt (x : ApplicationContext) (u : UUID) (r : Registry) (d : Admission) : Prop := {
  aa_service : exists s m st, services r !! u = Some s /\ sv_principal_id s = ac_principal_id x
    /\ sv_design_state s = MATERIALISED /\ sv_operational_status s = ACTIVE
    /\ sv_manifest s = Some m /\ compile_record_specification m = Ok (ad_specification d)
    /\ sv_storage s = Some st /\ ad_storage d = st;
  aa_clear : recovery_state (ac_principal_id x) u r = (Ok CLEAR, r);
  aa_principal : ad_principal_id d = ac_principal_id x
}.

(** What an active service is served from cannot be rebuilt. *)
Definition unusable (s : Service) : Prop :=
  exists m st, sv_manifest s = Some m /\ sv_storage s = Some st
    /\ ((exists e, make_storage st = Raise e) \/ exists e, compile_record_specification m = Raise e).

(** Why a request is refused before any store is opened. *)
Definition unserved (failed : Prop) (x : ApplicationContext) (u : UUID) (r : Registry) (c : DataFailureCode) : Prop :=
  match c with
  | validation_failed => valid_context x && negb (u =? 0)%N = false
  | not_found => forall s, services r !! u = Some s -> sv_principal_id s <> ac_principal_id x
  | storage_busy => recovery_state (ac_principal_id x) u r = (Ok PENDING, r)
  | storage_unavailable =>
      recovery_state (ac_principal_id x) u r = (Ok STATE_RECOVERY_REQUIRED, r)
      \/ exists s, services r !! u = Some s
         /\ ~ (sv_design_state s = MATERIALISED /\ sv_operational_status s = ACTIVE /\ is_Some (sv_manifest s)
               /\ is_Some (sv_storage s))
  | internal_error =>
      failed \/ exists s, services r !! u = Some s /\ sv_principal_id s = ac_principal_id x /\ unusable s
  | _ => False
  end.

Definition admission_outcome (x : ApplicationContext) (u : UUID) (r : Registry)
    (z : result AppExn (answer Admission)) (s' : Session) : Prop :=
  exists y r', z = Ok y /\ s' = idle r' /\
  match y with
  | Success d => others r r' /\ AdmittedAt x u r' d
  | Failure c => (r' = r \/ others r r') /\ unserved (troubled ok) x u r' c
  end.

Lemma closing_leads {A} (y : answer A) s (P : result AppExn (answer A) -> Session -> Prop) :
  P (Ok y) (idle (committed s)) -> (troubled ok -> P (Ok (Failure internal_error)) (idle (committed s))) ->
  leading (closing y) s P.
Proof.
  intros H1' H2'. apply leads_try, leads_ask. intros r s' [-> Hok]. apply leads_done. destruct r; [done|].
  by eapply H2', raised.
Qed.

Lemma snapshot_leads {A} (body : usecase (answer A)) r (P : result AppExn (answer A) -> Session -> Prop) :
  (troubled ok -> P (Ok (Failure internal_error)) (idle r)) ->
  (forall r1, others r r1 -> leading body (busy r1 r1) (fun z s1 =>
     P (match z with Ok y => Ok y | Raise _ => Ok (Failure internal_error) end) (idle (committed s1))
     /\ (troubled ok -> P (Ok (Failure internal_error)) (idle (committed s1))))) ->
  leading (in_snapshot body) (idle r) P.
Proof.
  intros Hf Hb. apply leads_try, leads_ask. intros [v|e] s [Hs Hok]; cbn in Hs.
  - destruct Hs as (_ & r1 & Hr & ->). apply leads_try. eapply leads_mono; [|by apply Hb].
    intros [y|e] s1 [Hy Hi]; by apply closing_leads.
  - subst. by eapply leads_done, Hf, raised.
Qed.

Lemma detached p s rec :
  match detach_admission p s rec with
  | Success d => rec = CLEAR /\ ad_principal_id d = p
      /\ sv_design_state s = MATERIALISED /\ sv_operational_status s = ACTIVE
      /\ exists m, sv_manifest s = Some m /\ compile_record_specification m = Ok (ad_specification d)
         /\ sv_storage s = Some (ad_storage d)
  | Failure c => match c with
      | storage_busy => rec = PENDING
      | storage_unavailable => rec = STATE_RECOVERY_REQUIRED
          \/ ~ (sv_design_state s = MATERIALISED /\ sv_operational_status s = ACTIVE /\ is_Some (sv_manifest s)
                /\ is_Some (sv_storage s))
      | internal_error => unusable s
      | _ => False
      end
  end.
Proof.
  unfold detach_admission. destruct rec; [|done|by left].
  destruct (negb _ || negb _) eqn:E; [right; bools; tauto|]. bools. destruct E as [Hd Ho].
  destruct (sv_manifest s) as [m|] eqn:Em; [|right; intros (_ & _ & [? [=]] & _)].
  destruct (sv_storage s) as [st|] eqn:Est; [|right; intros (_ & _ & _ & [? [=]])].
  destruct (make_storage st) as [st'|e] eqn:Es; [|exists m, st; split_and!; eauto]. apply reject_then in Es as [Hst [= <-]].
  destruct (compile_record_specification m) as [sp|e] eqn:Ec; [|exists m, st; split_and!; eauto]. split_and!; try done. by exists m.
Qed.

Lemma admission_leads x u r :
  leading (admission x u) (idle r) (admission_outcome x u r).
Proof.
  unfold admission. destruct (negb _) eqn:E.
  { apply leads_done. apply negb_true_iff in E. exists (Failure validation_failed), r. split_and!; [done|done|by left|done]. }
  apply snapshot_leads; [intros Ht; exists (Failure internal_error), r; split_and!; [done|done|by left|by left]|]. intros r1 Ho.
  assert (troubled ok -> admission_outcome x u r (Ok (Failure internal_error)) (idle r1)) as Hf.
  { intros Ht. exists (Failure internal_error), r1. split_and!; [done|done|by right|by left]. }
  eapply call_then; [by intros ? ? ?|by intros Ht w'; split; [apply Hf|]|]. intros o w Hget.
  apply (atomic_run _ _ _ _ _ (select_service_atomic _ _ _)) in Hget as [-> Hs]. destruct o as [s|].
  - destruct Hs as (Hs & Hp & _). rewrite bool_decide_false by (by intros ?).
    eapply call_then; [by intros ? ? ?|by intros Ht w'; split; [apply Hf|]|]. intros rec w Hrec.
    pose proof (recovery_reads _ _ _ _ _ Hrec) as ->. apply leads_done. split; [|done].
    pose proof (detached (ac_principal_id x) s rec) as Hd.
    destruct (detach_admission (ac_principal_id x) s rec) as [d|c].
    + destruct Hd as (-> & Hpd & Hde & Hop & m & Hm & Hsp & Hst). exists (Success d), r1. split_and!; try done.
      split; [|done..]. exists s, m, (ad_storage d). by split_and!.
    + exists (Failure c), r1. split; [done|]. split; [done|].
      destruct c; try done; (split; [by right|]); cbn [unserved]; [by subst| |right; by exists s].
      destruct Hd as [->|Hd]; [by left|right]. by exists s.
  - apply leads_done. split; [|done]. exists (Failure not_found), r1. split_and!; [done|done|by right|done].
Qed.
End admission.

(** ** The application over a registry and its SQLite stores

    A deployment holds the session with the registry and one store per
    namespace.  A call of the data store runs a method of
    [SQLiteMaterialisedDataStore] behind the bridge
    [SQLiteAdmittedDataStore.execute] of [runtime.py]: the methods of
    [RecordStore], [Topology], [Pages] and [Discovery], on the store the
    locator names.  Other clients may write that store between the transactions
    of a method. *)

Record Deployment := { dp_session : Session; dp_stores : gmap pystr store }.

Section deployment.
Context `{PublicModels} `{FloatRead} `{UnicodeData} `{IsoDates} `{JulianDays}.
Variable others : relation Registry.
Variable writers : relation store.

(** ** The methods of a store: [None] is an exception *)
Definition mutation_call {A} (p : planned A) (s : store) (y : option (answer A)) (s' : store) : Prop :=
  match p with
  | Refused c => y = Some (Failure c) /\ s' = s
  | Escapes => y = None /\ s' = s
  | Planned pl => exists tr z, runs mutate tr z /\ served (RecordMutation.serves Sane pl writers) s tr s'
                    /\ y = match z with Ok r => Some r | Raise _ => None end
  end.

Definition reading_call {A} (method : attempt -> store -> option (answer A)) (s : store) (y : option (answer A))
    (s' : store) : Prop :=
  writers s s' /\ exists a, Sane a /\ y = method a s'.

Definition method_call {A} (principal via : pystr) (sp : RecordSpecification) (q : data_request A) (s : store)
    (y : option (answer A)) (s' : store) : Prop :=
  match q in data_request A return option (answer A) -> Prop with
  | DR_create_record c => fun y => mutation_call (create_record principal via sp c) s y s'
  | DR_get_record q => fun y => reading_call (fun a s => Some (get_record a principal via sp q s)) s y s'
  | DR_list_records q => fun y => reading_call (fun a s => list_records a principal via sp q s) s y s'
  | DR_search_records q => fun y => reading_call (fun a s => search_records a principal via sp q s) s y s'
  | DR_update_record c => fun y => mutation_call (update_record principal via sp c) s y s'
  | DR_delete_record c => fun y => mutation_call (delete_record principal via sp c) s y s'
  | DR_record_history q => fun y => reading_call (fun a s => record_history a principal via sp q s) s y s'
  | DR_create_branch c => fun y => mutation_call (create_branch principal via sp c) s y s'
  | DR_list_branches q => fun y => reading_call (fun a s => list_branches a principal via sp q s) s y s'
  | DR_update_branch c => fun y => mutation_call (update_branch principal via sp c) s y s'
  | DR_assign_branch_records c => fun y => mutation_call (assign_branch_records principal via sp c) s y s'
  | DR_service_summary q => fun y => reading_call (fun a s => Some (service_summary a principal via sp q s)) s y s'
  | DR_maintenance_scan q => fun y => reading_call (fun a s => Some (maintenance_scan a principal via sp q s)) s y s'
  end y.

(** ** [SQLiteAdmittedDataStore.execute]; a store that is not there answers a failure *)
Definition sqlite_execute {A} (st : MaterialisationStorage) (principal via : pystr) (sp : RecordSpecification)
    (q : data_request A) (stores : gmap pystr store) (y : answer A) (stores' : gmap pystr store) : Prop :=
  if negb (bool_decide (backend st = SQLITE)) then y = Failure storage_unavailable /\ stores' = stores else
  match make_locator {| lo_backend := SQLITE; lo_namespace := namespace st |} with
  | Raise _ => y = Failure internal_error /\ stores' = stores
  | Ok l =>
      match stores !! lo_namespace l with
      | None => (exists c, y = Failure c) /\ stores' = stores
      | Some s => exists y' s', method_call principal via sp q s y' s'
                    /\ y = default (Failure internal_error) y' /\ stores' = <[lo_namespace l := s']> stores
      end
  end.

(** The data store is called after the unit of work of the admission was closed:
    other clients may have committed to the registry in between. *)
Definition settles (s s' : Session) : Prop :=
  s' = s \/ working s = None /\ exists r, others (committed s) r /\ s' = idle r.

Definition deployment_serves (d : Deployment) (e : event Port AppExn) (d' : Deployment) : Prop :=
  match e with
  | Event q z =>
      match q in Port X return result AppExn X -> Prop with
      | P_execute st p via sp q => fun z =>
          settles (dp_session d) (dp_session d')
          /\ exists y, z = Ok (Some y) /\ sqlite_execute st p via sp q (dp_stores d) y (dp_stores d')
      | q' => fun z => port_serves others (dp_session d) (Event q' z) (dp_session d') /\ dp_stores d' = dp_stores d
      end z
  end.

(** ** Programs that do not call the data store *)
Definition executes (e : event Port AppExn) : bool :=
  match e with Event q _ => match q with P_execute _ _ _ _ _ => true | _ => false end end.

Definition silent {A} (p : usecase A) : Prop := forall tr z, runs p tr z -> Forall (fun e => executes e = false) tr.

Lemma silent_done {A} (z : result AppExn A) : silent (Done z).
Proof. intros tr y [-> _]. constructor. Qed.

Lemma silent_ask {X} (q : Port X) : (forall z, executes (Event q z) = false) -> silent (ask q).
Proof. intros Hq tr z (y & tr' & -> & -> & _). by repeat constructor. Qed.

Lemma silent_try {A B} (p : usecase A) (k : result AppExn A -> usecase B) :
  silent p -> (forall z, silent (k z)) -> silent (try_with p k).
Proof.
  intros Hp Hk. induction p as [z|X q c IH]; cbn [try_with]; [apply Hk|].
  intros tr y (z & tr' & -> & Hrun). constructor.
  - assert (exists t v, runs (c z) t v) as (t & v & Hv).
    { clear. generalize (c z) as p. induction p as [r|Y q' c' IH]; [by exists [], r|].
      destruct (IH (Raise Unsafe)) as (t & v & Hv). by exists (Event q' (Raise Unsafe) :: t), v, (Raise Unsafe), t. }
    assert (runs (Ask q c) (Event q z :: t) v) as Hr by (by exists z, t). apply Hp in Hr. by inversion Hr.
  - apply (IH z) with (z := y); [|done]. intros t v Hv.
    assert (runs (Ask q c) (Event q z :: t) v) as Hr by (by exists z, t). apply Hp in Hr. by inversion Hr.
Qed.

Lemma silent_served d tr d' :
  served deployment_serves d tr d' -> Forall (fun e => executes e = false) tr ->
  served (port_serves others) (dp_session d) tr (dp_session d') /\ dp_stores d' = dp_stores d.
Proof.
  intros Hs Htr. revert d Hs. induction Htr as [|[X q z] tr He Htr IH]; intros d; cbn; [by intros ->|].
  intros (d1 & Hd & Hs). apply IH in Hs as [Hs Hst].
  assert (port_serves others (dp_session d) (Event q z) (dp_session d1) /\ dp_stores d1 = dp_stores d) as [Hp Hd1]
    by (by destruct q).
  split; [by exists (dp_session d1)|congruence].
Qed.

(** The runs of [p] and then of its continuation. *)
Lemma runs_try {A B} (p : usecase A) (k : result AppExn A -> usecase B) tr y :
  runs (try_with p k) tr y -> exists t1 z t2, tr = t1 ++ t2 /\ runs p t1 z /\ runs (k z) t2 y.
Proof.
  revert tr. induction p as [z|X q c IH]; intros tr; cbn [try_with]; [by exists [], z, tr|].
  intros (x & tr' & -> & Hrun). destruct (IH x tr' Hrun) as (t1 & z & t2 & -> & Hp & Hk).
  exists (Event q x :: t1), z, t2. split_and!; [done| |done]. by exists x, t1.
Qed.

Lemma served_app {S : Type} (serving : S -> event Port AppExn -> S -> Prop) s t1 t2 s' :
  served serving s (t1 ++ t2) s' -> exists s1, served serving s t1 s1 /\ served serving s1 t2 s'.
Proof.
  revert s. induction t1 as [|e t1 IH]; intros s; cbn; [by exists s|].
  intros (s1 & He & Hs). destruct (IH s1 Hs) as (s2 & H1' & H2'). exists s2. split; [by exists s1|done].
Qed.
End deployment.

(** Programs whose queries are listed and are none of the data store. *)
Ltac silently :=
  repeat first
    [ apply silent_done
    | apply silent_ask; by intros
    | apply silent_try; [|intros ?]
    | match goal with |- silent (match ?e with _ => _ end) => destruct e end
    | progress unfold mbind, prog_bind ].

(** ** What a data request does to a deployment

    A request reaches a store only after its admission, and then only the store
    of the service it names; a command reaches it at most once. *)

Section requests.
Context `{PublicModels} `{FloatRead} `{UnicodeData} `{IsoDates} `{JulianDays}.
Variable others : relation Registry.
Variable writers : relation store.

Lemma admission_silent x u : silent (admission x u).
Proof. unfold admission, in_snapshot, closing. silently. Qed.

(** ** One request

    [r1] is the registry of the admission, [r'] the registry when the store was
    called: other clients may have changed it, and even the service, meanwhile. *)
Definition request_outcome {A} (failed : Prop) (x : ApplicationContext) (u : UUID) (q : data_request A) (r : Registry)
    (stores : gmap pystr store) (z : result AppExn (answer A)) (d' : Deployment) : Prop :=
  exists y r1 r', z = Ok y /\ dp_session d' = idle r' /\ (r1 = r \/ others r r1)
  /\ ((exists c, y = Failure c /\ unserved failed x u r1 c /\ r' = r1 /\ dp_stores d' = stores)
      \/ exists ad, AdmittedAt x u r1 ad /\ (r' = r1 \/ others r1 r')
         /\ sqlite_execute writers (ad_storage ad) (ac_principal_id x) (ac_created_via x) (ad_specification ad) q
              stores y (dp_stores d')).

Lemma failed_before (t1 t2 : list (event Port AppExn)) : failed_in t1 -> failed_in (t1 ++ t2).
Proof. intros (e & He & Hf). exists e. split; [|done]. apply elem_of_app. by left. Qed.

Lemma dispatch_outcome {A} x u (q : data_request A) r stores tr z d' :
  runs (dispatch x u q) tr z ->
  served (deployment_serves others writers) {| dp_session := idle r; dp_stores := stores |} tr d' ->
  request_outcome (failed_in tr) x u q r stores z d'.
Proof.
  intros (t1 & y1 & t2 & -> & Hadm & Hrest)%runs_try (d1 & Hs1 & Hs2)%served_app.
  apply silent_served in Hs1 as [Hs1 Hst1]; [|by eapply admission_silent].
  destruct (leads_run others (fun e => e ∈ t1) _ _ _ _ _ _ (admission_leads others _ x u r) Hadm Hs1) as (y & r' & -> & Hr' & Hy).
  { by apply Forall_forall. }
  cbn in Hst1. destruct y as [ad|c].
  - destruct Hy as [Ho Had]. destruct Hrest as (x2 & tr2 & -> & Hrun).
    destruct Hs2 as (d2 & (Hse & y & -> & Hex) & Hs3). destruct Hrun as [-> ->]. cbn in Hs3. subst d'.
    rewrite Hr' in Hse. rewrite Hst1, (aa_principal _ _ _ _ Had) in Hex.
    destruct Hse as [Hse|(_ & r2 & Ho2 & Hse)].
    + exists y, r', r'. split_and!; [done|done|by right|]. right. exists ad. split_and!; [done|by left|done].
    + exists y, r', r2. split_and!; [done|done|by right|]. right. exists ad. split_and!; [done|by right|done].
  - destruct Hrest as [-> ->]. cbn in Hs2. subst d'. destruct Hy as [Ho Hc].
    exists (Failure c), r', r'. split_and!; [done..|]. left. exists c. split_and!; try done.
    destruct c; try done. destruct Hc as [Hc|Hc]; [left; by apply failed_before|by right].
Qed.

(** The store a request touches. *)
Lemma execute_frame {A} st p via sp (q : data_request A) stores y stores' ns :
  sqlite_execute writers st p via sp q stores y stores' -> ns <> namespace st -> stores' !! ns = stores !! ns.
Proof.
  unfold sqlite_execute. intros Hex Hns. destruct (negb _); [by destruct Hex as [_ ->]|].
  unfold make_locator in Hex. cbn [lo_namespace] in Hex. unfold raise_if in Hex.
  destruct (negb (namespace_pattern _) || _); cbn [mbind result_bind] in Hex; [by destruct Hex as [_ ->]|].
  cbn [lo_namespace] in Hex. destruct (stores !! namespace st); [|by destruct Hex as [_ ->]].
  destruct Hex as (y' & s' & _ & _ & ->). by apply lookup_insert_ne.
Qed.

Lemma admitted_namespace x u r ad :
  RegistryOK r -> AdmittedAt x u r ad -> namespace (ad_storage ad) = service_namespace u.
Proof.
  intros Hr [(s & m & st & Hs & _ & _ & _ & _ & _ & Hst & Had) _ _].
  destruct (so_valid _ (ok_services _ Hr) _ _ Hs) as [Hid Hv].
  apply validate_service_spec in Hv as [Hv _]. rewrite Had, <- Hid. by apply (swf_storage _ Hv).
Qed.
(** ** Commands *)
Definition request_of {A} (k : store_command A) : data_request A :=
  match k with
  | CreateRecord c => DR_create_record c | UpdateRecord c => DR_update_record c | DeleteRecord c => DR_delete_record c
  | CreateBranch c => DR_create_branch c | UpdateBranch c => DR_update_branch c
  | AssignRecords c => DR_assign_branch_records c
  end.

Lemma command_call {A} p via sp (k : store_command A) s y s' :
  method_call writers p via sp (request_of k) s y s' <-> mutation_call writers (plan_of p via sp k) s y s'.
Proof. by destruct k. Qed.

(** A command that reached the store of its service: what [_mutate] promises. *)
Definition command_outcome {A} (x : ApplicationContext) (u : UUID) (k : store_command A) (stores : gmap pystr store)
    (y : answer A) (stores' : gmap pystr store) : Prop :=
  (exists c, y = Failure c) /\ stores' = stores
  \/ exists sp pl s s', plan_of (ac_principal_id x) (ac_created_via x) sp k = Planned pl
      /\ stores !! service_namespace u = Some s /\ stores' = <[service_namespace u := s']> stores
      /\ mutated Sane pl (ac_principal_id x, key_of k) (mark_of k) writers s (Ok y) s'.

(** What other clients of a store do while the command runs: they keep an entry
    that is there under its key, as every command does. *)
Record Leaves {A} (x : ApplicationContext) (k : store_command A) : Prop := {
  lv_order : PreOrder writers;
  lv_reals : forall s s', writers s s' -> reals_ok s -> reals_ok s';
  lv_key : forall s s' m, writers s s' -> st_mutations s !! (ac_principal_id x, key_of k) = Some m ->
    st_mutations s' !! (ac_principal_id x, key_of k) = Some m
}.

Lemma mutation_outcome {A} x u (k : store_command A) sp s y s' stores :
  well_typed k -> Leaves x k -> reals_ok s -> stores !! service_namespace u = Some s ->
  mutation_call writers (plan_of (ac_principal_id x) (ac_created_via x) sp k) s y s' ->
  command_outcome x u k stores (default (Failure internal_error) y) (<[service_namespace u := s']> stores).
Proof.
  intros Hk [Ho Hreals Hkey] Hs Hst Hcall.
  destruct (plan_of (ac_principal_id x) (ac_created_via x) sp k) as [c|pl|] eqn:Hpl; cbn [mutation_call] in Hcall.
  - destruct Hcall as [-> ->]. left. split; [by exists c|by apply insert_id].
  - destruct Hcall as (tr & z & Hrun & Hsv & ->).
    assert (Prog.leads (RecordMutation.serves Sane pl writers) mutate s
              (mutated Sane pl (ac_principal_id x, key_of k) (mark_of k) writers s)) as Hlead.
    { eapply mutate_once_only; [done|exact Hreals|exact Hkey| |exact Hs]. by eapply command_contract. }
    specialize (Hlead tr z s' Hrun Hsv). destruct z as [r|e]; [|done]. right. by exists sp, pl, s, s'.
  - destruct Hcall as [-> ->]. left. split; [by exists internal_error|by apply insert_id].
Qed.

Lemma command_reaches {A} failed x u (k : store_command A) r stores z d' :
  (forall r r', others r r' -> RegistryOK r -> RegistryOK r') -> RegistryOK r ->
  well_typed k -> Leaves x k -> (forall ns s, stores !! ns = Some s -> reals_ok s) ->
  request_outcome failed x u (request_of k) r stores z d' ->
  exists y, z = Ok y /\ command_outcome x u k stores y (dp_stores d').
Proof.
  intros Hoth Hr Hk Hl Hreals (y & r' & r2 & -> & _ & Hr' & Hcase). exists y. split; [done|].
  destruct Hcase as [(c & -> & _ & _ & Hst)|(ad & Had & _ & Hex)]; [left; by split; [exists c|]|].
  assert (RegistryOK r') as Hok by (destruct Hr' as [->|Ho]; [done|by eapply Hoth]).
  pose proof (admitted_namespace x u r' ad Hok Had) as Hns. unfold sqlite_execute in Hex. rewrite Hns in Hex.
  destruct (negb _); [left; destruct Hex as [-> ->]; by split; [eexists|]|].
  destruct (make_locator _) as [l|e] eqn:El; [|left; destruct Hex as [-> ->]; by split; [eexists|]].
  unfold make_locator in El. apply raise_if_then in El as [_ [= <-]]. cbn [lo_namespace] in Hex.
  destruct (stores !! service_namespace u) as [s|] eqn:Es; [|left; by destruct Hex as [[c ->] ->]; split; [exists c|]].
  destruct Hex as (y' & s' & Hm%command_call & -> & ->). eapply mutation_outcome; try done. by eapply Hreals.
Qed.
End requests.

(** ** What the first orientation of an agent shows

    [bootstrap] of [DataApp]: a card for each of the first services of the
    caller, and whether there are more. *)

Section bootstrap.
Context `{PublicModels} `{FloatRepr} `{UnicodeData} `{IsoDates}.
Variable others : relation Registry.
Variable ok : event Port AppExn -> Prop.
Hypothesis others_refl : forall r, others r r.

(** The entities a service shows. *)
Definition shown_entities (s : Service) (names : list pystr) : Prop :=
  match sv_manifest s with
  | None => names = []
  | Some m => exists sp, compile_record_specification m = Ok sp /\ names = map re_name (sp_entities sp)
  end.

Definition carded (r : Registry) (p : pystr) (s : Service) (b : BootstrapService) : Prop :=
  exists rec names, recovery_state p (sv_service_id s) r = (Ok rec, r) /\ shown_entities s names
  /\ b = {| bs_service_id := sv_service_id s; bs_domain_name := sv_domain_name s;
            bs_domain_class := sv_domain_class s; bs_intent_description := sv_intent_description s;
            bs_design_state := sv_design_state s; bs_operational_status := sv_operational_status s;
            bs_schema_version := sv_schema_version s; bs_recovery_state := rec; bs_entity_names := names |}.

Lemma card_then {B} s rec (f : BootstrapService -> usecase B) d P :
  P (Raise Unsafe) d ->
  (forall names, shown_entities s names ->
     Prog.leads (serving others ok)
       (f {| bs_service_id := sv_service_id s; bs_domain_name := sv_domain_name s;
             bs_domain_class := sv_domain_class s; bs_intent_description := sv_intent_description s;
             bs_design_state := sv_design_state s; bs_operational_status := sv_operational_status s;
             bs_schema_version := sv_schema_version s; bs_recovery_state := rec; bs_entity_names := names |}) d P) ->
  Prog.leads (serving others ok) (bootstrap_card s rec ≫= f) d P.
Proof.
  intros Hf Hok. unfold bootstrap_card, shown_entities in *. apply leads_bind, leads_bind.
  destruct (sv_manifest s) as [m|]; [|by apply leads_done, leads_done, Hok].
  apply constructed_then; [done|]. intros sp Hsp. apply leads_done, leads_done, Hok. by exists sp.
Qed.

Lemma cards_leads p l r w (P : result AppExn (list BootstrapService) -> Session -> Prop) :
  (forall w', P (Raise Unsafe) (busy r w')) ->
  (forall cards, Forall2 (carded w p) l cards -> P (Ok cards) (busy r w)) ->
  Prog.leads (serving others ok) (bootstrap_cards p l) (busy r w) P.
Proof.
  revert P. induction l as [|s l IH]; intros P Hf Hok; cbn [bootstrap_cards]; [by apply leads_done, Hok|].
  eapply call_then; [by intros ? ? ?|done|]. intros rec w' Hrec. pose proof (recovery_reads _ _ _ _ _ Hrec) as ->.
  apply card_then; [done|]. intros names Hn. apply leads_bind, IH; [done|].
  intros cards Hc. apply leads_done, Hok. constructor; [by exists rec, names|done].
Qed.

Definition bootstrap_outcome (x : ApplicationContext) (limit : Z) (r : Registry)
    (z : result AppExn (answer BootstrapResult)) (s' : Session) : Prop :=
  exists y r', z = Ok y /\ s' = idle r' /\
  match y with
  | Success b => others r r' /\ Forall2 (carded r' (ac_principal_id x)) (listed r' (ac_principal_id x) limit) (br_services b)
      /\ (br_truncated b = true <-> limit < Z.of_nat (length (owned r' (ac_principal_id x))))
  | Failure validation_failed => r' = r /\ valid_context x && ((1 <=? limit) && (limit <=? 100)) = false
  | Failure c => c = internal_error /\ others r r'
  end.

Lemma bootstrap_leads x limit r :
  Prog.leads (serving others ok) (bootstrap x limit) (idle r) (bootstrap_outcome x limit r).
Proof using others_refl.
  unfold bootstrap, MAX_BOOTSTRAP_SERVICES. destruct (negb _) eqn:E.
  { apply leads_done. apply negb_true_iff in E. by exists (Failure validation_failed), r. }
  apply negb_false_iff in E. apply snapshot_leads; [by exists (Failure internal_error), r|]. intros r1 Ho.
  assert (bootstrap_outcome x limit r (Ok (Failure internal_error)) (idle r1)) as Hf
    by (by exists (Failure internal_error), r1).
  eapply call_then; [by intros ? ? ?|done|]. intros total w [-> ->]%reading_returns.
  eapply call_then; [by intros ? ? ?|done|]. intros items w Hl.
  unfold list_services in Hl. rewrite reading_bind in Hl. unfold id in Hl. apply decode_services_returns in Hl as [-> ->].
  bools. destruct E as [_ [Hlo Hhi]].
  assert (limit_rows limit (sorted_by created_order (fun s => (sv_created_at s, sv_service_id s))
            (owned r1 (ac_principal_id x))) = listed r1 (ac_principal_id x) limit) as ->.
  { unfold limit_rows, listed. destruct (limit <? 0) eqn:E; [|done]. bools. lia. }
  destruct (_ || _); [by apply leads_done|].
  assert (take (Z.to_nat limit) (ordered_services (listed r1 (ac_principal_id x) limit)) = listed r1 (ac_principal_id x) limit) as ->
    by (rewrite <- (listed_again r1 (ac_principal_id x) limit) at 2; by rewrite listed_scoped).
  apply leads_bind, cards_leads; [done|]. intros cards Hc. apply leads_done. split; [|done].
  eexists _, r1. split_and!; [done..|]. cbn [br_services br_truncated]. split_and!; [done|done|].
  apply Forall2_length in Hc. rewrite Z.ltb_lt, <- Hc. unfold listed, ordered_services.
  rewrite length_take, length_sorted_by. lia.
Qed.
End bootstrap.
