(* ===== verification/Hosting.v ===== *)
(** * Hosting: a deployment in which nothing fails

    [host] runs a program against collaborators that answer from their state;
    [answer_port] are those of the application: the registry operations, a clock
    and an id provider with fixed answers, and the methods of the SQLite stores
    in one attempt.  A hosted run is a run of a deployment without other clients,
    so the theorems about all runs apply to it. *)
From S2P Require Import Relational.
From S2P Require Export Deployment ServicesSpec.
From S2P Require Import Prelude Values Json JsonText Sha256 Manifest Lifecycle Operational Models Authority Codecs Contracts.

(** ** Programs against answers *)
Section host.
Context {Q : Type -> Type} {E S : Type} (reply : forall X, S -> Q X -> result E X * S).

Fixpoint host {A} (s : S) (p : prog Q E A) : result E A * S :=
  match p with
  | Done r => (r, s)
  | Ask q k => let '(x, s') := reply _ s q in host s' (k x)
  end.

Lemma host_try {A B} (p : prog Q E A) (k : result E A -> prog Q E B) s :
  host s (try_with p k) = let '(x, s') := host s p in host s' (k x).
Proof.
  revert s. induction p as [r|X q c IH]; intros s; [done|]. cbn [try_with host].
  destruct (reply X s q) as [x s']. apply IH.
Qed.

Lemma host_bind {A B} (p : prog Q E A) (f : A -> prog Q E B) s :
  host s (p ≫= f) = match host s p with
                    | (Ok a, s') => host s' (f a)
                    | (Raise e, s') => (Raise e, s')
                    end.
Proof. unfold mbind, prog_bind. rewrite host_try. by destruct (host s p) as [[a|e] s']. Qed.

Lemma host_ask {X} (q : Q X) s : host s (ask q) = reply X s q.
Proof. cbn. by destruct (reply X s q). Qed.

Variable serving : S -> event Q E -> S -> Prop.
Hypothesis reply_serves : forall X (q : Q X) s, serving s (Event q (reply X s q).1) (reply X s q).2.

Lemma host_runs {A} (p : prog Q E A) s :
  exists tr, runs p tr (host s p).1 /\ served serving s tr (host s p).2.
Proof using reply_serves.
  revert s. induction p as [r|X q c IH]; intros s; [by exists []|]. cbn [host].
  pose proof (reply_serves X q s) as Hq. destruct (reply X s q) as [x s']. cbn in Hq.
  destruct (IH x s') as (tr & Hrun & Hs). exists (Event q x :: tr). split; [by exists x, tr|by exists s'].
Qed.
End host.

(** ** The collaborators *)
Section collaborators.
Context `{PublicModels} `{FloatRead} `{UnicodeData} `{IsoDates} `{JulianDays}.
Variables (now : datetime) (next_id : UUID) (a : attempt).

Definition reply_mutation {A} (pl : mutation_plan A) (X : Type) (s : store) (q : mutation_query A X)
  : result fault X * store :=
  match q with
  | Attempt => let '(r, s') := mutate_once a (pl_specification pl) (pl_operation pl a) s in (Ok r, s')
  | Observe => (Ok (observe_completed a (pl_specification pl) (pl_observer pl) s), s)
  end.

Definition host_mutation {A} (p : planned A) (s : store) : option (answer A) * store :=
  match p with
  | Refused c => (Some (Failure c), s)
  | Escapes => (None, s)
  | Planned pl =>
      match host (reply_mutation pl) s mutate with
      | (Ok r, s') => (Some r, s')
      | (Raise _, s') => (None, s')
      end
  end.

Definition host_method {A} (principal via : pystr) (sp : RecordSpecification) (q : data_request A) (s : store)
  : option (answer A) * store :=
  match q with
  | DR_create_record c => host_mutation (create_record principal via sp c) s
  | DR_get_record q => (Some (get_record a principal via sp q s), s)
  | DR_list_records q => (list_records a principal via sp q s, s)
  | DR_search_records q => (search_records a principal via sp q s, s)
  | DR_update_record c => host_mutation (update_record principal via sp c) s
  | DR_delete_record c => host_mutation (delete_record principal via sp c) s
  | DR_record_history q => (record_history a principal via sp q s, s)
  | DR_create_branch c => host_mutation (create_branch principal via sp c) s
  | DR_list_branches q => (list_branches a principal via sp q s, s)
  | DR_update_branch c => host_mutation (update_branch principal via sp c) s
  | DR_assign_branch_records c => host_mutation (assign_branch_records principal via sp c) s
  | DR_service_summary q => (Some (service_summary a principal via sp q s), s)
  | DR_maintenance_scan q => (Some (maintenance_scan a principal via sp q s), s)
  end.

Definition host_execute {A} (st : MaterialisationStorage) (principal via : pystr) (sp : RecordSpecification)
    (q : data_request A) (stores : gmap pystr store) : answer A * gmap pystr store :=
  if negb (bool_decide (backend st = SQLITE)) then (Failure storage_unavailable, stores) else
  match make_locator {| lo_backend := SQLITE; lo_namespace := namespace st |} with
  | Raise _ => (Failure internal_error, stores)
  | Ok l =>
      match stores !! lo_namespace l with
      | None => (Failure storage_unavailable, stores)
      | Some s => let '(y, s') := host_method principal via sp q s in
                  (default (Failure internal_error) y, <[lo_namespace l := s']> stores)
      end
  end.

Definition at_session (d : Deployment) (s : Session) : Deployment := {| dp_session := s; dp_stores := dp_stores d |}.

Definition reply_call {A} (m : registry A) (d : Deployment) : result AppExn A * Deployment :=
  match working (dp_session d) with
  | None => (Raise Unsafe, d)
  | Some w =>
      let '(x, w') := m w in
      (match x with Ok v => Ok v | Raise _ => Raise Unsafe end, at_session d (busy (committed (dp_session d)) w'))
  end.

Definition answer_port (X : Type) (d : Deployment) (q : Port X) : result AppExn X * Deployment :=
  match q in Port X return result AppExn X * Deployment with
  | P_open => match working (dp_session d) with
              | None => (Ok tt, at_session d (busy (committed (dp_session d)) (committed (dp_session d))))
              | Some _ => (Raise Unsafe, d)
              end
  | P_find_domain p n => reply_call (find_domain p n) d
  | P_get p u => reply_call (Registry.get p u) d
  | P_count p => reply_call (count p) d
  | P_list p n => reply_call (list_services p n) d
  | P_add v => reply_call (add v) d
  | P_save v n => reply_call (save v n) d
  | P_recovery_state p u => reply_call (recovery_state p u) d
  | P_resolve_non_lifecycle k p key fp => reply_call (resolve_non_lifecycle k p key fp) d
  | P_complete_non_lifecycle k p key fp v => reply_call (complete_non_lifecycle k p key fp v) d
  | P_append e => reply_call (append_audit e) d
  | P_commit => match working (dp_session d) with
                | None => (Raise Unsafe, d)
                | Some w => (Ok tt, at_session d (idle w))
                end
  | P_rollback | P_close => (Ok tt, at_session d (idle (committed (dp_session d))))
  | P_now => (Ok (Some now), d)
  | P_new_service_id => (Ok (Some next_id), d)
  | P_execute st p via sp q =>
      let '(y, stores) := host_execute st p via sp q (dp_stores d) in
      (Ok (Some y), {| dp_session := dp_session d; dp_stores := stores |})
  end.

(** ** They are collaborators *)
Hypothesis Ha : Sane a.

Lemma host_mutation_call {A} (p : planned A) s : mutation_call eq p s (host_mutation p s).1 (host_mutation p s).2.
Proof using Ha.
  destruct p as [c|pl|]; cbn [mutation_call host_mutation]; [done| |done].
  destruct (host_runs (reply_mutation pl) (RecordMutation.serves Sane pl eq)) with (p := @mutate A) (s := s)
    as (tr & Hrun & Hs).
  - intros X [|] t; cbn.
    + destruct (mutate_once _ _ _ t) as [r t'] eqn:E. cbn. by exists t, a, r.
    + split; [done|]. by exists a.
  - destruct (host (reply_mutation pl) s mutate) as [[r|e] s'] eqn:E; cbn [fst snd] in *; by eexists tr, _.
Qed.

Lemma host_method_call {A} p via sp (q : data_request A) s :
  method_call eq p via sp q s (host_method p via sp q s).1 (host_method p via sp q s).2.
Proof using Ha.
  destruct q; cbn [method_call host_method fst snd]; try apply host_mutation_call; (split; [done|]; by exists a).
Qed.

Lemma host_execute_serves {A} st p via sp (q : data_request A) stores :
  sqlite_execute eq st p via sp q stores (host_execute st p via sp q stores).1 (host_execute st p via sp q stores).2.
Proof using Ha.
  unfold sqlite_execute, host_execute. destruct (negb _); [done|]. destruct (make_locator _) as [l|]; [|done].
  destruct (stores !! lo_namespace l) as [s|] eqn:E; [|by split; [eexists|]].
  pose proof (host_method_call p via sp q s) as Hm. destruct (host_method p via sp q s) as [y s'].
  cbn in *. by exists y, s'.
Qed.

Lemma reply_call_stored {A} (m : registry A) d :
  stored m (dp_session d) (dp_session (reply_call m d).2) (reply_call m d).1 /\ dp_stores (reply_call m d).2 = dp_stores d.
Proof.
  unfold reply_call, stored, call. destruct (working (dp_session d)) as [w|] eqn:Ew; [|by repeat split; left].
  destruct (m w) as [[v|e] w'] eqn:Em; cbn; (split; [|done]); (split; [|done]).
  - by exists w, v, w'.
  - right. exists w. by rewrite Em.
Qed.

Lemma answer_port_serves X (q : Port X) d :
  deployment_serves eq eq d (Event q (answer_port X d q).1) (answer_port X d q).2.
Proof using Ha.
  destruct q; cbn [answer_port deployment_serves]; try apply reply_call_stored.
  - destruct (working (dp_session d)) eqn:E; cbn; (split; [|done]); [done|]. split; [done|]. by eexists.
  - destruct (working (dp_session d)) as [w|] eqn:E; cbn; (split; [|done]); [by exists w|by left].
  - done.
  - done.
  - done.
  - done.
  - pose proof (host_execute_serves st principal via sp q (dp_stores d)) as He.
    destruct (host_execute _ _ _ _ _ _) as [y stores]. cbn in *. split; [by left|]. by exists y.
Qed.

Definition hosted {A} (d : Deployment) (p : usecase A) : result AppExn A * Deployment := host answer_port d p.

Lemma hosted_runs {A} (p : usecase A) d :
  exists tr, runs p tr (hosted d p).1 /\ served (deployment_serves eq eq) d tr (hosted d p).2.
Proof using Ha. apply host_runs, answer_port_serves. Qed.
End collaborators.

(** ** A seed in which nothing fails

    The run of [seed] in a hosted deployment, step by step, for a new service. *)

Section runs.
Context `{PublicModels} `{FloatRead} `{UnicodeData} `{IsoDates} `{JulianDays}.
Variables (t : datetime) (u : UUID) (a : attempt).

Abbreviation hosting := (host (answer_port t u a)).
Definition at_busy (d : Deployment) (r w : Registry) : Deployment := at_session d (busy r w).

Lemma hosted_require {A} b e (p : usecase A) d : b = true -> hosting d (require_app b e ;; p) = hosting d p.
Proof. by intros ->. Qed.

Lemma hosted_call {A B} (q : Port A) m (f : A -> usecase B) d r w v w' :
  (forall d, answer_port t u a A d q = reply_call m d) -> m w = (Ok v, w') ->
  hosting (at_busy d r w) (ask q ≫= f) = hosting (at_busy d r w') (f v).
Proof. intros Hq Hm. rewrite host_bind, host_ask, Hq. unfold reply_call. cbn [at_busy at_session dp_session busy working]. by rewrite Hm. Qed.

Lemma hosted_guarded {A B} (q : Port A) m e (f : A -> usecase B) d r w v w' :
  (forall d, answer_port t u a A d q = reply_call m d) -> m w = (Ok v, w') ->
  hosting (at_busy d r w) (guarded (ask q) e ≫= f) = hosting (at_busy d r w') (f v).
Proof.
  intros Hq Hm. unfold guarded. rewrite host_bind, host_try, host_ask, Hq. unfold reply_call.
  cbn [at_busy at_session dp_session busy working]. by rewrite Hm.
Qed.

Lemma hosted_open {A} (p : usecase A) d r :
  dp_session d = idle r -> hosting d (new_uow ;; p) = hosting (at_busy d r r) p.
Proof. intros Hd. unfold new_uow, guarded. rewrite host_bind, host_try, host_ask. cbn [answer_port]. by rewrite Hd. Qed.

Lemma hosted_concluded {A} on_error (body : usecase A) d v d' :
  hosting d body = (Ok v, d') ->
  hosting d (concluded on_error body) = (Ok v, at_session d' (idle (committed (dp_session d')))).
Proof. intros Hb. unfold concluded. by rewrite host_try, Hb. Qed.

(** ** The statements of a new claim *)
Lemma append_runs_as x action outcome s r :
  audit_columns (audit_of x (lit action) (lit outcome) (sv_service_id s) t) = true ->
  append_audit (audit_of x (lit action) (lit outcome) (sv_service_id s) t) r
  = (Ok tt, set_audits (fun l => retain (ac_principal_id x) (l ++ [audit_of x (lit action) (lit outcome) (sv_service_id s) t])) r).
Proof. intros Hc. unfold append_audit, fail_if. by rewrite raise_when_bind, Hc. Qed.

Lemma complete_runs k p key payload s r :
  k <> LEGACY -> sv_principal_id s = p -> validate_service s = true -> valid_text p 128 = true ->
  valid_text key 128 = true -> claims r !! (p, key) = None ->
  complete_non_lifecycle k p key (application_fingerprint payload) s r
  = (Ok tt, set_claims <[(p, key) := completed_row k (application_fingerprint payload) s]> r).
Proof.
  intros Hk Hp Hv Ht Hkey Hn. unfold complete_non_lifecycle, encode_result, insert_claim, fail_if.
  rewrite raise_when_bind, (bool_decide_false _ Hk), (bool_decide_false (_ <> _)) by (by intros ?). cbn [orb].
  rewrite bind_nested, raise_when_bind, Hv. cbn [negb].
  unfold mbind at 1, txn_bind at 1, ret at 1. rewrite raise_when_bind.
  assert (claim_columns p key {| cm_fingerprint := application_fingerprint payload; cm_service_id := sv_service_id s;
            cm_kind := OK_NonLifecycle k; cm_phase := Live COMPLETED; cm_evidence := Ev_None;
            cm_result := Some (Result_Service s) |} = true) as ->.
  { unfold claim_columns. cbn [cm_fingerprint cm_service_id]. rewrite !valid_text_column by done. unfold application_fingerprint.
    rewrite sha256_hex_valid. unfold validate_service in Hv. bools. split_and!; [done..|tauto|done]. }
  cbn [negb]. rewrite reading_bind. unfold id. rewrite raise_when_bind, Hn. cbn [is_some].
  rewrite raise_when_bind. done.
Qed.
Lemma inactive_claims r p v key c :
  active_claims r p v = [] -> active c = false -> active_claims (set_claims <[key := c]> r) p v = [].
Proof.
  intros Hn Hc. apply elem_of_nil_inv. intros [k c'] Hin. unfold active_claims in *.
  apply list_elem_of_In, List.filter_In in Hin as [Hin Hf].
  apply list_elem_of_In, elem_of_map_to_list in Hin. cbn [claims set_claims] in Hin.
  apply lookup_insert_Some in Hin as [[_ <-]|[Hne Hin]].
  - unfold active_for in Hf. cbn in Hf. by rewrite Hc, !andb_false_r in Hf.
  - assert ((k, c') ∈ List.filter (active_for p v) (map_to_list (claims r))) as Hr.
    { apply list_elem_of_In, List.filter_In. split; [by apply list_elem_of_In, elem_of_map_to_list|done]. }
    rewrite Hn in Hr. by apply elem_of_nil in Hr.
Qed.

Lemma recovery_clear r p v : active_claims r p v = [] -> recovery_state p v r = (Ok CLEAR, r).
Proof. intros Hn. unfold recovery_state. rewrite reading_bind. unfold id. by rewrite Hn. Qed.

Lemma add_runs s r :
  validate_service s = true -> services r !! sv_service_id s = None -> identities r !! sv_service_id s = None ->
  domain_taken r (sv_principal_id s) (sv_domain_name s) (sv_service_id s) = false ->
  identity_domain_taken r (sv_principal_id s) (sv_domain_name s) (sv_service_id s) = false ->
  identity_columns (sv_service_id s) (live_identity s) = true ->
  add s r = (Ok tt, with_service s r).
Proof.
  intros Hv Hs Hi Hd Hid Hc. unfold add, insert_service, insert_live_identity, insert_identity, fail_if.
  unfold mbind at 1, txn_bind at 1. rewrite raise_when_bind, Hv. cbn [negb]. rewrite reading_bind. unfold id.
  rewrite raise_when_bind, Hs. cbn [is_some]. rewrite raise_when_bind, Hd. unfold writing.
  rewrite reading_bind. rewrite raise_when_bind. cbn [identities set_services]. rewrite Hi. cbn [is_some].
  rewrite raise_when_bind. unfold identity_allowed. rewrite Hc. cbn [live_identity id_claim_key id_domain id_state id_principal in_opt andb].
  replace (identity_domain_taken _ _ _ _) with false by (symmetry; exact Hid). by rewrite orb_true_r.
Qed.

Lemma recorded_runs x k action outcome key payload s d r w :
  k <> LEGACY -> sv_principal_id s = ac_principal_id x -> validate_service s = true -> (sv_service_id s < 2 ^ 128)%N ->
  valid_context x = true -> valid_text key 128 = true -> claims w !! (ac_principal_id x, key) = None ->
  audit_columns (audit_of x (lit action) (lit outcome) (sv_service_id s) t) = true ->
  active_claims w (ac_principal_id x) (sv_service_id s) = [] ->
  hosting (at_busy d r w) (recorded_as x k (lit action) (lit outcome) key (application_fingerprint payload) s t)
  = (Ok (metadata_of s CLEAR),
     at_session d (idle (claimed_by x k (lit action) (lit outcome) key (application_fingerprint payload) s t w))).
Proof.
  intros Hk Hp Hv Hu Hx Hkey Hn Haud Hact. unfold recorded_as.
  erewrite hosted_call; [|done|exact (append_runs_as x action outcome s w Haud)].
  unfold valid_context in Hx. bools. destruct Hx as [Hx _].
  erewrite hosted_call; [|done|by apply complete_runs]. fold (claimed_by x k (lit action) (lit outcome) key (application_fingerprint payload) s t w).
  rewrite host_bind. unfold projected, read_recovery.
  erewrite hosted_guarded; [|done|by apply recovery_clear, inactive_claims].
  unfold answer_project. rewrite project_valid by done. done.
Qed.
(** A caller may seed this domain under this key with this new id. *)
Record Seedable (x : ApplicationContext) (c : SeedCommand) (r : Registry) : Prop := {
  sb_context : valid_context x = true;
  sb_command : valid_seed c = true;
  sb_service : validate_service (seeded_service x c u t) = true;
  sb_id : (u < 2 ^ 128)%N;
  sb_key : claims r !! (ac_principal_id x, sd_idempotency_key c) = None;
  sb_domain : find_domain (ac_principal_id x) (sd_domain_name c) r = (Ok None, r);
  sb_fresh : services r !! u = None /\ identities r !! u = None /\ active_claims r (ac_principal_id x) u = [];
  sb_reserved : identity_domain_taken r (ac_principal_id x) (sd_domain_name c) u = false
}.

Lemma seedable_runs x c r :
  Seedable x c r ->
  add (seeded_service x c u t) r = (Ok tt, with_service (seeded_service x c u t) r)
  /\ audit_columns (audit_of x (lit "seed") (lit "created") u t) = true
  /\ make_service (seeded_service x c u t) = Ok (seeded_service x c u t) /\ negb (u =? 0)%N = true.
Proof.
  intros [Hx Hc Hv Hu Hk Hd (Hs & Hi & Hact) Hres]. pose proof Hv as [Hwf _]%validate_service_spec.
  pose proof (swf_id _ Hwf) as Hid. cbn in Hid. unfold valid_context, valid_seed in *. bools.
  destruct Hx as [Hp Hvia], Hc as [[[Hn Hcl] Hint] Hkey]. split; [|split_and!].
  - apply add_runs; try done.
    + apply not_true_iff_false. unfold domain_taken. intros ([v s'] & Hin & Hb)%existsb_exists.
      apply find_domain_returns in Hd as [_ Hd]. apply list_elem_of_In, elem_of_map_to_list in Hin. bools.
      destruct Hb as [[_ Hp'] Hd']. apply (Hd s'); [|exact Hd']. apply owned_in. split; [by exists v|exact Hp'].
    + cbn [sv_service_id seeded_service]. unfold identity_columns. cbn [live_identity id_principal id_domain id_namespace id_claim_key id_state id_lifecycle_at sv_principal_id seeded_service sv_domain_name sv_service_id in_opt is_some negb andb].
      rewrite valid_text_column by done. rewrite bool_decide_true by done. unfold identifier in Hn. unfold text_column.
      destruct (sd_domain_name c) as [|h tl]; [done|]. bools. cbn [length]. split_and!; try done; try lia.
  - unfold audit_columns, audit_of. cbn [ae_action ae_outcome ae_service_id ae_principal_id ae_created_via].
    rewrite !valid_text_column by done. bools. split_and!; try done. left; left. by vm_compute.
  - apply make_service_spec. done.
  - bools. done.
Qed.

Lemma seed_hosted x c r d :
  Seedable x c r -> dp_session d = idle r ->
  hosting d (seed x c)
  = (Ok (metadata_of (seeded_service x c u t) CLEAR),
     at_session d (idle (claimed_by x SEED (lit "seed") (lit "created") (sd_idempotency_key c) (seed_fingerprint x c)
       (seeded_service x c u t) t (with_service (seeded_service x c u t) r)))).
Proof.
  intros Hsb Hd. pose proof (seedable_runs x c r Hsb) as (Hadd & Haud & Hmk & Hid).
  destruct Hsb as [Hx Hc Hv Hu Hk Hdom (Hs & Hi & Hact) Hres].
  assert (valid_text (sd_idempotency_key c) 128 = true) as Hkey by (unfold valid_seed in Hc; bools; tauto).
  unfold seed. rewrite hosted_require by done. rewrite hosted_require by done. rewrite (hosted_open _ d r) by done.
  etrans; [eapply hosted_concluded|]; [|shelve]. unfold seed_body.
  erewrite (hosted_call _ (resolve_non_lifecycle SEED (ac_principal_id x) (sd_idempotency_key c) _)); [|done|].
  2:{ unfold resolve_non_lifecycle, fail_if, select_claim. rewrite raise_when_bind. cbn [bool_decide].
      rewrite bool_decide_false by done. rewrite reading_bind, Hk. done. }
  cbn [resolve_claim]. rewrite host_bind. cbn [host give].
  erewrite (hosted_call _ (find_domain (ac_principal_id x) (sd_domain_name c))); [|done|exact Hdom].
  unfold seed_new. rewrite host_bind. unfold read_clock. rewrite host_try, host_ask. cbn [answer_port host give].
  rewrite host_bind. unfold fresh_service_id. rewrite host_try, host_ask. cbn [answer_port].
  rewrite hosted_require by done. cbn [host give]. rewrite host_bind, Hmk. cbn [constructed_value host give].
  erewrite (hosted_call _ (add _)); [|done|exact Hadd].
  by apply recorded_runs.
  Unshelve. done.
Qed.
End runs.
