(* ===== verification/AppTheorems.v ===== *)
(** * AppTheorems: the properties of the application services

    Seeds and designs against any registry other clients share, the binding of
    idempotency keys, what reads show, and the path of a data request from its
    admission to the one store it may touch. *)
From S2P Require Import Relational.
From S2P Require Export Hosting ServicesSpec Deployment RecordSamples StoreKeeps.
From S2P Require Import Prelude Values Json JsonText Sha256 Manifest PublicJson Lifecycle LifecycleSpec Operational Models Authority Codecs Contracts Samples.

(** ** Idempotency keys *)
Section keys.
Context `{PublicModels} `{FloatRepr} `{UnicodeData}.

Lemma recorded_claim x k action outcome key fp s t r :
  claims (claimed_by x k action outcome key fp s t r) !! (ac_principal_id x, key) = Some (completed_row k fp s).
Proof. unfold claimed_by. cbn [claims set_claims]. by rewrite lookup_insert, decide_True. Qed.

Lemma completed_replays k fp s : replays k fp (completed_row k fp s) s.
Proof. unfold replays, completed_row. cbn. auto. Qed.

Lemma seeded_claim x c r s r' : seeded x c r s r' ->
  exists row, claims r' !! (ac_principal_id x, sd_idempotency_key c) = Some row
    /\ replays SEED (seed_fingerprint x c) row s.
Proof.
  intros [row v Hr Hs _|v t _ _ _|u t v _ _ _ _]; [by exists row|..];
    (eexists; split; [apply recorded_claim|apply completed_replays]).
Qed.

Lemma designed_claim x c r s r' : designed x c r s r' ->
  exists row, claims r' !! (ac_principal_id x, dg_idempotency_key c) = Some row
    /\ replays DESIGN (design_fingerprint x c) row s.
Proof.
  intros [row v Hr Hs _|v i t v' _ _ _ _ _ _ _]; [by exists row|].
  eexists; split; [apply recorded_claim|apply completed_replays].
Qed.

(** A decided claim still answers later, or is buried. *)
Lemma replays_later k fp row s r r' key :
  claims r !! key = Some row -> replays k fp row s -> ledger_le r r' ->
  exists row', claims r' !! key = Some row' /\ (row' = row \/ cm_phase row' = TOMBSTONED).
Proof.
  intros Hr (_ & _ & Hp & _) Hle. destruct (Hle _ _ Hr) as (row' & Hr' & _ & _ & _ & Hc). exists row'.
  split; [done|]. destruct Hc as [->|[Hq|Ht]]; [by left|congruence|by right].
Qed.

Lemma replays_same k k' fp fp' row s s' : replays k fp row s -> replays k' fp' row s' -> s = s' /\ fp = fp'.
Proof. intros (Hf & _ & _ & Hr) (Hf' & _ & _ & Hr'). split; congruence. Qed.

(** Equal fingerprints are of equal payloads, or SHA-256 collides. *)
Definition collision (j k : json) : Prop := json_dumps j <> json_dumps k /\ sha256_hex (json_dumps j) = sha256_hex (json_dumps k).

Lemma fingerprint_same j k : json_wf j = true -> json_wf k = true ->
  application_fingerprint j = application_fingerprint k -> same_json j k \/ collision j k.
Proof.
  intros Hj Hk Heq. destruct (decide (json_dumps j = json_dumps k)) as [Ht|Ht]; [left; by apply json_dumps_inj|right].
  split; [done|]. unfold application_fingerprint in Heq. by rewrite !utf8_ascii in Heq by (by apply json_dumps_ascii).
Qed.

Lemma seed_payload_inj x c x' c' : same_json (seed_payload x c) (seed_payload x' c') ->
  ac_principal_id x = ac_principal_id x' /\ ac_created_via x = ac_created_via x' /\ sd_domain_name c = sd_domain_name c'
  /\ sd_domain_class c = sd_domain_class c' /\ sd_intent_description c = sd_intent_description c'.
Proof. unfold seed_payload. members. split_and!; by apply readable_str. Qed.

Lemma design_payload_inj x c x' c' :
  (dg_service_id c < 2 ^ 128)%N -> (dg_service_id c' < 2 ^ 128)%N -> same_json (design_payload x c) (design_payload x' c') ->
  ac_created_via x = ac_created_via x' /\ dg_service_id c = dg_service_id c' /\ dg_manifest c = dg_manifest c'.
Proof.
  intros Hu Hv. unfold design_payload. members. split_and!; [by apply readable_str| |by apply readable_manifest].
  by apply uuid_str_inj, readable_str.
Qed.
(** Requests of the service application. *)
Inductive ServiceRequest := SeedRequest (c : SeedCommand) | DesignRequest (c : DesignCommand).

Definition perform (x : ApplicationContext) (q : ServiceRequest) : usecase ServiceMetadata :=
  match q with SeedRequest c => seed x c | DesignRequest c => design x c end.
Definition request_key (q : ServiceRequest) : pystr :=
  match q with SeedRequest c => sd_idempotency_key c | DesignRequest c => dg_idempotency_key c end.
Definition request_payload (x : ApplicationContext) (q : ServiceRequest) : json :=
  match q with SeedRequest c => seed_payload x c | DesignRequest c => design_payload x c end.
Definition request_ids (q : ServiceRequest) : Prop :=
  match q with SeedRequest _ => True | DesignRequest c => (dg_service_id c < 2 ^ 128)%N end.

(** The same thing is asked for. *)
Definition same_service_request (x : ApplicationContext) (q : ServiceRequest) (x' : ApplicationContext) (q' : ServiceRequest)
  : Prop :=
  ac_principal_id x = ac_principal_id x' /\ ac_created_via x = ac_created_via x'
  /\ match q, q' with
     | SeedRequest c, SeedRequest c' =>
         sd_domain_name c = sd_domain_name c' /\ sd_domain_class c = sd_domain_class c'
         /\ sd_intent_description c = sd_intent_description c'
     | DesignRequest c, DesignRequest c' => dg_service_id c = dg_service_id c' /\ dg_manifest c = dg_manifest c'
     | _, _ => False
     end.

Definition request_done (x : ApplicationContext) (q : ServiceRequest) (r : Registry) (s : Service) (r' : Registry) : Prop :=
  match q with SeedRequest c => seeded x c r s r' | DesignRequest c => designed x c r s r' end.
Definition request_kind (q : ServiceRequest) : CompletedNonLifecycleKind :=
  match q with SeedRequest _ => SEED | DesignRequest _ => DESIGN end.

Lemma done_claim x q r s r' : request_done x q r s r' ->
  exists row, claims r' !! (ac_principal_id x, request_key q) = Some row
    /\ replays (request_kind q) (application_fingerprint (request_payload x q)) row s.
Proof. destruct q; [apply seeded_claim|apply designed_claim]. Qed.

(** Under a claim that answers, nothing else is done. *)
Lemma done_again x q r s r' row : request_done x q r s r' ->
  claims r !! (ac_principal_id x, request_key q) = Some row ->
  r' = r /\ replays (request_kind q) (application_fingerprint (request_payload x q)) row s.
Proof.
  destruct q as [c|c]; cbn.
  - intros [row' v Hr Hre _|v t Hn|u t v Hn] Hrow; [|congruence..]. split; [done|]. by assert (row' = row) as <- by congruence.
  - intros [row' v Hr Hre _|v i t v' Hn] Hrow; [|congruence]. split; [done|]. by assert (row' = row) as <- by congruence.
Qed.

Lemma payload_same x q x' q' : ac_principal_id x' = ac_principal_id x -> request_ids q -> request_ids q' ->
  same_json (request_payload x q) (request_payload x' q') -> same_service_request x q x' q'.
Proof.
  intros Hp Hq Hq' Hs. destruct q as [c|c], q' as [c'|c']; cbn in *.
  - apply seed_payload_inj in Hs. unfold same_service_request. tauto.
  - by apply different_length in Hs.
  - by apply different_length in Hs.
  - apply design_payload_inj in Hs; [|done..]. unfold same_service_request. split; [done|]. tauto.
Qed.

Lemma perform_done others ok x q r m s' :
  (forall r, others r r) -> (forall r r', others r r' -> RegistryOK r -> RegistryOK r') ->
  (forall r r', others r r' -> uuids r -> uuids r') -> RegistryOK r -> uuids r ->
  (exists tr, runs (perform x q) tr (Ok m) /\ served (port_serves others) (idle r) tr s' /\ Forall ok tr) ->
  exists r1 r' s rec, others r r1 /\ s' = idle r' /\ request_done x q r1 s r' /\ project s rec = Ok m.
Proof.
  intros Hrefl Hok Hu Hr Huu (tr & Hrun & Hs & Htr). destruct q as [c|c]; cbn [perform] in Hrun.
  - destruct (leads_run others ok _ _ _ _ _ _ (seed_leads others ok Hrefl Hu x c r Huu) Hrun Hs Htr)
      as (r1 & r' & Ho & -> & _ & s & rec & Hd & Hm & _). by exists r1, r', s, rec.
  - destruct (leads_run others ok _ _ _ _ _ _ (design_leads others ok Hrefl Hok Hu x c r Hr Huu) Hrun Hs Htr)
      as (r1 & r' & Ho & -> & _ & s & rec & Hd & Hm & _). by exists r1, r', s, rec.
Qed.
End keys.

(** ** Properties *)

(** C14: How a seed ends, whatever the collaborators do: other clients commit
    before its unit of work opens, any call raises, the commit is lost or
    happens although it raised.  An answer is the projection of a service that
    the claim of this request now names: the one an earlier seed with this key
    answered, the one that already has the domain, or a new one with its
    identity, audit row and claim, all in one commit.  An invalid command and a
    conflict are reported only for what they are, with nothing changed, and are
    always reported unless a collaborator failed.  An internal failure is
    reported only after a collaborator raised or had no time or id to give; the
    seed then happened whole or not at all. *)
Theorem seed_outcomes `{PublicModels} `{FloatRepr} `{UnicodeData} (others : relation Registry)
    (x : ApplicationContext) (c : SeedCommand) (r : Registry) (tr : list (event Port AppExn))
    (y : result AppExn ServiceMetadata) (s' : Session) :
  (forall r, others r r) -> (forall r r', others r r' -> uuids r -> uuids r') -> uuids r ->
  runs (seed x c) tr y -> served (port_serves others) (idle r) tr s' ->
  seed_outcome others (failed_in tr) x c r y s'.
Proof.
  intros Hrefl Huu Hr Hrun Hs. apply (leads_run others (fun e => e ∈ tr) _ _ _ _ _ _
    (seed_leads others _ Hrefl Huu x c r Hr) Hrun Hs). by apply Forall_forall.
Qed.

(** C18: How a design ends.  An answer is the projection of the service after the
    design: the manifest saved over a seeded, active service of the caller
    without one, at the next revision, together with identity, audit row and
    claim, or the answer of an earlier design with this key.  An invalid
    command, a conflict, a missing service, a wrong state and an exhausted
    revision are reported only for what they are, with nothing changed, and are
    always reported unless a collaborator failed.  Besides the exhausted
    revision, an internal failure is reported only when the clock ran behind the
    service, which changes nothing, or after a collaborator failed, and the
    design then happened whole or not at all. *)
Theorem design_outcomes `{PublicModels} `{FloatRepr} `{UnicodeData} (others : relation Registry)
    (x : ApplicationContext) (c : DesignCommand) (r : Registry) (tr : list (event Port AppExn))
    (y : result AppExn ServiceMetadata) (s' : Session) :
  (forall r, others r r) -> (forall r r', others r r' -> RegistryOK r -> RegistryOK r') ->
  (forall r r', others r r' -> uuids r -> uuids r') -> RegistryOK r -> uuids r ->
  runs (design x c) tr y -> served (port_serves others) (idle r) tr s' ->
  design_outcome others (failed_in tr) (ticked_in tr) x c r y s'.
Proof.
  intros Hrefl Hok Huu Hr Hru Hrun Hs. apply (leads_run others (fun e => e ∈ tr) _ _ _ _ _ _
    (design_leads others _ Hrefl Hok Huu x c r Hr Hru) Hrun Hs). by apply Forall_forall.
Qed.

(** C17: An idempotency key binds its request.  After a seed or a design of a
    principal answered, and however the registry went on, a seed or a design of
    the same principal under the same key that answers too shows the same
    service and changes nothing; and it asked for the same thing, a seed for a
    seed and a design for a design, up to a SHA-256 collision. *)
Theorem keys_bind_requests `{PublicModels} `{FloatRepr} `{UnicodeData} (others : relation Registry)
    (x x' : ApplicationContext) (q q' : ServiceRequest) (r1 r2 r3 r4 : Registry) (t t' : list (event Port AppExn))
    (m m' : ServiceMetadata) :
  (forall r, others r r) -> (forall r r', others r r' -> RegistryOK r -> RegistryOK r') ->
  (forall r r', others r r' -> uuids r -> uuids r') -> (forall r r', others r r' -> ledger_le r r') ->
  RegistryOK r1 -> uuids r1 -> RegistryOK r3 -> uuids r3 -> ledger_le r2 r3 ->
  ac_principal_id x' = ac_principal_id x -> request_key q' = request_key q -> request_ids q -> request_ids q' ->
  json_wf (request_payload x q) = true -> json_wf (request_payload x' q') = true ->
  runs (perform x q) t (Ok m) -> served (port_serves others) (idle r1) t (idle r2) ->
  runs (perform x' q') t' (Ok m') -> served (port_serves others) (idle r3) t' (idle r4) ->
  others r3 r4
  /\ (exists s rec rec', project s rec = Ok m /\ project s rec' = Ok m')
  /\ (same_service_request x q x' q' \/ collision (request_payload x q) (request_payload x' q')).
Proof.
  intros Hrefl Hok Huu Hmono Hr1 Hu1 Hr3 Hu3 Hle Hp Hk Hq Hq' Hwf Hwf' Hrun Hs Hrun' Hs'.
  destruct (perform_done others (fun _ => True) x q r1 m (idle r2)) as (r1' & r2' & s & rec & _ & [= <-] & Hd & Hm); try done.
  { exists t. split_and!; [done..|by apply Forall_true]. }
  destruct (perform_done others (fun _ => True) x' q' r3 m' (idle r4)) as (r3' & r4' & s' & rec' & Ho & [= <-] & Hd' & Hm'); try done.
  { exists t'. split_and!; [done..|by apply Forall_true]. }
  apply done_claim in Hd as (row & Hrow & Hre).
  assert (ledger_le r2 r3') as Hle' by (etrans; [exact Hle|by apply Hmono]).
  destruct (replays_later _ _ _ _ _ _ _ Hrow Hre Hle') as (row' & Hrow' & Hcase). rewrite <- Hp, <- Hk in Hrow'.
  destruct (done_again _ _ _ _ _ _ Hd' Hrow') as [-> Hre'].
  destruct Hcase as [->|Ht]; [|by destruct Hre' as (_ & _ & Hph & _); congruence].
  destruct (replays_same _ _ _ _ _ _ _ Hre Hre') as [-> Hfp]. split; [done|]. split; [by exists s', rec, rec'|].
  destruct (fingerprint_same _ _ Hwf Hwf' Hfp) as [Hsame|Hc]; [left|by right]. by apply payload_same.
Qed.

(** C19: Reads show the registry and leave it alone.  A list is exactly the first
    of the caller's services by creation time and id, an inspection the service
    asked for or its absence, a bootstrap the cards of the first services and
    whether there are more; each service is projected with its recovery state,
    from one snapshot. *)
Theorem reads_show_registry `{PublicModels} `{FloatRepr} `{UnicodeData} `{IsoDates} (others : relation Registry)
    (x : ApplicationContext) (limit : Z) (u : UUID) (r : Registry) :
  (forall r, others r r) ->
  Prog.leads (port_serves others) (list_services_of x limit) (idle r)
    (read_outcome others (valid_context x && ((1 <=? limit) && (limit <=? 100)))
       (fun r' ms => Forall2 (shown r' (ac_principal_id x)) (listed r' (ac_principal_id x) limit) ms) (fun _ => False) r)
  /\ Prog.leads (port_serves others) (inspect x u) (idle r)
    (read_outcome others (valid_context x && negb (u =? 0)%N)
       (fun r' m => exists s, services r' !! u = Some s /\ sv_principal_id s = ac_principal_id x
                              /\ shown r' (ac_principal_id x) s m)
       (fun r' => forall s, services r' !! u = Some s -> sv_principal_id s <> ac_principal_id x) r)
  /\ Prog.leads (port_serves others) (bootstrap x limit) (idle r) (bootstrap_outcome others x limit r).
Proof.
  intros Hrefl. split_and!; (apply (leads_plain others (fun _ => True)); [done|]).
  - by apply list_leads.
  - by apply inspect_leads.
  - by apply bootstrap_leads.
Qed.

(** C15: A data request reaches a store only after its admission, and only the
    store of the service it names.  Every request returns.  It is refused for a
    reason the registry shows or after a collaborator failed, with no store
    touched; or one method of the store in the service's own namespace ran once,
    with the specification compiled from the manifest under which the registry,
    when it was read for the admission, held the service materialised, active
    and free of recovery.  The registry is not held meanwhile: other clients may
    have changed it when the store is called.  Every other store is as before. *)
Theorem data_request_admitted `{PublicModels} `{FloatRead} `{UnicodeData} `{IsoDates} `{JulianDays} {A : Type}
    (others : relation Registry) (writers : relation store) (x : ApplicationContext) (u : UUID) (q : data_request A)
    (r : Registry) (stores : gmap pystr store) (tr : list (event Port AppExn)) (z : result AppExn (answer A)) (d' : Deployment) :
  (forall r r', others r r' -> RegistryOK r -> RegistryOK r') -> RegistryOK r ->
  runs (dispatch x u q) tr z ->
  served (deployment_serves others writers) {| dp_session := idle r; dp_stores := stores |} tr d' ->
  request_outcome others writers (failed_in tr) x u q r stores z d'
  /\ forall ns, ns <> service_namespace u -> dp_stores d' !! ns = stores !! ns.
Proof.
  intros Hoth Hr Hrun Hs. pose proof (dispatch_outcome others writers x u q r stores tr z d' Hrun Hs) as Ho.
  split; [exact Ho|]. intros ns Hns. destruct Ho as (y & r' & r2 & _ & _ & Hr' & [(c & _ & _ & _ & ->)|(ad & Had & _ & Hex)]); [done|].
  eapply execute_frame; [exact Hex|]. rewrite (admitted_namespace x u r' ad); [done| |done].
  destruct Hr' as [->|Ho]; [done|by eapply Hoth].
Qed.

(** Clients that attempt any commands leave every command its ledger entry. *)
Lemma commands_leave `{FloatRead} `{IsoDates} {A} (x : ApplicationContext) (k : store_command A) : Leaves commands x k.
Proof. split; [typeclasses eauto|exact commands_reals|]. intros s s' m Hc. by apply (commands_entries s s' Hc). Qed.

(** C16: A command sent through the application takes effect at most once.  A
    success is the result of the one time the operation ran on the store of the
    service, or the evidence of an earlier run under the same key; a definite
    failure means that nothing was written anywhere. *)
Theorem data_command_applied_once `{PublicModels} `{FloatRead} `{UnicodeData} `{IsoDates} `{JulianDays} {A : Type}
    (others : relation Registry) (writers : relation store) (x : ApplicationContext) (u : UUID) (k : store_command A)
    (r : Registry) (stores : gmap pystr store) (tr : list (event Port AppExn)) (z : result AppExn (answer A)) (d' : Deployment) :
  (forall r r', others r r' -> RegistryOK r -> RegistryOK r') -> RegistryOK r ->
  well_typed k -> Leaves writers x k -> (forall ns s, stores !! ns = Some s -> reals_ok s) ->
  runs (dispatch x u (request_of k)) tr z ->
  served (deployment_serves others writers) {| dp_session := idle r; dp_stores := stores |} tr d' ->
  exists y, z = Ok y /\ command_outcome writers x u k stores y (dp_stores d').
Proof.
  intros Hoth Hr Hk Hl Hreals Hrun Hs. eapply command_reaches; [exact Hoth|done..|].
  by eapply dispatch_outcome.
Qed.

(** C20: When nothing fails, a seed that may be made is made: with a fresh id, an
    unused key and a free domain, [seed] answers the new service, clear of
    recovery, and leaves exactly its rows. *)
Theorem seed_succeeds `{PublicModels} `{FloatRead} `{UnicodeData} `{IsoDates} `{JulianDays} (t : datetime) (u : UUID)
    (a : attempt) (x : ApplicationContext) (c : SeedCommand) (r : Registry) (d : Deployment) :
  Seedable t u x c r -> dp_session d = idle r ->
  hosted t u a d (seed x c)
  = (Ok (metadata_of (seeded_service x c u t) CLEAR),
     at_session d (idle (claimed_by x SEED (lit "seed") (lit "created") (sd_idempotency_key c) (seed_fingerprint x c)
       (seeded_service x c u t) t (with_service (seeded_service x c u t) r)))).
Proof. intros Hsb Hd. by apply seed_hosted. Qed.

(** ** Evaluations: a shop, a new journal and a customer *)
Definition never : JulianDays := {| julianday := fun _ => None |}.
#[local] Existing Instances plain_models ascii_printable datum_float_repr datum_float_read shape_dates never.

Definition alice : ApplicationContext := {| ac_principal_id := owner; ac_created_via := agent |}.
Definition journal : SeedCommand :=
  {| sd_domain_name := lit "journal"; sd_domain_class := lit "notes"; sd_intent_description := lit "daily notes";
     sd_idempotency_key := lit "s1" |}.

(** A materialised shop of alice. *)
Definition open_shop : Service :=
  {| sv_service_id := 7%N; sv_principal_id := owner; sv_domain_name := lit "shop"; sv_domain_class := lit "commerce";
     sv_intent_description := lit "orders"; sv_created_at := 10; sv_updated_at := 20; sv_last_activity_at := 20;
     sv_manifest := Some shop_v1; sv_schema_version := Some 1; sv_design_state := MATERIALISED;
     sv_operational_status := ACTIVE; sv_service_revision := 3; sv_materialised_at := Some 20;
     sv_storage := Some {| backend := SQLITE; namespace := service_namespace 7%N |} |}.

(** A diary alice has not designed yet. *)
Definition diary : Service :=
  {| sv_service_id := 8%N; sv_principal_id := owner; sv_domain_name := lit "diary"; sv_domain_class := lit "notes";
     sv_intent_description := lit "days"; sv_created_at := 15; sv_updated_at := 15; sv_last_activity_at := 15;
     sv_manifest := None; sv_schema_version := None; sv_design_state := SEEDED; sv_operational_status := ACTIVE;
     sv_service_revision := 1; sv_materialised_at := None; sv_storage := None |}.
Definition diary_design : DesignCommand :=
  {| dg_service_id := 8%N; dg_manifest := shop_v1; dg_idempotency_key := lit "d1" |}.

Definition town : Registry := unit_of_work [Op_add open_shop; Op_add diary] empty_registry.

Lemma town_ok : RegistryOK town.
Proof. apply reachable_ok, reachable_unit; [apply reachable_empty|by repeat constructor]. Qed.

Definition town_stores : gmap pystr store := {[ service_namespace 7%N := shop_store ]}.
Definition steady : attempt := fair_attempt 7%N 8%N Committed.
Lemma steady_sane : Sane steady.
Proof. by apply fair_sane. Qed.

(** A use case in the town, its answer and the registry it leaves. *)
Definition play {A} (p : usecase A) : result AppExn A * Deployment :=
  hosted 30 9%N steady {| dp_session := idle town; dp_stores := town_stores |} p.

Lemma town_runs {A} (p : usecase A) :
  exists tr, runs p tr (play p).1
    /\ served (deployment_serves eq eq) {| dp_session := idle town; dp_stores := town_stores |} tr (play p).2.
Proof. apply hosted_runs, steady_sane. Qed.

Lemma town_served {A} (p : usecase A) :
  silent p -> exists tr, runs p tr (play p).1 /\ served (port_serves eq) (idle town) tr (dp_session (play p).2).
Proof.
  intros Hp. destruct (town_runs p) as (tr & Hrun & Hs). exists tr. split; [done|].
  by apply silent_served in Hs as [Hs _]; [|by eapply Hp].
Qed.

Lemma town_leads {A} (p : usecase A) (P : result AppExn A -> Session -> Prop) :
  silent p -> Prog.leads (port_serves eq) p (idle town) P -> P (play p).1 (dp_session (play p).2).
Proof. intros Hp Hl. destruct (town_served p Hp) as (tr & Hrun & Hs). by apply (Hl tr). Qed.

Lemma small_ids r :
  forallb (fun e : UUID * Service => (sv_service_id e.2 <? 2 ^ 128)%N) (map_to_list (services r)) = true ->
  forallb (fun e : (pystr * pystr) * Claim =>
    match cm_result e.2 with Some (Result_Service s) => (sv_service_id s <? 2 ^ 128)%N | _ => true end)
    (map_to_list (claims r)) = true -> uuids r.
Proof.
  rewrite !forallb_forall. intros Hs Hc. split.
  - intros u s Hu%elem_of_map_to_list%list_elem_of_In. by apply Hs, N.ltb_lt in Hu.
  - intros k c s Hk%elem_of_map_to_list%list_elem_of_In Hres. apply Hc in Hk. cbn [snd] in Hk. rewrite Hres in Hk. by apply N.ltb_lt.
Qed.

Lemma town_uuids : uuids town.
Proof. apply small_ids; by vm_compute. Qed.

Definition is_answer {A} (z : result AppExn A) : bool := match z with Ok _ => true | Raise _ => false end.
Definition is_served {A} (z : result AppExn (answer A)) : bool :=
  match z with Ok (Success _) => true | _ => false end.

Ltac case_silent :=
  unfold concluded, failure_after_rollback, failure_after_close, close_failure, read_clock, fresh_service_id, projected,
    in_snapshot, closing, read_recovery, new_uow, guarded, answer_project, resolve_claim, constructed_value, require_app,
    refuse_app;
  silently.

Lemma seed_silent x c : silent (seed x c).
Proof. unfold seed, seed_body, seed_new, recorded_as. case_silent. Qed.

Lemma design_silent x c : silent (design x c).
Proof. unfold design, design_body, design_save, reread_after_stale, recorded_as. case_silent. Qed.

Lemma inspect_silent x u : silent (inspect x u).
Proof. unfold inspect. case_silent. Qed.

Lemma project_all_silent p l : silent (project_all p l).
Proof. induction l as [|s l IH]; cbn [project_all]; case_silent; exact IH. Qed.

Lemma list_silent x n : silent (list_services_of x n).
Proof. unfold list_services_of. case_silent; apply project_all_silent. Qed.

Lemma cards_silent p l : silent (bootstrap_cards p l).
Proof. induction l as [|s l IH]; cbn [bootstrap_cards]; unfold bootstrap_card; case_silent; exact IH. Qed.

Lemma bootstrap_silent x n : silent (bootstrap x n).
Proof. unfold bootstrap. case_silent; apply cards_silent. Qed.

Lemma seed_outcomes_witness :
  exists tr, is_answer (play (seed alice journal)).1 = true
  /\ seed_outcome eq (failed_in tr) alice journal town (play (seed alice journal)).1 (dp_session (play (seed alice journal)).2).
Proof.
  destruct (town_served (seed alice journal) (seed_silent _ _)) as (tr & Hrun & Hs). exists tr. split; [vm_compute; reflexivity|].
  apply (seed_outcomes eq alice journal town tr _ _); [reflexivity|by intros r r' <-|exact town_uuids|exact Hrun|exact Hs].
Defined.

Lemma design_outcomes_witness :
  exists tr, is_answer (play (design alice diary_design)).1 = true
  /\ design_outcome eq (failed_in tr) (ticked_in tr) alice diary_design town (play (design alice diary_design)).1
       (dp_session (play (design alice diary_design)).2).
Proof.
  destruct (town_served (design alice diary_design) (design_silent _ _)) as (tr & Hrun & Hs). exists tr.
  split; [vm_compute; reflexivity|].
  apply (design_outcomes eq alice diary_design town tr _ _);
    [reflexivity|by intros r r' <-|by intros r r' <-|exact town_ok|exact town_uuids|exact Hrun|exact Hs].
Defined.

Lemma reads_show_registry_witness :
  is_answer (play (list_services_of alice 1)).1 = true /\ is_answer (play (inspect alice 8%N)).1 = true
  /\ is_served (play (bootstrap alice 1)).1 = true
  /\ read_outcome eq true (fun r' ms => Forall2 (shown r' owner) (listed r' owner 1) ms) (fun _ => False) town
       (play (list_services_of alice 1)).1 (dp_session (play (list_services_of alice 1)).2)
  /\ bootstrap_outcome eq alice 1 town (play (bootstrap alice 1)).1 (dp_session (play (bootstrap alice 1)).2).
Proof.
  destruct (reads_show_registry eq alice 1 8%N town) as (Hl & Hi & Hb); [reflexivity|].
  split; [vm_compute; reflexivity|split; [vm_compute; reflexivity|split; [vm_compute; reflexivity|split]]].
  - apply (town_leads (list_services_of alice 1)); [apply list_silent|exact Hl].
  - apply (town_leads (bootstrap alice 1)); [apply bootstrap_silent|exact Hb].
Defined.

Definition store_key : pystr := service_namespace 7%N.

Lemma data_request_admitted_witness :
  is_served (play (dispatch alice 7%N (DR_create_record new_customer))).1 = true
  /\ exists tr, request_outcome eq eq (failed_in tr) alice 7%N (DR_create_record new_customer) town town_stores
       (play (dispatch alice 7%N (DR_create_record new_customer))).1
       (play (dispatch alice 7%N (DR_create_record new_customer))).2.
Proof.
  split; [vm_compute; reflexivity|].
  destruct (town_runs (dispatch alice 7%N (DR_create_record new_customer))) as (tr & Hrun & Hs). exists tr.
  refine (proj1 (data_request_admitted eq eq alice 7%N (DR_create_record new_customer) town town_stores tr _ _ _ town_ok Hrun Hs)).
  by intros r r' <-.
Defined.

Lemma data_command_applied_once_witness :
  exists y, (play (dispatch alice 7%N (DR_create_record new_customer))).1 = Ok y
  /\ command_outcome eq alice 7%N (CreateRecord new_customer) town_stores y
       (dp_stores (play (dispatch alice 7%N (DR_create_record new_customer))).2).
Proof.
  destruct (town_runs (dispatch alice 7%N (DR_create_record new_customer))) as (tr & Hrun & Hs).
  refine (data_command_applied_once eq eq alice 7%N (CreateRecord new_customer) town town_stores tr _ _ _ town_ok _ _ _ Hrun Hs).
  - by intros r r' <-.
  - by vm_compute.
  - split; [split; [by intros ?|by intros ? ? ? -> ->]|by intros s s' <-|by intros s s' m <-].
  - intros ns s Hns. unfold town_stores in Hns. apply lookup_singleton_Some in Hns as [_ <-]. apply empty_reals.
Defined.

Lemma journal_seedable : Seedable 30 9%N alice journal town.
Proof.
  split.
  - by vm_compute.
  - by vm_compute.
  - by vm_compute.
  - by vm_compute.
  - by vm_compute.
  - by vm_compute.
  - split_and!; by vm_compute.
  - by vm_compute.
Qed.

Lemma seed_succeeds_witness :
  Seedable 30 9%N alice journal town
  /\ hosted 30 9%N steady {| dp_session := idle town; dp_stores := town_stores |} (seed alice journal)
     = (Ok (metadata_of (seeded_service alice journal 9%N 30) CLEAR),
        at_session {| dp_session := idle town; dp_stores := town_stores |}
          (idle (claimed_by alice SEED (lit "seed") (lit "created") (sd_idempotency_key journal)
             (seed_fingerprint alice journal) (seeded_service alice journal 9%N 30) 30
             (with_service (seeded_service alice journal 9%N 30) town)))).
Proof.
  pose proof journal_seedable as Hs. split; [exact Hs|].
  exact (seed_succeeds 30 9%N steady alice journal town {| dp_session := idle town; dp_stores := town_stores |} Hs eq_refl).
Defined.

(** The journal is seeded, and the request is sent again. *)
Definition play_in {A} (r : Registry) (p : usecase A) : result AppExn A * Deployment :=
  hosted 30 9%N steady {| dp_session := idle r; dp_stores := town_stores |} p.
Definition journal_town : Registry := committed (dp_session (play (seed alice journal)).2).
Definition journal_again := play_in journal_town (seed alice journal).

Definition shown_id (z : result AppExn ServiceMetadata) : option UUID :=
  match z with Ok m => Some (md_service_id m) | Raise _ => None end.
Lemma journal_answers :
  shown_id (play (seed alice journal)).1 = Some 9%N /\ shown_id journal_again.1 = Some 9%N
  /\ bool_decide (working (dp_session (play (seed alice journal)).2) = None)
  /\ bool_decide (working (dp_session journal_again.2) = None).
Proof. by vm_compute. Qed.

(** What the seed did to the registry. *)
Definition journal_operations : list Operation :=
  [Op_add (seeded_service alice journal 9%N 30);
   Op_append (audit_of alice (lit "seed") (lit "created") 9%N 30);
   Op_complete_non_lifecycle SEED owner (sd_idempotency_key journal) (seed_fingerprint alice journal)
     (seeded_service alice journal 9%N 30)].

Lemma journal_town_ok : RegistryOK journal_town /\ uuids journal_town.
Proof.
  assert (journal_town = unit_of_work journal_operations town) as ->.
  { vm_compute. reflexivity. }
  split; [|apply small_ids; by vm_compute]. apply reachable_ok, reachable_unit; [|by repeat constructor].
  apply reachable_unit; [apply reachable_empty|by repeat constructor].
Qed.

Lemma idle_session (s : Session) : bool_decide (working s = None) -> s = idle (committed s).
Proof. destruct s as [r [w|]]; [done|]. done. Qed.

Lemma keys_bind_requests_witness :
  exists m m', (play (seed alice journal)).1 = Ok m /\ journal_again.1 = Ok m' /\ journal_town = committed (dp_session journal_again.2)
    /\ exists s rec rec', project s rec = Ok m /\ project s rec' = Ok m'.
Proof.
  destruct journal_answers as (Hm & Hm' & Hw & Hw'). apply idle_session in Hw, Hw'.
  destruct (town_served (seed alice journal) (seed_silent _ _)) as (t & Hrun & Hs).
  assert (exists t', runs (seed alice journal) t' journal_again.1
    /\ served (port_serves eq) (idle journal_town) t' (dp_session journal_again.2)) as (t' & Hrun' & Hs').
  { destruct (hosted_runs 30 9%N steady steady_sane (seed alice journal)
      {| dp_session := idle journal_town; dp_stores := town_stores |}) as (t' & Hrun' & Hs').
    exists t'. split; [exact Hrun'|]. apply silent_served in Hs' as [Hs' _]; [exact Hs'|by eapply seed_silent]. }
  destruct (play (seed alice journal)).1 as [m|e] eqn:Em; [|discriminate Hm].
  destruct journal_again.1 as [m'|e'] eqn:Em'; [|discriminate Hm'].
  rewrite Hw in Hs. rewrite Hw' in Hs'. destruct journal_town_ok as [Hok Hu].
  destruct (keys_bind_requests eq alice alice (SeedRequest journal) (SeedRequest journal) town journal_town journal_town
    (committed (dp_session journal_again.2)) t t' m m') as (Heq & Hp & _);
    [reflexivity|by intros r r' <-|by intros r r' <-|by intros r r' <-|exact town_ok|exact town_uuids|exact Hok|exact Hu
    |reflexivity|reflexivity|reflexivity|exact I|exact I|vm_compute; reflexivity|vm_compute; reflexivity
    |exact Hrun|exact Hs|exact Hrun'|exact Hs'|].
  exists m, m'. split; [reflexivity|split; [reflexivity|split; [exact Heq|exact Hp]]].
Defined.
