(* ===== verification/PortableStore.v ===== *)
(** * PortableStore: logical transfer of a service store

    [application/portable_store.py]: the members of a transfer, their canonical
    order and [validate_portable_members]; and what
    [SQLitePortableServiceStore] of [storage/sqlite/portable.py] does to the
    tables of a store: the snapshot, the write-admission fence, staging,
    observing.  The files and connections are the environment of an attempt, as
    in [RecordStore]. *)
From S2P Require Import Relational.
From S2P Require Export Pages StoreCommands.
From S2P Require Import Prelude Values Json JsonText Sha256 Manifest.

(** ** Members *)
Record BranchMembership := { ml_branch : UUID; ml_entity : pystr; ml_record : UUID; ml_role : BranchRole }.
#[export] Instance BranchMembership_eq_dec : EqDecision BranchMembership.
Proof. solve_decision. Defined.

Definition make_membership (m : BranchMembership) : option BranchMembership :=
  if (ml_branch m =? 0)%N || negb (1 <=? length (ml_entity m))%nat || negb (length (ml_entity m) <=? 64)%nat
     || (ml_record m =? 0)%N
  then None else Some m.

Inductive PortableStoreMember :=
| M_record (v : RecordValue)
| M_history (e : RecordHistoryEvent)
| M_branch (b : BranchValue)
| M_membership (m : BranchMembership).

Inductive StageStatus := Staged | AlreadyStaged | Different.
Inductive FenceTransitionStatus := Applied | Current | Stale.
Inductive PurgeStatus := Purged | AlreadyAbsent.
#[export] Instance StageStatus_eq_dec : EqDecision StageStatus.
Proof. solve_decision. Defined.
#[export] Instance FenceTransitionStatus_eq_dec : EqDecision FenceTransitionStatus.
Proof. solve_decision. Defined.
#[export] Instance FenceState_eq_dec : EqDecision FenceState.
Proof. solve_decision. Defined.
#[export] Instance WriteAdmissionFence_eq_dec : EqDecision WriteAdmissionFence.
Proof. solve_decision. Defined.

Record StageResult := { sg_status : StageStatus; sg_fence : WriteAdmissionFence }.
Record FenceTransitionResult := { ft_status : FenceTransitionStatus; ft_fence : WriteAdmissionFence }.

Definition MAX_FENCE_GENERATION : Z := 2 ^ 63 - 1.
Definition MAX_STORE_MEMBERS : Z := 1000000 - 3.

(** ** The canonical order: tuples of numbers and texts *)
Inductive key_part := KeyNum (z : Z) | KeyText (s : pystr).
#[export] Instance key_part_eq_dec : EqDecision key_part.
Proof. solve_decision. Defined.

(** Parts of different types are never compared: the section decides the shape. *)
Definition part_leb (x y : key_part) : bool :=
  match x, y with
  | KeyNum a, KeyNum b => a <=? b
  | KeyText a, KeyText b => str_leb a b
  | KeyNum _, KeyText _ => true
  | KeyText _, KeyNum _ => false
  end.

Fixpoint key_leb (a b : list key_part) : bool :=
  match a, b with
  | [], _ => true
  | _ :: _, [] => false
  | x :: a', y :: b' => if bool_decide (x = y) then key_leb a' b' else part_leb x y
  end.

Definition portable_member_sort_key (m : PortableStoreMember) : list key_part :=
  match m with
  | M_record v => [KeyNum 0; KeyText (rv_entity v); KeyText (uuid_hex (rv_id v))]
  | M_history e => [KeyNum 1; KeyText (he_entity e); KeyText (uuid_hex (he_id e)); KeyNum (he_version e)]
  | M_branch b => [KeyNum 2; KeyText (uuid_hex (bv_id b))]
  | M_membership m =>
      [KeyNum 3; KeyText (uuid_hex (ml_branch m)); KeyText (ml_entity m); KeyText (uuid_hex (ml_record m));
       KeyText (role_text (ml_role m))]
  end.

(** ** [==] of frozen values and of members *)
Fixpoint py_eqb (a b : json) : bool :=
  match a, b with
  | JNull, JNull => true
  | JScalar v, JScalar w => scalar_eqb v w
  | JArr xs, JArr ys =>
      (fix items (xs ys : list json) : bool :=
         match xs, ys with
         | [], [] => true
         | x :: xs', y :: ys' => py_eqb x y && items xs' ys'
         | _, _ => false
         end) xs ys
  | JObj xs, JObj ys =>
      (fix entries (xs ys : list (pystr * json)) : bool :=
         match xs, ys with
         | [], [] => true
         | x :: xs', y :: ys' => bool_decide (x.1 = y.1) && py_eqb x.2 y.2 && entries xs' ys'
         | _, _ => false
         end) xs ys
  | _, _ => false
  end.

Definition fields_eqb (a b : list (pystr * json)) : bool := py_eqb (JObj a) (JObj b).
Definition snapshot_eqb (a b : option (list (pystr * json))) : bool :=
  match a, b with None, None => true | Some x, Some y => fields_eqb x y | _, _ => false end.

Definition record_eqb (v w : RecordValue) : bool :=
  bool_decide (rv_entity v = rv_entity w) && (rv_id v =? rv_id w)%N && (rv_version v =? rv_version w)
  && bool_decide (rv_created_at v = rv_created_at w) && bool_decide (rv_updated_at v = rv_updated_at w)
  && bool_decide (rv_created_via v = rv_created_via w) && fields_eqb (rv_fields v) (rv_fields w).

Definition event_eqb (e f : RecordHistoryEvent) : bool :=
  bool_decide (he_entity e = he_entity f) && (he_id e =? he_id f)%N && (he_version e =? he_version f)
  && bool_decide (he_kind e = he_kind f) && bool_decide (he_occurred_at e = he_occurred_at f)
  && snapshot_eqb (he_before e) (he_before f) && snapshot_eqb (he_after e) (he_after f).

#[export] Instance BranchValue_eq_dec : EqDecision BranchValue.
Proof. solve_decision. Defined.

Definition member_eqb (m n : PortableStoreMember) : bool :=
  match m, n with
  | M_record v, M_record w => record_eqb v w
  | M_history e, M_history f => event_eqb e f
  | M_branch b, M_branch c => bool_decide (b = c)
  | M_membership x, M_membership y => bool_decide (x = y)
  | _, _ => false
  end.

Fixpoint members_eqb (ms ns : list PortableStoreMember) : bool :=
  match ms, ns with
  | [], [] => true
  | m :: ms', n :: ns' => member_eqb m n && members_eqb ms' ns'
  | _, _ => false
  end.

(** ** [validate_portable_members] *)
Abbreviation record_key := (pystr * UUID)%type.

Record collected := {
  co_records : gmap record_key RecordValue;
  co_histories : gmap record_key (list RecordHistoryEvent);
  co_branches : gmap UUID BranchValue;
  co_memberships : list BranchMembership
}.

Definition nothing_collected : collected :=
  {| co_records := ∅; co_histories := ∅; co_branches := ∅; co_memberships := [] |}.

(** [keys != tuple(sorted(keys)) or len(keys) != len(set(keys))], negated. *)
Definition canonical_order (ms : list PortableStoreMember) : bool :=
  let keys := map portable_member_sort_key ms in
  bool_decide (keys = sorted_by key_leb id keys) && bool_decide (NoDup keys).

Section members.
Context `{FloatRepr} `{IsoDates}.

(** The fields are those that validation returns. *)
Definition fields_checked (sp : RecordSpecification) (entity : pystr) (fields : list (pystr * json)) : bool :=
  match validate_create sp entity fields with Ok checked => fields_eqb checked fields | Raise _ => false end.

Definition snapshot_checked (sp : RecordSpecification) (entity : pystr) (fields : option (list (pystr * json))) : bool :=
  match fields with Some fs => fields_checked sp entity fs | None => true end.

(** One turn of the loop over the members. *)
Definition collect_member (sp : RecordSpecification) (c : collected) (m : PortableStoreMember) : option collected :=
  match m with
  | M_record v =>
      if fields_checked sp (rv_entity v) (rv_fields v)
      then Some {| co_records := <[(rv_entity v, rv_id v) := v]> (co_records c); co_histories := co_histories c;
                   co_branches := co_branches c; co_memberships := co_memberships c |}
      else None
  | M_history e =>
      if bool_decide (is_Some (spec_entity sp (he_entity e)))
         && snapshot_checked sp (he_entity e) (he_before e)
         && snapshot_checked sp (he_entity e) (he_after e)
      then let k := (he_entity e, he_id e) in
           Some {| co_records := co_records c;
                   co_histories := <[k := default [] (co_histories c !! k) ++ [e]]> (co_histories c);
                   co_branches := co_branches c; co_memberships := co_memberships c |}
      else None
  | M_branch b =>
      Some {| co_records := co_records c; co_histories := co_histories c;
              co_branches := <[bv_id b := b]> (co_branches c); co_memberships := co_memberships c |}
  | M_membership x =>
      Some {| co_records := co_records c; co_histories := co_histories c; co_branches := co_branches c;
              co_memberships := co_memberships c ++ [x] |}
  end.

Fixpoint collect (sp : RecordSpecification) (c : collected) (ms : list PortableStoreMember) : option collected :=
  match ms with
  | [] => Some c
  | m :: ms' => c' ← collect_member sp c m; collect sp c' ms'
  end.
End members.

(** The versions of a record in order, and the record at the last of them. *)
Definition history_consistent (records : gmap record_key RecordValue) (h : record_key * list RecordHistoryEvent) : bool :=
  let events := h.2 in
  bool_decide (map he_version events = map Z.of_nat (seq 1 (length events)))
  && match events with e :: _ => bool_decide (he_kind e = create_event) | [] => false end
  && forallb (fun e => negb (bool_decide (he_kind e = create_event))) (tail events)
  && forallb (fun e => negb (bool_decide (he_kind e = delete_event))) (removelast events)
  && match last events with
     | None => false
     | Some e =>
         match records !! h.1 with
         | None => bool_decide (he_kind e = delete_event)
         | Some v => negb (bool_decide (he_kind e = delete_event)) && (rv_version v =? he_version e)
         end
     end.

(** The walk up the parents of a branch; [None] is out of fuel. *)
Fixpoint parent_walk (fuel : nat) (branches : gmap UUID BranchValue) (start : UUID) (seen : list UUID)
    (parent : option UUID) : option bool :=
  match parent with
  | None => Some true
  | Some p =>
      if bool_decide (p ∈ seen) || (p =? start)%N then Some false else
      match fuel, branches !! p with
      | _, None => Some false
      | O, Some _ => None
      | S n, Some b => parent_walk n branches start (p :: seen) (bv_parent b)
      end
  end.

Definition branch_rooted (branches : gmap UUID BranchValue) (b : BranchValue) : bool :=
  bool_decide (parent_walk (size branches) branches (bv_id b) [] (bv_parent b) = Some true).

(** The loop over the memberships, with the pairs and the primaries so far. *)
Fixpoint memberships_ok (c : collected) (pairs : gset (UUID * record_key)) (primaries : gset record_key)
    (ms : list BranchMembership) : bool :=
  match ms with
  | [] => true
  | m :: ms' =>
      let identity := (ml_entity m, ml_record m) in
      bool_decide (is_Some (co_branches c !! ml_branch m)) && bool_decide (is_Some (co_records c !! identity))
      && negb (bool_decide ((ml_branch m, identity) ∈ pairs))
      && negb (bool_decide (ml_role m = Primary) && bool_decide (identity ∈ primaries))
      && memberships_ok c ({[ (ml_branch m, identity) ]} ∪ pairs)
           (if bool_decide (ml_role m = Primary) then {[ identity ]} ∪ primaries else primaries) ms'
  end.

(** [validate_portable_members]: [None] is [PortableStoreContractError]. *)
Definition validate_portable_members `{FloatRepr} `{IsoDates} (sp : RecordSpecification) (ms : list PortableStoreMember)
  : option (list PortableStoreMember) :=
  if negb ((Z.of_nat (length ms) <=? MAX_STORE_MEMBERS) && canonical_order ms) then None else
  c ← collect sp nothing_collected ms;
  if forallb (history_consistent (co_records c)) (map_to_list (co_histories c))
     && forallb (fun e : record_key * RecordValue => bool_decide (is_Some (co_histories c !! e.1))) (map_to_list (co_records c))
     && forallb (fun e : UUID * BranchValue => branch_rooted (co_branches c) e.2) (map_to_list (co_branches c))
     && memberships_ok c ∅ ∅ (co_memberships c)
  then Some ms else None.

(** ** The snapshot: [_SQLiteSnapshotReader._members] *)
Section snapshot.
Context `{FloatRead} `{IsoDates}.

Definition owned_entries (principal : pystr) (rows : gmap UUID row) : list (UUID * row) :=
  List.filter (fun e : UUID * row => bool_decide (r_owner_id e.2 = principal)) (by_id rows).

Definition record_members (sp : RecordSpecification) (principal : pystr) (s : store) (e : RecordEntity)
  : result fault (list PortableStoreMember) :=
  match st_tables s !! re_name e with
  | None => Raise (DatabaseError false)
  | Some t =>
      mapR (fun r => v ← decode_record sp principal (re_name e) r.1 r.2; Ok (M_record v))
        (owned_entries principal (t_rows t))
  end.

Definition history_key (h : history_row) : list key_part :=
  [KeyText (h_entity h); KeyText (uuid_str (h_record h)); KeyNum (h_version h)].

Definition history_members (sp : RecordSpecification) (principal : pystr) (s : store)
  : result fault (list PortableStoreMember) :=
  mapR (fun h => e ← decode_history sp h; Ok (M_history e))
    (sorted_by key_leb history_key
       (List.filter (fun h => bool_decide (h_principal h = principal)) (st_history s))).

Definition branch_members (principal : pystr) (s : store) : result fault (list PortableStoreMember) :=
  mapR (fun e => b ← contractual (read_branch e); Ok (M_branch b))
    (List.filter (fun e : UUID * branch_row => bool_decide (b_principal e.2 = principal)) (by_id (st_branches s))).

Definition member_row := (member_key * membership)%type.
Definition member_row_key (e : member_row) : list key_part :=
  let '(_, entity, record, branch) := e.1 in
  [KeyText (uuid_str branch); KeyText entity; KeyText (uuid_str record); KeyText (role_text (m_role e.2))].

(** [_uuid] and the constructor of [BranchMembership]. *)
Definition read_membership (e : member_row) : result fault PortableStoreMember :=
  let '(_, entity, record, branch) := e.1 in
  match read_id branch, read_id record with
  | Some b, Some r =>
      match make_membership {| ml_branch := b; ml_entity := entity; ml_record := r; ml_role := m_role e.2 |} with
      | Some m => Ok (M_membership m)
      | None => Raise OtherFault
      end
  | _, _ => Raise MigrationFault
  end.

Definition membership_members (principal : pystr) (s : store) : result fault (list PortableStoreMember) :=
  mapR read_membership
    (sorted_by key_leb member_row_key
       (List.filter (fun e : member_row => bool_decide (e.1.1.1.1 = principal)) (map_to_list (st_members s)))).

Definition snapshot_members (sp : RecordSpecification) (principal : pystr) (s : store)
  : result fault (list PortableStoreMember) :=
  records ← mapR (record_members sp principal s) (sp_entities sp);
  events ← history_members sp principal s;
  branches ← branch_members principal s;
  members ← membership_members principal s;
  Ok (concat records ++ events ++ branches ++ members).

(** ** The fence of a store *)
Definition read_fence (principal : pystr) (s : store) : result fault WriteAdmissionFence :=
  match fence_rows s with
  | [] => Ok INITIAL_FENCE
  | [(k, m)] =>
      if bool_decide (k = (principal, FENCE_IDEMPOTENCY_KEY)) && bool_decide (mu_fingerprint m = FENCE_FINGERPRINT)
      then match decode_fence (mu_result m) with Some f => Ok f | None => Raise MigrationFault end
      else Raise MigrationFault
  | _ => Raise MigrationFault
  end.

Definition fence_mutation (f : WriteAdmissionFence) (now : datetime) : mutation :=
  {| mu_kind := FENCE_OPERATION_KIND; mu_fingerprint := FENCE_FINGERPRINT; mu_result := encode_fence f;
     mu_completed_at := now |}.

(** [_write_fence]: [INSERT ... ON CONFLICT DO UPDATE]. *)
Definition write_fence (principal : pystr) (f : WriteAdmissionFence) (now : datetime) : stx unit :=
  bind_texts [principal] ;;
  raise_when (negb (fits MAX_RESULT_BYTES (encode_fence f) && stored_time now)) IntegrityError ;;
  writing (with_mutations <[(principal, FENCE_IDEMPOTENCY_KEY) := fence_mutation f now]>).

(** The transaction of [transition_fence]. *)
Definition transition_fence_op (a : attempt) (principal : pystr) (expected : WriteAdmissionFence) (target : FenceState)
  : stx FenceTransitionResult :=
  found ← reading (read_fence principal);
  current ← run_result found;
  if negb (bool_decide (current = expected)) then ret {| ft_status := Stale; ft_fence := current |} else
  if bool_decide (fence_state current = target) then ret {| ft_status := Current; ft_fence := current |} else
  if fence_generation current =? MAX_FENCE_GENERATION then raise MigrationFault else
  let changed := {| fence_generation := fence_generation current + 1; fence_state := target |} in
  now ← run_result (at_now a);
  write_fence principal changed now ;;
  ret {| ft_status := Applied; ft_fence := changed |}.

(** How a transaction ends that is rolled back when it raises or [keep] refuses
    its answer; a commit that raised may have happened. *)
Definition transacted {A} (a : attempt) (keep : A -> bool) (op : stx A) (s : store) : result fault A * store :=
  match (at_open a ;; at_ready a) with
  | Raise e => (Raise e, s)
  | Ok _ =>
      match op s with
      | (Raise e, _) => (Raise e, s)
      | (Ok r, s') =>
          if keep r then
            match at_commit a with
            | Committed => (Ok r, s')
            | LostCommit => (Raise OtherFault, s)
            | DurableCommit => (Raise OtherFault, s')
            end
          else (Ok r, s)
      end
  end.

Definition transition_fence (a : attempt) (principal : pystr) (expected : WriteAdmissionFence) (target : FenceState)
  : store -> result fault FenceTransitionResult * store :=
  transacted a (fun r => bool_decide (ft_status r = Applied)) (transition_fence_op a principal expected target).

(** ** Snapshots at a fence *)
Definition open_snapshot (a : attempt) (sp : RecordSpecification) (principal : pystr) (expected : WriteAdmissionFence)
    (s : store) : result fault (list PortableStoreMember) :=
  if bool_decide (fence_state expected <> FenceClosed) then Raise OtherFault else
  at_open a ;; at_ready a ;;
  actual ← read_fence principal s;
  if negb (bool_decide (actual = expected)) then Raise MigrationFault else
  snapshot_members sp principal s.

(** [observe]: any exception is [False]; the members were checked before. *)
Definition observe (a : attempt) (sp : RecordSpecification) (principal : pystr) (expected : WriteAdmissionFence)
    (members : list PortableStoreMember) (s : store) : bool :=
  match open_snapshot a sp principal expected s with Ok ms => members_eqb ms members | Raise _ => false end.

(** ** Staging *)
Definition has_logical_state (s : store) : bool :=
  negb (bool_decide (st_history s = [])) || negb (bool_decide (st_branches s = ∅))
  || negb (bool_decide (st_members s = ∅)) || negb (bool_decide (st_mutations s = ∅))
  || existsb (fun e : pystr * table => negb (bool_decide (t_rows e.2 = ∅))) (map_to_list (st_tables s)).

(** The branches whose parents were ordered before, by id. *)
Definition ready_branches (pending ordered : list BranchValue) : list BranchValue :=
  sorted_by str_leb (fun b => uuid_hex (bv_id b))
    (List.filter (fun b =>
       match bv_parent b with
       | None => true
       | Some p => negb (existsb (fun o => (bv_id o =? p)%N) pending) && existsb (fun o => (bv_id o =? p)%N) ordered
       end) pending).

(** [_parent_first], over branches with different ids; each turn takes a branch. *)
Fixpoint parent_first (fuel : nat) (pending ordered : list BranchValue) : option (list BranchValue) :=
  match pending with
  | [] => Some ordered
  | _ =>
      match fuel, ready_branches pending ordered with
      | _, [] | O, _ => None
      | S n, ready =>
          parent_first n (List.filter (fun b => negb (existsb (fun o => (bv_id o =? bv_id b)%N) ready)) pending)
            (ordered ++ ready)
      end
  end.

Definition history_of (principal : pystr) (e : RecordHistoryEvent) (seq : Z) : history_row :=
  {| h_sequence := seq; h_principal := principal; h_entity := he_entity e; h_record := he_id e;
     h_version := he_version e; h_kind := he_kind e; h_before := snapshot <$> he_before e;
     h_after := snapshot <$> he_after e; h_occurred_at := he_occurred_at e |}.

Definition insert_logical (principal : pystr) (sp : RecordSpecification) (m : PortableStoreMember) : stx unit :=
  match m with
  | M_record v => insert_record principal sp v
  | M_history e =>
      bind_texts (principal :: he_entity e :: omap id [snapshot <$> he_before e; snapshot <$> he_after e]) ;;
      insert_history (history_of principal e)
  | _ => ret tt
  end.

Definition member_branches (ms : list PortableStoreMember) : list BranchValue :=
  omap (fun m => match m with M_branch b => Some b | _ => None end) ms.
Definition member_links (ms : list PortableStoreMember) : list BranchMembership :=
  omap (fun m => match m with M_membership x => Some x | _ => None end) ms.

Definition insert_link (principal : pystr) (assigned : datetime) (m : BranchMembership) : stx unit :=
  insert_member (principal, ml_entity m, ml_record m, ml_branch m) {| m_role := ml_role m; m_assigned_at := assigned |}.

Fixpoint each {A} (f : A -> stx unit) (l : list A) : stx unit :=
  match l with [] => ret tt | x :: l' => f x ;; each f l' end.

(** [_insert_members]. *)
Definition insert_members (principal : pystr) (sp : RecordSpecification) (updated_at : datetime)
    (ms : list PortableStoreMember) : stx unit :=
  each (insert_logical principal sp) ms ;;
  match parent_first (length (member_branches ms)) (member_branches ms) [] with
  | None => raise OtherFault
  | Some branches => each (fun b => insert_branch (bv_id b) (branch_row_of principal b)) branches
  end ;;
  each (insert_link principal updated_at) (member_links ms).

(** [stage], on a store whose migration and domain schema are in place. *)
Definition stage_op (a : attempt) (sp : RecordSpecification) (principal : pystr) (updated_at : datetime)
    (fence : WriteAdmissionFence) (ms : list PortableStoreMember) : stx (option WriteAdmissionFence) :=
  present ← reading has_logical_state;
  if (present : bool) then ret None else
  insert_members principal sp updated_at ms ;;
  now ← run_result (at_now a);
  write_fence principal fence now ;;
  ret (Some fence).

Definition stage (a : attempt) (sp : RecordSpecification) (principal : pystr) (updated_at : datetime)
    (fence : WriteAdmissionFence) (ms : list PortableStoreMember) (s : store) : result fault StageResult * store :=
  if bool_decide (fence_state fence <> FenceClosed) then (Raise OtherFault, s) else
  match validate_portable_members sp ms with
  | None => (Raise OtherFault, s)
  | Some checked =>
      if negb (domain_ready sp s) then (Raise MigrationFault, s) else
      match transacted a (fun r => bool_decide (r <> None)) (stage_op a sp principal updated_at fence checked) s with
      | (Raise e, s') => (Raise e, s')
      | (Ok (Some f), s') => (Ok {| sg_status := Staged; sg_fence := f |}, s')
      | (Ok None, s') =>
          let status := if observe a sp principal fence checked s' then AlreadyStaged else Different in
          match (at_open a ;; at_ready a ;; read_fence principal s') with
          | Ok f => (Ok {| sg_status := status; sg_fence := f |}, s')
          | Raise e => (Raise e, s')
          end
      end
  end.
End snapshot.
