(* ===== verification/PortableStoreSpec.v ===== *)
(** * PortableStoreSpec: what a transfer is, and what keeps it still

    [TransferOK]: the declarative contract of a logical transfer, and the proof
    that [validate_portable_members] decides it; snapshots of consistent stores
    are transfers; a closed fence keeps a store as it is. *)
From S2P Require Import Relational.
From S2P Require Export PortableStore StoreTheorems.
From S2P Require Import Prelude Values Json JsonText Sha256 Manifest.

(** ** The order of keys *)
Lemma part_leb_trans x y z : part_leb x y = true -> part_leb y z = true -> part_leb x z = true.
Proof. destruct x, y, z; cbn [part_leb]; try done; [rewrite !Z.leb_le; lia|]. apply str_le_trans. Qed.

Lemma part_leb_total x y : part_leb x y = true \/ part_leb y x = true.
Proof. destruct x, y; cbn [part_leb]; auto; [rewrite !Z.leb_le; lia|]. apply str_le_total. Qed.

Lemma part_leb_antisym x y : part_leb x y = true -> part_leb y x = true -> x = y.
Proof.
  destruct x, y; cbn [part_leb]; try done; [rewrite !Z.leb_le; intros; f_equal; lia|].
  intros H1' H2'. f_equal. by apply (anti_symm str_le).
Qed.

Lemma key_leb_total a b : key_leb a b = true \/ key_leb b a = true.
Proof.
  revert b. induction a as [|x a IH]; intros [|y b]; cbn [key_leb]; auto.
  case_bool_decide as E; [subst; rewrite bool_decide_true by done; apply IH|].
  rewrite bool_decide_false by done. apply part_leb_total.
Qed.

Lemma key_leb_trans a b c : key_leb a b = true -> key_leb b c = true -> key_leb a c = true.
Proof.
  revert b c. induction a as [|x a IH]; intros [|y b] [|z c]; cbn [key_leb]; try done.
  destruct (decide (x = y)) as [->|Hxy]; [rewrite (bool_decide_true (y = y)) by done|rewrite (bool_decide_false (x = y)) by done].
  - case_bool_decide; [apply IH|done].
  - destruct (decide (y = z)) as [->|Hyz]; [rewrite (bool_decide_true (z = z)) by done; by rewrite (bool_decide_false (x = z))|].
    rewrite (bool_decide_false (y = z)) by done. intros Hx Hy. rewrite bool_decide_false; [by eapply part_leb_trans|].
    intros ->. apply Hyz. by apply part_leb_antisym.
Qed.

Definition key_lt (a b : list key_part) : Prop := key_leb a b = true /\ a <> b.

Lemma strictly_sorted (l : list (list key_part)) :
  l = sorted_by key_leb id l /\ NoDup l <-> StronglySorted key_lt l.
Proof.
  split.
  - intros [Hs Hnd].
    assert (StronglySorted (fun a b => key_leb a b = true) l) as Hss.
    { rewrite Hs. apply (sorted_by_sorted key_leb id); [intros a b c; apply key_leb_trans|intros; apply key_leb_total]. }
    clear Hs. induction Hss as [|x l _ IH Hx]; [constructor|]. apply NoDup_cons in Hnd as [Hn Hnd].
    constructor; [by apply IH|]. rewrite Forall_forall in *. intros y Hy. split; [by apply Hx|]. by intros ->.
  - intros Hs. split.
    + symmetry. apply (sorted_by_id key_leb id). induction Hs as [|x l _ IH Hx]; constructor; [done|].
      eapply Forall_impl; [exact Hx|]. by intros y [? _].
    + induction Hs as [|x l _ IH Hx]; constructor; [|done]. intros Hin. rewrite Forall_forall in Hx.
      by destruct (Hx x Hin) as [_ ?].
Qed.

Definition member_lt (m n : PortableStoreMember) : Prop :=
  key_lt (portable_member_sort_key m) (portable_member_sort_key n).

Lemma sorted_on {A B} (R : relation B) (f : A -> B) l :
  StronglySorted R (map f l) <-> StronglySorted (fun x y => R (f x) (f y)) l.
Proof.
  induction l as [|x l IH]; cbn [map]; [split; constructor|].
  split; inversion 1 as [|? ? Hs Hf]; subst; constructor; try by apply IH.
  - by apply (proj1 (List.Forall_map _ _ _)) in Hf.
  - by apply (proj2 (List.Forall_map _ _ _)).
Qed.

Lemma canonical_order_spec ms : canonical_order ms = true <-> StronglySorted member_lt ms.
Proof.
  unfold canonical_order. rewrite andb_true_iff, !bool_decide_eq_true, strictly_sorted. apply (sorted_on key_lt).
Qed.

(** ** What was collected *)
Definition record_key_of (v : RecordValue) : record_key := (rv_entity v, rv_id v).
Definition event_key_of (e : RecordHistoryEvent) : record_key := (he_entity e, he_id e).
Definition link_key_of (x : BranchMembership) : record_key := (ml_entity x, ml_record x).

Definition events_of (ms : list PortableStoreMember) (k : record_key) : list RecordHistoryEvent :=
  omap (fun m => match m with M_history e => if decide (event_key_of e = k) then Some e else None | _ => None end) ms.

Section collection.
Context `{FloatRepr} `{IsoDates}.

Definition member_checked (sp : RecordSpecification) (m : PortableStoreMember) : bool :=
  match m with
  | M_record v => fields_checked sp (rv_entity v) (rv_fields v)
  | M_history e => bool_decide (is_Some (spec_entity sp (he_entity e)))
                   && snapshot_checked sp (he_entity e) (he_before e) && snapshot_checked sp (he_entity e) (he_after e)
  | _ => true
  end.

(** The collection without the checks. *)
Definition gathered (c : collected) (m : PortableStoreMember) : collected :=
  {| co_records := match m with M_record v => <[record_key_of v := v]> (co_records c) | _ => co_records c end;
     co_histories := match m with
                     | M_history e =>
                         <[event_key_of e := default [] (co_histories c !! event_key_of e) ++ [e]]> (co_histories c)
                     | _ => co_histories c
                     end;
     co_branches := match m with M_branch b => <[bv_id b := b]> (co_branches c) | _ => co_branches c end;
     co_memberships := match m with M_membership x => co_memberships c ++ [x] | _ => co_memberships c end |}.

Lemma collect_gathers sp ms c :
  collect sp c ms = if forallb (member_checked sp) ms then Some (foldl gathered c ms) else None.
Proof.
  revert c. induction ms as [|m ms IH]; intros c; cbn [collect forallb foldl]; [done|].
  assert (collect_member sp c m = if member_checked sp m then Some (gathered c m) else None) as ->.
  { by destruct c, m. }
  destruct (member_checked sp m); cbn [mbind option_bind andb]; [apply IH|done].
Qed.
End collection.

Definition gather (ms : list PortableStoreMember) : collected := foldl gathered nothing_collected ms.

Lemma gather_snoc ms m : gather (ms ++ [m]) = gathered (gather ms) m.
Proof. unfold gather. by rewrite foldl_app. Qed.

Lemma sorted_snoc {A} (R : relation A) l x :
  StronglySorted R (l ++ [x]) <-> StronglySorted R l /\ Forall (fun y => R y x) l.
Proof.
  induction l as [|y l IH]; cbn [app].
  - split; [by repeat constructor|]. intros _. by repeat constructor.
  - split.
    + intros [[Hs Hx]%IH Hy]%StronglySorted_inv. apply Forall_app in Hy as [Hy Hyx].
      apply Forall_inv in Hyx. split; by constructor.
    + intros [[Hs Hy]%StronglySorted_inv [Hyx Hx]%Forall_cons]. constructor; [by apply IH|].
      apply Forall_app. split; [done|]. by apply Forall_singleton.
Qed.

(** Members in strict order have different keys. *)
Lemma sorted_keys_differ ms m n i j :
  StronglySorted member_lt ms -> ms !! i = Some m -> ms !! j = Some n ->
  portable_member_sort_key m = portable_member_sort_key n -> i = j.
Proof.
  intros Hs. assert (NoDup (map portable_member_sort_key ms)) as Hnd.
  { apply strictly_sorted. by apply (sorted_on key_lt). }
  intros Hi Hj Hk. eapply NoDup_lookup; [exact Hnd|..]; rewrite list_lookup_fmap, ?Hi, ?Hj; cbn; by rewrite ?Hk.
Qed.

(** What each table of the collection holds. *)
Lemma gather_records ms k v :
  co_records (gather ms) !! k = Some v -> M_record v ∈ ms /\ record_key_of v = k.
Proof.
  induction ms as [|m ms IH] using rev_ind; [unfold gather; cbn; by rewrite lookup_empty|]. rewrite gather_snoc.
  intros Hv. setoid_rewrite elem_of_app. destruct m as [w|e|b|x]; cbn [gathered co_records] in Hv; try (apply IH in Hv; tauto).
  apply lookup_insert_Some in Hv as [[<- ->]|[_ Hv]]; [|apply IH in Hv; tauto]. split; [right; by left|done].
Qed.

Lemma gather_branches ms id b : co_branches (gather ms) !! id = Some b -> M_branch b ∈ ms /\ bv_id b = id.
Proof.
  induction ms as [|m ms IH] using rev_ind; [unfold gather; cbn; by rewrite lookup_empty|]. rewrite gather_snoc.
  intros Hv. setoid_rewrite elem_of_app. destruct m as [w|e|c|x]; cbn [gathered co_branches] in Hv; try (apply IH in Hv; tauto).
  apply lookup_insert_Some in Hv as [[<- ->]|[_ Hv]]; [|apply IH in Hv; tauto]. split; [right; by left|done].
Qed.

Lemma gather_links ms : co_memberships (gather ms) = member_links ms.
Proof.
  induction ms as [|m ms IH] using rev_ind; [done|]. rewrite gather_snoc. unfold member_links in *. rewrite omap_app.
  destruct m; cbn [gathered co_memberships omap list_omap]; by rewrite IH, ?app_nil_r.
Qed.

Lemma events_snoc_of ms m k :
  events_of (ms ++ [m]) k
  = events_of ms k ++ match m with M_history e => if decide (event_key_of e = k) then [e] else [] | _ => [] end.
Proof. unfold events_of. rewrite omap_app. destruct m as [v|e|b|x]; cbn [omap list_omap]; try done. by destruct (decide _). Qed.

Lemma gather_histories ms k :
  co_histories (gather ms) !! k = match events_of ms k with [] => None | evs => Some evs end.
Proof.
  induction ms as [|m ms IH] using rev_ind; [done|]. rewrite gather_snoc, events_snoc_of.
  destruct m as [v|e|b|x]; cbn [gathered co_histories]; rewrite ?app_nil_r; try exact IH.
  destruct (decide (event_key_of e = k)) as [<-|Hk].
  - rewrite lookup_insert_eq, IH. by destruct (events_of ms _).
  - by rewrite lookup_insert_ne, IH, app_nil_r.
Qed.

(** In strict order every member is in its table. *)
Lemma sorted_record_at ms v :
  StronglySorted member_lt ms -> M_record v ∈ ms ->
  co_records (gather ms) !! record_key_of v = Some v.
Proof.
  induction ms as [|m ms IH] using rev_ind; [by intros _ ?%elem_of_nil|]. rewrite gather_snoc.
  intros Hs Hv. pose proof (sorted_keys_differ (ms ++ [m]) (M_record v) m) as Hd. apply elem_of_app in Hv as [Hv|Hv].
  - assert (co_records (gather ms) !! record_key_of v = Some v) as Hat.
    { apply IH; [exact (proj1 (proj1 (sorted_snoc _ _ _) Hs))|done]. }
    destruct m as [w|e|b|x]; cbn [gathered co_records]; try done. rewrite lookup_insert_ne; [done|]. intros Hk.
    apply list_elem_of_lookup in Hv as [i Hi].
    assert (i = length ms) as ->.
    { apply (Hd i (length ms) Hs); [by apply lookup_app_l_Some|by rewrite list_lookup_middle|].
      unfold record_key_of in Hk. injection Hk as Hke Hki. cbn [portable_member_sort_key]. by rewrite Hke, Hki. }
    by rewrite lookup_ge_None_2 in Hi.
  - apply list_elem_of_singleton in Hv as <-. cbn [gathered co_records]. by rewrite lookup_insert_eq.
Qed.

Lemma sorted_branch_at ms b :
  StronglySorted member_lt ms -> M_branch b ∈ ms -> co_branches (gather ms) !! bv_id b = Some b.
Proof.
  induction ms as [|m ms IH] using rev_ind; [by intros _ ?%elem_of_nil|]. rewrite gather_snoc.
  intros Hs Hv. pose proof (sorted_keys_differ (ms ++ [m]) (M_branch b) m) as Hd. apply elem_of_app in Hv as [Hv|Hv].
  - assert (co_branches (gather ms) !! bv_id b = Some b) as Hat by (apply IH; [exact (proj1 (proj1 (sorted_snoc _ _ _) Hs))|done]).
    destruct m as [w|e|c|x]; cbn [gathered co_branches]; try done. rewrite lookup_insert_ne; [done|]. intros Hk.
    apply list_elem_of_lookup in Hv as [i Hi].
    assert (i = length ms) as ->.
    { apply (Hd i (length ms) Hs); [by apply lookup_app_l_Some|by rewrite list_lookup_middle|].
      cbn [portable_member_sort_key]. by rewrite Hk. }
    by rewrite lookup_ge_None_2 in Hi.
  - apply list_elem_of_singleton in Hv as <-. cbn [gathered co_branches]. by rewrite lookup_insert_eq.
Qed.

(** ** Walks up the parents *)
Fixpoint up_path (bs : gmap UUID BranchValue) (parent : option UUID) (path : list UUID) : Prop :=
  match path, parent with
  | [], None => True
  | p :: path', Some q => p = q /\ exists b, bs !! p = Some b /\ up_path bs (bv_parent b) path'
  | _, _ => False
  end.

Lemma up_path_unique bs parent p q : up_path bs parent p -> up_path bs parent q -> p = q.
Proof.
  revert parent q. induction p as [|x p IH]; intros [y|] [|z q]; cbn [up_path]; try done.
  intros [-> (b & Hb & Hp)] [-> (c & Hc & Hq)]. f_equal. rewrite Hb in Hc. injection Hc as <-. by eapply IH.
Qed.

Lemma up_path_below bs parent p x : up_path bs parent p -> x ∈ p ->
  exists b q, bs !! x = Some b /\ up_path bs (bv_parent b) q /\ (length q < length p)%nat.
Proof.
  revert parent. induction p as [|y p IH]; intros [z|]; cbn [up_path]; try (by intros ? ?%elem_of_nil); [|done].
  intros [<- (b & Hb & Hp)] [->|Hx]%elem_of_cons; [by exists b, p; cbn [length]; auto with lia|].
  destruct (IH _ Hp Hx) as (c & q & Hc & Hq & Hl). exists c, q. cbn [length]. by auto with lia.
Qed.

Lemma up_path_above bs (start : UUID) b p : bs !! start = Some b -> up_path bs (bv_parent b) p -> start ∉ p.
Proof.
  intros Hb Hp Hin. destruct (up_path_below _ _ _ _ Hp Hin) as (c & q & Hc & Hq & Hl). rewrite Hb in Hc.
  injection Hc as <-. rewrite (up_path_unique _ _ _ _ Hp Hq) in Hl. lia.
Qed.

Lemma up_path_NoDup bs parent p : up_path bs parent p -> NoDup p.
Proof.
  revert parent. induction p as [|x p IH]; intros [y|]; cbn [up_path]; try done; [constructor|].
  intros [<- (b & Hb & Hp)]. constructor; [by eapply up_path_above|by eapply IH].
Qed.

Lemma path_size {A} (bs : gmap UUID A) (p : list UUID) :
  NoDup p -> (forall x, x ∈ p -> is_Some (bs !! x)) -> (length p <= size bs)%nat.
Proof.
  intros Hnd Hp. rewrite <- size_dom. rewrite <- (size_list_to_set (C := gset UUID) p) by done.
  apply subseteq_size. intros x Hx%elem_of_list_to_set. by apply elem_of_dom, Hp.
Qed.

Lemma up_path_size bs parent p : up_path bs parent p -> (length p <= size bs)%nat.
Proof.
  intros Hp. apply path_size; [by eapply up_path_NoDup|]. intros x Hx.
  destruct (up_path_below _ _ _ _ Hp Hx) as (b & _ & Hb & _). by exists b.
Qed.

(** The walk finds the way up, whatever is left of the fuel. *)
Lemma parent_walk_complete bs start fuel seen parent path :
  up_path bs parent path -> (length path <= fuel)%nat -> start ∉ path -> (forall x, x ∈ path -> x ∉ seen) ->
  parent_walk fuel bs start seen parent = Some true.
Proof.
  revert fuel seen parent. induction path as [|p path IH]; intros fuel seen [q|]; cbn [up_path]; try done; [by destruct fuel|].
  intros Hpq Hl Hs Hd. pose proof (up_path_NoDup bs (Some q) (p :: path) Hpq) as [Hnew _]%NoDup_cons.
  destruct Hpq as [<- (b & Hb & Hp)]. cbn [length] in Hl. destruct fuel as [|fuel]; [lia|]. cbn [parent_walk].
  rewrite bool_decide_false by (apply Hd; by left).
  destruct (N.eqb_spec p start) as [->|_]; [by destruct Hs; left|]. cbn [orb]. rewrite Hb.
  apply IH; [done|lia|by intros ?; apply Hs; right|]. intros x Hx. rewrite elem_of_cons. intros [->|?]; [done|].
  by apply (Hd x); [right|].
Qed.

Lemma parent_walk_sound bs start fuel seen parent :
  parent_walk fuel bs start seen parent = Some true -> exists path, up_path bs parent path.
Proof.
  revert seen parent. induction fuel as [|fuel IH]; intros seen [p|]; cbn [parent_walk]; try (by exists []).
  - destruct (_ || _); [done|]. by destruct (bs !! p).
  - destruct (_ || _); [done|]. destruct (bs !! p) as [b|] eqn:Hb; [|done]. intros [path Hp]%IH.
    exists (p :: path). cbn. split; [done|]. by exists b.
Qed.

(** The fuel of a walk is enough for every table of branches. *)
Lemma parent_walk_total bs start fuel seen parent :
  NoDup seen -> (forall x, x ∈ seen -> is_Some (bs !! x)) -> (size bs <= fuel + length seen)%nat ->
  parent_walk fuel bs start seen parent <> None.
Proof.
  revert seen parent. induction fuel as [|fuel IH]; intros seen [p|] Hnd Hin Hl; cbn [parent_walk]; try done;
    case_bool_decide as Hp; try done; cbn [orb]; destruct (p =? start)%N; try done;
    destruct (bs !! p) as [b|] eqn:Hb; try done.
  all: assert (NoDup (p :: seen)) as Hnd' by (by constructor).
  all: assert (forall x, x ∈ p :: seen -> is_Some (bs !! x)) as Hin' by (intros x [->|Hx]%elem_of_cons; [by exists b|by apply Hin]).
  - pose proof (path_size bs (p :: seen) Hnd' Hin') as Hs. cbn [length] in Hs. lia.
  - apply IH; [done|done|]. cbn [length]. lia.
Qed.

(** A branch in a transfer whose way up ends. *)
Inductive rooted_in (ms : list PortableStoreMember) : BranchValue -> Prop :=
| rooted_top b : bv_parent b = None -> rooted_in ms b
| rooted_below b c : bv_parent b = Some (bv_id c) -> M_branch c ∈ ms -> rooted_in ms c -> rooted_in ms b.

Lemma branch_rooted_spec ms b :
  StronglySorted member_lt ms -> M_branch b ∈ ms ->
  branch_rooted (co_branches (gather ms)) b = true <-> rooted_in ms b.
Proof.
  intros Hs Hb. unfold branch_rooted. rewrite bool_decide_eq_true. split.
  - intros [path Hp]%parent_walk_sound. clear Hb. revert b Hp.
    induction path as [|x path IH]; intros b; cbn [up_path]; destruct (bv_parent b) as [y|] eqn:Hpar; try done; [by left|].
    intros [<- (c & [Hc <-]%gather_branches & Hp)]. eapply rooted_below; [done|done|by apply IH].
  - intros Hr. assert (exists path, up_path (co_branches (gather ms)) (bv_parent b) path) as [path Hp].
    { clear Hb. induction Hr as [b Hpar|b c Hpar Hc _ [path Hp]]; rewrite Hpar; [by exists []|].
      exists (bv_id c :: path). split; [done|]. exists c. split; [by apply sorted_branch_at|done]. }
    apply (parent_walk_complete _ _ _ _ _ path); [done|by eapply up_path_size| |by intros x _ ?%elem_of_nil].
    eapply up_path_above; [by apply sorted_branch_at|done].
Qed.

(** ** Histories and memberships of a transfer *)
Record chain_ok (evs : list RecordHistoryEvent) (current : option RecordValue) : Prop := {
  ch_some : evs <> [];
  ch_versions : map he_version evs = map Z.of_nat (seq 1 (length evs));
  ch_create : forall i e, evs !! i = Some e -> he_kind e = create_event <-> i = 0%nat;
  ch_delete : forall i e, evs !! i = Some e -> he_kind e = delete_event -> S i = length evs /\ current = None;
  ch_row : match current with
           | Some v => rv_version v = Z.of_nat (length evs)
           | None => forall e, last evs = Some e -> he_kind e = delete_event
           end
}.

Lemma create_not_delete : create_event <> delete_event.
Proof. done. Qed.

Lemma forallb_lookup {A} (f : A -> bool) l : forallb f l = true <-> forall i x, l !! i = Some x -> f x = true.
Proof.
  rewrite forallb_forall. split; [intros Hf i x Hi; apply Hf, list_elem_of_In; by eapply list_elem_of_lookup_2|].
  intros Hf x [i Hi]%list_elem_of_In%list_elem_of_lookup. by apply (Hf i).
Qed.

Lemma last_version evs e :
  map he_version evs = map Z.of_nat (seq 1 (length evs)) -> last evs = Some e -> he_version e = Z.of_nat (length evs).
Proof.
  intros Hv Hl. destruct evs as [|e' evs _] using rev_ind; [done|]. rewrite last_snoc in Hl. injection Hl as ->.
  rewrite length_app, seq_app, !map_app in Hv. apply app_inj_tail in Hv as [_ Hv]. rewrite Hv, length_app. cbn. lia.
Qed.

Lemma history_consistent_spec records k evs :
  history_consistent records (k, evs) = true <-> chain_ok evs (records !! k).
Proof.
  unfold history_consistent. cbn [fst snd]. rewrite !andb_true_iff, !bool_decide_eq_true, !forallb_lookup.
  setoid_rewrite negb_true_iff. setoid_rewrite bool_decide_eq_false. split.
  - intros [[[[Hv Hc] Ht] Hd] Hl]. destruct evs as [|e0 evs0 _] using rev_ind; [done|]. rewrite last_snoc in Hl.
    rewrite removelast_last in Hd.
    assert (forall i e, (evs0 ++ [e0]) !! i = Some e -> he_kind e = create_event <-> i = 0%nat) as Hcr.
    { intros i e Hi. destruct (evs0 ++ [e0]) as [|e1 evs1]; [done|]. apply bool_decide_eq_true in Hc.
      destruct i as [|i]; cbn in Hi; [by injection Hi as <-|]. split; [|done]. intros He. by apply (Ht i e Hi) in He. }
    split; [by destruct evs0|done|exact Hcr|..].
    + intros i e [Hi|[Hi Hx]]%lookup_app_Some Hk; [by apply (Hd i e) in Hi|].
      apply list_lookup_singleton_Some in Hx as [Hz <-]. rewrite length_app. cbn [length]. split; [lia|].
      destruct (records !! k); [|done]. rewrite bool_decide_true in Hl by done. done.
    + destruct (records !! k) as [v|].
      * apply andb_true_iff in Hl as [_ Hl]. apply Z.eqb_eq in Hl. rewrite Hl. apply last_version; [done|by rewrite last_snoc].
      * intros e. rewrite last_snoc. intros [= <-]. by apply bool_decide_eq_true in Hl.
  - intros [Hne Hv Hc Hd Hr]. destruct evs as [|e0 evs0 _] using rev_ind; [done|]. rewrite last_snoc in *.
    rewrite removelast_last.
    assert (forall i e, evs0 !! i = Some e -> he_kind e <> delete_event) as Hnd.
    { intros i e Hi Hk. destruct (Hd i e) as [Hl _]; [by apply lookup_app_l_Some|done|].
      rewrite length_app in Hl. cbn in Hl. apply lookup_lt_Some in Hi. lia. }
    split_and!; [done|..|exact Hnd|].
    + destruct (evs0 ++ [e0]) as [|e1 evs1]; [done|]. apply bool_decide_eq_true. by apply (Hc 0%nat).
    + intros i e Hi He. destruct (evs0 ++ [e0]) as [|e1 evs1]; [done|]. by apply (Hc (S i)) in He.
    + destruct (records !! k) as [v|]; [|apply bool_decide_eq_true; by apply Hr].
      rewrite bool_decide_false; [|intros He; destruct (Hd (length evs0) e0); [by rewrite list_lookup_middle|done|done]].
      cbn [negb andb]. rewrite Hr. apply Z.eqb_eq. symmetry. apply last_version; [done|by rewrite last_snoc].
Qed.

Definition link_pair (x : BranchMembership) : UUID * record_key := (ml_branch x, link_key_of x).
Definition primary_links (l : list BranchMembership) : list BranchMembership := filter (fun x => ml_role x = Primary) l.

(** Values that are new to a set that grows by each. *)
Definition all_new {A B} `{Countable B} (f : A -> B) (X : gset B) (l : list A) : Prop :=
  (forall y, y ∈ l -> f y ∉ X) /\ NoDup (map f l).

Lemma all_new_cons {A B} `{Countable B} (f : A -> B) X x l :
  ((f x ∉ X) /\ all_new f ({[ f x ]} ∪ X) l) <-> all_new f X (x :: l).
Proof.
  unfold all_new. cbn [map]. rewrite NoDup_cons. setoid_rewrite elem_of_cons.
  setoid_rewrite not_elem_of_union. setoid_rewrite not_elem_of_singleton. split.
  - intros (Hx & Hl & Hnd). split_and!; [|intros (y & Hf & Hy)%list_elem_of_fmap|done].
    + intros y [->|Hy]; [done|by apply Hl].
    + by destruct (Hl y Hy) as [Hne _].
  - intros (Hl & Hx & Hnd). split_and!; [by apply Hl; left| |done].
    intros y Hy. split; [|by apply Hl; right]. intros Hf. apply Hx. apply list_elem_of_fmap. by exists y.
Qed.

Lemma memberships_ok_spec c pairs primaries l :
  memberships_ok c pairs primaries l = true <->
  (forall x, x ∈ l -> is_Some (co_branches c !! ml_branch x) /\ is_Some (co_records c !! link_key_of x))
  /\ all_new link_pair pairs l /\ all_new link_key_of primaries (primary_links l).
Proof.
  revert pairs primaries. induction l as [|x l IH]; intros pairs primaries; cbn [memberships_ok].
  - split; [intros _|done]. unfold all_new. split_and!; try (by intros x ?%elem_of_nil); constructor.
  - rewrite !andb_true_iff, !negb_true_iff, !bool_decide_eq_true, bool_decide_eq_false, IH. clear IH.
    rewrite andb_false_iff, !bool_decide_eq_false. fold (link_key_of x). fold (link_pair x).
    rewrite <- all_new_cons. unfold primary_links. rewrite filter_cons. setoid_rewrite elem_of_cons.
    destruct (decide (ml_role x = Primary)) as [Hp|Hp].
    + rewrite bool_decide_true, <- all_new_cons by done. split; intros Hall; decompose [and or] Hall; split_and!; try done;
        first [by auto|by right|by intros y [->|Hy]; auto|naive_solver].
    + rewrite bool_decide_false by done. split; intros Hall; decompose [and or] Hall; split_and!; try done;
        first [by auto|by left|by intros y [->|Hy]; auto|naive_solver].
Qed.

Lemma NoDup_map_spec {A B} (f : A -> B) (l : list A) :
  NoDup l -> NoDup (map f l) <-> (forall x y, x ∈ l -> y ∈ l -> f x = f y -> x = y).
Proof.
  intros Hl. split; [|intros Hf; by apply NoDup_fmap_2_strong].
  intros Hnd x y [i Hi]%list_elem_of_lookup [j Hj]%list_elem_of_lookup Hf.
  assert (i = j) as ->; [|congruence].
  eapply NoDup_lookup; [exact Hnd|..]; rewrite list_lookup_fmap, ?Hi, ?Hj; cbn; by rewrite ?Hf.
Qed.

Lemma elem_of_member_links ms x : x ∈ member_links ms <-> M_membership x ∈ ms.
Proof.
  unfold member_links. rewrite list_elem_of_omap. split; [|by exists (M_membership x)].
  intros ([v|e|b|y] & Hin & Hm); try done. by injection Hm as ->.
Qed.

Lemma member_links_NoDup ms : StronglySorted member_lt ms -> NoDup (member_links ms).
Proof.
  induction 1 as [|m ms Hs IH Hm]; [constructor|]. unfold member_links in *. cbn [omap list_omap].
  destruct m as [v|e|b|x]; try done. constructor; [|done]. intros Hin%elem_of_member_links.
  rewrite Forall_forall in Hm. by destruct (Hm _ Hin) as [_ ?].
Qed.

(** ** The contract of a transfer *)
Section transfers.
Context `{FloatRepr} `{IsoDates}.

(** What makes a list of members the whole of one logical store: it is bounded
    and in strict canonical order; records and snapshots are what validation
    returns; the history of each record is the chain of its versions up to the
    record or its deletion; the parents of a branch lead to a root; memberships
    join members, one per pair, and one primary per record. *)
Record TransferOK (sp : RecordSpecification) (ms : list PortableStoreMember) : Prop := {
  tr_size : Z.of_nat (length ms) <= MAX_STORE_MEMBERS;
  tr_order : StronglySorted member_lt ms;
  tr_checked : forall m, m ∈ ms -> member_checked sp m = true;
  tr_chains : forall k, events_of ms k = [] \/ exists current, chain_ok (events_of ms k) current
    /\ forall v, (M_record v ∈ ms /\ record_key_of v = k) <-> current = Some v;
  tr_evidence : forall v, M_record v ∈ ms -> events_of ms (record_key_of v) <> [];
  tr_rooted : forall b, M_branch b ∈ ms -> rooted_in ms b;
  tr_links : forall x, M_membership x ∈ ms ->
    (exists b, M_branch b ∈ ms /\ bv_id b = ml_branch x)
    /\ (exists v, M_record v ∈ ms /\ record_key_of v = link_key_of x);
  tr_pairs : forall x y, M_membership x ∈ ms -> M_membership y ∈ ms -> link_pair x = link_pair y -> x = y;
  tr_primary : forall x y, M_membership x ∈ ms -> M_membership y ∈ ms ->
    ml_role x = Primary -> ml_role y = Primary -> link_key_of x = link_key_of y -> x = y
}.

Lemma forallb_map_to_list {K A} `{Countable K} (f : K * A -> bool) (m : gmap K A) :
  forallb f (map_to_list m) = true <-> forall k x, m !! k = Some x -> f (k, x) = true.
Proof.
  rewrite forallb_forall. split.
  - intros Hf k x Hk. apply Hf, list_elem_of_In. by apply elem_of_map_to_list.
  - intros Hf [k x] Hin%list_elem_of_In%elem_of_map_to_list. by apply Hf.
Qed.

Section gathered.
Context (ms : list PortableStoreMember) (Hs : StronglySorted member_lt ms).

Lemma record_at k v : co_records (gather ms) !! k = Some v <-> M_record v ∈ ms /\ record_key_of v = k.
Proof. split; [apply gather_records|]. intros [Hv <-]. by apply sorted_record_at. Qed.

Lemma branch_at id b : co_branches (gather ms) !! id = Some b <-> M_branch b ∈ ms /\ bv_id b = id.
Proof. split; [apply gather_branches|]. intros [Hb <-]. by apply sorted_branch_at. Qed.

Lemma chains_spec :
  forallb (history_consistent (co_records (gather ms))) (map_to_list (co_histories (gather ms))) = true <->
  forall k, events_of ms k = [] \/ exists current, chain_ok (events_of ms k) current
    /\ forall v, (M_record v ∈ ms /\ record_key_of v = k) <-> current = Some v.
Proof.
  rewrite forallb_map_to_list. setoid_rewrite gather_histories. setoid_rewrite history_consistent_spec. split.
  - intros Hf k. specialize (Hf k). destruct (events_of ms k) as [|e evs]; [by left|right].
    exists (co_records (gather ms) !! k). split; [by apply Hf|]. intros v. by rewrite <- record_at.
  - intros Hf k evs Hk. destruct (Hf k) as [Hk'|(current & Hc & Hv)]; [by rewrite Hk' in Hk|].
    destruct (events_of ms k) as [|e evs']; [done|]. injection Hk as <-.
    assert (co_records (gather ms) !! k = current) as ->; [|done].
    apply option_eq. intros v. by rewrite record_at, Hv.
Qed.

Lemma evidence_spec :
  forallb (fun e : record_key * RecordValue => bool_decide (is_Some (co_histories (gather ms) !! e.1)))
    (map_to_list (co_records (gather ms))) = true <->
  forall v, M_record v ∈ ms -> events_of ms (record_key_of v) <> [].
Proof.
  rewrite forallb_map_to_list. cbn [fst]. setoid_rewrite bool_decide_eq_true. setoid_rewrite gather_histories.
  setoid_rewrite record_at. split.
  - intros Hf v Hv He. specialize (Hf _ v (conj Hv eq_refl)). rewrite He in Hf. by destruct Hf.
  - intros Hf k v [Hv <-]. specialize (Hf v Hv). by destruct (events_of _ _).
Qed.

Lemma roots_spec :
  forallb (fun e : UUID * BranchValue => branch_rooted (co_branches (gather ms)) e.2) (map_to_list (co_branches (gather ms)))
    = true <-> forall b, M_branch b ∈ ms -> rooted_in ms b.
Proof.
  rewrite forallb_map_to_list. cbn [snd]. setoid_rewrite branch_at. split.
  - intros Hf b Hb. apply branch_rooted_spec; [done|done|]. by apply (Hf (bv_id b)).
  - intros Hf id b [Hb _]. apply branch_rooted_spec; auto.
Qed.

Lemma links_spec :
  memberships_ok (gather ms) ∅ ∅ (co_memberships (gather ms)) = true <->
  (forall x, M_membership x ∈ ms ->
    (exists b, M_branch b ∈ ms /\ bv_id b = ml_branch x) /\ (exists v, M_record v ∈ ms /\ record_key_of v = link_key_of x))
  /\ (forall x y, M_membership x ∈ ms -> M_membership y ∈ ms -> link_pair x = link_pair y -> x = y)
  /\ (forall x y, M_membership x ∈ ms -> M_membership y ∈ ms ->
        ml_role x = Primary -> ml_role y = Primary -> link_key_of x = link_key_of y -> x = y).
Proof.
  rewrite memberships_ok_spec, gather_links. unfold all_new, is_Some. setoid_rewrite branch_at. setoid_rewrite record_at.
  rewrite !NoDup_map_spec by (try apply list.NoDup_filter; by apply member_links_NoDup).
  unfold primary_links. setoid_rewrite list_elem_of_filter. setoid_rewrite elem_of_member_links.
  setoid_rewrite elem_of_empty. split.
  - intros (Hl & [_ Hp] & _ & Hq). split_and!; [done|done|]. intros x y Hx Hy Hrx Hry. by apply Hq.
  - intros (Hl & Hp & Hq). split_and!; [done|by intros x _ []|done|by intros x _ []|].
    intros x y [Hrx Hx] [Hry Hy]. by apply Hq.
Qed.
End gathered.

Lemma collect_gather sp ms :
  collect sp nothing_collected ms = if forallb (member_checked sp) ms then Some (gather ms) else None.
Proof. apply collect_gathers. Qed.

Lemma all_checked sp ms : forallb (member_checked sp) ms = true <-> forall m, m ∈ ms -> member_checked sp m = true.
Proof. rewrite forallb_forall. by setoid_rewrite <- list_elem_of_In. Qed.

Lemma validate_transfer sp ms ms' : validate_portable_members sp ms = Some ms' <-> ms' = ms /\ TransferOK sp ms.
Proof.
  unfold validate_portable_members. rewrite collect_gather.
  destruct (Z.leb_spec (Z.of_nat (length ms)) MAX_STORE_MEMBERS) as [Hz|Hz]; cbn [andb negb];
    [|split; [done|intros [_ [Ht _ _ _ _ _ _ _ _]]; lia]].
  destruct (canonical_order ms) eqn:Hc; cbn [negb];
    [|split; [done|intros [_ [_ Ht _ _ _ _ _ _ _]]; apply canonical_order_spec in Ht; congruence]].
  apply canonical_order_spec in Hc. destruct (forallb (member_checked sp) ms) eqn:Hm; cbn [mbind option_bind];
    [|split; [done|intros [_ [_ _ Ht _ _ _ _ _ _]]; apply all_checked in Ht; congruence]].
  destruct (_ && _) eqn:Hall.
  - rewrite !andb_true_iff, chains_spec, evidence_spec, roots_spec, links_spec in Hall by done.
    destruct Hall as [[[Hch Hev] Hr] (Hl & Hp & Hq)]. split; [|by intros [-> _]]. intros [= <-].
    split; [done|]. split; try done. by apply all_checked.
  - split; [done|]. intros [_ [_ _ _ Hch Hev Hr Hl Hp Hq]]. apply not_true_iff_false in Hall. destruct Hall.
    rewrite !andb_true_iff, chains_spec, evidence_spec, roots_spec, links_spec by done. by split_and!.
Qed.
End transfers.
