(* ===== verification/PortableSnapshot.v ===== *)
(** * PortableSnapshot: the snapshot of a consistent store is a transfer

    The rows [_SQLiteSnapshotReader] reads, in the order of its queries, are in
    the canonical order of transfers, and the invariant of the store
    ([StoreInvariant]) is what [validate_portable_members] asks of them. *)
From S2P Require Import Relational.
From S2P Require Export PortableStoreSpec PagesSpec.
From S2P Require Import Prelude Values Json JsonText Sha256 Manifest.

(** ** Ids in texts and in hexadecimals order alike *)
Lemma str_leb_cut (a a' b b' : pystr) c :
  length a = length a' -> str_leb (a ++ c :: b) (a' ++ c :: b') = str_leb (a ++ b) (a' ++ b').
Proof.
  revert a'. induction a as [|x a IH]; intros [|x' a'] Hl; try discriminate Hl.
  - cbn [app str_leb]. by rewrite N.ltb_irrefl, N.eqb_refl.
  - cbn [app str_leb]. injection Hl as Hl. by rewrite (IH a' Hl).
Qed.

Lemma uuid_str_leb u v : str_leb (uuid_str u) (uuid_str v) = str_leb (uuid_hex u) (uuid_hex v).
Proof.
  unfold uuid_str. cbv zeta. set (h := uuid_hex u). set (k := uuid_hex v).
  assert (length h = 32%nat /\ length k = 32%nat) as [Hh Hk] by (split; apply length_hex_digits).
  cbn [app]. rewrite str_leb_cut by (by rewrite !length_take, Hh, Hk).
  rewrite !(app_assoc (take 8 _)). rewrite str_leb_cut by (by rewrite !length_app, !length_take, !length_drop, Hh, Hk).
  rewrite !(app_assoc (_ ++ take 4 (drop 8 _))).
  rewrite str_leb_cut by (by rewrite !length_app, !length_take, !length_drop, Hh, Hk).
  rewrite !(app_assoc (_ ++ take 4 (drop 12 _))).
  rewrite str_leb_cut by (by rewrite !length_app, !length_take, !length_drop, Hh, Hk).
  rewrite <- !app_assoc. by rewrite !groups.
Qed.

Lemma uuid_str_hex u v : uuid_str u = uuid_str v <-> uuid_hex u = uuid_hex v.
Proof.
  split; intros Heq.
  - apply (anti_symm str_le); unfold str_le; rewrite <- uuid_str_leb, Heq; apply (reflexivity (R := str_le)).
  - apply (anti_symm str_le); unfold str_le; rewrite uuid_str_leb, Heq; apply (reflexivity (R := str_le)).
Qed.

Lemma key_lt_cons x a y b : key_lt (x :: a) (y :: b) <-> (x = y /\ key_lt a b) \/ (x <> y /\ part_leb x y = true).
Proof.
  unfold key_lt. cbn [key_leb]. case_bool_decide as E; [subst|]; naive_solver.
Qed.

Lemma text_inj s t : KeyText s = KeyText t -> s = t.
Proof. by intros [=]. Qed.

Lemma key_lt_part x y a b a' b' :
  (key_lt a b -> key_lt a' b') -> key_lt (x :: a) (y :: b) -> key_lt (x :: a') (y :: b').
Proof. rewrite !key_lt_cons. naive_solver. Qed.

Lemma key_lt_uuid u v a b a' b' :
  (key_lt a b -> key_lt a' b') ->
  key_lt (KeyText (uuid_str u) :: a) (KeyText (uuid_str v) :: b) -> key_lt (KeyText (uuid_hex u) :: a') (KeyText (uuid_hex v) :: b').
Proof.
  rewrite !key_lt_cons. cbn [part_leb]. rewrite uuid_str_leb. intros Hab [[Hu%text_inj Hk]|[Hu Hk]].
  - left. split; [|by apply Hab]. by rewrite (proj1 (uuid_str_hex u v) Hu).
  - right. split; [|done]. intros Heq%text_inj. apply Hu. by rewrite (proj2 (uuid_str_hex u v) Heq).
Qed.

Lemma key_lt_text a b : key_lt [KeyText a] [KeyText b] <-> str_leb a b = true /\ a <> b.
Proof.
  rewrite key_lt_cons. cbn [part_leb]. split.
  - intros [[_ [_ Hk]]|[Hne Hle]]; [done|]. split; [done|]. by intros ->.
  - intros [Hle Hne]. right. split; [|done]. by intros Heq%text_inj.
Qed.

Lemma sorted_image {A B} (R : relation A) (S : relation B) (P : A -> B -> Prop) l k :
  StronglySorted R l -> Forall2 P l k -> (forall x y a b, x ∈ l -> y ∈ l -> P x a -> P y b -> R x y -> S a b) ->
  StronglySorted S k.
Proof.
  intros Hl. revert k. induction Hl as [|x l Hl IH Hx]; intros k Hk HS; inversion Hk as [|? a ? k' Ha Hk']; subst; constructor.
  - apply IH; [done|]. intros y z b c Hy Hz. apply HS; by right.
  - apply Forall_lookup. intros i b Hb. destruct (Forall2_lookup_r _ _ _ _ _ Hk' Hb) as (y & Hy & Hyb).
    rewrite Forall_lookup in Hx. apply list_elem_of_lookup_2 in Hy as Hin.
    apply (HS x y a b); [by left|by right|done|done|by eapply Hx].
Qed.

Lemma StronglySorted_filter {A} (R : relation A) (p : A -> bool) l : StronglySorted R l -> StronglySorted R (List.filter p l).
Proof.
  induction 1 as [|x l Hl IH Hx]; cbn [List.filter]; [constructor|]. destruct (p x); [|done]. constructor; [done|].
  rewrite Forall_forall in *. intros y [Hy _]%list_elem_of_In%filter_In. apply Hx. by apply list_elem_of_In.
Qed.

Lemma sorted_filter {A} (R : relation A) (P : A -> Prop) `{forall x, Decision (P x)} l :
  StronglySorted R l -> StronglySorted R (filter P l).
Proof.
  induction 1 as [|x l Hl IH Hx]; [constructor|]. rewrite filter_cons. destruct (decide (P x)); [|done]. constructor; [done|].
  rewrite Forall_forall in *. intros y [_ Hy]%list_elem_of_filter. by apply Hx.
Qed.

(** Rows with different keys, sorted by them. *)
Lemma rows_sorted {A} (key : A -> list key_part) l :
  NoDup (map key l) -> StronglySorted (fun x y => key_lt (key x) (key y)) (sorted_by key_leb key l).
Proof.
  intros Hnd. apply (sorted_on key_lt). apply strictly_sorted. split.
  - symmetry. apply (sorted_by_id key_leb id). apply (sorted_on (fun a b => key_leb a b = true)).
    apply (sorted_by_sorted key_leb key); [intros a b c; apply key_leb_trans|intros; apply key_leb_total].
  - by rewrite (sorted_by_perm key_leb key).
Qed.

(** ** Accepted fields are equal to themselves *)
Section reflexive.
Context `{FloatRepr} `{IsoDates}.

Lemma strings_eqb items ss : string_items items = Some ss -> py_eqb (JArr items) (JArr items) = true.
Proof.
  unfold string_items. intros Hm%mapM_Some. induction Hm as [|j s items ss Hj _ IH]; [done|].
  destruct j as [|[t|?|?|?]|?|?]; try done. cbn in IH |- *. rewrite bool_decide_true by done. exact IH.
Qed.

Lemma finite_eqb f : is_finite_real (PyFloat f) = true -> SFeqb f f = true.
Proof.
  destruct f as [s|s| |s m e]; try done. intros _. unfold SFeqb, SFcompare.
  destruct s; rewrite Z.compare_refl, Pos.compare_cont_refl; done.
Qed.

Lemma matched_eqb v t : v = JNull \/ matches_type v t = Ok true -> py_eqb v v = true.
Proof.
  intros [->|Ht]; [done|]. destruct v as [|[s|z|f|b]|items|es]; try done.
  - cbn. by rewrite bool_decide_true.
  - cbn. by rewrite Z.eqb_refl.
  - destruct t; try discriminate Ht. change (Ok (E := RecordError) (is_exact_number (PyFloat f)) = Ok true) in Ht.
    injection Ht as Ht. by apply finite_eqb.
  - cbn. by rewrite Z.eqb_refl.
  - destruct t; try discriminate Ht. cbn [matches_type] in Ht. injection Ht as Ht.
    apply andb_true_iff in Ht as [_ Ht]. destruct (string_items items) as [ss|] eqn:E; [|done]. by eapply strings_eqb.
  - by destruct t.
Qed.

Lemma fields_eqb_refl fs : (forall kv, kv ∈ fs -> py_eqb kv.2 kv.2 = true) -> fields_eqb fs fs = true.
Proof.
  unfold fields_eqb. induction fs as [|kv fs IH]; intros Hv; [done|].
  assert (py_eqb (JObj fs) (JObj fs) = true) as Hr by (apply IH; intros x Hx; apply Hv; by right).
  cbn [py_eqb] in Hr |- *. rewrite bool_decide_true by done. rewrite Hv by (by left). exact Hr.
Qed.

Lemma valid_checked sp n fs : validate_create sp n fs = Ok fs -> fields_checked sp n fs = true.
Proof.
  intros Hv. unfold fields_checked. rewrite Hv. apply fields_eqb_refl. intros [k v] Hin. cbn [snd].
  apply validate_record_spec in Hv as (e & _ & [_ _ _ Hi] & _). specialize (Hi _ Hin). unfold check_item in Hi. cbn [fst snd] in Hi.
  destruct (List.find _ _) as [f|]; [|done]. apply (matched_eqb v (fd_type f)).
  destruct v as [|v|items|es]; [by left|..]; right; apply bind_Ok in Hi as (b & Hb & Hi); by apply require_all in Hi as [-> _].
Qed.

Lemma normalised_checked sp n given fs : normalise_fields sp n given = Ok fs -> fields_checked sp n fs = true.
Proof.
  unfold normalise_fields. destruct (spec_entity sp n); [|done]. intros (c & _ & Hv)%bind_Ok.
  apply valid_checked. by apply validate_sorted in Hv as (_ & ? & _).
Qed.
End reflexive.

(** ** What the rows of a snapshot read as *)
Section rows.
Context `{FloatRead} `{IsoDates}.

Lemma decoded_event sp h ev : decode_history sp h = Ok ev ->
  he_entity ev = h_entity h /\ read_id (h_record h) = Some (he_id ev) /\ he_version ev = h_version h
  /\ he_kind ev = h_kind h /\ is_Some (spec_entity sp (h_entity h))
  /\ snapshot_checked sp (he_entity ev) (he_before ev) = true /\ snapshot_checked sp (he_entity ev) (he_after ev) = true.
Proof.
  assert (forall t b, decode_snapshot t sp (h_entity h) = Some b -> snapshot_checked sp (h_entity h) b = true) as Hsnap.
  { intros [t|] b; cbn [decode_snapshot]; [|by intros [= <-]]. intros (raw & _ & Hb)%bind_Some.
    destruct raw as [|?|?|fs]; try done. apply bind_Some in Hb as (given & _ & (fields & Hf%ok_of_Some & [= <-])%bind_Some).
    by eapply normalised_checked. }
  unfold decode_history. rewrite trusted_Ok. intros (e & He & (b & Hb & (a & Ha & (id & Hid & Hd)%bind_Some)%bind_Some)%bind_Some)%bind_Some.
  destruct (_ && _); [done|]. apply bind_Some in Hd as (v & Hv & (t & _ & Hd%ok_of_Some)%bind_Some).
  apply revision_Some in Hv as [-> _].
  unfold make_history_event in Hd. do 3 apply unit_then in Hd as [_ Hd]. apply require_all in Hd as [_ [= <-]].
  cbn. split_and!; try done; by eapply Hsnap.
Qed.

Lemma read_id_at u v : (0 < u < 2 ^ 128)%N -> read_id u = Some v -> v = u.
Proof. intros Hu. rewrite read_id_spec by done. congruence. Qed.
End rows.

(** Members of the image of a list. *)
Lemma image_in {A B} (P : A -> B -> Prop) l k : Forall2 P l k -> forall y, y ∈ k -> exists x, x ∈ l /\ P x y.
Proof.
  intros Hk y [i Hi]%list_elem_of_lookup. destruct (Forall2_lookup_r _ _ _ _ _ Hk Hi) as (x & Hx & Hxy).
  exists x. split; [by eapply list_elem_of_lookup_2|done].
Qed.

Lemma image_of {A B} (P : A -> B -> Prop) l k : Forall2 P l k -> forall x, x ∈ l -> exists y, y ∈ k /\ P x y.
Proof.
  intros Hk x [i Hi]%list_elem_of_lookup. destruct (Forall2_lookup_l _ _ _ _ _ Hk Hi) as (y & Hy & Hxy).
  exists y. split; [by eapply list_elem_of_lookup_2|done].
Qed.

(** Values that are distinct within each class are distinct with their class. *)
Lemma NoDup_classes {A K B} `{EqDecision K} (kf : A -> K) (g : A -> B) (l : list A) :
  (forall k, NoDup (map g (filter (fun x => kf x = k) l))) -> NoDup (map (fun x => (kf x, g x)) l).
Proof.
  induction l as [|x l IH]; intros Hk; cbn [map]; constructor.
  - intros (y & [= Hy Hg] & Hin)%list_elem_of_fmap. specialize (Hk (kf x)). rewrite filter_cons_True in Hk by done.
    cbn [map] in Hk. apply NoDup_cons in Hk as [Hn _]. apply Hn, list_elem_of_fmap. exists y. split; [done|].
    by apply list_elem_of_filter.
  - apply IH. intros k. specialize (Hk k). rewrite filter_cons in Hk. destruct (decide _); [|done].
    by apply NoDup_cons in Hk as [_ ?].
Qed.

Lemma NoDup_of_seq (l : list Z) : l = map Z.of_nat (seq 1 (length l)) -> NoDup l.
Proof. intros ->. apply NoDup_fmap_2; [intros x y; lia|]. apply NoDup_ListNoDup, seq_NoDup. Qed.

Lemma elem_of_concat {A} (ls : list (list A)) x : x ∈ concat ls <-> exists l, l ∈ ls /\ x ∈ l.
Proof. rewrite list_elem_of_In, in_concat. by setoid_rewrite <- list_elem_of_In. Qed.

Section snapshot.
Context `{FloatRead} `{IsoDates}.
Context (sp : RecordSpecification) (principal : pystr) (s : store).

(** The tables are those of the specification, and the ids of rows are those of
    Python's [UUID]. *)
Record Materialised : Prop := {
  mt_specification : detach_specification sp = Ok sp;
  mt_tables : forall e, is_Some (st_tables s !! e) -> is_Some (spec_entity sp e);
  mt_rows : forall e, ids_ok (table_rows s e);
  mt_history : forall h, h ∈ st_history s -> (0 < h_record h < 2 ^ 128)%N
}.
Context (Hm : Materialised) (Hs : StoreOK s).

Definition id_lt (u v : UUID) : Prop := key_lt [KeyText (uuid_hex u)] [KeyText (uuid_hex v)].

Lemma by_id_lt {A} (rows : gmap UUID A) : ids_ok rows -> StronglySorted (fun x y : UUID * A => id_lt x.1 y.1) (by_id rows).
Proof.
  intros Hr%by_id_ordered. eapply (sorted_image _ _ eq); [exact Hr|by apply Forall_Forall2_diag, Forall_true|].
  intros x y _ _ _ _ <- <- Hlt. unfold later, after_id, str_ltb in Hlt. apply negb_true_iff in Hlt.
  apply (key_lt_uuid x.1 y.1 [] [] [] []); [done|]. apply key_lt_text. split.
  - destruct (str_le_total (uuid_str x.1) (uuid_str y.1)) as [Hle|Hle]; [done|]. unfold str_le in Hle. congruence.
  - intros Heq. rewrite Heq in Hlt. pose proof (reflexivity (R := str_le) (uuid_str y.1)) as Hrefl. unfold str_le in Hrefl.
    congruence.
Qed.

Lemma entity_declared e : e ∈ sp_entities sp -> spec_entity sp (re_name e) = Some e.
Proof.
  intros He. destruct (detached_ok _ _ (mt_specification Hm)) as (_ & _ & Hmk). unfold make_specification in Hmk.
  rewrite !require_all in Hmk. destruct Hmk as (_ & Hd & _). apply distinct_spec in Hd.
  unfold spec_entity. destruct (List.find _ _) as [f|] eqn:Ef.
  - apply List.find_some in Ef as [Hf Hn]. rewrite bool_decide_eq_true in Hn. apply list_elem_of_In in Hf.
    f_equal. by apply (proj1 (NoDup_map_spec re_name (sp_entities sp) (NoDup_fmap_1 _ _ Hd)) Hd).
  - apply list_elem_of_In in He. apply (List.find_none _ _ Ef) in He. by rewrite bool_decide_true in He.
Qed.

Lemma entities_sorted : StronglySorted (fun e f => key_lt [KeyText (re_name e)] [KeyText (re_name f)]) (sp_entities sp).
Proof.
  destruct (detached_ok _ _ (mt_specification Hm)) as (_ & _ & Hmk). unfold make_specification in Hmk.
  rewrite !require_all in Hmk. destruct Hmk as (Hall & Hd & _). apply distinct_spec in Hd.
  rewrite !andb_true_iff in Hall. destruct Hall as [[[[[[_ Ho] _] _] _] _] _].
  apply bool_decide_eq_true, sorted_strs_fix in Ho.
  apply (sorted_on (fun a b => key_lt [KeyText a] [KeyText b])).
  induction Ho as [|x l Hl IH Hx]; [constructor|]. apply NoDup_cons in Hd as [Hn Hd]. constructor; [by apply IH|].
  rewrite Forall_forall in *. intros y Hy. apply key_lt_text. split; [by apply Hx|]. by intros ->.
Qed.

(** ** Records *)
Definition record_read (v : RecordValue) : Prop :=
  exists r, find_row s principal (rv_entity v) (rv_id v) = Some r
    /\ decode_record sp principal (rv_entity v) (rv_id v) r = Ok v.

Lemma owned_entry_in t (u : UUID) r :
  (u, r) ∈ owned_entries principal (t_rows t) <-> t_rows t !! u = Some r /\ r_owner_id r = principal.
Proof.
  unfold owned_entries. rewrite list_elem_of_In, filter_In, <- list_elem_of_In, by_id_in, bool_decide_eq_true. done.
Qed.

Lemma find_owned e t (u : UUID) r :
  st_tables s !! e = Some t -> find_row s principal e u = Some r <-> (u, r) ∈ owned_entries principal (t_rows t).
Proof.
  intros Ht. rewrite owned_entry_in. unfold find_row. rewrite (table_rows_at _ _ _ Ht).
  destruct (t_rows t !! u) as [r'|]; [|naive_solver]. case_bool_decide; naive_solver.
Qed.

Lemma record_members_spec e ms : e ∈ sp_entities sp -> record_members sp principal s e = Ok ms ->
  StronglySorted member_lt ms
  /\ (forall m, m ∈ ms <-> exists v, m = M_record v /\ rv_entity v = re_name e /\ record_read v)
  /\ forall (u : UUID) r, find_row s principal (re_name e) u = Some r ->
       exists v, rv_entity v = re_name e /\ rv_id v = u /\ record_read v.
Proof.
  intros He. unfold record_members. destruct (st_tables s !! re_name e) as [t|] eqn:Ht; [|done].
  intros Hms%mapR_Ok. pose proof (mt_rows Hm (re_name e)) as Hids. rewrite (table_rows_at _ _ _ Ht) in Hids.
  assert (forall x m, x ∈ owned_entries principal (t_rows t) ->
    (v ← decode_record sp principal (re_name e) x.1 x.2; Ok (M_record v)) = Ok m ->
    exists v, m = M_record v /\ rv_entity v = re_name e /\ rv_id v = x.1 /\ record_read v) as Hread.
  { intros [u r] m Hx (v & Hv & [= <-])%bind_Ok. cbn [fst snd] in *. exists v.
    pose proof Hv as (e' & raw & ch & _ & _ & Hid & _ & _ & _ & _ & _ & _ & _ & _ & Hent & _)%decode_record_inv.
    assert (rv_id v = u) as Hu by (apply owned_entry_in in Hx as [Hx _]; eapply read_id_at; [apply Hids; by eexists|done]).
    split_and!; [done|done|done|]. exists r. rewrite Hent, Hu. split; [by apply (find_owned _ t)|done]. }
  split_and!.
  - eapply sorted_image; [|exact Hms|].
    + apply StronglySorted_filter. by apply by_id_lt.
    + intros x y a b Hx Hy (v & -> & Hev & Hvx & _)%Hread (w & -> & Hew & Hwy & _)%Hread Hlt; [|done..].
      unfold member_lt. cbn [portable_member_sort_key]. rewrite Hev, Hew, Hvx, Hwy.
      apply key_lt_cons. left. split; [done|]. apply key_lt_cons. by left.
  - intros m. split.
    + intros Hin. destruct (image_in _ _ _ Hms _ Hin) as (x & Hx & Hm'). destruct (Hread _ _ Hx Hm') as (v & -> & Hev & _ & Hv). by exists v.
    + intros (v & -> & Hev & r & Hr & Hd). rewrite Hev in Hr, Hd.
      apply (find_owned _ _ _ _ Ht) in Hr.
      destruct (image_of _ _ _ Hms _ Hr) as (y & Hy & Hry). cbn [fst snd] in Hry. rewrite Hd in Hry. by injection Hry as <-.
  - intros u r Hr%(find_owned _ _ _ _ Ht). destruct (image_of _ _ _ Hms _ Hr) as (y & Hy & Hry).
    destruct (Hread _ _ Hr Hry) as (v & -> & Hev & Hvu & Hv). by exists v.
Qed.

Lemma record_section mss : mapR (record_members sp principal s) (sp_entities sp) = Ok mss ->
  StronglySorted member_lt (concat mss) /\ (forall m, m ∈ concat mss <-> exists v, m = M_record v /\ record_read v)
  /\ forall e (u : UUID) r, find_row s principal e u = Some r -> exists v, rv_entity v = e /\ rv_id v = u /\ record_read v.
Proof.
  intros Hms%mapR_Ok.
  assert (forall e ms, e ∈ sp_entities sp -> record_members sp principal s e = Ok ms ->
    StronglySorted member_lt ms /\ forall m, m ∈ ms <-> exists v, m = M_record v /\ rv_entity v = re_name e /\ record_read v)
    as Hspec by (intros e ms He Hem; by destruct (record_members_spec e ms He Hem) as (? & ? & _)).
  split_and!.
  - pose proof entities_sorted as Hes. revert Hspec.
    induction Hms as [|e ms es mss He Hms' IH]; intros Hspec; cbn [concat]; [constructor|].
    apply StronglySorted_inv in Hes as [Hes Hlt]. apply StronglySorted_app_2.
    + intros x y Hx (ns & Hns & Hy)%elem_of_concat. destruct (image_in _ _ _ Hms' _ Hns) as (f & Hf & Hfns).
      rewrite Forall_forall in Hlt. specialize (Hlt _ Hf).
      apply (proj2 (Hspec e ms ltac:(by left) He)) in Hx as (v & -> & Hv & _).
      apply (proj2 (Hspec f ns ltac:(by right) Hfns)) in Hy as (w & -> & Hw & _).
      unfold member_lt. cbn [portable_member_sort_key]. rewrite Hv, Hw. apply key_lt_text in Hlt as [Hle Hne].
      apply key_lt_cons. left. split; [done|]. apply key_lt_cons. right. split; [|done]. by intros ?%text_inj.
    + by apply (Hspec e ms); [left|].
    + apply IH; [done|]. intros f ns Hf. apply Hspec. by right.
  - intros m. rewrite elem_of_concat. split.
    + intros (ms & Hms' & Hin). destruct (image_in _ _ _ Hms _ Hms') as (e & He & Hem).
      destruct (proj1 (proj2 (Hspec e ms He Hem) m) Hin) as (v & -> & _ & Hv). by exists v.
    + intros (v & -> & Hv). pose proof Hv as (r & _ & Hd). apply decode_record_inv in Hd as (e & _ & _ & Hsp & _).
      apply spec_entity_in in Hsp as [He Hn].
      destruct (image_of _ _ _ Hms _ He) as (ms & Hin & Hem). exists ms. split; [done|].
      apply (proj2 (Hspec e ms He Hem) (M_record v)). by exists v.
  - intros n u r Hr. pose proof Hr as (t & Ht & _)%find_row_at.
    destruct (mt_tables Hm n) as [e He]; [by exists t|]. apply spec_entity_in in He as [He <-].
    destruct (image_of _ _ _ Hms _ He) as (ms & _ & Hem). destruct (record_members_spec e ms He Hem) as (_ & _ & Hall).
    by apply (Hall u r).
Qed.

(** ** Histories *)
Definition event_key (h : history_row) : record_key := (h_entity h, h_record h).

Lemma owned_events (k : record_key) :
  filter (fun h => event_key h = k) (List.filter (fun h => bool_decide (h_principal h = principal)) (st_history s))
  = events s principal k.1 k.2.
Proof.
  unfold events. destruct k as [e u]. cbn [fst snd]. induction (st_history s) as [|h l IH]; cbn [List.filter]; [done|].
  case_bool_decide as Hp; rewrite !filter_cons, IH; repeat case_decide; unfold event_key, of_record in *; naive_solver.
Qed.

Lemma history_rows_distinct :
  NoDup (map history_key (List.filter (fun h => bool_decide (h_principal h = principal)) (st_history s))).
Proof.
  set (l := List.filter _ _). assert (NoDup (map (fun h => (event_key h, h_version h)) l)) as Hnd.
  { apply NoDup_classes. intros [e u]. unfold l. rewrite owned_events. apply NoDup_of_seq. rewrite length_map.
    by apply (ho_versions _ _ (so_history _ (so_records _ Hs) principal e u)). }
  apply NoDup_map_spec; [by eapply NoDup_fmap_1|]. intros x y Hx Hy Hk.
  apply (proj1 (NoDup_map_spec _ _ (NoDup_fmap_1 _ _ Hnd)) Hnd); [done|done|].
  unfold history_key in Hk. assert (forall z, z ∈ l -> (h_record z < 2 ^ 128)%N) as Hids.
  { intros z [Hz _]%list_elem_of_In%filter_In. apply list_elem_of_In in Hz. by apply (mt_history Hm). }
  unfold event_key. pose proof (f_equal (fun k => nth_error k 0) Hk) as He. pose proof (f_equal (fun k => nth_error k 2) Hk) as Hv.
  pose proof (f_equal (fun k => nth_error k 1) Hk) as Hr. cbn [nth_error] in He, Hv, Hr.
  assert (h_record x = h_record y) as ->.
  { apply uuid_text_inj; [by apply Hids|by apply Hids|]. apply text_inj. congruence. }
  congruence.
Qed.

Lemma history_row_order x y : key_lt (history_key x) (history_key y) ->
  key_lt (KeyNum 1 :: [KeyText (h_entity x); KeyText (uuid_hex (h_record x)); KeyNum (h_version x)])
         (KeyNum 1 :: [KeyText (h_entity y); KeyText (uuid_hex (h_record y)); KeyNum (h_version y)]).
Proof.
  intros Hk. apply key_lt_cons. left. split; [done|]. revert Hk. unfold history_key.
  apply key_lt_part, key_lt_uuid. done.
Qed.

Lemma events_of_image l ms k :
  Forall2 (fun h m => exists ev, decode_history sp h = Ok ev /\ m = M_history ev) l ms ->
  (forall h, h ∈ l -> (0 < h_record h < 2 ^ 128)%N) ->
  Forall2 (fun h ev => decode_history sp h = Ok ev) (filter (fun h => event_key h = k) l) (events_of ms k).
Proof.
  intros Hf Hids. induction Hf as [|h m l ms (ev & Hd & ->) Hf IH]; [constructor|].
  specialize (IH (fun x Hx => Hids x (list_elem_of_further _ _ _ Hx))).
  pose proof (decoded_event _ _ _ Hd) as (He & Hid & _). apply read_id_at in Hid; [|apply Hids; by left].
  unfold events_of in *. cbn [omap list_omap]. rewrite filter_cons. unfold event_key at 1, event_key_of. rewrite He, Hid.
  destruct (decide _); cbn [omap list_omap]; [constructor|]; done.
Qed.

Lemma versions_unique (l k : list history_row) :
  l ≡ₚ k -> StronglySorted (fun x y => h_version x < h_version y) l -> StronglySorted (fun x y => h_version x < h_version y) k ->
  l = k.
Proof.
  intros Hp Hl Hk. assert (AntiSymm eq (fun x y : history_row => h_version x < h_version y)) by (intros x y Hxy Hyx; lia).
  by apply (StronglySorted_unique (fun x y => h_version x < h_version y)).
Qed.

Lemma versions_sorted (l : list history_row) :
  map h_version l = map Z.of_nat (seq 1 (length l)) -> StronglySorted (fun x y => h_version x < h_version y) l.
Proof.
  intros Hv. apply (sorted_on Z.lt). rewrite Hv. apply (sorted_on Z.lt Z.of_nat).
  clear Hv. generalize 1%nat. induction (length l) as [|n IH]; intros i; cbn [seq]; [constructor|]. constructor; [apply IH|].
  apply Forall_forall. intros j Hj%elem_of_seq. lia.
Qed.

Lemma history_section ms : history_members sp principal s = Ok ms ->
  StronglySorted member_lt ms
  /\ (forall m, m ∈ ms -> exists ev, m = M_history ev /\ member_checked sp m = true)
  /\ forall k, Forall2 (fun h ev => decode_history sp h = Ok ev) (events s principal k.1 k.2) (events_of ms k).
Proof.
  unfold history_members. set (rows := List.filter _ _). set (l := sorted_by _ _ _). intros Hms%mapR_Ok.
  assert (forall h, h ∈ l -> (0 < h_record h < 2 ^ 128)%N) as Hids.
  { intros h Hh%elem_of_sorted_by. apply list_elem_of_In, filter_In in Hh as [Hh _]. apply list_elem_of_In in Hh. by apply (mt_history Hm). }
  assert (StronglySorted (fun x y => key_lt (history_key x) (history_key y)) l) as Hl by apply rows_sorted, history_rows_distinct.
  assert (Forall2 (fun h m => exists ev, decode_history sp h = Ok ev /\ m = M_history ev) l ms) as Hd.
  { eapply Forall2_impl; [exact Hms|]. intros h m (ev & Hev & [= <-])%bind_Ok. by exists ev. }
  split_and!.
  - eapply sorted_image; [exact Hl|exact Hd|]. intros x y a b Hx Hy (ev & Ha & ->) (ev' & Hb & ->) Hlt.
    apply decoded_event in Ha as (He & Hi & Hv & _). apply decoded_event in Hb as (He' & Hi' & Hv' & _).
    apply read_id_at in Hi; [|by apply Hids]. apply read_id_at in Hi'; [|by apply Hids].
    unfold member_lt. cbn [portable_member_sort_key]. rewrite He, Hi, Hv, He', Hi', Hv'. by apply history_row_order.
  - intros m Hin. destruct (image_in _ _ _ Hd _ Hin) as (h & _ & ev & Hev & ->). exists ev. split; [done|].
    apply decoded_event in Hev as (He & _ & _ & _ & Hsp & Hb & Ha). cbn [member_checked]. rewrite Hb, Ha, He.
    by rewrite bool_decide_true.
  - intros k. pose proof (events_of_image _ _ k Hd Hids) as Hk.
    assert (filter (fun h => event_key h = k) l = events s principal k.1 k.2) as <-; [|done].
    rewrite <- owned_events. apply versions_unique.
    + unfold l. by rewrite (sorted_by_perm key_leb history_key).
    + eapply (sorted_image _ _ eq); [apply (sorted_filter _ (fun h => event_key h = k)), Hl|by apply Forall_Forall2_diag, Forall_true|].
      intros x y _ _ [Hx _]%list_elem_of_filter [Hy _]%list_elem_of_filter <- <- Hlt.
      rewrite <- Hy in Hx. unfold event_key in Hx. injection Hx as He Hr. unfold history_key in Hlt. rewrite He, Hr in Hlt.
      do 2 (apply key_lt_cons in Hlt as [[_ Hlt]|[Hne _]]; [|done]).
      apply key_lt_cons in Hlt as [[_ [_ Hne]]|[Hne Hle]]; [done|]. cbn [part_leb] in Hle. apply Z.leb_le in Hle.
      assert (h_version x <> h_version y) by congruence. lia.
    + rewrite owned_events. apply versions_sorted. apply (ho_versions _ _ (so_history _ (so_records _ Hs) _ _ _)).
Qed.

(** ** Branches and memberships *)
Definition branch_read (b : BranchValue) : Prop :=
  exists r, find_branch (st_branches s) principal (bv_id b) = Some r /\ read_branch (bv_id b, r) = Ok b.

Lemma branch_rows_ids : ids_ok (st_branches s).
Proof. intros id [r Hr]. by destruct (so_forest _ (so_branches _ Hs) id r Hr). Qed.

Lemma branch_section ms : branch_members principal s = Ok ms ->
  StronglySorted member_lt ms /\ (forall m, m ∈ ms <-> exists b, m = M_branch b /\ branch_read b)
  /\ forall (u : UUID) r, find_branch (st_branches s) principal u = Some r -> exists b, bv_id b = u /\ branch_read b.
Proof.
  unfold branch_members. intros Hms%mapR_Ok.
  assert (forall x m, x ∈ List.filter (fun e : UUID * branch_row => bool_decide (b_principal e.2 = principal)) (by_id (st_branches s)) ->
    (b ← contractual (read_branch x); Ok (M_branch b)) = Ok m ->
    exists b, m = M_branch b /\ bv_id b = x.1 /\ branch_read b) as Hread.
  { intros [u r] m [Hx Hp]%list_elem_of_In%filter_In (b & Hb & [= <-])%bind_Ok. apply list_elem_of_In, by_id_in in Hx.
    cbn [fst snd] in *. apply bool_decide_eq_true in Hp. exists b.
    destruct (read_branch (u, r)) as [b'|] eqn:Hd; [|done]. injection Hb as ->.
    assert (bv_id b = u) as Hu.
    { pose proof (read_branch_decode (u, r)) as Hdec. rewrite Hd in Hdec. cbn [ok_of fst snd] in Hdec. symmetry in Hdec.
      apply decode_branch_inv in Hdec as (_ & Hid & _). rewrite N.mod_small in Hid; [done|].
      apply branch_rows_ids. by exists r. }
    split_and!; [done|done|]. exists r. rewrite Hu. split; [|done]. apply find_branch_Some. by rewrite Hx. }
  split_and!.
  - eapply sorted_image; [apply StronglySorted_filter; exact (by_id_lt _ branch_rows_ids)|exact Hms|].
    intros x y a b Hx Hy Ha Hb Hlt. destruct (Hread _ _ Hx Ha) as (c & -> & Hc & _). destruct (Hread _ _ Hy Hb) as (d & -> & Hd & _).
    unfold member_lt. cbn [portable_member_sort_key]. rewrite Hc, Hd. apply key_lt_cons. by left.
  - intros m. split.
    + intros Hin. destruct (image_in _ _ _ Hms _ Hin) as (x & Hx & Hm'). destruct (Hread _ _ Hx Hm') as (b & -> & _ & Hb). by exists b.
    + intros (b & -> & r & [Hr Hp]%find_branch_Some & Hb).
      destruct (image_of _ _ _ Hms (bv_id b, r)) as (m & Hin & Hm'); [|cbn in Hm'; rewrite Hb in Hm'; by injection Hm' as <-].
      apply list_elem_of_In, filter_In. rewrite <- list_elem_of_In, by_id_in, bool_decide_eq_true. done.
  - intros u r [Hr Hp]%find_branch_Some.
    assert ((u, r) ∈ List.filter (fun e : UUID * branch_row => bool_decide (b_principal e.2 = principal)) (by_id (st_branches s)))
      as Hx by (apply list_elem_of_In, filter_In; by rewrite <- list_elem_of_In, by_id_in, bool_decide_eq_true).
    destruct (image_of _ _ _ Hms _ Hx) as (m & _ & Hm'). destruct (Hread _ _ Hx Hm') as (b & _ & Hu & Hb). by exists b.
Qed.

Definition link_read (x : BranchMembership) : Prop :=
  exists m, st_members s !! (principal, ml_entity x, ml_record x, ml_branch x) = Some m /\ m_role m = ml_role x.

Lemma linked_ids p e u b m : st_members s !! (p, e, u, b) = Some m -> (0 < u < 2 ^ 128)%N /\ (0 < b < 2 ^ 128)%N.
Proof.
  intros Hk. destruct (so_members _ (so_assigned _ Hs) _ _ _ _ _ Hk) as [[r Hr] [br Hb]]. split.
  - apply find_row_at in Hr as (t & Ht & Hr & _). pose proof (mt_rows Hm e u) as Hi.
    rewrite (table_rows_at _ _ _ Ht) in Hi. apply Hi. by exists r.
  - apply find_branch_Some in Hb as [Hb _]. apply branch_rows_ids. by exists br.
Qed.

Definition member_rows : list member_row :=
  List.filter (fun e : member_row => bool_decide (e.1.1.1.1 = principal)) (map_to_list (st_members s)).

Lemma member_rows_in e u b m p :
  (p, e, u, b, m) ∈ member_rows <-> p = principal /\ st_members s !! (p, e, u, b) = Some m.
Proof.
  unfold member_rows. rewrite list_elem_of_In, filter_In, <- list_elem_of_In, elem_of_map_to_list, bool_decide_eq_true.
  cbn [fst snd]. naive_solver.
Qed.

Lemma member_rows_distinct : NoDup (map member_row_key member_rows).
Proof.
  assert (NoDup member_rows) as Hnd.
  { unfold member_rows. apply NoDup_ListNoDup, List.NoDup_filter, NoDup_ListNoDup, NoDup_map_to_list. }
  apply (NoDup_map_spec _ _ Hnd). intros [[[[p e] u] b] m] [[[[p' e'] u'] b'] m'].
  intros [-> Hx]%member_rows_in [-> Hy]%member_rows_in Hk. unfold member_row_key in Hk. cbn [fst snd] in Hk.
  destruct (linked_ids _ _ _ _ _ Hx) as [Hu Hb]. destruct (linked_ids _ _ _ _ _ Hy) as [Hu' Hb'].
  pose proof (f_equal (fun k => nth_error k 0) Hk) as H0'. pose proof (f_equal (fun k => nth_error k 1) Hk) as H1'.
  pose proof (f_equal (fun k => nth_error k 2) Hk) as H2'. cbn [nth_error] in H0', H1', H2'. clear Hk.
  assert (b = b') as -> by (apply uuid_text_inj; [lia|lia|]; apply text_inj; congruence).
  assert (u = u') as -> by (apply uuid_text_inj; [lia|lia|]; apply text_inj; congruence).
  assert (e = e') as -> by congruence. rewrite Hx in Hy. by injection Hy as ->.
Qed.

Lemma membership_section ms : membership_members principal s = Ok ms ->
  StronglySorted member_lt ms /\ forall m, m ∈ ms <-> exists x, m = M_membership x /\ link_read x.
Proof.
  unfold membership_members. fold member_rows. intros Hms%mapR_Ok.
  assert (forall p e u b r m, (p, e, u, b, r) ∈ member_rows -> read_membership (p, e, u, b, r) = Ok m ->
    m = M_membership {| ml_branch := b; ml_entity := e; ml_record := u; ml_role := m_role r |}) as Hread.
  { intros p e u b r m [-> Hx]%member_rows_in. destruct (linked_ids _ _ _ _ _ Hx) as [Hu Hb].
    unfold read_membership. cbn [fst snd]. rewrite (read_id_spec _ Hu), (read_id_spec _ Hb).
    unfold make_membership. destruct (_ || _); [done|]. by intros [= <-]. }
  assert (forall x, x ∈ sorted_by key_leb member_row_key member_rows -> x ∈ member_rows) as Hin
    by (intros x; apply elem_of_sorted_by).
  split.
  - eapply sorted_image; [apply rows_sorted, member_rows_distinct|exact Hms|].
    intros [[[[p e] u] b] r] [[[[p' e'] u'] b'] r'] x y Hx%Hin Hy%Hin Ha%Hread Hb%Hread Hlt; [|done..]. subst x y.
    unfold member_lt. cbn [portable_member_sort_key ml_branch ml_entity ml_record ml_role].
    apply key_lt_cons. left. split; [done|]. revert Hlt. unfold member_row_key. cbn [fst snd].
    apply key_lt_uuid, key_lt_part, key_lt_uuid. done.
  - intros m. split.
    + intros Hm'. destruct (image_in _ _ _ Hms _ Hm') as ([[[[p e] u] b] r] & Hx%Hin & Hr). 
      rewrite (Hread _ _ _ _ _ _ Hx Hr). eexists. split; [done|]. apply member_rows_in in Hx as [-> Hx]. by exists r.
    + intros ([b e u t] & -> & r & Hr & Ht). cbn [ml_branch ml_entity ml_record ml_role] in Hr, Ht. subst t.
      assert ((principal, e, u, b, r) ∈ member_rows) as Hx by by apply member_rows_in.
      destruct (image_of _ _ _ Hms (principal, e, u, b, r)) as (m & Hm' & Hmr); [by apply elem_of_sorted_by|].
      by rewrite (Hread _ _ _ _ _ _ Hx Hmr) in Hm'.
Qed.

(** ** The snapshot *)
Lemma events_of_none l k : (forall m, m ∈ l -> match m with M_history _ => False | _ => True end) -> events_of l k = [].
Proof.
  induction l as [|m l IH]; intros Hn; [done|]. specialize (IH (fun x Hx => Hn x (list_elem_of_further _ _ _ Hx))).
  pose proof (Hn m (list_elem_of_here _ _)) as Hm'. unfold events_of in *. by destruct m.
Qed.

Lemma snapshot_sections ms : snapshot_members sp principal s = Ok ms ->
  StronglySorted member_lt ms
  /\ ((forall v, M_record v ∈ ms <-> record_read v)
      /\ forall e (u : UUID) r, find_row s principal e u = Some r -> exists v, rv_entity v = e /\ rv_id v = u /\ record_read v)
  /\ (forall ev, M_history ev ∈ ms -> member_checked sp (M_history ev) = true)
  /\ ((forall b, M_branch b ∈ ms <-> branch_read b)
      /\ forall (u : UUID) r, find_branch (st_branches s) principal u = Some r -> exists b, bv_id b = u /\ branch_read b)
  /\ (forall x, M_membership x ∈ ms <-> link_read x)
  /\ forall k, Forall2 (fun h ev => decode_history sp h = Ok ev) (events s principal k.1 k.2) (events_of ms k).
Proof.
  unfold snapshot_members. intros (mss & Hr & (hs & Hh & (bs & Hb & (ls & Hl & [= <-])%bind_Ok)%bind_Ok)%bind_Ok)%bind_Ok.
  apply record_section in Hr as (Hrs & Hr & Hrf). apply history_section in Hh as (Hhs & Hh & Hev).
  apply branch_section in Hb as (Hbs & Hb & Hbf). apply membership_section in Hl as [Hls Hl].
  assert (forall m, m ∈ hs -> exists ev, m = M_history ev) as Hhm by (intros m (ev & -> & _)%Hh; by exists ev).
  split_and!; try done.
  - repeat apply StronglySorted_app_2; try done; intros x y Hx Hy; rewrite ?elem_of_app in Hy;
      unfold member_lt;
      repeat match goal with
             | H : _ ∈ concat mss |- _ => apply Hr in H as (? & -> & _)
             | H : _ ∈ hs |- _ => apply Hhm in H as (? & ->)
             | H : _ ∈ bs |- _ => apply Hb in H as (? & -> & _)
             | H : _ ∈ ls |- _ => apply Hl in H as (? & -> & _)
             | H : _ \/ _ |- _ => destruct H
             end; cbn [portable_member_sort_key]; apply key_lt_cons; by right.
  - intros v. rewrite !elem_of_app, Hr. split; [intros [(w & [= ->] & Hw)|[(? & [=])%Hhm|[(? & [=] & _)%Hb|(? & [=] & _)%Hl]]]; done|].
    left. by exists v.
  - intros ev. rewrite !elem_of_app. intros [(? & [=] & _)%Hr|[(? & [= <-] & Hc)%Hh|[(? & [=] & _)%Hb|(? & [=] & _)%Hl]]]. done.
  - intros b. rewrite !elem_of_app, Hb. split; [intros [(? & [=] & _)%Hr|[(? & [=])%Hhm|[(w & [= ->] & Hw)|(? & [=] & _)%Hl]]]; done|].
    right; right; left. by exists b.
  - intros x. rewrite !elem_of_app, Hl. split; [intros [(? & [=] & _)%Hr|[(? & [=])%Hhm|[(? & [=] & _)%Hb|(w & [= ->] & Hw)]]]; done|].
    right; right; right. by exists x.
  - intros k. specialize (Hev k). unfold events_of in *. rewrite !omap_app. fold (events_of (concat mss) k) (events_of bs k) (events_of ls k).
    rewrite !events_of_none, app_nil_r; [exact Hev|..].
    + by intros m (? & -> & _)%Hl.
    + by intros m (? & -> & _)%Hb.
    + by intros m (? & -> & _)%Hr.
Qed.

Lemma record_of_row v r : record_read v -> find_row s principal (rv_entity v) (rv_id v) = Some r ->
  rv_version v = r_record_version r /\ forall w, record_read w -> record_key_of w = record_key_of v -> w = v.
Proof.
  intros (r' & Hr' & Hd) Hr. assert (r' = r) as -> by congruence. split.
  - by apply decode_record_inv in Hd as (e & raw & ch & _ & _ & _ & _ & _ & _ & <- & _).
  - intros w (rw & Hrw & Hdw) Hk. unfold record_key_of in Hk. injection Hk as He Hi. rewrite He, Hi in Hrw, Hdw. congruence.
Qed.

Lemma chain_of_history evs evs' current cv :
  Forall2 (fun h ev => decode_history sp h = Ok ev) evs evs' -> HistoryOK evs current -> evs <> [] ->
  match current, cv with Some r, Some v => rv_version v = r_record_version r | None, None => True | _, _ => False end ->
  chain_ok evs' cv.
Proof.
  intros Hf [Hv Hc Hd Hr] Hne Hcv. pose proof (Forall2_length _ _ _ Hf) as Hl.
  assert (forall i ev, evs' !! i = Some ev -> exists h, evs !! i = Some h /\ he_kind ev = h_kind h) as Hk.
  { intros i ev Hi. destruct (Forall2_lookup_r _ _ _ _ _ Hf Hi) as (h & Hh & Hdec). exists h. split; [done|].
    by apply decoded_event in Hdec as (_ & _ & _ & ? & _). }
  split.
  - intros ->. by destruct evs.
  - rewrite <- Hl, <- Hv. clear -Hf. induction Hf as [|h ev evs evs' Hdec _ IH]; [done|]. cbn [map]. rewrite IH. f_equal.
    by apply decoded_event in Hdec as (_ & _ & ? & _).
  - intros i ev (h & Hh & ->)%Hk. by apply Hc.
  - intros i ev (h & Hh & ->)%Hk Hdel. destruct (Hd i h Hh Hdel) as [Hi ->]. rewrite <- Hl. split; [done|]. by destruct cv.
  - destruct current as [r|], cv as [v|]; try done.
    + destruct Hr as [_ Hr]. by rewrite Hcv, Hr, Hl.
    + intros ev Hlast. rewrite last_lookup in Hlast. apply Hk in Hlast as (h & Hh & ->). apply Hr.
      by rewrite last_lookup, Hl.
Qed.

Lemma branch_parent b r : find_branch (st_branches s) principal (bv_id b) = Some r -> read_branch (bv_id b, r) = Ok b ->
  (forall p, b_parent r = Some p -> is_Some (find_branch (st_branches s) principal p)) -> bv_parent b = b_parent r.
Proof.
  intros Hr Hd Hp. pose proof (read_branch_decode (bv_id b, r)) as Hdec. rewrite Hd in Hdec. cbn [ok_of fst snd] in Hdec.
  symmetry in Hdec. apply decode_branch_inv in Hdec as (_ & _ & Hpar & _). rewrite parse_parent_json in Hpar; [congruence|].
  intros p Hpr. destruct (Hp p Hpr) as [rp [Hrp _]%find_branch_Some]. apply branch_rows_ids. by exists rp.
Qed.

Lemma rooted_read ms id :
  (forall b, M_branch b ∈ ms <-> branch_read b) ->
  (forall (u : UUID) r, find_branch (st_branches s) principal u = Some r -> exists b, bv_id b = u /\ branch_read b) ->
  rooted (st_branches s) principal id -> forall b, bv_id b = id -> branch_read b -> rooted_in ms b.
Proof.
  intros Hb Hbf Hr. induction Hr as [id row Hrow Hup IH]. intros b <- (r & Hr & Hd). assert (r = row) as -> by congruence.
  assert (forall p, b_parent row = Some p -> is_Some (find_branch (st_branches s) principal p)) as Hps
    by (intros p Hp; destruct (Hup p Hp) as [u rp Hrp _]; by exists rp).
  pose proof (branch_parent b row Hr Hd Hps) as Hpar. destruct (b_parent row) as [p|] eqn:Ep; [|by apply rooted_top].
  destruct (Hps p eq_refl) as [rp Hrp]. destruct (Hbf p rp Hrp) as (c & Hc & Hcr).
  apply (rooted_below ms b c); [congruence|by apply Hb|by apply (IH p)].
Qed.

Lemma snapshot_transfer ms :
  snapshot_members sp principal s = Ok ms -> Z.of_nat (length ms) <= MAX_STORE_MEMBERS -> TransferOK sp ms.
Proof.
  intros (Hso & [Hr Hrf] & Hh & [Hb Hbf] & Hl & Hev)%snapshot_sections Hz.
  assert (forall k, HistoryOK (events s principal k.1 k.2) (find_row s principal k.1 k.2)) as Hok
    by (intros k; apply (so_history _ (so_records _ Hs))).
  split; [done|done|..].
  - intros [v|ev|b|x] Hin; [|by apply Hh|done..]. apply Hr in Hin as (r & _ & Hd).
    apply decode_record_inv in Hd as (e & raw & ch & _ & _ & _ & _ & _ & Hf & _). by apply normalised_checked in Hf.
  - intros k. specialize (Hev k). specialize (Hok k). destruct (decide (events s principal k.1 k.2 = [])) as [Hnil|Hne].
    { left. rewrite Hnil in Hev. by inversion Hev. }
    right. destruct (find_row s principal k.1 k.2) as [r|] eqn:Hrow.
    + destruct (Hrf _ _ _ Hrow) as (v & Hve & Hvu & Hv). assert (record_key_of v = k) as Hvk by (destruct k; by apply pair_eq).
      rewrite <- Hve, <- Hvu in Hrow. destruct (record_of_row v r Hv Hrow) as [Hver Huniq].
      exists (Some v). split; [by eapply chain_of_history|]. intros w. rewrite Hr. split.
      * intros [Hw Hwk]. f_equal. symmetry. apply Huniq; [done|congruence].
      * by intros [= <-].
    + exists None. split; [by eapply chain_of_history|]. intros w. rewrite Hr. split; [|done].
      intros [(r & Hw & _) <-]. cbn [fst snd record_key_of] in Hrow. congruence.
  - intros v Hin He. apply Hr in Hin as (r & Hrow & _). specialize (Hev (record_key_of v)). specialize (Hok (record_key_of v)).
    cbn [fst snd record_key_of] in Hev, Hok. rewrite Hrow in Hok. rewrite He in Hev. inversion Hev as [Hnil|]. symmetry in Hnil.
    by destruct (ho_row _ _ Hok) as [? _].
  - intros b Hin. apply Hb in Hin as Hbr. pose proof Hbr as (r & [Hfb Hp]%find_branch_Some & _).
    apply (rooted_read ms (bv_id b)); try done. rewrite <- Hp. by apply (so_forest _ (so_branches _ Hs)).
  - intros x Hin. apply Hl in Hin as (m & Hx & Hrole). destruct (so_members _ (so_assigned _ Hs) _ _ _ _ _ Hx) as [[r Hrow] [br Hbr]].
    split.
    + destruct (Hbf _ _ Hbr) as (b & Hid & Hbb). exists b. by rewrite Hb.
    + destruct (Hrf _ _ _ Hrow) as (v & Hve & Hvu & Hv). exists v. rewrite Hr. split; [done|]. by apply pair_eq.
  - intros x y Hx Hy Hp. apply Hl in Hx as (m & Hx & Hrx). apply Hl in Hy as (n & Hy & Hry).
    destruct x as [b e u t], y as [b' e' u' t']. unfold link_pair, link_key_of in Hp. cbn in *. injection Hp as -> -> ->.
    rewrite Hx in Hy. by injection Hy as ->; subst.
  - intros x y Hx Hy Hpx Hpy Hk. apply Hl in Hx as (m & Hx & Hrx). apply Hl in Hy as (n & Hy & Hry).
    destruct x as [b e u t], y as [b' e' u' t']. unfold link_key_of in Hk. cbn in *. injection Hk as -> ->. subst t t'.
    f_equal; [|congruence]. apply (so_primary _ (so_assigned _ Hs) principal e' u'); [exists m|exists n]; split; congruence.
Qed.
End snapshot.
