(* ===== verification/PortableFence.v ===== *)
(** * PortableFence: what the write-admission fence of a store guarantees

    Commands on records, branches and assignments run only behind an open fence
    and leave the fence alone; a transition makes its generation grow.  So a
    store at whose closed fence two reads agree did not change in between. *)
From S2P Require Import Relational.
From S2P Require Export PortableStore StoreTheorems.
From S2P Require Import Prelude Values Json JsonText Sha256 Manifest.

(** ** Commands leave the fence alone *)
Section commands.
Context `{FloatRead} `{IsoDates}.

(** The entries of the fence are the same. *)
Definition same_fences (s s' : store) : Prop :=
  forall k m, mu_kind m = FENCE_OPERATION_KIND -> st_mutations s' !! k = Some m <-> st_mutations s !! k = Some m.

#[local] Instance same_fences_preorder : PreOrder same_fences.
Proof. split; [by intros s k m|]. intros s1 s2 s3 H12 H23 k m Hk. by rewrite (H23 k m Hk), (H12 k m Hk). Qed.

Lemma fences_writing f : (forall s, st_mutations (f s) = st_mutations s) -> respects same_fences (E := fault) (writing f).
Proof. intros Hf. apply respects_writing. intros s k m _. by rewrite Hf. Qed.

Lemma fences_insert_mutation principal key m :
  mu_kind m <> FENCE_OPERATION_KIND -> respects same_fences (insert_mutation principal key m).
Proof.
  intros Hm s. unfold insert_mutation. rewrite reading_bind, raise_when_bind.
  destruct (st_mutations s !! (principal, key)) as [old|] eqn:Hold.
  { rewrite bool_decide_false by done. cbn [andb negb]. by intros k n. }
  destruct (negb _); [by intros k n|]. intros k n Hn. unfold writing. cbn [snd with_mutations st_mutations].
  destruct (decide (k = (principal, key))) as [->|Hk]; [|by rewrite lookup_insert_ne].
  rewrite lookup_insert_eq, Hold. split; [intros [= <-]; congruence|done].
Qed.

Lemma fences_complete principal key kind fp result now :
  kind <> FENCE_OPERATION_KIND -> respects same_fences (complete_mutation principal key kind fp result now).
Proof. intros Hk. by apply fences_insert_mutation. Qed.

Ltac fenced :=
  repeat first
    [ progress respectful
    | match goal with
      | |- respects _ (writing _) => apply fences_writing; intros ?; reflexivity
      | |- respects _ (complete_mutation _ _ _ _ _ _) => apply fences_complete; discriminate
      end ].

Lemma fences_run_result {A} (m : result fault A) : respects same_fences (run_result m).
Proof. unfold run_result. fenced. Qed.
Lemma fences_run_recorded {A} (m : recorded A) : respects same_fences (run_recorded m).
Proof. unfold run_recorded. fenced. Qed.
Lemma fences_answered {A} code (m : stx (answer A)) : respects same_fences m -> respects same_fences (answered code m).
Proof. intros Hm s. specialize (Hm s). unfold answered. by destruct (m s) as [[a|[]] s']. Qed.
#[local] Hint Resolve fences_run_result fences_run_recorded : txn.


(** Statements. *)
Lemma fences_new_id m : respects same_fences (new_id m).
Proof. unfold new_id. fenced. Qed.
Lemma fences_the_table e : respects same_fences (the_table e).
Proof. unfold the_table. fenced. Qed.
Lemma fences_entity_columns sp e fields : respects same_fences (entity_columns sp e fields).
Proof. unfold entity_columns. fenced. Qed.
Lemma fences_bind_texts ts : respects same_fences (bind_texts ts).
Proof. unfold bind_texts. fenced. Qed.
#[local] Hint Resolve fences_new_id fences_the_table fences_entity_columns fences_bind_texts : txn.

Lemma fences_mutation_row p k : respects same_fences (mutation_row p k).
Proof. unfold mutation_row. fenced. Qed.
Lemma fences_references p e f rels : respects same_fences (require_references p e f rels).
Proof. induction rels as [|r rels IH]; cbn [require_references]; fenced. Qed.
Lemma fences_insert_row e id r : respects same_fences (insert_row e id r).
Proof. unfold insert_row. fenced. Qed.
Lemma fences_update_row e id p v f : respects same_fences (update_row e id p v f).
Proof. unfold update_row. fenced. Qed.
Lemma fences_delete_row e id p v : respects same_fences (delete_row e id p v).
Proof. unfold delete_row. fenced. Qed.
Lemma fences_insert_history h : respects same_fences (insert_history h).
Proof. unfold insert_history. fenced. Qed.
Lemma fences_select_record p sp e id : respects same_fences (select_record p sp e id).
Proof. unfold select_record. fenced. Qed.
#[local] Hint Resolve fences_mutation_row fences_references fences_insert_row fences_update_row fences_delete_row
  fences_insert_history fences_select_record : txn.

Lemma fences_insert_member k m : respects same_fences (insert_member k m).
Proof. unfold insert_member. destruct k as [[[? ?] ?] ?]. fenced. Qed.
Lemma fences_delete_member k : respects same_fences (delete_member k).
Proof. unfold delete_member. fenced. Qed.
Lemma fences_delete_members p e r f : respects same_fences (delete_members p e r f).
Proof. unfold delete_members. fenced. Qed.
Lemma fences_insert_branch id b : respects same_fences (insert_branch id b).
Proof. unfold insert_branch. fenced. Qed.
Lemma fences_update_branch_row id p r f : respects same_fences (update_branch_row id p r f).
Proof. unfold update_branch_row. fenced. Qed.
Lemma fences_select_branch p id : respects same_fences (select_branch p id).
Proof. unfold select_branch. fenced. Qed.
#[local] Hint Resolve fences_insert_member fences_delete_member fences_delete_members fences_insert_branch
  fences_update_branch_row fences_select_branch : txn.

(** The operations on records. *)
Lemma fences_create_record a principal via sp c record fp :
  respects same_fences (create_record_op a principal via sp c record fp).
Proof. unfold create_record_op, replay, insert_record, append_history. fenced. Qed.
Lemma fences_update_record a principal sp c updates fp :
  respects same_fences (update_record_op a principal sp c updates fp).
Proof. unfold update_record_op, replay, update_record_row, append_history. fenced. Qed.
Lemma fences_delete_record a principal sp c fp : respects same_fences (delete_record_op a principal sp c fp).
Proof. unfold delete_record_op, replay, append_history. fenced. Qed.

(** The operations on branches and assignments. *)
Lemma fences_topology_replay {A} p k kind fp (decode : pystr -> option A) :
  respects same_fences (topology_replay p k kind fp decode).
Proof. unfold topology_replay. fenced. Qed.
Lemma fences_parent_missing p o : respects same_fences (parent_missing p o).
Proof. unfold parent_missing. fenced. Qed.
Lemma fences_is_ancestor p x y : respects same_fences (is_ancestor p x y).
Proof. unfold is_ancestor. fenced. Qed.
#[local] Hint Resolve fences_topology_replay fences_parent_missing fences_is_ancestor : txn.
Lemma fences_refused_parent p id o : respects same_fences (refused_parent p id o).
Proof. unfold refused_parent. fenced. Qed.
#[local] Hint Resolve fences_refused_parent : txn.

Lemma fences_create_branch a principal via c : respects same_fences (create_branch_op a principal via c).
Proof. unfold create_branch_op. fenced; apply fences_answered; fenced. Qed.
Lemma fences_update_branch a principal via c : respects same_fences (update_branch_op a principal via c).
Proof. unfold update_branch_op. fenced; apply fences_answered; fenced. Qed.

Lemma fences_select_targets p sp ts : respects same_fences (select_targets p sp ts).
Proof. induction ts as [|t ts IH]; cbn [select_targets]; unfold select_row; fenced. Qed.
Lemma fences_apply_mapping p b role op e r now : respects same_fences (apply_mapping p b role op e r now).
Proof. unfold apply_mapping. fenced. Qed.
#[local] Hint Resolve fences_select_targets fences_apply_mapping : txn.
Lemma fences_assign_targets p c now ts : respects same_fences (assign_targets p c now ts).
Proof.
  induction ts as [|[t fields] ts IH]; cbn [assign_targets]; unfold assign_target, append_topology_history; fenced.
Qed.
#[local] Hint Resolve fences_assign_targets : txn.
Lemma fences_assign_records a principal via sp c : respects same_fences (assign_records_op a principal via sp c).
Proof. unfold assign_records_op. fenced; apply fences_answered; fenced. Qed.

Lemma fences_plan {A} principal via sp (k : store_command A) pl a :
  plan_of principal via sp k = Planned pl -> respects same_fences (pl_operation pl a).
Proof.
  destruct k; cbn [plan_of].
  - unfold create_record. repeat case_match; try done. intros [= <-]. apply fences_create_record.
  - unfold update_record. repeat case_match; try done. intros [= <-]. apply fences_update_record.
  - unfold delete_record. repeat case_match; try done. intros [= <-]. apply fences_delete_record.
  - unfold create_branch. repeat case_match; try done. intros [= <-]. apply fences_create_branch.
  - unfold update_branch. repeat case_match; try done. intros [= <-]. apply fences_update_branch.
  - unfold assign_branch_records. repeat case_match; try done. intros [= <-]. apply fences_assign_records.
Qed.

(** A command runs only behind an open fence. *)
Lemma prepared_open a sp s : prepared a sp s = Ok true -> write_admission_open s = Ok true.
Proof.
  unfold prepared. intros (st & _ & (st' & _ & Hp)%bind_Ok)%bind_Ok. by do 4 apply unit_then in Hp as [_ Hp].
Qed.

Lemma command_step s s' : store_step s s' -> s' = s \/ (write_admission_open s = Ok true /\ same_fences s s').
Proof.
  intros (A & p & via & sp & k & pl & a & r & Hpl & _ & _ & Hm). unfold mutate_once in Hm.
  destruct (prepared _ _ _) as [[]|e] eqn:Hp; [|by left; injection Hm..].
  apply prepared_open in Hp. destruct (pl_operation pl a s) as [[[x|c]|e] s1] eqn:Hop; [|by left; injection Hm..].
  assert (same_fences s s1) as Hs by (eapply respects_returns; [by eapply fences_plan|exact Hop]).
  destruct (at_commit a); injection Hm as _ <-; auto.
Qed.

(** ** The rows of the fence *)
Lemma fence_rows_in s k m : (k, m) ∈ fence_rows s <-> st_mutations s !! k = Some m /\ mu_kind m = FENCE_OPERATION_KIND.
Proof.
  unfold fence_rows. by rewrite list_elem_of_In, filter_In, <- list_elem_of_In, elem_of_map_to_list, bool_decide_eq_true.
Qed.

Lemma fence_rows_NoDup s : NoDup (fence_rows s).
Proof. unfold fence_rows. apply NoDup_ListNoDup, List.NoDup_filter, NoDup_ListNoDup, NoDup_map_to_list. Qed.

Lemma same_fence_rows s s' : same_fences s s' -> fence_rows s ≡ₚ fence_rows s'.
Proof.
  intros Hs. apply NoDup_Permutation; [apply fence_rows_NoDup..|]. intros [k m]. rewrite !fence_rows_in.
  split; intros [Hk Hm]; (split; [|done]); by apply (Hs k m Hm).
Qed.

Lemma same_fence_read p s s' : same_fences s s' -> read_fence p s' = read_fence p s.
Proof.
  intros Hs%same_fence_rows. unfold read_fence. destruct (fence_rows s) as [|x [|y l]] eqn:E.
  - by apply Permutation_nil in Hs as ->.
  - by apply Permutation_singleton_l in Hs as <-.
  - pose proof (Permutation_length Hs) as Hl. destruct (fence_rows s') as [|x' [|y' l']]; [done..|].
    destruct x as [k m], x' as [k' m']. done.
Qed.

Lemma fence_rows_write s k m :
  mu_kind m = FENCE_OPERATION_KIND -> (forall k' m', (k', m') ∈ fence_rows s -> k' = k) ->
  fence_rows (with_mutations <[k := m]> s) = [(k, m)].
Proof.
  intros Hm Hk. symmetry. apply Permutation_singleton_l, NoDup_Permutation;
    [apply NoDup_singleton|apply fence_rows_NoDup|]. intros [k' m'].
  rewrite list_elem_of_singleton, fence_rows_in. cbn [with_mutations st_mutations]. split.
  - intros [= -> ->]. by rewrite lookup_insert_eq.
  - intros [[[<- <-]|[Hne Hold]]%lookup_insert_Some Hkind]; [done|]. destruct Hne. symmetry. eapply Hk.
    by apply fence_rows_in.
Qed.

(** A fence is read as it was written. *)
Definition fence_ok (f : WriteAdmissionFence) : Prop := 1 <= fence_generation f <= MAX_FENCE_GENERATION.

Lemma decode_encode_fence f : fence_ok f -> decode_fence (encode_fence f) = Some f.
Proof.
  intros Hf. unfold decode_fence, encode_fence. set (j := JObj _).
  assert (JsonText.readable j = true) as Hr.
  { unfold j. pose proof (revision_readable (fence_generation f)) as Hi. unfold fence_ok, MAX_FENCE_GENERATION in Hf.
    cbn [JsonText.readable forallb snd jstr]. rewrite Hi; [done|]. unfold MAX_REVISION. lia. }
  pose proof (decode_canonical j Hr) as Hd. unfold decode_canonical_json in Hd.
  destruct (json_loads (canonical_json j)) as [raw|]; [|done]. cbn [mbind option_bind] in Hd |- *.
  destruct (bool_decide _) eqn:Eb in Hd; [|done]. assert (raw = sort_keys j) as -> by congruence. clear Hd Eb.
  assert (sort_keys j = j) as -> by done.
  assert (exact_keys [lit "generation"; lit "state"] j
          = Some [(lit "generation", jint (fence_generation f)); (lit "state", jstr (fence_text (fence_state f)))])
    as -> by reflexivity.
  cbn [mbind option_bind]. unfold get_int, get_str.
  assert (dict_get [(lit "generation", jint (fence_generation f)); (lit "state", jstr (fence_text (fence_state f)))]
            (lit "generation") = Some (jint (fence_generation f))) as -> by done.
  assert (dict_get [(lit "generation", jint (fence_generation f)); (lit "state", jstr (fence_text (fence_state f)))]
            (lit "state") = Some (jstr (fence_text (fence_state f)))) as -> by done.
  cbn [mbind option_bind as_int as_str jint jstr].
  assert (make_fence (fence_generation f) (fence_text (fence_state f)) = Some f) as ->.
  { unfold make_fence. unfold fence_ok, MAX_FENCE_GENERATION in Hf.
    rewrite (proj2 (Z.leb_le _ _)) by lia. rewrite (proj2 (Z.leb_le _ _)) by lia. by destruct f as [g []]. }
  cbn [mbind option_bind]. by rewrite bool_decide_true.
Qed.

(** ** Transitions of the fence *)
Lemma read_fence_ok p s f : read_fence p s = Ok f -> fence_ok f.
Proof.
  unfold read_fence. destruct (fence_rows s) as [|[k m] [|? ?]]; [by intros [= <-]| |done].
  destruct (_ && _); [|done]. destruct (decode_fence (mu_result m)) as [g|] eqn:Hd; [|done]. intros [= <-].
  unfold decode_fence in Hd. apply bind_Some in Hd as (raw & _ & (es & _ & (g' & _ & (st & _ & Hd)%bind_Some)%bind_Some)%bind_Some).
  apply bind_Some in Hd as (f & Hf & Hd). destruct (bool_decide _); [|done]. injection Hd as ->.
  unfold make_fence in Hf. destruct ((1 <=? g') && (g' <=? 2 ^ 63 - 1)) eqn:Hg; [|done].
  apply andb_true_iff in Hg as [?%Z.leb_le ?%Z.leb_le]. unfold fence_ok, MAX_FENCE_GENERATION.
  repeat case_bool_decide; try done; injection Hf as <-; cbn; lia.
Qed.

(** The rows of a fence that reads are the principal's own. *)
Lemma read_fence_keys p s f k m : read_fence p s = Ok f -> (k, m) ∈ fence_rows s -> k = (p, FENCE_IDEMPOTENCY_KEY).
Proof.
  unfold read_fence. destruct (fence_rows s) as [|[k' m'] [|? ?]]; [by intros _ ?%elem_of_nil| |done].
  destruct (bool_decide _) eqn:Hk; [|done]. apply bool_decide_eq_true in Hk. intros _ Hin%list_elem_of_singleton. congruence.
Qed.

Definition with_fence (p : pystr) (f : WriteAdmissionFence) (now : datetime) (s : store) : store :=
  with_mutations <[(p, FENCE_IDEMPOTENCY_KEY) := fence_mutation f now]> s.

Lemma read_with_fence p f now s q g :
  read_fence q s = Ok g -> q = p -> fence_ok f -> read_fence p (with_fence p f now s) = Ok f.
Proof.
  intros Hg -> Hf. unfold read_fence, with_fence.
  rewrite fence_rows_write; [|done|intros k m; by apply (read_fence_keys p s g)].
  rewrite !bool_decide_true by done. cbn [andb fence_mutation mu_result]. by rewrite decode_encode_fence.
Qed.

Lemma read_with_other p f now s g q :
  read_fence p s = Ok g -> q <> p -> read_fence q (with_fence p f now s) = Raise MigrationFault.
Proof.
  intros Hg Hq. unfold read_fence, with_fence.
  rewrite fence_rows_write; [|done|intros k m; by apply (read_fence_keys p s g)].
  by rewrite bool_decide_false by (by intros [= ->]).
Qed.

(** What a transition does: it compares the whole fence, and moves it by one. *)
Lemma transition_returns a p expected target s r s' :
  transition_fence a p expected target s = (r, s') ->
  s' = s \/ exists now, fence_state expected <> target /\ fence_generation expected < MAX_FENCE_GENERATION
    /\ read_fence p s = Ok expected
    /\ s' = with_fence p {| fence_generation := fence_generation expected + 1; fence_state := target |} now s.
Proof.
  unfold transition_fence, transacted. destruct (at_open a ;; at_ready a); [|by intros [= _ <-]; left].
  destruct (transition_fence_op a p expected target s) as [[x|e] s1] eqn:Hop; [|by intros [= _ <-]; left].
  destruct (bool_decide (ft_status x = Applied)) eqn:Hk; [|by intros [= _ <-]; left].
  apply bool_decide_eq_true in Hk. intros Hc. assert (s' = s \/ s' = s1) as [->| ->] by (destruct (at_commit a); naive_solver);
    [by left|]. right. clear Hc. unfold transition_fence_op in Hop.
  rewrite reading_bind in Hop. apply bind_returns in Hop as (current & s2 & [Hcur ->]%run_result_returns & Hop).
  destruct (bool_decide (current = expected)) eqn:Hce; cbn [negb] in Hop; [|apply ret_returns in Hop as [-> _]; discriminate Hk].
  apply bool_decide_eq_true in Hce as ->.
  destruct (bool_decide (fence_state expected = target)) eqn:Ht; [apply ret_returns in Hop as [-> _]; discriminate Hk|].
  apply bool_decide_eq_false in Ht.
  destruct (Z.eqb_spec (fence_generation expected) MAX_FENCE_GENERATION) as [|Hmax]; [discriminate Hop|].
  pose proof (read_fence_ok _ _ _ Hcur) as Hok. unfold fence_ok in Hok.
  apply bind_returns in Hop as (now & s2 & [_ ->]%run_result_returns & Hop).
  apply bind_returns in Hop as (u & s2 & Hw & [_ ->]%ret_returns). unfold write_fence in Hw.
  apply bind_returns in Hw as (u' & s3 & [_ ->]%bind_texts_returns & Hw). rewrite raise_when_bind in Hw.
  destruct (negb _); [done|]. apply writing_returns in Hw as ->. exists now. split_and!; [done|lia|done|done].
Qed.

(** The attempts of stores: commands, transitions, and staging for anyone. *)
Inductive fence_step (s : store) : store -> Prop :=
| step_command s' : store_step s s' -> fence_step s s'
| step_transition a p expected target r s' : transition_fence a p expected target s = (r, s') -> fence_step s s'
| step_stage a sp p at_ f ms r s' : stage a sp p at_ f ms s = (r, s') -> fence_step s s'.

Lemma stage_full a sp p at_ f ms s r s' : st_mutations s <> ∅ -> stage a sp p at_ f ms s = (r, s') -> s' = s.
Proof.
  intros Hs. unfold stage. destruct (bool_decide _); [by intros [= _ <-]|].
  destruct (validate_portable_members sp ms) as [checked|]; [|by intros [= _ <-]].
  destruct (negb (domain_ready sp s)); [by intros [= _ <-]|]. unfold transacted.
  destruct (at_open a ;; at_ready a); [|by intros [= _ <-]].
  assert (stage_op a sp p at_ f checked s = (Ok None, s)) as ->.
  { unfold stage_op. rewrite reading_bind. assert (has_logical_state s = true) as ->; [|done].
    unfold has_logical_state. rewrite (bool_decide_false (st_mutations s = ∅)) by done. cbn [negb]. by rewrite !orb_true_r. }
  rewrite bool_decide_false by naive_solver. intros Hr. repeat case_match; by injection Hr as _ <-.
Qed.

(** The fence as the principal reads it, and the order it moves in: no read
    fault is ever repaired. *)
Definition fence_le (x y : result fault WriteAdmissionFence) : Prop :=
  match x, y with
  | Ok f, Ok g => f = g \/ fence_generation f < fence_generation g
  | _, Raise _ => True
  | Raise _, Ok _ => False
  end.
Definition fence_lt (x y : result fault WriteAdmissionFence) : Prop :=
  match x, y with
  | Ok f, Ok g => fence_generation f < fence_generation g
  | Ok _, Raise _ => True
  | Raise _, _ => False
  end.

#[local] Instance fence_le_preorder : PreOrder fence_le.
Proof.
  split; [intros [f|e]; cbn; auto|]. intros [f|e] [g|e'] [h|e'']; cbn; try done.
  intros [<-|Hfg] [<-|Hgh]; auto. right. lia.
Qed.

Lemma transition_moves p q f now s g :
  read_fence q s = Ok g -> fence_generation f = fence_generation g + 1 -> fence_ok f ->
  fence_le (read_fence p s) (read_fence p (with_fence q f now s)).
Proof.
  intros Hg Hf Hok. destruct (decide (q = p)) as [->|Hqp].
  - rewrite (read_with_fence p f now s p g) by done. rewrite Hg. cbn. right. lia.
  - rewrite (read_with_other q f now s g p) by done. by destruct (read_fence p s).
Qed.

Lemma same_fences_rows s s' : same_fences s s' -> fence_rows s <> [] -> fence_rows s' <> [].
Proof. intros Hs%same_fence_rows Hne Hnil. rewrite Hnil in Hs. by apply Permutation_nil_r in Hs. Qed.

Lemma moved_rows p f now s g : read_fence p s = Ok g -> fence_rows (with_fence p f now s) <> [].
Proof. intros Hg. unfold with_fence. rewrite fence_rows_write; [done|done|]. intros k m. by apply (read_fence_keys p s g). Qed.

Lemma rows_mutations s : fence_rows s <> [] -> st_mutations s <> ∅.
Proof. intros Hr Hs. apply Hr. unfold fence_rows. by rewrite Hs, map_to_list_empty. Qed.

Lemma moved_fence p expected target s :
  fence_generation expected < MAX_FENCE_GENERATION -> read_fence p s = Ok expected ->
  fence_ok {| fence_generation := fence_generation expected + 1; fence_state := target |}.
Proof. intros Hm Hr. pose proof (read_fence_ok _ _ _ Hr) as Hok. unfold fence_ok in *. cbn [fence_generation]. lia. Qed.

(** Once there is a fence, it stays and only moves on. *)
Lemma fence_moves_on p s s' :
  fence_rows s <> [] -> fence_step s s' -> fence_rows s' <> [] /\ fence_le (read_fence p s) (read_fence p s').
Proof.
  intros Hne Hstep. destruct Hstep as [s' Hc|a q expected target r s' Ht|a sp q t f ms r s' Hst].
  - apply command_step in Hc as [->|[_ Hs]]; [done|]. split; [by eapply same_fences_rows|]. by rewrite (same_fence_read p s s' Hs).
  - apply transition_returns in Ht as [->|(now & _ & Hmax & Hread & ->)]; [done|].
    split; [by eapply moved_rows|]. by apply (transition_moves p q _ now s expected); [| |eapply moved_fence].
  - apply stage_full in Hst as ->; [done|]. by apply rows_mutations.
Qed.

Lemma fences_move_on p s s' :
  fence_rows s <> [] -> rtc fence_step s s' -> fence_le (read_fence p s) (read_fence p s').
Proof.
  intros Hne Hr. induction Hr as [s|s s1 s' Hstep _ IH]; [done|].
  destruct (fence_moves_on p s s1 Hne Hstep) as [Hne1 Hle]. etrans; [exact Hle|by apply IH].
Qed.

Lemma closed_rows p s f : read_fence p s = Ok f -> fence_state f = FenceClosed ->
  fence_rows s <> [] /\ write_admission_open s = Ok false.
Proof.
  unfold read_fence, write_admission_open. destruct (fence_rows s) as [|[k m] [|? ?]]; [by intros [= <-]| |done].
  destruct (bool_decide (k = _)) eqn:Hk; [|done]. apply bool_decide_eq_true in Hk as ->. cbn [snd andb].
  rewrite (bool_decide_true (FENCE_IDEMPOTENCY_KEY = _)) by done. destruct (bool_decide _); [|done]. cbn [andb].
  destruct (decode_fence _) as [g|]; [|done]. intros [= ->] ->. done.
Qed.

(** A step from a closed fence changes nothing, or moves the fence on. *)
Lemma closed_step p f s s' : read_fence p s = Ok f -> fence_state f = FenceClosed -> fence_step s s' ->
  s' = s \/ fence_lt (Ok f) (read_fence p s').
Proof.
  intros Hf Hcl Hstep. destruct (closed_rows p s f Hf Hcl) as [Hne Hgate].
  destruct Hstep as [s' Hc|a q expected target r s' Ht|a sp q t g ms r s' Hst].
  - apply command_step in Hc as [->|[Ho _]]; [by left|congruence].
  - apply transition_returns in Ht as [->|(now & _ & Hmax & Hread & ->)]; [by left|]. right.
    destruct (decide (q = p)) as [->|Hqp]; [|by rewrite (read_with_other q _ now s expected p)].
    rewrite (read_with_fence p _ now s p expected); [|done|done|by eapply moved_fence].
    cbn [fence_lt fence_generation]. assert (expected = f) as -> by congruence. lia.
  - left. apply (stage_full _ _ _ _ _ _ _ _ _ (rows_mutations s Hne) Hst).
Qed.

Lemma closed_still p f s s' :
  read_fence p s = Ok f -> fence_state f = FenceClosed -> rtc fence_step s s' -> read_fence p s' = Ok f -> s' = s.
Proof.
  intros Hf Hcl Hr. induction Hr as [s|s s1 s' Hstep Hr IH]; [done|]. intros Hf'.
  destruct (closed_rows p s f Hf Hcl) as [Hne _]. destruct (fence_moves_on p s s1 Hne Hstep) as [Hne1 _].
  destruct (closed_step p f s s1 Hf Hcl Hstep) as [->|Hlt]; [by apply IH|]. exfalso.
  pose proof (fences_move_on p s1 s' Hne1 Hr) as Hle. rewrite Hf' in Hle.
  destruct (read_fence p s1) as [g|]; cbn in Hlt, Hle; [|done]. destruct Hle as [->|Hle]; lia.
Qed.
End commands.
