(* ===== verification/PortableCodec.v ===== *)
(** * PortableCodec: the canonical bytes of a portable bundle

    [application/portable_models.py], [application/portable_codec.py] and the
    validation of [portable_io.py]: the frozen JSON values of a bundle and their
    one text, frames with digests, the ordered digests of a bundle, the encoder
    of the writer and the validation of an untrusted stream.  [None] is
    [PortableBundleContractError]. *)
From S2P Require Import Relational Models.
From S2P Require Export RecordCodecs Base64 Authority.
From S2P Require Import Prelude Values Json JsonText Sha256 Manifest.

(** ** Limits and sections *)
Definition EXPORT_FORMAT_VERSION : Z := 1.
Definition CANONICALIZATION_PROFILE : pystr := lit "aipcs-json-c14n-1".
Definition LIMIT_PROFILE : pystr := lit "aipcs-bundle-limits-1".
Definition PRODUCER_PACKAGE : pystr := lit "aipcs".
Definition MAX_JSON_DEPTH : Z := 64.
Definition MAX_FRAME_BYTES : Z := 1024 * 1024.
Definition DEFAULT_MAX_BUNDLE_BYTES : Z := 256 * 1024 * 1024.
Definition ABSOLUTE_MAX_BUNDLE_BYTES : Z := 1024 * 1024 * 1024.
Definition MAX_BUNDLE_FRAMES : Z := 1000000.

Inductive SectionKind := S_header | S_service | S_record | S_history | S_branch | S_membership | S_audit.
#[export] Instance SectionKind_eq_dec : EqDecision SectionKind.
Proof. solve_decision. Defined.

Definition section_text (k : SectionKind) : pystr :=
  match k with
  | S_header => lit "header" | S_service => lit "service" | S_record => lit "record" | S_history => lit "history"
  | S_branch => lit "branch" | S_membership => lit "branch_membership" | S_audit => lit "audit"
  end.
Definition SECTION_KINDS : list SectionKind :=
  [S_header; S_service; S_record; S_history; S_branch; S_membership; S_audit].
Definition read_section (s : pystr) : option SectionKind :=
  List.find (fun k => bool_decide (section_text k = s)) SECTION_KINDS.
Definition section_index (k : SectionKind) : nat :=
  match k with
  | S_header => 0 | S_service => 1 | S_record => 2 | S_history => 3 | S_branch => 4 | S_membership => 5 | S_audit => 6
  end.

Definition EMPTY_SHA256 : pystr := lit "e3b0c44298fc1c149afbf4c8996fb92427ae41e4649b934ca495991b7852b855".

(** ** Frozen values: [_freeze_json], with the names of an object in UTF-16 order *)
Definition utf16_sort_key (s : pystr) : list N := concat (map (bytes_be 2) (concat (map utf16 s))).

Fixpoint freeze_portable (depth : Z) (j : json) : option json :=
  match j with
  | JNull => Some JNull
  | JScalar (PyBool b) => Some (JScalar (PyBool b))
  | JScalar (PyInt z) => if (- 2 ^ 63 <=? z) && (z <=? 2 ^ 63 - 1) then Some (JScalar (PyInt z)) else None
  | JScalar (PyFloat f) => if isfinite f then Some (JScalar (PyFloat f)) else None
  | JScalar (PyStr s) => if unicode s then Some (JScalar (PyStr s)) else None
  | JArr items =>
      if MAX_JSON_DEPTH <? depth + 1 then None else
      frozen ← mapM (freeze_portable (depth + 1)) items; Some (JArr frozen)
  | JObj entries =>
      if MAX_JSON_DEPTH <? depth + 1 then None else
      frozen ← mapM (fun e : pystr * json =>
                       let '(name, item) := e in
                       if unicode name then (v ← freeze_portable (depth + 1) item; Some (name, v)) else None) entries;
      if distinct (map fst frozen) then Some (JObj (sorted_by str_leb (fun e => utf16_sort_key e.1) frozen)) else None
  end.

(** [PortableJsonObject.from_mapping]. *)
Definition portable_object (entries : list (pystr * json)) : option (list (pystr * json)) :=
  match freeze_portable 0 (JObj entries) with Some (JObj es) => Some es | _ => None end.

(** ** The text *)
Definition portable_char (c : N) : pystr :=
  match short_escape c with
  | Some d => [92%N; d]
  | None => if (c <=? 31)%N then lit "\u00" ++ [hex_digit (c / 16); hex_digit (c mod 16)] else [c]
  end.
Definition portable_string (s : pystr) : pystr := 34%N :: concat (map portable_char s) ++ [34%N].

(** The binary64 data 1e-6 and 1e21. *)
Definition MICRO : spec_float := S754_finite false 4722366482869645 (-72).
Definition SEXTILLION : spec_float := S754_finite false 7629394531250000 17.

(** [int(exponent_text)]: a sign and digits. *)
Definition read_exponent (s : pystr) : Z :=
  match s with
  | c :: ds => if (c =? 45)%N then - Z.of_N (undec ds) else if (c =? 43)%N then Z.of_N (undec ds) else Z.of_N (undec s)
  | [] => 0
  end.

Section text.
Context `{FloatRepr}.

(** [_encode_binary64]; the [repr] of a float has no upper-case letters. *)
Definition encode_binary64 (f : spec_float) : option pystr :=
  if negb (isfinite f) then None else
  match f with
  | S754_finite negative _ _ =>
      let absolute := SFabs f in
      let raw := float_repr absolute in
      let sign := if negative then [45%N] else [] in
      if negb (existsb (fun c => c =? 101)%N raw) then
        Some (sign ++ (if bool_decide (drop (length raw - 2) raw = lit ".0") then take (length raw - 2) raw else raw))
      else
        let '(mantissa, rest) := span (fun c => negb (c =? 101)%N) raw in
        let exponent := read_exponent (tail rest) in
        let digits := List.filter (fun c => negb (c =? 46)%N) mantissa in
        if SFleb MICRO absolute && SFltb absolute SEXTILLION then
          let position := exponent + 1 in
          Some (sign ++ (if position <=? 0 then lit "0." ++ repeat 48%N (Z.to_nat (- position)) ++ digits
                         else if Z.of_nat (length digits) <=? position
                              then digits ++ repeat 48%N (Z.to_nat (position - Z.of_nat (length digits)))
                              else take (Z.to_nat position) digits ++ [46%N] ++ drop (Z.to_nat position) digits))
        else
          let scientific := take 1 digits ++ (if (1 <? length digits)%nat then 46%N :: drop 1 digits else []) in
          Some (sign ++ scientific ++ lit "e" ++ (if 0 <=? exponent then lit "+" else []) ++ dec_Z exponent)
  | _ => Some (lit "0")
  end.

(** [_encode_json]. *)
Fixpoint portable_text (j : json) : option pystr :=
  match j with
  | JNull => Some (lit "null")
  | JScalar (PyBool b) => Some (if b then lit "true" else lit "false")
  | JScalar (PyInt z) => Some (dec_Z z)
  | JScalar (PyFloat f) => encode_binary64 f
  | JScalar (PyStr s) => if unicode s then Some (portable_string s) else None
  | JArr items => texts ← mapM portable_text items; Some (91%N :: join_commas texts ++ [93%N])
  | JObj entries =>
      texts ← mapM (fun e : pystr * json =>
                      let '(name, item) := e in
                      if unicode name then (t ← portable_text item; Some (portable_string name ++ 58%N :: t)) else None) entries;
      Some (123%N :: join_commas texts ++ [125%N])
  end.

(** [canonical_json_bytes]. *)
Definition canonical_json_bytes (j : json) : option (list N) :=
  detached ← freeze_portable 0 j; text ← portable_text detached; Some (utf8 text).

Definition object_bytes (entries : list (pystr * json)) : option (list N) := canonical_json_bytes (JObj entries).
End text.

(** ** Reading: [_require_bounded_nesting] and [decode_canonical_json_object] *)
Record nesting := { ns_depth : Z; ns_string : bool; ns_escaped : bool }.

Definition nesting_step (n : nesting) (c : N) : option nesting :=
  let at_depth d := {| ns_depth := d; ns_string := false; ns_escaped := false |} in
  if ns_string n then
    Some (if ns_escaped n then {| ns_depth := ns_depth n; ns_string := true; ns_escaped := false |}
          else if (c =? 92)%N then {| ns_depth := ns_depth n; ns_string := true; ns_escaped := true |}
          else if (c =? 34)%N then at_depth (ns_depth n) else n)
  else if (c =? 34)%N then Some {| ns_depth := ns_depth n; ns_string := true; ns_escaped := ns_escaped n |}
  else if (c =? 91)%N || (c =? 123)%N then
    if MAX_JSON_DEPTH <? ns_depth n + 1 then None else Some (at_depth (ns_depth n + 1))
  else if (c =? 93)%N || (c =? 125)%N then
    if ns_depth n - 1 <? 0 then None else Some (at_depth (ns_depth n - 1))
  else Some n.

Definition bounded_nesting (text : pystr) : bool :=
  match foldl (fun n c => n ≫= fun n => nesting_step n c) (Some {| ns_depth := 0; ns_string := false; ns_escaped := false |}) text with
  | Some n => negb (ns_string n) && negb (ns_escaped n) && (ns_depth n =? 0)
  | None => false
  end.

Section reading.
Context `{FloatRead}.

(** The hooks of [json.loads] refuse integers out of range and floats and
    constants that are not finite, as freezing does, and repeated names: a text
    with one is not the canonical text of what it reads as. *)
Definition decode_canonical_json_object (bytes : list N) : option (list (pystr * json)) :=
  text ← utf8_decode bytes;
  if bool_decide (text = []) || bool_decide (head text = Some 65279%N) || negb (bounded_nesting text) then None else
  decoded ← json_loads text;
  detached ← freeze_portable 0 decoded;
  match detached with
  | JObj es => again ← canonical_json_bytes detached; if bool_decide (again = bytes) then Some es else None
  | _ => None
  end.
End reading.

(** ** Headers, frames, sections and the trailer *)
Record PortableHeader := {
  ph_package_version : pystr; ph_mcp_contract : pystr; ph_created_at : pystr; ph_source_backend : Backend
}.

(** [^[0-9A-Za-z][0-9A-Za-z.+_-]{0,63}$]. *)
Definition alphanumeric (c : N) : bool :=
  is_digit c || ((65 <=? c) && (c <=? 90))%N || ((97 <=? c) && (c <=? 122))%N.
Definition valid_version (s : pystr) : bool :=
  match s with
  | c :: r => alphanumeric c && (length r <=? 63)%nat
              && forallb (fun c => alphanumeric c || bool_decide (c ∈ [46; 43; 95; 45]%N)) r
  | [] => false
  end.

Definition read_backend (s : pystr) : option Backend :=
  List.find (fun b => bool_decide (backend_str b = s)) [SQLITE; POSTGRESQL].

Record PortableFrame := {
  pf_kind : SectionKind; pf_ordinal : Z; pf_payload : list (pystr * json); pf_sha256 : pystr
}.
Record PortableSection := { ps_kind : SectionKind; ps_count : Z; ps_sha256 : pystr }.
#[export] Instance PortableSection_eq_dec : EqDecision PortableSection.
Proof. solve_decision. Defined.
Record PortableTrailer := {
  pt_ordinal : Z; pt_bytes : Z; pt_root : pystr; pt_sections : list PortableSection
}.
#[export] Instance PortableTrailer_eq_dec : EqDecision PortableTrailer.
Proof. solve_decision. Defined.

Definition frame_number (z : Z) : bool := (0 <=? z) && (z <? MAX_BUNDLE_FRAMES).

Definition make_frame (f : PortableFrame) : option PortableFrame :=
  if frame_number (pf_ordinal f) && valid_sha256 (pf_sha256 f) then Some f else None.

Definition make_section (s : PortableSection) : option PortableSection :=
  if frame_number (ps_count s) && valid_sha256 (ps_sha256 s) then Some s else None.

Definition make_trailer (t : PortableTrailer) : option PortableTrailer :=
  if frame_number (pt_ordinal t) && (0 <=? pt_bytes t) && (pt_bytes t <=? ABSOLUTE_MAX_BUNDLE_BYTES)
     && valid_sha256 (pt_root t) && bool_decide (map ps_kind (pt_sections t) = SECTION_KINDS)
     && (foldr Z.add 0 (map ps_count (pt_sections t)) =? pt_ordinal t)
     && match last (pt_sections t) with
        | Some s => (ps_count s =? 0) && bool_decide (ps_sha256 s = EMPTY_SHA256)
        | None => false
        end
  then Some t else None.

(** [hashlib.sha256(data).hexdigest()]. *)
Definition digest_of (data : list N) : pystr := sha256_hex data.

Definition header_object (h : PortableHeader) : list (pystr * json) :=
  [ (lit "export_format_version", jint EXPORT_FORMAT_VERSION); (lit "canonicalization", jstr CANONICALIZATION_PROFILE);
    (lit "limit_profile", jstr LIMIT_PROFILE); (lit "producer_package", jstr PRODUCER_PACKAGE);
    (lit "producer_package_version", jstr (ph_package_version h));
    (lit "producer_mcp_contract", jstr (ph_mcp_contract h)); (lit "created_at", jstr (ph_created_at h));
    (lit "source_backend", jstr (backend_str (ph_source_backend h))) ].

Section frames.
Context `{FloatRead} `{IsoDates}.

(** [PortableHeader.__post_init__]: the instant is one that [strftime] gives back. *)
Definition make_header (h : PortableHeader) : option PortableHeader :=
  if valid_version (ph_package_version h) && valid_version (ph_mcp_contract h)
     && bool_decide (is_Some (decode_time (ph_created_at h))) then Some h else None.

(** [PortableHeader.payload] and [from_payload]. *)
Definition header_payload (h : PortableHeader) : option (list (pystr * json)) := portable_object (header_object h).

Definition header_from_payload (payload : list (pystr * json)) : option PortableHeader :=
  es ← exact_keys [lit "export_format_version"; lit "canonicalization"; lit "limit_profile"; lit "producer_package";
                   lit "producer_package_version"; lit "producer_mcp_contract"; lit "created_at"; lit "source_backend"]
         (JObj payload);
  version ← get_int es (lit "export_format_version");
  canonicalization ← get_str es (lit "canonicalization");
  profile ← get_str es (lit "limit_profile");
  package ← get_str es (lit "producer_package");
  package_version ← get_str es (lit "producer_package_version");
  contract ← get_str es (lit "producer_mcp_contract");
  created ← get_str es (lit "created_at");
  backend ← (get_str es (lit "source_backend") ≫= read_backend);
  if (version =? EXPORT_FORMAT_VERSION) && bool_decide (canonicalization = CANONICALIZATION_PROFILE)
     && bool_decide (profile = LIMIT_PROFILE) && bool_decide (package = PRODUCER_PACKAGE)
  then make_header {| ph_package_version := package_version; ph_mcp_contract := contract; ph_created_at := created;
                      ph_source_backend := backend |}
  else None.

(** The digest of a frame covers its kind, its ordinal and its payload. *)
Definition frame_core (kind : SectionKind) (ordinal : Z) (payload : list (pystr * json)) : list (pystr * json) :=
  [(lit "kind", jstr (section_text kind)); (lit "ordinal", jint ordinal); (lit "payload", JObj payload)].

Definition frame_digest (kind : SectionKind) (ordinal : Z) (payload : list (pystr * json)) : option pystr :=
  core ← portable_object (frame_core kind ordinal payload);
  bytes ← object_bytes core;
  Some (digest_of bytes).

Definition framed (entries : list (pystr * json)) : option (list N) :=
  value ← portable_object entries;
  bytes ← object_bytes value;
  let line := bytes ++ [10%N] in
  if Z.of_nat (length line) <=? MAX_FRAME_BYTES then Some line else None.

Definition encode_non_trailer_frame (kind : SectionKind) (ordinal : Z) (payload : list (pystr * json)) : option (list N) :=
  detached ← portable_object payload;
  if negb (frame_number ordinal) then None else
  digest ← frame_digest kind ordinal detached;
  framed (frame_core kind ordinal detached ++ [(lit "sha256", jstr digest)]).

Definition decode_non_trailer_frame (value : list (pystr * json)) : option PortableFrame :=
  es ← exact_keys [lit "kind"; lit "ordinal"; lit "payload"; lit "sha256"] (JObj value);
  kind ← (get_str es (lit "kind") ≫= read_section);
  ordinal ← get_int es (lit "ordinal");
  payload ← (dict_get es (lit "payload") ≫= fun j => match j with JObj p => Some p | _ => None end);
  digest ← get_str es (lit "sha256");
  frame ← make_frame {| pf_kind := kind; pf_ordinal := ordinal; pf_payload := payload; pf_sha256 := digest |};
  actual ← frame_digest kind ordinal payload;
  if negb (bool_decide (actual = digest)) then None else
  if bool_decide (kind = S_header) then (_ ← header_from_payload payload; Some frame) else Some frame.

Definition section_object (s : PortableSection) : list (pystr * json) :=
  [(lit "kind", jstr (section_text (ps_kind s))); (lit "count", jint (ps_count s)); (lit "sha256", jstr (ps_sha256 s))].

Definition trailer_object (t : PortableTrailer) : list (pystr * json) :=
  [ (lit "pre_trailer_byte_count", jint (pt_bytes t)); (lit "root_sha256", jstr (pt_root t));
    (lit "sections", JArr (map (fun s => JObj (section_object s)) (pt_sections t))) ].

Definition encode_trailer (t : PortableTrailer) : option (list N) :=
  framed [ (lit "kind", jstr (lit "trailer")); (lit "ordinal", jint (pt_ordinal t)); (lit "payload", JObj (trailer_object t)) ].

Definition decode_section (expected : SectionKind) (raw : json) : option PortableSection :=
  es ← exact_keys [lit "kind"; lit "count"; lit "sha256"] raw;
  kind ← get_str es (lit "kind");
  if negb (bool_decide (kind = section_text expected)) then None else
  count ← get_int es (lit "count");
  digest ← get_str es (lit "sha256");
  make_section {| ps_kind := expected; ps_count := count; ps_sha256 := digest |}.

Fixpoint decode_sections (expected : list SectionKind) (raws : list json) : option (list PortableSection) :=
  match expected, raws with
  | [], [] => Some []
  | k :: expected', raw :: raws' => s ← decode_section k raw; rest ← decode_sections expected' raws'; Some (s :: rest)
  | _, _ => None
  end.

Definition decode_trailer (value : list (pystr * json)) : option PortableTrailer :=
  es ← exact_keys [lit "kind"; lit "ordinal"; lit "payload"] (JObj value);
  kind ← get_str es (lit "kind");
  if negb (bool_decide (kind = lit "trailer")) then None else
  payload ← (dict_get es (lit "payload")
             ≫= exact_keys [lit "pre_trailer_byte_count"; lit "root_sha256"; lit "sections"]);
  raws ← (dict_get payload (lit "sections") ≫= fun j => match j with JArr l => Some l | _ => None end);
  sections ← decode_sections SECTION_KINDS raws;
  ordinal ← get_int es (lit "ordinal");
  bytes ← get_int payload (lit "pre_trailer_byte_count");
  root ← get_str payload (lit "root_sha256");
  make_trailer {| pt_ordinal := ordinal; pt_bytes := bytes; pt_root := root; pt_sections := sections |}.

(** ** [OrderedBundleDigests]: the digests as the bytes that went into them *)
Record digests := {
  dg_next : Z; dg_section : nat; dg_bytes : Z; dg_root : list N; dg_hashed : list (list N); dg_counts : list Z
}.

Definition no_digests : digests :=
  {| dg_next := 0; dg_section := 0; dg_bytes := 0; dg_root := []; dg_hashed := map (fun _ => []) SECTION_KINDS;
     dg_counts := map (fun _ => 0) SECTION_KINDS |}.

Definition count_at (d : digests) (i : nat) : Z := default 0 (dg_counts d !! i).

Definition add_frame (d : digests) (f : PortableFrame) (line : list N) : option digests :=
  if negb (bool_decide (last line = Some 10%N)) || (MAX_FRAME_BYTES <? Z.of_nat (length line))
     || negb (pf_ordinal f =? dg_next d) || bool_decide (pf_kind f = S_audit) then None else
  again ← encode_non_trailer_frame (pf_kind f) (pf_ordinal f) (pf_payload f);
  if negb (bool_decide (again = line)) then None else
  let i := section_index (pf_kind f) in
  if (i <? dg_section d)%nat then None else
  if (if bool_decide (pf_kind f = S_header) then negb (pf_ordinal f =? 0) || negb (count_at d 0 =? 0)
      else negb (count_at d 0 =? 1)) then None else
  if (if bool_decide (pf_kind f = S_service) then negb (pf_ordinal f =? 1) || negb (count_at d 1 =? 0)
      else (1 <? i)%nat && negb (count_at d 1 =? 1)) then None else
  if MAX_BUNDLE_FRAMES - 1 <=? dg_next d then None else
  Some {| dg_next := dg_next d + 1; dg_section := i; dg_bytes := dg_bytes d + Z.of_nat (length line);
          dg_root := dg_root d ++ line; dg_hashed := alter (fun h => h ++ line) i (dg_hashed d);
          dg_counts := alter (fun n => n + 1) i (dg_counts d) |}.

Fixpoint digest_sections (kinds : list SectionKind) (counts : list Z) (hashed : list (list N))
  : option (list PortableSection) :=
  match kinds, counts, hashed with
  | k :: ks, n :: ns, h :: hs =>
      s ← make_section {| ps_kind := k; ps_count := n; ps_sha256 := digest_of h |};
      rest ← digest_sections ks ns hs;
      Some (s :: rest)
  | _, _, _ => Some []
  end.

Definition digests_trailer (d : digests) : option PortableTrailer :=
  if negb (count_at d 0 =? 1) || negb (count_at d 1 =? 1) then None else
  sections ← digest_sections SECTION_KINDS (dg_counts d) (dg_hashed d);
  make_trailer {| pt_ordinal := dg_next d; pt_bytes := dg_bytes d; pt_root := digest_of (dg_root d); pt_sections := sections |}.

Definition verify_digests (d : digests) (t : PortableTrailer) : option unit :=
  expected ← digests_trailer d; if bool_decide (t = expected) then Some tt else None.

(** ** [PortableBundleSummary] *)
Record PortableBundleSummary := {
  bs_header : PortableHeader; bs_sections : list PortableSection; bs_root_sha256 : pystr;
  bs_pre_trailer_bytes : Z; bs_total_bytes : Z; bs_frames : Z
}.

Definition make_bundle_summary (s : PortableBundleSummary) : option PortableBundleSummary :=
  if bool_decide (map ps_kind (bs_sections s) = SECTION_KINDS) && valid_sha256 (bs_root_sha256 s)
     && (0 <=? bs_pre_trailer_bytes s) && (bs_pre_trailer_bytes s <? bs_total_bytes s)
     && (bs_total_bytes s <=? ABSOLUTE_MAX_BUNDLE_BYTES) && (3 <=? bs_frames s) && (bs_frames s <=? MAX_BUNDLE_FRAMES)
     && (foldr Z.add 0 (map ps_count (bs_sections s)) + 1 =? bs_frames s)
  then Some s else None.

Definition summary_of (h : PortableHeader) (t : PortableTrailer) (total : Z) : option PortableBundleSummary :=
  make_bundle_summary {| bs_header := h; bs_sections := pt_sections t; bs_root_sha256 := pt_root t;
                  bs_pre_trailer_bytes := pt_bytes t; bs_total_bytes := total; bs_frames := pt_ordinal t + 1 |}.

(** [PortableBundleLimits]. *)
Definition valid_limits (maximum : Z) : bool := (1 <=? maximum) && (maximum <=? ABSOLUTE_MAX_BUNDLE_BYTES).

(** ** [PortableBundleEncoder] *)
Record encoder := { en_digests : digests; en_header : option PortableHeader }.
Definition new_encoder : encoder := {| en_digests := no_digests; en_header := None |}.

Definition encoder_add (maximum : Z) (e : encoder) (kind : SectionKind) (payload : list (pystr * json))
  : option (list N * encoder) :=
  line ← encode_non_trailer_frame kind (dg_next (en_digests e)) payload;
  decoded ← (decode_canonical_json_object (removelast line) ≫= decode_non_trailer_frame);
  if maximum <? dg_bytes (en_digests e) + Z.of_nat (length line) then None else
  d ← add_frame (en_digests e) decoded line;
  header ← (if bool_decide (pf_kind decoded = S_header)
            then (h ← header_from_payload (pf_payload decoded); Some (Some h)) else Some (en_header e));
  Some (line, {| en_digests := d; en_header := header |}).

Definition encoder_finish (maximum : Z) (e : encoder) : option (list N * PortableBundleSummary) :=
  header ← en_header e;
  trailer ← digests_trailer (en_digests e);
  line ← encode_trailer trailer;
  let total := pt_bytes trailer + Z.of_nat (length line) in
  if maximum <? total then None else
  summary ← summary_of header trailer total;
  Some (line, summary).

Fixpoint encode_frames (maximum : Z) (e : encoder) (frames : list (SectionKind * list (pystr * json)))
  : option (list (list N) * encoder) :=
  match frames with
  | [] => Some ([], e)
  | (kind, payload) :: frames' =>
      '(line, e') ← encoder_add maximum e kind payload;
      '(lines, e'') ← encode_frames maximum e' frames';
      Some (line :: lines, e'')
  end.

(** The frames of a bundle and the trailer, one line each. *)
Definition encode_bundle (maximum : Z) (frames : list (SectionKind * list (pystr * json)))
  : option (list (list N) * PortableBundleSummary) :=
  '(lines, e) ← encode_frames maximum new_encoder frames;
  '(trailer, summary) ← encoder_finish maximum e;
  Some (lines ++ [trailer], summary).

(** ** The validation of a stream: [validate_and_spool_bundle] *)

(** [readline(limit)]: up to a newline, and at most [limit] bytes. *)
Fixpoint readline (limit : Z) (s : list N) : list N * list N :=
  match s with
  | [] => ([], [])
  | c :: s' =>
      if limit <=? 0 then ([], s)
      else if (c =? 10)%N then ([c], s')
      else let '(l, r) := readline (limit - 1) s' in (c :: l, r)
  end.

Definition read_frame (s : list N) : option (list N * list N) :=
  let '(line, rest) := readline (MAX_FRAME_BYTES + 1) s in
  if bool_decide (line = []) || (MAX_FRAME_BYTES <? Z.of_nat (length line))
     || negb (bool_decide (last line = Some 10%N)) || bool_decide (line = [10%N])
     || bool_decide (drop (length line - 2) line = [13%N; 10%N])
  then None else Some (line, rest).

(** The loop over the frames; the lines are what goes to the spool.  Running
    out of [fuel] is [Some None]: it does not happen when there is one for every
    byte. *)
Fixpoint validate_frames (fuel : nat) (maximum : Z) (d : digests) (header : option PortableHeader) (total : Z)
    (s : list N) : option (option (list (list N) * PortableBundleSummary)) :=
  match fuel with
  | O => Some None
  | S fuel' =>
      '(line, rest) ← read_frame s;
      let total' := total + Z.of_nat (length line) in
      if maximum <? total' then None else
      if MAX_BUNDLE_FRAMES <? dg_next d + 1 then None else
      decoded ← decode_canonical_json_object (removelast line);
      if bool_decide (get_str decoded (lit "kind") = Some (lit "trailer")) then
        trailer ← decode_trailer decoded;
        verify_digests d trailer ;;
        header ← header;
        if negb (bool_decide (rest = [])) then None else
        summary ← summary_of header trailer total';
        Some (Some ([line], summary))
      else
        frame ← decode_non_trailer_frame decoded;
        d' ← add_frame d frame line;
        header' ← (if bool_decide (pf_kind frame = S_header)
                   then (h ← header_from_payload (pf_payload frame); Some (Some h)) else Some header);
        found ← validate_frames fuel' maximum d' header' total' rest;
        Some ('(lines, summary) ← found; Some (line :: lines, summary))
  end.

Definition validate_bundle (maximum : Z) (source : list N) : option (list (list N) * PortableBundleSummary) :=
  found ← validate_frames (S (length source)) maximum no_digests None 0 source; found.
End frames.
