(* ===== verification/PortableText.v ===== *)
(** * PortableText: the canonical text of a bundle is a faithful code

    Freezing is idempotent; a frozen value without floats has the text of
    [JsonText], stays within the nesting bound, and is read back; and a frame's
    bytes hold no newline, so that lines delimit frames. *)
From S2P Require Import Relational Models.
From S2P Require Export PortableCodec Frozen Cursors.
From S2P Require Import Prelude Values Json JsonText Sha256 Manifest.

(** ** Options *)
Lemma mapM_total {A B} (f : A -> option B) (g : A -> B) l :
  (forall x, x ∈ l -> f x = Some (g x)) -> mapM f l = Some (map g l).
Proof.
  induction l as [|x l IH]; intros Hf; [done|]. cbn [mapM map].
  rewrite (Hf x ltac:(by left)). cbn [mbind option_bind]. by rewrite IH by (intros y Hy; apply Hf; by right).
Qed.

Lemma mapM_id {A} (f : A -> option A) l : (forall x, x ∈ l -> f x = Some x) -> mapM f l = Some l.
Proof. intros Hf. rewrite (mapM_total f id) by done. by rewrite map_id. Qed.

Lemma mapM_map {A B C} (f : B -> option C) (g : A -> B) l : mapM f (map g l) = mapM (fun x => f (g x)) l.
Proof. induction l as [|x l IH]; [done|]. cbn [map mapM]. by rewrite IH. Qed.

Lemma mapM_in {A B} (f : A -> option B) l ys y : mapM f l = Some ys -> y ∈ ys -> exists x, x ∈ l /\ f x = Some y.
Proof.
  intros Hl%mapM_Some_1 Hy. apply list_elem_of_lookup in Hy as [i Hi].
  destruct (Forall2_lookup_r _ _ _ _ _ Hl Hi) as (x & Hx & Hf). exists x. split; [|done].
  by eapply list_elem_of_lookup_2.
Qed.

(** ** Frozen values *)
Definition portable_key (e : pystr * json) : pystr := utf16_sort_key e.1.

Definition freeze_entry (d : Z) (e : pystr * json) : option (pystr * json) :=
  let '(name, item) := e in if unicode name then (v ← freeze_portable d item; Some (name, v)) else None.

Lemma freeze_entry_spec d e e' :
  freeze_entry d e = Some e' <-> e'.1 = e.1 /\ unicode e.1 = true /\ freeze_portable d e.2 = Some e'.2.
Proof.
  destruct e as [name item], e' as [name' item']. unfold freeze_entry. cbn [fst snd].
  destruct (unicode name); [|split; [done|intros (_ & ? & _); done]].
  destruct (freeze_portable d item) as [v|]; cbn [mbind option_bind]; [|split; [done|intros (_ & _ & ?); done]].
  split; [intros [= -> ->]; done|intros (-> & _ & [= ->]); done].
Qed.

Lemma freeze_object_spec d entries k :
  freeze_portable d (JObj entries) = Some k <->
  exists fs, k = JObj (sorted_by str_leb portable_key fs) /\ (d + 1 <= MAX_JSON_DEPTH)
             /\ mapM (freeze_entry (d + 1)) entries = Some fs /\ NoDup (map fst fs).
Proof.
  cbn [freeze_portable]. change (fun e : pystr * json => let '(name, item) := e in
    if unicode name then v ← freeze_portable (d + 1) item; Some (name, v) else None) with (freeze_entry (d + 1)).
  destruct (Z.ltb_spec MAX_JSON_DEPTH (d + 1)) as [Hd|Hd].
  { split; [done|]. intros (fs & _ & ? & _). lia. }
  destruct (mapM (freeze_entry (d + 1)) entries) as [fs|]; cbn [mbind option_bind].
  - destruct (distinct (map fst fs)) eqn:E.
    + apply distinct_spec in E. split; [intros [= <-]; by exists fs|]. by intros (fs' & -> & _ & [= <-] & _).
    + split; [done|]. intros (fs' & _ & _ & [= <-] & Hnd%distinct_spec). congruence.
  - split; [done|]. by intros (fs & _ & _ & ? & _).
Qed.

Lemma freeze_array_spec d items k :
  freeze_portable d (JArr items) = Some k <->
  exists fs, k = JArr fs /\ (d + 1 <= MAX_JSON_DEPTH) /\ mapM (freeze_portable (d + 1)) items = Some fs.
Proof.
  cbn [freeze_portable]. destruct (Z.ltb_spec MAX_JSON_DEPTH (d + 1)) as [Hd|Hd].
  { split; [done|]. intros (fs & _ & ? & _). lia. }
  destruct (mapM (freeze_portable (d + 1)) items) as [fs|]; cbn [mbind option_bind].
  - split; [intros [= <-]; by exists fs|]. by intros (fs' & -> & _ & [= <-]).
  - split; [done|]. by intros (fs & _ & _ & ?).
Qed.

Lemma freeze_scalar d v k : freeze_portable d (JScalar v) = Some k -> k = JScalar v.
Proof. destruct v; cbn [freeze_portable]; intros Hk; by repeat case_match; inversion Hk. Qed.

Lemma freeze_idem d j k : freeze_portable d j = Some k -> freeze_portable d k = Some k.
Proof.
  revert d k. induction j as [|v|items IH|entries IH] using json_ind'; intros d k Hk.
  - by injection Hk as <-.
  - pose proof (freeze_scalar _ _ _ Hk) as ->. done.
  - apply freeze_array_spec in Hk as (fs & -> & Hd & Hfs). apply freeze_array_spec. exists fs. split_and!; [done..|].
    apply mapM_id. intros y Hy. destruct (mapM_in _ _ _ _ Hfs Hy) as (x & Hx & Hf).
    rewrite Forall_forall in IH. by apply (IH x Hx).
  - apply freeze_object_spec in Hk as (fs & -> & Hd & Hfs & Hnd). apply freeze_object_spec.
    exists (sorted_by str_leb portable_key fs). split_and!; [|done| |].
    + f_equal. symmetry. apply sorted_by_id, sorted_by_str_sorted.
    + apply mapM_id. intros y Hy%elem_of_sorted_by. destruct (mapM_in _ _ _ _ Hfs Hy) as (x & Hx & Hf).
      apply freeze_entry_spec in Hf as (Hn & Hu & Hf). apply freeze_entry_spec. rewrite Forall_forall in IH.
      split_and!; [done|by rewrite Hn|]. by apply (IH x Hx).
    + by rewrite sorted_by_perm.
Qed.

(** What a value that freezing leaves alone consists of. *)
Definition settled (d : Z) (j : json) : Prop := freeze_portable d j = Some j.

Lemma settled_array d items :
  settled d (JArr items) <-> (d + 1 <= MAX_JSON_DEPTH) /\ forall x, x ∈ items -> settled (d + 1) x.
Proof.
  unfold settled. rewrite freeze_array_spec. split.
  - intros (fs & [= <-] & Hd & Hfs). split; [done|]. intros x Hx.
    destruct (mapM_in _ _ _ _ Hfs Hx) as (y & _ & Hf). by apply freeze_idem in Hf.
  - intros [Hd Hx]. exists items. split_and!; [done..|by apply mapM_id].
Qed.

Lemma settled_object d es :
  settled d (JObj es) ->
  (d + 1 <= MAX_JSON_DEPTH) /\ es = sorted_by str_leb portable_key es /\ NoDup (map fst es)
  /\ forall e, e ∈ es -> unicode e.1 = true /\ settled (d + 1) e.2.
Proof.
  unfold settled. intros (fs & [= Hes] & Hd & Hfs & Hnd)%freeze_object_spec.
  split_and!; [done| | |].
  - rewrite Hes at 1. rewrite Hes. symmetry. apply sorted_by_id, sorted_by_str_sorted.
  - by rewrite Hes, sorted_by_perm.
  - intros e He. rewrite Hes in He. apply elem_of_sorted_by in He. destruct (mapM_in _ _ _ _ Hfs He) as (x & _ & Hf).
    apply freeze_entry_spec in Hf as (Hn & Hu & Hf). rewrite Hn. split; [done|]. by apply freeze_idem in Hf.
Qed.

Lemma settled_object_intro d es :
  (d + 1 <= MAX_JSON_DEPTH) -> es = sorted_by str_leb portable_key es -> NoDup (map fst es) ->
  (forall e, e ∈ es -> unicode e.1 = true /\ settled (d + 1) e.2) -> settled d (JObj es).
Proof.
  intros Hd Hes Hnd He. apply freeze_object_spec. exists es. split_and!; [by rewrite <- Hes|done| |done].
  apply mapM_id. intros e Hin. apply freeze_entry_spec. by destruct (He e Hin).
Qed.

(** Freezing keeps floats as they are. *)
Lemma freeze_portable_floats d j k : freeze_portable d j = Some k -> floats_valid j = true -> floats_valid k = true.
Proof.
  revert d k. induction j as [|v|items IH|entries IH] using json_ind'; intros d k Hk Hj.
  - by injection Hk as <-.
  - pose proof (freeze_scalar _ _ _ Hk) as ->. done.
  - apply freeze_array_spec in Hk as (fs & -> & Hd & Hfs). cbn [floats_valid] in *. rewrite forallb_forall in *.
    intros y Hy%list_elem_of_In. destruct (mapM_in _ _ _ _ Hfs Hy) as (x & Hx & Hf).
    rewrite Forall_forall in IH. by apply (IH x Hx _ _ Hf), Hj, list_elem_of_In.
  - apply freeze_object_spec in Hk as (fs & -> & Hd & Hfs & Hnd). cbn [floats_valid] in *. rewrite forallb_forall in *.
    intros y Hy%list_elem_of_In%elem_of_sorted_by. destruct (mapM_in _ _ _ _ Hfs Hy) as (x & Hx & Hf).
    apply freeze_entry_spec in Hf as (_ & _ & Hf). rewrite Forall_forall in IH.
    by apply (IH x Hx _ _ Hf), Hj, list_elem_of_In.
Qed.

(** ** Values without floats *)
Fixpoint floatless (j : json) : bool :=
  match j with
  | JNull => true
  | JScalar v => match v with PyFloat _ => false | _ => true end
  | JArr items => forallb floatless items
  | JObj entries => forallb (fun e => floatless e.2) entries
  end.

Lemma settled_readable d j : settled d j -> floatless j = true -> readable j = true.
Proof.
  revert d. induction j as [|v|items IH|entries IH] using json_ind'; intros d Hs Hj; [done|..].
  - destruct v as [s|z|f|b]; try done. unfold settled in Hs. cbn [freeze_portable] in Hs.
    cbn [readable is_signed_64_integer]. unfold SIGNED_64_MIN, SIGNED_64_MAX. by case_match.
  - apply settled_array in Hs as [_ Hs]. cbn [readable floatless] in *. rewrite forallb_forall in *.
    rewrite Forall_forall in IH. intros x Hx. assert (x ∈ items) as Hin by by apply list_elem_of_In.
    by apply (IH x Hin (d + 1)); [apply Hs|apply Hj].
  - apply settled_object in Hs as (_ & _ & Hnd & Hs). cbn [readable floatless] in *.
    rewrite (proj2 (distinct_spec _)) by done. cbn [andb]. rewrite forallb_forall in *. rewrite Forall_forall in IH.
    intros x Hx. assert (x ∈ entries) as Hin by by apply list_elem_of_In.
    by apply (IH x Hin (d + 1)); [apply Hs|apply Hj].
Qed.

Section text.
Context `{FR : FloatRepr}.

Lemma portable_char_escape c : portable_char c = escape_char c.
Proof.
  unfold portable_char, escape_char. destruct (short_escape c) as [e|]; [done|].
  replace (c <? 32)%N with (c <=? 31)%N by (apply eq_true_iff_eq; bools; lia).
  destruct (N.leb_spec c 31) as [Hc|Hc]; [|done].
  replace (hex_digits 4 c) with ([48; 48; hex_digit (c / 16); hex_digit (c mod 16)]%N); [done|].
  cbn [hex_digits app]. replace (c / 16 / 16)%N with 0%N by euclid. replace (c / 16 mod 16)%N with (c / 16)%N by euclid.
  done.
Qed.

Lemma portable_string_quoted s : portable_string s = quoted s.
Proof. unfold portable_string, quoted. f_equal. f_equal. f_equal. apply map_ext, portable_char_escape. Qed.

(** Their text is the one [json.dumps] gives. *)
Lemma portable_text_plain d j : settled d j -> floatless j = true -> portable_text j = Some (plain_text j).
Proof.
  revert d. induction j as [|v|items IH|entries IH] using json_ind'; intros d Hs Hj; [done|..].
  - destruct v as [s|z|f|b]; try done. unfold settled in Hs. cbn [freeze_portable portable_text] in *.
    destruct (unicode s); [|done]. by rewrite portable_string_quoted.
  - apply settled_array in Hs as [_ Hs]. cbn [portable_text floatless plain_text] in *.
    rewrite forallb_forall in Hj. rewrite Forall_forall in IH. rewrite (mapM_total _ plain_text); [done|].
    intros x Hx. apply (IH x Hx (d + 1)); [by apply Hs|]. by apply Hj, list_elem_of_In.
  - apply settled_object in Hs as (_ & _ & _ & Hs). cbn [portable_text floatless plain_text] in *.
    rewrite forallb_forall in Hj. rewrite Forall_forall in IH.
    rewrite (mapM_total _ (fun e => quoted e.1 ++ 58%N :: plain_text e.2)); [done|].
    intros [k x] Hx. destruct (Hs _ Hx) as [Hu Hx']. cbn [fst snd] in *. rewrite Hu.
    assert (portable_text x = Some (plain_text x)) as ->; [|by rewrite portable_string_quoted].
    apply (IH _ Hx (d + 1)); [done|]. by apply (Hj (k, x)), list_elem_of_In.
Qed.

(** *** Nesting *)
Definition at_depth (d : Z) : nesting := {| ns_depth := d; ns_string := false; ns_escaped := false |}.
Definition in_string (d : Z) : nesting := {| ns_depth := d; ns_string := true; ns_escaped := false |}.

Definition nests (s : pystr) (n n' : nesting) : Prop := forall r,
  foldl (fun n c => n ≫= fun n => nesting_step n c) (Some n) (s ++ r)
  = foldl (fun n c => n ≫= fun n => nesting_step n c) (Some n') r.

Lemma nests_app s t n n' n'' : nests s n n' -> nests t n' n'' -> nests (s ++ t) n n''.
Proof. intros Hs Ht r. by rewrite <- app_assoc, Hs, Ht. Qed.

Lemma nests_cons c s n n' n'' : nesting_step n c = Some n' -> nests s n' n'' -> nests (c :: s) n n''.
Proof. intros Hc Hs r. cbn [app foldl mbind option_bind]. rewrite Hc. apply Hs. Qed.

Lemma nests_nil n : nests [] n n.
Proof. by intros r. Qed.

Lemma hex_digit_plain n : (n < 16)%N -> hex_digit n <> 92%N /\ hex_digit n <> 34%N.
Proof. unfold hex_digit. intros Hn. case_match; bools; lia. Qed.

Lemma nests_char d c : nests (escape_char c) (in_string d) (in_string d).
Proof.
  unfold escape_char. destruct (short_escape c) as [e|] eqn:He.
  - do 2 (eapply nests_cons; [done|]). apply nests_nil.
  - apply short_escape_none in He as [H92 H34]. destruct (N.ltb_spec c 32) as [Hc|Hc].
    + destruct (hex4_control c Hc) as (y & z & Hyz & _). rewrite Hyz.
      assert (Forall (fun x => x <> 92 /\ x <> 34)%N [48; 48; y; z]%N) as Hh.
      { rewrite <- Hyz. cbn [hex_digits app].
        repeat first [apply Forall_nil_2 | apply Forall_cons_2; [apply hex_digit_plain; euclid|]]. }
      do 2 (eapply nests_cons; [done|]). change (nests [48; 48; y; z]%N (in_string d) (in_string d)).
      generalize dependent [48; 48; y; z]%N. intros l _ Hl. induction Hl as [|x l [Hx Hx'] _ IH]; [apply nests_nil|].
      eapply nests_cons; [|exact IH]. unfold nesting_step, in_string. cbn [ns_string ns_escaped].
      by rewrite (proj2 (N.eqb_neq _ _) Hx), (proj2 (N.eqb_neq _ _) Hx').
    + eapply nests_cons; [|apply nests_nil]. unfold nesting_step, in_string. cbn [ns_string ns_escaped].
      by rewrite (proj2 (N.eqb_neq _ _) H92), (proj2 (N.eqb_neq _ _) H34).
Qed.

Lemma nests_quoted d s : nests (quoted s) (at_depth d) (at_depth d).
Proof.
  unfold quoted. eapply nests_cons; [done|]. apply nests_app with (in_string d).
  - induction s as [|c s IH]; [apply nests_nil|]. cbn [map concat]. eapply nests_app; [apply nests_char|exact IH].
  - eapply nests_cons; [done|apply nests_nil].
Qed.

Definition no_bracket (c : N) : bool :=
  negb ((c =? 34) || (c =? 91) || (c =? 93) || (c =? 123) || (c =? 125))%N.

Lemma nests_other d s : forallb no_bracket s = true -> nests s (at_depth d) (at_depth d).
Proof.
  induction s as [|c s IH]; [intros _; apply nests_nil|]. cbn [forallb]. intros [Hc Hs]%andb_true_iff.
  eapply nests_cons; [|by apply IH]. unfold no_bracket in Hc. unfold nesting_step, at_depth. cbn [ns_string]. bools.
  by rewrite !(proj2 (N.eqb_neq c _)) by lia.
Qed.

Lemma nests_join {A} (f : A -> pystr) d l :
  (forall x, x ∈ l -> nests (f x) (at_depth d) (at_depth d)) ->
  nests (join_commas (map f l)) (at_depth d) (at_depth d).
Proof.
  intros Hf. destruct l as [|x l]; [apply nests_nil|]. cbn [map join_commas].
  eapply nests_app; [by apply Hf; left|]. assert (forall y, y ∈ l -> nests (f y) (at_depth d) (at_depth d)) as Hl
    by (intros y Hy; apply Hf; by right). clear Hf. induction l as [|y l IH]; [apply nests_nil|]. cbn [map concat].
  eapply nests_app; [eapply nests_cons; [done|]; by apply Hl; left|]. apply IH. intros z Hz. apply Hl. by right.
Qed.

Lemma nests_plain d j : 0 <= d -> settled d j -> floatless j = true -> nests (plain_text j) (at_depth d) (at_depth d).
Proof.
  revert d. induction j as [|v|items IH|entries IH] using json_ind'; intros d Hd Hs Hj.
  - by apply nests_other.
  - destruct v as [s|z|f|b]; try done.
    + apply nests_quoted.
    + apply nests_other. destruct (dec_Z_number z) as [Hn _]. cbn [plain_text plain_scalar scalar_text].
      rewrite forallb_forall in *. intros c Hc. specialize (Hn c Hc). unfold number_char, no_bracket, is_digit in *.
      bools. lia.
    + apply nests_other. by destruct b.
  - apply settled_array in Hs as [Hd' Hs]. cbn [floatless plain_text] in *. rewrite forallb_forall in Hj.
    rewrite Forall_forall in IH. apply nests_cons with (at_depth (d + 1)).
    { unfold nesting_step. cbn. by rewrite (proj2 (Z.ltb_ge _ _)) by done. }
    eapply nests_app; [|eapply nests_cons; [|apply nests_nil]].
    + apply nests_join. intros x Hx. apply IH; [done|lia|by apply Hs|]. by apply Hj, list_elem_of_In.
    + unfold nesting_step. cbn. by rewrite (proj2 (Z.ltb_ge _ _)), Z.add_simpl_r by lia.
  - apply settled_object in Hs as (Hd' & _ & _ & Hs). cbn [floatless plain_text] in *. rewrite forallb_forall in Hj.
    rewrite Forall_forall in IH. apply nests_cons with (at_depth (d + 1)).
    { unfold nesting_step. cbn. by rewrite (proj2 (Z.ltb_ge _ _)) by done. }
    eapply nests_app; [|eapply nests_cons; [|apply nests_nil]].
    + apply nests_join. intros x Hx. eapply nests_app; [apply nests_quoted|]. eapply nests_cons; [done|].
      apply IH; [done|lia|by apply Hs|]. by apply Hj, list_elem_of_In.
    + unfold nesting_step. cbn. by rewrite (proj2 (Z.ltb_ge _ _)), Z.add_simpl_r by lia.
Qed.

Lemma bounded_plain j : settled 0 j -> floatless j = true -> bounded_nesting (plain_text j) = true.
Proof.
  intros Hs Hj. pose proof (nests_plain 0 j ltac:(lia) Hs Hj []) as Hn. rewrite app_nil_r in Hn.
  unfold bounded_nesting. change {| ns_depth := 0; ns_string := false; ns_escaped := false |} with (at_depth 0).
  by rewrite Hn.
Qed.
End text.

(** ** What is written is read back *)
Lemma settled_wf d j : settled d j -> floatless j = true -> json_wf j = true.
Proof.
  revert d. induction j as [|v|items IH|entries IH] using json_ind'; intros d Hs Hj; [done|..].
  - destruct v as [s|z|f|b]; try done. unfold settled in Hs. cbn [freeze_portable json_wf scalar_wf] in *.
    by destruct (unicode s).
  - apply settled_array in Hs as [_ Hs]. cbn [json_wf floatless] in *. rewrite forallb_forall in *.
    rewrite Forall_forall in IH. intros x Hx. assert (x ∈ items) as Hin by by apply list_elem_of_In.
    by apply (IH x Hin (d + 1)); [apply Hs|apply Hj].
  - apply settled_object in Hs as (_ & _ & _ & Hs). cbn [json_wf floatless] in *. rewrite forallb_forall in *.
    rewrite Forall_forall in IH. intros x Hx. assert (x ∈ entries) as Hin by by apply list_elem_of_In.
    destruct (Hs x Hin) as [-> Hx']. cbn [andb]. by apply (IH x Hin (d + 1)); [|apply Hj].
Qed.

Section reading.
Context `{FloatRead}.

Lemma settled_bytes j : settled 0 j -> floatless j = true -> canonical_json_bytes j = Some (utf8 (plain_text j)).
Proof.
  intros Hs Hj. unfold canonical_json_bytes. unfold settled in Hs. rewrite Hs. cbn [mbind option_bind].
  by rewrite (portable_text_plain 0).
Qed.

Lemma decode_settled es :
  settled 0 (JObj es) -> floatless (JObj es) = true ->
  decode_canonical_json_object (utf8 (plain_text (JObj es))) = Some es.
Proof.
  intros Hs Hj. unfold decode_canonical_json_object.
  rewrite utf8_roundtrip by (by apply plain_unicode, (settled_wf 0)). cbn [mbind option_bind].
  rewrite bounded_plain by done. rewrite !bool_decide_false by (by cbn [plain_text head]). cbn [orb negb].
  rewrite json_loads_plain by (by apply (settled_readable 0)). cbn [mbind option_bind].
  pose proof (settled_bytes _ Hs Hj) as Hb. unfold settled in Hs. rewrite Hs. cbn [mbind option_bind].
  by rewrite Hb; cbn [mbind option_bind]; rewrite bool_decide_true.
Qed.

(** What is read is settled and its text is the text that was read. *)
Lemma decode_canonical_sound bytes es :
  decode_canonical_json_object bytes = Some es ->
  settled 0 (JObj es) /\ canonical_json_bytes (JObj es) = Some bytes.
Proof.
  unfold decode_canonical_json_object. intros (text & _ & Ht)%bind_Some. destruct (_ || _); [done|].
  apply bind_Some in Ht as (decoded & _ & (detached & Hd & Hr)%bind_Some).
  destruct detached as [| | |es']; try done. apply bind_Some in Hr as (again & Ha & Hr).
  case_bool_decide as Heq; [|done]. injection Hr as ->. rewrite <- Heq. split; [|done]. by apply freeze_idem in Hd.
Qed.
End reading.

(** ** Lines *)
Definition lineless (s : pystr) : bool := forallb (fun c => negb (c =? 10)%N) s.

Lemma lineless_app s t : lineless (s ++ t) = lineless s && lineless t.
Proof. apply forallb_app. Qed.

Lemma lineless_cons c s : lineless (c :: s) = negb (c =? 10)%N && lineless s.
Proof. done. Qed.

Lemma lineless_concat l : (forall s, s ∈ l -> lineless s = true) -> lineless (concat l) = true.
Proof.
  induction l as [|s l IH]; intros Hl; [done|]. cbn [concat]. rewrite lineless_app, Hl by left. apply IH.
  intros t Ht. apply Hl. by right.
Qed.

Lemma lineless_join parts : (forall s, s ∈ parts -> lineless s = true) -> lineless (join_commas parts) = true.
Proof.
  intros Hp. destruct parts as [|s parts]; [done|]. cbn [join_commas].
  rewrite lineless_app, Hp by left. apply lineless_concat. intros t (u & -> & Hu)%elem_of_map.
  rewrite lineless_cons, Hp by (by right). done.
Qed.

Lemma lineless_number s : forallb number_char s = true -> lineless s = true.
Proof.
  unfold lineless. rewrite !forallb_forall. intros Hs c Hc. specialize (Hs c Hc).
  unfold number_char, is_digit in Hs. bools. lia.
Qed.

Lemma lineless_sub (s t : pystr) : (forall c, c ∈ s -> c ∈ t) -> lineless t = true -> lineless s = true.
Proof.
  unfold lineless. rewrite !forallb_forall. intros Hs Ht c Hc. apply Ht, list_elem_of_In, Hs. by apply list_elem_of_In.
Qed.

Lemma lineless_digits n : lineless (repeat 48%N n) = true.
Proof. by induction n. Qed.

Lemma lineless_char c : lineless (escape_char c) = true.
Proof.
  unfold escape_char. destruct (short_escape c) as [e|] eqn:He.
  - unfold short_escape in He. repeat case_match; by simplify_eq.
  - destruct (N.ltb_spec c 32) as [Hc|Hc].
    + rewrite !lineless_cons. cbn [negb N.eqb Pos.eqb andb]. unfold lineless. rewrite forallb_forall.
      intros x Hx. pose proof (hex_digits_is_hex 4 c) as Hh. rewrite forallb_forall in Hh. specialize (Hh x Hx).
      unfold is_hex_digit, is_digit in Hh. bools. lia.
    + rewrite lineless_cons. cbn [lineless forallb]. bools. lia.
Qed.

Lemma lineless_quoted s : lineless (quoted s) = true.
Proof.
  unfold quoted. rewrite lineless_cons, lineless_app, lineless_concat; [done|].
  intros t (c & -> & _)%elem_of_map. apply lineless_char.
Qed.

Lemma lineless_high s : Forall (fun c => (128 <= c)%N) s -> lineless s = true.
Proof.
  induction 1 as [|c s Hc _ IH]; [done|]. rewrite lineless_cons, IH. by rewrite (proj2 (N.eqb_neq _ _)) by lia.
Qed.

Lemma lineless_utf8 s : lineless s = true -> lineless (utf8 s) = true.
Proof.
  unfold utf8. induction s as [|c s IH]; [done|]. rewrite lineless_cons. intros [Hc Hs]%andb_true_iff.
  cbn [map concat]. rewrite lineless_app, IH by done. rewrite andb_true_r. unfold utf8_char.
  case_match; [by rewrite lineless_cons, Hc|].
  repeat case_match; apply lineless_high; repeat apply Forall_cons_2; try apply Forall_nil_2; euclid.
Qed.

Section lines.
Context `{FR : FloatRepr}.

Lemma binary64_abs f : binary64 f = true -> binary64 (SFabs f) = true.
Proof. by destruct f. Qed.

Lemma span_parts (p : N -> bool) s xs r : span p s = (xs, r) -> s = xs ++ r.
Proof.
  revert xs r. induction s as [|c s IH]; intros xs r; cbn [span]; [by intros [= <- <-]|].
  destruct (p c); [|by intros [= <- <-]]. destruct (span p s) as [ys t]. intros [= <- <-]. by rewrite (IH ys t).
Qed.

Lemma lineless_binary64 f t : binary64 f = true -> encode_binary64 f = Some t -> lineless t = true.
Proof.
  intros Hf. unfold encode_binary64. destruct (negb (isfinite f)); [done|].
  destruct f as [| | |negative m e]; [by intros [= <-]..|]. cbv zeta.
  pose proof (lineless_number _ (float_repr_chars _ (binary64_abs _ Hf))) as Hraw.
  set (raw := float_repr _) in *. set (sign := if negative then _ else _).
  assert (lineless sign = true) as Hsign by by destruct negative. clearbody sign.
  destruct (negb (existsb _ raw)).
  { intros [= <-]. rewrite lineless_app, Hsign. cbn [andb]. case_bool_decide; [|done].
    eapply lineless_sub; [|exact Hraw]. intros c Hc. rewrite <- (take_drop (length raw - 2) raw). set_solver. }
  destruct (span _ raw) as [mantissa rest] eqn:Hspan. apply span_parts in Hspan.
  set (digits := List.filter _ mantissa). assert (lineless digits = true) as Hd.
  { eapply lineless_sub; [|exact Hraw]. intros c Hc%list_elem_of_In%filter_In. destruct Hc as [Hc%list_elem_of_In _].
    rewrite Hspan. set_solver. }
  assert (forall n, lineless (take n digits) = true /\ lineless (drop n digits) = true) as Hcut.
  { intros n. rewrite <- (take_drop n digits), lineless_app in Hd. by apply andb_true_iff. }
  case_match; intros <-%(inj Some); rewrite !lineless_app, Hsign; cbn [andb].
  - set (point := lit "0."). assert (lineless point = true) as Hpoint by done. clearbody point.
    repeat case_match; rewrite ?lineless_app, ?lineless_digits, ?Hpoint, ?Hd; [done..|].
    by rewrite (proj1 (Hcut _)), lineless_cons, (proj2 (Hcut _)).
  - rewrite (proj1 (Hcut 1%nat)). pose proof (lineless_number _ (proj1 (dec_Z_number (read_exponent (tail rest))))) as ->.
    case_match; [rewrite lineless_cons, (proj2 (Hcut 1%nat))|]; by case_match.
Qed.

Lemma lineless_text j t : floats_valid j = true -> portable_text j = Some t -> lineless t = true.
Proof.
  revert t. induction j as [|v|items IH|entries IH] using json_ind'; intros t Hj.
  - by intros [= <-].
  - destruct v as [s|z|f|b]; cbn [portable_text floats_valid] in *.
    + destruct (unicode s); [|done]. intros [= <-]. rewrite portable_string_quoted. apply lineless_quoted.
    + intros [= <-]. apply lineless_number, dec_Z_number.
    + by apply lineless_binary64.
    + intros [= <-]. by destruct b.
  - cbn [portable_text floats_valid] in *. intros (texts & Ht & [= <-])%bind_Some.
    rewrite lineless_cons, lineless_app, lineless_join; [done|]. intros s Hs.
    destruct (mapM_in _ _ _ _ Ht Hs) as (x & Hx & Hf). rewrite Forall_forall in IH. rewrite forallb_forall in Hj.
    by apply (IH x Hx s); [apply Hj, list_elem_of_In|].
  - cbn [portable_text floats_valid] in *. intros (texts & Ht & [= <-])%bind_Some.
    rewrite lineless_cons, lineless_app, lineless_join; [done|]. intros s Hs.
    destruct (mapM_in _ _ _ _ Ht Hs) as ([k x] & Hx & Hf). rewrite Forall_forall in IH. rewrite forallb_forall in Hj.
    destruct (unicode k); [|done]. apply bind_Some in Hf as (u & Hu & <-%(inj Some)).
    rewrite portable_string_quoted, lineless_app, lineless_quoted, lineless_cons.
    by rewrite (IH (k, x) Hx u (Hj (k, x) (proj1 (list_elem_of_In _ _) Hx)) Hu).
Qed.

(** The bytes of an object: one line between braces. *)
Lemma object_bytes_line es bytes :
  floats_valid (JObj es) = true -> object_bytes es = Some bytes ->
  lineless bytes = true /\ exists m, bytes = 123%N :: m ++ [125%N].
Proof.
  unfold object_bytes, canonical_json_bytes. intros Hf (k & Hk & (t & Ht & [= <-])%bind_Some)%bind_Some. split.
  - apply lineless_utf8. by eapply lineless_text; [eapply freeze_portable_floats|].
  - apply freeze_object_spec in Hk as (fs & -> & _). cbn [portable_text] in Ht.
    apply bind_Some in Ht as (texts & _ & [= <-]). exists (utf8 (join_commas texts)). unfold utf8.
    cbn [map concat]. rewrite map_app, concat_app. cbn [map concat]. by rewrite app_nil_r.
Qed.
End lines.
