(* ===== verification/PortableCodecSpec.v ===== *)
(** * PortableCodecSpec: a bundle is read exactly as it was written

    The validation of an untrusted stream and the writer are each other's
    inverse: the reader accepts what the writer writes, frame by frame and with
    the same summary, and every stream it accepts is one the writer can write. *)
From S2P Require Import Relational Models.
From S2P Require Export PortableText.
From S2P Require Import Prelude Values Json JsonText Sha256 Manifest.

(** ** Objects with known keys *)
Lemma freeze_cons d name item v es fs :
  unicode name = true -> freeze_portable d item = Some v -> mapM (freeze_entry d) es = Some fs ->
  mapM (freeze_entry d) ((name, item) :: es) = Some ((name, v) :: fs).
Proof.
  intros Hn Hv Hes. cbn [mapM]. assert (freeze_entry d (name, item) = Some (name, v)) as ->.
  { unfold freeze_entry. by rewrite Hn, Hv. }
  cbn [mbind option_bind]. by rewrite Hes.
Qed.

Lemma freeze_none d : mapM (freeze_entry d) [] = Some [].
Proof. done. Qed.

Lemma settled_int d z : - 2 ^ 63 <= z <= 2 ^ 63 - 1 -> freeze_portable d (jint z) = Some (jint z).
Proof. intros Hz. unfold jint. cbn [freeze_portable]. by rewrite !(proj2 (Z.leb_le _ _)) by lia. Qed.

Lemma settled_str d s : unicode s = true -> freeze_portable d (jstr s) = Some (jstr s).
Proof. intros Hs. unfold jstr. cbn [freeze_portable]. by rewrite Hs. Qed.

Lemma sha256_unicode s : valid_sha256 s = true -> unicode s = true.
Proof.
  unfold valid_sha256. intros [_ Hs]%andb_true_iff. apply ascii_unicode, (ascii_weaken is_hex_digit); [|done].
  intros c. unfold is_hex_digit, is_digit. bools. lia.
Qed.

Lemma section_unicode k : unicode (section_text k) = true.
Proof. by destruct k. Qed.

Lemma exact_keys_same keys es es' : exact_keys keys (JObj es) = Some es' -> es' = es.
Proof. unfold exact_keys. case_match; [by intros [= <-]|done]. Qed.

Definition field (es : list (pystr * json)) (k : pystr) : json := default JNull (dict_get es k).

Lemma field_str es k s : get_str es k = Some s -> field es k = jstr s.
Proof. unfold get_str, field. destruct (dict_get es k) as [[|[]| |]|]; by intros [= <-]. Qed.

Lemma field_int es k z : get_int es k = Some z -> field es k = jint z.
Proof. unfold get_int, field. destruct (dict_get es k) as [[|[]| |]|]; by intros [= <-]. Qed.

(** A settled object with exactly these keys is the sorted list of its fields. *)
Lemma keyed_object d keys es es' :
  settled d (JObj es) -> exact_keys keys (JObj es) = Some es' -> NoDup keys -> NoDup (map utf16_sort_key keys) ->
  es = sorted_by str_leb portable_key (map (fun k => (k, field es k)) keys).
Proof.
  intros (_ & Hes & Hnd & _)%settled_object Hk Hkeys Hsort. rewrite Hes at 1.
  unfold exact_keys in Hk. destruct (_ && _) eqn:E; [|done]. apply andb_true_iff in E as [H1 H2].
  rewrite subset_of_spec in H1, H2.
  assert (es ≡ₚ map (fun k => (k, field es k)) keys) as Hp.
  { assert (map fst es ≡ₚ keys) as Hfst by (apply NoDup_Permutation; [done..|]; intros k; split; [apply H1|apply H2]).
    rewrite <- Hfst, map_map. clear -Hnd. rewrite <- (map_id es) at 1. apply reflexive_eq, map_ext_in.
    intros [k v] Hin%list_elem_of_In. cbn [fst]. unfold field. by rewrite (dict_get_in _ k v). }
  symmetry. apply sorted_by_perm_eq; [|by rewrite <- Hp].
  rewrite map_map. exact Hsort.
Qed.

(** ** The trailer *)
Definition frozen_section (s : PortableSection) : json :=
  JObj [(lit "count", jint (ps_count s)); (lit "kind", jstr (section_text (ps_kind s))); (lit "sha256", jstr (ps_sha256 s))].

Definition frozen_payload (t : PortableTrailer) : list (pystr * json) :=
  [ (lit "pre_trailer_byte_count", jint (pt_bytes t)); (lit "root_sha256", jstr (pt_root t));
    (lit "sections", JArr (map frozen_section (pt_sections t))) ].

Definition frozen_trailer (t : PortableTrailer) : list (pystr * json) :=
  [ (lit "kind", jstr (lit "trailer")); (lit "ordinal", jint (pt_ordinal t)); (lit "payload", JObj (frozen_payload t)) ].

Definition section_ok (s : PortableSection) : Prop := frame_number (ps_count s) = true /\ valid_sha256 (ps_sha256 s) = true.

Record trailer_ok (t : PortableTrailer) : Prop := {
  tk_make : make_trailer t = Some t;
  tk_sections : forall s, s ∈ pt_sections t -> section_ok s
}.

Lemma make_section_ok s s' : make_section s = Some s' -> s' = s /\ section_ok s.
Proof.
  unfold make_section, section_ok. destruct (_ && _) eqn:E; [|done]. intros [= <-].
  by apply andb_true_iff in E.
Qed.

Lemma make_trailer_same t t' : make_trailer t = Some t' -> t' = t.
Proof. unfold make_trailer. case_match; [by intros [= <-]|done]. Qed.

Lemma trailer_facts t : trailer_ok t ->
  frame_number (pt_ordinal t) = true /\ 0 <= pt_bytes t <= ABSOLUTE_MAX_BUNDLE_BYTES /\ valid_sha256 (pt_root t) = true
  /\ map ps_kind (pt_sections t) = SECTION_KINDS.
Proof.
  intros [Hm _]. unfold make_trailer in Hm. destruct (_ && _) eqn:E; [|done].
  rewrite !andb_true_iff, !Z.leb_le, !bool_decide_eq_true in E. tauto.
Qed.

Lemma frame_number_range z : frame_number z = true -> - 2 ^ 63 <= z <= 2 ^ 63 - 1.
Proof. unfold frame_number, MAX_BUNDLE_FRAMES. bools. lia. Qed.

Lemma freeze_section d s :
  d + 1 <= MAX_JSON_DEPTH -> section_ok s -> freeze_portable d (JObj (section_object s)) = Some (frozen_section s).
Proof.
  intros Hd [Hc%frame_number_range Hs%sha256_unicode]. apply freeze_object_spec. exists (section_object s). split_and!.
  - destruct s as [k n h]. by destruct k.
  - done.
  - repeat apply freeze_cons; auto using freeze_none, settled_int, settled_str, section_unicode.
  - by apply distinct_spec.
Qed.

Lemma freeze_trailer t :
  trailer_ok t ->
  portable_object [(lit "kind", jstr (lit "trailer")); (lit "ordinal", jint (pt_ordinal t)); (lit "payload", JObj (trailer_object t))]
  = Some (frozen_trailer t).
Proof.
  intros Ht. destruct (trailer_facts t Ht) as (Ho%frame_number_range & Hb & Hr%sha256_unicode & _).
  unfold ABSOLUTE_MAX_BUNDLE_BYTES in Hb.
  assert (mapM (freeze_portable 3) (map (fun s => JObj (section_object s)) (pt_sections t))
          = Some (map frozen_section (pt_sections t))) as Hsec.
  { rewrite mapM_map. apply mapM_total. intros s Hs. apply freeze_section; [done|]. by apply (tk_sections t Ht). }
  assert (freeze_portable 2 (JArr (map (fun s => JObj (section_object s)) (pt_sections t)))
          = Some (JArr (map frozen_section (pt_sections t)))) as Harr.
  { apply freeze_array_spec. by eexists. }
  assert (freeze_portable 1 (JObj (trailer_object t)) = Some (JObj (frozen_payload t))) as Hpay.
  { apply freeze_object_spec. exists (frozen_payload t). split_and!; [done|done| |by apply distinct_spec].
    repeat apply freeze_cons; auto using freeze_none, settled_str. apply settled_int. lia. }
  unfold portable_object. assert (freeze_portable 0 (JObj [(lit "kind", jstr (lit "trailer"));
    (lit "ordinal", jint (pt_ordinal t)); (lit "payload", JObj (trailer_object t))]) = Some (JObj (frozen_trailer t))) as ->; [|done].
  apply freeze_object_spec. exists (frozen_trailer t). split_and!; [done|done| |by apply distinct_spec].
  repeat apply freeze_cons; auto using freeze_none, settled_int, settled_str.
Qed.

Lemma trailer_settled t : trailer_ok t -> settled 0 (JObj (frozen_trailer t)).
Proof.
  intros Ht%freeze_trailer. unfold portable_object in Ht. destruct (freeze_portable 0 _) as [[| | |es]|] eqn:E; try done.
  injection Ht as ->. by apply freeze_idem in E.
Qed.

Lemma trailer_floatless t : floatless (JObj (frozen_trailer t)) = true.
Proof.
  cbn. rewrite andb_true_r, andb_true_r. apply forallb_forall. intros x Hx%list_elem_of_In.
  by apply elem_of_map in Hx as (s & -> & _).
Qed.

Section codec.
Context `{FloatRead} `{IsoDates}.

Lemma decode_frozen_section s : section_ok s -> decode_section (ps_kind s) (frozen_section s) = Some s.
Proof.
  intros [Hc Hs]. unfold decode_section, frozen_section.
  change (exact_keys _ _) with (Some [(lit "count", jint (ps_count s)); (lit "kind", jstr (section_text (ps_kind s)));
                                      (lit "sha256", jstr (ps_sha256 s))]).
  cbn [mbind option_bind]. change (get_str _ (lit "kind")) with (Some (section_text (ps_kind s))).
  cbn [mbind option_bind]. rewrite bool_decide_true by done. cbn [negb].
  change (get_int _ (lit "count")) with (Some (ps_count s)). cbn [mbind option_bind].
  change (get_str _ (lit "sha256")) with (Some (ps_sha256 s)). cbn [mbind option_bind].
  unfold make_section. cbn [ps_count ps_sha256]. rewrite Hc, Hs. by destruct s.
Qed.

Lemma decode_frozen_sections ks ss :
  map ps_kind ss = ks -> (forall s, s ∈ ss -> section_ok s) -> decode_sections ks (map frozen_section ss) = Some ss.
Proof.
  intros <-. induction ss as [|s ss IH]; intros Hs; [done|]. cbn [map decode_sections].
  rewrite decode_frozen_section by (apply Hs; by left). cbn [mbind option_bind].
  by rewrite IH by (intros x Hx; apply Hs; by right).
Qed.

Lemma decode_frozen_trailer t : trailer_ok t -> decode_trailer (frozen_trailer t) = Some t.
Proof.
  intros Ht. destruct (trailer_facts t Ht) as (_ & _ & _ & Hkinds). unfold decode_trailer.
  change (exact_keys _ (JObj (frozen_trailer t))) with (Some (frozen_trailer t)). cbn [mbind option_bind].
  change (get_str (frozen_trailer t) (lit "kind")) with (Some (lit "trailer")). cbn [mbind option_bind].
  rewrite bool_decide_true by done. cbn [negb].
  change (dict_get (frozen_trailer t) (lit "payload")) with (Some (JObj (frozen_payload t))). cbn [mbind option_bind].
  change (exact_keys _ (JObj (frozen_payload t))) with (Some (frozen_payload t)). cbn [mbind option_bind].
  change (dict_get (frozen_payload t) (lit "sections")) with (Some (JArr (map frozen_section (pt_sections t)))).
  cbn [mbind option_bind]. rewrite decode_frozen_sections by (done || apply (tk_sections t Ht)). cbn [mbind option_bind].
  change (get_int (frozen_trailer t) (lit "ordinal")) with (Some (pt_ordinal t)). cbn [mbind option_bind].
  change (get_int (frozen_payload t) (lit "pre_trailer_byte_count")) with (Some (pt_bytes t)). cbn [mbind option_bind].
  change (get_str (frozen_payload t) (lit "root_sha256")) with (Some (pt_root t)). cbn [mbind option_bind].
  pose proof (tk_make t Ht) as Hm. by destruct t.
Qed.

Lemma nodup_keys keys : distinct keys = true -> distinct (map utf16_sort_key keys) = true ->
  NoDup keys /\ NoDup (map utf16_sort_key keys).
Proof. rewrite !distinct_spec. done. Qed.

Lemma decode_section_frozen d k raw s :
  settled d raw -> decode_section k raw = Some s -> raw = frozen_section s /\ section_ok s /\ ps_kind s = k.
Proof.
  unfold decode_section. intros Hs (es & Hes & Hk)%bind_Some. destruct raw as [| | |es']; try done.
  pose proof (exact_keys_same _ _ _ Hes) as ->. apply bind_Some in Hk as (kind & Hkind & Hk).
  destruct (bool_decide (kind = _)) eqn:E; [|done]. apply bool_decide_eq_true in E as ->. cbn [negb] in Hk.
  apply bind_Some in Hk as (count & Hcount & (digest & Hdigest & Hm)%bind_Some).
  destruct (make_section_ok _ _ Hm) as [-> Hok]. split_and!; [|done|done].
  destruct (nodup_keys [lit "kind"; lit "count"; lit "sha256"] eq_refl eq_refl) as [Hn1 Hn2].
  rewrite (keyed_object _ _ _ _ Hs Hes Hn1 Hn2). cbn [map].
  rewrite (field_str _ _ _ Hkind), (field_int _ _ _ Hcount), (field_str _ _ _ Hdigest). by destruct k.
Qed.

Lemma decode_sections_frozen d ks raws ss :
  (forall raw, raw ∈ raws -> settled d raw) -> decode_sections ks raws = Some ss ->
  raws = map frozen_section ss /\ (forall s, s ∈ ss -> section_ok s) /\ map ps_kind ss = ks.
Proof.
  revert raws ss. induction ks as [|k ks IH]; intros [|raw raws] ss Hr Hd; cbn [decode_sections] in Hd; try done.
  - injection Hd as <-. split_and!; [done| |done]. by intros s Hs%not_elem_of_nil.
  - apply bind_Some in Hd as (s & Hs & (rest & Hrest & [= <-])%bind_Some).
    destruct (decode_section_frozen _ _ _ _ (Hr raw ltac:(by left)) Hs) as (-> & Hok & Hk).
    destruct (IH raws rest ltac:(intros x Hx; apply Hr; by right) Hrest) as (-> & Hoks & Hks).
    cbn [map]. rewrite Hk, Hks. split_and!; [done| |done]. intros x [->|Hx]%elem_of_cons; auto.
Qed.

Lemma decode_trailer_frozen es t :
  settled 0 (JObj es) -> decode_trailer es = Some t -> es = frozen_trailer t /\ trailer_ok t.
Proof.
  unfold decode_trailer. intros Hs (es' & Hes & Hk)%bind_Some. pose proof (exact_keys_same _ _ _ Hes) as ->.
  apply bind_Some in Hk as (kind & Hkind & Hk).
  destruct (bool_decide (kind = lit "trailer")) eqn:E; [|done]. apply bool_decide_eq_true in E as ->. cbn [negb] in Hk.
  apply bind_Some in Hk as (inner & (pay & Hp & Hpay)%bind_Some & Hk).
  destruct pay as [| | |payload]; try done. pose proof (exact_keys_same _ _ _ Hpay) as ->.
  apply bind_Some in Hk as (raws & (arr & Harr & Hraws)%bind_Some & Hk). destruct arr as [| |raws'|]; try done.
  injection Hraws as ->. apply bind_Some in Hk as (sections & Hsec & (ordinal & Hord & Hk)%bind_Some).
  apply bind_Some in Hk as (bytes & Hbytes & (root & Hroot & Hm)%bind_Some).
  pose proof (make_trailer_same _ _ Hm) as ->.
  destruct (settled_object _ _ Hs) as (_ & _ & _ & Hvals).
  destruct (Hvals _ (dict_get_Some_in _ _ _ Hp)) as [_ Hps]. cbn [snd] in Hps.
  destruct (settled_object _ _ Hps) as (_ & _ & _ & Hpvals).
  destruct (Hpvals _ (dict_get_Some_in _ _ _ Harr)) as [_ Hrs%settled_array]. cbn [snd] in Hrs. destruct Hrs as [_ Hrs].
  destruct (decode_sections_frozen _ _ _ _ Hrs Hsec) as (-> & Hoks & Hkinds). split; [|by split].
  destruct (nodup_keys [lit "kind"; lit "ordinal"; lit "payload"] eq_refl eq_refl) as [Hn1 Hn2].
  destruct (nodup_keys [lit "pre_trailer_byte_count"; lit "root_sha256"; lit "sections"] eq_refl eq_refl) as [Hn3 Hn4].
  rewrite (keyed_object _ _ _ _ Hs Hes Hn1 Hn2). cbn [map].
  rewrite (field_str _ _ _ Hkind), (field_int _ _ _ Hord). assert (field es (lit "payload") = JObj payload) as ->
    by (unfold field; by rewrite Hp).
  pose proof (keyed_object _ _ _ _ Hps Hpay Hn3 Hn4) as Hpe. cbn [map] in Hpe.
  rewrite (field_int _ _ _ Hbytes), (field_str _ _ _ Hroot) in Hpe.
  assert (field payload (lit "sections") = JArr (map frozen_section sections)) as Hfs by (unfold field; by rewrite Harr).
  rewrite Hfs in Hpe. rewrite Hpe. done.
Qed.

(** ** The line of a trailer *)
Definition trailer_bytes (t : PortableTrailer) : list N := utf8 (plain_text (JObj (frozen_trailer t))).

Lemma encode_trailer_eq t :
  trailer_ok t ->
  encode_trailer t = if Z.of_nat (length (trailer_bytes t ++ [10%N])) <=? MAX_FRAME_BYTES
                     then Some (trailer_bytes t ++ [10%N]) else None.
Proof.
  intros Ht. unfold encode_trailer, framed. rewrite freeze_trailer by done. cbn [mbind option_bind].
  unfold object_bytes. rewrite settled_bytes by (by apply trailer_settled || apply trailer_floatless). done.
Qed.

Lemma trailer_decodes t :
  trailer_ok t -> decode_canonical_json_object (trailer_bytes t) = Some (frozen_trailer t).
Proof. intros Ht. apply decode_settled; [by apply trailer_settled|apply trailer_floatless]. Qed.

Lemma decoded_trailer_encodes bytes es t :
  decode_canonical_json_object bytes = Some es -> decode_trailer es = Some t ->
  trailer_ok t /\ bytes = trailer_bytes t.
Proof.
  intros [Hs Hb]%decode_canonical_sound Ht. destruct (decode_trailer_frozen es t Hs Ht) as [-> Hok]. split; [done|].
  rewrite settled_bytes in Hb by (done || apply trailer_floatless). by injection Hb as <-.
Qed.
End codec.

(** ** Lines of a stream *)
Definition line_ok (line : list N) : Prop :=
  Z.of_nat (length line) <= MAX_FRAME_BYTES
  /\ exists bytes m, line = bytes ++ [10%N] /\ lineless bytes = true /\ bytes = 123%N :: m ++ [125%N].

Lemma readline_line limit bytes rest :
  lineless bytes = true -> Z.of_nat (length bytes) < limit ->
  readline limit (bytes ++ 10%N :: rest) = (bytes ++ [10%N], rest).
Proof.
  revert limit. induction bytes as [|c bytes IH]; intros limit Hl Hlen; cbn [app readline length] in *.
  - by rewrite (proj2 (Z.leb_gt _ _)) by lia.
  - rewrite lineless_cons in Hl. apply andb_true_iff in Hl as [Hc%negb_true_iff Hl].
    rewrite (proj2 (Z.leb_gt _ _)), Hc by lia. by rewrite IH by (done || lia).
Qed.

Lemma readline_app limit s line rest : readline limit s = (line, rest) -> s = line ++ rest.
Proof.
  revert limit line rest. induction s as [|c s IH]; intros limit line rest; cbn [readline]; [by intros [= <- <-]|].
  destruct (limit <=? 0); [by intros [= <- <-]|]. destruct (c =? 10)%N; [by intros [= <- <-]|].
  destruct (readline (limit - 1) s) as [l r] eqn:E. intros [= <- <-]. by rewrite (IH _ _ _ E).
Qed.

Lemma last_snoc_two (m : list N) : drop (length ((123%N :: m ++ [125%N]) ++ [10%N]) - 2) ((123%N :: m ++ [125%N]) ++ [10%N])
  = [125%N; 10%N].
Proof.
  replace ((123%N :: m ++ [125%N]) ++ [10%N]) with ((123%N :: m) ++ [125%N; 10%N])
    by (cbn [app]; by rewrite <- app_assoc).
  apply drop_app_length'. rewrite length_app. cbn [length]. lia.
Qed.

Lemma read_line_ok line rest : line_ok line -> read_frame (line ++ rest) = Some (line, rest).
Proof.
  intros (Hlen & bytes & m & -> & Hl & Hb). unfold read_frame. rewrite <- app_assoc. cbn [app].
  rewrite readline_line; [|done|rewrite length_app in Hlen; cbn [length] in Hlen; lia].
  assert (drop (length (bytes ++ [10%N]) - 2) (bytes ++ [10%N]) = [125%N; 10%N]) as Hd by (subst bytes; apply last_snoc_two).
  rewrite (proj2 (Z.ltb_ge _ _) Hlen), Hd, last_snoc. rewrite (bool_decide_false (_ = [])) by (by destruct bytes).
  rewrite (bool_decide_true (Some _ = _)) by done. rewrite !bool_decide_false; [done|done|].
  subst bytes. by destruct m.
Qed.

Lemma read_frame_line s line rest :
  read_frame s = Some (line, rest) ->
  s = line ++ rest /\ line <> [] /\ line = removelast line ++ [10%N] /\ Z.of_nat (length line) <= MAX_FRAME_BYTES.
Proof.
  unfold read_frame. destruct (readline _ s) as [l r] eqn:E. destruct (_ || _) eqn:Eb; [done|]. intros [= <- <-].
  rewrite !orb_false_iff in Eb. destruct Eb as ((((H1%bool_decide_eq_false & H2%Z.ltb_ge) & H3) & _) & _).
  apply negb_false_iff, bool_decide_eq_true in H3. split_and!; [by eapply readline_app|done| |done].
  apply last_Some in H3 as [l' ->]. by rewrite removelast_last.
Qed.

Section streams.
Context `{FloatRead} `{IsoDates}.

Lemma framed_line entries line :
  floats_valid (JObj entries) = true -> framed entries = Some line -> line_ok line.
Proof.
  unfold framed, portable_object. intros Hf (value & Hv & (bytes & Hb & Hl)%bind_Some)%bind_Some.
  destruct (freeze_portable 0 (JObj entries)) as [[| | |es]|] eqn:E; try done. injection Hv as ->.
  destruct (object_bytes_line _ _ (freeze_portable_floats _ _ _ E Hf) Hb) as (Hline & m & Hm).
  destruct (Z.leb_spec (Z.of_nat (length (bytes ++ [10%N]))) MAX_FRAME_BYTES) as [Hlen|]; [|done].
  injection Hl as <-. split; [done|]. by exists bytes, m.
Qed.

Lemma frame_line kind ordinal payload line :
  floats_valid (JObj payload) = true -> encode_non_trailer_frame kind ordinal payload = Some line -> line_ok line.
Proof.
  unfold encode_non_trailer_frame, portable_object. intros Hf (detached & Hd & Hk)%bind_Some.
  destruct (freeze_portable 0 (JObj payload)) as [[| | |es]|] eqn:E; try done. injection Hd as ->.
  destruct (negb (frame_number ordinal)); [done|]. apply bind_Some in Hk as (digest & _ & Hk).
  eapply framed_line; [|exact Hk]. pose proof (freeze_portable_floats _ _ _ E Hf) as Hfd.
  cbn [floats_valid frame_core app forallb snd jstr jint] in *. by rewrite Hfd.
Qed.

Lemma trailer_line t line : trailer_ok t -> encode_trailer t = Some line -> line = trailer_bytes t ++ [10%N] /\ line_ok line.
Proof.
  intros Ht. rewrite encode_trailer_eq by done. destruct (Z.leb_spec (Z.of_nat (length (trailer_bytes t ++ [10%N]))) MAX_FRAME_BYTES) as [Hlen|]; [|done].
  intros [= <-]. split; [done|]. split; [done|].
  destruct (object_bytes_line (frozen_trailer t) (trailer_bytes t)) as (Hl & m & Hm).
  - cbn. rewrite andb_true_r, andb_true_r. apply forallb_forall. intros x Hx%list_elem_of_In.
    by apply elem_of_map in Hx as (s & -> & _).
  - apply settled_bytes; [by apply trailer_settled|apply trailer_floatless].
  - by exists (trailer_bytes t), m.
Qed.

(** ** Digests *)
Lemma digest_sections_ok ks ns hs ss :
  digest_sections ks ns hs = Some ss -> forall s, s ∈ ss -> section_ok s.
Proof.
  revert ns hs ss. induction ks as [|k ks IH]; intros [|n ns] [|h hs] ss; cbn [digest_sections];
    try (intros [= <-]; by intros s Hs%not_elem_of_nil).
  intros (s & Hs & (rest & Hr & [= <-])%bind_Some)%bind_Some x Hx.
  apply elem_of_cons in Hx as [->|Hx]; [by destruct (make_section_ok _ _ Hs) as [-> ?]|by eapply IH].
Qed.

Lemma digests_trailer_ok d t : digests_trailer d = Some t -> trailer_ok t.
Proof.
  unfold digests_trailer. destruct (_ || _); [done|]. intros (ss & Hss & Hm)%bind_Some.
  pose proof (make_trailer_same _ _ Hm) as Heq. split; [by rewrite Heq at 1|]. rewrite Heq. by eapply digest_sections_ok.
Qed.

Lemma digests_trailer_facts d t : digests_trailer d = Some t ->
  pt_ordinal t = dg_next d /\ pt_bytes t = dg_bytes d /\ pt_root t = digest_of (dg_root d).
Proof.
  unfold digests_trailer. destruct (_ || _); [done|]. intros (ss & _ & Hm)%bind_Some.
  by rewrite (make_trailer_same _ _ Hm).
Qed.

Lemma add_frame_facts d f line d' : add_frame d f line = Some d' ->
  dg_next d' = dg_next d + 1 /\ dg_bytes d' = dg_bytes d + Z.of_nat (length line) /\ dg_root d' = dg_root d ++ line
  /\ pf_ordinal f = dg_next d /\ encode_non_trailer_frame (pf_kind f) (dg_next d) (pf_payload f) = Some line
  /\ dg_next d + 1 < MAX_BUNDLE_FRAMES.
Proof.
  unfold add_frame. destruct (_ || _) eqn:E1; [done|].
  rewrite !orb_false_iff in E1. destruct E1 as ((_ & Ho%negb_false_iff%Z.eqb_eq) & _).
  intros (again & Ha & Hk)%bind_Some. destruct (negb (bool_decide (again = line))) eqn:E2; [done|].
  apply negb_false_iff, bool_decide_eq_true in E2 as ->. cbv zeta in Hk.
  destruct (_ <? _)%nat; [done|]. destruct (if bool_decide (pf_kind f = S_header) then _ else _); [done|].
  destruct (if bool_decide (pf_kind f = S_service) then _ else _); [done|].
  destruct (Z.leb_spec (MAX_BUNDLE_FRAMES - 1) (dg_next d)); [done|]. injection Hk as <-. cbn.
  rewrite Ho in Ha. split_and!; try done. lia.
Qed.
End streams.

Section simulation.
Context `{FloatRead} `{IsoDates}.
Variable maximum : Z.

Lemma frame_not_trailer decoded frame :
  decode_non_trailer_frame decoded = Some frame -> bool_decide (get_str decoded (lit "kind") = Some (lit "trailer")) = false.
Proof.
  unfold decode_non_trailer_frame. intros (es & Hes & Hk)%bind_Some. pose proof (exact_keys_same _ _ _ Hes) as ->.
  apply bind_Some in Hk as (kind & (s & Hs & Hr)%bind_Some & _). apply bool_decide_eq_false. rewrite Hs. intros [= ->].
  done.
Qed.

(** What one step of the writer does, and one step of the reader. *)
Lemma encoder_add_spec e kind payload line e' :
  encoder_add maximum e kind payload = Some (line, e') <->
  encode_non_trailer_frame kind (dg_next (en_digests e)) payload = Some line
  /\ exists decoded frame,
       decode_canonical_json_object (removelast line) = Some decoded /\ decode_non_trailer_frame decoded = Some frame
       /\ dg_bytes (en_digests e) + Z.of_nat (length line) <= maximum
       /\ add_frame (en_digests e) frame line = Some (en_digests e')
       /\ (if bool_decide (pf_kind frame = S_header)
           then (h ← header_from_payload (pf_payload frame); Some (Some h)) else Some (en_header e)) = Some (en_header e').
Proof.
  unfold encoder_add. split.
  - intros (line' & Hl & (frame & (decoded & Hd & Hf)%bind_Some & Hk)%bind_Some)%bind_Some.
    destruct (Z.ltb_spec maximum (dg_bytes (en_digests e) + Z.of_nat (length line'))); [done|].
    apply bind_Some in Hk as (d & Ha & (h & Hh & [= <- <-])%bind_Some). split; [done|].
    exists decoded, frame. cbn [en_digests en_header]. split_and!; done.
  - intros (-> & decoded & frame & Hd & Hf & Hm & Ha & Hh). cbn [mbind option_bind]. rewrite Hd. cbn [mbind option_bind].
    rewrite Hf. cbn [mbind option_bind]. rewrite (proj2 (Z.ltb_ge _ _) Hm), Ha. cbn [mbind option_bind].
    rewrite Hh. cbn [mbind option_bind]. by destruct e'.
Qed.

(** The reader follows the writer over its frames. *)
Lemma reader_follows frames e lines e' fuel rest :
  encode_frames maximum e frames = Some (lines, e') ->
  Forall (fun f => floats_valid (JObj f.2) = true) frames ->
  validate_frames (length lines + fuel) maximum (en_digests e) (en_header e) (dg_bytes (en_digests e)) (concat lines ++ rest)
  = (found ← validate_frames fuel maximum (en_digests e') (en_header e') (dg_bytes (en_digests e')) rest;
     Some ('(ls, s) ← found; Some (lines ++ ls, s))).
Proof.
  revert e lines. induction frames as [|[kind payload] frames IH]; intros e lines Hf Hv; cbn [encode_frames] in Hf.
  - injection Hf as <- <-. cbn [length concat app Nat.add].
    destruct (validate_frames _ _ _ _ _ rest) as [[[ls s]|]|]; done.
  - apply bind_Some in Hf as ([line e1] & Hadd & ([lines' e2] & Hrest & [= <- <-])%bind_Some).
    inversion Hv as [|?? Hp Hv']; subst. cbn [snd] in Hp.
    apply encoder_add_spec in Hadd as (Hline & decoded & frame & Hd & Hfr & Hm & Ha & Hh).
    destruct (add_frame_facts _ _ _ _ Ha) as (_ & Hb & _ & _ & _ & Hn).
    cbn [length Nat.add concat validate_frames]. rewrite <- app_assoc, read_line_ok by (by eapply frame_line).
    cbn [mbind option_bind]. rewrite (proj2 (Z.ltb_ge _ _) Hm), (proj2 (Z.ltb_ge _ _)) by lia. rewrite Hd.
    cbn [mbind option_bind]. rewrite (frame_not_trailer _ _ Hfr), Hfr. cbn [mbind option_bind]. rewrite Ha.
    cbn [mbind option_bind]. rewrite Hh. cbn [mbind option_bind]. rewrite <- Hb, (IH _ _ Hrest Hv').
    by destruct (validate_frames fuel _ _ _ _ rest) as [[[ls s]|]|].
Qed.

Lemma encoder_finish_spec e line summary :
  encoder_finish maximum e = Some (line, summary) <->
  exists header t, en_header e = Some header /\ digests_trailer (en_digests e) = Some t /\ encode_trailer t = Some line
                   /\ pt_bytes t + Z.of_nat (length line) <= maximum
                   /\ summary_of header t (pt_bytes t + Z.of_nat (length line)) = Some summary.
Proof.
  unfold encoder_finish. split.
  - intros (header & Hh & (t & Ht & (line' & Hl & Hk)%bind_Some)%bind_Some)%bind_Some. cbv zeta in Hk.
    destruct (Z.ltb_spec maximum (pt_bytes t + Z.of_nat (length line'))); [done|].
    apply bind_Some in Hk as (s & Hs & [= <- <-]). by exists header, t.
  - intros (header & t & -> & -> & Hl & Hm & Hs). cbn [mbind option_bind]. rewrite Hl. cbn [mbind option_bind].
    rewrite (proj2 (Z.ltb_ge _ _) Hm), Hs. done.
Qed.

Lemma reader_finishes e line summary fuel :
  encoder_finish maximum e = Some (line, summary) -> dg_next (en_digests e) < MAX_BUNDLE_FRAMES ->
  validate_frames (S fuel) maximum (en_digests e) (en_header e) (dg_bytes (en_digests e)) line = Some (Some ([line], summary)).
Proof.
  intros (header & t & Hh & Ht & Hl & Hm & Hs)%encoder_finish_spec Hn.
  destruct (digests_trailer_facts _ _ Ht) as (_ & Hb & _). pose proof (digests_trailer_ok _ _ Ht) as Hok.
  destruct (trailer_line t line Hok Hl) as [Heq Hlo]. cbn [validate_frames].
  rewrite <- (app_nil_r line) at 1. rewrite read_line_ok by done. cbn [mbind option_bind]. cbv zeta.
  rewrite Hb in Hm, Hs. rewrite (proj2 (Z.ltb_ge _ _) Hm), (proj2 (Z.ltb_ge _ _)) by lia.
  rewrite Heq at 1. rewrite removelast_last, trailer_decodes by done. cbn [mbind option_bind].
  change (get_str (frozen_trailer t) (lit "kind")) with (Some (lit "trailer")). rewrite bool_decide_true by done.
  rewrite decode_frozen_trailer by done. cbn [mbind option_bind]. unfold verify_digests. rewrite Ht.
  cbn [mbind option_bind]. rewrite bool_decide_true by done. cbn [mbind option_bind]. rewrite Hh.
  cbn [mbind option_bind]. rewrite bool_decide_true by done. cbn [negb]. rewrite Hs. done.
Qed.

Lemma encoded_numbers frames e lines e' :
  encode_frames maximum e frames = Some (lines, e') -> dg_next (en_digests e) < MAX_BUNDLE_FRAMES ->
  dg_next (en_digests e') < MAX_BUNDLE_FRAMES.
Proof.
  revert e lines. induction frames as [|[kind payload] frames IH]; intros e lines Hf Hn; cbn [encode_frames] in Hf.
  - by injection Hf as _ <-.
  - apply bind_Some in Hf as ([line e1] & Hadd & ([lines' e2] & Hrest & [= <- <-])%bind_Some).
    apply encoder_add_spec in Hadd as (_ & decoded & frame & _ & _ & _ & Ha & _).
    apply (IH _ _ Hrest). destruct (add_frame_facts _ _ _ _ Ha) as (-> & _ & _ & _ & _ & ?). lia.
Qed.

Lemma concat_length (lines : list (list N)) : Forall (fun l => l <> []) lines -> (length lines <= length (concat lines))%nat.
Proof.
  induction 1 as [|l lines Hl _ IH]; [done|]. cbn [concat length]. rewrite length_app. destruct l; [done|]. cbn. lia.
Qed.

Lemma encoded_lines frames e lines e' :
  encode_frames maximum e frames = Some (lines, e') ->
  Forall (fun f => floats_valid (JObj f.2) = true) frames -> Forall (fun l => l <> []) lines.
Proof.
  revert e lines. induction frames as [|[kind payload] frames IH]; intros e lines Hf Hv; cbn [encode_frames] in Hf.
  - injection Hf as <- _. constructor.
  - apply bind_Some in Hf as ([line e1] & Hadd & ([lines' e2] & Hrest & [= <- <-])%bind_Some).
    inversion Hv as [|?? Hp Hv']; subst. apply encoder_add_spec in Hadd as (Hline & _). constructor; [|by eapply IH].
    destruct (frame_line _ _ _ _ Hp Hline) as (_ & bytes & m & -> & _). by destruct bytes.
Qed.

(** Whatever the writer writes, the reader accepts. *)
Lemma written_is_read frames lines summary :
  Forall (fun f => floats_valid (JObj f.2) = true) frames ->
  encode_bundle maximum frames = Some (lines, summary) ->
  validate_bundle maximum (concat lines) = Some (lines, summary).
Proof.
  unfold encode_bundle. intros Hv ([ls e] & Hf & ([trailer s] & Hend & [= <- <-])%bind_Some)%bind_Some.
  unfold validate_bundle. rewrite concat_app. cbn [concat]. rewrite app_nil_r.
  pose proof (concat_length _ (encoded_lines _ _ _ _ Hf Hv)) as Hlen.
  replace (S (length (concat ls ++ trailer))) with (length ls + S (length (concat ls ++ trailer) - length ls))%nat
    by (rewrite length_app; lia).
  pose proof (reader_follows _ _ _ _ (S (length (concat ls ++ trailer) - length ls)) trailer Hf Hv) as Hr.
  rewrite (reader_finishes _ _ _ _ Hend) in Hr by (by eapply encoded_numbers). cbn [en_digests en_header new_encoder] in Hr.
  change (dg_bytes no_digests) with 0 in Hr. rewrite Hr. done.
Qed.
End simulation.

Section reader.
Context `{FloatRead} `{IsoDates}.
Variable maximum : Z.

(** Whatever the reader accepts, the writer can write: the frames it read. *)
Lemma read_is_written fuel e s lines summary :
  validate_frames fuel maximum (en_digests e) (en_header e) (dg_bytes (en_digests e)) s = Some (Some (lines, summary)) ->
  concat lines = s
  /\ exists frames ls e' trailer, lines = ls ++ [trailer] /\ encode_frames maximum e frames = Some (ls, e')
                                  /\ encoder_finish maximum e' = Some (trailer, summary).
Proof.
  revert e s lines. induction fuel as [|fuel IH]; intros e s lines; cbn [validate_frames]; [done|].
  intros ([line rest] & Hr & Hk)%bind_Some. apply read_frame_line in Hr as (-> & Hne & Hline & Hlen).
  cbv zeta in Hk. destruct (Z.ltb_spec maximum (dg_bytes (en_digests e) + Z.of_nat (length line))); [done|].
  destruct (_ <? _); [done|]. apply bind_Some in Hk as (decoded & Hd & Hk).
  destruct (bool_decide _) eqn:Ek.
  - apply bind_Some in Hk as (t & Ht & (u & Hver & (h & Hh & Hk)%bind_Some)%bind_Some).
    destruct (bool_decide (rest = [])) eqn:Er; [|done]. apply bool_decide_eq_true in Er as ->. cbn [negb] in Hk.
    apply bind_Some in Hk as (sm & Hs & [= <- <-]). cbn [concat]. rewrite !app_nil_r. split; [done|].
    exists [], [], e, line. split_and!; [done..|]. apply encoder_finish_spec. exists h, t.
    unfold verify_digests in Hver. apply bind_Some in Hver as (t' & Ht' & Hsame). case_bool_decide as Heq; [|done].
    subst t'. destruct (decoded_trailer_encodes _ _ _ Hd Ht) as [Hok Hb].
    destruct (digests_trailer_facts _ _ Ht') as (_ & Hbytes & _). split_and!; [done|done| |by rewrite Hbytes|by rewrite Hbytes].
    rewrite encode_trailer_eq by done. rewrite <- Hb, <- Hline. by rewrite (proj2 (Z.leb_le _ _)).
  - apply bind_Some in Hk as (frame & Hf & (d' & Ha & (h & Hh & (found & Hrec & Hk)%bind_Some)%bind_Some)%bind_Some).
    destruct found as [[ls s']|]; [|done]. cbn [mbind option_bind] in Hk. injection Hk as <- <-.
    destruct (add_frame_facts _ _ _ _ Ha) as (_ & Hb & _ & _ & Henc & _). rewrite <- Hb in Hrec.
    destruct (IH {| en_digests := d'; en_header := h |} rest ls Hrec)
      as (Hcat & frames & ls' & e' & trailer & -> & Hfr & Hend).
    split; [cbn [concat]; by rewrite Hcat|].
    exists ((pf_kind frame, pf_payload frame) :: frames), (line :: ls'), e', trailer. split_and!; [done| |done].
    cbn [encode_frames]. assert (encoder_add maximum e (pf_kind frame) (pf_payload frame)
      = Some (line, {| en_digests := d'; en_header := h |})) as ->.
    { apply encoder_add_spec. split; [done|]. exists decoded, frame. split_and!; done. }
    cbn [mbind option_bind]. by rewrite Hfr.
Qed.

(** The fuel of [validate_bundle] is never used up. *)
Lemma reader_total fuel d header total s :
  (length s < fuel)%nat -> validate_frames fuel maximum d header total s <> Some None.
Proof.
  revert d header total s. induction fuel as [|fuel IH]; intros d header total s Hs; [lia|]. cbn [validate_frames].
  destruct (read_frame s) as [[line rest]|] eqn:Er; [|done]. apply read_frame_line in Er as (-> & Hne & _ & _).
  rewrite length_app in Hs. assert (length rest < fuel)%nat as Hrest by (destruct line; [done|cbn in Hs; lia]).
  cbn [mbind option_bind]. cbv zeta. destruct (_ <? _); [done|]. destruct (_ <? _); [done|].
  destruct (decode_canonical_json_object _); [|done]. cbn [mbind option_bind]. destruct (bool_decide _).
  - destruct (decode_trailer _); [|done]. cbn [mbind option_bind]. destruct (verify_digests _ _); [|done].
    cbn [mbind option_bind]. destruct header; [|done]. cbn [mbind option_bind]. destruct (negb _); [done|].
    by destruct (summary_of _ _ _).
  - destruct (decode_non_trailer_frame _); [|done]. cbn [mbind option_bind]. destruct (add_frame _ _ _); [|done].
    cbn [mbind option_bind]. destruct (if bool_decide _ then _ else _); [|done]. cbn [mbind option_bind].
    match goal with |- context [validate_frames fuel maximum ?d' ?h' ?t' rest] =>
      pose proof (IH d' h' t' rest Hrest) as Hn; destruct (validate_frames fuel maximum d' h' t' rest) as [[[ls sm]|]|] end; done.
Qed.

(** What the digests of a writer hold. *)
Lemma encoded_digests frames e lines e' :
  encode_frames maximum e frames = Some (lines, e') ->
  dg_next (en_digests e') = dg_next (en_digests e) + Z.of_nat (length lines)
  /\ dg_bytes (en_digests e') = dg_bytes (en_digests e) + Z.of_nat (length (concat lines))
  /\ dg_root (en_digests e') = dg_root (en_digests e) ++ concat lines.
Proof.
  revert e lines. induction frames as [|[kind payload] frames IH]; intros e lines Hf; cbn [encode_frames] in Hf.
  - injection Hf as <- <-. cbn [concat length]. rewrite app_nil_r. split_and!; [lia|lia|done].
  - apply bind_Some in Hf as ([line e1] & Hadd & ([lines' e2] & Hrest & [= <- <-])%bind_Some).
    apply encoder_add_spec in Hadd as (_ & decoded & frame & _ & _ & _ & Ha & _).
    destruct (add_frame_facts _ _ _ _ Ha) as (Hn & Hb & Hr & _). destruct (IH _ _ Hrest) as (Hn' & Hb' & Hr').
    cbn [concat length]. rewrite Hn', Hb', Hr', Hn, Hb, Hr, <- app_assoc, length_app. split_and!; [lia|lia|done].
Qed.

(** The summary of a bundle is that of its lines. *)
Lemma encoded_summary frames lines summary :
  encode_bundle maximum frames = Some (lines, summary) ->
  bs_total_bytes summary = Z.of_nat (length (concat lines)) /\ bs_total_bytes summary <= maximum
  /\ bs_frames summary = Z.of_nat (length lines)
  /\ bs_root_sha256 summary = sha256_hex (concat (removelast lines)).
Proof.
  unfold encode_bundle. intros ([ls e] & Hf & ([trailer s] & Hend & [= <- <-])%bind_Some)%bind_Some.
  apply encoder_finish_spec in Hend as (h & t & _ & Ht & _ & Hm & Hs).
  destruct (encoded_digests _ _ _ _ Hf) as (Hn & Hb & Hr). destruct (digests_trailer_facts _ _ Ht) as (Ho & Hby & Hroot).
  cbn [new_encoder en_digests] in *. change (dg_next no_digests) with 0 in Hn. change (dg_bytes no_digests) with 0 in Hb.
  change (dg_root no_digests) with (@nil N) in Hr. unfold summary_of, make_bundle_summary in Hs. destruct (_ && _); [|done].
  injection Hs as <-. cbn [bs_total_bytes bs_frames bs_root_sha256]. rewrite removelast_last, concat_app, length_app, length_app.
  cbn [concat length]. rewrite app_nil_r, Hroot, Hr. cbn [app]. split_and!; [lia|lia|lia|done].
Qed.

Lemma validate_bundle_sound source lines summary :
  validate_bundle maximum source = Some (lines, summary) ->
  concat lines = source /\ exists frames, encode_bundle maximum frames = Some (lines, summary).
Proof.
  unfold validate_bundle. intros (found & Hf & ->)%bind_Some.
  destruct (read_is_written _ new_encoder _ _ _ Hf) as (Hc & frames & ls & e & trailer & -> & Hfr & Hend). split; [done|].
  exists frames. unfold encode_bundle. rewrite Hfr. cbn [mbind option_bind]. by rewrite Hend.
Qed.
End reader.
