(* ===== verification/PortableTheorems.v ===== *)
(** * PortableTheorems: the properties of portable transfer

    Validation of a transfer, the snapshot it accepts, what a closed fence
    guarantees, and the two directions of the bundle's codec; with the shop of
    [Samples] as a service that is exported, and as one that cannot be imported. *)
From S2P Require Import Relational Models.
From S2P Require Export PortableSnapshot PortableFence PortableCodecSpec.
From S2P Require Import Prelude Values Json JsonText Sha256 Manifest Samples.

#[local] Existing Instances datum_float_repr datum_float_read shape_dates.

(** ** Transfers *)

(** C7: [validate_portable_members] decides what a transfer means.  It returns
    the members it was given exactly when they stand in canonical order without
    repetition, every record and snapshot is one that validation returns as it
    is, the events of each record are the chain of its versions from 1 up to the
    record or to its deletion, every record has such a history, the parents of
    every branch lead to a root, and every membership joins a branch and a record
    of the transfer, once, with at most one primary branch for a record. *)
Theorem validate_portable_members_spec `{FloatRepr} `{IsoDates} sp ms ms' :
  validate_portable_members sp ms = Some ms' <-> ms' = ms /\ TransferOK sp ms.
Proof. apply validate_transfer. Qed.

(** C8: A consistent service can be exported: what the snapshot of a store reads
    is a transfer that validation accepts, as long as it is within the bound on
    the number of members. *)
Theorem snapshot_validates `{FloatRead} `{IsoDates} sp principal s ms :
  Materialised sp s -> StoreOK s -> snapshot_members sp principal s = Ok ms ->
  Z.of_nat (length ms) <= MAX_STORE_MEMBERS -> validate_portable_members sp ms = Some ms.
Proof. intros Hm Hs Hms Hz. apply validate_transfer. split; [done|]. by eapply snapshot_transfer. Qed.

Definition stocked : store := store_after with_customer.
Definition stocked_members : list PortableStoreMember :=
  match snapshot_members shop_spec owner stocked with Ok ms => ms | Raise _ => [] end.

Definition id_ok (u : UUID) : bool := ((0 <? u) && (u <? 2 ^ 128))%N.
Definition tables_checked (sp : RecordSpecification) (s : store) : bool :=
  forallb (fun e : pystr * table => bool_decide (is_Some (spec_entity sp e.1))
    && forallb (fun r : UUID * row => id_ok r.1) (map_to_list (t_rows e.2))) (map_to_list (st_tables s))
  && forallb (fun h => id_ok (h_record h)) (st_history s).

Lemma materialised_checked sp s : detach_specification sp = Ok sp -> tables_checked sp s = true -> Materialised sp s.
Proof.
  intros Hd [Ht Hh]%andb_true_iff. rewrite forallb_map_to_list in Ht. rewrite forallb_forall in Hh. unfold id_ok in *.
  split; [done| | |].
  - intros e [t He]. specialize (Ht e t He). apply andb_true_iff in Ht as [Ht _]. by apply bool_decide_eq_true in Ht.
  - intros e u. unfold table_rows. destruct (st_tables s !! e) as [t|] eqn:He; [|by rewrite lookup_empty; intros []].
    intros [r Hr]. specialize (Ht e t He). apply andb_true_iff in Ht as [_ Ht]. cbn [snd] in Ht.
    rewrite forallb_map_to_list in Ht. specialize (Ht u r Hr). cbn [fst] in Ht. bools. lia.
  - intros h Hin%list_elem_of_In. specialize (Hh h Hin). bools. lia.
Qed.

Lemma stocked_materialised : Materialised shop_spec stocked.
Proof. apply materialised_checked; by vm_compute. Qed.

Lemma stocked_ok : StoreOK stocked.
Proof. apply (step_keeps shop_store); [exact customer_step|]. apply fresh_ok, shop_fresh. Qed.

Lemma snapshot_validates_witness : validate_portable_members shop_spec stocked_members = Some stocked_members.
Proof.
  apply (snapshot_validates shop_spec owner stocked); [exact stocked_materialised|exact stocked_ok|by vm_compute|by vm_compute].
Defined.

(** ** Closed fences *)

(** C9: While its fence is closed, a service stands still.  Whatever commands,
    transitions of the fence and imports are attempted, with commits lost or made
    durable without an answer, a store whose fence reads closed before and the
    same closed fence after has not changed: what was exported in between is the
    whole service. *)
Theorem closed_fence_freezes `{FloatRead} `{IsoDates} p f s s' :
  read_fence p s = Ok f -> fence_state f = FenceClosed -> rtc fence_step s s' -> read_fence p s' = Ok f -> s' = s.
Proof. apply closed_still. Qed.

Definition closed_fence : WriteAdmissionFence := {| fence_generation := 2; fence_state := FenceClosed |}.
Definition closing_answer := transition_fence (fair_attempt 8%N 1%N Committed) owner INITIAL_FENCE FenceClosed stocked.
Definition closed_store : store := closing_answer.2.
Definition late_customer : CreateRecordCommand :=
  {| cr_entity := lit "customer"; cr_record := [(lit "name", jstr (lit "Bob"))]; cr_key := lit "k9" |}.
(** A command and a second closing at the closed fence, both refused. *)
Definition refused := attempted_on (CreateRecord late_customer) (fair_attempt 9%N 1%N DurableCommit) closed_store.
Definition closed_again := transition_fence (fair_attempt 8%N 1%N DurableCommit) owner INITIAL_FENCE FenceClosed closed_store.

Lemma closed_fence_freezes_witness : closed_again.2 = closed_store.
Proof.
  apply (closed_fence_freezes owner closed_fence closed_store closed_again.2).
  - by vm_compute.
  - reflexivity.
  - apply rtc_once. apply (step_transition closed_store (fair_attempt 8%N 1%N DurableCommit) owner INITIAL_FENCE FenceClosed
      closed_again.1). unfold closed_again. destruct (transition_fence _ _ _ _ closed_store). reflexivity.
  - by vm_compute.
Defined.

Example commands_are_refused : is_success refused = false /\ bool_decide (ft_status <$> ok_of closed_again.1 = Some Stale).
Proof. by vm_compute. Qed.

(** ** Exporting, and importing into an empty store *)
Definition exported (sp : RecordSpecification) (s : store) : option (list PortableStoreMember) :=
  let s' := (transition_fence (fair_attempt 8%N 1%N Committed) owner INITIAL_FENCE FenceClosed s).2 in
  ok_of (open_snapshot (fair_attempt 8%N 1%N Committed) sp owner closed_fence s').

Definition imported (sp : RecordSpecification) (ms : list PortableStoreMember) : result fault StageResult * store :=
  stage (fair_attempt 8%N 1%N Committed) sp owner noon closed_fence ms (empty_store sp).

(** The service of a customer moves: the staged store is observed as the exported
    members, and staging them again changes nothing. *)
Example customer_moves :
  match exported shop_spec stocked with
  | Some ms =>
      let '(r, s') := imported shop_spec ms in
      bool_decide (sg_status <$> ok_of r = Some Staged)
      && observe (fair_attempt 8%N 1%N Committed) shop_spec owner closed_fence ms s'
      && bool_decide (sg_status <$> ok_of (stage (fair_attempt 8%N 1%N Committed) shop_spec owner noon closed_fence ms s').1
                      = Some AlreadyStaged)
  | None => false
  end = true.
Proof. by vm_compute. Qed.

(** *** Records that refer to an entity later in the order

    [_insert_members] inserts the records in the canonical order, where [item]
    comes before the [order] it refers to, and the keys of the domain tables are
    checked at every statement: the exported shop with its items passes
    validation and cannot be staged. *)
Definition spec_v2 : RecordSpecification := record_specification_of shop_v2.

Definition tried {A} (k : store_command A) (record : UUID) (s : store) : store :=
  match plan_of owner agent spec_v2 k with
  | Planned pl =>
      let a := fair_attempt record 1%N Committed in (mutate_once a (pl_specification pl) (pl_operation pl a) s).2
  | _ => s
  end.

Definition shop_with_items : store :=
  tried (CreateRecord {| cr_entity := lit "item"; cr_record := [(lit "order_id", jstr (uuid_str 6%N))]; cr_key := lit "k3" |}) 7%N
    (tried (CreateRecord {| cr_entity := lit "order"; cr_record := [(lit "customer_id", jstr (uuid_str 5%N))]; cr_key := lit "k2" |}) 6%N
      (tried (CreateRecord {| cr_entity := lit "customer"; cr_record := [(lit "name", jstr (lit "Ada"))]; cr_key := lit "k1" |}) 5%N
        (empty_store spec_v2))).

Example items_cannot_move :
  match exported spec_v2 shop_with_items with
  | Some ms =>
      (length ms =? 6)%nat && bool_decide (is_Some (validate_portable_members spec_v2 ms))
      && match imported spec_v2 ms with (Raise IntegrityError, s') => negb (has_logical_state s') | _ => false end
  | None => false
  end = true.
Proof. by vm_compute. Qed.

(** ** Bundles *)

(** C10: The reader of bundles accepts whatever the writer writes: the lines it
    spools are the lines written, frame by frame, and it finds the same
    sections, digests and sizes. *)
Theorem portable_bundle_roundtrip `{FloatRead} `{IsoDates} maximum frames lines summary :
  Forall (fun f => floats_valid (JObj f.2) = true) frames ->
  encode_bundle maximum frames = Some (lines, summary) ->
  validate_bundle maximum (concat lines) = Some (lines, summary).
Proof. apply written_is_read. Qed.

Definition shop_header : PortableHeader :=
  {| ph_package_version := lit "0.9.1"; ph_mcp_contract := lit "2"; ph_created_at := lit "2026-01-01T00:00:00.000000Z";
     ph_source_backend := SQLITE |}.
Definition shop_frames : list (SectionKind * list (pystr * json)) :=
  [ (S_header, header_object shop_header);
    (S_service, [(lit "slug", jstr (lit "shop")); (lit "revision", jint 3);
                 (lit "title", jstr [83; 104; 10; 34; 233; 128512]%N)]);
    (S_record, [(lit "price", jint (-12)); (lit "ids", JArr [jint 1; JNull])]) ].
Definition shop_bundle := encode_bundle DEFAULT_MAX_BUNDLE_BYTES shop_frames.
Definition shop_written := Eval vm_compute in shop_bundle.
Definition bundle_source : list N := match shop_written with Some (ls, _) => concat ls | None => [] end.

Lemma portable_bundle_roundtrip_witness :
  match shop_written with
  | Some (ls, s) => validate_bundle DEFAULT_MAX_BUNDLE_BYTES (concat ls) = Some (ls, s)
  | None => False
  end.
Proof.
  unfold shop_written. apply (portable_bundle_roundtrip DEFAULT_MAX_BUNDLE_BYTES shop_frames).
  - repeat (apply Forall_cons_2; [vm_compute; reflexivity|]). apply Forall_nil_2.
  - vm_compute. reflexivity.
Defined.

(** C11: Validation of an untrusted stream always ends with an answer, and accepts
    only what the writer can write: a stream it accepts is the concatenation of
    the lines it spools, which are the encoding of some frames; the summary
    counts its bytes, within the limit, and its frames, and the root digest is
    that of every line but the trailer. *)
Theorem accepted_bundle_was_written `{FloatRead} `{IsoDates} maximum source :
  validate_frames (S (length source)) maximum no_digests None 0 source <> Some None
  /\ forall lines summary, validate_bundle maximum source = Some (lines, summary) ->
       concat lines = source
       /\ (exists frames, encode_bundle maximum frames = Some (lines, summary))
       /\ bs_total_bytes summary = Z.of_nat (length source) /\ bs_total_bytes summary <= maximum
       /\ bs_frames summary = Z.of_nat (length lines)
       /\ bs_root_sha256 summary = sha256_hex (concat (removelast lines)).
Proof.
  split; [apply reader_total; lia|]. intros lines summary [Hc [frames Hf]]%validate_bundle_sound.
  destruct (encoded_summary _ _ _ _ Hf) as (Ht & Hm & Hn & Hr). rewrite Hc in Ht. split_and!; try done. by exists frames.
Qed.

Lemma accepted_bundle_was_written_witness :
  match shop_written with
  | Some (ls, s) => exists frames, encode_bundle DEFAULT_MAX_BUNDLE_BYTES frames = Some (ls, s)
  | None => False
  end.
Proof.
  unfold shop_written. destruct (accepted_bundle_was_written DEFAULT_MAX_BUNDLE_BYTES bundle_source) as [_ Hw].
  refine (proj1 (proj2 (Hw _ _ _))). vm_compute. reflexivity.
Defined.
